(* ===== verification/_CoqProject ===== *)
-Q . S2P
Prelude.v
Bitmap.v
Pmm.v
Kmalloc.v
Ring.v
Pipe.v
Memory.v
Alloc.v
Tmpfs.v
Bcache.v
Fs.v
FsInv.v
FsOps.v
FsDev.v
FsProps.v
Vfs.v
Signal.v
Pty.v
Wire.v
Net.v
Tcp.v
Sock.v
Paging.v
Wm.v
Sched.v
Proc.v
Bignum.v
X25519.v
Fips.v
Sha256.v
Rsa.v
Json.v
JsonParse.v
Jsonl.v
