(* ===== verification/Prelude.v ===== *)
(** AdventOS: a verification library for the kernel of [src/kernel/] and the libraries
    under [src/libcrypto/] and [src/libjson/].

    AdventOS is a 32-bit x86 operating system in C.  This development models the
    parts of its kernel that carry the system's own logic (memory, heap, page tables,
    tasks and processes, pipes and terminals, signals, the block cache and the
    filesystem above it, the mount table, and the network stack up to sockets) as
    executable functions on explicit states, and proves what each part promises to the
    others.  Of the user-space libraries it holds the number theory, the key exchange and
    the hashes below TLS, and the JSON library.

    * How the parts fit together

    The firmware memory map feeds the page allocator; the kernel heap lives in
    pages; temporary files and every buffer come from the heap.  The filesystem
    reads and writes sectors through the block cache, the mount table dispatches
    paths to the filesystem, and the network stack sends frames through a driver and
    calls TCP, which calls back into the stack (loopback) and into the application.
    Page tables and address spaces are made of frames of the page allocator; the
    scheduler runs the tasks of one table on several processors; fork, exit and wait
    join the table, the address spaces, the heap and the objects of open descriptors.
    RSA signs hashes with modular powers and draws its primes from the random
    generator, which hashes its own state; JSON records travel over byte streams.

    * Files, and the code they model

    - [Prelude]: machine integers as [Z] with explicit truncation ([u8], [u16],
      [u32], [u64], [s32]), arrays as lists with [zget]/[zset], counted loops
      ([zfor], [zfind]), the tactics [zb], [cases], [zdm] and shared lemmas.
    - [Bitmap]: byte-wise bitmaps, shared by [Pmm] and [Fs].
    - [Pmm]: [kernel/memmap.c] (Module Memmap) and [kernel/pmm.c] (Module PMM).
    - [Kmalloc]: [kernel/kmalloc.c]; block headers in a store, linked by address.
    - [Ring]: rings with a head and a tail, shared by [Pipe], [Pty] and [Sock].
    - [Pipe]: [kernel/pipe.c], with the reader and the writer also cut into single
      memory accesses for the two-processor theorem.
    - [Memory]: [kernel/string.c] over a byte memory.
    - [Alloc]: the interface of the allocator, discharged by the kernel heap.
    - [Tmpfs]: [kernel/tmpfs.c] over that interface.
    - [Bcache]: [kernel/bcache.c] over an abstract block device.
    - [Fs], [FsInv], [FsOps], [FsProps]: [kernel/fs.c], definitions, invariant,
      operations and theorems, over the interface of a world that stores sectors.
    - [FsDev]: that interface discharged by a block device and by the block cache.
    - [Vfs]: [kernel/vfs.c] over a record of filesystem operations.
    - [Signal]: [kernel/signal.c] with the user stack as byte memory.
    - [Pty]: [kernel/pty.c].
    - [Wire]: byte order of [kernel/net.h] and [ip_checksum].
    - [Net]: [kernel/net.c], [eth.c], [arp.c], [ip.c], [icmp.c], [udp.c].
    - [Tcp]: [kernel/tcp.c].
    - [Sock]: [kernel/sock.c] over [Tcp].
    - [Paging]: [kernel/paging.c] over [Pmm]; physical memory is a map of words.
    - [Wm]: the window registry of [kernel/wm.c] and what the end of a task does to it,
      to the framebuffer and to the keyboard.
    - [Sched]: the task table, the ring and [schedule] of [kernel/task.c], and the
      processor table of [kernel/smp.c]; each section under the lock is one operation.
    - [Proc]: creation, fork, exit, wait and the reaper of [kernel/task.c], with
      [task_switch.S], over [Sched], [Paging], [Wm], [Alloc] and the interface [Objects].
    - [Bignum]: [libcrypto/bignum.c] up to the modular inverse; a struct is its limbs
      and its count, and [val] is the number it stands for.
    - [X25519]: [libcrypto/x25519.c] on limbs of 64 bits, with the ladder of RFC 7748 on
      integers as reference.
    - [Fips]: SHA-256 as FIPS 180-4 defines it, its constants computed from primes.
    - [Sha256]: [libcrypto/sha256.c], [hkdf.c] and [random.c], with [Fips], RFC 2104 and
      RFC 5869 as references.
    - [Rsa]: the primality test of [bignum.c] and [libcrypto/rsa.c].
    - [Json], [JsonParse], [Jsonl]: [libjson/libjson.c]: encoder; parser with its arena
      and the grammar it follows; accessors, lines and the properties.

    A definition has the name of the C function it models; a global variable is a
    field of the component's state record; an early return is a conditional; -1 and
    NULL are values of the result.  A loop body that needed a name of its own is a
    definition mapped to the lines of the loop.

    * What the theorems show

    - [Pmm]: the page allocator hands out the lowest free page or run, never a page in
      use, and refines a set of free pages from [pmm_init] on.
    - [Kmalloc]: heap blocks are disjoint, aligned and large enough; freeing merges
      neighbours; no client sequence makes an operation read a bad header.
    - [Pipe]: pipes are FIFO under every interleaving of two processors; lemmas show
      that they keep their contract in every reachable table and refine a table of
      descriptors.
    - [Tmpfs]: temporary files refine a table of named byte strings.
    - [Bcache]: the block cache is coherent; lemmas add the write-back and the
      replacement order.
    - [FsProps]: files read back what was written, a remount restores the tree, and no
      sequence of calls breaks the invariant, with any faults of a block device and with
      the read faults of the disk under the cache (a failed write-back of the cache loses
      a sector, [Bcache.BCACHE.evicted_write_lost]); removing and creating change exactly
      one entry and the sectors of the file.
    - [Vfs]: path resolution, and by lemma the root listing.
    - [Signal]: signal delivery and return, and by lemma SIGKILL.
    - [Pty]: the two directions of a terminal, the line discipline, the hangup.
    - [Wire], [Net]: the Internet checksum; address resolution with ping, datagrams
      end to end.
    - [Tcp]: how far a received frame is read, every layer included; the loopback
      recursion ends; a transfer delivers each byte once, and by
      lemma a connection to the own host is established.
    - [Sock]: the form of the socket table in every reachable state, with the slots that
      a task resumed in [sock_connect] took over from another holder named apart; a connection of
      two sockets of one host is a bounded queue of bytes, whatever the sequence of
      calls; how two sockets come to be connected.
    - [Paging]: a page mapped or unmapped changes exactly one translation; copying an
      address space, and giving everything back when it fails; by lemma the identity
      map.
    - [Sched]: no task runs on two processors, in any run without the hazards below;
      round robin.
    - [Wm], [Proc]: fork, exit and wait, each with all that it changes and leaves alone;
      for exit also the windows, and the memory they give back when the window manager
      ends.
    - [Bignum]: the modular power is the power of the numbers; lemmas give every
      operation its number, the greatest common divisor and the inverse included.
    - [X25519]: the function of RFC 7748, for every scalar and point.
    - [Sha256]: any cut of a message into pieces hashes to its FIPS digest; lemmas show
      HMAC, HKDF and the generator against their references.
    - [Rsa]: the primality test accepts every prime of up to 2304 bits, and a generated key verifies what
      it signs.
    - [Jsonl]: the parser returns on every input and follows the grammar; the encoder
      writes exactly the text within its buffer; a record survives encoder, line and
      parser; lemmas show the accessors.

    * Bounds and fuel

    Loops bounded by a counter or a list are structural.  The others take fuel and a
    theorem gives an amount that is enough: string loops take the length of the
    string plus one; the heap walk takes the number of blocks; the growth loop of
    temporary files takes 32 doublings; the carry loop of the checksum takes two
    turns ([Wire.WIRE.fold16_done]); the recursion of [tcp_rx] takes [TCP_DEPTH]
    levels ([Tcp.TCP.tcp_rx_terminates]).  A blocking call runs to its return or to its next [task_yield],
    and the theorems say when it yields.  The ring of tasks has
    at most 32 elements, and the searches through it stop after 64 steps, which is
    enough whenever the ring is well formed ([Sched.SCHED.pick_next_ready_ring],
    [ring_remove_ring]).  On numbers of at most 4608 bits 9216 steps are enough for
    the greatest common divisor, 9218 for the inverse and 4608 for the primality test;
    the retry loops of key generation have no bound.  The JSON parser carries its own
    fuel, one more than the bytes that are left.

    * What is assumed

    Nothing is assumed about code of this repository that is modelled.  Devices
    (disks, network cards) and the clock are parameters with named hypotheses, and
    each has a concrete instance for which the theorems are applied.  Spinlocks and
    disabled interrupts make the sections they guard single steps; the pipe, which
    has no lock, is modelled access by access.  The operations of [Sched]
    have the conditions of the code only; its theorems are about runs without a hazard
    ([Sched.SCHED.hazards]: a task is woken or harvested while a processor still runs it,
    or the slot of a dead task is taken), and the lemmas
    [early_wake_runs_twice], [dead_slot_breaks_ring] and [wait_loses_wakeup] show what
    happens in the windows where the code does not ensure this.

    * Not modelled, and why

    The vendored compiler ([src/tcc/]), the user programs ([src/user/]), drivers
    (device registers, DMA, port input and output), interrupt and descriptor tables
    and the exchange of stacks (privileged instructions), and display strings are left
    out.  The program loader (and with it exec), system call dispatch, memory mapped
    files, the process filesystem, name resolution and DHCP, the C library, and of
    [src/libcrypto/] TLS, certificates, the signature curves and the ciphers are left out
    in favour of the parts above; of the window registry everything but the end of a
    task. *)

From stdpp Require Import base numbers list gmap.
From Stdlib Require Import ZArith Lia.

(** ** Machine integers

    The kernel is a 32-bit i386 program ([include/types.h]).  A w-bit unsigned
    value is a [Z] in [0, 2^w); the operators below are the truncations the C
    casts and unsigned arithmetic perform. *)

Global Open Scope Z_scope.

Declare Scope advent_scope.
Delimit Scope advent_scope with advent.

Definition u8 (x : Z) : Z := x mod 256.

Definition u16 (x : Z) : Z := x mod 65536.

Definition u32 (x : Z) : Z := x mod 4294967296.

Definition u64 (x : Z) : Z := x mod 18446744073709551616.

(** A C [int] obtained from an unsigned 32-bit value (two's complement). *)
Definition s32 (x : Z) : Z := u32 (x + 2147483648) - 2147483648.

Notation "x +u y" := (u32 (x + y)) (at level 50, left associativity) : advent_scope.
Notation "x -u y" := (u32 (x - y)) (at level 50, left associativity) : advent_scope.
Notation "x *u y" := (u32 (x * y)) (at level 40, left associativity) : advent_scope.

(** ** Arrays

    A C array is a list; every access the code makes is shown in range by the
    component's invariant (the list operations do nothing out of range). *)

Definition zlen {A} (l : list A) : Z := Z.of_nat (length l).

Definition zget {A} `{Inhabited A} (l : list A) (i : Z) : A := l !!! Z.to_nat i.

Definition zset {A} (l : list A) (i : Z) (x : A) : list A := <[Z.to_nat i := x]> l.

Definition ztake {A} (n : Z) (l : list A) : list A := take (Z.to_nat n) l.

Definition zdrop {A} (n : Z) (l : list A) : list A := drop (Z.to_nat n) l.

Definition zrep {A} (n : Z) (x : A) : list A := replicate (Z.to_nat n) x.

(** ** Loops

    [zfind n i p] is [for (k = i; k < i + n; k++) if (p(k)) return k;] and
    [zfor n i f s] is [for (k = i; k < i + n; k++) s = f(k, s);]. *)

Fixpoint zfind (n : nat) (i : Z) (p : Z -> bool) : option Z :=
  match n with
  | O => None
  | S n' => if p i then Some i else zfind n' (i + 1) p
  end.

Fixpoint zfor {St} (n : nat) (i : Z) (f : Z -> St -> St) (s : St) : St :=
  match n with
  | O => s
  | S n' => zfor n' (i + 1) f (f i s)
  end.

(** [countb p n] counts the indices of [0, n) at which [p] holds. *)
Fixpoint countb (p : Z -> bool) (n : nat) : Z :=
  match n with
  | O => 0
  | S n' => countb p n' + (if p (Z.of_nat n') then 1 else 0)
  end.

(** A byte list: every element fits in eight bits. *)
Definition bytes_ok (l : list Z) : Prop := Forall (fun b => 0 <= b < 256) l.

(** ** Automation *)

Create HintDb advent discriminated.
Create Rewrite HintDb advent.

Ltac zb :=
  repeat match goal with
  | H : (_ <? _) = true |- _ => apply Z.ltb_lt in H
  | H : (_ <? _) = false |- _ => apply Z.ltb_ge in H
  | H : (_ <=? _) = true |- _ => apply Z.leb_le in H
  | H : (_ <=? _) = false |- _ => apply Z.leb_gt in H
  | H : (_ =? _) = true |- _ => apply Z.eqb_eq in H
  | H : (_ =? _) = false |- _ => apply Z.eqb_neq in H
  | H : negb _ = true |- _ => apply negb_true_iff in H
  | H : negb _ = false |- _ => apply negb_false_iff in H
  | H : (_ && _) = true |- _ => apply andb_true_iff in H; destruct H
  | H : (_ || _) = false |- _ => apply orb_false_iff in H; destruct H
  end.

(** Case analysis on the first conditional or match of the goal. *)
Ltac cases :=
  match goal with
  | |- context [if ?b then _ else _] =>
      lazymatch type of b with bool => destruct b eqn:? | _ => destruct b end
  | |- context [match ?x with _ => _ end] => destruct x eqn:?
  end; zb.

Ltac cases_in H :=
  match type of H with
  | context [if ?b then _ else _] =>
      lazymatch type of b with bool => destruct b eqn:? | _ => destruct b end
  | context [match ?x with _ => _ end] => destruct x eqn:?
  end; zb.

Ltac zdm := unfold u8, u16, u32, u64, s32 in *; Z.div_mod_to_equations; lia.

(** ** Machine-integer lemmas *)

Lemma u8_range x : 0 <= u8 x < 256.
Proof. apply Z.mod_pos_bound; lia. Qed.

Lemma u16_range x : 0 <= u16 x < 65536.
Proof. apply Z.mod_pos_bound; lia. Qed.

Lemma u32_range x : 0 <= u32 x < 4294967296.
Proof. apply Z.mod_pos_bound; lia. Qed.

Lemma u8_small x : 0 <= x < 256 -> u8 x = x.
Proof. apply Z.mod_small. Qed.

Lemma u16_small x : 0 <= x < 65536 -> u16 x = x.
Proof. apply Z.mod_small. Qed.

Lemma u32_small x : 0 <= x < 4294967296 -> u32 x = x.
Proof. apply Z.mod_small. Qed.

Lemma u32_u32 x : u32 (u32 x) = u32 x.
Proof. apply u32_small, u32_range. Qed.

Lemma s32_small x : -2147483648 <= x < 2147483648 -> s32 x = x.
Proof. intros. unfold s32. rewrite u32_small; lia. Qed.

#[export] Hint Resolve u8_range u16_range u32_range : advent.
#[export] Hint Rewrite u32_u32 : advent.

(** Reduction of a value that is at most one modulus out of range. *)
Lemma mod_once N a : 0 < N -> - N <= a < 2 * N ->
  a mod N = if a <? 0 then a + N else if a <? N then a else a - N.
Proof.
  intros P R. repeat cases.
  - rewrite <- (Z.mod_add a 1 N) by lia. replace (a + 1 * N) with (a + N) by lia.
    apply Z.mod_small. lia.
  - apply Z.mod_small. lia.
  - rewrite <- (Z.mod_add a (-1) N) by lia. replace (a + -1 * N) with (a - N) by lia.
    apply Z.mod_small. lia.
Qed.

(** ** Bit-width lemmas *)

Lemma bits_above n x k : 0 <= x < 2 ^ n -> n <= k -> Z.testbit x k = false.
Proof.
  intros R L. destruct (decide (0 <= n)) as [N | N].
  - rewrite <- (Z.mod_small x (2 ^ n)) by done. by apply Z.mod_pow2_bits_high.
  - rewrite Z.pow_neg_r in R by lia. lia.
Qed.

Lemma bits_bound n x :
  0 <= n -> 0 <= x -> (forall k, n <= k -> Z.testbit x k = false) -> 0 <= x < 2 ^ n.
Proof.
  intros N X F. assert (E : x = x mod 2 ^ n).
  - apply Z.bits_inj'. intros k Rk. destruct (decide (k < n)) as [L | G].
    + by rewrite Z.mod_pow2_bits_low.
    + by rewrite Z.mod_pow2_bits_high, F by lia.
  - rewrite E. apply Z.mod_pos_bound. lia.
Qed.

Lemma lor_bound n x y : 0 <= n -> 0 <= x < 2 ^ n -> 0 <= y < 2 ^ n -> 0 <= Z.lor x y < 2 ^ n.
Proof.
  intros N X Y. apply bits_bound; [done | apply Z.lor_nonneg; lia |].
  intros k L. by rewrite Z.lor_spec, !(bits_above n) by lia.
Qed.

Lemma land_bound n x y : 0 <= n -> 0 <= x < 2 ^ n -> 0 <= Z.land x y < 2 ^ n.
Proof.
  intros N X. apply bits_bound; [done | apply Z.land_nonneg; lia |].
  intros k L. by rewrite Z.land_spec, (bits_above n) by lia.
Qed.

(** OR of numbers without a common bit is their sum. *)
Lemma lor_add n a b : 0 <= n -> 0 <= a < 2 ^ n -> Z.lor a (b * 2 ^ n) = a + b * 2 ^ n.
Proof.
  intros N A. assert (L : Z.land a (b * 2 ^ n) = 0).
  { apply Z.bits_inj'. intros k K. rewrite Z.land_spec, Z.bits_0, <- Z.shiftl_mul_pow2, Z.shiftl_spec by lia.
    destruct (decide (k < n)); [by rewrite (Z.testbit_neg_r _ (k - n)), andb_false_r by lia | by rewrite (bits_above n a) by lia]. }
  rewrite <- Z.lxor_lor by done. symmetry. by apply Z.add_nocarry_lxor.
Qed.

(** A mask of [n] bits at bit [m]. *)
Lemma land_ones_shift n m v : 0 <= n -> 0 <= m -> Z.land v (Z.ones n * 2 ^ m) = v / 2 ^ m mod 2 ^ n * 2 ^ m.
Proof.
  intros N M. rewrite <- !Z.shiftl_mul_pow2, <- Z.shiftr_div_pow2, <- Z.land_ones by lia.
  apply Z.bits_inj'. intros k K. rewrite Z.land_spec, !Z.shiftl_spec by lia.
  destruct (decide (k < m)); [by rewrite !(Z.testbit_neg_r _ (k - m)), andb_false_r by lia |].
  rewrite Z.land_spec, Z.shiftr_spec by lia. by replace (k - m + m) with k by lia.
Qed.

(** [x & ~(2^n - 1)] on 32-bit values clears the low [n] bits. *)
Lemma land_align n x :
  0 <= n <= 32 -> 0 <= x < 4294967296 ->
  Z.land x (u32 (Z.lnot (2 ^ n - 1))) = x / 2 ^ n * 2 ^ n.
Proof.
  intros N X. rewrite <- Z.shiftl_mul_pow2, <- Z.shiftr_div_pow2 by lia.
  replace (2 ^ n - 1) with (Z.ones n) by (rewrite Z.ones_equiv; lia).
  apply Z.bits_inj'. intros k K. rewrite Z.land_spec, Z.shiftl_spec by done.
  change 4294967296 with (2 ^ 32) in X. unfold u32. change 4294967296 with (2 ^ 32).
  destruct (decide (k < 32)) as [L | G].
  - rewrite Z.mod_pow2_bits_low, Z.lnot_spec by lia.
    destruct (decide (n <= k)) as [Le | Lt].
    + rewrite Z.ones_spec_high, Z.shiftr_spec by lia. rewrite andb_true_r. f_equal. lia.
    + rewrite Z.ones_spec_low by lia. rewrite (Z.testbit_neg_r _ (k - n)) by lia.
      apply andb_false_r.
  - rewrite (bits_above 32 x) by lia. simpl. symmetry.
    rewrite Z.shiftr_spec by lia. replace (k - n + n) with k by lia. by apply (bits_above 32); lia.
Qed.

(** ** Array lemmas *)

Section Arrays.
Context {A : Type} `{Inhabited A}.
Implicit Types (l : list A) (x : A) (i j n : Z).

Lemma zlen_nonneg l : 0 <= zlen l.
Proof. unfold zlen. lia. Qed.

Lemma zlen_zset l i x : zlen (zset l i x) = zlen l.
Proof. unfold zlen, zset. by rewrite length_insert. Qed.

Lemma zlen_app l1 l2 : zlen (l1 ++ l2) = zlen l1 + zlen l2.
Proof. unfold zlen. rewrite length_app. lia. Qed.

Lemma zlen_cons x l : zlen (x :: l) = zlen l + 1.
Proof. unfold zlen. simpl. lia. Qed.

Lemma zlen_ztake n l : 0 <= n -> zlen (ztake n l) = Z.min n (zlen l).
Proof. unfold zlen, ztake. rewrite length_take. lia. Qed.

Lemma zlen_zdrop n l : 0 <= n -> zlen (zdrop n l) = Z.max 0 (zlen l - n).
Proof. unfold zlen, zdrop. rewrite length_drop. lia. Qed.

Lemma zlen_zrep n x : 0 <= n -> zlen (zrep n x) = n.
Proof. unfold zlen, zrep. rewrite length_replicate. lia. Qed.

Lemma zget_lookup l i x : l !! Z.to_nat i = Some x -> zget l i = x.
Proof. intros E. unfold zget. by apply list_lookup_total_correct. Qed.

Lemma lookup_zget l i : 0 <= i < zlen l -> l !! Z.to_nat i = Some (zget l i).
Proof.
  unfold zlen. intros R. destruct (lookup_lt_is_Some_2 l (Z.to_nat i)) as [x E]; [lia |].
  by rewrite E, (zget_lookup _ _ _ E).
Qed.

Lemma zget_zset_eq l i x : 0 <= i < zlen l -> zget (zset l i x) i = x.
Proof.
  unfold zlen. intros R. apply zget_lookup. unfold zset.
  apply list_lookup_insert_eq. lia.
Qed.

Lemma zget_zset_ne l i j x : 0 <= i -> 0 <= j -> i <> j -> zget (zset l i x) j = zget l j.
Proof.
  intros. unfold zget, zset. rewrite !list_lookup_total_alt, list_lookup_insert_ne; [done | lia].
Qed.

Lemma zset_id l i : 0 <= i < zlen l -> zset l i (zget l i) = l.
Proof. intros R. unfold zset. apply list_insert_id, lookup_zget, R. Qed.

Lemma zset_zset l i x y : zset (zset l i x) i y = zset l i y.
Proof. unfold zset. apply list_insert_insert_eq. Qed.

Lemma zlist_eq l1 l2 :
  zlen l1 = zlen l2 -> (forall i, 0 <= i < zlen l1 -> zget l1 i = zget l2 i) -> l1 = l2.
Proof.
  intros L E. apply list_eq. intros k. unfold zlen in *.
  destruct (decide (k < length l1)%nat).
  - specialize (E (Z.of_nat k) ltac:(lia)). replace k with (Z.to_nat (Z.of_nat k)) by lia.
    rewrite !lookup_zget by (unfold zlen; lia). congruence.
  - rewrite !lookup_ge_None_2; [done | lia | lia].
Qed.

Lemma zget_zrep n x i : 0 <= i < n -> zget (zrep n x) i = x.
Proof. intros R. apply zget_lookup. unfold zrep. apply lookup_replicate. split; [done | lia]. Qed.

Lemma zget_app_l l1 l2 i : 0 <= i < zlen l1 -> zget (l1 ++ l2) i = zget l1 i.
Proof.
  intros R. apply zget_lookup. rewrite lookup_app_l by (unfold zlen in R; lia).
  by apply lookup_zget.
Qed.

Lemma zget_app_r l1 l2 i : zlen l1 <= i -> zget (l1 ++ l2) i = zget l2 (i - zlen l1).
Proof.
  unfold zlen. intros R. unfold zget. rewrite !list_lookup_total_alt, lookup_app_r by lia.
  by replace (Z.to_nat (i - Z.of_nat (length l1))) with (Z.to_nat i - length l1)%nat by lia.
Qed.

Lemma zget_zdrop l n i : 0 <= n -> 0 <= i -> zget (zdrop n l) i = zget l (n + i).
Proof.
  intros. unfold zget, zdrop. rewrite !list_lookup_total_alt, lookup_drop.
  by replace (Z.to_nat (n + i)) with (Z.to_nat n + Z.to_nat i)%nat by lia.
Qed.

Lemma zget_ztake l n i : 0 <= i < n -> zget (ztake n l) i = zget l i.
Proof.
  intros. unfold zget, ztake. rewrite !list_lookup_total_alt, lookup_take.
  rewrite decide_True; [done | lia].
Qed.

Lemma ztake_zdrop n l : ztake n l ++ zdrop n l = l.
Proof. apply take_drop. Qed.

End Arrays.

#[export] Hint Rewrite @zlen_zset @zlen_app @zlen_cons : advent.

(** ** Loop lemmas *)

Lemma zfind_Some n i p j :
  zfind n i p = Some j ->
  i <= j < i + Z.of_nat n /\ p j = true /\ forall k, i <= k < j -> p k = false.
Proof.
  revert i. induction n as [|n IH]; simpl; intros i E; [done |].
  destruct (p i) eqn:Ep.
  - injection E as <-. split; [lia | split; [done | intros; lia]].
  - destruct (IH _ E) as (R & Pj & F). split; [lia | split; [done |]].
    intros k Rk. destruct (decide (k = i)) as [-> | Ne]; [done | apply F; lia].
Qed.

Lemma zfind_None n i p :
  zfind n i p = None <-> forall k, i <= k < i + Z.of_nat n -> p k = false.
Proof.
  revert i. induction n as [|n IH]; simpl; intros i.
  - split; [intros; lia | done].
  - destruct (p i) eqn:Ep.
    + split; [done |]. intros F. rewrite F in Ep; [done | lia].
    + rewrite IH. split; intros F k Rk.
      * destruct (decide (k = i)) as [-> | Ne]; [done | apply F; lia].
      * apply F. lia.
Qed.

(** The search returns exactly the least index satisfying the test. *)
Lemma zfind_least n i p j :
  i <= j < i + Z.of_nat n -> p j = true -> (forall k, i <= k < j -> p k = false) ->
  zfind n i p = Some j.
Proof.
  intros R Pj F. destruct (zfind n i p) as [j'|] eqn:E.
  - destruct (zfind_Some _ _ _ _ E) as (R' & Pj' & F'). f_equal.
    destruct (Z.lt_trichotomy j' j) as [L | [-> | L]]; [| done |].
    + rewrite F in Pj' by lia. done.
    + rewrite F' in Pj by lia. done.
  - rewrite zfind_None in E. rewrite E in Pj; done.
Qed.

Lemma zfind_ext n i p q :
  (forall k, i <= k < i + Z.of_nat n -> p k = q k) -> zfind n i p = zfind n i q.
Proof.
  revert i. induction n as [|n IH]; simpl; intros i E; [done |].
  rewrite E by lia. destruct (q i); [done |]. apply IH. intros. apply E. lia.
Qed.

Lemma zfind_app n m i p :
  zfind (n + m) i p =
  match zfind n i p with Some j => Some j | None => zfind m (i + Z.of_nat n) p end.
Proof.
  revert i. induction n as [|n IH]; intros i; simpl; [by rewrite Z.add_0_r |].
  destruct (p i); [done |]. rewrite IH. destruct (zfind n (i + 1) p); [done |].
  f_equal. lia.
Qed.

(** Invariant rule for counted loops. *)
Lemma zfor_ind {St} (P : Z -> St -> Prop) n i (f : Z -> St -> St) s :
  P i s ->
  (forall k s, i <= k < i + Z.of_nat n -> P k s -> P (k + 1) (f k s)) ->
  P (i + Z.of_nat n) (zfor n i f s).
Proof.
  revert i s. induction n as [|n IH]; simpl; intros i s H0 Hs.
  - by rewrite Z.add_0_r.
  - replace (i + Z.of_nat (S n)) with ((i + 1) + Z.of_nat n) by lia.
    apply IH; [apply Hs; [lia | done] |]. intros. apply Hs; [lia | done].
Qed.

Lemma zfor_S_last {St} n i (f : Z -> St -> St) s :
  zfor (S n) i f s = f (i + Z.of_nat n) (zfor n i f s).
Proof.
  revert i s. induction n as [|n IH]; intros i s; [simpl; by rewrite Z.add_0_r |].
  change (zfor (S (S n)) i f s) with (zfor (S n) (i + 1) f (f i s)).
  rewrite IH. f_equal. lia.
Qed.

(** ** Counting lemmas *)

Lemma countb_ext p q n :
  (forall k, 0 <= k < Z.of_nat n -> p k = q k) -> countb p n = countb q n.
Proof.
  induction n as [|n IH]; intros E; simpl; [done |].
  rewrite IH by (intros; apply E; lia). by rewrite E by lia.
Qed.

Lemma countb_bounds p n : 0 <= countb p n <= Z.of_nat n.
Proof. induction n as [|n IH]; simpl; [lia |]. destruct (p (Z.of_nat n)); lia. Qed.

(** Flipping one index moves the count by one. *)
Lemma countb_set p q n j :
  0 <= j < Z.of_nat n -> p j = false -> q j = true ->
  (forall k, 0 <= k < Z.of_nat n -> k <> j -> q k = p k) -> countb q n = countb p n + 1.
Proof.
  induction n as [|n IH]; intros R Pj Qj E; simpl; [lia |].
  destruct (decide (j = Z.of_nat n)) as [-> | Ne].
  - rewrite Pj, Qj, (countb_ext q p n); [lia |]. intros; apply E; lia.
  - rewrite IH; [rewrite E by lia; lia | lia | done | done |]. intros; apply E; lia.
Qed.

Lemma countb_clear p q n j :
  0 <= j < Z.of_nat n -> p j = true -> q j = false ->
  (forall k, 0 <= k < Z.of_nat n -> k <> j -> q k = p k) -> countb q n = countb p n - 1.
Proof.
  intros R Pj Qj E. rewrite (countb_set q p n j); [lia | done | done | done |].
  intros. symmetry. by apply E.
Qed.

Lemma countb_full p n :
  countb p n = Z.of_nat n <-> forall k, 0 <= k < Z.of_nat n -> p k = true.
Proof.
  induction n as [|n IH]; simpl; [split; [intros; lia | done] |].
  pose proof (countb_bounds p n). split.
  - intros E. destruct (p (Z.of_nat n)) eqn:Ep; [| lia].
    intros k Rk. destruct (decide (k = Z.of_nat n)) as [-> | Ne]; [done |].
    apply IH; lia.
  - intros F. rewrite F by lia. rewrite (proj2 IH); [lia |]. intros; apply F; lia.
Qed.
