(* ===== verification/Bitmap.v ===== *)
(** Byte-array bitmaps.

    The page bitmap of [kernel/pmm.c] and the sector bitmap of [kernel/fs.c]
    use the same three expressions on a [uint8_t] array: bit [p & 7] of byte
    [p >> 3] is read, set and cleared.  This file holds the expressions and the
    laws both components use; the reading of a bit is related to
    [Z.testbit]. *)

From stdpp Require Import base numbers list.
From Stdlib Require Import ZArith Lia.
From S2P Require Import Prelude.

(** [(bm[p >> 3] >> (p & 7)) & 1] *)
Definition bm_get (bm : list Z) (p : Z) : Z :=
  Z.land (Z.shiftr (zget bm (Z.shiftr p 3)) (Z.land p 7)) 1.

(** [bm[p >> 3] |= (uint8_t)(1u << (p & 7))] *)
Definition bm_set (bm : list Z) (p : Z) : list Z :=
  zset bm (Z.shiftr p 3) (Z.lor (zget bm (Z.shiftr p 3)) (u8 (Z.shiftl 1 (Z.land p 7)))).

(** [bm[p >> 3] &= (uint8_t)~(1u << (p & 7))] *)
Definition bm_clear (bm : list Z) (p : Z) : list Z :=
  zset bm (Z.shiftr p 3)
    (Z.land (zget bm (Z.shiftr p 3)) (u8 (Z.lnot (Z.shiftl 1 (Z.land p 7))))).

(** The bit as a boolean, as a C condition reads it. *)
Definition bm_test (bm : list Z) (p : Z) : bool := negb (bm_get bm p =? 0).

(** [p] is a bit of the bitmap. *)
Definition bm_in (bm : list Z) (p : Z) : Prop := 0 <= p < 8 * zlen bm.

Section Laws.
Implicit Types (bm : list Z) (p q b k : Z).

Lemma shiftr3 p : Z.shiftr p 3 = p / 8.
Proof. rewrite Z.shiftr_div_pow2 by lia. done. Qed.

Lemma land7 p : Z.land p 7 = p mod 8.
Proof. change 7 with (Z.ones 3). rewrite Z.land_ones by lia. done. Qed.

Lemma bm_get_testbit bm p :
  0 <= p -> bm_get bm p = Z.b2z (Z.testbit (zget bm (p / 8)) (p mod 8)).
Proof.
  intros R. unfold bm_get. rewrite shiftr3, land7. change 1 with (Z.ones 1).
  rewrite Z.land_ones by lia. change (2 ^ 1) with 2.
  rewrite <- Z.bit0_mod, Z.shiftr_spec by lia. done.
Qed.

Lemma bm_test_testbit bm p :
  0 <= p -> bm_test bm p = Z.testbit (zget bm (p / 8)) (p mod 8).
Proof. intros R. unfold bm_test. rewrite bm_get_testbit by done. by destruct Z.testbit. Qed.

Lemma bm_get_01 bm p : 0 <= p -> bm_get bm p = if bm_test bm p then 1 else 0.
Proof. intros R. rewrite bm_test_testbit, bm_get_testbit by done. by destruct Z.testbit. Qed.

Lemma zlen_bm_set bm p : zlen (bm_set bm p) = zlen bm.
Proof. apply zlen_zset. Qed.

Lemma zlen_bm_clear bm p : zlen (bm_clear bm p) = zlen bm.
Proof. apply zlen_zset. Qed.

Lemma testbit_u8 x k : 0 <= k < 8 -> Z.testbit (u8 x) k = Z.testbit x k.
Proof.
  intros. unfold u8. change 256 with (2 ^ 8). rewrite Z.mod_pow2_bits_low by lia. done.
Qed.

Lemma testbit_one_shl j k : 0 <= j -> 0 <= k -> Z.testbit (Z.shiftl 1 j) k = (j =? k).
Proof.
  intros. rewrite Z.shiftl_1_l. rewrite Z.pow2_bits_eqb by lia. done.
Qed.

(** The condition [byte & (1u << k)] of the allocators. *)
Lemma land_one_shl x k : 0 <= k -> (Z.land x (Z.shiftl 1 k) =? 0) = negb (Z.testbit x k).
Proof.
  intros K. destruct (Z.testbit x k) eqn:E; simpl.
  - apply Z.eqb_neq. intros C. apply (f_equal (fun z => Z.testbit z k)) in C.
    rewrite Z.land_spec, testbit_one_shl, E, Z.eqb_refl, Z.bits_0 in C by done. done.
  - apply Z.eqb_eq. apply Z.bits_inj'. intros j J.
    rewrite Z.land_spec, testbit_one_shl, Z.bits_0 by done.
    destruct (Z.eqb_spec k j) as [<- |]; [by rewrite E | apply andb_false_r].
Qed.

(** Two bit numbers differ in the byte or in the bit position. *)
Lemma bit_addr_eqb p q :
  (p =? q) = (p / 8 =? q / 8) && (p mod 8 =? q mod 8).
Proof.
  apply eq_true_iff_eq. rewrite andb_true_iff, !Z.eqb_eq.
  split; [by intros -> |]. intros [E1 E2].
  rewrite (Z.div_mod p 8), (Z.div_mod q 8), E1, E2 by lia. done.
Qed.

Lemma bm_test_set bm p q :
  bm_in bm p -> 0 <= q -> bm_test (bm_set bm p) q = (p =? q) || bm_test bm q.
Proof.
  unfold bm_in. intros Rp Rq. rewrite !bm_test_testbit by done.
  unfold bm_set. rewrite shiftr3, land7, (bit_addr_eqb p q).
  assert (0 <= p / 8 < zlen bm) by (Z.div_mod_to_equations; lia).
  assert (0 <= q / 8) by (Z.div_mod_to_equations; lia).
  pose proof (Z.mod_pos_bound p 8). pose proof (Z.mod_pos_bound q 8).
  destruct (Z.eqb_spec (p / 8) (q / 8)) as [E | Ne]; simpl.
  - rewrite <- E, zget_zset_eq, Z.lor_spec, testbit_u8, testbit_one_shl by lia.
    apply orb_comm.
  - by rewrite zget_zset_ne by lia.
Qed.

Lemma bm_test_clear bm p q :
  bm_in bm p -> 0 <= q -> bm_test (bm_clear bm p) q = negb (p =? q) && bm_test bm q.
Proof.
  unfold bm_in. intros Rp Rq. rewrite !bm_test_testbit by done.
  unfold bm_clear. rewrite shiftr3, land7, (bit_addr_eqb p q).
  assert (0 <= p / 8 < zlen bm) by (Z.div_mod_to_equations; lia).
  assert (0 <= q / 8) by (Z.div_mod_to_equations; lia).
  pose proof (Z.mod_pos_bound p 8). pose proof (Z.mod_pos_bound q 8).
  destruct (Z.eqb_spec (p / 8) (q / 8)) as [E | Ne]; simpl.
  - rewrite <- E, zget_zset_eq, Z.land_spec, testbit_u8, Z.lnot_spec, testbit_one_shl by lia.
    apply andb_comm.
  - by rewrite zget_zset_ne by lia.
Qed.

Lemma bytes_ok_zget bm i : bytes_ok bm -> 0 <= i < zlen bm -> 0 <= zget bm i < 256.
Proof.
  intros B R. unfold bytes_ok in B. rewrite Forall_lookup in B. eapply B.
  by apply lookup_zget.
Qed.

Lemma bytes_ok_zset bm i b : bytes_ok bm -> 0 <= b < 256 -> bytes_ok (zset bm i b).
Proof. intros B R. by apply Forall_insert. Qed.

Lemma bytes_ok_bm_set bm p : bytes_ok bm -> bm_in bm p -> bytes_ok (bm_set bm p).
Proof.
  unfold bm_in. intros B R. apply bytes_ok_zset; [done |].
  apply (lor_bound 8); [done | | apply u8_range].
  apply bytes_ok_zget; [done |]. rewrite shiftr3. Z.div_mod_to_equations; lia.
Qed.

Lemma bytes_ok_bm_clear bm p : bytes_ok bm -> bm_in bm p -> bytes_ok (bm_clear bm p).
Proof.
  unfold bm_in. intros B R. apply bytes_ok_zset; [done |]. apply (land_bound 8); [done |].
  apply bytes_ok_zget; [done |]. rewrite shiftr3. Z.div_mod_to_equations; lia.
Qed.

(** A byte [0xFF] holds eight set bits: the allocators skip it whole. *)
Lemma bm_byte_ff bm b k :
  0 <= b -> 0 <= k < 8 -> zget bm b = 255 -> bm_test bm (8 * b + k) = true.
Proof.
  intros Rb Rk E. rewrite bm_test_testbit by lia.
  replace ((8 * b + k) / 8) with b by (Z.div_mod_to_equations; lia).
  replace ((8 * b + k) mod 8) with k by (Z.div_mod_to_equations; lia).
  rewrite E. change 255 with (Z.ones 8). rewrite Z.ones_spec_low; [done | lia].
Qed.

Lemma bm_test_rep_ff n p : 0 <= p < 8 * n -> bm_test (zrep n 255) p = true.
Proof.
  intros R. rewrite (Z.div_mod p 8) by lia. apply bm_byte_ff.
  - Z.div_mod_to_equations; lia.
  - pose proof (Z.mod_pos_bound p 8). lia.
  - apply zget_zrep. Z.div_mod_to_equations; lia.
Qed.

Lemma bm_test_rep_0 n p : 0 <= p < 8 * n -> bm_test (zrep n 0) p = false.
Proof.
  intros R. rewrite bm_test_testbit, zget_zrep, Z.bits_0; [done | | lia].
  Z.div_mod_to_equations; lia.
Qed.

Lemma bytes_ok_rep n b : 0 <= b < 256 -> bytes_ok (zrep n b).
Proof. intros. apply Forall_replicate. done. Qed.

End Laws.

#[export] Hint Resolve bytes_ok_bm_set bytes_ok_bm_clear bytes_ok_rep : advent.
#[export] Hint Rewrite zlen_bm_set zlen_bm_clear : advent.
