(* ===== verification/Pmm.v ===== *)
(** Physical memory manager: [kernel/pmm.c], with the firmware memory map of
    [kernel/memmap.c] it is initialised from.

    State: the page bitmap (one bit per 4 KiB page, 1 = used), the number of
    tracked pages and the number of used pages.  Every public operation runs
    under [g_pmm_lock] with interrupts off, so it is one atomic state
    transformer here.  Addresses are 32-bit, a [NULL] result is [0]. *)

From stdpp Require Import base numbers list.
From Stdlib Require Import ZArith Lia.
From S2P Require Import Prelude Bitmap.

(** ** The E820 memory map ([memmap.c]) *)

Module Memmap.

Record e820_entry := E820 { base : Z; length : Z; type : Z; attrs : Z }.

#[export] Instance e820_entry_inhabited : Inhabited e820_entry := populate (E820 0 0 0 0).

Definition E820_TYPE_USABLE : Z := 1.
Definition MAX_ENTRIES : Z := 64.

Record memmap := Memmap { g_count : Z; g_entries : list e820_entry }.

(** The boot sector leaves the entry count and the entries at 0x8000; [raw_n]
    and [raw] are what it left there. *)
Definition memmap_init (raw_n : Z) (raw : list e820_entry) : memmap :=
  let n := if MAX_ENTRIES <? raw_n then 0 else raw_n in
  Memmap n raw.

Definition memmap_count (mm : memmap) : Z := g_count mm.

(** [None] is the null pointer. *)
Definition memmap_entry (mm : memmap) (i : Z) : option e820_entry :=
  if g_count mm <=? i then None else Some (zget (g_entries mm) i).

Definition memmap_total_usable (mm : memmap) : Z :=
  zfor (Z.to_nat (g_count mm)) 0 (fun i total =>
    if type (zget (g_entries mm) i) =? E820_TYPE_USABLE
    then u64 (total + length (zget (g_entries mm) i)) else total) 0.

(** Returns the size and the base of the best region. *)
Definition memmap_largest_usable_above (mm : memmap) (min_addr : Z) : Z * Z :=
  zfor (Z.to_nat (g_count mm)) 0 (fun i '(best_size, best_base) =>
    let e := zget (g_entries mm) i in
    if negb (type e =? E820_TYPE_USABLE) then (best_size, best_base) else
    let end_ := u64 (base e + length e) in
    if end_ <=? min_addr then (best_size, best_base) else
    let base := if base e <? min_addr then min_addr else base e in
    let size := u64 (end_ - base) in
    if best_size <? size then (size, base) else (best_size, best_base)) (0, 0).

End Memmap.

(** ** The page bitmap *)

Module PMM.
Import Memmap.

Definition PMM_PAGE_SIZE : Z := 4096.
Definition PMM_PAGE_SHIFT : Z := 12.
Definition PMM_MAX_PAGES : Z := 65536.
Definition PMM_BITMAP_BYTES : Z := 8192.

Record pmm := Pmm { g_bitmap : list Z; g_total_pages : Z; g_used_pages : Z }.

#[export] Instance pmm_eq_dec : EqDecision pmm.
Proof. solve_decision. Defined.

Definition bit_get (s : pmm) (p : Z) : Z := bm_get (g_bitmap s) p.
Definition bit_set (s : pmm) (p : Z) : pmm :=
  Pmm (bm_set (g_bitmap s) p) (g_total_pages s) (g_used_pages s).
Definition bit_clear (s : pmm) (p : Z) : pmm :=
  Pmm (bm_clear (g_bitmap s) p) (g_total_pages s) (g_used_pages s).

Definition add_used (d : Z) (s : pmm) : pmm :=
  Pmm (g_bitmap s) (g_total_pages s) (u32 (g_used_pages s + d)).

(** [if (p_end > g_total_pages) p_end = g_total_pages;] *)
Definition clamp_end (s : pmm) (p_end : Z) : Z :=
  if g_total_pages s <? p_end then g_total_pages s else p_end.

Definition mark_range_used (start end_ : Z) (s : pmm) : pmm :=
  let p_start := Z.shiftr start PMM_PAGE_SHIFT in
  let p_end := Z.shiftr (u32 (end_ + PMM_PAGE_SIZE - 1)) PMM_PAGE_SHIFT in
  let p_end := clamp_end s p_end in
  zfor (Z.to_nat (p_end - p_start)) p_start (fun p s =>
    if bit_get s p =? 0 then add_used 1 (bit_set s p) else s) s.

Definition mark_range_free (start end_ : Z) (s : pmm) : pmm :=
  let p_start := Z.shiftr (u32 (start + PMM_PAGE_SIZE - 1)) PMM_PAGE_SHIFT in
  let p_end := Z.shiftr end_ PMM_PAGE_SHIFT in
  let p_end := clamp_end s p_end in
  zfor (Z.to_nat (p_end - p_start)) p_start (fun p s =>
    if negb (bit_get s p =? 0) then add_used (-1) (bit_clear s p) else s) s.

(** First loop of [pmm_init]: the highest end of a usable region. *)
Definition usable_max_end (mm : memmap) : Z :=
  zfor (Z.to_nat (memmap_count mm)) 0 (fun i max_end =>
    match memmap_entry mm i with
    | None => max_end
    | Some e =>
        if negb (type e =? E820_TYPE_USABLE) then max_end else
        let end_ := u64 (base e + length e) in
        if max_end <? end_ then end_ else max_end
    end) 0.

(** Second loop of [pmm_init]: free the usable regions.  The casts to
    [uintptr_t] are the two [u32]. *)
Definition free_usable (mm : memmap) (s : pmm) : pmm :=
  zfor (Z.to_nat (memmap_count mm)) 0 (fun i s =>
    match memmap_entry mm i with
    | None => s
    | Some e =>
        if negb (type e =? E820_TYPE_USABLE) then s else
        let st := base e in
        let f := u64 (base e + length e) in
        if 4294967296 <=? st then s else
        let f := if 4294967296 <? f then 4294967296 else f in
        mark_range_free (u32 st) (u32 f) s
    end) s.

(** [kernel_start] and [bss_end] are the linker symbols. *)
Definition pmm_init (kernel_start bss_end : Z) (mm : memmap) : pmm :=
  let bitmap := zrep PMM_BITMAP_BYTES 255 in
  let max_end := usable_max_end mm in
  let max_end := if 4294967296 <? max_end then 4294967296 else max_end in
  let actual := u32 (Z.shiftr (max_end + PMM_PAGE_SIZE - 1) PMM_PAGE_SHIFT) in
  let actual := if PMM_MAX_PAGES <? actual then PMM_MAX_PAGES else actual in
  let s := Pmm bitmap actual actual in
  let s := free_usable mm s in
  let s := mark_range_used 0 PMM_PAGE_SIZE s in
  let s := mark_range_used 32768 36864 s in
  mark_range_used kernel_start bss_end s.

(** The two nested loops of [pmm_alloc_page]: a byte's eight bits yield a page,
    the end of the tracked range, or nothing. *)
Inductive scan_result := ScanNext | ScanNull | ScanHit (page : Z).

Fixpoint scan_bits (s : pmm) (byte : Z) (n : nat) (bit : Z) : scan_result :=
  match n with
  | O => ScanNext
  | S n' =>
      let page := u32 (byte * 8 + bit) in
      if page =? 0 then scan_bits s byte n' (bit + 1)
      else if g_total_pages s <=? page then ScanNull
      else if Z.land (zget (g_bitmap s) byte) (Z.shiftl 1 bit) =? 0 then ScanHit page
      else scan_bits s byte n' (bit + 1)
  end.

Fixpoint scan_bytes (s : pmm) (n : nat) (byte : Z) : scan_result :=
  match n with
  | O => ScanNext
  | S n' =>
      if zget (g_bitmap s) byte =? 255 then scan_bytes s n' (byte + 1)
      else match scan_bits s byte 8 0 with
           | ScanNext => scan_bytes s n' (byte + 1)
           | r => r
           end
  end.

Definition pmm_alloc_page (s : pmm) : pmm * Z :=
  let total_bytes := Z.shiftr (g_total_pages s + 7) 3 in
  match scan_bytes s (Z.to_nat total_bytes) 0 with
  | ScanHit page =>
      (add_used 1 (bit_set s page), u32 (Z.shiftl page PMM_PAGE_SHIFT))
  | _ => (s, 0)
  end.

(** [while (k < n && !bit_get(start + k)) k++;] *)
Fixpoint free_run_len (s : pmm) (start : Z) (fuel : nat) (k : Z) : Z :=
  match fuel with
  | O => k
  | S fuel' => if bit_get s (u32 (start + k)) =? 0 then free_run_len s start fuel' (k + 1) else k
  end.

(** The outer [while]; [start] grows by at least one per turn, so the number of
    pages bounds the turns. *)
Fixpoint find_run (s : pmm) (n : Z) (fuel : nat) (start : Z) : option Z :=
  match fuel with
  | O => None
  | S fuel' =>
      if u32 (start + n) <=? g_total_pages s then
        let k := free_run_len s start (Z.to_nat n) 0 in
        if k =? n then Some start else find_run s n fuel' (u32 (start + (k + 1)))
      else None
  end.

Definition pmm_alloc_contiguous (n : Z) (s : pmm) : pmm * Z :=
  if n =? 0 then (s, 0)
  else if n =? 1 then pmm_alloc_page s
  else match find_run s n (Z.to_nat (g_total_pages s)) 1 with
       | Some start =>
           (add_used n (zfor (Z.to_nat n) 0 (fun i s => bit_set s (u32 (start + i))) s),
            u32 (Z.shiftl start PMM_PAGE_SHIFT))
       | None => (s, 0)
       end.

Definition pmm_free_page (page : Z) (s : pmm) : pmm :=
  if negb (Z.land page (PMM_PAGE_SIZE - 1) =? 0) then s else
  let p := Z.shiftr page PMM_PAGE_SHIFT in
  if (p <? g_total_pages s) && negb (bit_get s p =? 0)
  then add_used (-1) (bit_clear s p) else s.

(** The loop of [pmm_free_contiguous], which stops at the first page outside
    the tracked range. *)
Fixpoint free_run (start : Z) (n : nat) (i : Z) (s : pmm) : pmm :=
  match n with
  | O => s
  | S n' =>
      let p := u32 (start + i) in
      if g_total_pages s <=? p then s
      else free_run start n' (i + 1)
             (if negb (bit_get s p =? 0) then add_used (-1) (bit_clear s p) else s)
  end.

Definition pmm_free_contiguous (page n : Z) (s : pmm) : pmm :=
  if negb (Z.land page (PMM_PAGE_SIZE - 1) =? 0) then s else
  free_run (Z.shiftr page PMM_PAGE_SHIFT) (Z.to_nat n) 0 s.

Definition pmm_total_pages (s : pmm) : Z := g_total_pages s.
Definition pmm_used_pages (s : pmm) : Z := g_used_pages s.
Definition pmm_free_pages (s : pmm) : Z := u32 (g_total_pages s - g_used_pages s).

(** ** Specification

    A page is free when its bit is clear; page 0 is never handed out. *)

Definition page_used (s : pmm) (p : Z) : bool := bm_test (g_bitmap s) p.

(** A page the single-page allocator may return. *)
Definition allocatable (s : pmm) (p : Z) : bool := negb (page_used s p).

(** The pages [start .. start + n - 1] are all free. *)
Definition run_free (s : pmm) (n start : Z) : bool :=
  match zfind (Z.to_nat n) start (page_used s) with Some _ => false | None => true end.

(** Well-formed allocator: the bitmap has its static size, pages past the end
    of RAM are marked used, and the used counter counts the set bits. *)
Record pmm_ok (s : pmm) : Prop := PmmOk {
  ok_len : zlen (g_bitmap s) = PMM_BITMAP_BYTES;
  ok_bytes : bytes_ok (g_bitmap s);
  ok_total : 0 <= g_total_pages s <= PMM_MAX_PAGES;
  ok_used : g_used_pages s = countb (page_used s) (Z.to_nat (g_total_pages s));
  ok_tail : forall p, g_total_pages s <= p < PMM_MAX_PAGES -> page_used s p = true
}.

(** The operations the kernel calls, as data, for runs of any length. *)
Inductive pmm_op :=
  | AllocPage | AllocContiguous (n : Z) | FreePage (page : Z) | FreeContiguous (page n : Z).

Definition run_op (o : pmm_op) (s : pmm) : pmm * Z :=
  match o with
  | AllocPage => pmm_alloc_page s
  | AllocContiguous n => pmm_alloc_contiguous n s
  | FreePage page => (pmm_free_page page s, 0)
  | FreeContiguous page n => (pmm_free_contiguous page n s, 0)
  end.

(** Arguments in the ranges the C types and the callers allow: requests are far
    below 2^32 pages (see [find_run]'s [start + n]). *)
Definition op_ok (o : pmm_op) : Prop :=
  match o with
  | AllocPage => True
  | AllocContiguous n => 0 <= n < 4294836224
  | FreePage page => 0 <= page < 4294967296
  | FreeContiguous page n => 0 <= page < 4294967296 /\ 0 <= n < 4293918720
  end.

(** The pages an operation releases. *)
Definition op_releases (o : pmm_op) (p : Z) : Prop :=
  match o with
  | FreePage page => page = p * PMM_PAGE_SIZE
  | FreeContiguous page n =>
      page mod 4096 = 0 /\ page <= p * PMM_PAGE_SIZE < page + n * PMM_PAGE_SIZE
  | _ => False
  end.

(** The pages an operation takes, given the address it returned. *)
Definition op_takes (o : pmm_op) (addr p : Z) : Prop :=
  addr <> 0 /\
  match o with
  | AllocPage => addr = p * PMM_PAGE_SIZE
  | AllocContiguous n => addr <= p * PMM_PAGE_SIZE < addr + n * PMM_PAGE_SIZE
  | _ => False
  end.

Fixpoint run_ops (l : list pmm_op) (s : pmm) : pmm :=
  match l with
  | [] => s
  | o :: l' => run_ops l' (fst (run_op o s))
  end.

(** ** Elementary steps *)

Lemma bit_get_used s p : 0 <= p -> (bit_get s p =? 0) = negb (page_used s p).
Proof.
  intros R. unfold bit_get, page_used. rewrite bm_get_01 by done. by destruct bm_test.
Qed.

Lemma tracked_in s p : pmm_ok s -> 0 <= p < PMM_MAX_PAGES -> bm_in (g_bitmap s) p.
Proof.
  intros OK. unfold bm_in. rewrite (ok_len _ OK). unfold PMM_BITMAP_BYTES, PMM_MAX_PAGES. lia.
Qed.

Lemma used_bounds s : pmm_ok s -> 0 <= g_used_pages s <= g_total_pages s.
Proof.
  intros OK. rewrite (ok_used _ OK). pose proof (ok_total _ OK).
  pose proof (countb_bounds (page_used s) (Z.to_nat (g_total_pages s))). lia.
Qed.

(** Taking a free page. *)
Lemma take_page s p :
  pmm_ok s -> 0 <= p < g_total_pages s -> page_used s p = false ->
  pmm_ok (add_used 1 (bit_set s p)) /\
  forall q, 0 <= q -> page_used (add_used 1 (bit_set s p)) q = (p =? q) || page_used s q.
Proof.
  intros OK R U. pose proof (ok_total _ OK) as T. pose proof (used_bounds _ OK).
  unfold PMM_MAX_PAGES in T.
  assert (In : bm_in (g_bitmap s) p) by (apply tracked_in; [done | unfold PMM_MAX_PAGES; lia]).
  assert (S : forall q, 0 <= q ->
    page_used (add_used 1 (bit_set s p)) q = (p =? q) || page_used s q).
  { intros q Rq. unfold page_used. simpl. by apply bm_test_set. }
  split; [| done]. split; simpl.
  - rewrite zlen_bm_set. apply OK.
  - apply bytes_ok_bm_set; [apply OK | done].
  - apply OK.
  - rewrite (countb_set (page_used s) _ _ p), <- (ok_used _ OK), u32_small; try done; try lia.
    + by rewrite S, Z.eqb_refl by lia.
    + intros k Rk Ne. rewrite S by lia. by destruct (Z.eqb_spec p k); [congruence |].
  - intros q Rq. rewrite S by lia. rewrite (ok_tail _ OK) by done. by rewrite orb_true_r.
Qed.

(** Giving a used page back. *)
Lemma give_page s p :
  pmm_ok s -> 0 <= p < g_total_pages s -> page_used s p = true ->
  pmm_ok (add_used (-1) (bit_clear s p)) /\
  forall q, 0 <= q -> page_used (add_used (-1) (bit_clear s p)) q = negb (p =? q) && page_used s q.
Proof.
  intros OK R U. pose proof (ok_total _ OK) as T. pose proof (used_bounds _ OK).
  unfold PMM_MAX_PAGES in T.
  assert (In : bm_in (g_bitmap s) p) by (apply tracked_in; [done | unfold PMM_MAX_PAGES; lia]).
  assert (S : forall q, 0 <= q ->
    page_used (add_used (-1) (bit_clear s p)) q = negb (p =? q) && page_used s q).
  { intros q Rq. unfold page_used. simpl. by apply bm_test_clear. }
  assert (C : countb (page_used (add_used (-1) (bit_clear s p))) (Z.to_nat (g_total_pages s))
              = g_used_pages s - 1).
  { rewrite (countb_clear (page_used s) _ _ p), <- (ok_used _ OK); try done; try lia.
    - by rewrite S, Z.eqb_refl by lia.
    - intros k Rk Ne. rewrite S by lia. by destruct (Z.eqb_spec p k); [congruence |]. }
  pose proof (countb_bounds (page_used (add_used (-1) (bit_clear s p)))
                (Z.to_nat (g_total_pages s))).
  split; [| done]. split; simpl.
  - rewrite zlen_bm_clear. apply OK.
  - apply bytes_ok_bm_clear; [apply OK | done].
  - apply OK.
  - rewrite C, u32_small; lia.
  - intros q Rq. rewrite S by (simpl in Rq; lia). rewrite (ok_tail _ OK) by done.
    destruct (Z.eqb_spec p q); [simpl in Rq; lia | done].
Qed.

(** [s'] is [s] with the pages of [P] set to [b] and the rest untouched. *)
Definition repaint (b : bool) (P : Z -> Prop) (s s' : pmm) : Prop :=
  pmm_ok s' /\ g_total_pages s' = g_total_pages s /\
  forall q, 0 <= q -> (P q -> page_used s' q = b) /\ (~ P q -> page_used s' q = page_used s q).

Lemma repaint_refl b (P : Z -> Prop) s :
  pmm_ok s -> (forall q, 0 <= q -> P q -> page_used s q = b) -> repaint b P s s.
Proof. intros OK E. split; [done | split; [done |]]. intros q R. split; auto. Qed.

Lemma repaint_take b (P Q : Z -> Prop) s s' p :
  repaint b P s s' -> (b = true) -> 0 <= p < g_total_pages s -> page_used s' p = false ->
  (forall q, Q q <-> p = q \/ P q) -> repaint b Q s (add_used 1 (bit_set s' p)).
Proof.
  intros (OK & T & E) -> R U HQ.
  destruct (take_page s' p OK) as [OK' E']; [lia | done |].
  split; [done | split; [done |]]. intros q Rq. rewrite E', HQ by done.
  destruct (E q Rq) as [E1 E2]. destruct (Z.eqb_spec p q); simpl; naive_solver.
Qed.

Lemma repaint_give b (P Q : Z -> Prop) s s' p :
  repaint b P s s' -> (b = false) -> 0 <= p < g_total_pages s -> page_used s' p = true ->
  (forall q, Q q <-> p = q \/ P q) -> repaint b Q s (add_used (-1) (bit_clear s' p)).
Proof.
  intros (OK & T & E) -> R U HQ.
  destruct (give_page s' p OK) as [OK' E']; [lia | done |].
  split; [done | split; [done |]]. intros q Rq. rewrite E', HQ by done.
  destruct (E q Rq) as [E1 E2]. destruct (Z.eqb_spec p q); simpl; naive_solver.
Qed.

Lemma repaint_skip b (P Q : Z -> Prop) s s' p :
  repaint b P s s' -> 0 <= p -> page_used s' p = b ->
  (forall q, Q q <-> p = q \/ P q) -> repaint b Q s s'.
Proof.
  intros (OK & T & E) R U HQ. split; [done | split; [done |]]. intros q Rq. rewrite HQ.
  destruct (E q Rq) as [E1 E2]. naive_solver.
Qed.

Lemma repaint_iff b (P Q : Z -> Prop) s s' :
  repaint b P s s' -> (forall q, 0 <= q -> P q <-> Q q) -> repaint b Q s s'.
Proof.
  intros (OK & T & E) HQ. split; [done | split; [done |]]. intros q Rq.
  rewrite <- HQ by done. by apply E.
Qed.

(** ** Range marking *)

Lemma shiftr12 x : Z.shiftr x PMM_PAGE_SHIFT = x / 4096.
Proof. unfold PMM_PAGE_SHIFT. by rewrite Z.shiftr_div_pow2 by lia. Qed.

Lemma mark_used_loop s p_start n :
  pmm_ok s -> 0 <= p_start -> p_start + Z.of_nat n <= g_total_pages s ->
  repaint true (fun q => p_start <= q < p_start + Z.of_nat n) s
    (zfor n p_start (fun p s =>
       if bit_get s p =? 0 then add_used 1 (bit_set s p) else s) s).
Proof.
  intros OK R L.
  apply (zfor_ind (fun k s' => repaint true (fun q => p_start <= q < k) s s')).
  - apply repaint_refl; [done | intros; lia].
  - intros k s' Rk H. rewrite bit_get_used by lia.
    destruct (page_used s' k) eqn:U; simpl.
    + eapply (repaint_skip _ _ _ _ _ k); [exact H | lia | done |]. intros; cbv beta; lia.
    + eapply repaint_take; [exact H | done | lia | done |]. intros; cbv beta; lia.
Qed.

Lemma mark_free_loop s p_start n :
  pmm_ok s -> 0 <= p_start -> p_start + Z.of_nat n <= g_total_pages s ->
  repaint false (fun q => p_start <= q < p_start + Z.of_nat n) s
    (zfor n p_start (fun p s =>
       if negb (bit_get s p =? 0) then add_used (-1) (bit_clear s p) else s) s).
Proof.
  intros OK R L.
  apply (zfor_ind (fun k s' => repaint false (fun q => p_start <= q < k) s s')).
  - apply repaint_refl; [done | intros; lia].
  - intros k s' Rk H. rewrite bit_get_used, negb_involutive by lia.
    destruct (page_used s' k) eqn:U.
    + eapply repaint_give; [exact H | done | lia | done |]. intros; cbv beta; lia.
    + eapply (repaint_skip _ _ _ _ _ k); [exact H | lia | done |]. intros; cbv beta; lia.
Qed.

Lemma clamp_end_spec s e : clamp_end s e = Z.min e (g_total_pages s).
Proof. unfold clamp_end. cases; lia. Qed.

(** Every tracked page that meets [start, end) becomes used. *)
Lemma mark_range_used_spec s start end_ :
  pmm_ok s -> 0 <= start -> 0 <= end_ <= 4294963200 ->
  repaint true (fun q => start / 4096 <= q /\ q * 4096 < end_ /\ q < g_total_pages s) s
    (mark_range_used start end_ s).
Proof.
  intros OK R E. pose proof (ok_total _ OK) as T. unfold mark_range_used.
  rewrite clamp_end_spec, !shiftr12. unfold PMM_PAGE_SIZE. rewrite u32_small by lia.
  set (p := start / 4096). set (e := Z.min _ _).
  assert (0 <= p) by (apply Z.div_pos; lia).
  destruct (decide (p <= e)) as [L | G].
  - eapply repaint_iff; [apply mark_used_loop; [done | done |]|].
    + unfold e. lia.
    + intros q Rq. rewrite Z2Nat.id by lia. unfold e, p. Z.div_mod_to_equations. lia.
  - replace (Z.to_nat (e - p)) with O by lia.
    apply repaint_refl; [done |]. intros q Rq HQ. exfalso. unfold e, p in *.
    Z.div_mod_to_equations. lia.
Qed.

(** Every tracked page contained in [start, end) becomes free. *)
Lemma mark_range_free_spec s start end_ :
  pmm_ok s -> 0 <= start <= 4294963200 -> 0 <= end_ ->
  repaint false (fun q => start <= q * 4096 /\ (q + 1) * 4096 <= end_ /\ q < g_total_pages s) s
    (mark_range_free start end_ s).
Proof.
  intros OK R E. pose proof (ok_total _ OK) as T. unfold mark_range_free.
  rewrite clamp_end_spec, !shiftr12. unfold PMM_PAGE_SIZE. rewrite u32_small by lia.
  set (p := (_ - 1) / 4096). set (e := Z.min _ _).
  assert (0 <= p) by (apply Z.div_pos; lia).
  destruct (decide (p <= e)) as [L | G].
  - eapply repaint_iff; [apply mark_free_loop; [done | done |]|].
    + unfold e. lia.
    + intros q Rq. rewrite Z2Nat.id by lia. unfold e, p. Z.div_mod_to_equations. lia.
  - replace (Z.to_nat (e - p)) with O by lia.
    apply repaint_refl; [done |]. intros q Rq HQ. exfalso. unfold e, p in *.
    Z.div_mod_to_equations. lia.
Qed.

(** ** Single-page allocation *)

(** A scan reports the least allocatable page from [lo] on, or that there is
    none below [hi]. *)
Definition scan_spec (s : pmm) (lo hi : Z) (r : scan_result) : Prop :=
  let cand p := 1 <= p < g_total_pages s /\ page_used s p = false in
  match r with
  | ScanHit p => lo <= p /\ cand p /\ forall q, lo <= q < p -> ~ cand q
  | ScanNext => forall q, lo <= q < hi -> ~ cand q
  | ScanNull => forall q, lo <= q -> ~ cand q
  end.

Lemma scan_bits_spec s byte n bit :
  pmm_ok s -> 0 <= byte < PMM_BITMAP_BYTES -> 0 <= bit -> bit + Z.of_nat n = 8 ->
  scan_spec s (byte * 8 + bit) (byte * 8 + 8) (scan_bits s byte n bit).
Proof.
  intros OK Rb. unfold PMM_BITMAP_BYTES in Rb. revert bit.
  induction n as [|n IH]; intros bit R1 R2; cbn [scan_bits].
  - intros q Rq. lia.
  - rewrite u32_small, land_one_shl by lia.
    assert (U : page_used s (byte * 8 + bit) = Z.testbit (zget (g_bitmap s) byte) bit).
    { unfold page_used. rewrite bm_test_testbit by lia. f_equal; [f_equal |];
        Z.div_mod_to_equations; lia. }
    assert (Skip : ~ (1 <= byte * 8 + bit < g_total_pages s
                      /\ page_used s (byte * 8 + bit) = false) ->
      scan_spec s (byte * 8 + bit) (byte * 8 + 8) (scan_bits s byte n (bit + 1))).
    { intros NC. specialize (IH (bit + 1) ltac:(lia) ltac:(lia)). revert IH.
      replace (byte * 8 + (bit + 1)) with (byte * 8 + bit + 1) by lia.
      destruct (scan_bits s byte n (bit + 1)) as [| | p]; unfold scan_spec.
      - intros F q Rq. destruct (decide (q = byte * 8 + bit)) as [-> |]; [done | apply F; lia].
      - intros F q Rq. destruct (decide (q = byte * 8 + bit)) as [-> |]; [done | apply F; lia].
      - intros (L & C & F). split; [lia | split; [done |]]. intros q Rq.
        destruct (decide (q = byte * 8 + bit)) as [-> |]; [done | apply F; lia]. }
    rewrite <- U. repeat cases.
    + apply Skip. lia.
    + intros q Rq. lia.
    + simpl. split; [lia | split; [split; [lia | done] |]]. intros q Rq. lia.
    + apply Skip. intros [_ C]. congruence.
Qed.

Lemma scan_bytes_spec s n byte :
  pmm_ok s -> 0 <= byte -> byte + Z.of_nat n <= PMM_BITMAP_BYTES ->
  scan_spec s (byte * 8) ((byte + Z.of_nat n) * 8) (scan_bytes s n byte).
Proof.
  intros OK. revert byte. induction n as [|n IH]; intros byte R1 R2; cbn [scan_bytes].
  - intros q Rq. lia.
  - assert (Skip : (forall q, byte * 8 <= q < byte * 8 + 8 ->
                      ~ (1 <= q < g_total_pages s /\ page_used s q = false)) ->
      scan_spec s (byte * 8) ((byte + Z.of_nat (S n)) * 8) (scan_bytes s n (byte + 1))).
    { intros NC. specialize (IH (byte + 1) ltac:(lia) ltac:(lia)). revert IH.
      destruct (scan_bytes s n (byte + 1)) as [| | p]; unfold scan_spec.
      - intros F q Rq. destruct (decide (q < byte * 8 + 8)); [apply NC; lia | apply F; lia].
      - intros F q Rq. destruct (decide (q < byte * 8 + 8)); [apply NC; lia | apply F; lia].
      - intros (L & C & F). split; [lia | split; [done |]]. intros q Rq.
        destruct (decide (q < byte * 8 + 8)); [apply NC; lia | apply F; lia]. }
    destruct (Z.eqb_spec (zget (g_bitmap s) byte) 255) as [E | Ne].
    + apply Skip. intros q Rq [_ C]. unfold page_used in C.
      replace q with (8 * byte + (q - 8 * byte)) in C by lia.
      rewrite bm_byte_ff in C by (done || lia). done.
    + pose proof (scan_bits_spec s byte 8 0 OK ltac:(lia) ltac:(lia) ltac:(lia)) as H.
      rewrite Z.add_0_r in H. destruct (scan_bits s byte 8 0) as [| | p].
      * apply Skip, H.
      * exact H.
      * exact H.
Qed.

(** [pmm_alloc_page] is first fit: its byte-skipping two-level scan returns
    the lowest free tracked page other than page 0, marks exactly that page
    used, and returns [NULL] with the state unchanged when there is none. *)
Lemma alloc_page_first_fit s :
  pmm_ok s ->
  pmm_alloc_page s =
  match zfind (Z.to_nat (g_total_pages s - 1)) 1 (allocatable s) with
  | Some p => (add_used 1 (bit_set s p), p * PMM_PAGE_SIZE)
  | None => (s, 0)
  end.
Proof.
  intros OK. pose proof (ok_total _ OK) as T. unfold PMM_MAX_PAGES in T.
  unfold pmm_alloc_page. rewrite shiftr3. set (nb := (g_total_pages s + 7) / 8).
  assert (B : 0 <= nb <= PMM_BITMAP_BYTES /\ g_total_pages s <= nb * 8).
  { unfold nb, PMM_BITMAP_BYTES. Z.div_mod_to_equations. lia. }
  pose proof (scan_bytes_spec s (Z.to_nat nb) 0 OK ltac:(lia) ltac:(lia)) as H.
  assert (None : (forall q, 0 <= q < g_total_pages s ->
      ~ (1 <= q < g_total_pages s /\ page_used s q = false)) ->
    zfind (Z.to_nat (g_total_pages s - 1)) 1 (allocatable s) = None).
  { intros NC. apply zfind_None. intros k Rk. unfold allocatable.
    destruct (page_used s k) eqn:U; [done |]. exfalso. apply (NC k); [lia | split; [lia | done]]. }
  destruct (scan_bytes s (Z.to_nat nb) 0) as [| | p]; simpl in H.
  - rewrite None; [done |]. intros q Rq. apply H. lia.
  - rewrite None; [done |]. intros q Rq. apply H. lia.
  - destruct H as (L & [Rp U] & F).
    rewrite (zfind_least _ _ _ p); [| lia | unfold allocatable; by rewrite U |].
    + f_equal. unfold PMM_PAGE_SHIFT, PMM_PAGE_SIZE. rewrite Z.shiftl_mul_pow2 by lia.
      rewrite u32_small; lia.
    + intros k Rk. unfold allocatable. destruct (page_used s k) eqn:Uk; [done |].
      exfalso. apply (F k); [lia | split; [lia | done]].
Qed.

(** ** Contiguous allocation *)

Lemma free_run_len_spec s start fuel k :
  0 <= start -> 0 <= k -> start + k + Z.of_nat fuel < 4294967296 ->
  let r := free_run_len s start fuel k in
  k <= r <= k + Z.of_nat fuel /\
  (forall j, k <= j < r -> page_used s (start + j) = false) /\
  (r < k + Z.of_nat fuel -> page_used s (start + r) = true).
Proof.
  intros R. revert k. induction fuel as [|fuel IH]; intros k Rk L; cbn [free_run_len].
  - split; [lia | split; intros; lia].
  - rewrite u32_small, bit_get_used by lia. destruct (page_used s (start + k)) eqn:U; simpl.
    + split; [lia | split; [intros; lia | done]].
    + destruct (IH (k + 1) ltac:(lia) ltac:(lia)) as (B & F & E).
      split; [lia | split].
      * intros j Rj. destruct (decide (j = k)) as [-> |]; [done | apply F; lia].
      * intros Lt. apply E. lia.
Qed.

Lemma run_free_spec s n start :
  run_free s n start = true <-> forall j, start <= j < start + Z.of_nat (Z.to_nat n) ->
    page_used s j = false.
Proof.
  unfold run_free. rewrite <- zfind_None. by destruct zfind.
Qed.

(** The skip [start += k + 1] loses no candidate. *)
Lemma find_run_spec s n fuel start :
  pmm_ok s -> 2 <= n < 4294836224 -> 1 <= start <= g_total_pages s + 1 ->
  g_total_pages s + 1 - start <= Z.of_nat fuel ->
  find_run s n fuel start = zfind (Z.to_nat (g_total_pages s + 1 - n - start)) start (run_free s n).
Proof.
  intros OK Rn. pose proof (ok_total _ OK) as T. unfold PMM_MAX_PAGES in T. revert start.
  induction fuel as [|fuel IH]; intros start R L; cbn [find_run].
  { replace (Z.to_nat _) with O by lia. done. }
  rewrite u32_small by lia. destruct (Z.leb_spec (start + n) (g_total_pages s)) as [Le | Gt].
  2: { replace (Z.to_nat _) with O by lia. done. }
  pose proof (free_run_len_spec s start (Z.to_nat n) 0 ltac:(lia) ltac:(lia) ltac:(lia)) as H.
  cbv zeta in H. set (k := free_run_len s start (Z.to_nat n) 0) in *.
  destruct H as (B & F & E). destruct (Z.eqb_spec k n) as [Ek | Ne].
  - symmetry. apply zfind_least; [lia | | intros; lia].
    apply run_free_spec. intros j Rj. replace j with (start + (j - start)) by lia. apply F. lia.
  - rewrite u32_small, IH by lia.
    set (m := Z.to_nat (g_total_pages s + 1 - n - start)).
    assert (Blocked : forall q, start <= q <= start + k -> run_free s n q = false).
    { intros q Rq. destruct (run_free s n q) eqn:Q; [| done].
      rewrite run_free_spec in Q. rewrite Q in E by lia. discriminate E. lia. }
    destruct (decide (k + 1 <= Z.of_nat m)) as [Lm | Gm].
    + replace m with (Z.to_nat (k + 1) + Z.to_nat (g_total_pages s + 1 - n - (start + (k + 1))))%nat
        by (unfold m in *; lia).
      rewrite zfind_app, (proj2 (zfind_None (Z.to_nat (k + 1)) start _)).
      * by rewrite Z2Nat.id by lia.
      * intros q Rq. apply Blocked. lia.
    + rewrite (proj2 (zfind_None m _ _)) by (intros q Rq; apply Blocked; lia).
      replace (Z.to_nat _) with O by (unfold m in *; lia). done.
Qed.

(** [pmm_alloc_contiguous] for two pages or more is first fit: it returns
    the lowest start of a run of [n] free tracked pages not containing page 0,
    marks exactly the run used, and returns [NULL] with the state unchanged
    when no such run exists; the search loop terminates. *)
Lemma alloc_contiguous_first_fit s n :
  pmm_ok s -> 2 <= n < 4294836224 ->
  pmm_alloc_contiguous n s =
  match zfind (Z.to_nat (g_total_pages s - n)) 1 (run_free s n) with
  | Some p => (add_used n (zfor (Z.to_nat n) 0 (fun i s => bit_set s (u32 (p + i))) s),
               p * PMM_PAGE_SIZE)
  | None => (s, 0)
  end.
Proof.
  intros OK R. pose proof (ok_total _ OK) as T. unfold PMM_MAX_PAGES in T.
  unfold pmm_alloc_contiguous. rewrite (proj2 (Z.eqb_neq n 0)), (proj2 (Z.eqb_neq n 1)) by lia.
  rewrite find_run_spec by (done || lia).
  replace (g_total_pages s + 1 - n - 1) with (g_total_pages s - n) by lia.
  destruct (zfind _ 1 (run_free s n)) as [p|] eqn:E; [| done].
  apply zfind_Some in E. destruct E as (Rp & _ & _). f_equal.
  unfold PMM_PAGE_SHIFT, PMM_PAGE_SIZE. rewrite Z.shiftl_mul_pow2 by lia.
  rewrite u32_small; lia.
Qed.

(** C1. Both allocations are first fit.  The byte-skipping two-level scan of
    [pmm_alloc_page] returns the lowest free tracked page other than page 0 and marks
    exactly that page used; [pmm_alloc_contiguous] for two pages or more returns the
    lowest start of a run of [n] free tracked pages without page 0 and marks exactly the
    run used.  Each returns [NULL] with the state unchanged when there is none, and both
    searches terminate. *)
Theorem alloc_first_fit s n :
  pmm_ok s -> 2 <= n < 4294836224 ->
  pmm_alloc_page s =
  match zfind (Z.to_nat (g_total_pages s - 1)) 1 (allocatable s) with
  | Some p => (add_used 1 (bit_set s p), p * PMM_PAGE_SIZE)
  | None => (s, 0)
  end /\
  pmm_alloc_contiguous n s =
  match zfind (Z.to_nat (g_total_pages s - n)) 1 (run_free s n) with
  | Some p => (add_used n (zfor (Z.to_nat n) 0 (fun i s => bit_set s (u32 (p + i))) s),
               p * PMM_PAGE_SIZE)
  | None => (s, 0)
  end.
Proof. intros OK R. split; [by apply alloc_page_first_fit | by apply alloc_contiguous_first_fit]. Qed.

(** Marking a free run and adding its length at once is the same as taking its
    pages one by one. *)
Lemma take_run s p n :
  pmm_ok s -> 0 <= p -> p + Z.of_nat n <= g_total_pages s ->
  (forall q, p <= q < p + Z.of_nat n -> page_used s q = false) ->
  repaint true (fun q => p <= q < p + Z.of_nat n) s
    (add_used (Z.of_nat n) (zfor n 0 (fun i s => bit_set s (u32 (p + i))) s)).
Proof.
  intros OK R L F. pose proof (ok_total _ OK) as T. unfold PMM_MAX_PAGES in T.
  induction n as [|n IH].
  - cbn [zfor]. change (Z.of_nat 0) with 0. replace (add_used 0 s) with s.
    + apply repaint_refl; [done |]. intros; lia.
    + unfold add_used. pose proof (used_bounds s OK). rewrite Z.add_0_r, u32_small by lia.
      by destruct s.
  - specialize (IH ltac:(lia) ltac:(intros; apply F; lia)).
    set (s' := add_used (Z.of_nat n) _) in IH.
    assert (E : add_used (Z.of_nat (S n)) (zfor (S n) 0 (fun i s => bit_set s (u32 (p + i))) s)
                = add_used 1 (bit_set s' (p + Z.of_nat n))).
    { rewrite zfor_S_last, Z.add_0_l, u32_small by lia. unfold s', add_used, bit_set. simpl.
      f_equal. unfold u32. rewrite Z.add_mod_idemp_l by lia. f_equal. lia. }
    rewrite E. eapply repaint_take; [exact IH | done | lia | |].
    + destruct IH as (_ & _ & U). destruct (U (p + Z.of_nat n) ltac:(lia)) as [_ U2].
      rewrite U2 by lia. apply F. lia.
    + intros q. cbv beta. lia.
Qed.

(** ** Freeing *)

Lemma land_page_mask x : (Z.land x (PMM_PAGE_SIZE - 1) =? 0) = (x mod 4096 =? 0).
Proof.
  change (PMM_PAGE_SIZE - 1) with (Z.ones 12). by rewrite Z.land_ones by lia.
Qed.

(** A page that is used is released, anything else is left alone. *)
Lemma release_if_used s0 s p (P Q : Z -> Prop) :
  repaint false P s0 s -> 0 <= p < g_total_pages s0 -> (forall q, Q q <-> p = q \/ P q) ->
  repaint false Q s0 (if negb (bit_get s p =? 0) then add_used (-1) (bit_clear s p) else s).
Proof.
  intros H R HQ. rewrite bit_get_used, negb_involutive by lia.
  destruct (page_used s p) eqn:U.
  - eapply repaint_give; [exact H | done | lia | done | done].
  - eapply (repaint_skip _ _ _ _ _ p); [exact H | lia | done | done].
Qed.

Lemma free_page_spec s page :
  pmm_ok s -> 0 <= page < 4294967296 ->
  repaint false (fun q => page = q * PMM_PAGE_SIZE /\ q < g_total_pages s) s (pmm_free_page page s).
Proof.
  intros OK R. unfold pmm_free_page. rewrite land_page_mask, shiftr12. unfold PMM_PAGE_SIZE.
  destruct (Z.eqb_spec (page mod 4096) 0) as [A | NA]; simpl.
  2: { apply repaint_refl; [done |]. intros q Rq [-> _]. by rewrite Z_mod_mult in NA. }
  destruct (Z.ltb_spec (page / 4096) (g_total_pages s)) as [L | G]; simpl.
  - eapply (release_if_used s s (page / 4096) (fun _ => False)).
    + apply repaint_refl; done.
    + split; [apply Z.div_pos; lia | done].
    + intros q. Z.div_mod_to_equations. lia.
  - apply repaint_refl; [done |]. intros q Rq [-> Lq]. rewrite Z_div_mult in G by lia. lia.
Qed.

Lemma free_run_spec start n i s0 s :
  repaint false (fun q => start <= q < start + i /\ q < g_total_pages s0) s0 s ->
  0 <= start -> 0 <= i -> start + i + Z.of_nat n < 4294967296 ->
  repaint false (fun q => start <= q < start + i + Z.of_nat n /\ q < g_total_pages s0) s0
    (free_run start n i s).
Proof.
  intros H R. revert i s H. induction n as [|n IH]; intros i s H Ri L; cbn [free_run].
  - eapply repaint_iff; [exact H |]. intros; cbv beta; lia.
  - rewrite u32_small by lia. assert (T : g_total_pages s = g_total_pages s0) by apply H.
    destruct (Z.leb_spec (g_total_pages s) (start + i)) as [Le | Gt].
    + eapply repaint_iff; [exact H |]. intros; cbv beta; lia.
    + eapply repaint_iff; [apply (IH (i + 1)); [| lia | lia] |].
      * eapply release_if_used; [exact H | lia |]. intros; cbv beta; lia.
      * intros; cbv beta; lia.
Qed.

Lemma free_contiguous_spec s page n :
  pmm_ok s -> 0 <= page < 4294967296 -> 0 <= n < 4293918720 ->
  repaint false (fun q => page mod 4096 = 0 /\
      page <= q * PMM_PAGE_SIZE < page + n * PMM_PAGE_SIZE /\ q < g_total_pages s) s
    (pmm_free_contiguous page n s).
Proof.
  intros OK R Rn. unfold pmm_free_contiguous. rewrite land_page_mask, shiftr12.
  unfold PMM_PAGE_SIZE. destruct (Z.eqb_spec (page mod 4096) 0) as [A | NA]; simpl.
  2: { apply repaint_refl; [done |]. intros q Rq [? _]. done. }
  eapply repaint_iff.
  - apply free_run_spec; [apply repaint_refl; [done | intros; lia] | | lia |];
      Z.div_mod_to_equations; lia.
  - intros q Rq. cbv beta. Z.div_mod_to_equations. lia.
Qed.

(** ** The allocator as a set of pages *)

(** [s'] differs from [s] by an operation that took the pages [take] and
    released the pages [give]. *)
Definition step_ok (take give : Z -> Prop) (s s' : pmm) : Prop :=
  pmm_ok s' /\ g_total_pages s' = g_total_pages s /\
  forall p, 0 <= p ->
    (take p -> 1 <= p < g_total_pages s /\ page_used s p = false /\ page_used s' p = true) /\
    (give p -> p < g_total_pages s -> page_used s' p = false) /\
    (~ take p -> ~ give p -> page_used s' p = page_used s p).

Lemma step_take take (s s' : pmm) :
  repaint true take s s' ->
  (forall p, 0 <= p -> take p -> 1 <= p < g_total_pages s /\ page_used s p = false) ->
  step_ok take (fun _ => False) s s'.
Proof.
  intros (OK & T & E) F. split; [done | split; [done |]]. intros p Rp.
  destruct (E p Rp) as [E1 E2]. specialize (F p Rp). naive_solver.
Qed.

Lemma step_give give (s s' : pmm) :
  repaint false (fun q => give q /\ q < g_total_pages s) s s' ->
  step_ok (fun _ => False) give s s'.
Proof.
  intros (OK & T & E). split; [done | split; [done |]]. intros p Rp.
  destruct (E p Rp) as [E1 E2]. split; [done | split; [auto |]]. intros _ NG. apply E2. tauto.
Qed.

Lemma step_iff (take take' give give' : Z -> Prop) s s' :
  step_ok take give s s' ->
  (forall p, 0 <= p -> (take p <-> take' p) /\ (give p <-> give' p)) ->
  step_ok take' give' s s'.
Proof.
  intros (OK & T & E) F. split; [done | split; [done |]]. intros p Rp.
  destruct (F p Rp) as [F1 F2]. rewrite <- F1, <- F2. by apply E.
Qed.

Lemma step_refl s : pmm_ok s -> step_ok (fun _ => False) (fun _ => False) s s.
Proof. intros OK. split; [done | split; [done |]]. intros; tauto. Qed.

Lemma alloc_page_step s :
  pmm_ok s ->
  step_ok (op_takes AllocPage (snd (pmm_alloc_page s))) (fun _ => False) s (fst (pmm_alloc_page s)).
Proof.
  intros OK. rewrite alloc_page_first_fit by done.
  destruct (zfind _ 1 (allocatable s)) as [p|] eqn:E; simpl.
  - apply zfind_Some in E. destruct E as (R & A & _). unfold allocatable in A.
    apply negb_true_iff in A. apply (step_iff (fun q => p = q) _ (fun _ => False)).
    + apply step_take; [| intros q Rq <-; split; [lia | done]].
      eapply (repaint_take _ (fun _ => False)); [by apply repaint_refl | done | lia | done |].
      intros; tauto.
    + intros q Rq. unfold op_takes, PMM_PAGE_SIZE. lia.
  - eapply step_iff; [by apply step_refl |]. intros; unfold op_takes; tauto.
Qed.

Lemma alloc_contiguous_step s n :
  pmm_ok s -> op_ok (AllocContiguous n) ->
  step_ok (op_takes (AllocContiguous n) (snd (pmm_alloc_contiguous n s))) (fun _ => False) s
    (fst (pmm_alloc_contiguous n s)).
Proof.
  intros OK Rn. simpl in Rn. destruct (decide (n = 0)) as [-> | N0].
  { eapply step_iff; [by apply step_refl |]. intros; simpl; unfold op_takes; tauto. }
  destruct (decide (n = 1)) as [-> | N1].
  { change (pmm_alloc_contiguous 1 s) with (pmm_alloc_page s).
    eapply step_iff; [by apply alloc_page_step |].
    intros p Rp. unfold op_takes. rewrite alloc_page_first_fit by done.
    destruct zfind; simpl; unfold PMM_PAGE_SIZE; lia. }
  rewrite alloc_contiguous_first_fit by (done || lia).
  destruct (zfind _ 1 (run_free s n)) as [p|] eqn:E; simpl.
  - apply zfind_Some in E. destruct E as (R & A & _).
    pose proof (proj1 (run_free_spec _ _ _) A) as F.
    apply (step_iff (fun q => p <= q < p + Z.of_nat (Z.to_nat n)) _ (fun _ => False)).
    + apply step_take; [| intros q Rq Hq; split; [lia | by apply F]].
      pose proof (take_run s p (Z.to_nat n) OK ltac:(lia) ltac:(lia) F) as TR.
      by replace (add_used (Z.of_nat (Z.to_nat n))) with (add_used n) in TR by (f_equal; lia).
    + intros q Rq. unfold op_takes, PMM_PAGE_SIZE. lia.
  - eapply step_iff; [by apply step_refl |]. intros; unfold op_takes; tauto.
Qed.

Lemma run_op_step o s :
  pmm_ok s -> op_ok o ->
  step_ok (op_takes o (snd (run_op o s))) (op_releases o) s (fst (run_op o s)).
Proof.
  intros OK Oo. destruct o as [| n | page | page n]; cbn [run_op fst snd].
  - apply (step_iff _ _ (fun _ => False) _ _ _ (alloc_page_step _ OK)). simpl. tauto.
  - apply (step_iff _ _ (fun _ => False) _ _ _ (alloc_contiguous_step _ _ OK Oo)). simpl. tauto.
  - apply (step_iff (fun _ => False) _ (op_releases (FreePage page))).
    + apply step_give. by apply free_page_spec.
    + intros. unfold op_takes. tauto.
  - apply (step_iff (fun _ => False) _ (op_releases (FreeContiguous page n))).
    + apply step_give. eapply repaint_iff; [apply free_contiguous_spec; [done | |]; apply Oo |].
      intros q Rq. simpl. tauto.
    + intros. unfold op_takes. tauto.
Qed.

Lemma run_ops_ok l s : pmm_ok s -> Forall op_ok l -> pmm_ok (run_ops l s).
Proof.
  revert s. induction l as [|o l IH]; intros s OK Ho; [done |].
  inversion Ho; subst. apply IH; [| done]. by apply run_op_step.
Qed.

Lemma run_ops_keep l s p :
  pmm_ok s -> Forall op_ok l -> Forall (fun o => ~ op_releases o p) l ->
  0 <= p -> page_used s p = true -> page_used (run_ops l s) p = true.
Proof.
  revert s. induction l as [|o l IH]; intros s OK Ho Hr Rp U; [done |].
  inversion Ho; inversion Hr; subst. simpl.
  destruct (run_op_step o s OK) as (OK' & _ & E); [done |]. apply IH; [done .. |].
  destruct (E p Rp) as (E1 & E2 & E3).
  destruct (page_used (fst (run_op o s)) p) eqn:U'; [done |]. exfalso.
  assert (C : false = page_used s p); [apply E3; [naive_solver | done] | congruence].
Qed.

(** ** Initialisation *)

(** Some usable E820 region covers the whole page [p]. *)
Definition usable_page (mm : memmap) (p : Z) : Prop :=
  exists i e, 0 <= i < g_count mm /\ memmap_entry mm i = Some e /\ type e = E820_TYPE_USABLE /\
    base e <= p * PMM_PAGE_SIZE /\ (p + 1) * PMM_PAGE_SIZE <= u64 (base e + length e).

(** E820 values fit their C types; regions start in the first 4 GiB less one
    page, or at or above 4 GiB. *)
Definition memmap_ok (mm : memmap) : Prop :=
  forall i e, memmap_entry mm i = Some e ->
    0 <= base e < 18446744073709551616 /\ 0 <= length e < 18446744073709551616 /\
    ~ (4294963200 < base e < 4294967296).

Lemma free_usable_spec mm s :
  memmap_ok mm -> pmm_ok s ->
  pmm_ok (free_usable mm s) /\ g_total_pages (free_usable mm s) = g_total_pages s /\
  forall p, 0 <= p -> page_used (free_usable mm s) p = false ->
    page_used s p = false \/ usable_page mm p.
Proof.
  intros MO OK. unfold free_usable, memmap_count.
  apply (zfor_ind (fun k s' => pmm_ok s' /\ g_total_pages s' = g_total_pages s /\
    forall p, 0 <= p -> page_used s' p = false -> page_used s p = false \/ usable_page mm p));
    [by auto |].
  intros k s' Rk (OK' & T & F). destruct (memmap_entry mm k) as [e|] eqn:Ee; [| done].
  destruct (MO k e Ee) as (B & L & NB).
  destruct (Z.eqb_spec (type e) E820_TYPE_USABLE) as [U |]; simpl; [| done].
  destruct (Z.leb_spec 4294967296 (base e)); [done |].
  match goal with |- context [mark_range_free _ (u32 ?x) _] => set (f := x) end.
  assert (Rf : f <= u64 (base e + length e)) by (unfold f; cases; lia).
  assert (0 <= u32 f <= f).
  { assert (0 <= f) by (unfold f; cases; unfold u64 in *; Z.div_mod_to_equations; lia).
    unfold u32. Z.div_mod_to_equations. lia. }
  destruct (mark_range_free_spec s' (u32 (base e)) (u32 f) OK') as (OK2 & T2 & E2).
  { rewrite u32_small; lia. } { lia. }
  split; [done | split; [congruence |]]. intros p Rp Up.
  destruct (E2 p Rp) as [_ E3].
  destruct (decide (u32 (base e) <= p * 4096 /\ (p + 1) * 4096 <= u32 f
                    /\ p < g_total_pages s')) as [D | ND].
  - right. rewrite u32_small in D by lia. exists k, e. unfold PMM_PAGE_SIZE. naive_solver lia.
  - apply F; [done |]. rewrite <- Up. symmetry. by apply E3.
Qed.

Lemma pmm_init_total mm :
  0 <= (let m := usable_max_end mm in
        let m := if 4294967296 <? m then 4294967296 else m in
        let a := u32 (Z.shiftr (m + PMM_PAGE_SIZE - 1) PMM_PAGE_SHIFT) in
        if PMM_MAX_PAGES <? a then PMM_MAX_PAGES else a) <= PMM_MAX_PAGES.
Proof.
  cbv zeta. set (a := u32 _). pose proof (u32_range (Z.shiftr
    ((if 4294967296 <? usable_max_end mm then 4294967296 else usable_max_end mm) +
     PMM_PAGE_SIZE - 1) PMM_PAGE_SHIFT)) as H. fold a in H. unfold PMM_MAX_PAGES.
  cases; lia.
Qed.

Lemma initial_ok t : 0 <= t <= PMM_MAX_PAGES -> pmm_ok (Pmm (zrep PMM_BITMAP_BYTES 255) t t).
Proof.
  intros R. assert (A : forall p, 0 <= p < PMM_MAX_PAGES ->
    bm_test (zrep PMM_BITMAP_BYTES 255) p = true).
  { intros p Rp. apply bm_test_rep_ff. unfold PMM_MAX_PAGES, PMM_BITMAP_BYTES in *. lia. }
  split; cbn [g_bitmap g_total_pages g_used_pages]; [| | done | |].
  - apply zlen_zrep. unfold PMM_BITMAP_BYTES. lia.
  - apply bytes_ok_rep. lia.
  - symmetry. rewrite (proj2 (countb_full _ _)); [lia |]. intros k Rk. apply A. lia.
  - intros p Rp. apply A. lia.
Qed.

Lemma pmm_init_spec kernel_start bss_end mm :
  memmap_ok mm -> 0 <= kernel_start -> 0 <= bss_end <= 4294963200 ->
  let s := pmm_init kernel_start bss_end mm in
  pmm_ok s /\
  forall p, 0 <= p < g_total_pages s ->
    (page_used s p = false -> usable_page mm p) /\
    (p = 0 \/ p = 8 \/ (kernel_start / 4096 <= p /\ p * 4096 < bss_end) -> page_used s p = true).
Proof.
  intros MO Rk Rb. cbv zeta. unfold pmm_init.
  pose proof (pmm_init_total mm) as T. cbv zeta in T.
  match type of T with 0 <= ?x <= _ => set (t := x) in * end.
  pose proof (initial_ok t T) as OK0. set (s0 := Pmm _ t t) in *.
  assert (A0 : forall p, 0 <= p < t -> page_used s0 p = true).
  { intros p Rp. apply bm_test_rep_ff. unfold PMM_MAX_PAGES, PMM_BITMAP_BYTES in *. lia. }
  destruct (free_usable_spec mm s0 MO OK0) as (OK1 & T1 & F1). set (s1 := free_usable mm s0) in *.
  destruct (mark_range_used_spec s1 0 PMM_PAGE_SIZE OK1) as (OK2 & T2 & E2);
    [lia | unfold PMM_PAGE_SIZE; lia |]. set (s2 := mark_range_used 0 _ s1) in *.
  destruct (mark_range_used_spec s2 32768 36864 OK2) as (OK3 & T3 & E3); [lia | lia |].
  set (s3 := mark_range_used 32768 _ s2) in *.
  destruct (mark_range_used_spec s3 kernel_start bss_end OK3 Rk Rb) as (OK4 & T4 & E4).
  split; [done |]. intros p Rp. rewrite T4, T3, T2, T1 in Rp. change (g_total_pages s0) with t in *.
  destruct (E2 p ltac:(lia)) as [P2 Q2]. destruct (E3 p ltac:(lia)) as [P3 Q3].
  destruct (E4 p ltac:(lia)) as [P4 Q4]. unfold PMM_PAGE_SIZE in *. split.
  - intros U. destruct (F1 p ltac:(lia)) as [C | ?]; [| rewrite A0 in C by lia; done | done].
    rewrite <- Q2, <- Q3, <- Q4; [done | intros C; by rewrite P4 in U | |].
    + intros C. apply not_true_iff_false in U. apply U.
      destruct (decide (kernel_start / 4096 <= p /\ p * 4096 < bss_end /\ p < g_total_pages s3));
        [by apply P4 | rewrite Q4 by done; by apply P3].
    + intros C. apply not_true_iff_false in U. apply U.
      destruct (decide (kernel_start / 4096 <= p /\ p * 4096 < bss_end /\ p < g_total_pages s3));
        [by apply P4 | rewrite Q4 by done].
      destruct (decide (32768 / 4096 <= p /\ p * 4096 < 36864 /\ p < g_total_pages s2));
        [by apply P3 | rewrite Q3 by done; by apply P2].
  - intros C. destruct (decide (kernel_start / 4096 <= p /\ p * 4096 < bss_end
                               /\ p < g_total_pages s3)) as [D4 | N4]; [by apply P4 |].
    rewrite Q4 by done.
    destruct (decide (32768 / 4096 <= p /\ p * 4096 < 36864 /\ p < g_total_pages s2)) as [D3 | N3];
      [by apply P3 | rewrite Q3 by done]. apply P2.
    rewrite T3, T2, T1 in N4. rewrite T2, T1 in N3. change (32768 / 4096) with 8 in N3.
    change (g_total_pages s0) with t in *. rewrite T1. change (g_total_pages s0) with t.
    change (0 / 4096) with 0. lia.
Qed.

(** ** Theorems about whole runs *)

(** C3. The allocator refines a set of pages: in every state reached from
    [pmm_init] by any sequence of operations, each public operation keeps the
    bitmap, the page count and the used counter consistent, takes only pages
    that were free, tracked and not page 0, frees exactly the tracked pages it
    is asked to free, and touches no other page. *)
Theorem reachable_op_refines kernel_start bss_end mm l o :
  memmap_ok mm -> 0 <= kernel_start -> 0 <= bss_end <= 4294963200 ->
  Forall op_ok l -> op_ok o ->
  let s := run_ops l (pmm_init kernel_start bss_end mm) in
  pmm_ok s /\ step_ok (op_takes o (snd (run_op o s))) (op_releases o) s (fst (run_op o s)).
Proof.
  intros MO Rk Rb Ol Oo s.
  assert (OK : pmm_ok s) by (apply run_ops_ok; [by apply pmm_init_spec | done]).
  split; [done | by apply run_op_step].
Qed.

(** No page is handed out twice: after an allocation returned a range
    containing page [p], no later allocation returns a range containing [p],
    whatever operations run in between, as long as none of them frees [p]. *)
Theorem no_double_allocation s o1 l o2 p :
  pmm_ok s -> Forall op_ok (o1 :: o2 :: l) -> 0 <= p ->
  op_takes o1 (snd (run_op o1 s)) p ->
  Forall (fun o => ~ op_releases o p) l ->
  let s' := run_ops l (fst (run_op o1 s)) in
  ~ op_takes o2 (snd (run_op o2 s')) p.
Proof.
  intros OK Ho Rp T1 Hr s' T2. inversion Ho as [|? ? O1 Ho']; inversion Ho' as [|? ? O2 Hl]; subst.
  destruct (run_op_step o1 s OK O1) as (OK1 & _ & E1).
  destruct (E1 p Rp) as (A1 & _). destruct (A1 T1) as (_ & _ & U1).
  pose proof (run_ops_keep l _ p OK1 Hl Hr Rp U1) as U.
  destruct (run_op_step o2 s') as (_ & _ & E2); [by apply run_ops_ok | done |].
  destruct (E2 p Rp) as (A2 & _). destruct (A2 T2) as (_ & C & _). unfold s' in C. congruence.
Qed.

(** [pmm_init] leaves a consistent allocator in which a page is free only
    if a usable E820 region covers it completely, and page 0, the E820 buffer
    page and every page of the kernel image are reserved. *)
Theorem pmm_init_correct kernel_start bss_end mm p :
  memmap_ok mm -> 0 <= kernel_start -> 0 <= bss_end <= 4294963200 ->
  let s := pmm_init kernel_start bss_end mm in
  pmm_ok s /\
  (0 <= p < g_total_pages s -> page_used s p = false -> usable_page mm p) /\
  (0 <= p < g_total_pages s -> p = 0 \/ p = 8 -> page_used s p = true) /\
  (0 <= p < g_total_pages s -> kernel_start / 4096 <= p -> p * 4096 < bss_end ->
   page_used s p = true).
Proof.
  intros MO Rk Rb s. destruct (pmm_init_spec kernel_start bss_end mm MO Rk Rb) as [OK F].
  split; [done |]. split; [| split]; intros R; destruct (F p R) as [F1 F2]; auto; tauto.
Qed.

(** A usable region that reaches 4 GiB is lost: its clamped end 0x100000000 is
    truncated to 0 by the cast to [uintptr_t], so none of its pages is freed. *)
Lemma region_to_4g_lost mm s :
  g_count mm = 1 -> pmm_ok s ->
  (forall e, memmap_entry mm 0 = Some e ->
     0 <= base e < 4294963200 /\ 4294967296 <= u64 (base e + length e)) ->
  free_usable mm s = s.
Proof.
  intros C OK B. unfold free_usable, memmap_count. rewrite C.
  change (Z.to_nat 1) with 1%nat. cbn [zfor].
  destruct (memmap_entry mm 0) as [e|] eqn:Ee; [| done]. destruct (B e eq_refl) as [B1 B2].
  cases; [done |]. cases; [done |].
  assert (E : u32 (if 4294967296 <? u64 (base e + length e) then 4294967296
                   else u64 (base e + length e)) = 0).
  { cases; [done |]. replace (u64 _) with 4294967296 by lia. done. }
  rewrite E. unfold mark_range_free. rewrite clamp_end_spec. pose proof (ok_total _ OK).
  change (Z.shiftr 0 PMM_PAGE_SHIFT) with 0. rewrite shiftr12. unfold PMM_PAGE_SIZE.
  rewrite (u32_small (base e)), u32_small by lia. replace (Z.to_nat _) with O; [done |].
  Z.div_mod_to_equations. lia.
Qed.

(** ** Witnesses: a machine with 640 KiB of low memory and 3 MiB above 1 MiB *)

Definition demo_map : memmap :=
  memmap_init 3 [E820 0 655360 1 0; E820 983040 65536 2 0; E820 1048576 3145728 1 0].

Definition demo : pmm := pmm_init 65536 131072 demo_map.

Lemma demo_map_ok : memmap_ok demo_map.
Proof.
  intros i e H. unfold memmap_entry in H. cases_in H; [done |]. injection H as <-.
  change (g_count demo_map) with 3 in *.
  assert (Hi : i <= 0 \/ i = 1 \/ i = 2) by lia. destruct Hi as [Hi | [-> | ->]]; [| vm_compute; intuition congruence ..].
  replace (zget (g_entries demo_map) i) with (E820 0 655360 1 0); [simpl; lia |].
  unfold zget. by replace (Z.to_nat i) with O by lia.
Qed.

Lemma pmm_demo_ok : pmm_ok demo.
Proof. apply pmm_init_spec; [apply demo_map_ok | lia | lia]. Qed.

Lemma alloc_first_fit_witness :
  pmm_ok demo /\ snd (pmm_alloc_page demo) = 4096 /\ snd (pmm_alloc_contiguous 20 demo) = 131072.
Proof.
  split; [apply pmm_demo_ok |]. destruct (alloc_first_fit demo 20 pmm_demo_ok ltac:(lia)) as [P C].
  rewrite P, C. split; by vm_compute.
Defined.

Lemma reachable_op_refines_witness :
  Forall op_ok [AllocPage; AllocContiguous 5; FreePage 4096] /\
  pmm_ok (run_ops [AllocPage; AllocContiguous 5; FreePage 4096] demo).
Proof.
  assert (F : Forall op_ok [AllocPage; AllocContiguous 5; FreePage 4096])
    by (repeat constructor; simpl; lia).
  split; [done |].
  exact (proj1 (reachable_op_refines 65536 131072 demo_map _ AllocPage demo_map_ok
                  ltac:(lia) ltac:(lia) F I)).
Defined.

Lemma no_double_allocation_witness :
  op_takes AllocPage (snd (run_op AllocPage demo)) 1 /\
  ~ op_takes AllocPage (snd (run_op AllocPage
       (run_ops [FreePage 8192] (fst (run_op AllocPage demo))))) 1.
Proof.
  assert (T : op_takes AllocPage (snd (run_op AllocPage demo)) 1)
    by (replace (snd _) with 4096 by (by vm_compute); by vm_compute).
  split; [done |]. apply (no_double_allocation demo AllocPage [FreePage 8192] AllocPage 1 pmm_demo_ok).
  - repeat constructor; simpl; lia.
  - lia.
  - done.
  - repeat constructor. simpl. unfold PMM_PAGE_SIZE. lia.
Defined.

Lemma pmm_init_correct_witness :
  page_used (pmm_init 65536 131072 demo_map) 16 = true /\
  (page_used (pmm_init 65536 131072 demo_map) 300 = false /\ usable_page demo_map 300).
Proof.
  pose proof (pmm_init_correct 65536 131072 demo_map 300 demo_map_ok ltac:(lia) ltac:(lia)) as (_ & F & _).
  pose proof (pmm_init_correct 65536 131072 demo_map 16 demo_map_ok ltac:(lia) ltac:(lia)) as (_ & _ & _ & K).
  split.
  { apply K; [split; [discriminate |] | |]; by vm_compute. }
  split; [by vm_compute |].
  apply F; [split; [discriminate |] |]; by vm_compute.
Defined.

End PMM.
