(* ===== verification/Kmalloc.v ===== *)
(** Kernel heap: [kernel/kmalloc.c], a first-fit free-list allocator with
    neighbour coalescing.

    The store [mem] maps an address to the 16-byte block header written there;
    the doubly linked list is followed and mutated through the store as the C
    code does, so aliasing is the code's.  Reading an address that holds no
    header is [None]: nothing is assumed about such memory, and the theorems
    show it never happens on a heap the allocator built.  Each public
    operation runs under [g_lock] with interrupts off. *)

From stdpp Require Import base numbers list gmap.
From Stdlib Require Import ZArith Lia.
From S2P Require Import Prelude.

Module KMALLOC.

Record kmblock := Kmblock { size : Z; free : Z; magic : Z; prev : Z; next : Z }.

#[export] Instance kmblock_eq_dec : EqDecision kmblock.
Proof. solve_decision. Defined.

Definition KM_MAGIC : Z := 51966.
Definition KM_HDR_SIZE : Z := 16.
Definition KM_MIN_PAYLOAD : Z := 16.
Definition KMALLOC_ALIGN : Z := 16.

Record heap := Heap {
  mem : gmap Z kmblock; g_head : Z; g_heap_start : Z; g_heap_end : Z }.

Definition with_mem (h : heap) (m : gmap Z kmblock) : heap :=
  Heap m (g_head h) (g_heap_start h) (g_heap_end h).

Definition round_up (v a : Z) : Z := Z.land (u32 (v + (a - 1))) (u32 (Z.lnot (a - 1))).

Definition block_from_payload (p : Z) : Z := u32 (p - KM_HDR_SIZE).
Definition payload_of (b : Z) : Z := u32 (b + KM_HDR_SIZE).

(** [b->field = ...] for one header. *)
Definition store (m : gmap Z kmblock) (b : Z) (f : kmblock -> kmblock) : option (gmap Z kmblock) :=
  match m !! b with Some blk => Some (<[b := f blk]> m) | None => None end.

Definition set_size (z : Z) (b : kmblock) := Kmblock z (free b) (magic b) (prev b) (next b).
Definition set_free (z : Z) (b : kmblock) := Kmblock (size b) z (magic b) (prev b) (next b).
Definition set_magic (z : Z) (b : kmblock) := Kmblock (size b) (free b) z (prev b) (next b).
Definition set_prev (z : Z) (b : kmblock) := Kmblock (size b) (free b) (magic b) z (next b).
Definition set_next (z : Z) (b : kmblock) := Kmblock (size b) (free b) (magic b) (prev b) z.

(** [if (q) q->prev = z;] *)
Definition store_prev_if (m : gmap Z kmblock) (q z : Z) : option (gmap Z kmblock) :=
  if q =? 0 then Some m else store m q (set_prev z).

Definition kmalloc_init (start end_ : Z) (m : gmap Z kmblock) : heap :=
  let mask := u32 (Z.lnot (KMALLOC_ALIGN - 1)) in
  let s := Z.land (u32 (start + KMALLOC_ALIGN - 1)) mask in
  let e := Z.land end_ mask in
  if e <? u32 (s + KM_HDR_SIZE + KM_MIN_PAYLOAD) then Heap m 0 s s
  else Heap (<[s := Kmblock (u32 (e - s - KM_HDR_SIZE)) 1 KM_MAGIC 0 0]> m) s s e.

(** Body of the [for] loop once a block fits: split when the remainder can hold
    a header and a minimal payload, then mark the block used. *)
Definition take_block (m : gmap Z kmblock) (b want : Z) (blk : kmblock) : option (gmap Z kmblock) :=
  let leftover := u32 (size blk - want) in
  m ← (if KM_HDR_SIZE + KM_MIN_PAYLOAD <=? leftover then
         let n := u32 (b + KM_HDR_SIZE + want) in
         let m := <[n := Kmblock (u32 (leftover - KM_HDR_SIZE)) 1 KM_MAGIC b (next blk)]> m in
         m ← store_prev_if m (next blk) n;
         m ← store m b (set_next n);
         store m b (set_size (u32 want))
       else Some m);
  store m b (set_free 0).

(** The walk along [next]; [fuel] bounds the blocks visited. *)
Fixpoint kmalloc_walk (fuel : nat) (h : heap) (b want : Z) : option (heap * Z) :=
  match fuel with
  | O => None
  | S fuel' =>
      if b =? 0 then Some (h, 0) else
      blk ← mem h !! b;
      if negb (magic blk =? KM_MAGIC) then Some (h, 0)
      else if (free blk =? 0) || (size blk <? want) then kmalloc_walk fuel' h (next blk) want
      else m ← take_block (mem h) b want blk; Some (with_mem h m, payload_of b)
  end.

(** Every block takes a header, so this many turns visit the whole heap. *)
Definition walk_fuel (h : heap) : nat := S (Z.to_nat ((g_heap_end h - g_heap_start h) / KM_HDR_SIZE)).

Definition kmalloc (sz : Z) (h : heap) : option (heap * Z) :=
  if sz =? 0 then Some (h, 0)
  else kmalloc_walk (walk_fuel h) h (g_head h) (round_up sz KMALLOC_ALIGN).

(** [if (b->next && b->next->free) { ... }] *)
Definition merge_next (m : gmap Z kmblock) (b : Z) : option (gmap Z kmblock) :=
  blk ← m !! b;
  if next blk =? 0 then Some m else
  n ← m !! next blk;
  if free n =? 0 then Some m else
  m ← store m b (set_size (u32 (size blk + (KM_HDR_SIZE + size n))));
  m ← store m b (set_next (next n));
  m ← store_prev_if m (next n) b;
  store m (next blk) (set_magic 0).

(** [if (b->prev && b->prev->free) { ... }] *)
Definition merge_prev (m : gmap Z kmblock) (b : Z) : option (gmap Z kmblock) :=
  blk ← m !! b;
  if prev blk =? 0 then Some m else
  pp ← m !! prev blk;
  if free pp =? 0 then Some m else
  m ← store m (prev blk) (set_size (u32 (size pp + (KM_HDR_SIZE + size blk))));
  m ← store m (prev blk) (set_next (next blk));
  m ← store_prev_if m (next blk) (prev blk);
  store m b (set_magic 0).

Definition kfree (p : Z) (h : heap) : option heap :=
  if p =? 0 then Some h else
  let b := block_from_payload p in
  blk ← mem h !! b;
  if negb (magic blk =? KM_MAGIC) || negb (free blk =? 0) then Some h else
  m ← store (mem h) b (set_free 1);
  m ← merge_next m b;
  m ← merge_prev m b;
  Some (with_mem h m).

Definition kmalloc_heap_start (h : heap) : Z := g_heap_start h.
Definition kmalloc_heap_end (h : heap) : Z := g_heap_end h.
Definition kmalloc_total (h : heap) : Z := u32 (g_heap_end h - g_heap_start h).

(** The statistics walk the list and fold over the headers. *)
Fixpoint walk_fold {A} (f : kmblock -> A -> A) (fuel : nat) (m : gmap Z kmblock) (b : Z) (acc : A)
  : option A :=
  match fuel with
  | O => None
  | S fuel' =>
      if b =? 0 then Some acc else
      blk ← m !! b; walk_fold f fuel' m (next blk) (f blk acc)
  end.

Definition kmalloc_used (h : heap) : option Z :=
  walk_fold (fun b t => if free b =? 0 then u32 (t + u32 (size b + KM_HDR_SIZE)) else t)
    (walk_fuel h) (mem h) (g_head h) 0.

Definition kmalloc_free (h : heap) : option Z :=
  walk_fold (fun b t => if free b =? 0 then t else u32 (t + size b))
    (walk_fuel h) (mem h) (g_head h) 0.

Definition kmalloc_largest_free (h : heap) : option Z :=
  walk_fold (fun b best => if negb (free b =? 0) && (best <? size b) then size b else best)
    (walk_fuel h) (mem h) (g_head h) 0.

Definition kmalloc_block_counts (h : heap) : option (Z * Z) :=
  walk_fold (fun b '(u, f) => if free b =? 0 then (u32 (u + 1), f) else (u, u32 (f + 1)))
    (walk_fuel h) (mem h) (g_head h) (0, 0).

(** ** Specification: the heap as a list of (payload size, free) blocks *)

Definition blocks := list (Z * bool).

Definition hdr (sz : Z) (fr : bool) (pv nx : Z) : kmblock :=
  Kmblock sz (if fr then 1 else 0) KM_MAGIC pv nx.

(** Bytes a block list occupies, headers included. *)
Fixpoint span (l : blocks) : Z :=
  match l with [] => 0 | (sz, _) :: l' => KM_HDR_SIZE + sz + span l' end.

(** Address of the first block of [l] laid out at [a], or [nx] if none. *)
Definition head_addr (a : Z) (l : blocks) (nx : Z) : Z :=
  match l with [] => nx | _ => a end.

(** Address of the last block of [l] laid out at [a], or [pv] if none. *)
Fixpoint last_addr (a : Z) (l : blocks) (pv : Z) : Z :=
  match l with [] => pv | (sz, _) :: l' => last_addr (a + KM_HDR_SIZE + sz) l' a end.

(** The doubly linked segment: [l] is laid out at [a], its first [prev] is [pv]
    and its last [next] is [nx]. *)
Fixpoint seg (m : gmap Z kmblock) (a pv : Z) (l : blocks) (nx : Z) : Prop :=
  match l with
  | [] => True
  | (sz, fr) :: l' =>
      m !! a = Some (hdr sz fr pv (head_addr (a + KM_HDR_SIZE + sz) l' nx)) /\
      seg m (a + KM_HDR_SIZE + sz) a l' nx
  end.

(** Sizes are positive multiples of the alignment. *)
Definition sizes_ok (l : blocks) : Prop :=
  Forall (fun b => KM_MIN_PAYLOAD <= fst b /\ fst b mod KMALLOC_ALIGN = 0) l.

(** The store represents the block list: the blocks tile the heap. *)
Record rep (h : heap) (l : blocks) : Prop := Rep {
  rep_start : 0 < g_heap_start h /\ g_heap_start h mod KMALLOC_ALIGN = 0;
  rep_end : g_heap_start h + span l = g_heap_end h /\ g_heap_end h < 4294967296;
  rep_head : g_head h = head_addr (g_heap_start h) l 0;
  rep_seg : seg (mem h) (g_heap_start h) 0 l 0;
  rep_sizes : sizes_ok l
}.

(** First fit on the list; the result is the payload address. *)
Fixpoint first_fit (want a : Z) (l : blocks) : option (Z * blocks) :=
  match l with
  | [] => None
  | (sz, fr) :: l' =>
      if fr && (want <=? sz) then
        Some (a + KM_HDR_SIZE,
              if KM_HDR_SIZE + KM_MIN_PAYLOAD <=? sz - want
              then (want, false) :: (sz - want - KM_HDR_SIZE, true) :: l'
              else (sz, false) :: l')
      else
        match first_fit want (a + KM_HDR_SIZE + sz) l' with
        | Some (p, l'') => Some (p, (sz, fr) :: l'')
        | None => None
        end
  end.

(** Prepend a free block, merging it with a free successor. *)
Definition push_free (sz : Z) (l : blocks) : blocks :=
  match l with
  | (n, true) :: l' => (sz + (KM_HDR_SIZE + n), true) :: l'
  | _ => (sz, true) :: l
  end.

(** Append a free block after [l1], merging it with a free predecessor. *)
Fixpoint join (l1 : blocks) (sz : Z) (l2 : blocks) : blocks :=
  match l1 with
  | [] => (sz, true) :: l2
  | [(s0, true)] => (s0 + (KM_HDR_SIZE + sz), true) :: l2
  | x :: l1' => x :: join l1' sz l2
  end.

(** Free the block between [l1] and [l2], merging it with both neighbours. *)
Definition release (l1 : blocks) (sz : Z) (l2 : blocks) : blocks :=
  match push_free sz l2 with
  | (sz', _) :: l2' => join l1 sz' l2'
  | [] => []
  end.

(** The payloads in use: (address, size). *)
Fixpoint live (a : Z) (l : blocks) : list (Z * Z) :=
  match l with
  | [] => []
  | (sz, fr) :: l' =>
      (if fr then [] else [(a + KM_HDR_SIZE, sz)]) ++ live (a + KM_HDR_SIZE + sz) l'
  end.

(** No two neighbouring blocks are both free. *)
Definition starts_free (l : blocks) : Prop :=
  match l with (_, true) :: _ => True | _ => False end.

Fixpoint coalesced (l : blocks) : Prop :=
  match l with
  | [] => True
  | (_, f) :: l' => (f = true -> ~ starts_free l') /\ coalesced l'
  end.

(** ** Segments *)

Lemma span_app l1 l2 : span (l1 ++ l2) = span l1 + span l2.
Proof. induction l1 as [|[sz fr] l1 IH]; simpl; lia. Qed.

Lemma sizes_ok_app l1 l2 : sizes_ok (l1 ++ l2) <-> sizes_ok l1 /\ sizes_ok l2.
Proof. apply Forall_app. Qed.

Lemma sizes_ok_cons sz fr l :
  sizes_ok ((sz, fr) :: l) <-> KM_MIN_PAYLOAD <= sz /\ sz mod KMALLOC_ALIGN = 0 /\ sizes_ok l.
Proof. unfold sizes_ok. rewrite Forall_cons. simpl. tauto. Qed.

Lemma span_nonneg l : sizes_ok l -> 0 <= span l.
Proof.
  induction l as [|[sz fr] l IH]; simpl; [lia |]. rewrite sizes_ok_cons.
  unfold KM_MIN_PAYLOAD, KM_HDR_SIZE. intros (? & ? & ?). specialize (IH ltac:(done)). lia.
Qed.

Lemma span_mod l : sizes_ok l -> span l mod 16 = 0.
Proof.
  induction l as [|[sz fr] l IH]; simpl; [done |]. rewrite sizes_ok_cons.
  unfold KMALLOC_ALIGN, KM_HDR_SIZE. intros (? & ? & S). specialize (IH S).
  Z.div_mod_to_equations. lia.
Qed.

Lemma head_addr_app a l1 l2 nx :
  head_addr a (l1 ++ l2) nx = head_addr a l1 (head_addr (a + span l1) l2 nx).
Proof. destruct l1; simpl; [by rewrite Z.add_0_r | done]. Qed.

Lemma seg_app m a pv l1 l2 nx :
  seg m a pv (l1 ++ l2) nx <->
  seg m a pv l1 (head_addr (a + span l1) l2 nx) /\
  seg m (a + span l1) (last_addr a l1 pv) l2 nx.
Proof.
  revert a pv. induction l1 as [|[sz fr] l1 IH]; intros a pv; simpl.
  - rewrite Z.add_0_r. tauto.
  - rewrite IH, head_addr_app.
    replace (a + KM_HDR_SIZE + sz + span l1) with (a + (KM_HDR_SIZE + sz + span l1)) by lia. tauto.
Qed.

(** The block in the middle of the list. *)
Lemma seg_focus m a pv l1 sz fr l2 nx :
  seg m a pv (l1 ++ (sz, fr) :: l2) nx <->
  seg m a pv l1 (a + span l1) /\
  m !! (a + span l1) =
    Some (hdr sz fr (last_addr a l1 pv) (head_addr (a + span l1 + KM_HDR_SIZE + sz) l2 nx)) /\
  seg m (a + span l1 + KM_HDR_SIZE + sz) (a + span l1) l2 nx.
Proof. rewrite seg_app. simpl. tauto. Qed.

(** A segment only reads headers inside its span. *)
Lemma seg_ext m m' a pv l nx :
  sizes_ok l -> (forall k, a <= k < a + span l -> m' !! k = m !! k) ->
  seg m a pv l nx -> seg m' a pv l nx.
Proof.
  revert a pv. induction l as [|[sz fr] l IH]; intros a pv; [done |].
  rewrite sizes_ok_cons. unfold KM_MIN_PAYLOAD. intros (Sz & _ & S) E [H1 H2].
  pose proof (span_nonneg l S). simpl in E. unfold KM_HDR_SIZE in E. split.
  - rewrite E by lia. done.
  - apply IH; [done | | done]. intros k Rk. apply E. unfold KM_HDR_SIZE in Rk. lia.
Qed.

Lemma store_eq m b blk f : m !! b = Some blk -> store m b f = Some (<[b := f blk]> m).
Proof. intros E. unfold store. by rewrite E. Qed.

(** Redirecting the first block's [prev]. *)
Lemma store_prev_seg m a pv l z :
  a <> 0 -> sizes_ok l -> seg m a pv l 0 ->
  exists m', store_prev_if m (head_addr a l 0) z = Some m' /\ seg m' a z l 0 /\
    forall k, ~ a <= k < a + span l -> m' !! k = m !! k.
Proof.
  intros Na S H. unfold store_prev_if. destruct l as [|[sz fr] l]; simpl.
  - exists m. auto.
  - rewrite (proj2 (Z.eqb_neq a 0) Na). destruct H as [H1 H2].
    rewrite (store_eq _ _ _ _ H1). eexists. split; [done |].
    rewrite sizes_ok_cons in S. destruct S as (Sz & _ & S).
    pose proof (span_nonneg l S). unfold KM_MIN_PAYLOAD, KM_HDR_SIZE in *.
    split; [split |].
    + by rewrite lookup_insert_eq.
    + eapply seg_ext; [done | | exact H2]. intros k Rk.
      rewrite lookup_insert_ne; [done | lia].
    + intros k Rk. rewrite lookup_insert_ne; [done | lia].
Qed.

Lemma last_addr_bounds a l pv :
  sizes_ok l -> last_addr a l pv = pv /\ l = [] \/ a <= last_addr a l pv < a + span l.
Proof.
  revert a pv. induction l as [|[sz fr] l IH]; intros a pv; [by left |].
  rewrite sizes_ok_cons. unfold KM_MIN_PAYLOAD. intros (Sz & _ & S). right.
  pose proof (span_nonneg l S). simpl. unfold KM_HDR_SIZE in *.
  destruct (IH (a + 16 + sz) a S) as [[-> _] | B]; lia.
Qed.

Lemma rep_bounds h l :
  rep h l -> 0 < g_heap_start h /\ g_heap_start h + span l < 4294967296 /\ 0 <= span l.
Proof.
  intros R. destruct (rep_start _ _ R). destruct (rep_end _ _ R).
  pose proof (span_nonneg l (rep_sizes _ _ R)). lia.
Qed.

(** Replacing the store and the list, the rest of the heap record being kept. *)
Lemma rep_update h l m l' :
  rep h l -> span l' = span l -> sizes_ok l' -> (l' = [] <-> l = []) ->
  seg m (g_heap_start h) 0 l' 0 -> rep (with_mem h m) l'.
Proof.
  intros R Sp Sz Ne Sg. destruct (rep_end _ _ R). split; simpl; [apply R | lia | | done | done].
  rewrite (rep_head _ _ R). destruct l, l'; naive_solver.
Qed.

(** ** Allocation *)

Lemma round_up_spec sz :
  0 < sz <= 4294967280 ->
  let w := round_up sz KMALLOC_ALIGN in
  sz <= w < sz + 16 /\ w mod 16 = 0 /\ 16 <= w <= 4294967280.
Proof.
  intros R. cbv zeta. unfold round_up, KMALLOC_ALIGN. change (16 - 1) with (2 ^ 4 - 1).
  rewrite land_align by (lia || apply u32_range). change (2 ^ 4) with 16.
  rewrite u32_small by lia. Z.div_mod_to_equations. lia.
Qed.

(** Writes outside the span of the blocks before [b] keep their segment. *)
Ltac keep_prefix :=
  eapply seg_ext; [eassumption | | eassumption]; intros ? ?;
  rewrite ?lookup_insert_ne by lia; try done.

Lemma take_block_spec m a l1 sz l2 want blk :
  0 < a -> a + span (l1 ++ (sz, true) :: l2) < 4294967296 ->
  sizes_ok (l1 ++ (sz, true) :: l2) -> seg m a 0 (l1 ++ (sz, true) :: l2) 0 ->
  m !! (a + span l1) = Some blk -> 16 <= want <= sz ->
  exists m', take_block m (a + span l1) want blk = Some m' /\
    seg m' a 0 (l1 ++ (if 32 <=? sz - want
                       then (want, false) :: (sz - want - 16, true) :: l2
                       else (sz, false) :: l2)) 0.
Proof.
  intros Pa Sp Sz Sg Hb W. apply seg_focus in Sg. destruct Sg as (S1 & Sb & S2).
  rewrite Sb in Hb. injection Hb as <-. rewrite sizes_ok_app, sizes_ok_cons in Sz.
  destruct Sz as (Z1 & Zb & _ & Z2). rewrite span_app in Sp. simpl in Sp.
  pose proof (span_nonneg l1 Z1). pose proof (span_nonneg l2 Z2). unfold KM_HDR_SIZE in *.
  set (b := a + span l1) in *. unfold take_block. cbn [size hdr].
  unfold KM_HDR_SIZE, KM_MIN_PAYLOAD. rewrite (u32_small (sz - want)) by lia. cbn [next hdr].
  change (16 + 16) with 32. destruct (Z.leb_spec 32 (sz - want)) as [Split | Fit].
  - rewrite (u32_small (b + 16 + want)), (u32_small (sz - want - 16)), (u32_small want) by lia.
    set (n := b + 16 + want). set (m1 := <[n := _]> m).
    assert (S2' : seg m1 (b + 16 + sz) b l2 0).
    { eapply seg_ext; [done | | exact S2]. intros k Rk. unfold m1.
      rewrite lookup_insert_ne; [done | unfold n; lia]. }
    destruct (store_prev_seg m1 (b + 16 + sz) b l2 n ltac:(lia) Z2 S2') as (m2 & E2 & S2n & F2).
    cbn [option_bind mbind]. rewrite E2. cbn [option_bind mbind].
    assert (Lb : m2 !! b = Some (hdr sz true (last_addr a l1 0) (head_addr (b + 16 + sz) l2 0))).
    { rewrite F2 by lia. unfold m1. rewrite lookup_insert_ne by (unfold n; lia). done. }
    rewrite (store_eq _ _ _ _ Lb). cbn [option_bind mbind].
    erewrite store_eq by apply lookup_insert_eq. cbn [option_bind mbind].
    rewrite insert_insert_eq. erewrite store_eq by apply lookup_insert_eq.
    rewrite insert_insert_eq. eexists. split; [done |].
    apply seg_focus. unfold KM_HDR_SIZE. fold b. split; [| split].
    + eapply seg_ext; [done | | exact S1]. intros k Rk.
      rewrite lookup_insert_ne, F2 by lia. unfold m1. rewrite lookup_insert_ne; [done | unfold n; lia].
    + rewrite lookup_insert_eq. done.
    + cbn [seg]. unfold KM_HDR_SIZE. fold n. split.
      * rewrite lookup_insert_ne, F2 by (unfold n; lia). unfold m1. rewrite lookup_insert_eq.
        unfold hdr. by replace (n + 16 + (sz - want - 16)) with (b + 16 + sz) by (unfold n; lia).
      * replace (n + 16 + (sz - want - 16)) with (b + 16 + sz) by (unfold n; lia).
        eapply seg_ext; [done | | exact S2n]. intros k Rk. rewrite lookup_insert_ne; [done | lia].
  - cbn [option_bind mbind]. rewrite (store_eq _ _ _ _ Sb). eexists. split; [done |].
    apply seg_focus. unfold KM_HDR_SIZE. fold b. split; [| split].
    + eapply seg_ext; [done | | exact S1]. intros k Rk. rewrite lookup_insert_ne; [done | lia].
    + by rewrite lookup_insert_eq.
    + eapply seg_ext; [done | | exact S2]. intros k Rk. rewrite lookup_insert_ne; [done | lia].
Qed.

(** Splitting keeps the bytes and the alignment of the block it splits. *)
Lemma split_sizes sz l2 want :
  sizes_ok ((sz, true) :: l2) -> 16 <= want <= sz -> want mod 16 = 0 ->
  let r := if 32 <=? sz - want then (want, false) :: (sz - want - 16, true) :: l2
           else (sz, false) :: l2 in
  span r = span ((sz, true) :: l2) /\ sizes_ok r /\ r <> [].
Proof.
  rewrite sizes_ok_cons. unfold KM_MIN_PAYLOAD, KMALLOC_ALIGN. intros (A & B & C) W D. cbv zeta.
  destruct (Z.leb_spec 32 (sz - want)); simpl; unfold KM_HDR_SIZE;
    (split; [lia | split; [| done]]); rewrite !sizes_ok_cons; unfold KM_MIN_PAYLOAD, KMALLOC_ALIGN.
  - split; [lia | split; [done |]]. split; [lia | split; [| done]]. Z.div_mod_to_equations. lia.
  - done.
Qed.

Lemma walk_spec h l1 l2 want fuel :
  rep h (l1 ++ l2) -> 16 <= want <= 4294967280 -> want mod 16 = 0 ->
  (length l2 < fuel)%nat ->
  let b := g_heap_start h + span l1 in
  match first_fit want b l2 with
  | Some (p, l') => exists h', kmalloc_walk fuel h (head_addr b l2 0) want = Some (h', p) /\
                               rep h' (l1 ++ l') /\ g_heap_start h' = g_heap_start h
  | None => kmalloc_walk fuel h (head_addr b l2 0) want = Some (h, 0)
  end.
Proof.
  intros R W Wm. revert l1 l2 R. induction fuel as [|fuel IH]; intros l1 l2 R L; [lia |].
  destruct l2 as [|[sz fr] l2]; [done |]. cbv zeta. cbn [first_fit head_addr kmalloc_walk].
  destruct (rep_bounds _ _ R) as (Pa & Sp & _). pose proof (rep_sizes _ _ R) as Sz.
  pose proof (rep_seg _ _ R) as Sg. pose proof Sg as Sg'. apply seg_focus in Sg'.
  destruct Sg' as (_ & Hb & _). pose proof Sz as Sz'. rewrite sizes_ok_app, sizes_ok_cons in Sz'.
  destruct Sz' as (Z1 & Zb & _ & Z2). unfold KM_MIN_PAYLOAD in Zb.
  pose proof (span_nonneg _ Z1). pose proof (span_nonneg _ Z2).
  assert (Sp' := Sp). rewrite span_app in Sp'. simpl in Sp'. unfold KM_HDR_SIZE in Sp'.
  set (b := g_heap_start h + span l1) in *. rewrite (proj2 (Z.eqb_neq b 0)) by lia.
  rewrite Hb. cbn [option_bind mbind magic free size next hdr].
  change (negb (KM_MAGIC =? KM_MAGIC)) with false. cbv iota.
  assert (C : ((if fr then 1 else 0) =? 0) || (sz <? want) = negb (fr && (want <=? sz))).
  { destruct fr; [| done]. simpl. rewrite Z.leb_antisym. by rewrite negb_involutive. }
  rewrite C. destruct (fr && (want <=? sz)) eqn:Fit; simpl negb; cbv iota.
  - apply andb_true_iff in Fit. destruct Fit as [-> Le]. apply Z.leb_le in Le.
    destruct (take_block_spec (mem h) (g_heap_start h) l1 sz l2 want _ Pa Sp Sz Sg Hb
                ltac:(lia)) as (m' & Em & Sm).
    fold b in Em. rewrite Em. cbn [option_bind mbind]. exists (with_mem h m').
    rewrite sizes_ok_app in Sz. destruct Sz as [_ Sz2].
    destruct (split_sizes sz l2 want Sz2 ltac:(lia) Wm) as (E1 & E2 & E3).
    split; [| split; [| done]].
    + do 3 f_equal. unfold payload_of, KM_HDR_SIZE. rewrite u32_small; lia.
    + unfold KM_HDR_SIZE, KM_MIN_PAYLOAD. change (16 + 16) with 32.
      eapply rep_update; [exact R | | | | exact Sm].
      * rewrite !span_app. lia.
      * by apply sizes_ok_app.
      * split; intros E; apply app_eq_nil in E; destruct E; [by destruct (32 <=? _) | done].
  - specialize (IH (l1 ++ [(sz, fr)]) l2). rewrite <- app_assoc in IH. simpl in IH.
    specialize (IH R ltac:(simpl in L; lia)). cbv zeta in IH. rewrite span_app in IH.
    simpl in IH. rewrite Z.add_0_r in IH.
    replace (g_heap_start h + (span l1 + (KM_HDR_SIZE + sz))) with (b + KM_HDR_SIZE + sz) in IH
      by (unfold b; lia).
    destruct (first_fit want (b + KM_HDR_SIZE + sz) l2) as [[p l']|].
    + destruct IH as (h' & E & R' & St). exists h'. rewrite <- app_assoc in R'. auto.
    + done.
Qed.

Lemma walk_fuel_enough h l : rep h l -> (length l < walk_fuel h)%nat.
Proof.
  intros R. unfold walk_fuel. destruct (rep_end _ _ R) as [<- _].
  pose proof (rep_sizes _ _ R) as Sz. replace (_ + _ - _) with (span l) by lia.
  assert (16 * Z.of_nat (length l) <= span l).
  { clear R. induction l as [|[sz fr] l IH]; simpl; [lia |]. rewrite sizes_ok_cons in Sz.
    unfold KM_MIN_PAYLOAD, KM_HDR_SIZE in *. destruct Sz as (? & _ & S). specialize (IH S). lia. }
  unfold KM_HDR_SIZE. apply Nat.lt_succ_r, Nat2Z.inj_le. rewrite Z2Nat.id.
  - Z.div_mod_to_equations. lia.
  - Z.div_mod_to_equations. lia.
Qed.

(** [kmalloc] follows the first-fit specification. *)
Lemma kmalloc_first_fit h l sz :
  rep h l -> 0 < sz <= 4294967280 ->
  match first_fit (round_up sz KMALLOC_ALIGN) (g_heap_start h) l with
  | Some (p, l') => exists h', kmalloc sz h = Some (h', p) /\ rep h' l' /\
                               g_heap_start h' = g_heap_start h
  | None => kmalloc sz h = Some (h, 0)
  end.
Proof.
  intros R S. destruct (round_up_spec sz S) as (A & B & C).
  pose proof (walk_spec h [] l _ (walk_fuel h) R C B (walk_fuel_enough _ _ R)) as H.
  cbv zeta in H. simpl in H. rewrite Z.add_0_r in H.
  unfold kmalloc. rewrite (proj2 (Z.eqb_neq sz 0)) by lia. by rewrite (rep_head _ _ R).
Qed.

(** ** Release *)

Lemma join_snoc l0 s0 f0 sz l2 :
  join (l0 ++ [(s0, f0)]) sz l2 =
  if f0 then l0 ++ (s0 + (KM_HDR_SIZE + sz), true) :: l2 else l0 ++ (s0, f0) :: (sz, true) :: l2.
Proof.
  induction l0 as [|[s1 f1] l0 IH]; simpl; [by destruct f0 |].
  destruct (l0 ++ [(s0, f0)]) eqn:E; [by destruct l0 |]. rewrite IH. by destruct f1, f0.
Qed.

Lemma last_addr_snoc a l0 s0 f0 pv : last_addr a (l0 ++ [(s0, f0)]) pv = a + span l0.
Proof.
  revert a pv. induction l0 as [|[s1 f1] l0 IH]; intros a pv; simpl; [by rewrite Z.add_0_r |].
  rewrite IH. lia.
Qed.

(** A header that a second [kfree] of the same block rejects. *)
Definition dead (m : gmap Z kmblock) (b : Z) : Prop :=
  exists blk, m !! b = Some blk /\ (magic blk = 0 \/ free blk = 1).

Lemma merge_next_spec m a l1 sz l2 :
  0 < a -> a + span (l1 ++ (sz, true) :: l2) < 4294967296 ->
  sizes_ok (l1 ++ (sz, true) :: l2) -> seg m a 0 (l1 ++ (sz, true) :: l2) 0 ->
  exists m', merge_next m (a + span l1) = Some m' /\ seg m' a 0 (l1 ++ push_free sz l2) 0.
Proof.
  intros Pa Sp Sz Sg. pose proof Sg as Sg0. apply seg_focus in Sg. destruct Sg as (S1 & Sb & S2).
  rewrite sizes_ok_app, sizes_ok_cons in Sz. destruct Sz as (Z1 & Zb & _ & Z2).
  rewrite span_app in Sp. simpl in Sp. pose proof (span_nonneg l1 Z1).
  unfold KM_HDR_SIZE, KM_MIN_PAYLOAD in *. set (b := a + span l1) in *.
  unfold merge_next. rewrite Sb. cbn [option_bind mbind next hdr size].
  destruct l2 as [|[sn fn] l2]; [by exists m |]. cbn [head_addr].
  rewrite sizes_ok_cons in Z2. unfold KM_MIN_PAYLOAD in Z2. destruct Z2 as (Zn & _ & Z2).
  simpl in Sp. unfold KM_HDR_SIZE in Sp. pose proof (span_nonneg l2 Z2).
  cbn [seg] in S2. unfold KM_HDR_SIZE in S2. destruct S2 as [Sn S2].
  set (n := b + 16 + sz) in *. rewrite (proj2 (Z.eqb_neq n 0)) by (unfold n; lia).
  rewrite Sn. cbn [option_bind mbind free size next hdr].
  destruct fn; simpl push_free; cbn; [| by exists m].
  unfold KM_HDR_SIZE. rewrite u32_small by lia.
  rewrite (store_eq _ _ _ _ Sb). cbn [option_bind mbind].
  erewrite store_eq by apply lookup_insert_eq. cbn [option_bind mbind]. rewrite insert_insert_eq.
  set (m1 := <[b := _]> m).
  assert (S2' : seg m1 (n + 16 + sn) n l2 0).
  { eapply seg_ext; [done | | exact S2]. intros k Rk. unfold m1.
    rewrite lookup_insert_ne; [done | unfold n in *; lia]. }
  destruct (store_prev_seg m1 (n + 16 + sn) n l2 b ltac:(unfold n; lia) Z2 S2')
    as (m2 & E2 & S2n & F2).
  rewrite E2. cbn [option_bind mbind].
  assert (Ln : m2 !! n = m !! n).
  { rewrite F2 by lia. unfold m1. rewrite lookup_insert_ne; [done | unfold n; lia]. }
  rewrite Sn in Ln. rewrite (store_eq _ _ _ _ Ln). eexists. split; [done |].
  apply seg_focus. unfold KM_HDR_SIZE. fold b.
  replace (b + 16 + (sz + (16 + sn))) with (n + 16 + sn) by (unfold n; lia). split; [| split].
  - eapply seg_ext; [done | | exact S1]. intros k Rk.
    rewrite lookup_insert_ne, F2 by (unfold n in *; lia). unfold m1.
    rewrite lookup_insert_ne; [done | lia].
  - rewrite lookup_insert_ne, F2 by (unfold n in *; lia). unfold m1. by rewrite lookup_insert_eq.
  - eapply seg_ext; [done | | exact S2n]. intros k Rk. rewrite lookup_insert_ne; [done | lia].
Qed.

Lemma merge_prev_spec m a l1 sz l2 :
  0 < a -> a + span (l1 ++ (sz, true) :: l2) < 4294967296 ->
  sizes_ok (l1 ++ (sz, true) :: l2) -> seg m a 0 (l1 ++ (sz, true) :: l2) 0 ->
  exists m', merge_prev m (a + span l1) = Some m' /\ seg m' a 0 (join l1 sz l2) 0 /\
             dead m' (a + span l1).
Proof.
  intros Pa Sp Sz Sg. pose proof Sg as Sg0. apply seg_focus in Sg. destruct Sg as (S1 & Sb & S2).
  unfold merge_prev. rewrite Sb. cbn [option_bind mbind prev next size hdr].
  assert (Stay : dead m (a + span l1)) by (eexists; split; [exact Sb | by right]).
  destruct l1 as [|[s0 f0] l0 _] using rev_ind; [by exists m |].
  rewrite last_addr_snoc in *. rewrite <- app_assoc in Sg0, Sp, Sz. simpl in Sg0, Sp, Sz.
  apply seg_focus in Sg0. destruct Sg0 as (S0 & Sp0 & _).
  rewrite sizes_ok_app, !sizes_ok_cons in Sz. destruct Sz as (Z0 & Zp & _ & Zb & _ & Z2).
  rewrite span_app in Sp. simpl in Sp. pose proof (span_nonneg _ Z0). pose proof (span_nonneg _ Z2).
  rewrite span_app in *. simpl span in *. unfold KM_HDR_SIZE, KM_MIN_PAYLOAD in *.
  set (p := a + span l0) in *. replace (a + (span l0 + (16 + s0 + 0))) with (p + 16 + s0) in *
    by (unfold p; lia). set (b := p + 16 + s0) in *.
  rewrite (proj2 (Z.eqb_neq p 0)) by (unfold p; lia). rewrite Sp0.
  cbn [option_bind mbind free size next hdr head_addr]. rewrite join_snoc.
  destruct f0; cbn.
  2: { exists m. split; [done | split; [| done]]. apply seg_app. simpl. unfold KM_HDR_SIZE.
       fold p b. apply seg_app in S1. destruct S1 as [S1 S1b]. split; [done |]. split; [done |].
       split; [done |]. done. }
  rewrite u32_small by lia. rewrite (store_eq _ _ _ _ Sp0). cbn [option_bind mbind].
  erewrite store_eq by apply lookup_insert_eq. cbn [option_bind mbind]. rewrite insert_insert_eq.
  set (m1 := <[p := _]> m).
  assert (S2' : seg m1 (b + 16 + sz) b l2 0).
  { eapply seg_ext; [done | | exact S2]. intros k Rk. unfold m1.
    rewrite lookup_insert_ne; [done | unfold b in *; lia]. }
  destruct (store_prev_seg m1 (b + 16 + sz) b l2 p ltac:(unfold b, p; lia) Z2 S2')
    as (m2 & E2 & S2n & F2).
  rewrite E2. cbn [option_bind mbind].
  assert (Lb : m2 !! b = m !! b).
  { rewrite F2 by lia. unfold m1. rewrite lookup_insert_ne; [done | unfold b; lia]. }
  rewrite Sb in Lb. rewrite (store_eq _ _ _ _ Lb). eexists. split; [done |]. split.
  - apply seg_focus. unfold KM_HDR_SIZE. fold p.
    replace (p + 16 + (s0 + (16 + sz))) with (b + 16 + sz) by (unfold b; lia). split; [| split].
    + eapply seg_ext; [done | | exact S0]. intros k Rk.
      rewrite lookup_insert_ne, F2 by (unfold b in *; lia). unfold m1.
      rewrite lookup_insert_ne; [done | lia].
    + rewrite lookup_insert_ne, F2 by (unfold b in *; lia). unfold m1. by rewrite lookup_insert_eq.
    + eapply seg_ext; [done | | exact S2n]. intros k Rk. rewrite lookup_insert_ne; [done | lia].
  - eexists. split; [apply lookup_insert_eq | by left].
Qed.

Lemma push_free_shape sz l : exists n l', push_free sz l = (n, true) :: l'.
Proof. destruct l as [|[n []] l]; simpl; eauto. Qed.

Lemma push_free_span sz l : span (push_free sz l) = KM_HDR_SIZE + sz + span l.
Proof. destruct l as [|[n []] l]; simpl; lia. Qed.

Lemma push_free_sizes sz l : sizes_ok ((sz, true) :: l) -> sizes_ok (push_free sz l).
Proof.
  destruct l as [|[n []] l]; simpl; [done | | done]. rewrite !sizes_ok_cons.
  unfold KM_MIN_PAYLOAD, KMALLOC_ALIGN, KM_HDR_SIZE. intros (? & ? & ? & ? & ?).
  split; [lia | split; [| done]]. Z.div_mod_to_equations. lia.
Qed.

Lemma join_span l1 sz l2 : span (join l1 sz l2) = span l1 + span ((sz, true) :: l2).
Proof.
  destruct l1 as [|[s0 f0] l0 _] using rev_ind; [done |]. rewrite join_snoc, span_app.
  destruct f0; rewrite span_app; simpl; lia.
Qed.

Lemma join_sizes l1 sz l2 :
  sizes_ok l1 -> sizes_ok ((sz, true) :: l2) -> sizes_ok (join l1 sz l2).
Proof.
  destruct l1 as [|[s0 f0] l0 _] using rev_ind; [done |]. rewrite join_snoc.
  rewrite sizes_ok_app, !sizes_ok_cons. intros (Z0 & Zp & Mp & _) (Zb & Mb & Z2).
  destruct f0; rewrite sizes_ok_app, !sizes_ok_cons; [| tauto].
  unfold KM_MIN_PAYLOAD, KMALLOC_ALIGN, KM_HDR_SIZE in *.
  split; [done | split; [lia | split; [| done]]]. Z.div_mod_to_equations. lia.
Qed.

Lemma join_nonempty l1 sz l2 : join l1 sz l2 <> [].
Proof.
  destruct l1 as [|[s0 f0] l0 _] using rev_ind; [done |]. rewrite join_snoc.
  destruct f0, l0; done.
Qed.

Lemma kfree_release h l1 sz l2 :
  rep h (l1 ++ (sz, false) :: l2) ->
  exists h', kfree (g_heap_start h + span l1 + KM_HDR_SIZE) h = Some h' /\
    rep h' (release l1 sz l2) /\ g_heap_start h' = g_heap_start h /\
    dead (mem h') (g_heap_start h + span l1).
Proof.
  intros R. destruct (rep_bounds _ _ R) as (Pa & Sp & _). pose proof (rep_sizes _ _ R) as Sz.
  pose proof (rep_seg _ _ R) as Sg. apply seg_focus in Sg. destruct Sg as (S1 & Sb & S2).
  assert (Sz' := Sz). rewrite sizes_ok_app, sizes_ok_cons in Sz'. destruct Sz' as (Z1 & Zb & Mb & Z2).
  assert (Sp' := Sp). rewrite span_app in Sp'. simpl in Sp'.
  pose proof (span_nonneg l1 Z1). pose proof (span_nonneg l2 Z2).
  unfold KM_HDR_SIZE, KM_MIN_PAYLOAD in *. set (a := g_heap_start h) in *. set (b := a + span l1) in *.
  unfold kfree, block_from_payload, KM_HDR_SIZE. rewrite (proj2 (Z.eqb_neq (b + 16) 0)) by lia.
  replace (b + 16 - 16) with b by lia. rewrite u32_small by lia.
  rewrite Sb. cbn [option_bind mbind magic free hdr].
  change (negb (KM_MAGIC =? KM_MAGIC) || negb (0 =? 0)) with false. cbv iota.
  rewrite (store_eq _ _ _ _ Sb). cbn [option_bind mbind]. set (m1 := <[b := _]> (mem h)).
  assert (Sg1 : seg m1 a 0 (l1 ++ (sz, true) :: l2) 0).
  { apply seg_focus. fold b. unfold KM_HDR_SIZE. split; [| split].
    - eapply seg_ext; [done | | exact S1]. intros k Rk. unfold m1.
      rewrite lookup_insert_ne; [done | lia].
    - unfold m1. by rewrite lookup_insert_eq.
    - eapply seg_ext; [done | | exact S2]. intros k Rk. unfold m1.
      rewrite lookup_insert_ne; [done | lia]. }
  assert (Sp1 : a + span (l1 ++ (sz, true) :: l2) < 4294967296)
    by (rewrite span_app; simpl; unfold KM_HDR_SIZE; lia).
  assert (Sz1 : sizes_ok (l1 ++ (sz, true) :: l2))
    by (rewrite sizes_ok_app, sizes_ok_cons; unfold KM_MIN_PAYLOAD; auto).
  destruct (merge_next_spec m1 a l1 sz l2 Pa Sp1 Sz1 Sg1) as (m2 & E2 & Sg2). fold b in E2.
  rewrite E2. cbn [option_bind mbind]. unfold release.
  pose proof (push_free_span sz l2) as PS. pose proof (push_free_sizes sz l2) as PZ.
  rewrite sizes_ok_app in Sz1. destruct Sz1 as [_ Zb1]. specialize (PZ Zb1).
  destruct (push_free_shape sz l2) as (n & l2' & EP). rewrite EP in *.
  assert (Sp2 : span (l1 ++ (n, true) :: l2') = span (l1 ++ (sz, false) :: l2))
    by (rewrite !span_app, PS; done).
  assert (Sz2 : sizes_ok (l1 ++ (n, true) :: l2')) by (by apply sizes_ok_app).
  destruct (merge_prev_spec m2 a l1 n l2' Pa ltac:(lia) Sz2 Sg2) as (m3 & E3 & Sg3 & D). fold b in E3, D.
  rewrite E3. cbn [option_bind mbind]. eexists. split; [done | split; [| done]].
  eapply rep_update; [exact R | | by apply join_sizes | | exact Sg3].
  - rewrite join_span, <- Sp2, span_app. done.
  - split; intros E; [by apply join_nonempty in E | by destruct l1].
Qed.

(** A second [kfree] of the same payload finds a free or wiped header. *)
Lemma kfree_dead h b :
  0 < b < 4294967280 -> dead (mem h) b -> kfree (b + KM_HDR_SIZE) h = Some h.
Proof.
  intros R (blk & E & D). unfold kfree, block_from_payload, KM_HDR_SIZE.
  rewrite (proj2 (Z.eqb_neq (b + 16) 0)) by lia. replace (b + 16 - 16) with b by lia.
  rewrite u32_small, E by lia. cbn [option_bind mbind].
  destruct D as [-> | ->]; [done |]. by rewrite orb_true_r.
Qed.

(** ** Live payloads *)

Lemma live_app a l1 l2 : live a (l1 ++ l2) = live a l1 ++ live (a + span l1) l2.
Proof.
  revert a. induction l1 as [|[sz fr] l1 IH]; intros a; simpl; [by rewrite Z.add_0_r |].
  rewrite IH, app_assoc. do 2 f_equal. lia.
Qed.

Lemma live_push_free a sz l : live a (push_free sz l) = live (a + KM_HDR_SIZE + sz) l.
Proof. destruct l as [|[n []] l]; simpl; [done | f_equal; lia | done]. Qed.

Lemma live_join a l1 sz l2 :
  live a (join l1 sz l2) = live a l1 ++ live (a + span l1 + KM_HDR_SIZE + sz) l2.
Proof.
  destruct l1 as [|[s0 f0] l0 _] using rev_ind; [simpl; do 2 f_equal; lia |].
  rewrite join_snoc, live_app, span_app. destruct f0; rewrite live_app; simpl.
  - rewrite app_nil_r. do 2 f_equal. lia.
  - rewrite <- app_assoc. simpl. do 3 f_equal. lia.
Qed.

Lemma live_release a l1 sz l2 :
  live a (l1 ++ (sz, false) :: l2) ≡ₚ (a + span l1 + KM_HDR_SIZE, sz) :: live a (release l1 sz l2).
Proof.
  rewrite live_app. simpl. rewrite <- Permutation_middle. apply Permutation_skip.
  unfold release. pose proof (live_push_free (a + span l1) sz l2) as L.
  destruct (push_free_shape sz l2) as (n & l2' & E). rewrite E in *. simpl in L.
  by rewrite live_join, L.
Qed.

Lemma live_split a l p sz :
  (p, sz) ∈ live a l ->
  exists l1 l2, l = l1 ++ (sz, false) :: l2 /\ p = a + span l1 + KM_HDR_SIZE.
Proof.
  revert a. induction l as [|[s f] l IH]; intros a; simpl; [by intros E%elem_of_nil |].
  rewrite elem_of_app. intros [H | H].
  - destruct f; [by apply elem_of_nil in H |]. apply list_elem_of_singleton in H.
    injection H as -> ->. exists [], l. split; [done | simpl; lia].
  - destruct (IH _ H) as (l1 & l2 & -> & ->). exists ((s, f) :: l1), l2. split; [done | simpl; lia].
Qed.

(** Live payloads are aligned, inside the heap and pairwise disjoint (they are
    even a header apart). *)
Fixpoint spaced (lo : Z) (l : list (Z * Z)) (hi : Z) : Prop :=
  match l with
  | [] => lo <= hi
  | (p, n) :: l' => lo + KM_HDR_SIZE <= p /\ p mod KMALLOC_ALIGN = 0 /\ 0 < n /\ spaced (p + n) l' hi
  end.

Lemma spaced_weaken lo lo' l hi : lo' <= lo -> spaced lo l hi -> spaced lo' l hi.
Proof. destruct l as [|[p n] l]; simpl; [lia |]. intros L (A & B). split; [lia | done]. Qed.

Lemma live_spaced a l : a mod KMALLOC_ALIGN = 0 -> sizes_ok l -> spaced a (live a l) (a + span l).
Proof.
  revert a. induction l as [|[sz fr] l IH]; intros a M; [simpl; lia |].
  rewrite sizes_ok_cons. unfold KM_MIN_PAYLOAD, KMALLOC_ALIGN in *. intros (A & B & C). simpl.
  replace (a + (KM_HDR_SIZE + sz + span l)) with (a + KM_HDR_SIZE + sz + span l) by lia.
  assert (M' : (a + KM_HDR_SIZE + sz) mod 16 = 0)
    by (unfold KM_HDR_SIZE; Z.div_mod_to_equations; lia).
  specialize (IH (a + KM_HDR_SIZE + sz) M' C). destruct fr; simpl.
  - eapply spaced_weaken; [| exact IH]. unfold KM_HDR_SIZE. lia.
  - split; [lia | split; [| split; [lia | done]]].
    unfold KM_HDR_SIZE, KMALLOC_ALIGN. Z.div_mod_to_equations. lia.
Qed.

(** ** First fit on block lists *)

Lemma first_fit_live want a l p l' :
  0 <= want -> first_fit want a l = Some (p, l') ->
  exists n, want <= n /\ live a l' ≡ₚ (p, n) :: live a l.
Proof.
  intros W. revert a p l'. induction l as [|[sz fr] l IH]; intros a p l'; simpl; [done |].
  destruct (fr && (want <=? sz)) eqn:F.
  - apply andb_true_iff in F. destruct F as [-> Le]. apply Z.leb_le in Le.
    intros E. injection E as <- <-. unfold KM_HDR_SIZE, KM_MIN_PAYLOAD.
    destruct (16 + 16 <=? sz - want); simpl; [exists want | exists sz];
      (split; [lia |]); unfold KM_HDR_SIZE.
    + apply Permutation_skip. by replace (a + 16 + want + 16 + (sz - want - 16)) with (a + 16 + sz) by lia.
    + done.
  - destruct (first_fit want _ l) as [[q r]|] eqn:E; [| done]. intros H. injection H as <- <-.
    destruct (IH _ _ _ E) as (n & Le & P). exists n. split; [done |]. simpl.
    rewrite P. symmetry. apply Permutation_middle.
Qed.

Lemma first_fit_None want a l :
  first_fit want a l = None <-> Forall (fun b => snd b = true -> fst b < want) l.
Proof.
  revert a. induction l as [|[sz fr] l IH]; intros a; simpl; [by split |].
  rewrite Forall_cons. simpl. rewrite <- (IH (a + KM_HDR_SIZE + sz)).
  destruct fr; simpl.
  - destruct (Z.leb_spec want sz); simpl; [split; [done | intros [L _]; specialize (L eq_refl); lia] |].
    destruct (first_fit want _ l) as [[q r]|]; naive_solver.
  - destruct (first_fit want _ l) as [[q r]|]; naive_solver.
Qed.

Lemma first_fit_coalesced want a l p l' :
  first_fit want a l = Some (p, l') -> coalesced l ->
  coalesced l' /\ (starts_free l' -> starts_free l).
Proof.
  revert a p l'. induction l as [|[sz fr] l IH]; intros a p l'; simpl; [done |].
  destruct (fr && (want <=? sz)) eqn:F.
  - apply andb_true_iff in F. destruct F as [-> Le]. intros E. injection E as <- <-.
    intros [NF C]. destruct (_ <=? sz - want); simpl; naive_solver.
  - destruct (first_fit want _ l) as [[q r]|] eqn:E; [| done]. intros H [NF C]. injection H as <- <-.
    destruct (IH _ _ _ E C) as [C' S']. simpl. naive_solver.
Qed.

Lemma join_coalesced l1 sz l2 :
  coalesced (l1 ++ (sz, false) :: l2) -> ~ starts_free l2 ->
  forall n, coalesced (join l1 n l2) /\ (starts_free (join l1 n l2) -> l1 = [] \/ starts_free l1).
Proof.
  intros C NF n. induction l1 as [|[s f] l1 IH]; [simpl in *; naive_solver |].
  simpl in C. destruct C as [N C]. specialize (IH C). destruct l1 as [|x l1].
  - simpl in *. destruct f; simpl; naive_solver.
  - change (join ((s, f) :: x :: l1) n l2) with ((s, f) :: join (x :: l1) n l2) || idtac.
    destruct f; simpl in *; naive_solver.
Qed.

Lemma release_coalesced l1 sz l2 :
  coalesced (l1 ++ (sz, false) :: l2) -> coalesced (release l1 sz l2).
Proof.
  intros C. unfold release. destruct l2 as [|[n f] l2].
  { exact (proj1 (join_coalesced l1 sz [] C (fun H => H) sz)). }
  destruct f; simpl.
  2: { exact (proj1 (join_coalesced l1 sz ((n, false) :: l2) C (fun H => H) sz)). }
  assert (C' : coalesced (l1 ++ (sz, false) :: l2) /\ ~ starts_free l2).
  { induction l1 as [|[s f] l1 IH]; simpl in *; [naive_solver |].
    destruct C as [N C]. destruct (IH C) as [I1 I2]. split; [split; [| done] | done].
    intros Ef. specialize (N Ef). by destruct l1. }
  exact (proj1 (join_coalesced l1 sz l2 (proj1 C') (proj2 C') _)).
Qed.

(** ** The allocator's contract *)

Definition heap_ok (h : heap) (l : blocks) : Prop := rep h l /\ coalesced l.

(** The payloads the allocator has handed out. *)
Definition handed_out (h : heap) (l : blocks) : list (Z * Z) := live (g_heap_start h) l.

Lemma kmalloc_step h l sz :
  heap_ok h l -> 0 < sz <= 4294967280 ->
  exists h' p, kmalloc sz h = Some (h', p) /\ g_heap_start h' = g_heap_start h /\
    (p = 0 /\ h' = h /\
       Forall (fun b => snd b = true -> fst b < round_up sz KMALLOC_ALIGN) l \/
     p <> 0 /\ p mod KMALLOC_ALIGN = 0 /\
       exists l' n, heap_ok h' l' /\ sz <= n /\ handed_out h' l' ≡ₚ (p, n) :: handed_out h l).
Proof.
  intros [R C] S. pose proof (kmalloc_first_fit h l sz R S) as K.
  destruct (round_up_spec sz S) as (W1 & _ & W2).
  destruct (first_fit _ _ l) as [[p l']|] eqn:E.
  - destruct K as (h' & -> & R' & St). exists h', p. split; [done | split; [done |]]. right.
    destruct (first_fit_live (round_up sz KMALLOC_ALIGN) _ _ _ _ ltac:(lia) E) as (n & Ln & P).
    destruct (first_fit_coalesced _ _ _ _ _ E C) as [C' _].
    assert (In : (p, n) ∈ live (g_heap_start h') l') by (rewrite St, P; left).
    destruct (live_split _ _ _ _ In) as (l1 & l2 & El & Ep).
    destruct (rep_start _ _ R') as [Ps Ms]. pose proof (rep_sizes _ _ R') as Z1. rewrite El in Z1.
    apply sizes_ok_app in Z1. destruct Z1 as [Z1 _].
    pose proof (span_nonneg _ Z1). pose proof (span_mod _ Z1).
    unfold KM_HDR_SIZE, KMALLOC_ALIGN in *.
    split; [lia | split; [Z.div_mod_to_equations; lia |]].
    exists l', n. split; [done | split; [lia |]]. unfold handed_out. by rewrite St.
  - exists h, 0. split; [done | split; [done |]]. left. split; [done | split; [done |]].
    by apply first_fit_None in E.
Qed.

Lemma kfree_step h l p n :
  heap_ok h l -> (p, n) ∈ handed_out h l ->
  exists h' l', kfree p h = Some h' /\ g_heap_start h' = g_heap_start h /\ heap_ok h' l' /\
    handed_out h l ≡ₚ (p, n) :: handed_out h' l' /\ kfree p h' = Some h'.
Proof.
  intros [R C] In. destruct (live_split _ _ _ _ In) as (l1 & l2 & -> & ->).
  destruct (kfree_release _ _ _ _ R) as (h' & E & R' & St & D).
  exists h', (release l1 n l2). split; [done | split; [done | split; [| split]]].
  - split; [done | by eapply release_coalesced].
  - unfold handed_out. rewrite St. apply live_release.
  - apply kfree_dead; [| done]. destruct (rep_bounds _ _ R) as (Ps & Sp & _).
    pose proof (rep_sizes _ _ R) as Z1. rewrite sizes_ok_app, sizes_ok_cons in Z1.
    destruct Z1 as (Z1 & Zn & _ & Z2). pose proof (span_nonneg _ Z1). pose proof (span_nonneg _ Z2).
    destruct (rep_start _ _ R) as [_ M]. pose proof (span_mod _ Z1).
    rewrite span_app in Sp. simpl in Sp. unfold KM_HDR_SIZE, KM_MIN_PAYLOAD in *. lia.
Qed.

(** ** Clients

    A client holds the buffers it was given with the sizes it asked for; it
    frees only what it holds. *)
Inductive hstep : heap * list (Z * Z) -> heap * list (Z * Z) -> Prop :=
  | step_alloc h own sz h' p :
      0 < sz <= 4294967280 -> kmalloc sz h = Some (h', p) -> p <> 0 ->
      hstep (h, own) (h', (p, sz) :: own)
  | step_alloc_fail h own sz h' :
      0 < sz <= 4294967280 -> kmalloc sz h = Some (h', 0) -> hstep (h, own) (h', own)
  | step_free h own1 p sz own2 h' :
      kfree p h = Some h' -> hstep (h, own1 ++ (p, sz) :: own2) (h', own1 ++ own2).

Inductive reachable (start end_ : Z) : heap * list (Z * Z) -> Prop :=
  | reach_init : reachable start end_ (kmalloc_init start end_ ∅, [])
  | reach_step x y : reachable start end_ x -> hstep x y -> reachable start end_ y.

(** Every buffer the client holds is a distinct payload at least as large as
    asked. *)
Definition holds (own lv : list (Z * Z)) : Prop :=
  exists lv', lv ≡ₚ lv' /\ Forall2 (fun o v => fst o = fst v /\ 0 < snd o <= snd v) own lv'.

Definition apart (x y : Z * Z) : Prop :=
  fst x + snd x <= fst y \/ fst y + snd y <= fst x.

(** Pairwise disjoint buffers inside [lo, hi). *)
Definition disjoint_in (lo hi : Z) (own : list (Z * Z)) : Prop :=
  Forall (fun o => lo <= fst o /\ fst o + snd o <= hi) own /\
  forall i j x y, i <> j -> own !! i = Some x -> own !! j = Some y -> apart x y.

Lemma init_ok start end_ :
  0 < start < 4294967200 -> start <= end_ < 4294967296 ->
  exists l, heap_ok (kmalloc_init start end_ ∅) l /\
    handed_out (kmalloc_init start end_ ∅) l = [].
Proof.
  intros Rs Re. unfold kmalloc_init, KMALLOC_ALIGN, KM_HDR_SIZE, KM_MIN_PAYLOAD.
  change (16 - 1) with (2 ^ 4 - 1). rewrite !land_align by (lia || apply u32_range).
  change (2 ^ 4) with 16. replace (start + 16 - 1) with (start + 15) by lia.
  rewrite (u32_small (start + 15)) by lia.
  set (s := (start + 15) / 16 * 16). set (e := end_ / 16 * 16).
  assert (Bs : start <= s <= start + 15 /\ s mod 16 = 0 /\ e <= end_ /\ e mod 16 = 0)
    by (unfold s, e; Z.div_mod_to_equations; lia).
  rewrite (u32_small (s + 16 + 16)) by lia. destruct (Z.ltb_spec e (s + 16 + 16)) as [L | G].
  - exists []. split; [| done]. split; [| done].
    split; simpl; try done; unfold KMALLOC_ALIGN; try lia. by apply Forall_nil.
  - rewrite u32_small by lia. exists [(e - s - 16, true)]. split; [split | done]; [| simpl; tauto].
    split; cbn [g_heap_start g_heap_end g_head mem head_addr span]; unfold KMALLOC_ALIGN, KM_HDR_SIZE;
      try lia; try done.
    + split; [| done]. by rewrite lookup_insert_eq.
    + apply sizes_ok_cons. unfold KM_MIN_PAYLOAD, KMALLOC_ALIGN. split; [lia |].
      split; [| by apply Forall_nil]. Z.div_mod_to_equations. lia.
Qed.

Lemma holds_perm own own' lv : own ≡ₚ own' -> holds own lv -> holds own' lv.
Proof.
  intros P (lv' & Q & F). destruct (Permutation_Forall2 P F) as (lv'' & P' & F').
  exists lv''. split; [by rewrite Q | done].
Qed.

(** What every reachable state satisfies. *)
Definition client_inv (st : heap * list (Z * Z)) : Prop :=
  exists l, heap_ok (fst st) l /\ holds (snd st) (handed_out (fst st) l).

Lemma client_inv_step x y : client_inv x -> hstep x y -> client_inv y.
Proof.
  intros (l & OK & H) St. destruct St as [h own sz h' p S K Np | h own sz h' S K | h o1 p sz o2 h' K];
    simpl in *.
  - destruct (kmalloc_step h l sz OK S) as (h1 & p1 & K1 & _ & C). rewrite K in K1.
    injection K1 as <- <-. destruct C as [[? _] | (_ & _ & l' & n & OK' & Ln & P)]; [done |].
    exists l'. split; [done |]. destruct H as (lv & Q & F). exists ((p, n) :: lv). split.
    + rewrite P. by apply Permutation_skip.
    + constructor; [simpl; lia | done].
  - destruct (kmalloc_step h l sz OK S) as (h1 & p1 & K1 & _ & C). rewrite K in K1.
    injection K1 as <- <-. destruct C as [(_ & -> & _) | [? _]]; [| done]. by exists l.
  - apply (holds_perm _ ((p, sz) :: o1 ++ o2)) in H;
      [| symmetry; apply Permutation_middle].
    destruct H as (lv & Q & F). inversion F as [|? [p' n] ? lv' [E L] F' E1 E2]; subst.
    simpl in E. subst p'.
    destruct (kfree_step h l p n OK) as (h1 & l' & K1 & _ & OK' & P & _).
    { rewrite Q. left. }
    rewrite K in K1. injection K1 as <-. exists l'. split; [done |]. exists lv'. split; [| done].
    rewrite P in Q. by apply Permutation_cons_inv in Q.
Qed.

Lemma reachable_inv start end_ st :
  0 < start < 4294967200 -> start <= end_ < 4294967296 ->
  reachable start end_ st -> client_inv st.
Proof.
  intros Rs Re. induction 1 as [| x y _ IH St].
  - destruct (init_ok start end_ Rs Re) as (l & OK & E). exists l. split; [done |].
    exists []. split; [cbn [fst snd]; by rewrite E | constructor].
  - by eapply client_inv_step.
Qed.

(** ** Disjointness *)

Lemma apart_sym x y : apart x y -> apart y x.
Proof. unfold apart. tauto. Qed.

Lemma spaced_bounds lo l hi : spaced lo l hi -> lo <= hi /\ Forall (fun o => lo <= fst o /\ fst o + snd o <= hi) l.
Proof.
  revert lo. induction l as [|[p n] l IH]; intros lo; simpl; [done |].
  unfold KM_HDR_SIZE. intros (A & _ & B & C). destruct (IH _ C) as [D F]. split; [lia |].
  constructor; [simpl; lia |]. eapply Forall_impl; [exact F |]. simpl. intros. lia.
Qed.

Lemma spaced_apart lo l hi : spaced lo l hi -> ForallOrdPairs apart l.
Proof.
  revert lo. induction l as [|[p n] l IH]; intros lo; simpl; [constructor |].
  intros (A & _ & B & C). constructor; [| by eapply IH].
  destruct (spaced_bounds _ _ _ C) as [_ F]. eapply Forall_impl; [exact F |].
  intros o [D _]. left. simpl. lia.
Qed.

Lemma FOP_perm (l l' : list (Z * Z)) : l ≡ₚ l' -> ForallOrdPairs apart l -> ForallOrdPairs apart l'.
Proof.
  induction 1 as [| x l l' P IH | x y l | l l' l'' P1 IH1 P2 IH2]; intros F; auto.
  - inversion F; subst. constructor; [| auto]. by rewrite <- P.
  - inversion F as [| ? ? F1 F2]; subst. inversion F2; subst. inversion F1; subst.
    constructor; [constructor; [by apply apart_sym | done] | constructor; done].
Qed.

Lemma FOP_lookup (l : list (Z * Z)) i j x y :
  ForallOrdPairs apart l -> i <> j -> l !! i = Some x -> l !! j = Some y -> apart x y.
Proof.
  intros F. revert i j. induction F as [| z l F1 F2 IH]; intros i j N Ei Ej; [done |].
  rewrite Forall_lookup in F1. destruct i as [|i], j as [|j]; simpl in *; [done | | |].
  - injection Ei as ->. by eapply F1.
  - injection Ej as ->. apply apart_sym. by eapply F1.
  - eapply IH; [| done | done]. congruence.
Qed.

Lemma holds_disjoint h l own :
  heap_ok h l -> holds own (handed_out h l) -> disjoint_in (g_heap_start h) (g_heap_end h) own.
Proof.
  intros [R _] (lv & Q & F). destruct (rep_end _ _ R) as [E _].
  pose proof (live_spaced _ l (proj2 (rep_start _ _ R)) (rep_sizes _ _ R)) as Sp. rewrite E in Sp.
  pose proof (FOP_perm _ _ Q (spaced_apart _ _ _ Sp)) as A.
  destruct (spaced_bounds _ _ _ Sp) as [_ B].
  assert (B' : Forall (fun o => g_heap_start h <= o.1 /\ o.1 + o.2 <= g_heap_end h) lv)
    by (rewrite <- Q; exact B).
  split.
  - apply Forall_lookup. intros i x Ex. destruct (Forall2_lookup_l _ _ _ _ _ F Ex) as (v & Ev & Eq & L).
    rewrite Forall_lookup in B'. specialize (B' _ _ Ev). simpl in B'. lia.
  - intros i j x y N Ei Ej.
    destruct (Forall2_lookup_l _ _ _ _ _ F Ei) as (v & Ev & Eq & L).
    destruct (Forall2_lookup_l _ _ _ _ _ F Ej) as (w & Ew & Eq' & L').
    pose proof (FOP_lookup _ _ _ _ _ A N Ev Ew) as P. unfold apart in *. lia.
Qed.

(** With nothing handed out, a coalesced heap is one free block. *)
Lemma all_free_single h l :
  heap_ok h l -> handed_out h l = [] ->
  l = [] \/ l = [(g_heap_end h - g_heap_start h - KM_HDR_SIZE, true)].
Proof.
  intros [R C] E. unfold handed_out in E. destruct (rep_end _ _ R) as [S _].
  destruct l as [|[sz fr] l]; [by left |]. right. simpl in E. destruct fr; [| done].
  destruct l as [|[s2 f2] l].
  - simpl in S. do 2 f_equal. lia.
  - simpl in E. destruct f2; [| done]. simpl in C. naive_solver.
Qed.

(** ** Properties *)

(** C4. [kmalloc] always returns.  It either fails with [NULL], leaves the heap
    as it was, and then every free block is smaller than the rounded request;
    or it returns a 16-byte aligned payload of at least the requested size that
    was not handed out before, and every other payload is kept. *)
Theorem kmalloc_correct h l sz :
  heap_ok h l -> 0 < sz <= 4294967280 ->
  exists h' p, kmalloc sz h = Some (h', p) /\
    (p = 0 /\ h' = h /\
       Forall (fun b => snd b = true -> fst b < round_up sz KMALLOC_ALIGN) l \/
     p <> 0 /\ p mod KMALLOC_ALIGN = 0 /\
       exists l' n, heap_ok h' l' /\ sz <= n /\ handed_out h' l' ≡ₚ (p, n) :: handed_out h l).
Proof.
  intros OK S. destruct (kmalloc_step h l sz OK S) as (h' & p & K & _ & C). eauto.
Qed.

(** C5. [kfree] of a payload in use always returns, takes exactly that payload
    out of use, keeps the heap tiled and fully coalesced, and a second [kfree]
    of the same pointer is a no-op. *)
Theorem kfree_correct h l p n :
  heap_ok h l -> (p, n) ∈ handed_out h l ->
  exists h' l', kfree p h = Some h' /\ heap_ok h' l' /\
    handed_out h l ≡ₚ (p, n) :: handed_out h' l' /\ kfree p h' = Some h'.
Proof.
  intros OK In. destruct (kfree_step h l p n OK In) as (h' & l' & K & _ & R). eauto.
Qed.

(** C6. For every client that frees only what it holds: in every reachable state
    the buffers held are pairwise disjoint and inside the heap, every request
    and every release of a held buffer returns, and once the client holds
    nothing the whole heap is one free block again. *)
Theorem reachable_heap_safe start end_ h own :
  0 < start < 4294967200 -> start <= end_ < 4294967296 ->
  reachable start end_ (h, own) ->
  disjoint_in (g_heap_start h) (g_heap_end h) own /\
  (forall sz, 0 < sz <= 4294967280 -> is_Some (kmalloc sz h)) /\
  (forall p n, (p, n) ∈ own -> is_Some (kfree p h)) /\
  (own = [] -> exists l, heap_ok h l /\
     (l = [] \/ l = [(g_heap_end h - g_heap_start h - KM_HDR_SIZE, true)])).
Proof.
  intros Rs Re Re'. destruct (reachable_inv _ _ _ Rs Re Re') as (l & OK & H). simpl in *.
  split; [by eapply holds_disjoint | split; [| split]].
  - intros sz S. destruct (kmalloc_step h l sz OK S) as (h' & p & -> & _). by eexists.
  - intros p n In. destruct H as (lv & Q & F). apply list_elem_of_lookup in In.
    destruct In as [i Ei]. destruct (Forall2_lookup_l _ _ _ _ _ F Ei) as ([q m] & Ev & Eq & _).
    simpl in Eq. subst q. destruct (kfree_step h l p m OK) as (h' & l' & -> & _); [| by eexists].
    rewrite Q. apply list_elem_of_lookup. eauto.
  - intros ->. exists l. split; [done |]. apply all_free_single; [done |].
    destruct H as (lv & Q & F). inversion F; subst. by apply Permutation_nil_r in Q.
Qed.

(** A request in the last 15 values of [size_t] wraps to zero in [round_up], so
    [kmalloc] succeeds with any free block, however small. *)
Lemma kmalloc_wraps sz : 4294967280 < sz < 4294967296 -> round_up sz KMALLOC_ALIGN = 0.
Proof.
  intros R. unfold round_up, KMALLOC_ALIGN. change (16 - 1) with (2 ^ 4 - 1).
  rewrite land_align by (lia || apply u32_range). change (2 ^ 4) with 16.
  unfold u32. Z.div_mod_to_equations. lia.
Qed.

Lemma kmalloc_huge_succeeds :
  match kmalloc 4294967295 (kmalloc_init 4096 8192 ∅) with
  | Some (h, p) => p = 4112 /\ size <$> mem h !! 4096 = Some 0
  | None => False
  end.
Proof. vm_compute. auto. Qed.

(** ** Witnesses: a 4 KiB heap *)

Definition demo : heap := kmalloc_init 4096 8192 ∅.

Lemma heap_demo_ok : heap_ok demo [(4080, true)].
Proof.
  destruct (init_ok 4096 8192 ltac:(lia) ltac:(lia)) as (l & OK & E).
  destruct (all_free_single _ _ OK E) as [-> | ->]; [| exact OK].
  destruct OK as [R _]. pose proof (rep_head _ _ R) as H. vm_compute in H. done.
Qed.

Lemma kmalloc_correct_witness :
  heap_ok demo [(4080, true)] /\
  exists h' p, kmalloc 100 demo = Some (h', p) /\
    (p = 0 /\ h' = demo /\
       Forall (fun b => snd b = true -> fst b < round_up 100 KMALLOC_ALIGN) [(4080, true)] \/
     p <> 0 /\ p mod KMALLOC_ALIGN = 0 /\
       exists l' n, heap_ok h' l' /\ 100 <= n /\
         handed_out h' l' ≡ₚ (p, n) :: handed_out demo [(4080, true)]).
Proof. split; [apply heap_demo_ok | apply (kmalloc_correct demo [(4080, true)] 100 heap_demo_ok); lia]. Defined.

(** The heap after one allocation of 100 bytes. *)
Definition demo1 : heap := match kmalloc 100 demo with Some (h, _) => h | None => demo end.

Lemma demo1_ok : heap_ok demo1 [(112, false); (3952, true)].
Proof.
  pose proof (kmalloc_first_fit demo [(4080, true)] 100 (proj1 heap_demo_ok) ltac:(lia)) as H.
  destruct (kmalloc_step demo _ 100 heap_demo_ok ltac:(lia)) as (h' & p & E & _).
  change (first_fit (round_up 100 KMALLOC_ALIGN) (g_heap_start demo) [(4080, true)])
    with (Some (4112, [(112, false); (3952, true)])) in H.
  destruct H as (h1 & E1 & R & _). unfold demo1. rewrite E1. split; [done | simpl; naive_solver].
Qed.

Lemma kfree_correct_witness :
  (4112, 112) ∈ handed_out demo1 [(112, false); (3952, true)] /\
  exists h' l', kfree 4112 demo1 = Some h' /\ heap_ok h' l' /\
    handed_out demo1 [(112, false); (3952, true)] ≡ₚ (4112, 112) :: handed_out h' l' /\
    kfree 4112 h' = Some h'.
Proof.
  assert (In : (4112, 112) ∈ handed_out demo1 [(112, false); (3952, true)]) by (vm_compute; left).
  split; [done | by apply (kfree_correct demo1 _ 4112 112 demo1_ok)].
Defined.

Lemma reachable_heap_safe_witness :
  reachable 4096 8192 (demo1, [(4112, 100)]) /\ is_Some (kfree 4112 demo1) /\
  is_Some (kmalloc 5000 demo1).
Proof.
  assert (Re : reachable 4096 8192 (demo1, [(4112, 100)])).
  { eapply reach_step; [apply reach_init |]. apply (step_alloc _ _ 100); [lia | | done].
    by vm_compute. }
  destruct (reachable_heap_safe 4096 8192 demo1 _ ltac:(lia) ltac:(lia) Re) as (_ & A & F & _).
  split; [done |]. split; [apply (F 4112 100); left | apply A; lia].
Defined.

End KMALLOC.
