(* ===== verification/Ring.v ===== *)
(** Ring buffers.

    [kernel/pipe.c] (bytes), [kernel/sock.c] (bytes, and the accept queue of
    connection indices) use the same array ring: the producer stores at [head]
    and advances it modulo the size, the consumer loads at [tail] and advances
    it, [head = tail] is empty and [head + 1 = tail] is full.  This file relates
    such a ring to the sequence it holds. *)

From stdpp Require Import base numbers list.
From Stdlib Require Import ZArith Lia.
From S2P Require Import Prelude.

Section Ring.
Context {A : Type} `{Inhabited A} (N : Z).

Definition ring_succ (i : Z) : Z := (i + 1) mod N.

(** Number of queued elements. *)
Definition ring_len (head tail : Z) : Z := (head - tail) mod N.

(** The queued elements, oldest first. *)
Definition contents (buf : list A) (head tail : Z) : list A :=
  map (fun k => zget buf ((tail + Z.of_nat k) mod N)) (seq 0 (Z.to_nat (ring_len head tail))).

Record ring_ok (buf : list A) (head tail : Z) : Prop := RingOk {
  ring_pos : 1 < N;
  ring_size : zlen buf = N;
  ring_head : 0 <= head < N;
  ring_tail : 0 <= tail < N
}.

Implicit Types (buf : list A) (head tail i : Z) (x : A).

Lemma ring_len_bounds buf head tail : ring_ok buf head tail -> 0 <= ring_len head tail < N.
Proof. intros R. destruct R. apply Z.mod_pos_bound. lia. Qed.

Lemma length_contents buf head tail :
  length (contents buf head tail) = Z.to_nat (ring_len head tail).
Proof. unfold contents. by rewrite length_map, length_seq. Qed.

Lemma ring_len_0 buf head tail : ring_ok buf head tail -> (ring_len head tail = 0 <-> head = tail).
Proof.
  intros R. destruct R. unfold ring_len. rewrite mod_once by lia. repeat cases; lia.
Qed.

Lemma ring_empty buf head tail :
  ring_ok buf head tail -> (contents buf head tail = [] <-> head = tail).
Proof.
  intros R. rewrite <- (ring_len_0 buf head tail R). pose proof (ring_len_bounds _ _ _ R).
  rewrite <- length_zero_iff_nil, length_contents. lia.
Qed.

Lemma ring_succ_bounds buf head tail i :
  ring_ok buf head tail -> 0 <= i < N -> 0 <= ring_succ i < N.
Proof. intros R. destruct R. intros. apply Z.mod_pos_bound. lia. Qed.

Lemma ring_full buf head tail :
  ring_ok buf head tail -> (ring_succ head = tail <-> ring_len head tail = N - 1).
Proof.
  intros R. destruct R. unfold ring_succ, ring_len. rewrite !mod_once by lia. repeat cases; lia.
Qed.

Lemma ring_len_push buf head tail :
  ring_ok buf head tail -> ring_succ head <> tail ->
  ring_len (ring_succ head) tail = ring_len head tail + 1.
Proof.
  intros R NF. pose proof (ring_len_bounds _ _ _ R). pose proof (ring_full _ _ _ R).
  destruct R. unfold ring_succ, ring_len in *.
  rewrite Zminus_mod_idemp_l. replace (head + 1 - tail) with (head - tail + 1) by lia.
  rewrite <- Zplus_mod_idemp_l. apply Z.mod_small. lia.
Qed.

Lemma ring_len_pop buf head tail :
  ring_ok buf head tail -> head <> tail ->
  ring_len head (ring_succ tail) = ring_len head tail - 1.
Proof.
  intros R NE. pose proof (ring_len_bounds _ _ _ R). pose proof (ring_len_0 _ _ _ R).
  destruct R. unfold ring_succ, ring_len in *. rewrite Zminus_mod_idemp_r.
  replace (head - (tail + 1)) with (head - tail - 1) by lia.
  rewrite <- Zminus_mod_idemp_l. apply Z.mod_small. lia.
Qed.

(** The slot at [head] is not part of the contents. *)
Lemma slot_not_queued buf head tail k :
  ring_ok buf head tail -> 0 <= k < ring_len head tail -> (tail + k) mod N <> head.
Proof.
  intros R Rk. pose proof (ring_len_bounds _ _ _ R) as B. destruct R.
  unfold ring_len in *. rewrite (mod_once N (head - tail)) in Rk, B by lia.
  rewrite (mod_once N (tail + k)) by lia.
  repeat cases_in Rk; repeat cases; lia.
Qed.

Lemma contents_store buf head tail x :
  ring_ok buf head tail -> contents (zset buf head x) head tail = contents buf head tail.
Proof.
  intros R. unfold contents. apply map_ext_in. intros k Hk%in_seq.
  pose proof (ring_len_bounds _ _ _ R).
  pose proof (slot_not_queued _ _ _ (Z.of_nat k) R ltac:(lia)).
  destruct R. apply zget_zset_ne; [lia | apply Z.mod_pos_bound; lia | done].
Qed.

Lemma contents_publish buf head tail :
  ring_ok buf head tail -> ring_succ head <> tail ->
  contents buf (ring_succ head) tail = contents buf head tail ++ [zget buf head].
Proof.
  intros R NF. pose proof (ring_len_bounds _ _ _ R). unfold contents.
  rewrite (ring_len_push _ _ _ R NF).
  replace (Z.to_nat (ring_len head tail + 1)) with (Z.to_nat (ring_len head tail) + 1)%nat by lia.
  rewrite seq_app, map_app. f_equal. simpl. do 2 f_equal. rewrite Z2Nat.id by lia.
  destruct R. unfold ring_len. rewrite Zplus_mod_idemp_r.
  replace (tail + (head - tail)) with head by lia. apply Z.mod_small. lia.
Qed.

Lemma contents_push buf head tail x :
  ring_ok buf head tail -> ring_succ head <> tail ->
  contents (zset buf head x) (ring_succ head) tail = contents buf head tail ++ [x].
Proof.
  intros R NF. assert (R' : ring_ok (zset buf head x) head tail).
  { destruct R. split; [done | by rewrite zlen_zset | done | done]. }
  rewrite (contents_publish _ _ _ R' NF), (contents_store _ _ _ _ R). destruct R.
  by rewrite zget_zset_eq by lia.
Qed.

Lemma contents_pop buf head tail :
  ring_ok buf head tail -> head <> tail ->
  contents buf head tail = zget buf tail :: contents buf head (ring_succ tail).
Proof.
  intros R NE. pose proof (ring_len_bounds _ _ _ R). pose proof (ring_len_0 _ _ _ R).
  unfold contents. rewrite (ring_len_pop _ _ _ R NE).
  replace (Z.to_nat (ring_len head tail)) with (S (Z.to_nat (ring_len head tail - 1))) by lia.
  simpl. destruct R. rewrite Z.add_0_r, Z.mod_small by lia. f_equal.
  rewrite <- seq_shift, map_map. apply map_ext. intros k. f_equal. unfold ring_succ.
  rewrite Zplus_mod_idemp_l. f_equal. lia.
Qed.

Lemma ring_ok_push buf head tail x :
  ring_ok buf head tail -> ring_ok (zset buf head x) (ring_succ head) tail.
Proof.
  intros R. pose proof (ring_succ_bounds _ _ _ head R (ring_head _ _ _ R)). destruct R.
  split; [done | by rewrite zlen_zset | done | done].
Qed.

Lemma ring_ok_pop buf head tail : ring_ok buf head tail -> ring_ok buf head (ring_succ tail).
Proof.
  intros R. pose proof (ring_succ_bounds _ _ _ tail R (ring_tail _ _ _ R)). by destruct R.
Qed.

Lemma ring_ok_store buf head tail i x :
  ring_ok buf head tail -> ring_ok (zset buf i x) head tail.
Proof. intros R. destruct R. split; [done | by rewrite zlen_zset | done | done]. Qed.

End Ring.

#[export] Hint Resolve ring_ok_push ring_ok_pop ring_ok_store : advent.
