(* ===== verification/Pipe.v ===== *)
(** In-kernel pipes ([kernel/pipe.c]).

    [PIPE] holds the table of pipes and every operation.  A blocking call is a
    resumable function: its loop body up to the next [task_yield] is one
    function whose result says whether the call returned or yielded.
    The second half of the module cuts the read and write loops into single
    memory accesses, so that a reader and a writer on two processors interleave
    between any two of them. *)

From stdpp Require Import base numbers list.
From Stdlib Require Import ZArith Lia.
From S2P Require Import Prelude Ring.

Module PIPE.

Definition PIPE_MAX : Z := 24.

Definition PIPE_BUF_SZ : Z := 1024.

Record pipe := Pipe {
  in_use : bool;
  read_refs : Z;
  write_refs : Z;
  head : Z;
  tail : Z;
  buf : list Z
}.

#[global] Instance pipe_inhabited : Inhabited pipe := populate (Pipe false 0 0 0 0 []).

(** [memset(&g_pipes[i], 0, sizeof(g_pipes[i]))] *)
Definition pipe_zero : pipe := Pipe false 0 0 0 0 (zrep PIPE_BUF_SZ 0).

Definition set_in_use (p : pipe) (b : bool) : pipe :=
  Pipe b (read_refs p) (write_refs p) (head p) (tail p) (buf p).

Definition set_read_refs (p : pipe) (n : Z) : pipe :=
  Pipe (in_use p) n (write_refs p) (head p) (tail p) (buf p).

Definition set_write_refs (p : pipe) (n : Z) : pipe :=
  Pipe (in_use p) (read_refs p) n (head p) (tail p) (buf p).

Definition set_head (p : pipe) (h : Z) : pipe :=
  Pipe (in_use p) (read_refs p) (write_refs p) h (tail p) (buf p).

Definition set_tail (p : pipe) (t : Z) : pipe :=
  Pipe (in_use p) (read_refs p) (write_refs p) (head p) t (buf p).

Definition set_byte (p : pipe) (i b : Z) : pipe :=
  Pipe (in_use p) (read_refs p) (write_refs p) (head p) (tail p) (zset (buf p) i b).

(** [g_pipes] *)
Definition pipes := list pipe.

Definition pipe_init (g : pipes) : pipes :=
  zfor (Z.to_nat PIPE_MAX) 0 (fun i g => zset g i (set_in_use (zget g i) false)) g.

Definition pipe_new (g : pipes) : Z * pipes :=
  match zfind (Z.to_nat PIPE_MAX) 0 (fun i => negb (in_use (zget g i))) with
  | Some i => (i, zset g i (set_write_refs (set_read_refs (set_in_use pipe_zero true) 1) 1))
  | None => (-1, g)
  end.

Definition valid (g : pipes) (idx : Z) : bool :=
  (0 <=? idx) && (idx <? PIPE_MAX) && in_use (zget g idx).

Definition pipe_inc_read (idx : Z) (g : pipes) : pipes :=
  if valid g idx then zset g idx (set_read_refs (zget g idx) (read_refs (zget g idx) + 1)) else g.

Definition pipe_inc_write (idx : Z) (g : pipes) : pipes :=
  if valid g idx then zset g idx (set_write_refs (zget g idx) (write_refs (zget g idx) + 1)) else g.

Definition try_free (p : pipe) : pipe :=
  if (read_refs p =? 0) && (write_refs p =? 0) then set_in_use p false else p.

Definition pipe_close_read (idx : Z) (g : pipes) : pipes :=
  if negb (valid g idx) then g else
  let p := zget g idx in
  let p := if 0 <? read_refs p then set_read_refs p (read_refs p - 1) else p in
  zset g idx (try_free p).

Definition pipe_close_write (idx : Z) (g : pipes) : pipes :=
  if negb (valid g idx) then g else
  let p := zget g idx in
  let p := if 0 <? write_refs p then set_write_refs p (write_refs p - 1) else p in
  zset g idx (try_free p).

Definition pipe_read_refs (idx : Z) (g : pipes) : Z :=
  if valid g idx then read_refs (zget g idx) else 0.

Definition pipe_write_refs (idx : Z) (g : pipes) : Z :=
  if valid g idx then write_refs (zget g idx) else 0.

Definition pipe_read_avail (idx : Z) (g : pipes) : Z :=
  if negb (valid g idx) then -1 else
  let p := zget g idx in
  if negb (head p =? tail p) then 1 else
  if write_refs p =? 0 then 1 else 0.

(** The outcome of running a blocking call up to its return or its next
    [task_yield]; [K] is what the call needs to resume. *)
Inductive outcome (R K : Type) : Type :=
| Return (r : R)
| Yield (k : K).

Arguments Return {R K} r.
Arguments Yield {R K} k.

(** The copy loop of [pipe_read]; [n] counts the bytes still wanted. *)
Fixpoint drain (n : nat) (p : pipe) (out : list Z) : pipe * list Z :=
  match n with
  | O => (p, out)
  | S n' =>
      if tail p =? head p then (p, out) else
      let b := zget (buf p) (tail p) in
      drain n' (set_tail p ((tail p + 1) mod PIPE_BUF_SZ)) (out ++ [b])
  end.

(** [pipe_read] from the head of its wait loop: the pipe itself is not looked
    up again after a yield. *)
Definition read_wait (n : Z) (p : pipe) : pipe * outcome (list Z) unit :=
  if (head p =? tail p) && (0 <? write_refs p) then (p, Yield tt) else
  let '(p, out) := drain (Z.to_nat n) p [] in (p, Return out).

(** [Return None] is the -1 of a bad index; [Return (Some out)] are the bytes copied. *)
Definition pipe_read (idx n : Z) (g : pipes) : pipes * outcome (option (list Z)) unit :=
  if negb (valid g idx) then (g, Return None) else
  match read_wait n (zget g idx) with
  | (p, Return out) => (zset g idx p, Return (Some out))
  | (p, Yield _) => (zset g idx p, Yield tt)
  end.

(** The loop of [pipe_write]; [rest] are the bytes not yet copied. *)
Fixpoint write_loop (rest : list Z) (copied : Z) (p : pipe)
    : pipe * outcome Z (list Z * Z) :=
  match rest with
  | [] => (p, Return copied)
  | b :: rest' =>
      if read_refs p =? 0 then (p, Return (if 0 <? copied then copied else -1)) else
      let next := (head p + 1) mod PIPE_BUF_SZ in
      if next =? tail p then (p, Yield (rest, copied)) else
      write_loop rest' (copied + 1) (set_head (set_byte p (head p) b) next)
  end.

Definition pipe_write (idx : Z) (bytes : list Z) (g : pipes) : pipes * outcome Z (list Z * Z) :=
  if negb (valid g idx) then (g, Return (-1)) else
  let '(p, r) := write_loop bytes 0 (zget g idx) in (zset g idx p, r).

(** ** Single memory accesses *)

(** Where the writer is in [pipe_write]; [w_free] is between two calls. *)
Inductive wpc :=
| WFree
| WRefs (rest : list Z) (copied : Z)
| WSpace (rest : list Z) (copied : Z)
| WStore (b : Z) (rest : list Z) (copied next : Z)
| WPublish (b : Z) (rest : list Z) (copied next : Z)
| WRet (r : Z)
| WClosed.

(** Where the reader is in [pipe_read]. *)
Inductive rpc :=
| RFree
| RWait (n : Z)
| REof (n : Z)
| RTest (n : nat) (out : list Z)
| RLoad (n : nat) (out : list Z)
| RAdvance (n : nat) (out : list Z)
| RRet (out : list Z).

(** One access of the writer to the shared pipe. *)
Definition wstep (p : pipe) (w : wpc) : pipe * wpc :=
  match w with
  | WRefs [] copied => (p, WRet copied)
  | WRefs (b :: rest) copied =>
      if read_refs p =? 0 then (p, WRet (if 0 <? copied then copied else -1))
      else (p, WSpace (b :: rest) copied)
  | WSpace [] copied => (p, WRet copied)
  | WSpace (b :: rest) copied =>
      let next := (head p + 1) mod PIPE_BUF_SZ in
      if next =? tail p then (p, WRefs (b :: rest) copied)
      else (p, WStore b rest copied next)
  | WStore b rest copied next => (set_byte p (head p) b, WPublish b rest copied next)
  | WPublish b rest copied next => (set_head p next, WRefs rest (copied + 1))
  | WFree | WRet _ | WClosed => (p, w)
  end.

(** One access of the reader. *)
Definition rstep (p : pipe) (r : rpc) : pipe * rpc :=
  match r with
  | RWait n => if head p =? tail p then (p, REof n) else (p, RTest (Z.to_nat n) [])
  | REof n => if 0 <? write_refs p then (p, RWait n) else (p, RTest (Z.to_nat n) [])
  | RTest O out => (p, RRet out)
  | RTest (S n) out => if tail p =? head p then (p, RRet out) else (p, RLoad n out)
  | RLoad n out => (p, RAdvance n (out ++ [zget (buf p) (tail p)]))
  | RAdvance n out => (set_tail p ((tail p + 1) mod PIPE_BUF_SZ), RTest n out)
  | RFree | RRet _ => (p, r)
  end.

(** Two processors: the writer issues calls and finally closes the write end,
    the reader issues calls; each entry of a schedule is one access. *)
Record world := World {
  wp : pipe;
  wr : wpc;
  rd : rpc;
  offered : list Z;   (** bytes passed to completed and running pipe_write calls *)
  taken : list Z;     (** bytes copied out by completed and running pipe_read calls *)
}.

Inductive action :=
| Write (bytes : list Z)   (** the writer calls pipe_write *)
| CloseW                   (** the writer calls pipe_close_write *)
| StepW
| Read (n : Z)             (** the reader calls pipe_read *)
| StepR.

Definition act (a : action) (s : world) : world :=
  match a with
  | Write bytes =>
      match wr s with
      | WFree => World (wp s) (WRefs bytes 0) (rd s) (offered s ++ bytes) (taken s)
      | WRet _ => World (wp s) (WRefs bytes 0) (rd s) (offered s ++ bytes) (taken s)
      | _ => s
      end
  | CloseW =>
      match wr s with
      | WFree | WRet _ =>
          World (try_free (set_write_refs (wp s) (write_refs (wp s) - 1))) WClosed (rd s)
            (offered s) (taken s)
      | _ => s
      end
  | StepW =>
      let '(p, w) := wstep (wp s) (wr s) in World p w (rd s) (offered s) (taken s)
  | Read n =>
      match rd s with
      | RFree | RRet _ => World (wp s) (wr s) (RWait n) (offered s) (taken s)
      | _ => s
      end
  | StepR =>
      let '(p, r) := rstep (wp s) (rd s) in
      let got := match rd s with RLoad _ _ => [zget (buf (wp s)) (tail (wp s))] | _ => [] end in
      World p (wr s) r (offered s) (taken s ++ got)
  end.

Definition acts (l : list action) (s : world) : world := foldl (fun s a => act a s) s l.

(** The world just after [pipe_new], with one end given to each processor. *)
Definition world_new : world :=
  World (set_write_refs (set_read_refs (set_in_use pipe_zero true) 1) 1) WFree RFree [] [].

(** ** The ring of one pipe *)

Definition pipe_ok (p : pipe) : Prop := ring_ok PIPE_BUF_SZ (buf p) (head p) (tail p).

(** The bytes queued in a pipe, oldest first. *)
Definition queued (p : pipe) : list Z := contents PIPE_BUF_SZ (buf p) (head p) (tail p).

Lemma pipe_ok_zero : pipe_ok pipe_zero.
Proof. split; unfold PIPE_BUF_SZ; cbn [buf head tail pipe_zero]; [lia | | lia | lia]. by rewrite zlen_zrep. Qed.

Lemma pipe_push p b :
  pipe_ok p -> (head p + 1) mod PIPE_BUF_SZ <> tail p ->
  let p' := set_head (set_byte p (head p) b) ((head p + 1) mod PIPE_BUF_SZ) in
  pipe_ok p' /\ queued p' = queued p ++ [b].
Proof.
  intros O NF p'. split; [by apply (ring_ok_push PIPE_BUF_SZ) |].
  by apply (contents_push PIPE_BUF_SZ).
Qed.

Lemma pipe_pop p :
  pipe_ok p -> tail p <> head p ->
  let p' := set_tail p ((tail p + 1) mod PIPE_BUF_SZ) in
  pipe_ok p' /\ queued p = zget (buf p) (tail p) :: queued p'.
Proof.
  intros O NE p'. split; [by apply (ring_ok_pop PIPE_BUF_SZ) |].
  apply (contents_pop PIPE_BUF_SZ (buf p) (head p) (tail p) O). intros Eq. by rewrite Eq in NE.
Qed.

Lemma queued_nil p : pipe_ok p -> (queued p = [] <-> head p = tail p).
Proof. apply ring_empty. Qed.

Lemma queued_full p :
  pipe_ok p -> ((head p + 1) mod PIPE_BUF_SZ = tail p <-> zlen (queued p) = PIPE_BUF_SZ - 1).
Proof.
  intros O. rewrite (ring_full PIPE_BUF_SZ (buf p) (head p) (tail p) O).
  pose proof (ring_len_bounds _ _ _ _ O). unfold zlen, queued. rewrite length_contents. lia.
Qed.

Lemma queued_bound p : pipe_ok p -> zlen (queued p) < PIPE_BUF_SZ.
Proof.
  intros O. pose proof (ring_len_bounds _ _ _ _ O). unfold zlen, queued.
  rewrite length_contents. lia.
Qed.

(** The copy loop of [pipe_read] takes the oldest bytes, up to the count asked. *)
Lemma drain_spec n p out p' out' :
  pipe_ok p -> drain n p out = (p', out') ->
  pipe_ok p' /\ out' = out ++ take n (queued p) /\ queued p' = drop n (queued p) /\
  read_refs p' = read_refs p /\ write_refs p' = write_refs p /\ in_use p' = in_use p.
Proof.
  revert p out. induction n as [|n IH]; cbn [drain]; intros p out O E.
  - injection E as <- <-. by rewrite take_0, drop_0, app_nil_r.
  - destruct (tail p =? head p) eqn:Et; zb.
    + injection E as <- <-. rewrite (proj2 (queued_nil p O)) by done. by rewrite app_nil_r.
    + destruct (pipe_pop p O ltac:(done)) as (O' & Q).
      destruct (IH _ _ O' E) as (O2 & -> & Q2 & R). rewrite Q. cbn [take drop].
      rewrite <- app_assoc. by rewrite Q2.
Qed.

(** The loop of [pipe_write] appends a prefix of the bytes: all of them when
    it returns with the read end open, and it yields only when the ring is full. *)
Lemma write_loop_spec bytes copied p p' r :
  pipe_ok p -> write_loop bytes copied p = (p', r) ->
  pipe_ok p' /\ read_refs p' = read_refs p /\ write_refs p' = write_refs p /\
  in_use p' = in_use p /\
  (read_refs p = 0 -> p' = p) /\
  match r with
  | Return v =>
      queued p' = queued p ++ (if read_refs p =? 0 then [] else bytes) /\
      v = (if (read_refs p =? 0) && bool_decide (bytes <> []) then (if 0 <? copied then copied else -1)
           else copied + zlen bytes)
  | Yield (rest, c) =>
      exists k, rest = drop k bytes /\ rest <> [] /\ c = copied + Z.of_nat k /\
        queued p' = queued p ++ take k bytes /\ zlen (queued p') = PIPE_BUF_SZ - 1
  end.
Proof.
  revert copied p. induction bytes as [|b rest IH]; cbn [write_loop]; intros copied p O E.
  - injection E as <- <-. rewrite bool_decide_eq_false_2 by (intros N; by apply N).
    rewrite andb_false_r. split_and!; try done; [| unfold zlen; cbn [length]; lia].
    destruct (read_refs p =? 0); by rewrite app_nil_r.
  - destruct (read_refs p =? 0) eqn:Er; zb.
    { injection E as <- <-. rewrite Er. split_and!; try done. cbn. by rewrite app_nil_r. }
    destruct (_ =? tail p) eqn:Ef; zb.
    { injection E as <- <-. split_and!; try done. exists 0%nat.
      rewrite take_0, drop_0, app_nil_r. split_and!; [done | done | lia | done |]. by apply queued_full. }
    destruct (pipe_push p b O ltac:(done)) as (O' & Q).
    destruct (IH _ _ O' E) as (O2 & R1 & R2 & R3 & _ & S). cbn in R1, R2, R3, S.
    split_and!; try done. rewrite Q in S. destruct r as [v | [rest' c]].
    + destruct S as (Q2 & ->). rewrite (proj2 (Z.eqb_neq _ _)) in * by done.
      rewrite Q2, <- app_assoc. split; [done |]. cbn. rewrite zlen_cons. lia.
    + destruct S as (k & -> & NE & -> & Q2 & L). exists (S k). cbn [drop take].
      split_and!; [done | done | lia | | done]. by rewrite Q2, <- app_assoc.
Qed.

(** Running one side alone, access by access, is the call. *)
Lemma wsteps_write_loop bytes copied p :
  exists k, Nat.iter k (fun '(p, w) => wstep p w) (p, WRefs bytes copied) =
    let '(p', r) := write_loop bytes copied p in
    (p', match r with Return v => WRet v | Yield (rest, c) => WRefs rest c end).
Proof.
  revert copied p. induction bytes as [|b rest IH]; cbn [write_loop]; intros copied p.
  - by exists 1%nat.
  - destruct (read_refs p =? 0) eqn:Er; [exists 1%nat; cbn; by rewrite Er |].
    destruct (_ =? tail p) eqn:Ef.
    + exists 2%nat. cbn -[Z.modulo PIPE_BUF_SZ]. rewrite Er. cbn -[Z.modulo PIPE_BUF_SZ]. by rewrite Ef.
    + destruct (IH (copied + 1) (set_head (set_byte p (head p) b) ((head p + 1) mod PIPE_BUF_SZ)))
        as [k Ek]. exists (k + 4)%nat. rewrite Nat.iter_add, <- Ek. f_equal.
      cbn -[Z.modulo PIPE_BUF_SZ]. rewrite Er. cbn -[Z.modulo PIPE_BUF_SZ]. rewrite Ef. done.
Qed.

Lemma rsteps_drain n p out :
  exists k, Nat.iter k (fun '(p, r) => rstep p r) (p, RTest n out) =
    let '(p', out') := drain n p out in (p', RRet out').
Proof.
  revert p out. induction n as [|n IH]; cbn [drain]; intros p out; [by exists 1%nat |].
  destruct (tail p =? head p) eqn:Et; [exists 1%nat; cbn; by rewrite Et |].
  destruct (IH (set_tail p ((tail p + 1) mod PIPE_BUF_SZ)) (out ++ [zget (buf p) (tail p)]))
    as [k Ek]. exists (k + 3)%nat. rewrite Nat.iter_add, <- Ek. f_equal.
  cbn -[Z.modulo PIPE_BUF_SZ]. by rewrite Et.
Qed.

Lemma rsteps_read_wait n p :
  exists k, (0 < k)%nat /\ Nat.iter k (fun '(p, r) => rstep p r) (p, RWait n) =
    let '(p', r) := read_wait n p in
    (p', match r with Return out => RRet out | Yield _ => RWait n end).
Proof.
  unfold read_wait. destruct (head p =? tail p) eqn:Eh; cbn [andb].
  - destruct (0 <? write_refs p) eqn:Ew.
    + exists 2%nat. split; [lia |]. cbn. rewrite Eh. cbn. by rewrite Ew.
    + destruct (rsteps_drain (Z.to_nat n) p []) as [k Ek]. exists (k + 2)%nat. split; [lia |].
      rewrite Nat.iter_add. cbn [Nat.iter nat_rect]. cbn [rstep]. rewrite Eh. cbn [rstep]. rewrite Ew, Ek.
      by destruct (drain _ _ _).
  - destruct (rsteps_drain (Z.to_nat n) p []) as [k Ek]. exists (k + 1)%nat. split; [lia |].
    rewrite Nat.iter_add. cbn [Nat.iter nat_rect]. cbn [rstep]. rewrite Eh, Ek.
    by destruct (drain _ _ _).
Qed.

(** ** Descriptors

    [fork] and [dup2] take another reference to an end, [close] drops one: the
    specification of the table is the list of open descriptors. *)

Inductive pend := REnd | WEnd.

#[global] Instance pend_eq_dec : EqDecision pend.
Proof. solve_decision. Defined.

Record sys := Sys { table : pipes; fds : list (pend * Z) }.

Inductive fdop :=
| ONew
| ODup (k : nat)
| OClose (k : nat)
| ORead (k : nat) (n : Z)
| OWrite (k : nat) (bytes : list Z).

Definition fdstep (s : sys) (o : fdop) : sys :=
  match o with
  | ONew =>
      let '(i, g) := pipe_new (table s) in
      if i =? -1 then Sys g (fds s) else Sys g ((REnd, i) :: (WEnd, i) :: fds s)
  | ODup k =>
      match fds s !! k with
      | Some (REnd, i) => Sys (pipe_inc_read i (table s)) ((REnd, i) :: fds s)
      | Some (WEnd, i) => Sys (pipe_inc_write i (table s)) ((WEnd, i) :: fds s)
      | None => s
      end
  | OClose k =>
      match fds s !! k with
      | Some (REnd, i) => Sys (pipe_close_read i (table s)) (delete k (fds s))
      | Some (WEnd, i) => Sys (pipe_close_write i (table s)) (delete k (fds s))
      | None => s
      end
  | ORead k n =>
      match fds s !! k with
      | Some (REnd, i) => Sys (fst (pipe_read i n (table s))) (fds s)
      | _ => s
      end
  | OWrite k bytes =>
      match fds s !! k with
      | Some (WEnd, i) => Sys (fst (pipe_write i bytes (table s))) (fds s)
      | _ => s
      end
  end.

(** [g_pipes] is zero at boot; [kmain] calls [pipe_init] once. *)
Definition sys_init : sys := Sys (pipe_init (zrep PIPE_MAX pipe_zero)) [].

Definition fdrun (l : list fdop) : sys := foldl fdstep sys_init l.

(** Number of open descriptors on one end of pipe [i]. *)
Definition refs (e : pend) (i : Z) (l : list (pend * Z)) : Z :=
  zlen (filter (fun x => x = (e, i)) l).

Lemma refs_cons e i x l : refs e i (x :: l) = refs e i l + (if decide (x = (e, i)) then 1 else 0).
Proof. unfold refs, zlen. rewrite filter_cons. destruct (decide _); cbn [length]; lia. Qed.

Lemma refs_delete e i k x l :
  l !! k = Some x -> refs e i (delete k l) = refs e i l - (if decide (x = (e, i)) then 1 else 0).
Proof.
  intros E. pose proof (delete_Permutation l k x E) as P.
  apply (filter_Permutation (fun x => x = (e, i))), Permutation_length in P.
  assert (refs e i l = refs e i (x :: delete k l)) as -> by (unfold refs, zlen; lia).
  rewrite refs_cons. lia.
Qed.

Lemma refs_nonneg e i l : 0 <= refs e i l.
Proof. apply zlen_nonneg. Qed.

Lemma refs_pos e i l k : l !! k = Some (e, i) -> 0 < refs e i l.
Proof.
  intros E. pose proof (refs_delete e i k _ _ E). pose proof (refs_nonneg e i (delete k l)).
  rewrite decide_True in H by done. lia.
Qed.

Record slot_ok (p : pipe) (r w : Z) : Prop := SlotOk {
  so_ring : pipe_ok p;
  so_use : in_use p = bool_decide (0 < r + w);
  so_refs : in_use p = true -> read_refs p = r /\ write_refs p = w
}.

Record table_ok (s : sys) : Prop := TableOk {
  to_len : zlen (table s) = PIPE_MAX;
  to_slot : forall i, 0 <= i < PIPE_MAX ->
    slot_ok (zget (table s) i) (refs REnd i (fds s)) (refs WEnd i (fds s));
  to_fds : Forall (fun x => 0 <= x.2 < PIPE_MAX) (fds s)
}.

Lemma fd_range s k e i : table_ok s -> fds s !! k = Some (e, i) -> 0 <= i < PIPE_MAX.
Proof. intros O E. exact (proj1 (Forall_lookup _ _) (to_fds _ O) _ _ E). Qed.

(** A held descriptor's pipe is in use, with at least its own reference. *)
Lemma fd_valid s k e i :
  table_ok s -> fds s !! k = Some (e, i) ->
  valid (table s) i = true /\
  read_refs (zget (table s) i) = refs REnd i (fds s) /\
  write_refs (zget (table s) i) = refs WEnd i (fds s).
Proof.
  intros O E. pose proof (fd_range _ _ _ _ O E) as R. destruct (to_slot _ O i R) as [_ U V].
  pose proof (refs_nonneg REnd i (fds s)). pose proof (refs_nonneg WEnd i (fds s)).
  assert (0 < refs REnd i (fds s) + refs WEnd i (fds s))
    by (pose proof (refs_pos _ _ _ _ E); destruct e; lia).
  rewrite bool_decide_eq_true_2 in U by done. unfold valid.
  rewrite (proj2 (Z.leb_le 0 i)), (proj2 (Z.ltb_lt i PIPE_MAX)), U by lia. auto.
Qed.

(** Updating one slot and the descriptors of that slot only. *)
Lemma table_ok_update s i p l :
  table_ok s -> 0 <= i < PIPE_MAX -> slot_ok p (refs REnd i l) (refs WEnd i l) ->
  (forall e j, j <> i -> refs e j l = refs e j (fds s)) ->
  Forall (fun x => 0 <= x.2 < PIPE_MAX) l ->
  table_ok (Sys (zset (table s) i p) l).
Proof.
  intros O R S F L. split; cbn [table fds].
  - rewrite zlen_zset. apply O.
  - intros j Rj. destruct (decide (j = i)) as [-> | Ne].
    + rewrite zget_zset_eq; [done |]. pose proof (to_len _ O). lia.
    + rewrite zget_zset_ne, !F by lia. by apply O.
  - done.
Qed.

Lemma table_ok_init : table_ok sys_init.
Proof.
  split; [by vm_compute | | by constructor]. intros i R. cbn [fds sys_init].
  assert (E : zget (table sys_init) i = pipe_zero).
  { change (table sys_init) with (pipe_init (zrep PIPE_MAX pipe_zero)). unfold pipe_init.
    assert (I : zlen (zrep PIPE_MAX pipe_zero) = PIPE_MAX /\
                forall i, 0 <= i < PIPE_MAX -> zget (zrep PIPE_MAX pipe_zero) i = pipe_zero).
    { split; [by apply zlen_zrep | intros; by apply zget_zrep]. }
    apply (zfor_ind (fun _ g => zlen g = PIPE_MAX /\
      forall i, 0 <= i < PIPE_MAX -> zget g i = pipe_zero) (Z.to_nat PIPE_MAX) 0
      (fun i g => zset g i (set_in_use (zget g i) false))) in I.
    - by apply I.
    - intros k g Rk (L & G). rewrite Z2Nat.id in Rk by done. split; [by rewrite zlen_zset |].
      intros j Rj. destruct (decide (j = k)) as [-> | Ne].
      + rewrite zget_zset_eq, G by lia. done.
      + rewrite zget_zset_ne by lia. by apply G. }
  rewrite E. split; [apply pipe_ok_zero | done | done].
Qed.

Lemma pipe_new_spec g :
  zlen g = PIPE_MAX ->
  match pipe_new g with
  | (i, g') =>
      (i = -1 /\ g' = g /\ forall j, 0 <= j < PIPE_MAX -> in_use (zget g j) = true) \/
      (0 <= i < PIPE_MAX /\ in_use (zget g i) = false /\
       (forall j, 0 <= j < i -> in_use (zget g j) = true) /\
       g' = zset g i (Pipe true 1 1 0 0 (zrep PIPE_BUF_SZ 0)))
  end.
Proof.
  intros L. unfold pipe_new. destruct (zfind _ _ _) as [i|] eqn:E.
  - destruct (zfind_Some _ _ _ _ E) as (R & F & M). right. rewrite negb_true_iff in F.
    rewrite Z2Nat.id in R by done. split_and!; [lia | lia | done | | done].
    intros j Rj. specialize (M j ltac:(lia)). by rewrite negb_false_iff in M.
  - left. split_and!; [done | done |]. intros j Rj. rewrite zfind_None in E.
    specialize (E j). rewrite negb_false_iff in E. apply E. unfold PIPE_MAX in *. lia.
Qed.

Lemma fdstep_ok_new s : table_ok s -> table_ok (fdstep s ONew).
Proof.
  intros O. cbn [fdstep]. pose proof (pipe_new_spec _ (to_len _ O)) as S.
  destruct (pipe_new (table s)) as [i g].
  destruct S as [(-> & -> & _) | (R & U & _ & ->)]; [by destruct s |].
  rewrite (proj2 (Z.eqb_neq i (-1))) by lia.
  destruct (to_slot _ O i R) as [_ U' _]. rewrite U in U'. symmetry in U'.
  apply bool_decide_eq_false in U'.
  pose proof (refs_nonneg REnd i (fds s)). pose proof (refs_nonneg WEnd i (fds s)).
  apply table_ok_update; [done | done | | | constructor; [exact R | constructor; [exact R | apply O]]].
  - rewrite !refs_cons. repeat case_decide; try congruence.
    split; [exact pipe_ok_zero | rewrite bool_decide_eq_true_2; [done | lia] | cbn; lia].
  - intros e j Ne. rewrite !refs_cons, !decide_False by congruence. lia.
Qed.

Lemma fdstep_ok_dup s k : table_ok s -> table_ok (fdstep s (ODup k)).
Proof.
  intros O. cbn [fdstep]. destruct (fds s !! k) as [[e i]|] eqn:E; [| done].
  pose proof (fd_range _ _ _ _ O E) as R. destruct (fd_valid _ _ _ _ O E) as (V & Er & Ew).
  destruct (to_slot _ O i R) as [Q U _].
  pose proof (refs_nonneg REnd i (fds s)). pose proof (refs_nonneg WEnd i (fds s)).
  pose proof (refs_pos _ _ _ _ E).
  assert (Ui : in_use (zget (table s) i) = true)
    by (unfold valid in V; apply andb_true_iff in V; tauto).
  assert (L : Forall (fun x => 0 <= x.2 < PIPE_MAX) ((e, i) :: fds s))
    by (constructor; [exact R | apply O]).
  assert (F : forall e' j, j <> i -> refs e' j ((e, i) :: fds s) = refs e' j (fds s))
    by (intros; rewrite refs_cons, decide_False by congruence; lia).
  destruct e; unfold pipe_inc_read, pipe_inc_write; rewrite V;
    (apply table_ok_update; [done | done | | done | done]); rewrite !refs_cons;
    repeat case_decide; try congruence;
    (split; [exact Q | cbn; rewrite Ui, bool_decide_eq_true_2; [done | lia] | cbn; lia]).
Qed.

Lemma slot_ok_close p r w :
  pipe_ok p -> read_refs p = r -> write_refs p = w -> 0 <= r -> 0 <= w -> in_use p = true ->
  slot_ok (try_free p) r w.
Proof.
  intros Q <- <- R W U. unfold try_free. destruct ((_ =? 0) && _) eqn:E.
  - apply andb_true_iff in E as (E1 & E2). zb. split; [exact Q | | done].
    cbn. rewrite bool_decide_eq_false_2; [done | lia].
  - split; [exact Q | | done]. rewrite U, bool_decide_eq_true_2; [done |].
    apply andb_false_iff in E as [E | E]; zb; lia.
Qed.

Lemma fdstep_ok_close s k : table_ok s -> table_ok (fdstep s (OClose k)).
Proof.
  intros O. cbn [fdstep]. destruct (fds s !! k) as [[e i]|] eqn:E; [| done].
  pose proof (fd_range _ _ _ _ O E) as R. destruct (fd_valid _ _ _ _ O E) as (V & Er & Ew).
  destruct (to_slot _ O i R) as [Q U _].
  pose proof (refs_nonneg REnd i (fds s)). pose proof (refs_nonneg WEnd i (fds s)).
  pose proof (refs_pos _ _ _ _ E).
  assert (Ui : in_use (zget (table s) i) = true)
    by (unfold valid in V; apply andb_true_iff in V; tauto).
  assert (L : Forall (fun x => 0 <= x.2 < PIPE_MAX) (delete k (fds s)))
    by (apply Forall_delete, O).
  assert (F : forall e' j, j <> i -> refs e' j (delete k (fds s)) = refs e' j (fds s))
    by (intros; rewrite (refs_delete _ _ _ _ _ E), decide_False by congruence; lia).
  destruct e; unfold pipe_close_read, pipe_close_write; rewrite V; cbn [negb];
    (rewrite (proj2 (Z.ltb_lt 0 _)) by lia);
    (apply table_ok_update; [done | done | | done | done]);
    rewrite !(refs_delete _ _ _ _ _ E);
    repeat case_decide; try congruence;
    (apply slot_ok_close; [exact Q | cbn; lia | cbn; lia | lia | lia | exact Ui]).
Qed.

Lemma fdstep_ok_io s k i p :
  table_ok s -> fds s !! k = Some i -> pipe_ok p ->
  read_refs p = read_refs (zget (table s) i.2) -> write_refs p = write_refs (zget (table s) i.2) ->
  in_use p = in_use (zget (table s) i.2) -> table_ok (Sys (zset (table s) i.2 p) (fds s)).
Proof.
  intros O E Q Rr Rw U. destruct i as [e i]. cbn [snd] in *.
  pose proof (fd_range _ _ _ _ O E) as R. destruct (to_slot _ O i R) as [_ U' V].
  apply table_ok_update; [done | done | | done | apply O].
  split; [done | congruence |]. rewrite U, Rr, Rw. done.
Qed.

Lemma fdstep_ok s o : table_ok s -> table_ok (fdstep s o).
Proof.
  intros O. destruct o as [| k | k | k n | k bytes];
    [by apply fdstep_ok_new | by apply fdstep_ok_dup | by apply fdstep_ok_close | |]; cbn [fdstep];
    destruct (fds s !! k) as [[[] i]|] eqn:E; try done;
    destruct (fd_valid _ _ _ _ O E) as (V & _);
    pose proof (so_ring _ _ _ (to_slot _ O i (fd_range _ _ _ _ O E))) as Q.
  - unfold pipe_read. rewrite V. cbn [negb].
    unfold read_wait. destruct (_ && _).
    + cbn [fst]. by apply (fdstep_ok_io s k (REnd, i)).
    + destruct (drain _ _ _) as [p out] eqn:D. destruct (drain_spec _ _ _ _ _ Q D) as (Q' & _ & _ & S).
      cbn [fst]. apply (fdstep_ok_io s k (REnd, i)); tauto.
  - unfold pipe_write. rewrite V. cbn [negb].
    destruct (write_loop _ _ _) as [p r] eqn:D. destruct (write_loop_spec _ _ _ _ _ Q D) as (Q' & S).
    cbn [fst]. apply (fdstep_ok_io s k (WEnd, i)); tauto.
Qed.

Lemma fdrun_ok l : table_ok (fdrun l).
Proof.
  unfold fdrun. assert (O : table_ok sys_init) by apply table_ok_init. revert O.
  generalize sys_init. induction l as [|o l IH]; intros s O; cbn [foldl]; [done |].
  by apply IH, fdstep_ok.
Qed.

(** A pipe is free exactly when no descriptor refers to it. *)
Lemma free_unreferenced s i e :
  table_ok s -> 0 <= i < PIPE_MAX -> in_use (zget (table s) i) = false -> refs e i (fds s) = 0.
Proof.
  intros O R U. destruct (to_slot _ O i R) as [_ U' _]. rewrite U in U'. symmetry in U'.
  apply bool_decide_eq_false in U'. pose proof (refs_nonneg REnd i (fds s)).
  pose proof (refs_nonneg WEnd i (fds s)). destruct e; lia.
Qed.

(** ** A reader and a writer on two processors *)

(** The bytes of the running [pipe_write] that are not yet in the ring. *)
Definition pending (w : wpc) : list Z :=
  match w with
  | WRefs rest _ | WSpace rest _ => rest
  | WStore b rest _ _ | WPublish b rest _ _ => b :: rest
  | WFree | WRet _ | WClosed => []
  end.

(** The ring without the byte the reader has copied but not yet released. *)
Definition unread (s : world) : list Z :=
  match rd s with RAdvance _ _ => drop 1 (queued (wp s)) | _ => queued (wp s) end.

Definition writer_ok (p : pipe) (w : wpc) : Prop :=
  match w with
  | WStore b _ _ next => next = (head p + 1) mod PIPE_BUF_SZ /\ next <> tail p
  | WPublish b _ _ next =>
      next = (head p + 1) mod PIPE_BUF_SZ /\ next <> tail p /\ zget (buf p) (head p) = b
  | WClosed => write_refs p = 0
  | _ => True
  end.

(** The bytes the running [pipe_read] has put in the caller's buffer. *)
Definition reader_ok (p : pipe) (w : wpc) (r : rpc) (taken : list Z) : Prop :=
  match r with
  | RTest n out =>
      (exists pre, taken = pre ++ out) /\
      (out = [] -> (0 < n)%nat -> head p <> tail p \/ w = WClosed)
  | RLoad n out => (exists pre, taken = pre ++ out) /\ head p <> tail p
  | RAdvance n out => (exists pre, taken = pre ++ out) /\ head p <> tail p /\ out <> []
  | RRet out => exists pre, taken = pre ++ out
  | RFree | RWait _ | REof _ => True
  end.

Record world_ok (s : world) : Prop := WorldOk {
  wo_ring : pipe_ok (wp s);
  wo_refs : read_refs (wp s) = 1;
  wo_wrefs : write_refs (wp s) = match wr s with WClosed => 0 | _ => 1 end;
  wo_writer : writer_ok (wp s) (wr s);
  wo_reader : reader_ok (wp s) (wr s) (rd s) (taken s);
  wo_fifo : offered s = taken s ++ unread s ++ pending (wr s)
}.

Lemma world_ok_new : world_ok world_new.
Proof. by split. Qed.

(** The next slot stays free while the reader only removes bytes. *)
Lemma space_stable p :
  pipe_ok p -> tail p <> head p ->
  (head p + 1) mod PIPE_BUF_SZ <> (tail p + 1) mod PIPE_BUF_SZ.
Proof.
  intros O NE Eq. pose proof (pipe_pop p O NE) as (O' & Q).
  pose proof (proj1 (queued_full _ O')) as F. cbn [head tail set_tail] in F. specialize (F Eq).
  pose proof (queued_bound p O) as B. rewrite Q, zlen_cons in B. unfold PIPE_BUF_SZ in *. lia.
Qed.

Lemma head_moves p :
  pipe_ok p -> (head p + 1) mod PIPE_BUF_SZ <> tail p ->
  queued (set_head p ((head p + 1) mod PIPE_BUF_SZ)) = queued p ++ [zget (buf p) (head p)].
Proof. apply (contents_publish PIPE_BUF_SZ). Qed.

Lemma queued_store p b :
  pipe_ok p -> queued (set_byte p (head p) b) = queued p.
Proof. apply (contents_store PIPE_BUF_SZ). Qed.

Lemma tail_queued_app p l : pipe_ok p -> head p <> tail p -> drop 1 (queued p ++ l) = drop 1 (queued p) ++ l.
Proof.
  intros O NE. destruct (queued p) eqn:E; [| done]. by apply (queued_nil p O) in E.
Qed.

(** The reader's view only improves when the writer publishes. *)
Lemma reader_ok_mono p p' w w' r t :
  reader_ok p w r t -> w <> WClosed -> (head p <> tail p -> head p' <> tail p') ->
  reader_ok p' w' r t.
Proof.
  intros Ro Nw M. destruct r; cbn in *; try done.
  - destruct Ro as [T Ro]. split; [done |]. intros Z1 Z2. left. destruct (Ro Z1 Z2); [by apply M | done].
  - destruct Ro as [T Ro]. split; [done | by apply M].
  - destruct Ro as (T & Ro & Q). split_and!; [done | by apply M | done].
Qed.

Lemma act_ok_stepw s : world_ok s -> world_ok (act StepW s).
Proof.
  intros [O R W Wo Ro F]. destruct s as [p w r off tak]. cbn [wp wr rd offered taken] in *.
  cbn [act wp wr rd offered taken].
  destruct w as [| rest c | rest c | b rest c nx | b rest c nx | v |]; cbn [wstep];
    [by split | | | | | by split | by split].
  - destruct rest as [|b rest]; [split; try done; by apply (reader_ok_mono p p (WRefs [] c)) |].
    rewrite R. change (1 =? 0) with false. cbv iota.
    split; try done; by apply (reader_ok_mono p p (WRefs (b :: rest) c)).
  - destruct rest as [|b rest]; [split; try done; by apply (reader_ok_mono p p (WSpace [] c)) |].
    destruct (_ =? tail p) eqn:E; zb;
      split; try done; by apply (reader_ok_mono p p (WSpace (b :: rest) c)).
  - destruct Wo as (-> & NE). pose proof (queued_store p b O) as Q.
    split; cbn [wp wr rd offered taken]; try done; [by apply ring_ok_store | | |].
    + cbn. split_and!; [done | done |]. apply zget_zset_eq. destruct O. unfold PIPE_BUF_SZ in *. lia.
    + by eapply reader_ok_mono.
    + unfold unread in *. cbn [wp rd] in *. rewrite Q. exact F.
  - destruct Wo as (-> & NE & Eb). pose proof (head_moves p O NE) as Q.
    assert (O' : pipe_ok (set_head p ((head p + 1) mod PIPE_BUF_SZ))).
    { pose proof (ring_succ_bounds _ _ _ _ (head p) O (ring_head _ _ _ _ O)). by destruct O. }
    split; cbn [wp wr rd offered taken]; try done.
    + by eapply reader_ok_mono.
    + rewrite F. unfold unread. cbn [wp rd pending]. rewrite Q, Eb.
      destruct r; rewrite <- ?app_assoc; try done.
      rewrite tail_queued_app by (try done; apply Ro). by rewrite <- app_assoc.
Qed.

Lemma act_ok_stepr s : world_ok s -> world_ok (act StepR s).
Proof.
  intros [O R W Wo Ro F]. destruct s as [p w r off tak]. cbn [wp wr rd offered taken] in *.
  cbn [act wp wr rd offered taken]. unfold unread in F. cbn [wp rd] in F.
  destruct r as [| n | n | [|n] out | n out | n out | out]; cbn [rstep]; rewrite ?app_nil_r;
    [by split | | | | | | | by split].
  - destruct (head p =? tail p) eqn:E; zb; [by split |].
    split; try done. split; [exists tak; by rewrite app_nil_r | by left].
  - destruct (0 <? write_refs p) eqn:E; zb; [by split |].
    split; try done. split; [exists tak; by rewrite app_nil_r |]. right.
    destruct w; try done; lia.
  - split; try done. apply Ro.
  - destruct (tail p =? head p) eqn:E; zb; [split; try done; apply Ro |].
    split; try done. split; [apply Ro | by apply not_eq_sym].
  - destruct Ro as ((pre & ->) & NE). split; cbn [wp wr rd offered taken]; try done.
    + split_and!; [| done | by destruct out]. exists pre. by rewrite <- app_assoc.
    + destruct (pipe_pop p O ltac:(by apply not_eq_sym)) as (_ & Q). unfold unread. cbn [wp rd].
      rewrite F, Q. cbn [drop]. rewrite <- !app_assoc. done.
  - destruct Ro as (T & NE & NN). destruct (pipe_pop p O ltac:(by apply not_eq_sym)) as (O' & Q).
    split; cbn [wp wr rd offered taken]; try done.
    + assert (NT : tail p <> head p) by (by apply not_eq_sym). pose proof (space_stable p O NT).
      destruct w; try done; destruct Wo as (-> & Wo); split_and!; try done; apply Wo.
    + unfold unread. cbn [wp rd]. rewrite F, Q. done.
Qed.

Lemma act_ok a s : world_ok s -> world_ok (act a s).
Proof.
  destruct a as [bytes | | | n |]; [| | apply act_ok_stepw | | apply act_ok_stepr];
    intros [O R W Wo Ro F]; destruct s as [p w r off tak];
    cbn [wp wr rd offered taken] in *; cbn [act wp wr rd offered taken].
  - assert (G : w = WFree \/ (exists v, w = WRet v) -> world_ok (World p (WRefs bytes 0) r (off ++ bytes) tak)).
    { intros G. split; cbn [wp wr rd offered taken]; try done.
      - by destruct G as [-> | [v ->]].
      - apply (reader_ok_mono p p w); [done | by destruct G as [-> | [v ->]] | done].
      - rewrite F, <- !app_assoc. by destruct G as [-> | [v ->]]. }
    destruct w; try (split; done); apply G; eauto.
  - assert (G : w = WFree \/ (exists v, w = WRet v) ->
      world_ok (World (try_free (set_write_refs p (write_refs p - 1))) WClosed r off tak)).
    { intros G. assert (W1 : write_refs p = 1) by (by destruct G as [-> | [v ->]]).
      assert (E : try_free (set_write_refs p (write_refs p - 1)) = set_write_refs p 0).
      { unfold try_free. cbn [read_refs set_write_refs]. by rewrite R, W1. }
      rewrite E. split; cbn [wp wr rd offered taken]; try done.
      - apply (reader_ok_mono p _ w); [done | by destruct G as [-> | [v ->]] | done].
      - rewrite F. by destruct G as [-> | [v ->]]. }
    destruct w; try (split; done); apply G; eauto.
  - destruct r; by split.
Qed.

Lemma acts_ok l s : world_ok s -> world_ok (acts l s).
Proof.
  revert s. induction l as [|a l IH]; intros s O; [done |]. apply IH, act_ok, O.
Qed.

(** ** The contract of a pipe *)

(** C7. On two processors, for every interleaving of the single memory
    accesses of pipe_read and pipe_write: what the reader has copied out is a
    prefix of what the writer was given, the rest being in the ring or still in
    the writer's buffer, so no byte is lost, duplicated or reordered and the
    ring never overflows; and pipe_read reports end of file only when the
    writer has closed and every byte has been delivered. *)
Theorem spsc_fifo l n s :
  s = acts l world_new -> rd s = RTest (S n) [] ->
  offered s = taken s ++ unread s ++ pending (wr s) /\
  zlen (queued (wp s)) < PIPE_BUF_SZ /\
  (rd (act StepR s) = RRet [] -> wr s = WClosed /\ taken s = offered s).
Proof.
  intros -> Er. destruct (acts_ok l _ world_ok_new) as [O R W Wo Ro F]. revert O R W Wo Ro F Er.
  generalize (acts l world_new). intros s O R W Wo Ro F Er. split_and!; [done | by apply queued_bound |].
  cbn [act]. rewrite Er. cbn [rstep]. destruct (tail (wp s) =? head (wp s)) eqn:E; [| done]. zb.
  intros _. rewrite Er in Ro. destruct Ro as (_ & Ro). destruct (Ro eq_refl ltac:(lia)) as [|C]; [congruence |].
  split; [done |]. rewrite F, C. unfold unread. rewrite Er, (proj2 (queued_nil _ O)) by done.
  by rewrite app_nil_r.
Qed.

(** Two bytes are written and the end closed, then drained; the second read is at its test. *)
Definition demo_schedule : list action :=
  [Write [7; 9]] ++ replicate 5 StepW ++ [Read 5; StepR] ++ replicate 4 StepW ++ [CloseW] ++
  replicate 8 StepR ++ [Read 4; StepR; StepR].

Lemma spsc_fifo_witness :
  rd (acts demo_schedule world_new) = RTest 4 [] /\
  (rd (act StepR (acts demo_schedule world_new)) = RRet [] ->
   wr (acts demo_schedule world_new) = WClosed /\
   taken (acts demo_schedule world_new) = offered (acts demo_schedule world_new)).
Proof.
  split; [by vm_compute |]. apply (spsc_fifo demo_schedule 3); [reflexivity | by vm_compute].
Defined.

(** What [pipe_read] does to a pipe: the queue before, the result, the queue after. *)
Definition read_contract (n : Z) (p p' : pipe) (r : outcome (list Z) unit) : Prop :=
  match r with
  | Yield _ => p' = p /\ queued p = [] /\ 0 < write_refs p
  | Return out =>
      out = ztake n (queued p) /\ queued p' = zdrop n (queued p) /\
      (0 < n -> out = [] -> write_refs p <= 0)
  end.

Lemma read_wait_contract n p p' r :
  pipe_ok p -> read_wait n p = (p', r) -> read_contract n p p' r.
Proof.
  intros O E. unfold read_wait in E. pose proof (queued_nil p O) as QN.
  destruct ((head p =? tail p) && (0 <? write_refs p)) eqn:Ew.
  - injection E as <- <-. zb. split_and!; [done | by apply QN | lia].
  - destruct (drain _ _ _) as [q out] eqn:D. destruct (drain_spec _ _ _ _ _ O D) as (O' & -> & Q & _).
    injection E as <- <-. split_and!; [done | done |]. intros Rn Eo. cbn in Eo.
    destruct (queued p) as [|b l] eqn:Eq.
    + rewrite (proj2 (Z.eqb_eq _ _)) in Ew by (by apply QN). cbn in Ew. zb. lia.
    + destruct (Z.to_nat n) eqn:En; [lia | done].
Qed.

(** What [pipe_write] does: the result and the queue after. *)
Definition write_contract (bytes : list Z) (p p' : pipe) (r : outcome Z (list Z * Z)) : Prop :=
  match r with
  | Return v =>
      if (read_refs p =? 0) && bool_decide (bytes <> []) then v = -1 /\ p' = p
      else v = zlen bytes /\ queued p' = queued p ++ bytes
  | Yield (rest, c) =>
      read_refs p <> 0 /\ rest <> [] /\ zlen (queued p') = PIPE_BUF_SZ - 1 /\
      exists sent, bytes = sent ++ rest /\ c = zlen sent /\ queued p' = queued p ++ sent
  end.

Lemma write_loop_contract bytes p p' r :
  pipe_ok p -> write_loop bytes 0 p = (p', r) -> write_contract bytes p p' r.
Proof.
  intros O E. destruct (write_loop_spec _ _ _ _ _ O E) as (O' & _ & _ & _ & Z0 & S).
  destruct r as [v | [rest c]]; cbn [write_contract].
  - destruct S as (Q & ->). change (0 <? 0) with false. cbv iota.
    destruct (read_refs p =? 0) eqn:Er; cbn [andb] in *; zb; [| done].
    rewrite app_nil_r in Q. destruct bytes as [|b bytes]; [| by rewrite bool_decide_eq_true_2; auto].
    rewrite bool_decide_eq_false_2 by auto. by rewrite Q, app_nil_r.
  - destruct S as (k & -> & NE & -> & Q & L). split_and!; [| done | done |].
    + intros Er. destruct bytes as [|b bytes]; [by rewrite drop_nil in NE |].
      cbn [write_loop] in E. by rewrite Er in E.
    + exists (take k bytes). rewrite take_drop. split_and!; [done | | done].
      unfold zlen. rewrite length_take. assert (length bytes > k)%nat; [| lia].
      destruct (decide (length bytes <= k)%nat) as [Le |]; [| lia].
      by rewrite drop_ge in NE.
Qed.

Lemma valid_slot s idx :
  table_ok s -> valid (table s) idx = true ->
  0 <= idx < zlen (table s) /\ pipe_ok (zget (table s) idx) /\ 0 <= write_refs (zget (table s) idx).
Proof.
  intros O V. unfold valid in V. apply andb_true_iff in V as (V & U). zb.
  destruct (to_slot _ O idx ltac:(lia)) as [Q _ T]. destruct (T U) as (_ & ->).
  pose proof (to_len _ O). split_and!; [lia | lia | done | apply refs_nonneg].
Qed.

(** In every table reachable through descriptors, a call on a valid pipe
    touches that pipe only and keeps its contract: pipe_read returns and removes
    the oldest min(n, queued) bytes, and yields, with nothing changed, exactly
    when pipe_read_avail says 0; pipe_write appends all its bytes and returns
    their number, or -1 with nothing written when the reader is gone, or yields
    with the ring full and the rest in hand.  Running the single accesses of one
    side alone is the call. *)
Theorem pipe_calls l idx n bytes :
  valid (table (fdrun l)) idx = true ->
  exists p' rr q' rw, let g := table (fdrun l) in let p := zget g idx in
    read_wait n p = (p', rr) /\ read_contract n p p' rr /\
    pipe_read idx n g =
      (zset g idx p', match rr with Return out => Return (Some out) | Yield _ => Yield tt end) /\
    (pipe_read_avail idx g = 0 <-> rr = Yield tt) /\
    (exists k, (0 < k)%nat /\ Nat.iter k (fun '(p, r) => rstep p r) (p, RWait n) =
       (p', match rr with Return out => RRet out | Yield _ => RWait n end)) /\
    pipe_write idx bytes g = (zset g idx q', rw) /\ write_contract bytes p q' rw /\
    (exists k, Nat.iter k (fun '(p, w) => wstep p w) (p, WRefs bytes 0) =
       (q', match rw with Return v => WRet v | Yield (rest, c) => WRefs rest c end)).
Proof.
  intros V. set (s := fdrun l) in *. destruct (valid_slot s idx (fdrun_ok l) V) as (R & O & W).
  destruct (read_wait n (zget (table s) idx)) as [p' rr] eqn:Er.
  destruct (write_loop bytes 0 (zget (table s) idx)) as [q' rw] eqn:Ew.
  exists p', rr, q', rw. cbv zeta. split_and!.
  - exact Er.
  - by apply read_wait_contract.
  - unfold pipe_read. rewrite V, Er. by destruct rr as [|[]].
  - unfold pipe_read_avail. rewrite V. cbn [negb]. unfold read_wait in Er.
    destruct (head _ =? tail _); cbn [negb andb] in *;
      [| destruct (drain _ _ _); by injection Er as <- <-].
    destruct (0 <? write_refs _) eqn:Ep; zb.
    + rewrite (proj2 (Z.eqb_neq _ 0)) by lia. by injection Er as <- <-.
    + rewrite (proj2 (Z.eqb_eq _ 0)) by lia. destruct (drain _ _ _). by injection Er as <- <-.
  - destruct (rsteps_read_wait n (zget (table s) idx)) as (k & P & Ek). exists k.
    rewrite Ek, Er. by destruct rr.
  - unfold pipe_write. by rewrite V, Ew.
  - by apply write_loop_contract.
  - destruct (wsteps_write_loop bytes 0 (zget (table s) idx)) as (k & Ek). exists k. by rewrite Ek, Ew.
Qed.

Definition demo_table : list fdop := [ONew; ONew; OWrite 1 [1; 2; 3]; ODup 0; OClose 3].

Lemma pipe_calls_witness :
  valid (table (fdrun demo_table)) 1 = true /\
  exists p' rr q' rw, let g := table (fdrun demo_table) in let p := zget g 1 in
    read_wait 2 p = (p', rr) /\ read_contract 2 p p' rr /\
    pipe_read 1 2 g =
      (zset g 1 p', match rr with Return out => Return (Some out) | Yield _ => Yield tt end) /\
    (pipe_read_avail 1 g = 0 <-> rr = Yield tt) /\
    (exists k, (0 < k)%nat /\ Nat.iter k (fun '(p, r) => rstep p r) (p, RWait 2) =
       (p', match rr with Return out => RRet out | Yield _ => RWait 2 end)) /\
    pipe_write 1 [4; 5] g = (zset g 1 q', rw) /\ write_contract [4; 5] p q' rw /\
    (exists k, Nat.iter k (fun '(p, w) => wstep p w) (p, WRefs [4; 5] 0) =
       (q', match rw with Return v => WRet v | Yield (rest, c) => WRefs rest c end)).
Proof. split; [by vm_compute | apply (pipe_calls demo_table 1 2 [4; 5]); by vm_compute]. Defined.

(** The table implements a list of open descriptors: in every reachable
    table a held descriptor's pipe is in use and its counters are exactly the
    numbers of open descriptors of its two ends, a pipe nobody holds is free,
    and pipe_new hands out the lowest slot no descriptor refers to, empty and
    with one reference per end, failing only when all 24 are in use. *)
Theorem pipe_table_refines l i :
  0 <= i < PIPE_MAX ->
  let s := fdrun l in
  (forall k e, fds s !! k = Some (e, i) -> valid (table s) i = true) /\
  (valid (table s) i = true ->
     pipe_read_refs i (table s) = refs REnd i (fds s) /\
     pipe_write_refs i (table s) = refs WEnd i (fds s)) /\
  (refs REnd i (fds s) = 0 -> refs WEnd i (fds s) = 0 -> valid (table s) i = false) /\
  (fst (pipe_new (table s)) = -1 <-> forall j, 0 <= j < PIPE_MAX -> valid (table s) j = true) /\
  (fst (pipe_new (table s)) = i ->
     refs REnd i (fds s) = 0 /\ refs WEnd i (fds s) = 0 /\
     (forall j, 0 <= j < i -> valid (table s) j = true) /\
     let s' := fdstep s ONew in
     fds s' = (REnd, i) :: (WEnd, i) :: fds s /\ queued (zget (table s') i) = [] /\
     pipe_read_refs i (table s') = 1 /\ pipe_write_refs i (table s') = 1).
Proof.
  intros R s. assert (O : table_ok s) by apply fdrun_ok.
  assert (V : forall j, 0 <= j < PIPE_MAX -> valid (table s) j = in_use (zget (table s) j)).
  { intros j Rj. unfold valid.
    by rewrite (proj2 (Z.leb_le 0 j)), (proj2 (Z.ltb_lt j PIPE_MAX)) by lia. }
  destruct (to_slot _ O i R) as [Q U T]. split_and!.
  - intros k e E. by destruct (fd_valid _ _ _ _ O E).
  - intros Vi. unfold pipe_read_refs, pipe_write_refs. rewrite Vi. rewrite V in Vi by done. by apply T.
  - intros E1 E2. by rewrite V, U, E1, E2 by done.
  - pose proof (pipe_new_spec _ (to_len _ O)) as S. destruct (pipe_new (table s)) as [j g].
    cbn [fst]. split.
    + intros ->. destruct S as [(_ & _ & F) | (Rj & _)]; [| lia]. intros j Rj. rewrite V by done. by apply F.
    + intros F. destruct S as [(-> & _) | (Rj & Uj & _)]; [done |]. by rewrite <- V, F in Uj.
  - intros Ei. pose proof (pipe_new_spec _ (to_len _ O)) as S. cbn [fdstep].
    destruct (pipe_new (table s)) as [j g]. cbn [fst] in Ei. subst j.
    destruct S as [(-> & _) | (_ & Ui & F & ->)]; [lia |].
    split; [by apply free_unreferenced | split; [by apply free_unreferenced | split]];
      [intros j Rj; rewrite V by lia; by apply F |]. cbv zeta.
    rewrite (proj2 (Z.eqb_neq i (-1))) by lia. cbn [table fds].
    unfold pipe_read_refs, pipe_write_refs, valid.
    rewrite !zget_zset_eq by (rewrite (to_len _ O); lia).
    rewrite (proj2 (Z.leb_le 0 i)), (proj2 (Z.ltb_lt i PIPE_MAX)) by lia. done.
Qed.

Lemma pipe_table_refines_witness :
  0 <= 0 < PIPE_MAX /\ (fst (pipe_new (table (fdrun demo_table))) = 2) /\
  (forall k e, fds (fdrun demo_table) !! k = Some (e, 0) -> valid (table (fdrun demo_table)) 0 = true).
Proof.
  assert (R : 0 <= 0 < PIPE_MAX) by (unfold PIPE_MAX; lia).
  split; [exact R | split; [by vm_compute |]]. exact (proj1 (pipe_table_refines demo_table 0 R)).
Defined.
End PIPE.
