(* ===== verification/Memory.v ===== *)
(** Byte memory and the string routines ([kernel/string.c]).

    Memory maps addresses to bytes; a buffer never wraps the address space.
    Loops bounded by a count are structural on it; loops that run to a
    terminating NUL take fuel and return [None] when it runs out, and the
    theorems give the fuel that is enough. *)

From stdpp Require Import base numbers list gmap.
From Stdlib Require Import ZArith Lia.
From S2P Require Import Prelude.

Definition memory := gmap Z Z.

Definition ld (m : memory) (a : Z) : Z := m !!! a.

Definition st (m : memory) (a b : Z) : memory := <[a := b]> m.

(** The [n] bytes at [a]. *)
Fixpoint load (m : memory) (a : Z) (n : nat) : list Z :=
  match n with O => [] | S n' => ld m a :: load m (a + 1) n' end.

(** The bytes [l] stored at [a]. *)
Fixpoint blit (m : memory) (a : Z) (l : list Z) : memory :=
  match l with [] => m | b :: l' => blit (st m a b) (a + 1) l' end.

(** [s] is the C string at [a]. *)
Fixpoint cstr (m : memory) (a : Z) (s : list Z) : Prop :=
  match s with
  | [] => ld m a = 0
  | c :: s' => ld m a = c /\ 0 < c < 256 /\ cstr m (a + 1) s'
  end.

Module KSTRING.

Fixpoint memset (m : memory) (dst c : Z) (n : nat) : memory :=
  match n with O => m | S n' => memset (st m dst (u8 c)) (dst + 1) c n' end.

Fixpoint memcpy (m : memory) (dst src : Z) (n : nat) : memory :=
  match n with O => m | S n' => memcpy (st m dst (ld m src)) (dst + 1) (src + 1) n' end.

(** The descending loop of [memmove]; [d] and [s] are one past the last byte. *)
Fixpoint copy_down (m : memory) (d s : Z) (n : nat) : memory :=
  match n with O => m | S n' => copy_down (st m (d - 1) (ld m (s - 1))) (d - 1) (s - 1) n' end.

Definition memmove (m : memory) (dst src : Z) (n : nat) : memory :=
  if dst <? src then memcpy m dst src n
  else if src <? dst then copy_down m (dst + Z.of_nat n) (src + Z.of_nat n) n
  else m.

Fixpoint memcmp (m : memory) (p q : Z) (n : nat) : Z :=
  match n with
  | O => 0
  | S n' => if ld m p =? ld m q then memcmp m (p + 1) (q + 1) n' else ld m p - ld m q
  end.

Fixpoint strlen_from (fuel : nat) (m : memory) (s n : Z) : option Z :=
  match fuel with
  | O => None
  | S f => if ld m (s + n) =? 0 then Some n else strlen_from f m s (n + 1)
  end.

Definition strlen (fuel : nat) (m : memory) (s : Z) : option Z := strlen_from fuel m s 0.

Fixpoint strcmp (fuel : nat) (m : memory) (a b : Z) : option Z :=
  match fuel with
  | O => None
  | S f =>
      if negb (ld m a =? 0) && (ld m a =? ld m b) then strcmp f m (a + 1) (b + 1)
      else Some (ld m a - ld m b)
  end.

Fixpoint strncmp (m : memory) (a b : Z) (n : nat) : Z :=
  match n with
  | O => 0
  | S n' =>
      if negb (ld m a =? 0) && (ld m a =? ld m b) then strncmp m (a + 1) (b + 1) n'
      else ld m a - ld m b
  end.

Fixpoint strcpy (fuel : nat) (m : memory) (dst src : Z) : option memory :=
  match fuel with
  | O => None
  | S f =>
      let c := ld m src in
      let m := st m dst c in
      if c =? 0 then Some m else strcpy f m (dst + 1) (src + 1)
  end.

(** The first loop of [strncpy]: the counter is not decremented for the NUL. *)
Fixpoint strncpy_copy (m : memory) (dst src : Z) (n : nat) : memory * Z * nat :=
  match n with
  | O => (m, dst, O)
  | S n' =>
      let c := ld m src in
      let m := st m dst c in
      if c =? 0 then (m, dst + 1, n) else strncpy_copy m (dst + 1) (src + 1) n'
  end.

Definition strncpy (m : memory) (dst src : Z) (n : nat) : memory :=
  let '(m, dst, n) := strncpy_copy m dst src n in memset m dst 0 n.

(** [Some None] is the NULL result. *)
Fixpoint strchr (fuel : nat) (m : memory) (s c : Z) : option (option Z) :=
  match fuel with
  | O => None
  | S f =>
      if ld m s =? 0 then Some (if c =? 0 then Some s else None)
      else if ld m s =? u8 c then Some (Some s) else strchr f m (s + 1) c
  end.

End KSTRING.

(** ** Loads and stores *)

Lemma ld_st_eq m a b : ld (st m a b) a = b.
Proof. apply lookup_total_insert_eq. Qed.

Lemma ld_st_ne m a a' b : a <> a' -> ld (st m a b) a' = ld m a'.
Proof. apply lookup_total_insert_ne. Qed.

Lemma length_load m a n : length (load m a n) = n.
Proof. revert a. induction n as [|n IH]; intros a; cbn [load length]; [done | by rewrite IH]. Qed.

Lemma load_ext m m' a n :
  (forall k, a <= k < a + Z.of_nat n -> ld m k = ld m' k) -> load m a n = load m' a n.
Proof.
  revert a. induction n as [|n IH]; intros a E; cbn [load]; [done |].
  rewrite E by lia. f_equal. apply IH. intros. apply E. lia.
Qed.

Lemma load_eq_ld m m' a a' n :
  load m a n = load m' a' n <->
  forall k, 0 <= k < Z.of_nat n -> ld m (a + k) = ld m' (a' + k).
Proof.
  revert a a'. induction n as [|n IH]; intros a a'; cbn [load]; [split; [intros; lia | done] |].
  split.
  - intros E k Rk. injection E as E0 E. destruct (decide (k = 0)) as [-> | Ne]; [by rewrite !Z.add_0_r |].
    rewrite IH in E. specialize (E (k - 1) ltac:(lia)).
    replace (a + 1 + (k - 1)) with (a + k) in E by lia.
    by replace (a' + 1 + (k - 1)) with (a' + k) in E by lia.
  - intros E. f_equal.
    + specialize (E 0 ltac:(lia)). by rewrite !Z.add_0_r in E.
    + apply IH. intros k Rk. specialize (E (k + 1) ltac:(lia)).
      replace (a + 1 + k) with (a + (k + 1)) by lia.
      by replace (a' + 1 + k) with (a' + (k + 1)) by lia.
Qed.

Lemma load_app m a n1 n2 : load m a (n1 + n2) = load m a n1 ++ load m (a + Z.of_nat n1) n2.
Proof.
  revert a. induction n1 as [|n1 IH]; intros a; cbn [load Nat.add app]; [by rewrite Z.add_0_r |].
  rewrite IH. do 3 f_equal. lia.
Qed.

Lemma ld_blit_out m a l k :
  k < a \/ a + zlen l <= k -> ld (blit m a l) k = ld m k.
Proof.
  revert m a. induction l as [|b l IH]; intros m a R; cbn [blit]; [done |].
  rewrite zlen_cons in R. rewrite IH by (pose proof (zlen_nonneg l); lia).
  apply ld_st_ne. pose proof (zlen_nonneg l). lia.
Qed.

Lemma load_blit m a l : load (blit m a l) a (length l) = l.
Proof.
  revert m a. induction l as [|b l IH]; intros m a; cbn [blit load length]; [done |].
  rewrite IH, ld_blit_out by lia. by rewrite ld_st_eq.
Qed.

Lemma load_blit_out m a l a' n :
  a' + Z.of_nat n <= a \/ a + zlen l <= a' -> load (blit m a l) a' n = load m a' n.
Proof. intros R. apply load_ext. intros k Rk. apply ld_blit_out. lia. Qed.

(** ** Copies *)

Lemma memset_blit m dst c n : KSTRING.memset m dst c n = blit m dst (replicate n (u8 c)).
Proof.
  revert m dst. induction n as [|n IH]; intros m dst; cbn [KSTRING.memset replicate blit]; auto.
Qed.

Lemma memset_ld m dst c n k :
  dst <= k < dst + Z.of_nat n -> ld (KSTRING.memset m dst c n) k = u8 c.
Proof.
  rewrite memset_blit. revert m dst. induction n as [|n IH]; intros m dst R; [lia |].
  cbn [replicate blit]. destruct (decide (k = dst)) as [-> | Ne].
  - rewrite ld_blit_out by lia. apply ld_st_eq.
  - apply IH. lia.
Qed.

(** An ascending copy is right when the destination does not start inside the source. *)
Lemma memcpy_ld m dst src n k :
  dst <= src \/ src + Z.of_nat n <= dst ->
  ld (KSTRING.memcpy m dst src n) k =
  if bool_decide (dst <= k < dst + Z.of_nat n) then ld m (src + (k - dst)) else ld m k.
Proof.
  revert m dst src. induction n as [|n IH]; intros m dst src R; cbn [KSTRING.memcpy].
  - rewrite bool_decide_eq_false_2; [done | lia].
  - rewrite IH by lia. repeat case_bool_decide; try lia.
    + rewrite ld_st_ne by lia. f_equal. lia.
    + assert (k = dst) as -> by lia. rewrite ld_st_eq. f_equal. lia.
    + apply ld_st_ne. lia.
Qed.

(** A descending copy is right when the source does not start inside the destination. *)
Lemma copy_down_ld m d s n k :
  s <= d ->
  ld (KSTRING.copy_down m d s n) k =
  if bool_decide (d - Z.of_nat n <= k < d) then ld m (s - d + k) else ld m k.
Proof.
  revert m d s. induction n as [|n IH]; intros m d s R; cbn [KSTRING.copy_down].
  - rewrite bool_decide_eq_false_2; [done | lia].
  - rewrite IH by lia. repeat case_bool_decide; try lia.
    + rewrite ld_st_ne by lia. f_equal. lia.
    + assert (k = d - 1) as -> by lia. rewrite ld_st_eq. f_equal. lia.
    + apply ld_st_ne. lia.
Qed.

Lemma copied_blit m m' dst src n :
  (forall k, ld m' k = if bool_decide (dst <= k < dst + Z.of_nat n) then ld m (src + (k - dst)) else ld m k) ->
  load m' dst n = load m src n /\
  (forall a k, a + Z.of_nat k <= dst \/ dst + Z.of_nat n <= a -> load m' a k = load m a k).
Proof.
  intros E. split.
  - apply load_eq_ld. intros k Rk. rewrite E, bool_decide_eq_true_2 by lia. f_equal. lia.
  - intros a k R. apply load_ext. intros j Rj. rewrite E, bool_decide_eq_false_2; [done | lia].
Qed.

(** [memcpy] between disjoint buffers. *)
Lemma memcpy_spec m dst src n :
  dst + Z.of_nat n <= src \/ src + Z.of_nat n <= dst ->
  load (KSTRING.memcpy m dst src n) dst n = load m src n /\
  (forall a k, a + Z.of_nat k <= dst \/ dst + Z.of_nat n <= a ->
     load (KSTRING.memcpy m dst src n) a k = load m a k).
Proof. intros R. apply copied_blit. intros k. apply memcpy_ld. lia. Qed.

(** ** Strings *)

Lemma cstr_cons m a c s : cstr m a (c :: s) -> ld m a = c /\ 0 < c < 256 /\ cstr m (a + 1) s.
Proof. done. Qed.

(** Lexicographic order of strings as the value [strcmp] returns. *)
Fixpoint str_compare (s t : list Z) : Z :=
  match s, t with
  | [], [] => 0
  | [], d :: _ => - d
  | c :: _, [] => c
  | c :: s', d :: t' => if c =? d then str_compare s' t' else c - d
  end.

Lemma strcmp_spec fuel m a b s t :
  cstr m a s -> cstr m b t -> (length s < fuel)%nat ->
  KSTRING.strcmp fuel m a b = Some (str_compare s t).
Proof.
  revert a b s t. induction fuel as [|fuel IH]; intros a b s t A B L; [lia |].
  cbn [KSTRING.strcmp]. destruct s as [|c s]; destruct t as [|d t]; cbn [str_compare].
  - cbn in A, B. by rewrite A, B.
  - cbn in A. apply cstr_cons in B as (-> & _). by rewrite A.
  - cbn in B. apply cstr_cons in A as (-> & R & _). rewrite B.
    rewrite (proj2 (Z.eqb_neq c 0)) by lia. cbn. f_equal. lia.
  - apply cstr_cons in A as (-> & Rc & A). apply cstr_cons in B as (-> & Rd & B).
    rewrite (proj2 (Z.eqb_neq c 0)) by lia. cbn [negb andb].
    destruct (c =? d); [| done]. apply IH; [done | done | cbn in L; lia].
Qed.

Lemma str_compare_0 s t :
  Forall (fun c => 0 < c) s -> Forall (fun c => 0 < c) t -> (str_compare s t = 0 <-> s = t).
Proof.
  revert t. induction s as [|c s IH]; intros [|d t] S T; cbn [str_compare].
  - done.
  - apply Forall_cons in T as (P & _). split; [lia | done].
  - apply Forall_cons in S as (P & _). split; [lia | done].
  - apply Forall_cons in S as (P & S). apply Forall_cons in T as (Q & T).
    destruct (c =? d) eqn:E; zb; [subst d; rewrite IH by done; split; congruence |].
    split; [lia | congruence].
Qed.

Lemma cstr_pos m a s : cstr m a s -> Forall (fun c => 0 < c) s.
Proof.
  revert a. induction s as [|c s IH]; intros a C; [constructor |].
  apply cstr_cons in C as (_ & R & C). constructor; [lia | by eapply IH].
Qed.

Lemma strlen_spec fuel m a s :
  cstr m a s -> (length s < fuel)%nat -> KSTRING.strlen fuel m a = Some (zlen s).
Proof.
  intros C L. unfold KSTRING.strlen.
  assert (G : forall n, cstr m (a + n) s -> KSTRING.strlen_from fuel m a n = Some (n + zlen s)).
  { clear C. revert fuel L. induction s as [|c s IH]; intros [|fuel] L n C; cbn [length] in L; try lia;
      cbn [KSTRING.strlen_from].
    - cbn in C. rewrite C. cbn. f_equal. unfold zlen. cbn [length]. lia.
    - apply cstr_cons in C as (-> & R & C). rewrite (proj2 (Z.eqb_neq c 0)) by lia.
      rewrite zlen_cons. replace (a + n + 1) with (a + (n + 1)) in C by lia.
      rewrite (IH fuel ltac:(lia) _ C). f_equal. lia. }
  rewrite <- (Z.add_0_r a) in C. by rewrite (G 0 C).
Qed.

(** ** Properties *)

(** memmove copies the n source bytes as they were before the call to the
    destination, whatever the overlap of the two buffers, and changes no byte
    outside the destination; memcpy does the same for buffers that are disjoint
    or whose destination starts below the source. *)
Theorem memmove_correct m dst src n :
  load (KSTRING.memmove m dst src n) dst n = load m src n /\
  (forall k, k < dst \/ dst + Z.of_nat n <= k -> ld (KSTRING.memmove m dst src n) k = ld m k) /\
  (dst < src \/ src + Z.of_nat n <= dst ->
     forall k, ld (KSTRING.memcpy m dst src n) k = ld (KSTRING.memmove m dst src n) k).
Proof.
  assert (G : forall k, ld (KSTRING.memmove m dst src n) k =
    if bool_decide (dst <= k < dst + Z.of_nat n) then ld m (src + (k - dst)) else ld m k).
  { intros k. unfold KSTRING.memmove. destruct (dst <? src) eqn:E1; zb; [apply memcpy_ld; lia |].
    destruct (src <? dst) eqn:E2; zb.
    - rewrite copy_down_ld by lia. repeat case_bool_decide; try lia; f_equal; lia.
    - assert (src = dst) as -> by lia. case_bool_decide; [f_equal; lia | done]. }
  split_and!; [by apply (copied_blit m) | |].
  - intros k R. rewrite G, bool_decide_eq_false_2; [done | lia].
  - intros R k. rewrite G. apply memcpy_ld. lia.
Qed.

Lemma memmove_correct_witness :
  (3 < 2 \/ 2 + Z.of_nat 1 <= 3) /\
  (forall k, ld (KSTRING.memcpy (blit ∅ 0 [5; 6; 7; 8]) 3 2 1) k =
     ld (KSTRING.memmove (blit ∅ 0 [5; 6; 7; 8]) 3 2 1) k).
Proof.
  assert (H : 3 < 2 \/ 2 + Z.of_nat 1 <= 3) by lia.
  split; [exact H | exact (proj2 (proj2 (memmove_correct (blit ∅ 0 [5; 6; 7; 8]) 3 2 1)) H)].
Defined.

(** On NUL-terminated strings, strcmp returns (with any fuel above the
    length) the lexicographic comparison of the two byte strings, which is zero
    exactly when they are equal, and strlen their length. *)
Theorem strcmp_correct fuel m a b s t :
  cstr m a s -> cstr m b t -> (length s < fuel)%nat ->
  KSTRING.strcmp fuel m a b = Some (str_compare s t) /\
  (KSTRING.strcmp fuel m a b = Some 0 <-> s = t) /\
  KSTRING.strlen fuel m a = Some (zlen s).
Proof.
  intros A B L. rewrite (strcmp_spec _ _ _ _ s t) by done. split_and!; [done | | by apply strlen_spec].
  rewrite <- str_compare_0 by (eapply cstr_pos; done). split; congruence.
Qed.

Lemma strcmp_correct_witness :
  cstr (blit ∅ 0 [97; 98; 0; 97; 99; 0]) 0 [97; 98] /\
  KSTRING.strcmp 4 (blit ∅ 0 [97; 98; 0; 97; 99; 0]) 0 3 = Some (str_compare [97; 98] [97; 99]).
Proof.
  assert (A : cstr (blit ∅ 0 [97; 98; 0; 97; 99; 0]) 0 [97; 98]) by (cbn; split_and!; first [reflexivity | lia]).
  assert (B : cstr (blit ∅ 0 [97; 98; 0; 97; 99; 0]) 3 [97; 99]) by (cbn; split_and!; first [reflexivity | lia]).
  split; [exact A |]. exact (proj1 (strcmp_correct 4 _ 0 3 _ _ A B ltac:(cbn; lia))).
Defined.

(** [strncpy] writes one byte past its [n]-byte destination when the source is
    shorter than [n]: the loop that copies the NUL does not count it. *)
Lemma strncpy_overflow m dst src n s :
  cstr m src s -> (length s < n)%nat ->
  dst + Z.of_nat n < src \/ src + zlen s < dst ->
  ld (KSTRING.strncpy m dst src n) (dst + Z.of_nat n) = 0.
Proof.
  unfold KSTRING.strncpy. intros C L D.
  assert (G : exists m' d' n', KSTRING.strncpy_copy m dst src n = (m', d', n') /\
    d' + Z.of_nat n' = dst + Z.of_nat n + 1 /\ (0 < n')%nat).
  { revert m dst src s C L D. induction n as [|n IH]; intros m dst src s C L D; [lia |].
    cbn [KSTRING.strncpy_copy]. destruct s as [|c s].
    - cbn in C. rewrite C. cbn. eexists _, _, _. split; [done | lia].
    - apply cstr_cons in C as (-> & R & C). rewrite (proj2 (Z.eqb_neq c 0)) by lia.
      rewrite zlen_cons in D. cbn [length] in L.
      assert (C' : cstr (st m dst c) (src + 1) s).
      { assert (F : forall k, src < k <= src + 1 + zlen s -> ld (st m dst c) k = ld m k)
          by (intros; apply ld_st_ne; lia).
        clear - C F. revert src C F. generalize (st m dst c). intros m'.
        induction s as [|e s IH]; intros src C F; cbn [cstr] in *.
        - rewrite F; [done | unfold zlen; cbn [length]; lia].
        - pose proof (zlen_nonneg s). rewrite zlen_cons in F. destruct C as (C0 & C1 & C).
          split_and!; [rewrite F; [done | lia] | lia | lia |]. apply IH; [done |]. intros; apply F; lia. }
      destruct (IH _ (dst + 1) _ _ C' ltac:(lia) ltac:(lia)) as (m' & d' & n' & -> & E & P).
      eexists _, _, _. split; [done | lia]. }
  destruct G as (m' & d' & n' & -> & E & P). apply memset_ld. lia.
Qed.
