(* ===== verification/Alloc.v ===== *)
(** The interface between the kernel heap and its clients.

    [Allocator] is what a client calls, [AllocatorLaws] what it may rely on: the
    buffers it owns are disjoint and inside the arena, a request returns and either fails or adds a
    buffer, a release of an owned buffer returns and removes it.  The heap of
    [kernel/kmalloc.c] is an instance. *)

From stdpp Require Import base numbers list gmap.
From Stdlib Require Import ZArith Lia.
From S2P Require Import Prelude Kmalloc.

Class Allocator (H : Type) := {
  alloc : Z -> H -> option (H * Z);
  dealloc : Z -> H -> option H
}.

Class AllocatorLaws (H : Type) `{Allocator H} := {
  owns : H -> list (Z * Z) -> Prop;
  arena : H -> Z * Z;
  owns_perm h own own' : own ≡ₚ own' -> owns h own -> owns h own';
  owns_apart h own : owns h own ->
    ForallOrdPairs KMALLOC.apart own /\
    Forall (fun o => 0 < o.1 /\ 0 < o.2 /\ (arena h).1 <= o.1 /\ o.1 + o.2 <= (arena h).2) own;
  alloc_owns h own n : owns h own -> 0 < n <= 4294967280 ->
    exists h' p, alloc n h = Some (h', p) /\ arena h' = arena h /\
      (p = 0 /\ owns h' own \/ p <> 0 /\ owns h' ((p, n) :: own));
  dealloc_owns h own p n : owns h ((p, n) :: own) ->
    exists h', dealloc p h = Some h' /\ arena h' = arena h /\ owns h' own
}.

#[global] Instance kmalloc_allocator : Allocator KMALLOC.heap := {
  alloc := KMALLOC.kmalloc;
  dealloc := KMALLOC.kfree
}.

Definition kmalloc_owns (h : KMALLOC.heap) (own : list (Z * Z)) : Prop :=
  exists l, KMALLOC.heap_ok h l /\ KMALLOC.holds own (KMALLOC.handed_out h l).

Definition kmalloc_arena (h : KMALLOC.heap) : Z * Z := (KMALLOC.g_heap_start h, KMALLOC.g_heap_end h).

Lemma kmalloc_arena_const sz h h' p : KMALLOC.kmalloc sz h = Some (h', p) -> kmalloc_arena h' = kmalloc_arena h.
Proof.
  unfold KMALLOC.kmalloc. destruct (sz =? 0); [intros E; by injection E as <- <- |].
  generalize (KMALLOC.walk_fuel h) (KMALLOC.g_head h). intros fuel. induction fuel as [|fuel IH];
    intros b E; cbn [KMALLOC.kmalloc_walk] in E; [done |].
  destruct (b =? 0); [by injection E as <- <- |].
  destruct (KMALLOC.mem h !! b) as [blk|]; [cbn [option_bind mbind] in E | done].
  destruct (negb _); [by injection E as <- <- |]. destruct (_ || _); [by eapply IH |].
  destruct (KMALLOC.take_block _ _ _ _); [cbn [option_bind mbind] in E | done].
  by injection E as <- <-.
Qed.

Lemma kfree_arena_const p h h' : KMALLOC.kfree p h = Some h' -> kmalloc_arena h' = kmalloc_arena h.
Proof.
  unfold KMALLOC.kfree. destruct (p =? 0); [intros E; by injection E as <- |].
  destruct (KMALLOC.mem h !! _) as [blk|]; [cbn [option_bind mbind] | done].
  destruct (_ || _); [intros E; by injection E as <- |].
  destruct (KMALLOC.store _ _ _) as [m|]; [cbn [option_bind mbind] | done].
  destruct (KMALLOC.merge_next _ _) as [m2|]; [cbn [option_bind mbind] | done].
  destruct (KMALLOC.merge_prev _ _) as [m3|]; [cbn [option_bind mbind] | done].
  intros E; by injection E as <-.
Qed.

Lemma FOP_intro {A} (R : A -> A -> Prop) (l : list A) :
  (forall i j x y, (i < j)%nat -> l !! i = Some x -> l !! j = Some y -> R x y) -> ForallOrdPairs R l.
Proof.
  induction l as [|z l IH]; intros F; constructor.
  - apply Forall_lookup. intros i x E. apply (F 0%nat (S i)); [lia | done | done].
  - apply IH. intros i j x y L Ei Ej. apply (F (S i) (S j)); [lia | done | done].
Qed.

#[global] Instance kmalloc_laws : AllocatorLaws KMALLOC.heap.
Proof.
  refine {| owns := kmalloc_owns; arena := kmalloc_arena |}.
  - intros h own own' P (l & OK & Hl). exists l. split; [done | by eapply KMALLOC.holds_perm].
  - intros h own (l & OK & Hl). destruct (KMALLOC.holds_disjoint _ _ _ OK Hl) as (B & D). split.
    + apply FOP_intro. intros i j x y L Ei Ej. apply (D i j); [lia | done | done].
    + destruct Hl as (lv & _ & F). destruct (KMALLOC.rep_start _ _ (proj1 OK)) as [P _].
      apply Forall_lookup. intros i x E. rewrite Forall_lookup in B. specialize (B _ _ E).
      unfold kmalloc_arena. cbn [fst snd].
      destruct (Forall2_lookup_l _ _ _ _ _ F E) as (v & _ & _ & L). lia.
  - intros h own n Inv Rn. destruct Inv as (l & OK & Hl).
    destruct (KMALLOC.kmalloc_step h l n OK Rn) as (h' & p & K & _ & C). exists h', p. split; [done | split; [by eapply kmalloc_arena_const |]].
    destruct C as [(-> & -> & _) | (Np & _)]; [left; split; [done | by exists l] |]. right. split; [done |].
    exact (KMALLOC.client_inv_step (h, own) (h', (p, n) :: own) (ex_intro _ l (conj OK Hl))
             (KMALLOC.step_alloc h own n h' p Rn K Np)).
  - intros h own p n Inv. destruct Inv as (l & OK & Hl). assert (Hl' := Hl). destruct Hl' as (lv & Q & F).
    inversion F as [|? [p' m] ? lv' [E L] F' E1 E2]; subst. cbn in E. subst p'.
    destruct (KMALLOC.kfree_step h l p m OK) as (h' & l' & K & _); [by rewrite Q; left |].
    exists h'. split; [done | split; [by eapply kfree_arena_const |]].
    exact (KMALLOC.client_inv_step (h, (p, n) :: own) (h', own) (ex_intro _ l (conj OK Hl))
             (KMALLOC.step_free h [] p n own h' K)).
Defined.
