(* ===== verification/Tmpfs.v ===== *)
(** The in-memory filesystem ([kernel/tmpfs.c]).

    A file is a table slot with a buffer obtained from an allocator; its bytes
    live in memory, so growth copies and frees.  The theorems are stated against
    the allocator interface and instantiated with the kernel heap. *)

From stdpp Require Import base numbers list gmap.
From Stdlib Require Import ZArith Lia.
From S2P Require Import Prelude Kmalloc Memory Alloc.

Module TMPFS.

Definition FS_NAME_MAX : Z := 16.

Definition TMPFS_MAX : Z := 16.

Definition TMPFS_INITIAL_CAP : Z := 256.

(** A name is the bytes before its NUL. *)
Record tmpfile := Tmpfile {
  in_use : bool;
  refs : Z;
  name : list Z;
  data : Z;
  size : Z;
  cap : Z
}.

#[global] Instance tmpfile_inhabited : Inhabited tmpfile := populate (Tmpfile false 0 [] 0 0 0).

Record tmpfs {H : Type} := Tmpfs {
  heap : H;
  mem : memory;
  g_tmp : list tmpfile
}.

Arguments tmpfs H : clear implicits.

Definition set_in_use (f : tmpfile) (b : bool) : tmpfile :=
  Tmpfile b (refs f) (name f) (data f) (size f) (cap f).

Definition set_refs (f : tmpfile) (n : Z) : tmpfile :=
  Tmpfile (in_use f) n (name f) (data f) (size f) (cap f).

Definition set_data (f : tmpfile) (p : Z) : tmpfile :=
  Tmpfile (in_use f) (refs f) (name f) p (size f) (cap f).

Definition set_size (f : tmpfile) (n : Z) : tmpfile :=
  Tmpfile (in_use f) (refs f) (name f) (data f) n (cap f).

Definition set_cap (f : tmpfile) (n : Z) : tmpfile :=
  Tmpfile (in_use f) (refs f) (name f) (data f) (size f) n.

Section Ops.
Context {H : Type} `{Allocator H}.
Implicit Types (s : tmpfs H).

Definition file s (i : Z) : tmpfile := zget (g_tmp s) i.

Definition set_file s (i : Z) (f : tmpfile) : tmpfs H := Tmpfs H (heap s) (mem s) (zset (g_tmp s) i f).

Definition tmpfs_init s : tmpfs H :=
  zfor (Z.to_nat TMPFS_MAX) 0 (fun i s => set_file s i (set_data (set_in_use (file s i) false) 0)) s.

Definition valid s (idx : Z) : bool :=
  (0 <=? idx) && (idx <? TMPFS_MAX) && in_use (file s idx).

Definition find_by_name (nm : list Z) s : Z :=
  match zfind (Z.to_nat TMPFS_MAX) 0
          (fun i => in_use (file s i) && (str_compare (name (file s i)) nm =? 0)) with
  | Some i => i
  | None => -1
  end.

Definition tmpfs_open (nm : list Z) s : tmpfs H * Z :=
  let idx := find_by_name nm s in
  if idx <? 0 then (s, -1)
  else (set_file s idx (set_refs (file s idx) (refs (file s idx) + 1)), idx).

(** The slot taken by [tmpfs_create] for a new name; [None] when the allocator is stuck. *)
Definition create_in (i : Z) (nm : list Z) s : option (tmpfs H * Z) :=
  let f := Tmpfile true 1 (name (file s i)) (data (file s i)) 0 TMPFS_INITIAL_CAP in
  '(h, p) ← alloc TMPFS_INITIAL_CAP (heap s);
  let f := set_data f p in
  if p =? 0 then Some (Tmpfs H h (mem s) (zset (g_tmp s) i (set_in_use f false)), -1)
  else Some (Tmpfs H h (mem s)
               (zset (g_tmp s) i (Tmpfile true 1 (ztake FS_NAME_MAX nm) p 0 TMPFS_INITIAL_CAP)), i).

Definition tmpfs_create (nm : list Z) s : option (tmpfs H * Z) :=
  let idx := find_by_name nm s in
  if 0 <=? idx then
    Some (set_file s idx (set_refs (set_size (file s idx) 0) (refs (file s idx) + 1)), idx)
  else
    match zfind (Z.to_nat TMPFS_MAX) 0 (fun i => negb (in_use (file s i))) with
    | Some i => create_in i nm s
    | None => Some (s, -1)
    end.

Definition tmpfs_create_append (nm : list Z) s : option (tmpfs H * Z) :=
  let idx := find_by_name nm s in
  if 0 <=? idx then Some (set_file s idx (set_refs (file s idx) (refs (file s idx) + 1)), idx)
  else tmpfs_create nm s.

Definition tmpfs_close (idx : Z) s : tmpfs H :=
  if negb (valid s idx) then s else
  if 0 <? refs (file s idx) then set_file s idx (set_refs (file s idx) (refs (file s idx) - 1)) else s.

Definition tmpfs_inc_ref (idx : Z) s : tmpfs H :=
  if valid s idx then set_file s idx (set_refs (file s idx) (refs (file s idx) + 1)) else s.

Definition tmpfs_read (idx offset buf n : Z) s : tmpfs H * Z :=
  if negb (valid s idx) then (s, -1) else
  let f := file s idx in
  if size f <=? offset then (s, 0) else
  let avail := u32 (size f - offset) in
  let n := if avail <? n then avail else n in
  (Tmpfs H (heap s) (KSTRING.memcpy (mem s) buf (data f + offset) (Z.to_nat n)) (g_tmp s), s32 n).

(** [while (new_cap < need) new_cap *= 2;] *)
Fixpoint grow (fuel : nat) (new_cap need : Z) : option Z :=
  match fuel with
  | O => None
  | S fuel' => if new_cap <? need then grow fuel' (u32 (new_cap * 2)) need else Some new_cap
  end.

(** The growth of the backing buffer; [false] is the failed allocation. *)
Definition tmpfs_grow (idx n : Z) s : option (tmpfs H * bool) :=
  let f := file s idx in
  if cap f <? u32 (size f + n) then
    new_cap ← grow 33 (cap f) (u32 (size f + n));
    '(h, p) ← alloc new_cap (heap s);
    if p =? 0 then Some (Tmpfs H h (mem s) (g_tmp s), false) else
    let m := KSTRING.memcpy (mem s) p (data f) (Z.to_nat (size f)) in
    h ← dealloc (data f) h;
    Some (Tmpfs H h m (zset (g_tmp s) idx (set_cap (set_data f p) new_cap)), true)
  else Some (s, true).

Definition tmpfs_write (idx buf n : Z) s : option (tmpfs H * Z) :=
  if negb (valid s idx) then Some (s, -1) else
  '(s, ok) ← tmpfs_grow idx n s;
  if negb ok then Some (s, -1) else
  let f := file s idx in
  Some (Tmpfs H (heap s) (KSTRING.memcpy (mem s) (data f + size f) buf (Z.to_nat n))
          (zset (g_tmp s) idx (set_size f (u32 (size f + n)))), s32 n).

Definition tmpfs_size (idx : Z) s : Z := if valid s idx then size (file s idx) else 0.

Definition tmpfs_name (idx : Z) s : option (list Z) :=
  if valid s idx then Some (name (file s idx)) else None.

End Ops.

(** ** Specification: a table of named byte sequences *)

Record afile := AFile { aname : list Z; arefs : Z; acontent : list Z }.

Definition atable := list (option afile).

Definition aget (A : atable) (i : Z) : option afile := zget A i.

Definition anamed (A : atable) (nm : list Z) (i : Z) : Prop :=
  0 <= i < TMPFS_MAX /\ (exists a, aget A i = Some a /\ aname a = nm) /\
  forall j a, 0 <= j < i -> aget A j = Some a -> aname a <> nm.

Definition amissing (A : atable) (nm : list Z) : Prop :=
  forall j a, 0 <= j < TMPFS_MAX -> aget A j = Some a -> aname a <> nm.

Definition afree (A : atable) (i : Z) : Prop :=
  0 <= i < TMPFS_MAX /\ aget A i = None /\ forall j, 0 <= j < i -> aget A j <> None.

Definition aset (A : atable) (i : Z) (a : afile) : atable := zset A i (Some a).

(** [create] of a missing name: the lowest free slot, or -1 when there is none
    or no memory. *)
Inductive screate (A : atable) (nm : list Z) : atable -> Z -> Prop :=
| sc_new i : afree A i -> screate A nm (aset A i (AFile (ztake FS_NAME_MAX nm) 1 [])) i
| sc_nomem i : afree A i -> screate A nm A (-1)
| sc_full : (forall j, 0 <= j < TMPFS_MAX -> aget A j <> None) -> screate A nm A (-1).

Inductive op :=
| OOpen (nm : list Z)
| OCreate (nm : list Z)
| OAppend (nm : list Z)
| OClose (i : Z)
| OIncRef (i : Z)
| ORead (i off buf n : Z)
| OWrite (i buf n : Z).

Definition afind_refs (f : Z -> Z) (a : afile) : afile := AFile (aname a) (f (arefs a)) (acontent a).

(** What each operation does to the table; [m] and [m'] are the memories
    before and after, seen only through the caller's buffer. *)
Inductive sstep (m m' : memory) (A : atable) : op -> atable -> Z -> Prop :=
| s_open nm i a : anamed A nm i -> aget A i = Some a ->
    sstep m m' A (OOpen nm) (aset A i (afind_refs (Z.add 1) a)) i
| s_open_none nm : amissing A nm -> sstep m m' A (OOpen nm) A (-1)
| s_create nm i a : anamed A nm i -> aget A i = Some a ->
    sstep m m' A (OCreate nm) (aset A i (AFile (aname a) (1 + arefs a) [])) i
| s_create_new nm A' r : amissing A nm -> screate A nm A' r -> sstep m m' A (OCreate nm) A' r
| s_append nm i a : anamed A nm i -> aget A i = Some a ->
    sstep m m' A (OAppend nm) (aset A i (afind_refs (Z.add 1) a)) i
| s_append_new nm A' r : amissing A nm -> screate A nm A' r -> sstep m m' A (OAppend nm) A' r
| s_close i a : 0 <= i < TMPFS_MAX -> aget A i = Some a ->
    sstep m m' A (OClose i) (aset A i (afind_refs (fun r => if 0 <? r then r - 1 else r) a)) 0
| s_incref i a : 0 <= i < TMPFS_MAX -> aget A i = Some a ->
    sstep m m' A (OIncRef i) (aset A i (afind_refs (Z.add 1) a)) 0
| s_read i off buf n a : 0 <= i < TMPFS_MAX -> aget A i = Some a ->
    load m' buf (Z.to_nat (Z.min n (zlen (zdrop off (acontent a))))) = ztake n (zdrop off (acontent a)) ->
    sstep m m' A (ORead i off buf n) A (s32 (Z.min n (zlen (zdrop off (acontent a)))))
| s_write i buf n a : 0 <= i < TMPFS_MAX -> aget A i = Some a ->
    sstep m m' A (OWrite i buf n)
      (aset A i (AFile (aname a) (arefs a) (acontent a ++ load m buf (Z.to_nat n)))) n
| s_write_nomem i buf n a : 0 <= i < TMPFS_MAX -> aget A i = Some a ->
    sstep m m' A (OWrite i buf n) A (-1)
| s_bad o i : (o = OClose i \/ o = OIncRef i) -> (0 <= i < TMPFS_MAX -> aget A i = None) -> sstep m m' A o A 0
| s_badio o i off buf n : (o = ORead i off buf n \/ o = OWrite i buf n) ->
    (0 <= i < TMPFS_MAX -> aget A i = None) -> sstep m m' A o A (-1).

(** ** Representation *)

Definition buf_of (f : tmpfile) : list (Z * Z) := if in_use f then [(data f, cap f)] else [].

Definition bufs (g : list tmpfile) : list (Z * Z) := flat_map buf_of g.

Record used_ok (m : memory) (f : tmpfile) (a : afile) : Prop := UsedOk {
  uo_use : in_use f = true;
  uo_refs : refs f = arefs a;
  uo_name : name f = aname a;
  uo_pos : Forall (Z.lt 0) (aname a);
  uo_size : size f = zlen (acontent a);
  uo_data : load m (data f) (Z.to_nat (size f)) = acontent a;
  uo_cap : size f <= cap f /\ exists k, 8 <= k <= 31 /\ cap f = 2 ^ k
}.

Definition file_ok (m : memory) (f : tmpfile) (a : option afile) : Prop :=
  match a with None => in_use f = false | Some a => used_ok m f a end.

(** [rest] are the buffers other parts of the kernel hold. *)
Record rep {H} `{AllocatorLaws H} (s : tmpfs H) (A : atable) (rest : list (Z * Z)) : Prop := Rep {
  re_len : zlen (g_tmp s) = TMPFS_MAX;
  re_alen : zlen A = TMPFS_MAX;
  re_file : forall i, 0 <= i < TMPFS_MAX -> file_ok (mem s) (zget (g_tmp s) i) (aget A i);
  re_owns : owns (heap s) (bufs (g_tmp s) ++ rest)
}.

Section Proofs.
Context {H : Type} `{AL : AllocatorLaws H}.
Implicit Types (s : tmpfs H) (A : atable).

Lemma bufs_focus g i f :
  0 <= i < zlen g -> exists rest', bufs g ≡ₚ buf_of (zget g i) ++ rest' /\
    bufs (zset g i f) ≡ₚ buf_of f ++ rest'.
Proof.
  intros R. pose proof (lookup_zget g i R) as E. unfold zset.
  destruct (list_elem_of_split_length _ _ _ E) as (l1 & l2 & Eg & L).
  exists (bufs l1 ++ bufs l2). generalize dependent (zget g i). intros f0 _ ->.
  rewrite L, insert_app_r_alt, Nat.sub_diag by lia. unfold bufs. rewrite !flat_map_app. cbn [flat_map list_insert insert].
  split; rewrite !(Permutation_app_comm (flat_map buf_of l1)); rewrite <- !app_assoc;
    by rewrite (Permutation_app_comm (flat_map buf_of l2)).
Qed.

Lemma valid_used s A rest i :
  rep s A rest -> valid s i = true -> 0 <= i < TMPFS_MAX /\ exists a, aget A i = Some a /\ used_ok (mem s) (file s i) a.
Proof.
  intros R V. unfold valid in V. zb. split; [lia |].
  pose proof (re_file _ _ _ R i ltac:(lia)) as F. unfold file in *. destruct (aget A i) as [a|]; [by exists a |].
  cbn in F. congruence.
Qed.

Lemma invalid_none s A rest i :
  rep s A rest -> valid s i = false -> 0 <= i < TMPFS_MAX -> aget A i = None.
Proof.
  intros R V Ri. unfold valid in V. rewrite (proj2 (Z.leb_le 0 i)), (proj2 (Z.ltb_lt i TMPFS_MAX)) in V by lia.
  pose proof (re_file _ _ _ R i Ri) as F. unfold file in *. destruct (aget A i) as [a|]; [| done].
  destruct F. cbn in V. congruence.
Qed.

Lemma used_get s A rest i a :
  rep s A rest -> 0 <= i < TMPFS_MAX -> aget A i = Some a -> used_ok (mem s) (file s i) a.
Proof. intros R Ri E. pose proof (re_file _ _ _ R i Ri) as F. by rewrite E in F. Qed.

(** Changing one slot without touching buffers or memory. *)
Lemma rep_set s A rest i f a :
  rep s A rest -> 0 <= i < TMPFS_MAX -> used_ok (mem s) f a ->
  (exists a0, aget A i = Some a0) -> data f = data (file s i) -> cap f = cap (file s i) ->
  rep (set_file s i f) (aset A i a) rest.
Proof.
  intros R Ri U (a0 & E0) D C. pose proof (used_get _ _ _ _ _ R Ri E0) as U0.
  pose proof (re_len _ _ _ R). pose proof (re_alen _ _ _ R).
  split; cbn [g_tmp mem heap set_file]; unfold aset, aget; rewrite ?zlen_zset; try done.
  - intros j Rj. destruct (decide (j = i)) as [-> | Ne].
    + by rewrite !zget_zset_eq by lia.
    + rewrite !zget_zset_ne by lia. by apply R.
  - destruct (bufs_focus (g_tmp s) i f ltac:(lia)) as (r & P1 & P2).
    refine (owns_perm _ _ _ _ (re_owns _ _ _ R)). rewrite P1, P2. unfold file in *.
    unfold buf_of. by rewrite (uo_use _ _ _ U), (uo_use _ _ _ U0), D, C.
Qed.

Lemma find_by_name_spec s A rest nm :
  rep s A rest -> Forall (Z.lt 0) nm ->
  (find_by_name nm s = -1 /\ amissing A nm) \/ anamed A nm (find_by_name nm s).
Proof.
  intros R Pn. unfold find_by_name.
  assert (G : forall i, 0 <= i < TMPFS_MAX ->
    in_use (file s i) && (str_compare (name (file s i)) nm =? 0) = true <->
    exists a, aget A i = Some a /\ aname a = nm).
  { intros i Ri. pose proof (re_file _ _ _ R i Ri) as F. unfold file in *.
    destruct (aget A i) as [a|]; cbn in F.
    - destruct F. rewrite uo_use0. cbn [andb]. rewrite Z.eqb_eq, uo_name0, str_compare_0 by done.
      split; [by exists a | intros (b & Eb & <-); congruence].
    - rewrite F. split; [done | intros (b & Eb & _); done]. }
  destruct (zfind _ _ _) as [i|] eqn:E.
  - right. destruct (zfind_Some _ _ _ _ E) as (Ri & T & F). rewrite Z2Nat.id in Ri by done.
    split; [done | split; [by apply G |]]. intros j a Rj Ea En.
    specialize (F j Rj). rewrite (proj2 (G j ltac:(lia))) in F; [done | by exists a].
  - left. split; [done |]. rewrite zfind_None in E. intros j a Rj Ea En.
    specialize (E j ltac:(rewrite Z2Nat.id by done; lia)).
    rewrite (proj2 (G j Rj)) in E; [done | by exists a].
Qed.

Lemma anamed_range A nm i : anamed A nm i -> 0 <= i < TMPFS_MAX.
Proof. by intros (? & _). Qed.

Lemma ref_step s A rest i a g :
  rep s A rest -> 0 <= i < TMPFS_MAX -> aget A i = Some a ->
  rep (set_file s i (set_refs (file s i) (g (refs (file s i))))) (aset A i (afind_refs g a)) rest.
Proof.
  intros R Ri Ea. pose proof (used_get _ _ _ _ _ R Ri Ea) as U. apply rep_set; try done; [| by exists a].
  destruct U. split; try done. cbn. by rewrite uo_refs0.
Qed.


(** A slot's view of the buffers: its own, and [r] with everybody else's. *)
Lemma slot_focus s A rest i :
  rep s A rest -> 0 <= i < TMPFS_MAX -> exists r,
    bufs (g_tmp s) ++ rest ≡ₚ buf_of (file s i) ++ r /\
    (forall f, bufs (zset (g_tmp s) i f) ++ rest ≡ₚ buf_of f ++ r) /\
    (forall x, x ∈ rest -> x ∈ r) /\
    (forall j a, j <> i -> 0 <= j < TMPFS_MAX -> aget A j = Some a -> (data (file s j), cap (file s j)) ∈ r).
Proof.
  intros R Ri. pose proof (re_len _ _ _ R) as L. set (z := Tmpfile false 0 [] 0 0 0).
  destruct (bufs_focus (g_tmp s) i z ltac:(lia)) as (r & P1 & P2). exists (r ++ rest).
  change (bufs (zset (g_tmp s) i z) ≡ₚ r) in P2. split_and!.
  - rewrite P1. unfold file. by rewrite app_assoc.
  - intros f. destruct (bufs_focus (zset (g_tmp s) i z) i f) as (r' & Q1 & Q2); [rewrite zlen_zset; lia |].
    rewrite zget_zset_eq in Q1 by lia. rewrite zset_zset in Q2. rewrite Q2, app_assoc.
    change (bufs (zset (g_tmp s) i z) ≡ₚ r') in Q1. by rewrite <- Q1, P2.
  - intros x Hx. apply elem_of_app. by right.
  - intros j a Ne Rj Ea. apply elem_of_app. left. rewrite <- P2.
    pose proof (used_get _ _ _ _ _ R Rj Ea) as U. unfold bufs. rewrite list_elem_of_In, in_flat_map.
    exists (file s j). split.
    + rewrite <- list_elem_of_In. apply list_elem_of_lookup. exists (Z.to_nat j).
      unfold file. rewrite <- (zget_zset_ne (g_tmp s) i j z) by lia. apply lookup_zget. rewrite zlen_zset. lia.
    + unfold buf_of. rewrite (uo_use _ _ _ U). by left.
Qed.

Lemma owns_head h b r own :
  owns h own -> own ≡ₚ b :: r ->
  Forall (KMALLOC.apart b) r /\ 0 < b.1 /\ 0 < b.2 /\ (arena h).1 <= b.1 /\ b.1 + b.2 <= (arena h).2.
Proof.
  intros O P. apply (owns_perm _ _ _ P) in O. apply owns_apart in O as (F & G).
  inversion F; subst. apply Forall_cons in G as (G & _). tauto.
Qed.

(** Memory no file of ours may touch. *)
Definition foreign s (rest : list (Z * Z)) (x : Z) : Prop :=
  x < (arena (heap s)).1 \/ (arena (heap s)).2 <= x \/ exists b, b ∈ rest /\ b.1 <= x < b.1 + b.2.

(** A caller's buffer: outside the heap or inside one of the other buffers. *)
Definition caller_buf s (rest : list (Z * Z)) (buf n : Z) : Prop :=
  0 <= n /\ (buf + n <= (arena (heap s)).1 \/ (arena (heap s)).2 <= buf \/
             exists b, b ∈ rest /\ b.1 <= buf /\ buf + n <= b.1 + b.2).

Lemma foreign_apart s rest x b r h own :
  foreign s rest x -> arena h = arena (heap s) -> owns h own -> own ≡ₚ b :: r ->
  (forall y, y ∈ rest -> y ∈ r) -> x < b.1 \/ b.1 + b.2 <= x.
Proof.
  intros F Ar O P S. destruct (owns_head _ _ _ _ O P) as (A & B1 & B2 & B3 & B4). rewrite Ar in *.
  destruct F as [L | [L | (c & C & L)]]; [lia | lia |].
  rewrite Forall_forall in A. specialize (A c (S c C)). unfold KMALLOC.apart in A. lia.
Qed.

Lemma caller_apart s rest buf n b r h own :
  caller_buf s rest buf n -> arena h = arena (heap s) -> owns h own -> own ≡ₚ b :: r ->
  (forall y, y ∈ rest -> y ∈ r) -> buf + n <= b.1 \/ b.1 + b.2 <= buf.
Proof.
  intros (N & F) Ar O P S. destruct (owns_head _ _ _ _ O P) as (A & B1 & B2 & B3 & B4). rewrite Ar in *.
  destruct F as [L | [L | (c & C & L)]]; [lia | lia |].
  rewrite Forall_forall in A. specialize (A c (S c C)). unfold KMALLOC.apart in A. lia.
Qed.

Lemma used_ok_mem m m' f a :
  used_ok m f a -> (forall x, data f <= x < data f + cap f -> ld m' x = ld m x) -> used_ok m' f a.
Proof.
  intros [] E. split; try done. rewrite <- uo_data0. pose proof (zlen_nonneg (acontent a)).
  apply load_ext. intros k Rk. apply E. lia.
Qed.

(** A slot gets new contents, perhaps in a new buffer. *)
Lemma rep_write s A rest i f a h m :
  rep s A rest -> 0 <= i < TMPFS_MAX -> used_ok m f a ->
  (forall j b x, j <> i -> 0 <= j < TMPFS_MAX -> aget A j = Some b ->
     data (file s j) <= x < data (file s j) + cap (file s j) -> ld m x = ld (mem s) x) ->
  owns h (bufs (zset (g_tmp s) i f) ++ rest) ->
  rep (Tmpfs H h m (zset (g_tmp s) i f)) (aset A i a) rest.
Proof.
  intros R Ri U M O. pose proof (re_len _ _ _ R). pose proof (re_alen _ _ _ R).
  split; cbn [g_tmp mem heap]; unfold aset, aget; rewrite ?zlen_zset; try done.
  intros j Rj. destruct (decide (j = i)) as [-> | Ne].
  - by rewrite !zget_zset_eq by lia.
  - rewrite !zget_zset_ne by lia. pose proof (re_file _ _ _ R j Rj) as F. unfold aget in F.
    destruct (zget A j) as [b|] eqn:Eb; [| exact F]. eapply used_ok_mem; [exact F |].
    intros x Rx. by apply (M j b).
Qed.

Lemma grow_spec fuel k need :
  0 <= k <= 31 -> (31 - k < Z.of_nat fuel) -> need <= 2 ^ 31 ->
  exists k', k <= k' <= 31 /\ grow fuel (2 ^ k) need = Some (2 ^ k') /\ need <= 2 ^ k'.
Proof.
  revert k. induction fuel as [|fuel IH]; intros k Rk F N; cbn [grow]; [lia |].
  destruct (2 ^ k <? need) eqn:E; zb; [| exists k; split; [lia | done]].
  assert (k <> 31) by (intros ->; lia).
  assert (P : 2 ^ (k + 1) = 2 ^ k * 2) by (rewrite Z.pow_add_r by lia; lia).
  assert (2 ^ (k + 1) <= 2 ^ 31) by (apply Z.pow_le_mono_r; lia).
  assert (0 < 2 ^ (k + 1)) by lia. change (2 ^ 31) with 2147483648 in *.
  rewrite u32_small by lia. rewrite <- P.
  destruct (IH (k + 1) ltac:(lia) ltac:(lia) ltac:(done)) as (k' & R' & G). exists k'. split; [lia | done].
Qed.

Lemma zfree_spec s A rest :
  rep s A rest ->
  match zfind (Z.to_nat TMPFS_MAX) 0 (fun i => negb (in_use (file s i))) with
  | Some i => afree A i
  | None => forall j, 0 <= j < TMPFS_MAX -> aget A j <> None
  end.
Proof.
  intros R. assert (G : forall j, 0 <= j < TMPFS_MAX -> negb (in_use (file s j)) = true <-> aget A j = None).
  { intros j Rj. pose proof (re_file _ _ _ R j Rj) as F. unfold file in *.
    destruct (aget A j) as [b|]; cbn in F; [destruct F; by rewrite uo_use0 | by rewrite F]. }
  destruct (zfind _ _ _) as [i|] eqn:E.
  - destruct (zfind_Some _ _ _ _ E) as (Ri & T & F). rewrite Z2Nat.id in Ri by done.
    split_and!; [lia | lia | by apply G; [lia |] |]. intros j Rj N.
    specialize (F j Rj). rewrite (proj2 (G j ltac:(lia))) in F; done.
  - rewrite zfind_None in E. intros j Rj N. specialize (E j ltac:(rewrite Z2Nat.id by done; lia)).
    rewrite (proj2 (G j Rj)) in E; done.
Qed.

Definition unchanged s rest (m' : memory) : Prop := forall x, foreign s rest x -> ld m' x = ld (mem s) x.

(** The conclusion shared by all operations: the call returns, the table moves
    as specified, memory that belongs to others is untouched. *)
Definition refines s A rest (o : op) (excl : Z -> Prop) (res : option (tmpfs H * Z)) : Prop :=
  exists s' r A', res = Some (s', r) /\ rep s' A' rest /\ sstep (mem s) (mem s') A o A' r /\
    arena (heap s') = arena (heap s) /\
    (forall x, foreign s rest x -> ~ excl x -> ld (mem s') x = ld (mem s) x).

Lemma create_in_refines s A rest i nm :
  rep s A rest -> afree A i -> Forall (Z.lt 0) nm ->
  exists s' r A', create_in i nm s = Some (s', r) /\ rep s' A' rest /\ screate A nm A' r /\
    arena (heap s') = arena (heap s) /\ mem s' = mem s.
Proof.
  intros R (Ri & Fr & Lo) Pn. unfold create_in.
  destruct (alloc_owns _ _ TMPFS_INITIAL_CAP (re_owns _ _ _ R) ltac:(unfold TMPFS_INITIAL_CAP; lia))
    as (h & p & -> & Ar & C). cbn [option_bind mbind].
  assert (Fr' : in_use (file s i) = false) by (pose proof (re_file _ _ _ R i Ri) as F; by rewrite Fr in F).
  destruct (slot_focus _ _ _ _ R Ri) as (r & P & Pf & _ & _).
  assert (Pf0 : forall f, bufs (zset (g_tmp s) i f) ++ rest ≡ₚ buf_of f ++ bufs (g_tmp s) ++ rest).
  { intros f. rewrite Pf, P. assert (buf_of (file s i) = []) as -> by (unfold buf_of; by rewrite Fr'). done. }
  destruct C as [(-> & O) | (Np & O)].
  - cbn [Z.eqb]. eexists _, (-1), A. split; [done |]. split; [| split; [by econstructor | done]].
    pose proof (re_len _ _ _ R). split; cbn [g_tmp mem heap]; rewrite ?zlen_zset; [done | apply R | |].
    + intros j Rj. destruct (decide (j = i)) as [-> | Ne].
      * rewrite zget_zset_eq, Fr by lia. done.
      * rewrite zget_zset_ne by lia. by apply R.
    + refine (owns_perm _ _ _ _ O). by rewrite Pf0.
  - rewrite (proj2 (Z.eqb_neq p 0)) by done. eexists _, i, _. split; [done |].
    split; [| split; [by apply sc_new | done]].
    apply rep_write; [done | done | | |].
    + split; try done.
      * cbn [aname]. unfold ztake. by apply Forall_take.
      * split; [cbn; unfold TMPFS_INITIAL_CAP; lia |]. exists 8. split; [lia | done].
    + done.
    + refine (owns_perm _ _ _ _ O). by rewrite Pf0.
Qed.

Lemma create_refines s A rest nm :
  rep s A rest -> Forall (Z.lt 0) nm -> refines s A rest (OCreate nm) (fun _ => False) (tmpfs_create nm s).
Proof.
  intros R Pn. unfold tmpfs_create. destruct (find_by_name_spec _ _ _ nm R Pn) as [(-> & Mi) | An].
  - change (0 <=? -1) with false. cbv iota. pose proof (zfree_spec _ _ _ R) as Z0.
    destruct (zfind _ _ _) as [i|].
    + destruct (create_in_refines _ _ _ _ nm R Z0 Pn) as (s' & r & A' & -> & R' & S & Ar & M).
      exists s', r, A'. split_and!; try done; [by constructor | by rewrite M].
    + eexists s, (-1), A. split_and!; try done. constructor; [done | by apply sc_full].
  - pose proof (anamed_range _ _ _ An) as Ri. rewrite (proj2 (Z.leb_le 0 _)) by lia.
    destruct (proj1 (proj2 An)) as (a & Ea & En).
    eexists _, _, (aset A _ (AFile (aname a) (1 + arefs a) [])). split; [done |].
    pose proof (used_get _ _ _ _ _ R Ri Ea) as U. split; [| split; [by econstructor | done]].
    apply (rep_set _ _ _ _ _ (AFile (aname a) (1 + arefs a) [])); try done; [| by exists a].
    destruct U. split; try done.
    + cbn. rewrite uo_refs0. lia.
    + split; [| apply uo_cap0]. cbn. destruct uo_cap0 as (_ & k & Rk & ->).
      assert (0 < 2 ^ k) by lia. lia.
Qed.

Lemma open_refines s A rest nm :
  rep s A rest -> Forall (Z.lt 0) nm ->
  refines s A rest (OOpen nm) (fun _ => False) (Some (tmpfs_open nm s)).
Proof.
  intros R Pn. unfold tmpfs_open. destruct (find_by_name_spec _ _ _ nm R Pn) as [(-> & Mi) | An].
  - eexists s, (-1), A. split_and!; try done. by constructor.
  - pose proof (anamed_range _ _ _ An) as Ri. rewrite (proj2 (Z.ltb_ge _ 0)) by lia.
    destruct (proj1 (proj2 An)) as (a & Ea & En).
    eexists _, _, (aset A _ (afind_refs (Z.add 1) a)). split; [done |]. rewrite Z.add_comm. split; [by apply (ref_step _ _ _ _ _ (Z.add 1)) | split; [by econstructor | done]].
Qed.

Lemma append_refines s A rest nm :
  rep s A rest -> Forall (Z.lt 0) nm ->
  refines s A rest (OAppend nm) (fun _ => False) (tmpfs_create_append nm s).
Proof.
  intros R Pn. unfold tmpfs_create_append. destruct (find_by_name_spec _ _ _ nm R Pn) as [(E & Mi) | An].
  - rewrite E. change (0 <=? -1) with false. cbv iota.
    destruct (create_refines _ _ _ nm R Pn) as (s' & r & A' & -> & R' & S & Ar & M).
    exists s', r, A'. split_and!; try done. inversion S; subst; try naive_solver; [| by apply s_append_new].
    match goal with An : anamed _ _ _ |- _ => destruct An as (Rr & (b & Eb & En) & _) end.
    by destruct (Mi _ _ Rr Eb).
  - pose proof (anamed_range _ _ _ An) as Ri. rewrite (proj2 (Z.leb_le 0 _)) by lia.
    destruct (proj1 (proj2 An)) as (a & Ea & En).
    eexists _, _, (aset A _ (afind_refs (Z.add 1) a)). split; [done |]. rewrite Z.add_comm. split; [by apply (ref_step _ _ _ _ _ (Z.add 1)) | split; [by econstructor | done]].
Qed.

Lemma close_refines s A rest i :
  rep s A rest -> refines s A rest (OClose i) (fun _ => False) (Some (tmpfs_close i s, 0)).
Proof.
  intros R. unfold tmpfs_close. destruct (valid s i) eqn:V; cbn [negb].
  - destruct (valid_used _ _ _ _ R V) as (Ri & a & Ea & U).
    pose proof (ref_step _ _ _ _ _ (fun r => if 0 <? r then r - 1 else r) R Ri Ea) as R'. cbv beta in R'.
    assert (E : (if 0 <? refs (file s i) then set_file s i (set_refs (file s i) (refs (file s i) - 1)) else s) =
      set_file s i (set_refs (file s i) (if 0 <? refs (file s i) then refs (file s i) - 1 else refs (file s i)))).
    { destruct (0 <? _); [done |]. unfold set_file.
      assert (set_refs (file s i) (refs (file s i)) = zget (g_tmp s) i) as -> by (unfold file; by destruct (zget _ _)).
      rewrite zset_id; [by destruct s |]. rewrite (re_len _ _ _ R). done. }
    rewrite E. eexists _, _, _. split_and!; [done | exact R' | by apply s_close | done | done].
  - eexists s, 0, A. split_and!; try done. apply (s_bad _ _ _ _ i); [auto |]. by apply (invalid_none s A rest).
Qed.

Lemma incref_refines s A rest i :
  rep s A rest -> refines s A rest (OIncRef i) (fun _ => False) (Some (tmpfs_inc_ref i s, 0)).
Proof.
  intros R. unfold tmpfs_inc_ref. destruct (valid s i) eqn:V.
  - destruct (valid_used _ _ _ _ R V) as (Ri & a & Ea & U). rewrite Z.add_comm.
    eexists _, _, (aset A i (afind_refs (Z.add 1) a)).
    split_and!; [done | by apply (ref_step _ _ _ _ _ (Z.add 1)) | by apply s_incref | done | done].
  - eexists s, 0, A. split_and!; try done. apply (s_bad _ _ _ _ i); [auto |]. by apply (invalid_none s A rest).
Qed.

Lemma used_size_bounds m f a : used_ok m f a -> 0 <= size f <= cap f /\ cap f <= 2147483648.
Proof.
  intros []. pose proof (zlen_nonneg (acontent a)). destruct uo_cap0 as (L & k & Rk & E).
  assert (2 ^ k <= 2 ^ 31) by (apply Z.pow_le_mono_r; lia). change (2 ^ 31) with 2147483648 in *. lia.
Qed.

(** Every file's buffer is apart from a caller's buffer. *)
Lemma caller_file s A rest buf n j a :
  rep s A rest -> caller_buf s rest buf n -> 0 <= j < TMPFS_MAX -> aget A j = Some a ->
  buf + n <= data (file s j) \/ data (file s j) + cap (file s j) <= buf.
Proof.
  intros R C Rj Ea. pose proof (used_get _ _ _ _ _ R Rj Ea) as U.
  destruct (slot_focus _ _ _ _ R Rj) as (r & P & _ & S & _). unfold buf_of in P. rewrite (uo_use _ _ _ U) in P.
  exact (caller_apart s rest buf n _ r _ _ C eq_refl (re_owns _ _ _ R) P S).
Qed.

Lemma rep_mem s A rest m :
  rep s A rest ->
  (forall j b x, 0 <= j < TMPFS_MAX -> aget A j = Some b ->
     data (file s j) <= x < data (file s j) + cap (file s j) -> ld m x = ld (mem s) x) ->
  rep (Tmpfs H (heap s) m (g_tmp s)) A rest.
Proof.
  intros R M. split; try apply R. intros j Rj. pose proof (re_file _ _ _ R j Rj) as F. cbn [mem g_tmp].
  destruct (aget A j) as [b|] eqn:Eb; [| exact F]. eapply used_ok_mem; [exact F |].
  intros x Rx. by apply (M j b).
Qed.

Lemma read_refines s A rest i off buf n :
  rep s A rest -> 0 <= off < 4294967296 -> n < 4294967296 -> caller_buf s rest buf n ->
  refines s A rest (ORead i off buf n) (fun x => buf <= x < buf + n) (Some (tmpfs_read i off buf n s)).
Proof.
  intros R Ro Rn C. unfold tmpfs_read. destruct (valid s i) eqn:V; cbn [negb].
  2: { eexists s, (-1), A. split_and!; try done. apply (s_badio _ _ _ _ i off buf n); [auto |]. by apply (invalid_none s A rest). }
  destruct (valid_used _ _ _ _ R V) as (Ri & a & Ea & U). pose proof (used_size_bounds _ _ _ U) as B.
  pose proof (proj1 C) as N0. pose proof (uo_size _ _ _ U) as Us.
  assert (L : zlen (zdrop off (acontent a)) = Z.max 0 (size (file s i) - off)) by (rewrite zlen_zdrop; lia).
  destruct (size (file s i) <=? off) eqn:Es; zb.
  { eexists s, 0, A. split_and!; try done.
    assert (E : Z.min n (zlen (zdrop off (acontent a))) = 0) by lia.
    pose proof (s_read (mem s) (mem s) A i off buf n a Ri Ea) as G. rewrite E in G. apply G.
    cbn [Z.to_nat load].
    assert (zdrop off (acontent a) = []) as ->; [| by unfold ztake; rewrite take_nil].
    apply length_zero_iff_nil. unfold zlen in *. lia. }
  rewrite u32_small by lia. set (k := if size (file s i) - off <? n then size (file s i) - off else n).
  assert (Ek : k = Z.min n (zlen (zdrop off (acontent a)))) by (unfold k; cases; lia).
  assert (D : buf + n <= data (file s i) \/ data (file s i) + cap (file s i) <= buf) by (by eapply caller_file).
  eexists _, (s32 k), A. split; [done |]. split; [| split; [| split; [done |]]].
  - apply rep_mem; [done |]. intros j b x Rj Eb Rx.
    pose proof (caller_file _ _ _ _ _ _ _ R C Rj Eb) as Dj.
    rewrite memcpy_ld, bool_decide_eq_false_2; [done | lia | lia].
  - rewrite Ek. apply s_read; [done | done |]. rewrite <- Ek. cbn [mem].
    assert (K : 0 <= k <= size (file s i) - off /\ k <= n) by lia.
    rewrite (proj1 (memcpy_spec (mem s) buf (data (file s i) + off) (Z.to_nat k) ltac:(lia))).
    assert (ztake k (zdrop off (acontent a)) = ztake n (zdrop off (acontent a))) as <-.
    { rewrite Ek. unfold ztake, zlen. replace (Z.to_nat (Z.min n _)) with
        (Z.to_nat n `min` length (zdrop off (acontent a)))%nat by lia.
      rewrite <- take_take. by rewrite (firstn_all (zdrop off (acontent a))). }
    pose proof (uo_data _ _ _ U) as Ud.
    replace (Z.to_nat (size (file s i))) with (Z.to_nat off + (Z.to_nat k + Z.to_nat (size (file s i) - off - k)))%nat
      in Ud by lia.
    rewrite load_app, load_app in Ud. rewrite <- Ud. unfold ztake, zdrop.
    rewrite drop_app_length' by (by rewrite length_load). rewrite take_app_length' by (by rewrite length_load).
    f_equal. lia.
  - intros x _ Nx. cbn [mem]. rewrite memcpy_ld, bool_decide_eq_false_2; [done | lia | lia].
Qed.

(** Growth: the file keeps its bytes, and has room, or nothing changes. *)
Lemma grow_refines s A rest i n a :
  rep s A rest -> 0 <= i < TMPFS_MAX -> aget A i = Some a -> 0 <= n -> size (file s i) + n <= 2147483648 ->
  exists s' ok, tmpfs_grow i n s = Some (s', ok) /\ rep s' A rest /\ arena (heap s') = arena (heap s) /\
    (ok = true -> size (file s' i) + n <= cap (file s' i)) /\
    (forall x, foreign s rest x -> ld (mem s') x = ld (mem s) x).
Proof.
  intros R Ri Ea N Sz. pose proof (used_get _ _ _ _ _ R Ri Ea) as U. pose proof (used_size_bounds _ _ _ U) as B.
  unfold tmpfs_grow. rewrite u32_small by lia. set (f := file s i) in *.
  destruct (cap f <? size f + n) eqn:Ec; zb; [| by exists s, true].
  destruct (uo_cap _ _ _ U) as (_ & k & Rk & Ek). rewrite Ek.
  destruct (grow_spec 33 k (size f + n) ltac:(lia) ltac:(lia) ltac:(done)) as (k' & Rk' & -> & Lk).
  cbn [option_bind mbind]. set (c := 2 ^ k') in *.
  assert (Bc : 0 < c <= 2147483648)
    by (split; [unfold c; lia | change 2147483648 with (2 ^ 31); apply Z.pow_le_mono_r; lia]).
  destruct (alloc_owns _ _ c (re_owns _ _ _ R) ltac:(lia)) as (h & p & -> & Ar & C). cbn [option_bind mbind].
  destruct C as [(-> & O) | (Np & O)].
  { cbn [Z.eqb]. eexists _, false. split_and!; try done. split; try apply R. exact O. }
  rewrite (proj2 (Z.eqb_neq p 0)) by done.
  destruct (slot_focus _ _ _ _ R Ri) as (r & P & Pf & S & Oth). fold f in P. unfold buf_of in P at 1.
  rewrite (uo_use _ _ _ U) in P. cbn [app] in P.
  assert (Q : (p, c) :: bufs (g_tmp s) ++ rest ≡ₚ (data f, cap f) :: (p, c) :: r)
    by (rewrite P; apply Permutation_swap).
  destruct (dealloc_owns h ((p, c) :: r) (data f) (cap f) (owns_perm _ _ _ Q O)) as (h' & -> & Ar' & O').
  cbn [option_bind mbind].
  destruct (owns_head _ _ _ _ O (reflexivity _)) as (Ap & _).
  assert (Apf : KMALLOC.apart (p, c) (data f, cap f)) by (rewrite P in Ap; by inversion Ap).
  assert (Apr : Forall (KMALLOC.apart (p, c)) r) by (rewrite P in Ap; by inversion Ap).
  unfold KMALLOC.apart in Apf. cbn [fst snd] in Apf.
  destruct (memcpy_spec (mem s) p (data f) (Z.to_nat (size f)) ltac:(lia)) as (M1 & M2).
  assert (M3 : forall x, x < p \/ p + c <= x -> ld (KSTRING.memcpy (mem s) p (data f) (Z.to_nat (size f))) x = ld (mem s) x)
    by (intros; rewrite memcpy_ld, bool_decide_eq_false_2; [done | lia | lia]).
  eexists _, true. split; [done |]. split; [| split; [cbn [heap]; congruence | split]].
  - assert (A = aset A i a) as ->.
    { unfold aset. rewrite <- Ea. unfold aget. rewrite zset_id; [done |]. rewrite (re_alen _ _ _ R). done. }
    apply rep_write; [done | done | | |].
    + destruct U. split; try done; [by cbn; rewrite M1 |]. cbn. split; [lia |]. exists k'. split; [lia | done].
    + intros j b x Ne Rj Eb Rx. apply M3. rewrite Forall_forall in Apr.
      pose proof (Apr _ (Oth _ _ Ne Rj Eb)) as X. unfold KMALLOC.apart in X. cbn [fst snd] in X. lia.
    + refine (owns_perm _ _ _ _ O'). rewrite Pf. unfold buf_of. cbn. by rewrite (uo_use _ _ _ U).
  - intros _. unfold file at 1 2. cbn [g_tmp]. rewrite zget_zset_eq by (by rewrite (re_len _ _ _ R)). exact Lk.
  - intros x Fx. cbn [mem]. apply M3.
    exact (foreign_apart s rest x (p, c) _ h _ Fx Ar O (reflexivity _)
             (fun y Hy => proj2 (elem_of_app _ _ _) (or_intror Hy))).
Qed.

Lemma write_refines s A rest i buf n :
  rep s A rest -> 0 <= n < 2147483648 -> caller_buf s rest buf n ->
  (valid s i = true -> size (file s i) + n <= 2147483648) ->
  refines s A rest (OWrite i buf n) (fun _ => False) (tmpfs_write i buf n s).
Proof.
  intros R Rn C Sz. unfold tmpfs_write. destruct (valid s i) eqn:V; cbn [negb].
  2: { eexists s, (-1), A. split_and!; try done. apply (s_badio _ _ _ _ i 0 buf n); [auto |]. by apply (invalid_none s A rest). }
  destruct (valid_used _ _ _ _ R V) as (Ri & a & Ea & _).
  destruct (grow_refines s A rest i n a R Ri Ea ltac:(lia) (Sz eq_refl)) as (s1 & ok & -> & R1 & Ar & Room & M).
  cbn [option_bind mbind]. destruct ok; cbn [negb].
  2: { eexists s1, (-1), A. split_and!; try done; [by eapply s_write_nomem | by intros x Fx _; apply M]. }
  specialize (Room eq_refl). pose proof (used_get _ _ _ _ _ R1 Ri Ea) as U. pose proof (used_size_bounds _ _ _ U) as B.
  assert (C1 : caller_buf s1 rest buf n) by (unfold caller_buf; by rewrite Ar).
  set (f := file s1 i) in *. pose proof (caller_file _ _ _ _ _ _ _ R1 C1 Ri Ea) as D. fold f in D.
  rewrite (u32_small (size f + n)) by lia. rewrite s32_small by lia.
  destruct (slot_focus _ _ _ _ R1 Ri) as (r & P & Pf & S & Oth). fold f in P. unfold buf_of in P at 1.
  rewrite (uo_use _ _ _ U) in P. cbn [app] in P.
  destruct (owns_head _ _ _ _ (re_owns _ _ _ R1) P) as (Ap & _).
  assert (Lb : load (mem s1) buf (Z.to_nat n) = load (mem s) buf (Z.to_nat n)).
  { apply load_ext. intros x Rx. apply M. destruct C as (_ & [L | [L | (b & Hb & L)]]);
      [left; lia | right; left; lia | right; right; exists b; split; [done | lia]]. }
  destruct (memcpy_spec (mem s1) (data f + size f) buf (Z.to_nat n) ltac:(lia)) as (M1 & M2).
  assert (M3 : forall x, x < data f + size f \/ data f + cap f <= x ->
    ld (KSTRING.memcpy (mem s1) (data f + size f) buf (Z.to_nat n)) x = ld (mem s1) x)
    by (intros; rewrite memcpy_ld, bool_decide_eq_false_2; [done | lia | lia]).
  eexists _, n, (aset A i (AFile (aname a) (arefs a) (acontent a ++ load (mem s) buf (Z.to_nat n)))).
  split; [done |]. split; [| split; [by apply s_write | split; [done |]]].
  - apply rep_write; [done | done | | |].
    + destruct U. split; try done; cbn.
      * rewrite zlen_app, uo_size0. unfold zlen at 3. rewrite length_load. lia.
      * replace (Z.to_nat (size f + n)) with (Z.to_nat (size f) + Z.to_nat n)%nat by lia.
        rewrite load_app, Z2Nat.id, M1, Lb by lia. f_equal. rewrite <- uo_data0.
        apply load_ext. intros x Rx. apply M3. lia.
      * split; [lia | apply uo_cap0].
    + intros j b x Ne Rj Eb Rx. apply M3. rewrite Forall_forall in Ap.
      pose proof (Ap _ (Oth _ _ Ne Rj Eb)) as X. unfold KMALLOC.apart in X. cbn [fst snd] in X. lia.
    + refine (owns_perm _ _ _ _ (re_owns _ _ _ R1)). rewrite P, Pf. unfold buf_of. cbn.
      by rewrite (uo_use _ _ _ U).
  - intros x Fx _. cbn [mem]. rewrite M3; [by apply M |].
    assert (Fx1 : foreign s1 rest x) by (unfold foreign; by rewrite Ar).
    pose proof (foreign_apart s1 rest x _ r _ _ Fx1 eq_refl (re_owns _ _ _ R1) P S) as X. cbn in X. lia.
Qed.

(** ** The contract *)

Definition do_op (o : op) s : option (tmpfs H * Z) :=
  match o with
  | OOpen nm => Some (tmpfs_open nm s)
  | OCreate nm => tmpfs_create nm s
  | OAppend nm => tmpfs_create_append nm s
  | OClose i => Some (tmpfs_close i s, 0)
  | OIncRef i => Some (tmpfs_inc_ref i s, 0)
  | ORead i off buf n => Some (tmpfs_read i off buf n s)
  | OWrite i buf n => tmpfs_write i buf n s
  end.

(** What a caller must respect; a file never grows past 2 GiB. *)
Definition op_ok s (rest : list (Z * Z)) (o : op) : Prop :=
  match o with
  | OOpen nm | OCreate nm | OAppend nm => Forall (Z.lt 0) nm
  | OClose _ | OIncRef _ => True
  | ORead i off buf n => 0 <= off < 4294967296 /\ n < 4294967296 /\ caller_buf s rest buf n
  | OWrite i buf n =>
      0 <= n < 2147483648 /\ caller_buf s rest buf n /\
      (valid s i = true -> size (file s i) + n <= 2147483648)
  end.

Definition op_excl (o : op) (x : Z) : Prop :=
  match o with ORead i off buf n => buf <= x < buf + n | _ => False end.

(** C8. Every tmpfs operation on a represented state returns and does to the
    table of named byte sequences what its specification says: open finds the
    first file of that name, create truncates it or takes the lowest free slot,
    write appends the caller's bytes across buffer growth or fails with nothing
    changed, read copies exactly the bytes in range; buffers stay disjoint, so
    no other file's bytes, no other kernel buffer and no user memory outside
    the read's destination change. *)
Theorem tmpfs_refines s A rest o :
  rep s A rest -> op_ok s rest o -> refines s A rest o (op_excl o) (do_op o s).
Proof.
  intros R O. destruct o as [nm | nm | nm | i | i | i off buf n | i buf n]; cbn [do_op].
  - by apply open_refines.
  - by apply create_refines.
  - by apply append_refines.
  - by apply close_refines.
  - by apply incref_refines.
  - destruct O as (? & ? & ?). by apply read_refines.
  - destruct O as (? & ? & ?). by apply write_refines.
Qed.

(** An empty table on any heap. *)
Lemma rep_empty h m rest :
  owns h rest -> rep (Tmpfs H h m (zrep TMPFS_MAX (Tmpfile false 0 [] 0 0 0))) (zrep TMPFS_MAX None) rest.
Proof.
  intros O. split; cbn [g_tmp heap mem]; [done | done | |].
  - intros i Ri. unfold aget. by rewrite !zget_zrep.
  - exact O.
Qed.

(** The doubling loop never ends once more than 2 GiB are needed: the capacity
    wraps to zero. *)
Lemma grow_diverges fuel need : 2147483648 < need -> grow fuel TMPFS_INITIAL_CAP need = None.
Proof.
  intros N. assert (Z0 : forall f, grow f 0 need = None).
  { induction f as [|f IH]; cbn [grow]; [done |]. rewrite (proj2 (Z.ltb_lt 0 need)) by lia. exact IH. }
  assert (G : forall f k, 8 <= k <= 31 -> grow f (2 ^ k) need = None).
  { induction f as [|f IH]; intros k Rk; cbn [grow]; [done |].
    assert (L : 2 ^ k <= 2 ^ 31) by (apply Z.pow_le_mono_r; lia). change (2 ^ 31) with 2147483648 in L.
    rewrite (proj2 (Z.ltb_lt _ need)) by lia. destruct (decide (k = 31)) as [-> | Ne]; [apply Z0 |].
    assert (E : 2 ^ (k + 1) = 2 ^ k * 2) by (rewrite Z.pow_add_r by lia; lia).
    assert (L' : 2 ^ (k + 1) <= 2 ^ 31) by (apply Z.pow_le_mono_r; lia). change (2 ^ 31) with 2147483648 in L'.
    assert (0 < 2 ^ k) by lia. rewrite u32_small by lia. rewrite <- E. apply IH. lia. }
  apply (G fuel 8). lia.
Qed.

(** A name longer than sixteen characters is stored truncated, so no later
    lookup with the same name finds the file. *)
Lemma long_name_lost s A rest nm s' i :
  rep s A rest -> Forall (Z.lt 0) nm -> FS_NAME_MAX < zlen nm -> amissing A nm ->
  tmpfs_create nm s = Some (s', i) -> find_by_name nm s' = -1.
Proof.
  intros R Pn L Mi E. destruct (create_refines _ _ _ nm R Pn) as (s1 & r & A' & E1 & R1 & S & _).
  rewrite E in E1. injection E1 as <- <-.
  assert (Mi' : amissing A' nm).
  { inversion S; subst; try naive_solver.
    - match goal with An : anamed _ _ _ |- _ => destruct An as (Rr & (b & Eb & En) & _) end.
      by destruct (Mi _ _ Rr Eb).
    - match goal with Sc : screate _ _ _ _ |- _ => inversion Sc; subst; try done end.
      intros j b Rj Eb En. unfold aget, aset in Eb. destruct (decide (j = i)) as [-> | Ne].
      + rewrite zget_zset_eq in Eb by (rewrite (re_alen _ _ _ R); done). injection Eb as <-.
        cbn [aname] in En. apply (f_equal zlen) in En. rewrite zlen_ztake in En; unfold FS_NAME_MAX in *; lia.
      + match goal with Fr : afree _ _ |- _ => destruct Fr as (Rf & _) end.
        rewrite zget_zset_ne in Eb by lia. by apply (Mi j b). }
  destruct (find_by_name_spec _ _ _ nm R1 Pn) as [(Ef & _) | (Ri & (b & Eb & En) & _)]; [done |].
  by destruct (Mi' _ _ Ri Eb).
Qed.

End Proofs.

(** The kernel heap under the table: a 4 KiB arena and an empty table. *)
Definition demo : tmpfs KMALLOC.heap :=
  Tmpfs _ KMALLOC.demo ∅ (zrep TMPFS_MAX (Tmpfile false 0 [] 0 0 0)).

Lemma demo_rep : rep demo (zrep TMPFS_MAX None) [].
Proof.
  apply rep_empty. exists [(4080, true)]. split; [apply KMALLOC.heap_demo_ok |].
  exists []. split; [done | constructor].
Qed.

Lemma tmpfs_refines_witness :
  refines demo (zrep TMPFS_MAX None) [] (OCreate [102; 111; 111]) (op_excl (OCreate [102; 111; 111]))
    (do_op (OCreate [102; 111; 111]) demo).
Proof.
  apply (tmpfs_refines demo (zrep TMPFS_MAX None) [] (OCreate [102; 111; 111])); [exact demo_rep |].
  cbn. repeat constructor.
Defined.

(** A run: create, write five bytes twice across memory, read them back. *)
Definition demo_run : option (list Z) :=
  '(s, i) ← do_op (OCreate [102]) (Tmpfs _ KMALLOC.demo (blit ∅ 100 [1; 2; 3; 4; 5]) (g_tmp demo));
  '(s, _) ← do_op (OWrite i 100 5) s;
  '(s, _) ← do_op (OWrite i 101 2) s;
  '(s, n) ← do_op (ORead i 3 200 9) s;
  Some (n :: load (mem s) 200 (Z.to_nat n)).

Example demo_run_result : demo_run = Some [4; 4; 5; 2; 3].
Proof. vm_compute. reflexivity. Qed.

End TMPFS.
