(* ===== verification/Bcache.v ===== *)
(** The block cache ([kernel/bcache.c]).

    Thirty-two sector buffers over a disk, found by a scan, replaced in
    least-recently-used order kept in a doubly linked list of slots, written
    back on eviction and by the syncer.  The disk driver is an interface; every
    operation runs with the kernel lock held, so it is one step. *)

From stdpp Require Import base numbers list gmap.
From Stdlib Require Import ZArith Lia.
From S2P Require Import Prelude.

(** ** The disk driver

    [ata_read_sector] and [ata_write_sector] ([kernel/ata.h]) return 0 or -1.
    A successful write changes its sector only, a failed one may change it; a
    read changes nothing and returns the sector when it succeeds. *)
Class BlockDev (D : Type) := {
  ata_read_sector : Z -> D -> D * option (list Z);
  ata_write_sector : Z -> list Z -> D -> D * bool
}.

Class BlockDevLaws (D : Type) `{BlockDev D} := {
  sector : D -> Z -> list Z;
  read_sector_spec lba d :
    match ata_read_sector lba d with
    | (d', r) => (forall l, sector d' l = sector d l) /\
                 match r with Some b => b = sector d lba | None => True end
    end;
  write_sector_spec lba b d :
    match ata_write_sector lba b d with
    | (d', ok) => (forall l, l <> lba -> sector d' l = sector d l) /\
                  (ok = true -> sector d' lba = b)
    end
}.

Module BCACHE.

Definition BCACHE_NR : Z := 32.

(** Slot pointers are indices, the null pointer is -1. *)
Definition NULL : Z := -1.

Record bcache_entry := Entry {
  valid : bool;
  dirty : bool;
  lba : Z;
  data : list Z;
  prev : Z;
  next : Z
}.

#[global] Instance entry_inhabited : Inhabited bcache_entry := populate (Entry false false 0 [] NULL NULL).

Definition set_prev (e : bcache_entry) (p : Z) : bcache_entry :=
  Entry (valid e) (dirty e) (lba e) (data e) p (next e).

Definition set_next (e : bcache_entry) (n : Z) : bcache_entry :=
  Entry (valid e) (dirty e) (lba e) (data e) (prev e) n.

Definition set_dirty (e : bcache_entry) (b : bool) : bcache_entry :=
  Entry (valid e) b (lba e) (data e) (prev e) (next e).

Definition set_valid (e : bcache_entry) (b : bool) : bcache_entry :=
  Entry b (dirty e) (lba e) (data e) (prev e) (next e).

Definition set_data (e : bcache_entry) (b : list Z) : bcache_entry :=
  Entry (valid e) (dirty e) (lba e) b (prev e) (next e).

(** [e->lba = l; e->valid = 1; e->dirty = d;] on a slot holding [b]. *)
Definition fill (e : bcache_entry) (l : Z) (d : bool) (b : list Z) : bcache_entry :=
  Entry true d l b (prev e) (next e).

Record bcache := Bcache {
  g_entries : list bcache_entry;
  g_head : Z;
  g_tail : Z;
  g_inited : bool;
  g_hits : Z;
  g_misses : Z;
  g_logical_writes : Z;
  g_disk_writes : Z
}.

Definition ent (c : bcache) (i : Z) : bcache_entry := zget (g_entries c) i.

Definition with_entries (c : bcache) (l : list bcache_entry) : bcache :=
  Bcache l (g_head c) (g_tail c) (g_inited c) (g_hits c) (g_misses c) (g_logical_writes c) (g_disk_writes c).

Definition upd (c : bcache) (i : Z) (f : bcache_entry -> bcache_entry) : bcache :=
  with_entries c (zset (g_entries c) i (f (ent c i))).

Definition with_ends (c : bcache) (h t : Z) : bcache :=
  Bcache (g_entries c) h t (g_inited c) (g_hits c) (g_misses c) (g_logical_writes c) (g_disk_writes c).

Definition add_hits (c : bcache) : bcache :=
  Bcache (g_entries c) (g_head c) (g_tail c) (g_inited c) (u32 (g_hits c + 1)) (g_misses c)
    (g_logical_writes c) (g_disk_writes c).

Definition add_misses (c : bcache) : bcache :=
  Bcache (g_entries c) (g_head c) (g_tail c) (g_inited c) (g_hits c) (u32 (g_misses c + 1))
    (g_logical_writes c) (g_disk_writes c).

Definition add_logical (c : bcache) : bcache :=
  Bcache (g_entries c) (g_head c) (g_tail c) (g_inited c) (g_hits c) (g_misses c)
    (u32 (g_logical_writes c + 1)) (g_disk_writes c).

Definition add_disk (c : bcache) : bcache :=
  Bcache (g_entries c) (g_head c) (g_tail c) (g_inited c) (g_hits c) (g_misses c)
    (g_logical_writes c) (u32 (g_disk_writes c + 1)).

Definition init_entry (i : Z) (e : bcache_entry) : bcache_entry :=
  Entry false false 0 (data e)
    (if 0 <? i then i - 1 else NULL) (if i <? BCACHE_NR - 1 then i + 1 else NULL).

Definition bcache_init (c : bcache) : bcache :=
  let c := zfor (Z.to_nat BCACHE_NR) 0 (fun i c => upd c i (init_entry i)) c in
  Bcache (g_entries c) 0 (BCACHE_NR - 1) true 0 0 0 0.

(** [if (p) p->next = n;] and [if (p) p->prev = n;] *)
Definition next_if (c : bcache) (p n : Z) : bcache :=
  if p =? NULL then c else upd c p (fun e => set_next e n).

Definition prev_if (c : bcache) (p n : Z) : bcache :=
  if p =? NULL then c else upd c p (fun e => set_prev e n).

Definition touch (e : Z) (c : bcache) : bcache :=
  if e =? g_head c then c else
  let c := next_if c (prev (ent c e)) (next (ent c e)) in
  let c := prev_if c (next (ent c e)) (prev (ent c e)) in
  let c := if e =? g_tail c then with_ends c (g_head c) (prev (ent c e)) else c in
  let c := upd c e (fun x => set_prev x NULL) in
  let c := upd c e (fun x => set_next x (g_head c)) in
  let c := prev_if c (g_head c) e in
  let c := with_ends c e (g_tail c) in
  if g_tail c =? NULL then with_ends c (g_head c) e else c.

Definition lookup (l : Z) (c : bcache) : option Z :=
  zfind (Z.to_nat BCACHE_NR) 0 (fun i => valid (ent c i) && (lba (ent c i) =? l)).

Section Disk.
Context {D : Type} `{BlockDev D}.

(** [None] is the null pointer of an empty list. *)
Definition reserve_lru (c : bcache) (d : D) : bcache * D * option Z :=
  let e := g_tail c in
  if e =? NULL then (c, d, None) else
  let '(c, d) :=
    if valid (ent c e) && dirty (ent c e) then
      let '(d, ok) := ata_write_sector (lba (ent c e)) (data (ent c e)) d in
      let c := if ok : bool then add_disk c else c in
      (upd c e (fun x => set_dirty x false), d)
    else (c, d) in
  (upd c e (fun x => set_valid x false), d, Some e).

Definition auto_init (c : bcache) : bcache := if g_inited c then c else bcache_init c.

(** The result is [Some out] for 0 and [None] for -1. *)
Definition bcache_read (l : Z) (c : bcache) (d : D) : bcache * D * option (list Z) :=
  let c := auto_init c in
  match lookup l c with
  | Some e => (add_hits (touch e c), d, Some (data (ent c e)))
  | None =>
      match reserve_lru c d with
      | (c, d, None) => (c, d, None)
      | (c, d, Some e) =>
          match ata_read_sector l d with
          | (d, None) => (c, d, None)
          | (d, Some b) =>
              let c := upd c e (fun x => fill x l false b) in
              (add_misses (touch e c), d, Some b)
          end
      end
  end.

Definition bcache_write (l : Z) (b : list Z) (c : bcache) (d : D) : bcache * D * bool :=
  let c := add_logical (auto_init c) in
  match lookup l c with
  | Some e => (touch e (upd c e (fun x => set_dirty (set_data x b) true)), d, true)
  | None =>
      match reserve_lru c d with
      | (c, d, None) => (c, d, false)
      | (c, d, Some e) => (touch e (upd c e (fun x => fill x l true b)), d, true)
      end
  end.

(** One turn of the loop of [bcache_sync]. *)
Definition sync_slot (i : Z) (s : bcache * D * Z) : bcache * D * Z :=
  let '(c, d, n) := s in
  if valid (ent c i) && dirty (ent c i) then
    let l := lba (ent c i) in
    let buf := data (ent c i) in
    let c := upd c i (fun e => set_dirty e false) in
    match ata_write_sector l buf d with
    | (d, true) => (add_disk c, d, u32 (n + 1))
    | (d, false) =>
        (if valid (ent c i) && (lba (ent c i) =? l) then upd c i (fun e => set_dirty e true) else c, d, n)
    end
  else s.

Definition bcache_sync (c : bcache) (d : D) : bcache * D * Z :=
  zfor (Z.to_nat BCACHE_NR) 0 sync_slot (c, d, 0).

End Disk.

Definition bcache_hits (c : bcache) : Z := g_hits c.

Definition bcache_misses (c : bcache) : Z := g_misses c.

Definition bcache_logical_writes (c : bcache) : Z := g_logical_writes c.

Definition bcache_disk_writes (c : bcache) : Z := g_disk_writes c.

Definition bcache_dirty (c : bcache) : Z :=
  zfor (Z.to_nat BCACHE_NR) 0
    (fun i n => if valid (ent c i) && dirty (ent c i) then u32 (n + 1) else n) 0.

(** ** The list of slots *)

Definition hd_or (nx : Z) (l : list Z) : Z := match l with [] => nx | x :: _ => x end.

Fixpoint last_or (pv : Z) (l : list Z) : Z := match l with [] => pv | x :: l' => last_or x l' end.

(** [l] is linked in order in the table [L], between [pv] and [nx]. *)
Fixpoint seg (L : list bcache_entry) (pv : Z) (l : list Z) (nx : Z) : Prop :=
  match l with
  | [] => True
  | a :: l' => prev (zget L a) = pv /\ next (zget L a) = hd_or nx l' /\ seg L a l' nx
  end.

Definition slots : list Z := seqZ 0 BCACHE_NR.

(** The slots in the order of the list, most recently used first. *)
Record linked (c : bcache) (l : list Z) : Prop := Linked {
  li_len : zlen (g_entries c) = BCACHE_NR;
  li_perm : l ≡ₚ slots;
  li_seg : seg (g_entries c) NULL l NULL;
  li_head : g_head c = hd_or NULL l;
  li_tail : g_tail c = last_or NULL l
}.

Definition lupd (L : list bcache_entry) (i : Z) (f : bcache_entry -> bcache_entry) : list bcache_entry :=
  zset L i (f (zget L i)).

(** Everything in a slot but its links. *)
Definition key (e : bcache_entry) : bool * bool * Z * list Z := (valid e, dirty e, lba e, data e).

Definition same_keys (c c' : bcache) : Prop :=
  forall i, 0 <= i < BCACHE_NR -> key (ent c' i) = key (ent c i).

Lemma hd_or_app nx l1 l2 : hd_or nx (l1 ++ l2) = hd_or (hd_or nx l2) l1.
Proof. by destruct l1. Qed.

Lemma last_or_app pv l1 l2 : last_or pv (l1 ++ l2) = last_or (last_or pv l1) l2.
Proof. revert pv. induction l1 as [|x l1 IH]; intros pv; cbn [app last_or]; auto. Qed.

Lemma seg_app_iff L pv l1 l2 nx :
  seg L pv (l1 ++ l2) nx <-> seg L pv l1 (hd_or nx l2) /\ seg L (last_or pv l1) l2 nx.
Proof.
  revert pv. induction l1 as [|a l1 IH]; intros pv; cbn [app seg last_or]; [tauto |].
  rewrite IH, hd_or_app. tauto.
Qed.

Lemma slot_range l x : l ≡ₚ slots -> x ∈ l <-> 0 <= x < BCACHE_NR.
Proof. intros P. rewrite P. unfold slots. rewrite elem_of_seqZ. unfold BCACHE_NR. lia. Qed.

Lemma slots_NoDup l : l ≡ₚ slots -> NoDup l.
Proof. intros P. rewrite P. apply NoDup_seqZ. Qed.

Lemma zget_lupd L i f j :
  0 <= i < zlen L -> 0 <= j -> zget (lupd L i f) j = if decide (j = i) then f (zget L j) else zget L j.
Proof.
  intros R J. unfold lupd. destruct (decide (j = i)) as [-> | Ne]; [by apply zget_zset_eq |].
  apply zget_zset_ne; lia.
Qed.

(** Updates outside a segment keep it. *)
Lemma seg_upd L pv l nx i f :
  0 <= i < zlen L -> Forall (Z.le 0) l -> i ∉ l -> seg L pv l nx -> seg (lupd L i f) pv l nx.
Proof.
  intros R. revert pv. induction l as [|a l IH]; intros pv P N; cbn [seg]; [done |].
  apply Forall_cons in P as (Pa & P). rewrite not_elem_of_cons in N. destruct N as (Na & N).
  rewrite zget_lupd, decide_False by (done || congruence). intros (E1 & E2 & S). auto.
Qed.

(** Redirecting the end of a segment. *)
Lemma seg_set_last L pv l p nx nx' :
  0 <= p < zlen L -> Forall (Z.le 0) l -> p ∉ l -> seg L pv (l ++ [p]) nx ->
  seg (lupd L p (fun e => set_next e nx')) pv (l ++ [p]) nx'.
Proof.
  intros R P N. rewrite !seg_app_iff. intros (S1 & S2 & _ & _). split; [by apply seg_upd |].
  cbn [seg]. rewrite zget_lupd, decide_True by lia. done.
Qed.

(** Redirecting its start. *)
Lemma seg_set_first L pv pv' x l nx :
  0 <= x < zlen L -> Forall (Z.le 0) l -> x ∉ l -> seg L pv (x :: l) nx ->
  seg (lupd L x (fun e => set_prev e pv')) pv' (x :: l) nx.
Proof.
  intros R P N. cbn [seg]. intros (_ & E & S). rewrite zget_lupd, decide_True by lia.
  split_and!; [done | done | by apply seg_upd].
Qed.

Lemma lupd_len L i f : zlen (lupd L i f) = zlen L.
Proof. apply zlen_zset. Qed.

Lemma next_if_entries c p n :
  g_entries (next_if c p n) = if p =? NULL then g_entries c else lupd (g_entries c) p (fun e => set_next e n).
Proof. unfold next_if. by destruct (p =? NULL). Qed.

Lemma prev_if_entries c p n :
  g_entries (prev_if c p n) = if p =? NULL then g_entries c else lupd (g_entries c) p (fun e => set_prev e n).
Proof. unfold prev_if. by destruct (p =? NULL). Qed.

Lemma key_next_if c p n i : 0 <= i -> p = NULL \/ 0 <= p < zlen (g_entries c) ->
  key (ent (next_if c p n) i) = key (ent c i) /\ prev (ent (next_if c p n) i) = prev (ent c i).
Proof.
  intros I P. unfold ent. rewrite next_if_entries. destruct (p =? NULL) eqn:E; zb; [done |].
  rewrite zget_lupd by lia. by case_decide.
Qed.

Lemma key_prev_if c p n i : 0 <= i -> p = NULL \/ 0 <= p < zlen (g_entries c) ->
  key (ent (prev_if c p n) i) = key (ent c i) /\ next (ent (prev_if c p n) i) = next (ent c i).
Proof.
  intros I P. unfold ent. rewrite prev_if_entries. destruct (p =? NULL) eqn:E; zb; [done |].
  rewrite zget_lupd by lia. by case_decide.
Qed.

Definition frame_counters (c c' : bcache) : Prop :=
  g_inited c' = g_inited c /\ g_hits c' = g_hits c /\ g_misses c' = g_misses c /\
  g_logical_writes c' = g_logical_writes c /\ g_disk_writes c' = g_disk_writes c.

Lemma ent_next_if c p n j :
  0 <= j -> j <> p -> p = NULL \/ 0 <= p < zlen (g_entries c) -> ent (next_if c p n) j = ent c j.
Proof.
  intros J Ne P. unfold ent. rewrite next_if_entries. destruct (p =? NULL) eqn:E; zb; [done |].
  by rewrite zget_lupd, decide_False by lia.
Qed.

Lemma ent_prev_if c p n j :
  0 <= j -> j <> p -> p = NULL \/ 0 <= p < zlen (g_entries c) -> ent (prev_if c p n) j = ent c j.
Proof.
  intros J Ne P. unfold ent. rewrite prev_if_entries. destruct (p =? NULL) eqn:E; zb; [done |].
  by rewrite zget_lupd, decide_False by lia.
Qed.

(** The five link updates of [touch] when the slot is not at the front. *)
Definition touched (L : list bcache_entry) (p e nx h : Z) : list bcache_entry :=
  let L := lupd L p (fun x => set_next x nx) in
  let L := if nx =? NULL then L else lupd L nx (fun x => set_prev x p) in
  let L := lupd L e (fun x => set_prev x NULL) in
  let L := lupd L e (fun x => set_next x h) in
  lupd L h (fun x => set_prev x e).

Lemma touch_eq c e p nx h :
  prev (ent c e) = p -> next (ent c e) = nx -> g_head c = h -> 0 <= e < zlen (g_entries c) ->
  0 <= p < zlen (g_entries c) -> nx = NULL \/ 0 <= nx < zlen (g_entries c) ->
  0 <= h < zlen (g_entries c) -> e <> h -> e <> p -> e <> nx -> 0 <= g_tail c ->
  touch e c = with_ends (with_entries c (touched (g_entries c) p e nx h)) e
                (if e =? g_tail c then p else g_tail c).
Proof.
  intros Ep En Eh Re Rp Rn Rh Nh Np Nn Tl. unfold touch. rewrite Eh, (proj2 (Z.eqb_neq e h)), Ep, En by done.
  assert (Rp' : p = NULL \/ 0 <= p < zlen (g_entries c)) by (right; lia).
  set (c1 := next_if c p nx).
  assert (E1 : ent c1 e = ent c e) by (apply ent_next_if; lia).
  assert (L1 : zlen (g_entries c1) = zlen (g_entries c)).
  { unfold c1. rewrite next_if_entries. destruct (p =? NULL); [done | apply lupd_len]. }
  rewrite E1, Ep, En. set (c2 := prev_if c1 nx p).
  assert (E2 : ent c2 e = ent c e) by (rewrite <- E1; apply ent_prev_if; rewrite ?L1; lia).
  assert (T2 : g_tail c2 = g_tail c /\ g_head c2 = h).
  { unfold c2, c1, prev_if, next_if. rewrite <- Eh. by repeat case_match. }
  destruct T2 as (T2 & H2). rewrite E2, Ep, T2.
  assert (G2 : g_entries c2 = if nx =? NULL then lupd (g_entries c) p (fun x => set_next x nx)
    else lupd (lupd (g_entries c) p (fun x => set_next x nx)) nx (fun x => set_prev x p)).
  { unfold c2, c1. rewrite prev_if_entries, next_if_entries. rewrite (proj2 (Z.eqb_neq p NULL)); [done |].
    unfold NULL. lia. }
  assert (F2 : g_inited c2 = g_inited c /\ g_hits c2 = g_hits c /\ g_misses c2 = g_misses c /\
    g_logical_writes c2 = g_logical_writes c /\ g_disk_writes c2 = g_disk_writes c).
  { unfold c2, c1, prev_if, next_if. by repeat case_match. }
  set (t := if e =? g_tail c then p else g_tail c).
  assert (E3 : (if e =? g_tail c then with_ends c2 (g_head c2) p else c2) = with_ends c2 h t).
  { unfold t. rewrite <- H2. destruct (e =? g_tail c); [done |]. rewrite <- T2. by destruct c2. }
  rewrite E3. unfold prev_if. cbn [g_head with_ends upd with_entries].
  rewrite (proj2 (Z.eqb_neq h NULL)) by (unfold NULL; lia).
  cbn [g_tail with_ends upd with_entries].
  rewrite (proj2 (Z.eqb_neq t NULL)) by (unfold t, NULL; cases; lia).
  unfold touched. rewrite <- G2.
  unfold with_ends, with_entries, upd.
  cbn [g_entries g_inited g_hits g_misses g_logical_writes g_disk_writes].
  destruct F2 as (-> & -> & -> & -> & ->). done.
Qed.

Lemma touched_keys L p e nx h i :
  0 <= i < zlen L -> 0 <= p < zlen L -> 0 <= e < zlen L -> nx = NULL \/ 0 <= nx < zlen L -> 0 <= h < zlen L ->
  key (zget (touched L p e nx h) i) = key (zget L i) /\ zlen (touched L p e nx h) = zlen L.
Proof.
  intros I P E N Hh. unfold touched. destruct (nx =? NULL) eqn:En; zb;
    (split; [| by rewrite !lupd_len]);
    repeat (rewrite zget_lupd by (rewrite ?lupd_len; lia)); by repeat case_decide.
Qed.

(** The links after the five updates. *)
Lemma touched_seg L l0 p e l2 :
  seg L NULL (l0 ++ [p]) e -> seg L e l2 NULL -> NoDup (l0 ++ [p]) -> NoDup l2 ->
  (forall x, x ∈ l0 ++ [p] -> x ∉ l2) -> e ∉ l0 ++ [p] -> e ∉ l2 ->
  (forall x, x ∈ l0 ++ [p] \/ x = e \/ x ∈ l2 -> 0 <= x < zlen L) ->
  seg (touched L p e (hd_or NULL l2) (hd_or NULL (l0 ++ [p]))) NULL (e :: (l0 ++ [p]) ++ l2) NULL.
Proof.
  intros S1 S2 N1 N2 D E1 E2 Rg. set (h := hd_or NULL (l0 ++ [p])). set (nx := hd_or NULL l2).
  assert (P1 : Forall (Z.le 0) (l0 ++ [p])) by (apply Forall_forall; intros x Hx; apply Rg; auto).
  assert (P2 : Forall (Z.le 0) l2) by (apply Forall_forall; intros x Hx; apply Rg; auto).
  assert (Hp : p ∈ l0 ++ [p]) by (apply elem_of_app; right; by left).
  assert (Hh : h ∈ l0 ++ [p]) by (unfold h; destruct l0; by left).
  assert (Re := Rg e ltac:(auto)). assert (Rp := Rg p ltac:(auto)). assert (Rh := Rg h ltac:(auto)).
  set (L1 := lupd L p (fun x => set_next x nx)).
  set (L2 := if nx =? NULL then L1 else lupd L1 nx (fun x => set_prev x p)).
  assert (Rn : nx = NULL /\ l2 = [] \/ (nx =? NULL) = false /\ nx ∈ l2 /\ 0 <= nx < zlen L).
  { unfold nx. destruct l2 as [|y l2]; [by left |]. right. assert (0 <= y < zlen L) by (apply Rg; right; right; left).
    cbn [hd_or]. split_and!; [apply Z.eqb_neq; unfold NULL; lia | by left | lia | lia]. }
  assert (A2 : zlen L2 = zlen L) by (unfold L2, L1; case_match; by rewrite ?lupd_len).
  assert (SA : seg L2 NULL (l0 ++ [p]) nx).
  { assert (Np : p ∉ l0) by (apply NoDup_app in N1 as (_ & Dp & _); intros Hx; apply (Dp _ Hx); by left).
    assert (SA : seg L1 NULL (l0 ++ [p]) nx) by (apply (seg_set_last L NULL l0 p e); [lia | by apply Forall_app in P1 as [? _] | done | done]).
    unfold L2. destruct Rn as [(E & _) | (-> & Nx & Rn)]; [by rewrite (proj2 (Z.eqb_eq nx NULL) E) |].
    apply seg_upd; [unfold L1; rewrite lupd_len; lia | done | intros Hx; by apply (D _ Hx) | done]. }
  assert (SB : seg L2 p l2 NULL).
  { assert (SB : seg L1 e l2 NULL) by (apply seg_upd; [lia | done | by apply D | done]).
    unfold L2. destruct Rn as [(_ & ->) | (-> & Nx & Rn)]; [done |]. unfold nx in *. destruct l2 as [|y l2]; [done |].
    apply NoDup_cons in N2 as (Ny & _). apply Forall_cons in P2 as (_ & P2).
    by apply (seg_set_first L1 e p y); [unfold L1; rewrite lupd_len | | |]. }
  change (touched L p e nx h) with (lupd (lupd (lupd L2 e (fun x => set_prev x NULL)) e (fun x => set_next x h)) h (fun x => set_prev x e)).
  assert (Neh : e <> h) by (by intros ->).
  cbn [seg]. rewrite !zget_lupd by (rewrite ?lupd_len; lia).
  rewrite (decide_False (P := e = h)), !decide_True by done. split_and!; [done | by rewrite hd_or_app; unfold h; destruct l0 |].
  rewrite seg_app_iff, last_or_app. cbn [last_or]. fold nx. split.
  - assert (exists tl, l0 ++ [p] = h :: tl) as (tl & Et) by (unfold h; destruct l0; eauto).
    rewrite Et in *. apply NoDup_cons in N1 as (Nh & _). apply Forall_cons in P1 as (Ph & P1).
    apply (seg_set_first _ NULL); [rewrite !lupd_len, A2; lia | done | done |].
    do 2 (apply seg_upd; [rewrite ?lupd_len, A2; lia | by constructor | done |]). done.
  - do 3 (apply seg_upd; [rewrite ?lupd_len, A2; lia | done | first [done | by apply D] |]). done.
Qed.

(** [touch] moves a slot to the front and changes nothing but links. *)
Lemma touch_linked c l1 e l2 :
  linked c (l1 ++ e :: l2) ->
  linked (touch e c) (e :: l1 ++ l2) /\ same_keys c (touch e c) /\ frame_counters c (touch e c).
Proof.
  intros Li. pose proof (slots_NoDup _ (li_perm _ _ Li)) as ND.
  assert (Rg : forall x, x ∈ l1 ++ e :: l2 -> 0 <= x < zlen (g_entries c)).
  { intros x Hx. rewrite (li_len _ _ Li). by apply (slot_range _ _ (li_perm _ _ Li)). }
  pose proof (li_seg _ _ Li) as S. pose proof (li_head _ _ Li) as Hd. pose proof (li_tail _ _ Li) as Tl.
  destruct l1 as [|p l0 _] using rev_ind.
  { unfold touch. rewrite Hd. cbn [app hd_or]. rewrite Z.eqb_refl. done. }
  set (h := hd_or NULL (l0 ++ [p])). set (nx := hd_or NULL l2).
  rewrite seg_app_iff in S. destruct S as (S1 & S2). cbn [hd_or] in S1.
  rewrite last_or_app in S2. cbn [last_or seg] in S2. destruct S2 as (Ep & En & S2).
  assert (Hh : h ∈ l0 ++ [p]) by (unfold h; destruct l0; cbn; left).
  apply NoDup_app in ND as (ND1 & Dis & ND2). apply NoDup_cons in ND2 as (Ne2 & ND2).
  assert (Hp : p ∈ l0 ++ [p]) by (apply elem_of_app; right; by left).
  assert (Neh : e <> h) by (intros ->; apply (Dis _ Hh); by left).
  assert (Nep : e <> p) by (intros ->; apply (Dis _ Hp); by left).
  assert (Nx : nx = NULL /\ l2 = [] \/ nx ∈ l2) by (unfold nx; destruct l2; [by left | right; by left]).
  assert (Rn : nx = NULL \/ 0 <= nx < zlen (g_entries c)).
  { destruct Nx as [[-> _] | Nx]; [by left |]. right. apply Rg, elem_of_app. right. by right. }
  assert (Re : 0 <= e < zlen (g_entries c)) by (apply Rg, elem_of_app; right; by left).
  assert (Rp : 0 <= p < zlen (g_entries c)) by (apply Rg, elem_of_app; by left).
  assert (Rh : 0 <= h < zlen (g_entries c)) by (apply Rg, elem_of_app; by left).
  assert (Nen : e <> nx).
  { intros <-. destruct Nx as [[E _] | Nx]; [rewrite E in Re; unfold NULL in Re; lia | done]. }
  rewrite last_or_app in Tl. cbn [last_or] in Tl.
  assert (Rt : 0 <= g_tail c /\ (e =? g_tail c) = bool_decide (l2 = []) /\ (l2 <> [] -> g_tail c = last_or p l2)).
  { rewrite Tl. destruct l2 as [|y l2] using rev_ind; [cbn [last_or]; split_and!; [lia | apply Z.eqb_refl | done] |].
    rewrite !last_or_app. cbn [last_or]. rewrite bool_decide_eq_false_2 by (by destruct l2).
    assert (y ∈ l2 ++ [y]) by (apply elem_of_app; right; by left).
    split_and!; [apply Rg, elem_of_app; right; by right | | done]. apply Z.eqb_neq. by intros ->. }
  destruct Rt as (Rt & Et & Rl).
  assert (Hc : g_head c = h) by (rewrite Hd, hd_or_app; cbn [hd_or]; unfold h; by destruct l0).
  rewrite (touch_eq c e p nx h Ep En Hc Re Rp Rn Rh Neh Nep Nen Rt).
  assert (K := fun i Ri => touched_keys (g_entries c) p e nx h i Ri Rp Re Rn Rh).
  split; [| split; [| done]].
  2: { intros i Ri. unfold ent. cbn [g_entries with_ends with_entries]. apply K. rewrite (li_len _ _ Li). done. }
  assert (P1 : Forall (Z.le 0) (l0 ++ [p])).
  { apply Forall_forall. intros x Hx. apply Rg, elem_of_app. by left. }
  assert (P2 : Forall (Z.le 0) l2).
  { apply Forall_forall. intros x Hx. apply Rg, elem_of_app. right. by right. }
  assert (D2 : forall x, x ∈ l0 ++ [p] -> x ∉ l2) by (intros x Hx Hy; apply (Dis _ Hx); by right).
  split; cbn [g_entries g_head g_tail with_ends with_entries].
  - rewrite (proj2 (K 0 ltac:(lia))). apply Li.
  - rewrite <- (li_perm _ _ Li). apply Permutation_middle.
  - apply touched_seg; try done.
    + intros Hx. apply (Dis _ Hx). by left.
    + intros x [Hx | [-> | Hx]]; [apply Rg, elem_of_app; by left | done | apply Rg, elem_of_app; right; by right].
  - done.
  - cbn [last_or]. rewrite last_or_app, last_or_app. cbn [last_or]. rewrite Et.
    case_bool_decide as E2; [by rewrite E2 | by apply Rl].
Qed.

(** ** The invariant and the cached view of the disk *)

Section Cache.
Context {D : Type} `{DL : BlockDevLaws D}.
Implicit Types (c : bcache) (d : D) (l : list Z) (x : Z).

Record cache_ok c d l : Prop := CacheOk {
  co_list : linked c l;
  co_inj : forall i j, 0 <= i < BCACHE_NR -> 0 <= j < BCACHE_NR ->
    valid (ent c i) = true -> valid (ent c j) = true -> lba (ent c i) = lba (ent c j) -> i = j;
  co_clean : forall i, 0 <= i < BCACHE_NR -> valid (ent c i) = true -> dirty (ent c i) = false ->
    data (ent c i) = sector d (lba (ent c i));
  co_init : g_inited c = true
}.

(** The sector as readers of the cache see it. *)
Definition view c d x : list Z :=
  match lookup x c with Some i => data (ent c i) | None => sector d x end.

Lemma lookup_Some x c i :
  lookup x c = Some i -> 0 <= i < BCACHE_NR /\ valid (ent c i) = true /\ lba (ent c i) = x.
Proof.
  intros E. destruct (zfind_Some _ _ _ _ E) as (R & T & _). rewrite Z2Nat.id in R by done.
  zb. split_and!; [lia | lia | done | done].
Qed.

Lemma lookup_None x c :
  lookup x c = None -> forall i, 0 <= i < BCACHE_NR -> valid (ent c i) = true -> lba (ent c i) <> x.
Proof.
  unfold lookup. rewrite zfind_None. intros F i R V E. specialize (F i ltac:(rewrite Z2Nat.id by done; lia)).
  rewrite V, (proj2 (Z.eqb_eq _ _) E) in F. done.
Qed.

Lemma lookup_valid x c d l i :
  cache_ok c d l -> 0 <= i < BCACHE_NR -> valid (ent c i) = true -> lba (ent c i) = x -> lookup x c = Some i.
Proof.
  intros O R V E. destruct (lookup x c) as [j|] eqn:L.
  - destruct (lookup_Some _ _ _ L) as (Rj & Vj & Ej). f_equal. eapply co_inj; try done. congruence.
  - by destruct (lookup_None _ _ L i R V).
Qed.

Lemma view_valid c d l i : cache_ok c d l -> 0 <= i < BCACHE_NR -> valid (ent c i) = true ->
  view c d (lba (ent c i)) = data (ent c i).
Proof. intros O R V. unfold view. by rewrite (lookup_valid _ c d l i). Qed.

Lemma view_none c d x :
  (forall i, 0 <= i < BCACHE_NR -> valid (ent c i) = true -> lba (ent c i) <> x) -> view c d x = sector d x.
Proof.
  intros F. unfold view. destruct (lookup x c) as [i|] eqn:L; [| done].
  destruct (lookup_Some _ _ _ L) as (R & V & E). by destruct (F i R V).
Qed.

Lemma key_fields e e' : key e' = key e -> valid e' = valid e /\ dirty e' = dirty e /\ lba e' = lba e /\ data e' = data e.
Proof. unfold key. by injection 1. Qed.

Lemma cache_ok_keys c c' d l l' :
  cache_ok c d l -> linked c' l' -> same_keys c c' -> g_inited c' = g_inited c ->
  cache_ok c' d l' /\ forall x, view c' d x = view c d x.
Proof.
  intros O Li K I. assert (F := fun i Ri => key_fields _ _ (K i Ri)).
  assert (Lk : forall x, lookup x c' = lookup x c).
  { intros x. unfold lookup. apply zfind_ext. intros i Ri. rewrite Z2Nat.id in Ri by done.
    destruct (F i Ri) as (-> & _ & -> & _). done. }
  split; [split; try done|].
  - intros i j Ri Rj. destruct (F i Ri) as (-> & _ & -> & _). destruct (F j Rj) as (-> & _ & -> & _).
    by apply (co_inj _ _ _ O).
  - intros i Ri. destruct (F i Ri) as (-> & -> & -> & ->). by apply (co_clean _ _ _ O).
  - rewrite I. apply O.
  - intros x. unfold view. rewrite Lk. destruct (lookup x c) as [i|] eqn:E; [| done].
    destruct (lookup_Some _ _ _ E) as (Ri & _). by destruct (F i Ri) as (_ & _ & _ & ->).
Qed.

Lemma touch_ok c d l e :
  cache_ok c d l -> 0 <= e < BCACHE_NR -> exists l', cache_ok (touch e c) d l' /\
    (forall x, view (touch e c) d x = view c d x) /\ same_keys c (touch e c) /\ frame_counters c (touch e c) /\
    exists l1 l2, l = l1 ++ e :: l2 /\ l' = e :: l1 ++ l2.
Proof.
  intros O R. pose proof (co_list _ _ _ O) as Li.
  assert (In : e ∈ l) by (by apply (slot_range _ _ (li_perm _ _ Li))).
  apply list_elem_of_split in In as (l1 & l2 & ->). exists (e :: l1 ++ l2).
  destruct (touch_linked c l1 e l2 Li) as (Li' & K & F).
  destruct (cache_ok_keys _ _ _ _ _ O Li' K (proj1 F)) as (O' & V). split_and!; try done. by exists l1, l2.
Qed.

(** Slot updates that keep the links. *)
Lemma linked_upd c l i f :
  linked c l -> 0 <= i < BCACHE_NR -> (forall e, prev (f e) = prev e /\ next (f e) = next e) ->
  linked (upd c i f) l.
Proof.
  intros Li R F. pose proof (li_len _ _ Li) as L.
  assert (G : forall pv nx l0, Forall (Z.le 0) l0 -> seg (g_entries c) pv l0 nx -> seg (g_entries (upd c i f)) pv l0 nx).
  { intros pv nx l0. revert pv. induction l0 as [|a l0 IH]; intros pv P; cbn [seg]; [done |].
    apply Forall_cons in P as (Pa & P). intros (E1 & E2 & S).
    change (g_entries (upd c i f)) with (lupd (g_entries c) i f) in *.
    rewrite !zget_lupd by lia. destruct (F (zget (g_entries c) a)) as (F1 & F2).
    case_decide; [rewrite F1, F2 |]; auto. }
  split; try apply Li.
  - cbn. by rewrite zlen_zset.
  - apply G; [| apply Li]. apply Forall_forall. intros x Hx. by apply (slot_range _ _ (li_perm _ _ Li)).
Qed.

Lemma ent_upd c l i f j :
  linked c l -> 0 <= i < BCACHE_NR -> 0 <= j -> ent (upd c i f) j = if decide (j = i) then f (ent c j) else ent c j.
Proof.
  intros Li R J. unfold ent. change (g_entries (upd c i f)) with (lupd (g_entries c) i f).
  apply zget_lupd; [rewrite (li_len _ _ Li); lia | done].
Qed.

(** The sector whose only copy an eviction throws away: the write-back failed. *)
Definition lost c d : option Z :=
  let e := ent c (g_tail c) in
  if valid e && dirty e && negb (snd (ata_write_sector (lba e) (data e) d)) then Some (lba e) else None.

Lemma tail_slot c l : linked c l -> 0 <= g_tail c < BCACHE_NR /\ exists l1, l = l1 ++ [g_tail c].
Proof.
  intros Li. pose proof (li_perm _ _ Li) as P. destruct l as [|e l1 _] using rev_ind.
  - apply Permutation_nil in P. by vm_compute in P.
  - pose proof (li_tail _ _ Li) as T. rewrite last_or_app in T. cbn [last_or] in T.
    rewrite T. split; [| by exists l1]. apply (slot_range _ _ P), elem_of_app. right. by left.
Qed.

Lemma dev_write b buf d d' ok : ata_write_sector b buf d = (d', ok) ->
  (forall x, x <> b -> sector d' x = sector d x) /\ (ok = true -> sector d' b = buf).
Proof. intros E. pose proof (write_sector_spec b buf d) as W. by rewrite E in W. Qed.

(** Dropping a slot whose contents the disk has. *)
Lemma drop_ok c d d' l e f :
  cache_ok c d l -> 0 <= e < BCACHE_NR ->
  (forall y, prev (f y) = prev y /\ next (f y) = next y /\ valid (f y) = false) ->
  (forall x, (valid (ent c e) = true -> x <> lba (ent c e)) -> sector d' x = sector d x) ->
  cache_ok (upd c e f) d' l /\
  (forall x, (valid (ent c e) = true -> x = lba (ent c e) -> sector d' x = view c d x) ->
     view (upd c e f) d' x = view c d x).
Proof.
  intros O R F S. pose proof (co_list _ _ _ O) as Li.
  assert (Li' : linked (upd c e f) l) by (apply linked_upd; [done | done | intros; by destruct (F e0) as (? & ? & _)]).
  assert (E := fun i (Ri : 0 <= i) => ent_upd c l e f i Li R Ri).
  assert (V : forall i, 0 <= i < BCACHE_NR -> valid (ent (upd c e f) i) = true -> i <> e /\ ent (upd c e f) i = ent c i).
  { intros i Ri. rewrite E by lia. case_decide; [| done]. by destruct (F (ent c i)) as (_ & _ & ->). }
  assert (O' : cache_ok (upd c e f) d' l).
  { split; [done | | | apply O].
    - intros i j Ri Rj Vi Vj. destruct (V i Ri Vi) as (_ & Ei). destruct (V j Rj Vj) as (_ & Ej).
      rewrite Ei, Ej in *. by apply (co_inj _ _ _ O).
    - intros i Ri Vi. destruct (V i Ri Vi) as (Ne & Ei). rewrite Ei in *. intros Dc.
      rewrite S; [by apply (co_clean _ _ _ O) |]. intros Ve Eq. apply Ne. by apply (co_inj _ _ _ O). }
  split; [done |]. intros x Hx. unfold view at 1. destruct (lookup x (upd c e f)) as [i|] eqn:L.
  - destruct (lookup_Some _ _ _ L) as (Ri & Vi & <-). destruct (V i Ri Vi) as (_ & Ei). rewrite Ei in *.
    symmetry. by apply (view_valid _ _ l).
  - destruct (decide (valid (ent c e) = true /\ x = lba (ent c e))) as [(Ve & Ex) | N]; [by apply Hx |].
    rewrite S by (intros Ve Ex; by apply N). symmetry. apply view_none. intros i Ri Vi Ei.
    assert (Ne : i <> e) by (intros ->; by apply N).
    apply (lookup_None _ _ L i Ri); rewrite E, decide_False by (lia || done); done.
Qed.

Lemma reserve_ok c d l c' d' r :
  cache_ok c d l -> reserve_lru c d = (c', d', r) ->
  r = Some (g_tail c) /\ cache_ok c' d' l /\ valid (ent c' (g_tail c)) = false /\
  (forall i, 0 <= i < BCACHE_NR -> i <> g_tail c -> ent c' i = ent c i) /\
  (forall x, lost c d <> Some x -> view c' d' x = view c d x) /\
  g_tail c' = g_tail c /\ g_head c' = g_head c /\
  g_logical_writes c' = g_logical_writes c /\ g_hits c' = g_hits c /\ g_misses c' = g_misses c.
Proof.
  intros O E. pose proof (co_list _ _ _ O) as Li. destruct (tail_slot _ _ Li) as (Rt & _).
  unfold reserve_lru in E. unfold lost. set (e := g_tail c) in *.
  rewrite (proj2 (Z.eqb_neq e NULL)) in E by (unfold NULL; lia).
  destruct (valid (ent c e) && dirty (ent c e)) eqn:VD.
  - destruct (ata_write_sector (lba (ent c e)) (data (ent c e)) d) as [d1 ok] eqn:W. injection E as <- <- <-.
    zb. destruct (dev_write _ _ _ _ _ W) as (W1 & W2). cbn [andb snd].
    set (c1 := if ok then add_disk c else c).
    assert (X : upd (upd c1 e (fun y => set_dirty y false)) e (fun y => set_valid y false) =
      (if ok then add_disk else id) (upd c e (fun y => set_valid (set_dirty y false) false))).
    { assert (A : ent (upd c1 e (fun y => set_dirty y false)) e = set_dirty (ent c e) false).
      { unfold c1. destruct ok; (erewrite ent_upd; [| | done | lia]); [by rewrite decide_True by done | | by rewrite decide_True by done | exact Li].
        split; apply Li. }
      unfold upd at 1. rewrite A. unfold c1. destruct ok; unfold upd, with_entries, add_disk; cbn [g_entries];
        by rewrite zset_zset. }
    rewrite X. assert (Y : forall i, ent ((if ok then add_disk else id) (upd c e (fun y => set_valid (set_dirty y false) false))) i =
      ent (upd c e (fun y => set_valid (set_dirty y false) false)) i) by (by destruct ok).
    destruct (drop_ok c d d1 l e (fun y => set_valid (set_dirty y false) false) O Rt) as (O' & V').
    { done. }
    { intros x Hx. apply W1. auto. }
    set (c2 := upd c e (fun y => set_valid (set_dirty y false) false)) in *.
    split_and!; [done | | | | | by destruct ok..].
    + destruct ok; [| exact O']. destruct O' as [L1 I1 C1 J1]. split; [| done | done | done]. split; apply L1.
    + rewrite Y. unfold c2. erewrite ent_upd by (done || lia). by rewrite decide_True.
    + intros i Ri Ne. rewrite Y. unfold c2. erewrite ent_upd by (done || lia). by rewrite decide_False.
    + intros x Hx. transitivity (view c2 d1 x); [by destruct ok |]. apply V'. intros Ve ->.
      destruct ok; [| done]. rewrite W2 by done. symmetry. by apply (view_valid _ _ l).
  - injection E as <- <- <-. cbn [andb].
    destruct (drop_ok c d d l e (fun y => set_valid y false) O Rt) as (O' & V'); [done | done |].
    split_and!; try done.
    + erewrite ent_upd by (done || lia). by rewrite decide_True.
    + intros i Ri Ne. erewrite ent_upd by (done || lia). by rewrite decide_False.
    + intros x _. apply V'. intros Ve ->. rewrite Ve in VD. cbn in VD.
      rewrite (view_valid _ _ l) by done. symmetry. by apply (co_clean _ _ _ O).
Qed.

(** Putting sector [x] with contents [b] in slot [e], either already its slot or a free one. *)
Lemma put_ok c d l e f x b :
  cache_ok c d l -> 0 <= e < BCACHE_NR ->
  (forall y, prev (f y) = prev y /\ next (f y) = next y) ->
  valid (f (ent c e)) = true -> lba (f (ent c e)) = x -> data (f (ent c e)) = b ->
  (dirty (f (ent c e)) = false -> b = sector d x) ->
  (valid (ent c e) = true -> lba (ent c e) = x) ->
  (forall i, 0 <= i < BCACHE_NR -> i <> e -> valid (ent c i) = true -> lba (ent c i) <> x) ->
  cache_ok (upd c e f) d l /\
  (forall y, view (upd c e f) d y = if decide (y = x) then b else view c d y).
Proof.
  intros O R Fl Fv Fx Fb Cl Own Oth. pose proof (co_list _ _ _ O) as Li.
  assert (E := fun i (Ri : 0 <= i) => ent_upd c l e f i Li R Ri).
  assert (O' : cache_ok (upd c e f) d l).
  { split; [by apply linked_upd | | | apply O].
    - intros i j Ri Rj. rewrite !E by lia. intros Vi Vj Q. repeat case_decide; subst; try done.
      + by destruct (Oth j Rj).
      + by destruct (Oth i Ri).
      + by apply (co_inj _ _ _ O).
    - intros i Ri. rewrite E by lia. case_decide; [subst; intros _ Dc; by apply Cl |]. by apply (co_clean _ _ _ O). }
  split; [done |]. intros y. unfold view at 1.
  destruct (lookup y (upd c e f)) as [i|] eqn:L.
  - destruct (lookup_Some _ _ _ L) as (Ri & Vi & <-). rewrite E in Vi |- * by lia.
    destruct (decide (i = e)) as [-> | Ne]; [by rewrite decide_True |].
    rewrite decide_False by (by apply Oth). symmetry. by apply (view_valid _ _ l).
  - assert (N : y <> x).
    { intros ->. apply (lookup_None _ _ L e R); rewrite E, decide_True by (lia || done); done. }
    rewrite decide_False by done. symmetry. apply view_none. intros i Ri Vi Ei.
    assert (Ne : i <> e) by (intros ->; apply N; rewrite <- Ei; by apply Own).
    apply (lookup_None _ _ L i Ri); rewrite E, decide_False by (lia || done); done.
Qed.

Lemma counters_ok c c' d l :
  cache_ok c d l -> g_entries c' = g_entries c -> g_head c' = g_head c -> g_tail c' = g_tail c ->
  g_inited c' = g_inited c -> cache_ok c' d l /\ forall x, view c' d x = view c d x.
Proof.
  intros O E1 E2 E3 E4. apply (cache_ok_keys c c' d l l); [done | | | done].
  - destruct (co_list _ _ _ O). split; congruence.
  - intros i Ri. unfold ent. by rewrite E1.
Qed.

(** The eviction of a read or write of [x] can lose a sector only when [x] is a miss. *)
Definition lost_by x c d : option Z := match lookup x c with Some _ => None | None => lost c d end.

Lemma lost_ne x c d l : cache_ok c d l -> lost_by x c d <> Some x.
Proof.
  intros O. unfold lost_by, lost. destruct (lookup x c) as [|] eqn:L; [done |].
  destruct (tail_slot _ _ (co_list _ _ _ O)) as (R & _). destruct (_ && _) eqn:V; [| done]. zb.
  intros Q. injection Q as Q. by apply (lookup_None _ _ L _ R).
Qed.

Lemma dev_read b d d' r : ata_read_sector b d = (d', r) ->
  (forall x, sector d' x = sector d x) /\ (forall buf, r = Some buf -> buf = sector d b).
Proof.
  intros E. pose proof (read_sector_spec b d) as W. rewrite E in W. destruct W as (W1 & W2).
  split; [done |]. by intros buf ->.
Qed.

Lemma cache_ok_disk c d d' l : cache_ok c d l -> (forall x, sector d' x = sector d x) ->
  cache_ok c d' l /\ forall x, view c d' x = view c d x.
Proof.
  intros [L I C J] E. split; [split; try done; intros; rewrite E; by apply C |].
  intros x. unfold view. by rewrite E.
Qed.

Lemma read_ok x c d l c' d' r :
  cache_ok c d l -> bcache_read x c d = (c', d', r) ->
  (exists l', cache_ok c' d' l') /\
  (forall out, r = Some out -> out = view c d x) /\
  (forall y, lost_by x c d <> Some y -> view c' d' y = view c d y).
Proof.
  intros O E. unfold bcache_read, auto_init in E. rewrite (co_init _ _ _ O) in E. unfold lost_by.
  destruct (lookup x c) as [e|] eqn:L.
  - injection E as <- <- <-. destruct (lookup_Some _ _ _ L) as (R & V & Q).
    destruct (touch_ok c d l e O R) as (l' & O' & V' & _).
    destruct (counters_ok _ (add_hits (touch e c)) _ _ O') as (O2 & V2); [done.. |].
    split; [by exists l' |]. split; [| intros y _; by rewrite V2].
    intros out Eo. injection Eo as <-. rewrite <- Q. symmetry. by apply (view_valid _ _ l).
  - destruct (reserve_lru c d) as [[c1 d1] r1] eqn:Er.
    destruct (reserve_ok _ _ _ _ _ _ O Er) as (-> & O1 & I1 & Oth & V1 & _).
    destruct (tail_slot _ _ (co_list _ _ _ O)) as (Rt & _). set (e := g_tail c) in *.
    destruct (ata_read_sector x d1) as [d2 [b|]] eqn:Ed; destruct (dev_read _ _ _ _ Ed) as (S & B);
      destruct (cache_ok_disk _ _ d2 _ O1 S) as (O2 & V2).
    + injection E as <- <- <-. specialize (B b eq_refl).
      destruct (put_ok c1 d2 l e (fun y => fill y x false b) x b O2 Rt) as (O3 & V3); try done.
      { intros _. rewrite S. done. }
      { by rewrite I1. }
      { intros i Ri Ne. rewrite Oth by done. by apply (lookup_None _ _ L). }
      destruct (touch_ok _ d2 l e O3 Rt) as (l' & O4 & V4 & _).
      destruct (counters_ok _ (add_misses (touch e (upd c1 e (fun y => fill y x false b)))) _ _ O4) as (O5 & V5); [done.. |].
      split; [by exists l' |].
      assert (X : forall y, lost c d <> Some y -> view c1 d2 y = view c d y) by (intros y Ny; rewrite V2; by apply V1).
      pose proof (lost_ne x c d l O) as Lx. unfold lost_by in Lx. rewrite L in Lx.
      assert (B' : b = view c d x).
      { rewrite <- (X x Lx), V2. unfold view. destruct (lookup x c1) as [i|] eqn:L1; [| done].
        destruct (lookup_Some _ _ _ L1) as (Ri & Vi & Q). destruct (decide (i = e)) as [-> | Ne]; [congruence |].
        rewrite Oth in * by done. by destruct (lookup_None _ _ L i Ri Vi). }
      split; [by intros out [= <-] |]. intros y Ny. rewrite V5, V4, V3.
      case_decide; [by subst y | by apply X].
    + injection E as <- <- <-. split; [by exists l | split; [done |]]. intros y Ny. rewrite V2. by apply V1.
Qed.

Lemma write_ok x b c d l c' d' r :
  cache_ok c d l -> bcache_write x b c d = (c', d', r) ->
  r = true /\ (exists l', cache_ok c' d' l') /\
  (forall y, lost_by x c d <> Some y -> view c' d' y = if decide (y = x) then b else view c d y).
Proof.
  intros O E. unfold bcache_write, auto_init in E. rewrite (co_init _ _ _ O) in E.
  destruct (counters_ok _ (add_logical c) d l O) as (O0 & V0); [done.. |].
  change (lookup x (add_logical c)) with (lookup x c) in E. unfold lost_by.
  destruct (lookup x c) as [e|] eqn:L.
  - injection E as <- <- <-. destruct (lookup_Some _ _ _ L) as (R & V & Q). split; [done |].
    destruct (put_ok (add_logical c) d l e (fun y => set_dirty (set_data y b) true) x b O0 R) as (O1 & V1); try done.
    { intros i Ri Ne Vi Ei. apply Ne. exact (co_inj _ _ _ O i e Ri R Vi V (eq_trans Ei (eq_sym Q))). }
    destruct (touch_ok _ d l e O1 R) as (l' & O4 & V4 & _). split; [by exists l' |].
    intros y _. by rewrite V4, V1, V0.
  - destruct (reserve_lru (add_logical c) d) as [[c1 d1] r1] eqn:Er.
    destruct (reserve_ok _ _ _ _ _ _ O0 Er) as (-> & O1 & I1 & Oth & V1 & _).
    destruct (tail_slot _ _ (co_list _ _ _ O0)) as (Rt & _). set (e := g_tail (add_logical c)) in *.
    injection E as <- <- <-. split; [done |].
    destruct (put_ok c1 d1 l e (fun y => fill y x true b) x b O1 Rt) as (O3 & V3); try done.
    { by rewrite I1. }
    { intros i Ri Ne. rewrite Oth by done. by apply (lookup_None _ _ L). }
    destruct (touch_ok _ d1 l e O3 Rt) as (l' & O4 & V4 & _). split; [by exists l' |].
    intros y Ny. rewrite V4, V3. case_decide; [done |]. rewrite V1 by done. apply V0.
Qed.

(** ** The syncer *)

Definition is_dirty c (i : Z) : bool := valid (ent c i) && dirty (ent c i).

Lemma zfor_count (p : Z -> bool) n : (Z.of_nat n < 4294967296) ->
  zfor n 0 (fun i a => if p i then u32 (a + 1) else a) 0 = countb p n.
Proof.
  induction n as [|n IH]; intros B; [done |]. rewrite zfor_S_last, IH by lia. cbn [countb].
  rewrite Z.add_0_l. pose proof (countb_bounds p n). destruct (p (Z.of_nat n)); [| lia]. apply u32_small. lia.
Qed.

Lemma bcache_dirty_count c : bcache_dirty c = countb (is_dirty c) (Z.to_nat BCACHE_NR).
Proof. unfold bcache_dirty. by apply (zfor_count (is_dirty c)). Qed.

(** Writing slot [i] back, or failing to, keeps the view. *)
Lemma mark_ok c d d' l i b :
  cache_ok c d l -> 0 <= i < BCACHE_NR -> valid (ent c i) = true ->
  (forall x, x <> lba (ent c i) -> sector d' x = sector d x) ->
  (b = false -> sector d' (lba (ent c i)) = data (ent c i)) ->
  cache_ok (upd c i (fun y => set_dirty y b)) d' l /\
  forall x, view (upd c i (fun y => set_dirty y b)) d' x = view c d x.
Proof.
  intros O R V S B. pose proof (co_list _ _ _ O) as Li.
  assert (E := fun j (Rj : 0 <= j) => ent_upd c l i (fun y => set_dirty y b) j Li R Rj).
  assert (K : forall j, 0 <= j -> valid (ent (upd c i (fun y => set_dirty y b)) j) = valid (ent c j) /\
    lba (ent (upd c i (fun y => set_dirty y b)) j) = lba (ent c j) /\
    data (ent (upd c i (fun y => set_dirty y b)) j) = data (ent c j)).
  { intros j Rj. rewrite E by done. by case_decide. }
  assert (O' : cache_ok (upd c i (fun y => set_dirty y b)) d' l).
  { split; [by apply linked_upd | | | apply O].
    - intros j k Rj Rk. destruct (K j ltac:(lia)) as (-> & -> & _). destruct (K k ltac:(lia)) as (-> & -> & _).
      by apply (co_inj _ _ _ O).
    - intros j Rj. destruct (K j ltac:(lia)) as (-> & -> & ->). rewrite E by lia. intros Vj.
      case_decide as Q; [subst; cbn [dirty set_dirty]; intros Db; by rewrite B |]. intros Dj. rewrite S; [by apply (co_clean _ _ _ O) |].
      intros Eq. apply Q. by apply (co_inj _ _ _ O). }
  split; [done |]. intros x. destruct (lookup x c) as [j|] eqn:L.
  - destruct (lookup_Some _ _ _ L) as (Rj & Vj & <-). rewrite (view_valid _ _ l) by done.
    destruct (K j ltac:(lia)) as (K1 & K2 & K3). rewrite <- K2 at 1. rewrite <- K3. apply (view_valid _ _ l); congruence.
  - assert (N := lookup_None _ _ L). rewrite (view_none c) by done.
    rewrite view_none.
    + apply S. intros ->. by apply (N i).
    + intros j Rj. destruct (K j ltac:(lia)) as (-> & -> & _). by apply N.
Qed.

Lemma upd_upd c l i f g : linked c l -> 0 <= i < BCACHE_NR -> upd (upd c i f) i g = upd c i (fun y => g (f y)).
Proof.
  intros Li R. unfold upd at 1. rewrite (ent_upd c l) by (done || lia). rewrite decide_True by done.
  unfold upd, with_entries. cbn [g_entries]. by rewrite zset_zset.
Qed.

Lemma ent_add_disk c j : ent (add_disk c) j = ent c j.
Proof. done. Qed.

Lemma sync_slot_ok c d l i n c' d' n' :
  cache_ok c d l -> 0 <= i < BCACHE_NR -> 0 <= n <= 32 -> sync_slot i (c, d, n) = (c', d', n') ->
  cache_ok c' d' l /\ (forall x, view c' d' x = view c d x) /\
  (forall j, 0 <= j < BCACHE_NR -> j <> i -> ent c' j = ent c j) /\
  (n' = n /\ is_dirty c' i = is_dirty c i \/ n' = n + 1 /\ is_dirty c i = true /\ is_dirty c' i = false) /\
  ((forall b buf d, snd (ata_write_sector b buf d) = true) -> is_dirty c' i = false) /\
  (is_dirty c i = false -> c' = c /\ d' = d).
Proof.
  intros O R N E. unfold sync_slot in E. unfold is_dirty. pose proof (co_list _ _ _ O) as Li.
  destruct (valid (ent c i) && dirty (ent c i)) eqn:VD.
  2: { injection E as <- <- <-. rewrite VD. split_and!; try done. by left. }
  apply andb_true_iff in VD as (V & Dy).
  destruct (ata_write_sector (lba (ent c i)) (data (ent c i)) d) as [d1 ok] eqn:W.
  destruct (dev_write _ _ _ _ _ W) as (W1 & W2).
  assert (Ei : forall j, 0 <= j -> ent (upd c i (fun e => set_dirty e false)) j =
    if decide (j = i) then set_dirty (ent c j) false else ent c j) by (intros; by apply (ent_upd c l)).
  destruct ok.
  - injection E as <- <- <-. destruct (mark_ok c d d1 l i false O R V W1 (fun _ => W2 eq_refl)) as (O1 & V1).
    destruct (counters_ok _ (add_disk (upd c i (fun e => set_dirty e false))) d1 l O1) as (O2 & V2); [done.. |].
    split_and!; [done | intros x; by rewrite V2, V1 | | | |].
    + intros j Rj Ne. rewrite ent_add_disk. rewrite Ei by lia. by rewrite decide_False.
    + right. rewrite ent_add_disk. rewrite Ei, decide_True by lia. cbn. rewrite u32_small by lia.
      split_and!; [done | done | apply andb_false_r].
    + intros _. rewrite ent_add_disk. rewrite Ei, decide_True by lia. apply andb_false_r.
    + done.
  - rewrite Ei, decide_True in E by lia. cbn [valid lba set_dirty] in E. rewrite V, Z.eqb_refl in E. cbn [andb] in E.
    injection E as <- <- <-. rewrite (upd_upd c l) by done. change (fun y => set_dirty (set_dirty y false) true) with (fun y => set_dirty y true).
    destruct (mark_ok c d d1 l i true O R V W1 ltac:(done)) as (O1 & V1).
    assert (Ej : forall j, 0 <= j -> ent (upd c i (fun y => set_dirty y true)) j =
      if decide (j = i) then set_dirty (ent c j) true else ent c j) by (intros; by apply (ent_upd c l)).
    split_and!; [done | done | | | |].
    + intros j Rj Ne. rewrite Ej by lia. by rewrite decide_False.
    + left. rewrite Ej, decide_True by lia. cbn. rewrite V. by split.
    + intros Rel. specialize (Rel (lba (ent c i)) (data (ent c i)) d). by rewrite W in Rel.
    + done.
Qed.

Lemma sync_loop c d l :
  cache_ok c d l ->
  let P := fun k (s : bcache * D * Z) => let '(c', d', n) := s in
    cache_ok c' d' l /\ (forall x, view c' d' x = view c d x) /\
    (forall j, k <= j < BCACHE_NR -> ent c' j = ent c j) /\
    0 <= n <= countb (is_dirty c) (Z.to_nat k) /\
    ((forall b buf d, snd (ata_write_sector b buf d) = true) ->
       n = countb (is_dirty c) (Z.to_nat k) /\ forall j, 0 <= j < k -> is_dirty c' j = false) /\
    ((forall j, 0 <= j < k -> is_dirty c j = false) -> c' = c /\ d' = d) in
  P BCACHE_NR (bcache_sync c d).
Proof.
  intros O P. unfold bcache_sync. change BCACHE_NR with (0 + Z.of_nat (Z.to_nat BCACHE_NR)) at 1.
  apply (zfor_ind P); [split_and!; try done; intros _; split; [done | intros; lia] |].
  intros k [[c1 d1] n1] Rk (O1 & V1 & Same & Cn & Rel & Cl). rewrite Z2Nat.id in Rk by done.
  destruct (sync_slot k (c1, d1, n1)) as [[c2 d2] n2] eqn:E.
  pose proof (countb_bounds (is_dirty c) (Z.to_nat k)) as B.
  destruct (sync_slot_ok c1 d1 l k n1 c2 d2 n2 O1 ltac:(lia) ltac:(unfold BCACHE_NR in *; lia) E)
    as (O2 & V2 & Oth & St & Rl & Nop).
  assert (Dk : is_dirty c1 k = is_dirty c k) by (unfold is_dirty; by rewrite Same by lia).
  unfold P. replace (Z.to_nat (k + 1)) with (S (Z.to_nat k)) by lia. cbn [countb]. rewrite Z2Nat.id by lia.
  split_and!; [done | intros x; by rewrite V2 | | | | |].
  - intros j Rj. rewrite Oth by lia. apply Same. lia.
  - destruct St as [(-> & _) | (-> & _)]; destruct (is_dirty c k); lia.
  - rewrite <- Dk. destruct St as [(-> & _) | (-> & -> & _)]; destruct (is_dirty c1 k); lia.
  - intros R. destruct (Rel R) as (-> & Dn). specialize (Rl R). split.
    + rewrite <- Dk. destruct St as [(-> & Q) | (-> & -> & _)]; [rewrite <- Q, Rl |]; lia.
    + intros j Rj. destruct (decide (j = k)) as [-> | Ne]; [done |].
      unfold is_dirty. rewrite Oth by lia. apply (Dn j). lia.
  - intros A. destruct Cl as (-> & ->); [intros; apply A; lia |]. apply Nop. apply A. lia.
Qed.

Lemma init_loop c :
  zlen (g_entries c) = BCACHE_NR ->
  let c1 := zfor (Z.to_nat BCACHE_NR) 0 (fun i c => upd c i (init_entry i)) c in
  zlen (g_entries c1) = BCACHE_NR /\ forall j, 0 <= j < BCACHE_NR -> ent c1 j = init_entry j (ent c1 j).
Proof.
  intros L. pose (P := fun k c' => zlen (g_entries c') = BCACHE_NR /\ forall j, 0 <= j < k -> ent c' j = init_entry j (ent c' j)).
  apply (zfor_ind P (Z.to_nat BCACHE_NR) 0); [split; [done | intros; lia] |].
  intros k c' Rk (L' & F). rewrite Z2Nat.id in Rk by done. split; [cbn; by rewrite zlen_zset |].
  intros j Rj. unfold ent, upd. cbn [g_entries with_entries]. destruct (decide (j = k)) as [-> | Ne].
  - by rewrite zget_zset_eq by lia.
  - rewrite zget_zset_ne by lia. apply (F j). lia.
Qed.

Lemma init_seg L :
  (forall j, 0 <= j < BCACHE_NR -> zget L j = init_entry j (zget L j)) -> seg L NULL slots NULL.
Proof.
  intros F. change slots with (map Z.of_nat (seq 0 32)). cbn [map seq seg hd_or].
  split_and!; try done; rewrite F by (unfold BCACHE_NR; lia); reflexivity.
Qed.

Lemma cache_init_ok c d :
  zlen (g_entries c) = BCACHE_NR -> cache_ok (bcache_init c) d slots /\ forall x, view (bcache_init c) d x = sector d x.
Proof.
  intros L. unfold bcache_init. pose proof (init_loop c L) as G. cbv zeta in G |- *.
  revert G. generalize (zfor (Z.to_nat BCACHE_NR) 0 (fun i c => upd c i (init_entry i)) c). intros c1 (L1 & F).
  set (c2 := Bcache (g_entries c1) 0 (BCACHE_NR - 1) true 0 0 0 0).
  assert (V : forall j, 0 <= j < BCACHE_NR -> valid (ent c2 j) = false).
  { intros j Rj. unfold ent, c2. cbn [g_entries]. unfold ent in F. by rewrite F. }
  assert (O : cache_ok c2 d slots).
  { split; [| intros i j Ri Rj Vi; by rewrite V in Vi | intros i Ri Vi; by rewrite V in Vi | done].
    split; [exact L1 | done | by apply init_seg | done | done]. }
  split; [done |]. intros x. apply view_none. intros i Ri Vi. by rewrite V in Vi.
Qed.

(** ** Recency *)

(** Sector [x] is cached in a slot with fewer than [k] more recently used ones. *)
Definition recent x (k : nat) c : Prop :=
  exists l1 e l2, linked c (l1 ++ e :: l2) /\ (length l1 < k)%nat /\
    0 <= e < BCACHE_NR /\ valid (ent c e) = true /\ lba (ent c e) = x.

Lemma recent_lookup x k c : recent x k c -> is_Some (lookup x c).
Proof.
  intros (l1 & e & l2 & _ & _ & R & V & E). destruct (lookup x c) as [i|] eqn:L; [by eexists |].
  by destruct (lookup_None _ _ L e R).
Qed.

Lemma linked_unique c l l' : linked c l -> linked c l' -> l = l'.
Proof.
  intros L L'. assert (Len : length l = length l') by (by rewrite (li_perm _ _ L), (li_perm _ _ L')).
  pose proof (li_seg _ _ L) as S. pose proof (li_seg _ _ L') as S'.
  pose proof (li_head _ _ L) as Hd. rewrite (li_head _ _ L') in Hd. clear L L'.
  revert l' Len S' Hd S. generalize NULL at 1 5 as pv. induction l as [|a l IH]; intros pv [|a' l'] Len; try done.
  cbn [seg hd_or]. intros (_ & N' & S') -> (_ & N & S). f_equal. apply (IH a); [by injection Len | done | | done].
  rewrite N' in N. destruct l, l'; try done.
Qed.

(** Moving slot [e'] to the front costs the others one place. *)
Lemma recent_touch x k c d l e' :
  cache_ok c d l -> 0 <= e' < BCACHE_NR -> recent x k c -> recent x (S k) (touch e' c).
Proof.
  intros O R (l1 & e & l2 & Li & Len & Re & V & E).
  destruct (touch_ok c d l e' O R) as (l' & O' & _ & K & _ & m1 & m2 & El & ->).
  pose proof (linked_unique _ _ _ (co_list _ _ _ O) Li) as Q. rewrite El in Q.
  destruct (key_fields _ _ (K e Re)) as (Kv & _ & Kl & _).
  assert (W : exists n1 n2, e' :: m1 ++ m2 = n1 ++ e :: n2 /\ (length n1 < S k)%nat).
  { destruct (decide (e = e')) as [-> | Ne]; [exists [], (m1 ++ m2); split; [done | cbn; lia] |].
    apply app_eq_app in Q as (t & [(-> & Q) | (-> & Q)]).
    - destruct t as [|z t]; [cbn in Q; by injection Q as <- |]. cbn in Q. injection Q as <- ->.
      exists (e' :: l1), (t ++ m2). split; [by rewrite <- app_assoc | cbn; lia].
    - destruct t as [|z t]; [cbn in Q; by injection Q as -> |]. cbn in Q. injection Q as <- ->.
      exists (e' :: m1 ++ t), l2. rewrite !length_app in *. cbn [length] in *. rewrite length_app.
      split; [cbn; by rewrite <- app_assoc | lia]. }
  destruct W as (n1 & n2 & W & Ln). exists n1, e, n2. rewrite <- W. split_and!; [apply O' | done | lia | lia | congruence | congruence].
Qed.

Lemma touch_recent x c d l e :
  cache_ok c d l -> 0 <= e < BCACHE_NR -> valid (ent c e) = true -> lba (ent c e) = x -> recent x 1 (touch e c).
Proof.
  intros O R V E. destruct (touch_ok c d l e O R) as (l' & O' & _ & K & _ & m1 & m2 & El & ->).
  destruct (key_fields _ _ (K e R)) as (Kv & _ & Kl & _).
  exists [], e, (m1 ++ m2). split_and!; [apply O' | cbn; lia | lia | lia | congruence | congruence].
Qed.

Lemma recent_keys x k c c' :
  recent x k c -> (forall l, linked c l -> linked c' l) ->
  (forall i, 0 <= i < BCACHE_NR -> valid (ent c i) = true -> lba (ent c i) = x ->
     valid (ent c' i) = true /\ lba (ent c' i) = x) -> recent x k c'.
Proof.
  intros (l1 & e & l2 & Li & Len & Re & V & E) HL HK. destruct (HK e Re V E).
  exists l1, e, l2. split_and!; auto; lia.
Qed.

(** A slot among the most recent 31 is not the one evicted. *)
Lemma recent_not_tail x k c :
  recent x k c -> (k < 32)%nat -> forall d l, cache_ok c d l -> lba (ent c (g_tail c)) = x ->
  valid (ent c (g_tail c)) = true -> False.
Proof.
  intros (l1 & e & l2 & Li & Len & Re & V & E) K d l O Et Vt.
  destruct (tail_slot _ _ (co_list _ _ _ O)) as (Rt & _).
  assert (g_tail c = e) as Te by (apply (co_inj _ _ _ O); congruence).
  pose proof (li_tail _ _ Li) as T. rewrite last_or_app in T. cbn [last_or] in T.
  pose proof (Permutation_length (li_perm _ _ Li)) as P. rewrite length_app in P. cbn [length] in P.
  change (length slots) with 32%nat in P.
  destruct l2 as [|y l2 _] using rev_ind; [cbn in P; lia |].
  rewrite last_or_app in T. cbn [last_or] in T. pose proof (slots_NoDup _ (li_perm _ _ Li)) as ND.
  apply NoDup_app in ND as (_ & _ & ND). apply NoDup_cons in ND as (ND & _). apply ND.
  rewrite <- Te, T. apply elem_of_app. right. by left.
Qed.

Lemma recent_reserve x k c d l c' d' r :
  cache_ok c d l -> (k < 32)%nat -> recent x k c -> reserve_lru c d = (c', d', r) -> recent x k c'.
Proof.
  intros O K Re E. destruct (reserve_ok _ _ _ _ _ _ O E) as (-> & O' & I & Oth & _).
  apply (recent_keys x k c); [done | |].
  - intros m Lm. by rewrite (linked_unique _ _ _ Lm (co_list _ _ _ O)); apply O'.
  - intros i Ri V Ei. destruct (decide (i = g_tail c)) as [-> | Ne]; [| by rewrite Oth].
    by destruct (recent_not_tail x k c Re K d l O).
Qed.

Lemma recent_counters x k c c' :
  recent x k c -> g_entries c' = g_entries c -> g_head c' = g_head c -> g_tail c' = g_tail c -> recent x k c'.
Proof.
  intros Re E1 E2 E3. apply (recent_keys x k c); [done | |].
  - intros m []. split; congruence.
  - intros i Ri V E. unfold ent in *. by rewrite E1.
Qed.

Lemma recent_read x k y c d l c' d' r :
  cache_ok c d l -> (k < 32)%nat -> recent x k c -> bcache_read y c d = (c', d', r) -> recent x (S k) c'.
Proof.
  intros O K Re E. unfold bcache_read, auto_init in E. rewrite (co_init _ _ _ O) in E.
  assert (Up : forall c0, recent x k c0 -> recent x (S k) c0)
    by (intros c0 (l1 & e & l2 & H1 & H2 & H3); exists l1, e, l2; split; [done | split; [lia | done]]).
  destruct (lookup y c) as [e|] eqn:L.
  - injection E as <- <- <-. destruct (lookup_Some _ _ _ L) as (R & V & Q).
    eapply recent_counters; [apply (recent_touch x k c d l e O R Re) | done..].
  - destruct (reserve_lru c d) as [[c1 d1] r1] eqn:Er. pose proof (recent_reserve _ _ _ _ _ _ _ _ O K Re Er) as Re1.
    destruct (reserve_ok _ _ _ _ _ _ O Er) as (-> & O1 & I1 & _).
    destruct (tail_slot _ _ (co_list _ _ _ O)) as (Rt & _). set (e := g_tail c) in *.
    destruct (ata_read_sector y d1) as [d2 [b|]] eqn:Ed; injection E as <- <- <-; [| by apply Up].
    destruct (dev_read _ _ _ _ Ed) as (Sd & B).
    destruct (cache_ok_disk _ _ d2 _ O1 Sd) as (O2 & _).
    assert (Ne : lookup y c1 = None).
    { destruct (lookup y c1) as [i|] eqn:L1; [| done]. destruct (lookup_Some _ _ _ L1) as (Ri & Vi & Q).
      destruct (reserve_ok _ _ _ _ _ _ O Er) as (_ & _ & _ & Oth & _).
      destruct (decide (i = e)) as [-> | Ne]; [congruence |]. rewrite Oth in * by done.
      by destruct (lookup_None _ _ L i Ri Vi). }
    destruct (put_ok c1 d2 l e (fun y0 => fill y0 y false b) y b O2 Rt) as (O3 & _); try done.
    { intros _. rewrite Sd. by apply B. }
    { by rewrite I1. }
    { intros i Ri _. by apply (lookup_None _ _ Ne). }
    pose proof (co_list _ _ _ O1) as Li.
    apply (recent_counters x (S k) (touch e (upd c1 e (fun y0 => fill y0 y false b)))); [| done..].
    apply (recent_touch x k (upd c1 e (fun y0 => fill y0 y false b)) d2 l e O3 Rt).
    apply (recent_keys x k c1); [done | intros m Lm; by apply linked_upd |].
    intros i Ri Vi Ei. rewrite (ent_upd c1 l) by (done || lia). case_decide; [subst; congruence | done].
Qed.

Lemma recent_write x k y b c d l c' d' r :
  cache_ok c d l -> (k < 32)%nat -> recent x k c -> bcache_write y b c d = (c', d', r) -> recent x (S k) c'.
Proof.
  intros O K Re E. unfold bcache_write, auto_init in E. rewrite (co_init _ _ _ O) in E.
  destruct (counters_ok _ (add_logical c) d l O) as (O0 & _); [done.. |].
  change (lookup y (add_logical c)) with (lookup y c) in E.
  assert (Re0 : recent x k (add_logical c))
    by (apply (recent_keys x k c); [done | intros m []; by split | done]).
  pose proof (co_list _ _ _ O0) as Li0.
  destruct (lookup y c) as [e|] eqn:L.
  - injection E as <- <- <-. destruct (lookup_Some _ _ _ L) as (R & V & Q).
    destruct (put_ok (add_logical c) d l e (fun y0 => set_dirty (set_data y0 b) true) y b O0 R) as (O1 & _); try done.
    { intros i Ri Ne Vi Ei. apply Ne. exact (co_inj _ _ _ O i e Ri R Vi V (eq_trans Ei (eq_sym Q))). }
    apply (recent_touch x k (upd (add_logical c) e (fun y0 => set_dirty (set_data y0 b) true)) d l e O1 R).
    apply (recent_keys x k (add_logical c)); [done | intros m Lm; by apply linked_upd |].
    intros i Ri Vi Ei. rewrite (ent_upd _ l) by (done || lia). by case_decide.
  - destruct (reserve_lru (add_logical c) d) as [[c1 d1] r1] eqn:Er.
    pose proof (recent_reserve _ _ _ _ _ _ _ _ O0 K Re0 Er) as Re1.
    destruct (reserve_ok _ _ _ _ _ _ O0 Er) as (-> & O1 & I1 & Oth & _).
    destruct (tail_slot _ _ Li0) as (Rt & _). set (e := g_tail (add_logical c)) in *. injection E as <- <- <-.
    destruct (put_ok c1 d1 l e (fun y0 => fill y0 y true b) y b O1 Rt) as (O3 & _); try done.
    { by rewrite I1. }
    { intros i Ri Ne. rewrite Oth by done. by apply (lookup_None _ _ L). }
    pose proof (co_list _ _ _ O1) as Li.
    apply (recent_touch x k (upd c1 e (fun y0 => fill y0 y true b)) d1 l e O3 Rt).
    apply (recent_keys x k c1); [done | intros m Lm; by apply linked_upd |].
    intros i Ri Vi Ei. rewrite (ent_upd c1 l) by (done || lia). case_decide; [subst; congruence | done].
Qed.

(** The sector just read or written is the most recent one. *)
Lemma read_recent x c d l c' d' out :
  cache_ok c d l -> bcache_read x c d = (c', d', Some out) -> recent x 1 c'.
Proof.
  intros O E. unfold bcache_read, auto_init in E. rewrite (co_init _ _ _ O) in E.
  destruct (lookup x c) as [e|] eqn:L.
  - injection E as <- _ _. destruct (lookup_Some _ _ _ L) as (R & V & Q).
    eapply recent_counters; [by apply (touch_recent x c d l e) | done..].
  - destruct (reserve_lru c d) as [[c1 d1] r1] eqn:Er.
    destruct (reserve_ok _ _ _ _ _ _ O Er) as (-> & O1 & I1 & Oth & _).
    destruct (tail_slot _ _ (co_list _ _ _ O)) as (Rt & _). set (e := g_tail c) in *.
    destruct (ata_read_sector x d1) as [d2 [b|]] eqn:Ed; [| done]. injection E as <- _ _.
    destruct (dev_read _ _ _ _ Ed) as (Sd & B). destruct (cache_ok_disk _ _ d2 _ O1 Sd) as (O2 & _).
    destruct (put_ok c1 d2 l e (fun y0 => fill y0 x false b) x b O2 Rt) as (O3 & _); try done.
    { intros _. rewrite Sd. by apply B. }
    { by rewrite I1. }
    { intros i Ri Ne. rewrite Oth by done. by apply (lookup_None _ _ L). }
    apply (recent_counters x 1 (touch e (upd c1 e (fun y0 => fill y0 x false b)))); [| done..].
    apply (touch_recent x (upd c1 e (fun y0 => fill y0 x false b)) d2 l e O3 Rt);
      rewrite (ent_upd c1 l) by (lia || done || apply O1); by rewrite decide_True.
Qed.

Lemma write_recent x b c d l c' d' r :
  cache_ok c d l -> bcache_write x b c d = (c', d', r) -> recent x 1 c'.
Proof.
  intros O E. unfold bcache_write, auto_init in E. rewrite (co_init _ _ _ O) in E.
  destruct (counters_ok _ (add_logical c) d l O) as (O0 & _); [done.. |].
  change (lookup x (add_logical c)) with (lookup x c) in E.
  pose proof (co_list _ _ _ O0) as Li0.
  destruct (lookup x c) as [e|] eqn:L.
  - injection E as <- _ _. destruct (lookup_Some _ _ _ L) as (R & V & Q).
    destruct (put_ok (add_logical c) d l e (fun y0 => set_dirty (set_data y0 b) true) x b O0 R) as (O1 & _); try done.
    { intros i Ri Ne Vi Ei. apply Ne. exact (co_inj _ _ _ O i e Ri R Vi V (eq_trans Ei (eq_sym Q))). }
    apply (touch_recent x _ d l e O1 R); rewrite (ent_upd _ l) by (lia || done); by rewrite decide_True.
  - destruct (reserve_lru (add_logical c) d) as [[c1 d1] r1] eqn:Er.
    destruct (reserve_ok _ _ _ _ _ _ O0 Er) as (-> & O1 & I1 & Oth & _).
    destruct (tail_slot _ _ Li0) as (Rt & _). set (e := g_tail (add_logical c)) in *. injection E as <- _ _.
    destruct (put_ok c1 d1 l e (fun y0 => fill y0 x true b) x b O1 Rt) as (O3 & _); try done.
    { by rewrite I1. }
    { intros i Ri Ne. rewrite Oth by done. by apply (lookup_None _ _ L). }
    apply (touch_recent x _ d1 l e O3 Rt); rewrite (ent_upd c1 l) by (lia || done || apply O1); by rewrite decide_True.
Qed.

Lemma reserve_drops_dirty c d l x :
  cache_ok c d l -> lost c d = Some x ->
  exists c' d', reserve_lru c d = (c', d', Some (g_tail c)) /\ lookup x c' = None.
Proof.
  intros O Lx. destruct (reserve_lru c d) as [[c' d'] r] eqn:E.
  destruct (reserve_ok _ _ _ _ _ _ O E) as (-> & O' & I & Oth & _). exists c', d'. split; [done |].
  destruct (lookup x c') as [i|] eqn:L; [| done]. destruct (lookup_Some _ _ _ L) as (Ri & Vi & Ei).
  destruct (decide (i = g_tail c)) as [-> | Ne]; [congruence |]. rewrite Oth in * by done.
  unfold lost in Lx. destruct (_ && _) eqn:V; [| done]. zb. injection Lx as Lx.
  destruct (tail_slot _ _ (co_list _ _ _ O)) as (Rt & _).
  destruct Ne. apply (co_inj _ _ _ O); congruence.
Qed.

(** ** The contract of the cache *)

Inductive access := ARead x | AWrite x (b : list Z).

Definition sect (a : access) : Z := match a with ARead x | AWrite x _ => x end.

(** One access; the result is [Some] data for a read, [Some []] for a write, [None] for -1. *)
Definition do_access (a : access) (s : bcache * D) : bcache * D * option (list Z) :=
  match a with
  | ARead x => bcache_read x (fst s) (snd s)
  | AWrite x b => let '(c, d, ok) := bcache_write x b (fst s) (snd s) in (c, d, if ok : bool then Some [] else None)
  end.

Definition accesses (l : list access) (s : bcache * D) : bcache * D :=
  foldl (fun s a => fst (do_access a s)) s l.

Lemma access_ok a c d l c' d' r :
  cache_ok c d l -> do_access a (c, d) = (c', d', r) -> exists l', cache_ok c' d' l'.
Proof.
  intros O E. destruct a as [x | x b]; cbn [do_access fst snd] in E.
  - by destruct (read_ok _ _ _ _ _ _ _ O E) as (Ok & _).
  - destruct (bcache_write x b c d) as [[c1 d1] ok] eqn:W. injection E as <- <- _.
    by destruct (write_ok _ _ _ _ _ _ _ _ O W) as (_ & Ok & _).
Qed.

Lemma access_view a c d l c' d' r :
  cache_ok c d l -> do_access a (c, d) = (c', d', r) ->
  match a with
  | ARead x =>
      (forall out, r = Some out -> out = view c d x) /\
      (forall y, lost_by x c d <> Some y -> view c' d' y = view c d y)
  | AWrite x b =>
      r = Some [] /\
      (forall y, lost_by x c d <> Some y -> view c' d' y = if decide (y = x) then b else view c d y)
  end.
Proof.
  intros O E. destruct a as [x | x b]; cbn [do_access fst snd] in *.
  - by destruct (read_ok _ _ _ _ _ _ _ O E) as (_ & ? & ?).
  - destruct (bcache_write x b c d) as [[c1 d1] ok] eqn:W. injection E as <- <- <-.
    by destruct (write_ok _ _ _ _ _ _ _ _ O W) as (-> & _ & ?).
Qed.

(** C9. The cache refines the disk seen as a map of sectors: a read that
    succeeds returns the sector's current contents and changes none, a write
    always succeeds and changes exactly its sector, for every state of the slots
    and their list; the one exception is the sector whose write-back fails when
    its dirty slot is evicted. *)
Theorem bcache_coherent a c d l c' d' r :
  cache_ok c d l -> do_access a (c, d) = (c', d', r) ->
  (exists l', cache_ok c' d' l') /\ lost_by (sect a) c d <> Some (sect a) /\
  match a with
  | ARead x =>
      (forall out, r = Some out -> out = view c d x) /\
      (forall y, lost_by x c d <> Some y -> view c' d' y = view c d y)
  | AWrite x b =>
      r = Some [] /\
      (forall y, lost_by x c d <> Some y -> view c' d' y = if decide (y = x) then b else view c d y)
  end.
Proof.
  intros O E. split; [by eapply access_ok | split; [by eapply lost_ne |]]. exact (access_view a c d l c' d' r O E).
Qed.

(** bcache_sync changes no sector as readers see it, whatever the disk
    does, and counts at most the dirty slots; when the disk accepts its writes
    it counts exactly those, none is dirty afterwards, the disk itself holds
    every sector as seen through the cache, and a second sync does nothing. *)
Theorem bcache_sync_correct c d l c' d' n :
  cache_ok c d l -> bcache_sync c d = (c', d', n) ->
  cache_ok c' d' l /\ (forall x, view c' d' x = view c d x) /\ 0 <= n <= bcache_dirty c /\
  ((forall b buf d, snd (ata_write_sector b buf d) = true) ->
     n = bcache_dirty c /\ bcache_dirty c' = 0 /\ (forall x, sector d' x = view c d x) /\
     bcache_sync c' d' = (c', d', 0)).
Proof.
  intros O E. pose proof (sync_loop c d l O) as P. rewrite E in P. cbv zeta beta in P.
  destruct P as (O' & V & _ & Cn & Rel & _). rewrite bcache_dirty_count. split_and!; [done | done | lia | lia |].
  intros R. destruct (Rel R) as (En & Cl).
  assert (Z0 : countb (is_dirty c') (Z.to_nat BCACHE_NR) = 0).
  { rewrite (countb_ext _ (fun _ => false)); [by vm_compute |]. intros k Rk. apply Cl. rewrite Z2Nat.id in Rk by done. lia. }
  split_and!; [done | by rewrite bcache_dirty_count | |].
  - intros x. rewrite <- V. unfold view. destruct (lookup x c') as [i|] eqn:L; [| done].
    destruct (lookup_Some _ _ _ L) as (Ri & Vi & <-). symmetry. apply (co_clean _ _ _ O'); [done | done |].
    specialize (Cl i Ri). unfold is_dirty in Cl. by rewrite Vi in Cl.
  - pose proof (sync_loop c' d' l O') as P. destruct (bcache_sync c' d') as [[c2 d2] n2]. cbv zeta beta in P.
    destruct P as (_ & _ & _ & Cn2 & _ & Nop). destruct (Nop Cl) as (-> & ->). do 2 f_equal. lia.
Qed.

(** Replacement is least recently used: a sector that was just read or
    written is still in the cache after any 31 further accesses, whatever they
    are and whatever the disk answers. *)
Theorem lru_retention x as_ c d l c' d' :
  cache_ok c d l -> (length as_ <= 31)%nat ->
  (exists out, do_access (ARead x) (c, d) = (c', d', Some out)) \/
  (exists b, do_access (AWrite x b) (c, d) = (c', d', Some [])) ->
  is_Some (lookup x (fst (accesses as_ (c', d')))).
Proof.
  intros O L A.
  assert (S : exists l' k, (k + length as_ <= 32)%nat /\ cache_ok c' d' l' /\ recent x k c').
  { destruct A as [(out & E) | (b & E)]; cbn [do_access fst snd] in E.
    - destruct (read_ok _ _ _ _ _ _ _ O E) as ((l' & O') & _). exists l', 1%nat.
      split_and!; [lia | done | exact (read_recent x c d l c' d' out O E)].
    - destruct (bcache_write x b c d) as [[c1 d1] ok] eqn:W. injection E as <- <- _.
      destruct (write_ok _ _ _ _ _ _ _ _ O W) as (_ & (l' & O') & _). exists l', 1%nat.
      split_and!; [lia | done | exact (write_recent x b c d l c1 d1 ok O W)]. }
  clear A O L. destruct S as (l' & k & L & O & Re). revert c' d' l' k L O Re.
  induction as_ as [|a as_ IH]; intros c1 d1 l1 k L O Re; [by eapply recent_lookup |].
  cbn [accesses foldl length] in *. destruct (do_access a (c1, d1)) as [[c2 d2] r] eqn:E. cbn [fst].
  destruct (access_ok a c1 d1 l1 c2 d2 r O E) as (l2 & O2).
  apply (IH c2 d2 l2 (S k)); [lia | done |]. destruct a as [y | y b]; cbn [do_access fst snd] in E.
  - apply (recent_read x k y c1 d1 l1 c2 d2 r); [done | lia | done | done].
  - destruct (bcache_write y b c1 d1) as [[c3 d3] ok] eqn:W. injection E as <- <- _.
    apply (recent_write x k y b c1 d1 l1 c3 d3 ok); [done | lia | done | done].
Qed.

End Cache.

(** ** A disk in memory *)

(** Sectors not written yet are zero; writes to a bad sector fail. *)
Record ramdisk := Ramdisk { rd_data : gmap Z (list Z); rd_bad : gset Z }.

#[global] Instance ramdisk_dev : BlockDev ramdisk := {
  ata_read_sector l d := (d, Some (default (zrep 512 0) (rd_data d !! l)));
  ata_write_sector l b d :=
    if bool_decide (l ∈ rd_bad d) then (d, false) else (Ramdisk (<[l := b]> (rd_data d)) (rd_bad d), true)
}.

#[global] Instance ramdisk_laws : BlockDevLaws ramdisk.
Proof.
  refine {| sector d l := default (zrep 512 0) (rd_data d !! l) |}.
  - done.
  - intros l b d. cbn. case_bool_decide; cbn; [done |]. split.
    + intros l' Ne. by rewrite lookup_insert_ne.
    + intros _. by rewrite lookup_insert_eq.
Defined.

Definition disk0 : ramdisk := Ramdisk {[ 7 := [1; 2; 3] ]} {[ 9 ]}.

Definition cache0 : bcache := bcache_init (Bcache (zrep BCACHE_NR (Entry false false 0 [] NULL NULL)) 0 0 false 0 0 0 0).

Lemma cache0_ok : cache_ok cache0 disk0 slots.
Proof. apply cache_init_ok. reflexivity. Qed.

Lemma bcache_coherent_witness :
  lost_by 7 cache0 disk0 <> Some 7 /\
  forall out, snd (do_access (ARead 7) (cache0, disk0)) = Some out -> out = view cache0 disk0 7.
Proof.
  destruct (do_access (ARead 7) (cache0, disk0)) as [[c' d'] r] eqn:E.
  destruct (bcache_coherent (ARead 7) cache0 disk0 slots c' d' r cache0_ok E) as (_ & N & R & _).
  split; [exact N | exact R].
Defined.

Definition cache1 : bcache * ramdisk := accesses [AWrite 3 [30]; AWrite 4 [40]] (cache0, disk0).

Lemma cache1_ok : exists l, cache_ok (fst cache1) (snd cache1) l.
Proof.
  unfold cache1, accesses. cbn [foldl].
  destruct (do_access (AWrite 3 [30]) (cache0, disk0)) as [[c1 d1] r1] eqn:E1.
  destruct (access_ok _ _ _ _ _ _ _ cache0_ok E1) as (l1 & O1). cbn [fst].
  destruct (do_access (AWrite 4 [40]) (c1, d1)) as [[c2 d2] r2] eqn:E2.
  exact (access_ok _ _ _ _ _ _ _ O1 E2).
Qed.

Lemma bcache_sync_correct_witness :
  bcache_dirty (fst cache1) = 2 /\
  forall x, view (fst (fst (bcache_sync (fst cache1) (snd cache1)))) (snd (fst (bcache_sync (fst cache1) (snd cache1)))) x =
    view (fst cache1) (snd cache1) x.
Proof.
  split; [by vm_compute |]. destruct cache1_ok as (l & O).
  destruct (bcache_sync (fst cache1) (snd cache1)) as [[c' d'] n] eqn:E.
  exact (proj1 (proj2 (bcache_sync_correct _ _ _ _ _ _ O E))).
Defined.

Lemma lru_retention_witness :
  is_Some (lookup 7 (fst (accesses [ARead 1; ARead 2; AWrite 3 [9]] (fst (do_access (ARead 7) (cache0, disk0)))))).
Proof.
  destruct (do_access (ARead 7) (cache0, disk0)) as [[c' d'] r] eqn:E.
  assert (R : exists out, r = Some out).
  { assert (X : snd (do_access (ARead 7) (cache0, disk0)) = Some [1; 2; 3]) by (vm_compute; reflexivity).
    rewrite E in X. by exists [1; 2; 3]. }
  destruct R as (out & ->).
  exact (lru_retention 7 [ARead 1; ARead 2; AWrite 3 [9]] cache0 disk0 slots c' d' cache0_ok
           ltac:(cbn; lia) (or_introl (ex_intro _ out E))).
Defined.

(** Writing 33 sectors evicts sector 9, whose write-back fails: every write
    reported success, and the data is gone. *)
Example evicted_write_lost :
  let s := accesses (AWrite 9 [99] :: map (fun i => AWrite (Z.of_nat i) [1]) (seq 100 32)) (cache0, disk0) in
  lookup 9 (fst s) = None /\ view (fst s) (snd s) 9 = zrep 512 0.
Proof. vm_compute. auto. Qed.

End BCACHE.
