(* ===== verification/Fs.v ===== *)
(** AdventFS ([kernel/fs.c]).

    A filesystem instance is a superblock (a table of 256 entries, each with a
    parent index) and a sector bitmap over a block device.  The module follows
    the file: bitmap helpers, superblock load and store with the packed on-disk
    layout, path walking, reads, and the operations that change the tree. *)

From stdpp Require Import base numbers list gmap.
From Stdlib Require Import ZArith Lia.
From S2P Require Import Prelude Bitmap.

(** ** What the filesystem calls

    Sector reads and writes of the instance's device ([inst->bdev], or the block
    cache for the boot disk), and a [kmalloc]ed scratch buffer that is freed
    before the call returns. *)
Class FsWorld (W : Type) := {
  dev_read : Z -> W -> W * option (list Z);
  dev_write : Z -> list Z -> W -> W * bool;
  scratch : Z -> W -> W * bool
}.

Class FsWorldLaws (W : Type) `{FsWorld W} := {
  sec : W -> Z -> list Z;
  sec_len w x : zlen (sec w x) = 512;
  dev_read_spec l w :
    (forall x, sec (fst (dev_read l w)) x = sec w x) /\
    forall b, snd (dev_read l w) = Some b -> b = sec w l;
  dev_write_spec l b w :
    (forall x, x <> l -> sec (fst (dev_write l b w)) x = sec w x) /\
    (snd (dev_write l b w) = true -> zlen b = 512 -> sec (fst (dev_write l b w)) l = b);
  scratch_spec n w : forall x, sec (fst (scratch n w)) x = sec w x
}.

Module FS.

Definition FS_BITMAP_BYTES_MAX : Z := (8192 + 7) / 8.

Definition FS_INSTANCE_MAX : Z := 4.

Definition FS_DISK_OFFSET_SECTORS : Z := 384.

Definition FS_SUPER_SECTORS : Z := 17.

Definition FS_NAME_MAX : Z := 16.

Definition FS_MAX_FILES : Z := 256.

(** "ADVENTFS" *)
Definition FS_MAGIC : list Z := [65; 68; 86; 69; 78; 84; 70; 83].

Definition FS_TYPE_FREE : Z := 0.

Definition FS_TYPE_FILE : Z := 1.

Definition FS_TYPE_DIR : Z := 2.

Definition FS_DIR_ROOT : Z := 255.

Definition FS_PERM_R : Z := 4.

Definition FS_PERM_W : Z := 2.

Definition FS_PERM_X : Z := 1.

Definition FS_MODE_RWX_MASK : Z := 511.

Record fs_entry := Entry {
  name : list Z;
  start_sector : Z;
  size : Z;
  type : Z;
  parent_dir : Z;
  uid : Z;
  gid : Z;
  mode : Z
}.

Definition zero_entry : fs_entry := Entry (zrep FS_NAME_MAX 0) 0 0 0 0 0 0 0.

#[global] Instance fs_entry_inhabited : Inhabited fs_entry := populate zero_entry.

Record fs_super := Super {
  magic : list Z;
  file_count : Z;
  reserved0 : list Z;
  files : list fs_entry
}.

Record fs_instance := Instance_ {
  in_use : bool;
  initialized : bool;
  base_lba : Z;
  n_sectors : Z;
  super : fs_super;
  bitmap : list Z
}.

(** What the code reads of [task_current()]; [None] is the null task. *)
Record task := Task { t_uid : Z; t_gid : Z; cwd_dir : Z }.

Definition set_super (i : fs_instance) (s : fs_super) : fs_instance :=
  Instance_ (in_use i) (initialized i) (base_lba i) (n_sectors i) s (bitmap i).

Definition set_bitmap (i : fs_instance) (b : list Z) : fs_instance :=
  Instance_ (in_use i) (initialized i) (base_lba i) (n_sectors i) (super i) b.

Definition file (i : fs_instance) (k : Z) : fs_entry := zget (files (super i)) k.

Definition set_file (i : fs_instance) (k : Z) (e : fs_entry) : fs_instance :=
  set_super i (Super (magic (super i)) (file_count (super i)) (reserved0 (super i))
                 (zset (files (super i)) k e)).

Definition set_count (i : fs_instance) (n : Z) : fs_instance :=
  set_super i (Super (magic (super i)) n (reserved0 (super i)) (files (super i))).

(** ** The packed layout *)

Definition le16 (x : Z) : list Z := [u8 x; u8 (Z.shiftr x 8)].

Definition le32 (x : Z) : list Z := [u8 x; u8 (Z.shiftr x 8); u8 (Z.shiftr x 16); u8 (Z.shiftr x 24)].

Definition un_le (l : list Z) : Z := foldr (fun b acc => b + 256 * acc) 0 l.

Definition encode_entry (e : fs_entry) : list Z :=
  name e ++ le32 (start_sector e) ++ le32 (size e) ++ [type e; parent_dir e] ++
  le16 (uid e) ++ le16 (gid e) ++ le16 (mode e).

Definition encode_super (s : fs_super) : list Z :=
  magic s ++ le32 (file_count s) ++ reserved0 s ++ flat_map encode_entry (files s).

Definition slice (off n : Z) (l : list Z) : list Z := ztake n (zdrop off l).

Definition decode_entry (l : list Z) : fs_entry :=
  Entry (slice 0 16 l) (un_le (slice 16 4 l)) (un_le (slice 20 4 l)) (zget l 24) (zget l 25)
    (un_le (slice 26 2 l)) (un_le (slice 28 2 l)) (un_le (slice 30 2 l)).

Fixpoint decode_entries (n : nat) (l : list Z) : list fs_entry :=
  match n with
  | O => []
  | S n' => decode_entry (ztake 32 l) :: decode_entries n' (zdrop 32 l)
  end.

Definition decode_super (l : list Z) : fs_super :=
  Super (slice 0 8 l) (un_le (slice 8 4 l)) (slice 12 500 l)
    (decode_entries (Z.to_nat FS_MAX_FILES) (zdrop 512 l)).

(** ** Bitmap helpers *)

Definition bitmap_get (i : fs_instance) (s : Z) : Z :=
  if n_sectors i <=? s then 1 else bm_get (bitmap i) s.

Definition bitmap_set (i : fs_instance) (s : Z) : fs_instance :=
  if s <? n_sectors i then set_bitmap i (bm_set (bitmap i) s) else i.

Definition bitmap_clear (i : fs_instance) (s : Z) : fs_instance :=
  if s <? n_sectors i then set_bitmap i (bm_clear (bitmap i) s) else i.

Definition set_run (i : fs_instance) (start n : Z) : fs_instance :=
  zfor (Z.to_nat n) 0 (fun k i => bitmap_set i (u32 (start + k))) i.

(** The scan of [bitmap_alloc_run] from sector [s]. *)
Fixpoint alloc_scan (fuel : nat) (i : fs_instance) (n s run_start run_len : Z) : fs_instance * Z :=
  match fuel with
  | O => (i, -1)
  | S fuel' =>
      if s <? n_sectors i then
        if bitmap_get i s =? 0 then
          let run_start := if run_len =? 0 then s else run_start in
          let run_len := run_len + 1 in
          if n <=? run_len then (set_run i run_start n, run_start)
          else alloc_scan fuel' i n (s + 1) run_start run_len
        else alloc_scan fuel' i n (s + 1) run_start 0
      else (i, -1)
  end.

Definition bitmap_alloc_run (i : fs_instance) (n : Z) : fs_instance * Z :=
  let n := if n =? 0 then 1 else n in
  alloc_scan (Z.to_nat (n_sectors i)) i n FS_SUPER_SECTORS 0 0.

Definition bitmap_free_run (i : fs_instance) (start n : Z) : fs_instance :=
  if start <? FS_SUPER_SECTORS then i else
  zfor (Z.to_nat n) 0
    (fun k i => if u32 (start + k) <? n_sectors i then bitmap_clear i (u32 (start + k)) else i) i.

(** ** Superblock load and store *)

Section Device.
Context {W : Type} `{FsWorld W}.

Fixpoint read_sectors (n : nat) (lba : Z) (w : W) : W * option (list Z) :=
  match n with
  | O => (w, Some [])
  | S n' =>
      match dev_read (u32 lba) w with
      | (w, None) => (w, None)
      | (w, Some b) =>
          match read_sectors n' (lba + 1) w with
          | (w, None) => (w, None)
          | (w, Some l) => (w, Some (b ++ l))
          end
      end
  end.

(** [false] stops at the first failing sector. *)
Fixpoint write_sectors (n : nat) (lba : Z) (l : list Z) (w : W) : W * bool :=
  match n with
  | O => (w, true)
  | S n' =>
      match dev_write (u32 lba) (ztake 512 l) w with
      | (w, false) => (w, false)
      | (w, true) => write_sectors n' (lba + 1) (zdrop 512 l) w
      end
  end.

(** The bits of one file's extent. *)
Definition mark_file (k : Z) (i : fs_instance) : fs_instance :=
  let e := file i k in
  if negb (type e =? FS_TYPE_FILE) then i else
  if size e =? 0 then i else
  let n := u32 (size e + 511) / 512 in
  set_run i (start_sector e) n.

Definition load_superblock (i : fs_instance) (w : W) : fs_instance * W * Z :=
  match read_sectors (Z.to_nat FS_SUPER_SECTORS) (base_lba i) w with
  | (w, None) => (i, w, -1)
  | (w, Some sb) =>
      if negb (bool_decide (ztake 8 sb = FS_MAGIC)) then (i, w, -2) else
      let i := set_super i (decode_super sb) in
      let i := if FS_MAX_FILES <? file_count (super i) then set_count i FS_MAX_FILES else i in
      let i := set_bitmap i (zrep FS_BITMAP_BYTES_MAX 0) in
      let i := zfor (Z.to_nat FS_SUPER_SECTORS) 0 (fun s i => bitmap_set i s) i in
      let i := zfor (Z.to_nat (file_count (super i))) 0 mark_file i in
      (Instance_ (in_use i) true (base_lba i) (n_sectors i) (super i) (bitmap i), w, 0)
  end.

(** The slot is a fresh instance record; [None] is the null pointer. *)
Definition fs_create_instance (slot : fs_instance) (base n : Z) (w : W) : option fs_instance * fs_instance * W :=
  let n := if 8192 <? n then 8192 else n in
  let i := Instance_ true false base n (super slot) (zrep FS_BITMAP_BYTES_MAX 0) in
  match load_superblock i w with
  | (i, w, rc) =>
      if negb (rc =? 0) then
        (None, Instance_ false (initialized i) (base_lba i) (n_sectors i) (super i) (bitmap i), w)
      else (Some i, i, w)
  end.

Definition fs_write_super_inst (i : fs_instance) (w : W) : W * Z :=
  let total := FS_SUPER_SECTORS * 512 in
  match scratch total w with
  | (w, false) => (w, -1)
  | (w, true) =>
      match write_sectors (Z.to_nat FS_SUPER_SECTORS) (base_lba i) (encode_super (super i)) w with
      | (w, false) => (w, -1)
      | (w, true) => (w, 0)
      end
  end.

End Device.

(** ** Entries and paths *)

Definition live (i : fs_instance) (idx : Z) : bool :=
  initialized i && (0 <=? idx) && (idx <? file_count (super i)).

Definition inst_size (i : fs_instance) (idx : Z) : Z := if live i idx then size (file i idx) else 0.

Definition inst_name (i : fs_instance) (idx : Z) : option (list Z) :=
  if live i idx then Some (name (file i idx)) else None.

Definition inst_entry_type (i : fs_instance) (idx : Z) : Z :=
  if live i idx then type (file i idx) else FS_TYPE_FREE.

(** [s] is the slice of length [len] compared with the 16-byte name. *)
Definition name_eq_slice (ename s : list Z) : bool :=
  let len := zlen s in
  if FS_NAME_MAX <? len then false else
  match zfind (Z.to_nat len) 0 (fun j => negb (zget ename j =? zget s j)) with
  | Some _ => false
  | None => negb ((len <? FS_NAME_MAX) && negb (zget ename len =? 0))
  end.

Definition find_in_dir_inst (i : fs_instance) (parent : Z) (nm : list Z) : Z :=
  match zfind (Z.to_nat (file_count (super i))) 0 (fun k =>
          negb (type (file i k) =? FS_TYPE_FREE) && (parent_dir (file i k) =? parent) &&
          name_eq_slice (name (file i k)) nm) with
  | Some k => k
  | None => -1
  end.

Definition SLASH : Z := 47.

(** The inner [while]: the component up to a slash or the end, and what follows it. *)
Fixpoint component (path : list Z) : list Z * list Z :=
  match path with
  | [] => ([], [])
  | c :: rest => if c =? SLASH then ([], path) else let '(a, b) := component rest in (c :: a, b)
  end.

(** The loop of [fs_iopen_inst]; every turn consumes at least one character. *)
Fixpoint iopen_walk (fuel : nat) (i : fs_instance) (parent : Z) (path : list Z) (last : Z) : Z :=
  match fuel with
  | O => -1
  | S fuel' =>
      match path with
      | [] => last
      | _ =>
          match component path with
          | ([], rest) => iopen_walk fuel' i parent (zdrop 1 rest) last
          | (nm, rest) =>
              let found := find_in_dir_inst i parent nm in
              if found <? 0 then -1 else
              match rest with
              | [] => found
              | _ =>
                  if negb (type (file i found) =? FS_TYPE_DIR) then -1
                  else iopen_walk fuel' i (u8 found) (zdrop 1 rest) found
              end
          end
      end
  end.

Definition fs_iopen_inst (i : fs_instance) (path : list Z) (from_root : bool) (cur : option task) : Z :=
  if negb (initialized i) then -1 else
  let '(parent, path) :=
    match path with
    | c :: rest =>
        if c =? SLASH then (FS_DIR_ROOT, rest)
        else if from_root then (FS_DIR_ROOT, path)
        else (match cur with Some t => cwd_dir t | None => FS_DIR_ROOT end, path)
    | [] => (FS_DIR_ROOT, [])
    end in
  match path with
  | [] => -1
  | _ => iopen_walk (S (length path)) i parent path (-1)
  end.

(** ** Reading *)

Section Ops.
Context {W : Type} `{FsWorld W}.

(** The copy loop of [fs_iread_inst]; [None] is the -1 of a failed sector read. *)
Fixpoint iread_loop (fuel : nat) (i : fs_instance) (e : fs_entry) (offset n total : Z) (out : list Z) (w : W)
    : W * option (list Z) :=
  match fuel with
  | O => (w, Some out)
  | S fuel' =>
      if n =? 0 then (w, Some out) else
      let abs_off := u32 (offset + total) in
      let lba := u32 (base_lba i + start_sector e + abs_off / 512) in
      let off_in := abs_off mod 512 in
      match dev_read lba w with
      | (w, None) => (w, None)
      | (w, Some sec_buf) =>
          let take := 512 - off_in in
          let take := if n <? take then n else take in
          iread_loop fuel' i e offset (n - take) (u32 (total + take)) (out ++ slice off_in take sec_buf) w
      end
  end.

(** The bytes stored at [buf]; [None] is -1. *)
Definition fs_iread_inst (i : fs_instance) (idx offset n : Z) (w : W) : W * option (list Z) :=
  if negb (live i idx) then (w, None) else
  let e := file i idx in
  if negb (type e =? FS_TYPE_FILE) then (w, None) else
  if size e <=? offset then (w, Some []) else
  let n := if size e <? u32 (offset + n) then u32 (size e - offset) else n in
  iread_loop (Z.to_nat (n / 512 + 2)) i e offset n 0 [] w.

(** The entry found and the new iterator. *)
Definition fs_idir_iter_inst (i : fs_instance) (dir_idx iter : Z) : Z * Z :=
  if negb (initialized i) then (-1, iter) else
  let parent := if dir_idx <? 0 then FS_DIR_ROOT else u8 dir_idx in
  let start := u32 iter in
  match zfind (Z.to_nat (file_count (super i) - start)) start (fun k =>
          negb (type (file i k) =? FS_TYPE_FREE) && (parent_dir (file i k) =? parent)) with
  | Some k => (k, k + 1)
  | None => (-1, file_count (super i))
  end.

(** ** Creating *)

Definition alloc_slot_inst (i : fs_instance) : fs_instance * Z :=
  match zfind (Z.to_nat (file_count (super i))) 0 (fun k => type (file i k) =? FS_TYPE_FREE) with
  | Some idx => (set_file i idx (Entry (zrep FS_NAME_MAX 0) 0 0 FS_TYPE_FREE FS_DIR_ROOT 0 0 0), idx)
  | None =>
      if FS_MAX_FILES <=? file_count (super i) then (i, -1) else
      let idx := file_count (super i) in
      let i := set_count i (idx + 1) in
      (set_file i idx (Entry (zrep FS_NAME_MAX 0) 0 0 FS_TYPE_FREE FS_DIR_ROOT 0 0 0), idx)
  end.

(** The path up to its last slash, that slash's position, and what follows it. *)
Definition last_slash (path : list Z) : option Z :=
  foldl (fun acc k => if zget path (Z.of_nat k) =? SLASH then Some (Z.of_nat k) else acc) None
    (seq 0 (length path)).

(** The parent index and the base name; [None] is -1. *)
Definition split_path_inst (i : fs_instance) (path : list Z) (from_root is_root_inst : bool)
    (cur : option task) : option (Z * list Z) :=
  let found :=
    match last_slash path with
    | None =>
        Some (if from_root || negb is_root_inst then FS_DIR_ROOT
              else match cur with Some t => cwd_dir t | None => FS_DIR_ROOT end, path)
    | Some k =>
        if k =? 0 then Some (FS_DIR_ROOT, zdrop 1 path) else
        if 128 <=? k then None else
        let parent := fs_iopen_inst i (ztake k path) from_root cur in
        if parent <? 0 then None else
        if negb (type (file i parent) =? FS_TYPE_DIR) then None
        else Some (parent, zdrop (k + 1) path)
    end in
  match found with
  | None => None
  | Some (parent, base) =>
      if zlen base =? 0 then None else
      if FS_NAME_MAX <? zlen base then None else Some (parent, base)
  end.

(** [for (j = 0; j < base_len; j++) e->name[j] = base[j]] on the zeroed name. *)
Definition put_name (nm base : list Z) : list Z := base ++ zdrop (zlen base) nm.

Definition fs_imkdir_inst (i : fs_instance) (path : list Z) (from_root is_root_inst : bool)
    (cur : option task) (w : W) : fs_instance * W * Z :=
  if negb (initialized i) then (i, w, -1) else
  match split_path_inst i path from_root is_root_inst cur with
  | None => (i, w, -1)
  | Some (parent, base) =>
      if 0 <=? find_in_dir_inst i (u8 parent) base then (i, w, -1) else
      let '(i, idx) := alloc_slot_inst i in
      if idx <? 0 then (i, w, -1) else
      let e := file i idx in
      let i := set_file i idx (Entry (put_name (name e) base) (start_sector e) (size e) FS_TYPE_DIR
                                 (u8 parent) (uid e) (gid e) (mode e)) in
      let '(w, rc) := fs_write_super_inst i w in
      if negb (rc =? 0) then (i, w, -1) else (i, w, idx)
  end.

Definition find_or_create_file_inst (i : fs_instance) (path : list Z) (from_root is_root_inst : bool)
    (cur : option task) : fs_instance * Z :=
  let existing := fs_iopen_inst i path from_root cur in
  if 0 <=? existing then
    if negb (type (file i existing) =? FS_TYPE_FILE) then (i, -1) else (i, existing)
  else
    match split_path_inst i path from_root is_root_inst cur with
    | None => (i, -1)
    | Some (parent, base) =>
        let '(i, idx) := alloc_slot_inst i in
        if idx <? 0 then (i, -1) else
        let e := file i idx in
        (set_file i idx (Entry (put_name (name e) base) (start_sector e) (size e) FS_TYPE_FILE (u8 parent)
           (match cur with Some t => t_uid t | None => 0 end)
           (match cur with Some t => t_gid t | None => 0 end) 420), idx)
    end.

(** ** Writing *)

(** The sector loop of [fs_iwrite_all_inst]: [data] from sector [s] on. *)
Fixpoint write_data (n : nat) (lba : Z) (data : list Z) (w : W) : W * bool :=
  match n with
  | O => (w, true)
  | S n' =>
      let part := ztake 512 data in
      match dev_write (u32 lba) (part ++ zrep (512 - zlen part) 0) w with
      | (w, false) => (w, false)
      | (w, true) => write_data n' (lba + 1) (zdrop 512 data) w
      end
  end.

Definition fs_iwrite_all_inst (i : fs_instance) (path data : list Z) (from_root is_root_inst : bool)
    (cur : option task) (w : W) : fs_instance * W * Z :=
  if negb (initialized i) then (i, w, -1) else
  let '(i, idx) := find_or_create_file_inst i path from_root is_root_inst cur in
  if idx <? 0 then (i, w, -1) else
  let sz := zlen data in
  let old_start := start_sector (file i idx) in
  let old_size := size (file i idx) in
  let old_n := if old_size =? 0 then 0 else u32 (old_size + 511) / 512 in
  let needed := u32 (sz + 511) / 512 in
  let needed := if needed =? 0 then 1 else needed in
  let '(i, new_start) := bitmap_alloc_run i needed in
  if new_start <? 0 then (i, w, -1) else
  match write_data (Z.to_nat needed) (base_lba i + new_start) data w with
  | (w, false) => (bitmap_free_run i new_start needed, w, -1)
  | (w, true) =>
      let e := file i idx in
      let i := set_file i idx (Entry (name e) new_start sz (type e) (parent_dir e) (uid e) (gid e) (mode e)) in
      let i := if 0 <? old_n then bitmap_free_run i old_start old_n else i in
      let '(w, rc) := fs_write_super_inst i w in
      if negb (rc =? 0) then (i, w, -1) else (i, w, 0)
  end.

(** ** The boot instance *)

Definition fs_count (i : fs_instance) : Z := if initialized i then file_count (super i) else 0.

Definition fs_entry_parent (i : fs_instance) (idx : Z) : Z :=
  if live i idx then parent_dir (file i idx) else -1.

Definition fs_entry_uid (i : fs_instance) (idx : Z) : Z := if live i idx then uid (file i idx) else -1.

Definition fs_entry_gid (i : fs_instance) (idx : Z) : Z := if live i idx then gid (file i idx) else -1.

Definition fs_entry_mode (i : fs_instance) (idx : Z) : Z :=
  if live i idx then Z.land (mode (file i idx)) FS_MODE_RWX_MASK else -1.

Definition fs_check_perm (i : fs_instance) (idx want : Z) (cur : option task) : Z :=
  if negb (live i idx) then -1 else
  match cur with
  | None => 1
  | Some t =>
      if t_uid t =? 0 then 1 else
      let e := file i idx in
      let shift := if t_uid t =? uid e then 6 else if t_gid t =? gid e then 3 else 0 in
      let bits := Z.land (Z.shiftr (mode e) shift) 7 in
      if Z.land bits want =? want then 1 else 0
  end.

Definition fs_chmod_idx (i : fs_instance) (idx m : Z) (w : W) : fs_instance * W * Z :=
  if negb (live i idx) then (i, w, -1) else
  let e := file i idx in
  let i := set_file i idx (Entry (name e) (start_sector e) (size e) (type e) (parent_dir e) (uid e) (gid e)
                             (Z.land m FS_MODE_RWX_MASK)) in
  let '(w, rc) := fs_write_super_inst i w in (i, w, rc).

Definition fs_chown_idx (i : fs_instance) (idx u g : Z) (w : W) : fs_instance * W * Z :=
  if negb (live i idx) then (i, w, -1) else
  let e := file i idx in
  let i := set_file i idx (Entry (name e) (start_sector e) (size e) (type e) (parent_dir e) u g (mode e)) in
  let '(w, rc) := fs_write_super_inst i w in (i, w, rc).

(** The descriptor tables of the tasks: [(kind, obj_idx)] per descriptor, [None]
    an empty task slot. *)
Definition FD_FS : Z := 3.

Definition fs_entry_open_refs (tasks : list (option (list (Z * Z)))) (idx : Z) : Z :=
  foldl (fun refs t =>
    match t with
    | None => refs
    | Some fds => foldl (fun refs fd => if (fd.1 =? FD_FS) && (fd.2 =? idx) then refs + 1 else refs) refs fds
    end) 0 tasks.

Definition fs_unlink (i : fs_instance) (path : list Z) (cur : option task)
    (tasks : list (option (list (Z * Z)))) (w : W) : fs_instance * W * Z :=
  if negb (initialized i) then (i, w, -1) else
  let idx := fs_iopen_inst i path true cur in
  if idx <? 0 then (i, w, -1) else
  let e := file i idx in
  if negb (type e =? FS_TYPE_FILE) then (i, w, -1) else
  if fs_check_perm i idx FS_PERM_W cur <=? 0 then (i, w, -1) else
  if 0 <? fs_entry_open_refs tasks idx then (i, w, -1) else
  let i := if 0 <? size e then bitmap_free_run i (start_sector e) (u32 (size e + 511) / 512) else i in
  let i := set_file i idx zero_entry in
  let '(w, rc) := fs_write_super_inst i w in (i, w, rc).

Definition fs_rmdir (i : fs_instance) (path : list Z) (cur : option task) (w : W) : fs_instance * W * Z :=
  if negb (initialized i) then (i, w, -1) else
  let idx := fs_iopen_inst i path true cur in
  if idx <? 0 then (i, w, -1) else
  if negb (type (file i idx) =? FS_TYPE_DIR) then (i, w, -1) else
  if fs_check_perm i idx FS_PERM_W cur <=? 0 then (i, w, -1) else
  match zfind (Z.to_nat (file_count (super i))) 0 (fun k =>
          negb (k =? idx) && negb (type (file i k) =? FS_TYPE_FREE) && (parent_dir (file i k) =? u8 idx)) with
  | Some _ => (i, w, -1)
  | None =>
      let i := set_file i idx zero_entry in
      let '(w, rc) := fs_write_super_inst i w in (i, w, rc)
  end.

Definition fs_free_sectors (i : fs_instance) : Z :=
  if negb (initialized i) then 0 else
  zfor (Z.to_nat (n_sectors i)) 0 (fun s n => if bitmap_get i s =? 0 then u32 (n + 1) else n) 0.

(** The wrappers on the boot instance differ only in resolving from the task's directory. *)
Definition fs_open (i : fs_instance) (path : list Z) (cur : option task) : Z := fs_iopen_inst i path false cur.

Definition fs_read (i : fs_instance) (idx offset n : Z) (w : W) : W * option (list Z) :=
  fs_iread_inst i idx offset n w.

Definition fs_dir_iter (i : fs_instance) (dir_idx iter : Z) : Z * Z := fs_idir_iter_inst i dir_idx iter.

Definition fs_mkdir (i : fs_instance) (path : list Z) (cur : option task) (w : W) : fs_instance * W * Z :=
  fs_imkdir_inst i path false true cur w.

Definition fs_write_all (i : fs_instance) (path data : list Z) (cur : option task) (w : W) : fs_instance * W * Z :=
  fs_iwrite_all_inst i path data false true cur w.

(** ** The VFS adapter *)

Record vfs_inode := Inode { ino_obj : Z; ino_size : Z; ino_is_dir : bool }.

(** [None] is -1. *)
Definition rootfs_open (i : fs_instance) (rel : list Z) (cur : option task) : option vfs_inode :=
  match rel with
  | [] => Some (Inode FS_DIR_ROOT 0 true)
  | _ =>
      let idx := fs_iopen_inst i rel true cur in
      if idx <? 0 then None
      else Some (Inode idx (inst_size i idx) (inst_entry_type i idx =? FS_TYPE_DIR))
  end.

Definition rootfs_read (i : fs_instance) (ino : vfs_inode) (offset n : Z) (w : W) : W * option (list Z) :=
  fs_iread_inst i (ino_obj ino) offset n w.

(** The bytes of a name before its first NUL, at most sixteen. *)
Fixpoint cut_nul (l : list Z) : list Z :=
  match l with [] => [] | c :: l' => if c =? 0 then [] else c :: cut_nul l' end.

(** The index, the new iterator and the name put in the caller's buffer. *)
Definition rootfs_readdir (i : fs_instance) (rel : list Z) (iter : Z) (cur : option task)
    : Z * Z * option (list Z) :=
  let dir :=
    if bool_decide (rel = []) || bool_decide (rel = [SLASH]) then Some (-1)
    else
      let d := fs_iopen_inst i rel true cur in
      if d <? 0 then None else if negb (inst_entry_type i d =? FS_TYPE_DIR) then None else Some d in
  match dir with
  | None => (-1, iter, None)
  | Some dir_idx =>
      let '(next, it) := fs_idir_iter_inst i dir_idx iter in
      if next <? 0 then (-1, it, None)
      else (next, it, option_map (fun nm => cut_nul (ztake FS_NAME_MAX nm)) (inst_name i next))
  end.

Definition rootfs_mkdir (i : fs_instance) (is_root_inst : bool) (rel : list Z) (cur : option task) (w : W) :=
  fs_imkdir_inst i rel true is_root_inst cur w.

Definition rootfs_write_all (i : fs_instance) (is_root_inst : bool) (rel data : list Z) (cur : option task) (w : W) :=
  fs_iwrite_all_inst i rel data true is_root_inst cur w.

End Ops.

End FS.
