(* ===== verification/FsInv.v ===== *)
(** The invariant of an AdventFS instance and the lemmas on its reading half:
    the sector bitmap as a set, the packed superblock layout, loading, file
    contents, directory search and path walking. *)

From stdpp Require Import base numbers list gmap.
From Stdlib Require Import ZArith Lia.
From S2P Require Import Prelude Bitmap Fs.
Import FS.

Module FSINV.

(** ** The bitmap as a set of used sectors *)

Definition used (i : fs_instance) (s : Z) : bool := (n_sectors i <=? s) || bm_test (bitmap i) s.

Record bm_ok (i : fs_instance) : Prop := BmOk {
  bo_len : zlen (bitmap i) = FS_BITMAP_BYTES_MAX;
  bo_n : 0 <= n_sectors i <= 8192
}.

(** Everything of an instance but its bitmap. *)
Definition same_but_bitmap (i j : fs_instance) : Prop :=
  in_use j = in_use i /\ initialized j = initialized i /\ base_lba j = base_lba i /\
  n_sectors j = n_sectors i /\ super j = super i.

Lemma bitmap_get_used i s : 0 <= s -> (bitmap_get i s =? 0) = negb (used i s).
Proof.
  intros R. unfold bitmap_get, used. destruct (n_sectors i <=? s); [done |]. cbn [orb].
  rewrite bm_get_01 by done. by destruct (bm_test _ _).
Qed.

Lemma bitmap_set_spec i s :
  bm_ok i -> 0 <= s -> bm_ok (bitmap_set i s) /\ same_but_bitmap i (bitmap_set i s) /\
  forall q, 0 <= q -> used (bitmap_set i s) q = (s =? q) || used i q.
Proof.
  intros [L N] R. unfold bitmap_set. destruct (s <? n_sectors i) eqn:E; zb.
  - split; [split; cbn; [by rewrite zlen_bm_set | done] | split; [done |]].
    intros q Q. unfold used. cbn [n_sectors bitmap set_bitmap]. rewrite bm_test_set; [| | done].
    + destruct (n_sectors i <=? q), (s =? q); done.
    + unfold bm_in. rewrite L. unfold FS_BITMAP_BYTES_MAX. change (8192 + 7) with 8199. Z.div_mod_to_equations. lia.
  - split_and!; try done. intros q Q. destruct (s =? q) eqn:Eq; [| done]. zb. subst q. unfold used.
    by rewrite (proj2 (Z.leb_le _ _) E).
Qed.

Lemma bitmap_clear_spec i s :
  bm_ok i -> 0 <= s -> bm_ok (bitmap_clear i s) /\ same_but_bitmap i (bitmap_clear i s) /\
  forall q, 0 <= q -> used (bitmap_clear i s) q = negb ((s =? q) && (s <? n_sectors i)) && used i q.
Proof.
  intros [L N] R. unfold bitmap_clear. destruct (s <? n_sectors i) eqn:E; zb.
  - split; [split; cbn; [by rewrite zlen_bm_clear | done] | split; [done |]].
    intros q Q. unfold used. cbn [n_sectors bitmap set_bitmap]. rewrite bm_test_clear; [| | done].
    + destruct (s =? q) eqn:Eq; zb; [subst; by rewrite (proj2 (Z.leb_gt _ _) E) | done].
    + unfold bm_in. rewrite L. unfold FS_BITMAP_BYTES_MAX. change (8192 + 7) with 8199. Z.div_mod_to_equations. lia.
  - split_and!; try done. intros q Q. by rewrite andb_false_r.
Qed.

Lemma same_refl i : same_but_bitmap i i.
Proof. done. Qed.

Lemma same_trans i j k : same_but_bitmap i j -> same_but_bitmap j k -> same_but_bitmap i k.
Proof. intros (A1 & A2 & A3 & A4 & A5) (B1 & B2 & B3 & B4 & B5). split_and!; congruence. Qed.

Lemma set_run_spec i start n :
  bm_ok i -> 0 <= start -> start + n <= 4294967296 ->
  bm_ok (set_run i start n) /\ same_but_bitmap i (set_run i start n) /\
  forall q, 0 <= q -> used (set_run i start n) q = ((start <=? q) && (q <? start + n)) || used i q.
Proof.
  intros O R B. unfold set_run.
  pose (P := fun k j => bm_ok j /\ same_but_bitmap i j /\
    forall q, 0 <= q -> used j q = ((start <=? q) && (q <? start + k)) || used i q).
  assert (G : P (0 + Z.of_nat (Z.to_nat n)) (zfor (Z.to_nat n) 0 (fun k i => bitmap_set i (u32 (start + k))) i)).
  { apply zfor_ind.
    - split_and!; try done. intros q Q. destruct (start <=? q) eqn:E1, (q <? start + 0) eqn:E2; zb; try done; lia.
    - intros k j Rk (Oj & Sj & Uj). rewrite u32_small by lia.
      destruct (bitmap_set_spec j (start + k) Oj ltac:(lia)) as (O' & S' & U').
      split_and!; [done | by eapply same_trans |]. intros q Q. rewrite U', Uj by done.
      destruct (start + k =? q) eqn:E0, (start <=? q) eqn:E1, (q <? start + k) eqn:E2, (q <? start + (k + 1)) eqn:E3;
        zb; cbn; try done; lia. }
  destruct G as (G1 & G2 & G3). split_and!; [done | done |]. intros q Q. rewrite G3 by done.
  destruct (decide (0 <= n)); [by replace (start + (0 + Z.of_nat (Z.to_nat n))) with (start + n) by lia |].
  replace (Z.to_nat n) with 0%nat by lia. change (Z.of_nat 0) with 0. rewrite !Z.add_0_r.
  destruct (start <=? q) eqn:E1, (q <? start) eqn:E2, (q <? start + n) eqn:E3; zb; try done; lia.
Qed.

Lemma give_run_spec i start n :
  bm_ok i -> FS_SUPER_SECTORS <= start -> start + n <= 4294967296 ->
  bm_ok (bitmap_free_run i start n) /\ same_but_bitmap i (bitmap_free_run i start n) /\
  forall q, 0 <= q -> used (bitmap_free_run i start n) q =
    negb ((start <=? q) && (q <? start + n) && (q <? n_sectors i)) && used i q.
Proof.
  intros O R B. unfold FS_SUPER_SECTORS in R. unfold bitmap_free_run, FS_SUPER_SECTORS.
  rewrite (proj2 (Z.ltb_ge start 17)) by lia.
  pose (P := fun k j => bm_ok j /\ same_but_bitmap i j /\
    forall q, 0 <= q -> used j q = negb ((start <=? q) && (q <? start + k) && (q <? n_sectors i)) && used i q).
  assert (G : P (0 + Z.of_nat (Z.to_nat n)) (zfor (Z.to_nat n) 0
    (fun k i => if u32 (start + k) <? n_sectors i then bitmap_clear i (u32 (start + k)) else i) i)).
  { apply zfor_ind.
    - split_and!; try done. intros q Q. destruct (start <=? q) eqn:E1, (q <? start + 0) eqn:E2; zb; try done; lia.
    - intros k j Rk (Oj & Sj & Uj). rewrite u32_small by lia. assert (Nj : n_sectors j = n_sectors i) by apply Sj.
      destruct (start + k <? n_sectors j) eqn:Ek; zb.
      + destruct (bitmap_clear_spec j (start + k) Oj ltac:(lia)) as (O' & S' & U').
        split_and!; [done | by eapply same_trans |]. intros q Q. rewrite U', Uj by done. rewrite Nj.
        destruct (start + k =? q) eqn:E0, (start + k <? n_sectors i) eqn:E4, (start <=? q) eqn:E1,
          (q <? start + k) eqn:E2, (q <? start + (k + 1)) eqn:E3, (q <? n_sectors i) eqn:E5;
          zb; cbn; try done; try lia.
      + split_and!; try done; try apply Oj; try apply Sj. intros q Q. rewrite Uj by done.
        destruct (start <=? q) eqn:E1, (q <? start + k) eqn:E2, (q <? start + (k + 1)) eqn:E3, (q <? n_sectors i) eqn:E5;
          zb; cbn; try done; lia. }
  destruct G as (G1 & G2 & G3). split_and!; [done | done |]. intros q Q. rewrite G3 by done.
  destruct (decide (0 <= n)); [by replace (start + (0 + Z.of_nat (Z.to_nat n))) with (start + n) by lia |].
  replace (Z.to_nat n) with 0%nat by lia. change (Z.of_nat 0) with 0. rewrite !Z.add_0_r.
  destruct (start <=? q) eqn:E1, (q <? start) eqn:E2, (q <? start + n) eqn:E3; zb; try done; lia.
Qed.

(** [n] free sectors from [r] on. *)
Definition run_free (i : fs_instance) (n r : Z) : Prop := forall q, r <= q < r + n -> used i q = false.

Lemma alloc_scan_spec fuel i n s rs rl :
  bm_ok i -> 1 <= n -> 17 <= s -> 0 <= rl < n -> rl <= s - 17 -> (0 < rl -> rs = s - rl) ->
  n_sectors i - s <= Z.of_nat fuel ->
  (forall q, s - rl <= q < s -> used i q = false) ->
  (forall r, 17 <= r < s - rl -> exists q, r <= q < r + n /\ used i q = true) ->
  match alloc_scan fuel i n s rs rl with
  | (j, r) =>
      (r = -1 /\ j = i /\ forall r', 17 <= r' -> ~ run_free i n r') \/
      (17 <= r /\ r + n <= n_sectors i /\ run_free i n r /\ j = set_run i r n /\
       forall r', 17 <= r' < r -> ~ run_free i n r')
  end.
Proof.
  intros O N. revert s rs rl. induction fuel as [|fuel IH]; intros s rs rl Rs Rl Rl2 Er F Fr Nr; cbn [alloc_scan].
  - left. split_and!; [done | done |]. intros r' Rr Rf. destruct (decide (r' < s - rl)) as [L |].
    + destruct (Nr r' ltac:(lia)) as (q & Rq & Uq). by rewrite Rf in Uq.
    + assert (U : used i (Z.max r' s) = true) by (unfold used; by rewrite (proj2 (Z.leb_le _ _)) by lia).
      rewrite Rf in U; [done |]. lia.
  - destruct (s <? n_sectors i) eqn:E; zb.
    2: { left. split_and!; [done | done |]. intros r' Rr Rf. destruct (decide (r' < s - rl)) as [L |].
      - destruct (Nr r' ltac:(lia)) as (q & Rq & Uq). by rewrite Rf in Uq.
      - assert (U : used i (Z.max r' s) = true) by (unfold used; by rewrite (proj2 (Z.leb_le _ _)) by lia).
        rewrite Rf in U; [done |]. lia. }
    rewrite bitmap_get_used by lia. destruct (used i s) eqn:U; cbn [negb].
    + apply IH; try lia.
      intros r' Rr. destruct (decide (r' < s - rl)) as [L |]; [apply Nr; lia |]. exists s. split; [lia | done].
    + assert (Fr' : forall q, s + 1 - (rl + 1) <= q < s + 1 -> used i q = false).
      { intros q Rq. destruct (decide (q = s)) as [-> |]; [done | apply Fr; lia]. }
      assert (Ers : (if rl =? 0 then s else rs) = s - rl) by (cases; lia). rewrite Ers.
      destruct (n <=? rl + 1) eqn:El; zb.
      * right. split_and!; [lia | lia | | done |].
        { intros q Rq. apply Fr'. lia. }
        intros r' Rr Rf. destruct (Nr r' ltac:(lia)) as (q & Rq & Uq). by rewrite Rf in Uq.
      * apply IH; try lia; [done |]. intros r' Rr. apply Nr. lia.
Qed.

Lemma alloc_run_spec i n :
  bm_ok i -> 0 <= n ->
  let n' := if n =? 0 then 1 else n in
  match bitmap_alloc_run i n with
  | (j, r) =>
      (r = -1 /\ j = i /\ forall r', FS_SUPER_SECTORS <= r' -> ~ run_free i n' r') \/
      (FS_SUPER_SECTORS <= r /\ r + n' <= n_sectors i /\ run_free i n' r /\ j = set_run i r n' /\
       forall r', FS_SUPER_SECTORS <= r' < r -> ~ run_free i n' r')
  end.
Proof.
  intros O N n'. unfold bitmap_alloc_run. fold n'. assert (1 <= n') by (unfold n'; cases; lia).
  pose proof (bo_n _ O). unfold FS_SUPER_SECTORS. apply alloc_scan_spec; try done; lia.
Qed.

(** ** The packed layout round-trips *)

Record entry_ok (e : fs_entry) : Prop := EntryOk {
  eo_name : zlen (name e) = FS_NAME_MAX;
  eo_start : 0 <= start_sector e < 4294967296;
  eo_size : 0 <= size e < 4294967296;
  eo_type : 0 <= type e < 256;
  eo_parent : 0 <= parent_dir e < 256;
  eo_uid : 0 <= uid e < 65536;
  eo_gid : 0 <= gid e < 65536;
  eo_mode : 0 <= mode e < 65536
}.

Record super_ok (s : fs_super) : Prop := SuperOk {
  so_magic : magic s = FS_MAGIC;
  so_count : 0 <= file_count s <= FS_MAX_FILES;
  so_reserved : zlen (reserved0 s) = 500;
  so_len : zlen (files s) = FS_MAX_FILES;
  so_files : Forall entry_ok (files s)
}.

Lemma un_le16 x : 0 <= x < 65536 -> un_le (le16 x) = x.
Proof.
  intros R. unfold un_le, le16. cbn [foldr]. rewrite Z.shiftr_div_pow2 by lia. change (2 ^ 8) with 256. zdm.
Qed.

Lemma un_le32 x : 0 <= x < 4294967296 -> un_le (le32 x) = x.
Proof.
  intros R. unfold un_le, le32. cbn [foldr]. rewrite !Z.shiftr_div_pow2 by lia.
  change (2 ^ 8) with 256. change (2 ^ 16) with 65536. change (2 ^ 24) with 16777216. zdm.
Qed.

Lemma length_encode_entry e : entry_ok e -> zlen (encode_entry e) = 32.
Proof.
  intros [L _ _ _ _ _ _ _]. unfold encode_entry. rewrite !zlen_app, L. reflexivity.
Qed.

Lemma slice_app off n a b c : zlen a = off -> zlen b = n -> slice off n (a ++ b ++ c) = b.
Proof.
  intros <- <-. unfold slice, ztake, zdrop, zlen. rewrite !Nat2Z.id.
  rewrite drop_app_length, take_app_length. done.
Qed.

Lemma decode_layout nm st sz ty pd u g md :
  length nm = 16%nat ->
  decode_entry (nm ++ le32 st ++ le32 sz ++ [ty; pd] ++ le16 u ++ le16 g ++ le16 md) =
  Entry nm (un_le (le32 st)) (un_le (le32 sz)) ty pd (un_le (le16 u)) (un_le (le16 g)) (un_le (le16 md)).
Proof.
  intros L. do 16 (destruct nm as [|? nm]; [discriminate L |]). destruct nm; [| discriminate L]. reflexivity.
Qed.

Lemma decode_encode_entry e : entry_ok e -> decode_entry (encode_entry e) = e.
Proof.
  intros [L R1 R2 R3 R4 R5 R6 R7]. unfold encode_entry. rewrite decode_layout.
  - rewrite !un_le32, !un_le16 by done. by destruct e.
  - unfold zlen, FS_NAME_MAX in L. lia.
Qed.

Lemma length_encode_files l : Forall entry_ok l -> zlen (flat_map encode_entry l) = 32 * zlen l.
Proof.
  induction l as [|e l IH]; intros F; [done |]. apply Forall_cons in F as (Fe & F).
  cbn [flat_map]. rewrite zlen_app, zlen_cons, length_encode_entry, IH by done. lia.
Qed.

Lemma decode_encode_files l rest :
  Forall entry_ok l -> decode_entries (length l) (flat_map encode_entry l ++ rest) = l.
Proof.
  induction l as [|e l IH]; intros F; [done |]. apply Forall_cons in F as (Fe & F).
  cbn [length decode_entries flat_map]. rewrite <- app_assoc. pose proof (length_encode_entry e Fe) as L.
  rewrite <- L at 1 2. unfold ztake, zdrop, zlen. rewrite !Nat2Z.id, take_app_length, drop_app_length.
  by rewrite decode_encode_entry, IH.
Qed.

Lemma decode_encode_super s rest : super_ok s -> decode_super (encode_super s ++ rest) = s.
Proof.
  intros [M C R L F]. destruct s as [mg cnt rsv fl]. cbn [magic file_count reserved0 files] in *. subst mg.
  unfold encode_super. cbn [magic file_count reserved0 files].
  assert (Rc : 0 <= cnt < 4294967296) by (unfold FS_MAX_FILES in C; lia).
  unfold decode_super. rewrite <- !app_assoc. f_equal.
  - rewrite (slice_app 8 4 FS_MAGIC (le32 cnt) (rsv ++ flat_map encode_entry fl ++ rest)) by done. by apply un_le32.
  - rewrite (app_assoc FS_MAGIC). by apply slice_app.
  - assert (E : zdrop 512 (FS_MAGIC ++ le32 cnt ++ rsv ++ flat_map encode_entry fl ++ rest) = flat_map encode_entry fl ++ rest).
    { rewrite !app_assoc. rewrite <- (app_assoc _ (flat_map encode_entry fl) rest).
      assert (L2 : zlen ((FS_MAGIC ++ le32 cnt) ++ rsv) = 512) by (rewrite !zlen_app, R; reflexivity).
      rewrite <- L2. unfold zdrop, zlen. rewrite Nat2Z.id. apply drop_app_length. }
    rewrite E. replace (Z.to_nat FS_MAX_FILES) with (length fl) by (unfold zlen in L; lia).
    by apply decode_encode_files.
Qed.

Lemma length_encode_super s : super_ok s -> zlen (encode_super s) = 512 * FS_SUPER_SECTORS.
Proof.
  intros [M C R L F]. unfold encode_super. rewrite !zlen_app, length_encode_files by done. rewrite R, L, M. reflexivity.
Qed.

(** ** Sectors *)

Section Proofs.
Context {W : Type} `{FL : FsWorldLaws W}.
Implicit Types (i j : fs_instance) (w : W).

(** The [n] sectors from [lba] on, as one byte sequence. *)
Fixpoint rd w (lba : Z) (n : nat) : list Z :=
  match n with O => [] | S n' => sec w lba ++ rd w (lba + 1) n' end.

Definition same_outside w w' (lba n : Z) : Prop := forall x, x < lba \/ lba + n <= x -> sec w' x = sec w x.

Definition same_disk w w' : Prop := forall x, sec w' x = sec w x.

Lemma rd_ext w w' lba n : (forall x, lba <= x < lba + Z.of_nat n -> sec w' x = sec w x) -> rd w' lba n = rd w lba n.
Proof.
  revert lba. induction n as [|n IH]; intros lba E; cbn [rd]; [done |].
  rewrite E, IH; [done | | lia]. intros. apply E. lia.
Qed.

Lemma read_sectors_spec n lba w w' r :
  0 <= lba -> lba + Z.of_nat n <= 4294967296 -> read_sectors n lba w = (w', r) ->
  same_disk w w' /\ forall l, r = Some l -> l = rd w lba n.
Proof.
  revert lba w w' r. induction n as [|n IH]; intros lba w w' r P B E; cbn [read_sectors] in E.
  - injection E as <- <-. split; [done | by intros l [= <-]].
  - rewrite u32_small in E by lia. destruct (dev_read_spec lba w) as (S1 & R1).
    destruct (dev_read lba w) as [w1 [b|]]; cbn [fst snd] in *; [| by injection E as <- <-].
    destruct (read_sectors n (lba + 1) w1) as [w2 [l2|]] eqn:E2;
      destruct (IH (lba + 1) w1 w2 _ ltac:(lia) ltac:(lia) E2) as (S2 & R2); injection E as <- <-.
    + split; [intros x; by rewrite S2 |]. intros l [= <-]. cbn [rd].
      rewrite (R1 b eq_refl), (R2 l2 eq_refl). f_equal. apply rd_ext. intros. apply S1.
    + split; [intros x; by rewrite S2 | done].
Qed.

Lemma write_sectors_spec n lba l w w' ok :
  0 <= lba -> lba + Z.of_nat n <= 4294967296 -> zlen l = 512 * Z.of_nat n ->
  write_sectors n lba l w = (w', ok) ->
  same_outside w w' lba (Z.of_nat n) /\ (ok = true -> rd w' lba n = l).
Proof.
  revert lba l w w' ok. induction n as [|n IH]; intros lba l w w' ok P B L E; cbn [write_sectors] in E.
  - injection E as <- <-. split; [done |]. intros _. cbn. destruct l; [done | rewrite zlen_cons in L; pose proof (zlen_nonneg l); lia].
  - rewrite u32_small in E by lia. destruct (dev_write_spec lba (ztake 512 l) w) as (S1 & R1).
    destruct (dev_write lba (ztake 512 l) w) as [w1 [|]]; cbn [fst snd] in *.
    2: { injection E as <- <-. split; [intros x Hx; apply S1; lia | done]. }
    destruct (IH (lba + 1) (zdrop 512 l) w1 w' ok ltac:(lia) ltac:(lia) ltac:(rewrite zlen_zdrop; lia) E) as (S2 & R2).
    split.
    + intros x Hx. rewrite S2 by lia. apply S1. lia.
    + intros Ok. cbn [rd]. rewrite (R2 Ok), S2, (R1 eq_refl) by (rewrite ?zlen_ztake; lia). apply ztake_zdrop.
Qed.

Lemma write_data_spec n lba l w w' ok :
  0 <= lba -> lba + Z.of_nat n <= 4294967296 -> zlen l <= 512 * Z.of_nat n ->
  write_data n lba l w = (w', ok) ->
  same_outside w w' lba (Z.of_nat n) /\ (ok = true -> rd w' lba n = l ++ zrep (512 * Z.of_nat n - zlen l) 0).
Proof.
  revert lba l w w' ok. induction n as [|n IH]; intros lba l w w' ok P B L E; cbn [write_data] in E.
  - injection E as <- <-. split; [done |]. intros _. pose proof (zlen_nonneg l).
    destruct l; [done | rewrite zlen_cons in *; pose proof (zlen_nonneg l); lia].
  - rewrite u32_small in E by lia. set (buf := ztake 512 l ++ zrep (512 - zlen (ztake 512 l)) 0) in E.
    destruct (dev_write_spec lba buf w) as (S1 & R1).
    destruct (dev_write lba buf w) as [w1 [|]]; cbn [fst snd] in *.
    2: { injection E as <- <-. split; [intros x Hx; apply S1; lia | done]. }
    destruct (IH (lba + 1) (zdrop 512 l) w1 w' ok ltac:(lia) ltac:(lia) ltac:(rewrite zlen_zdrop; lia) E) as (S2 & R2).
    split.
    + intros x Hx. rewrite S2 by lia. apply S1. lia.
    + intros Ok. cbn [rd].
      assert (Lb : zlen buf = 512) by (unfold buf; rewrite zlen_app, zlen_zrep by (rewrite zlen_ztake; lia); lia).
      rewrite (R2 Ok), S2, (R1 eq_refl Lb) by lia. unfold buf.
      rewrite zlen_ztake, zlen_zdrop by lia. destruct (decide (zlen l <= 512)).
      * assert (zdrop 512 l = []) as -> by (unfold zdrop; apply drop_ge; unfold zlen in *; lia).
        assert (ztake 512 l = l) as -> by (unfold ztake; apply take_ge; unfold zlen in *; lia).
        rewrite <- !app_assoc. f_equal. cbn [app]. unfold zrep. rewrite <- replicate_add. f_equal. lia.
      * replace (512 - _ `min` zlen l) with 0 by lia. cbn [zrep replicate Z.to_nat]. rewrite app_nil_r.
        rewrite app_assoc, ztake_zdrop. do 2 f_equal. lia.
Qed.

Lemma write_super_spec i w w' rc :
  super_ok (super i) -> 0 <= base_lba i -> base_lba i + FS_SUPER_SECTORS <= 4294967296 ->
  fs_write_super_inst i w = (w', rc) ->
  same_outside w w' (base_lba i) FS_SUPER_SECTORS /\ (rc = 0 \/ rc = -1) /\
  (rc = 0 -> rd w' (base_lba i) (Z.to_nat FS_SUPER_SECTORS) = encode_super (super i)).
Proof.
  intros O P B E. unfold fs_write_super_inst in E. pose proof (scratch_spec (FS_SUPER_SECTORS * 512) w) as S0.
  destruct (scratch (FS_SUPER_SECTORS * 512) w) as [w0 [|]]; cbn [fst] in S0.
  2: { injection E as <- <-. split; [intros x _; apply S0 | split; [by right | done]]. }
  destruct (write_sectors _ _ _ _) as [w1 ok] eqn:E1.
  destruct (write_sectors_spec (Z.to_nat FS_SUPER_SECTORS) (base_lba i) (encode_super (super i)) w0 w1 ok) as (S1 & R1);
    [done | done | by rewrite length_encode_super | done |].
  assert (S2 : same_outside w w1 (base_lba i) FS_SUPER_SECTORS).
  { intros x Hx. rewrite S1; [apply S0 |]. unfold FS_SUPER_SECTORS in *. lia. }
  destruct ok; injection E as <- <-; (split; [done | split; [auto |]]); [by auto | done].
Qed.

(** ** The invariant *)

(** Sectors of a file of [z] bytes. *)
Definition nsec (z : Z) : Z := u32 (z + 511) / 512.

(** Sector [q] belongs to the extent of [e]. *)
Definition in_ext (e : fs_entry) (q : Z) : bool :=
  (type e =? FS_TYPE_FILE) && negb (size e =? 0) && (start_sector e <=? q) && (q <? start_sector e + nsec (size e)).

Record fs_ok i : Prop := FsOk {
  fo_init : initialized i = true;
  fo_bm : bm_ok i;
  fo_super : super_ok (super i);
  fo_base : 0 <= base_lba i /\ base_lba i + n_sectors i <= 4294967296 /\ FS_SUPER_SECTORS <= n_sectors i;
  fo_reserved : forall q, 0 <= q < FS_SUPER_SECTORS -> used i q = true;
  fo_ext : forall k, 0 <= k < file_count (super i) -> type (file i k) = FS_TYPE_FILE -> size (file i k) <> 0 ->
    FS_SUPER_SECTORS <= start_sector (file i k) /\ start_sector (file i k) + nsec (size (file i k)) <= n_sectors i /\
    size (file i k) <= 4294966784;
  fo_used : forall k q, 0 <= k < file_count (super i) -> in_ext (file i k) q = true -> used i q = true;
  fo_disj : forall k l q, 0 <= k < file_count (super i) -> 0 <= l < file_count (super i) ->
    in_ext (file i k) q = true -> in_ext (file i l) q = true -> k = l
}.

Lemma in_ext_spec e q : in_ext e q = true <->
  type e = FS_TYPE_FILE /\ size e <> 0 /\ start_sector e <= q < start_sector e + nsec (size e).
Proof.
  unfold in_ext. rewrite !andb_true_iff, negb_true_iff, Z.eqb_eq, Z.eqb_neq, Z.leb_le, Z.ltb_lt. lia.
Qed.

Lemma nsec_bounds z : 0 <= z <= 4294966784 -> z <= 512 * nsec z < z + 512.
Proof. intros R. unfold nsec. rewrite u32_small by lia. Z.div_mod_to_equations. lia. Qed.

Lemma nsec_nonneg z : 0 <= nsec z.
Proof. unfold nsec. pose proof (u32_range (z + 511)). Z.div_mod_to_equations. lia. Qed.

Lemma mark_file_spec i k :
  bm_ok i -> 0 <= start_sector (file i k) ->
  (type (file i k) = FS_TYPE_FILE -> size (file i k) <> 0 ->
     start_sector (file i k) + nsec (size (file i k)) <= 4294967296) ->
  bm_ok (mark_file k i) /\ same_but_bitmap i (mark_file k i) /\
  forall q, 0 <= q -> used (mark_file k i) q = in_ext (file i k) q || used i q.
Proof.
  intros O P B. unfold mark_file, in_ext. destruct (type (file i k) =? FS_TYPE_FILE) eqn:Et; cbn [negb andb]; [| done].
  destruct (size (file i k) =? 0) eqn:Es; cbn [negb andb]; [done |]. zb. by apply set_run_spec; [| | apply B].
Qed.

(** Some file's extent covers [q]. *)
Definition covered i (n : nat) (q : Z) : bool :=
  match zfind n 0 (fun k => in_ext (file i k) q) with Some _ => true | None => false end.

Lemma covered_spec i n q : covered i n q = true <-> exists k, 0 <= k < Z.of_nat n /\ in_ext (file i k) q = true.
Proof.
  unfold covered. destruct (zfind _ _ _) as [k|] eqn:E.
  - destruct (zfind_Some _ _ _ _ E) as (R & T & _). split; [intros _; exists k; split; [lia | done] | done].
  - split; [done |]. intros (k & R & T). rewrite zfind_None in E. rewrite E in T; [done | lia].
Qed.

Lemma covered_S i n q : covered i (S n) q = in_ext (file i (Z.of_nat n)) q || covered i n q.
Proof.
  apply eq_true_iff_eq. rewrite orb_true_iff, !covered_spec. split.
  - intros (k & R & T). destruct (decide (k = Z.of_nat n)) as [-> |]; [by left |]. right. exists k. split; [lia | done].
  - intros [T | (k & R & T)]; [exists (Z.of_nat n) | exists k]; (split; [lia | done]).
Qed.

Lemma mark_all_spec i n :
  bm_ok i -> (forall k, 0 <= k < Z.of_nat n -> 0 <= start_sector (file i k) /\
    (type (file i k) = FS_TYPE_FILE -> size (file i k) <> 0 ->
     start_sector (file i k) + nsec (size (file i k)) <= 4294967296)) ->
  let j := zfor n 0 mark_file i in
  bm_ok j /\ same_but_bitmap i j /\ forall q, 0 <= q -> used j q = covered i n q || used i q.
Proof.
  intros O. induction n as [|n IH]; intros B; [done |]. cbv zeta. rewrite zfor_S_last, Z.add_0_l.
  destruct IH as (O1 & S1 & U1); [intros; apply B; lia |].
  set (j := zfor n 0 mark_file i) in *. assert (Ej : forall k, file j k = file i k).
  { intros k. unfold file. by destruct S1 as (_ & _ & _ & _ & ->). }
  destruct (B (Z.of_nat n) ltac:(lia)) as (B1 & B2).
  destruct (mark_file_spec j (Z.of_nat n)) as (O2 & S2 & U2); rewrite ?Ej; try done.
  split_and!; [done | by eapply same_trans |]. intros q Q. rewrite U2, U1, covered_S, Ej by done. by rewrite orb_assoc.
Qed.

Lemma used_rep n i q : n_sectors i <= 8192 -> 0 <= q ->
  used (set_bitmap i (zrep FS_BITMAP_BYTES_MAX n)) q = if n =? 0 then (n_sectors i <=? q)
    else used (set_bitmap i (zrep FS_BITMAP_BYTES_MAX n)) q.
Proof.
  intros N Q. destruct (n =? 0) eqn:E; zb; [| done]. subst. unfold used. cbn [n_sectors bitmap set_bitmap].
  destruct (n_sectors i <=? q) eqn:E; [done |]. zb. apply bm_test_rep_0.
  unfold FS_BITMAP_BYTES_MAX. change (8192 + 7) with 8199. Z.div_mod_to_equations. lia.
Qed.

Lemma mark_super_spec i n :
  bm_ok i -> bm_ok (zfor n 0 (fun s i => bitmap_set i s) i) /\
  same_but_bitmap i (zfor n 0 (fun s i => bitmap_set i s) i) /\
  forall q, 0 <= q -> used (zfor n 0 (fun s i => bitmap_set i s) i) q = (q <? Z.of_nat n) || used i q.
Proof.
  intros O. induction n as [|n (O1 & S1 & U1)].
  - split_and!; [done | done |]. intros q Q. cbn [zfor]. rewrite (proj2 (Z.ltb_ge q (Z.of_nat 0))); [done | lia].
  - rewrite zfor_S_last, Z.add_0_l. destruct (bitmap_set_spec _ (Z.of_nat n) O1 ltac:(lia)) as (O2 & S2 & U2).
    split_and!; [done | by eapply same_trans |]. intros q Q. rewrite U2, U1 by done.
    destruct (Z.of_nat n =? q) eqn:E1, (q <? Z.of_nat n) eqn:E2, (q <? Z.of_nat (S n)) eqn:E3; zb; try done; lia.
Qed.

Lemma used_same i j q : n_sectors i = n_sectors j -> bitmap i = bitmap j -> used i q = used j q.
Proof. intros E1 E2. unfold used. by rewrite E1, E2. Qed.

(** What [load_superblock] builds from a stored superblock. *)
Lemma load_spec i j w w'' i' rc :
  fs_ok i -> rd w (base_lba i) (Z.to_nat FS_SUPER_SECTORS) = encode_super (super i) ->
  base_lba j = base_lba i -> n_sectors j = n_sectors i -> load_superblock j w = (i', w'', rc) ->
  same_disk w w'' /\ (rc = 0 \/ rc = -1 /\ i' = j) /\
  (rc = 0 -> super i' = super i /\ initialized i' = true /\ base_lba i' = base_lba i /\ n_sectors i' = n_sectors i /\
     bm_ok i' /\ forall q, 0 <= q -> used i' q = (n_sectors i <=? q) || (q <? FS_SUPER_SECTORS) ||
                              covered i (Z.to_nat (file_count (super i))) q).
Proof.
  intros O R B N E. unfold load_superblock in E. destruct (fo_base _ O) as (B1 & B2 & B3). pose proof (fo_bm _ O) as Bm.
  destruct (read_sectors _ _ _) as [w1 r] eqn:E1. rewrite B in E1.
  destruct (read_sectors_spec (Z.to_nat FS_SUPER_SECTORS) (base_lba i) w w1 r B1) as (S1 & R1); [unfold FS_SUPER_SECTORS in *; lia | done |].
  destruct r as [sb|]; [| injection E as <- <- <-; by split_and!; auto].
  rewrite (R1 sb eq_refl), R in E. pose proof (fo_super _ O) as So.
  pose proof (decode_encode_super (super i) [] So) as D. rewrite app_nil_r in D.
  assert (M : ztake 8 (encode_super (super i)) = FS_MAGIC) by (unfold encode_super; rewrite (so_magic _ So); done).
  rewrite M, D, bool_decide_eq_true_2 in E by done. cbn [negb] in E. cbn [super set_super] in E.
  rewrite (proj2 (Z.ltb_ge FS_MAX_FILES (file_count (super i)))) in E by (apply So).
  set (j1 := set_bitmap (set_super j (super i)) (zrep FS_BITMAP_BYTES_MAX 0)) in E.
  assert (O1 : bm_ok j1) by (split; [reflexivity | cbn; rewrite N; apply Bm]).
  destruct (mark_super_spec j1 (Z.to_nat FS_SUPER_SECTORS) O1) as (O2 & S2 & U2).
  set (j2 := zfor (Z.to_nat FS_SUPER_SECTORS) 0 (fun s i => bitmap_set i s) j1) in *.
  assert (E2 : super j2 = super i) by (by destruct S2 as (_ & _ & _ & _ & ->)).
  rewrite E2 in E. assert (Ej : forall k, file j2 k = file i k) by (intros; unfold file; by rewrite E2).
  destruct (mark_all_spec j2 (Z.to_nat (file_count (super i))) O2) as (O3 & S3 & U3).
  { intros k Rk. rewrite Ej. rewrite Z2Nat.id in Rk by apply So.
    assert (Fk : entry_ok (file i k)).
    { unfold file. pose proof (so_files _ So) as F. rewrite Forall_lookup in F. eapply F. apply lookup_zget.
      rewrite (so_len _ So). pose proof (so_count _ So). lia. }
    split; [apply Fk |]. intros T Z0. destruct (fo_ext _ O k Rk T Z0). lia. }
  set (j3 := zfor (Z.to_nat (file_count (super i))) 0 mark_file j2) in *.
  injection E as <- <- <-. split; [done | split; [by left |]]. intros _.
  pose proof (same_trans _ _ _ S2 S3) as (_ & _ & Q1 & Q2 & Q3). cbn [super initialized base_lba n_sectors].
  split_and!; [by rewrite Q3 | done | by rewrite Q1 | by rewrite Q2 | split; [apply O3 | apply O3] |].
  intros q Q. rewrite (used_same _ j3) by done. rewrite U3, U2 by done.
  rewrite Z2Nat.id by done. unfold j1. rewrite used_rep by (done || (cbn; rewrite N; apply Bm)). cbn [Z.eqb n_sectors set_super].
  rewrite N. assert (covered j2 (Z.to_nat (file_count (super i))) q = covered i (Z.to_nat (file_count (super i))) q) as ->.
  { unfold covered. erewrite zfind_ext; [done |]. intros k _. by rewrite Ej. }
  destruct (covered _ _ _), (q <? FS_SUPER_SECTORS), (n_sectors i <=? q); done.
Qed.

(** The reloaded instance satisfies the invariant. *)
Lemma reload_ok i i' :
  fs_ok i -> super i' = super i -> initialized i' = true -> base_lba i' = base_lba i -> n_sectors i' = n_sectors i ->
  bm_ok i' -> (forall q, 0 <= q -> used i' q = (n_sectors i <=? q) || (q <? FS_SUPER_SECTORS) ||
                 covered i (Z.to_nat (file_count (super i))) q) -> fs_ok i'.
Proof.
  intros O Es Ei Eb En Bm U. assert (Ef : forall k, file i' k = file i k) by (intros; unfold file; by rewrite Es).
  pose proof (so_count _ (fo_super _ O)) as C.
  split; try done.
  - rewrite Es. apply O.
  - rewrite Eb, En. apply O.
  - intros q Q. rewrite U by lia. rewrite (proj2 (Z.ltb_lt q FS_SUPER_SECTORS)) by lia. by rewrite orb_true_r.
  - intros k. rewrite Es, Ef, En. apply O.
  - intros k q. rewrite Es, Ef. intros Rk T. assert (Q : 0 <= q).
    { apply in_ext_spec in T as (T1 & T2 & T3). destruct (fo_ext _ O k Rk T1 T2). unfold FS_SUPER_SECTORS in *. lia. }
    rewrite U by done. rewrite (proj2 (covered_spec _ _ _)); [by rewrite orb_true_r |]. exists k. split; [lia | done].
  - intros k l q. rewrite Es, !Ef. apply O.
Qed.

(** ** Reading back *)

Lemma zlen_rd w lba n : zlen (rd w lba n) = 512 * Z.of_nat n.
Proof.
  revert lba. induction n as [|n IH]; intros lba; cbn [rd]; [done |]. rewrite zlen_app, sec_len, IH. lia.
Qed.

Lemma slice_len off n (l : list Z) : 0 <= off -> 0 <= n -> off + n <= zlen l -> zlen (slice off n l) = n.
Proof. intros. unfold slice. rewrite zlen_ztake, zlen_zdrop by lia. lia. Qed.

Lemma slice_slice a b off n (l : list Z) : 0 <= a -> 0 <= off -> 0 <= n -> off + n <= b ->
  slice off n (slice a b l) = slice (a + off) n l.
Proof.
  intros. unfold slice, ztake, zdrop. rewrite skipn_firstn_comm, drop_drop, take_take. f_equal; [lia |]. f_equal. lia.
Qed.

Lemma slice_cat off a b (l : list Z) : 0 <= off -> 0 <= a -> 0 <= b ->
  slice off a l ++ slice (off + a) b l = slice off (a + b) l.
Proof.
  intros. unfold slice, ztake, zdrop. replace (Z.to_nat (off + a)) with (Z.to_nat off + Z.to_nat a)%nat by lia.
  rewrite <- drop_drop. rewrite Z2Nat.inj_add by lia. rewrite <- take_take_drop. done.
Qed.

Lemma rd_slice w lba n q : 0 <= q < Z.of_nat n -> sec w (lba + q) = slice (512 * q) 512 (rd w lba n).
Proof.
  revert lba q. induction n as [|n IH]; intros lba q R; [lia |]. cbn [rd].
  destruct (decide (q = 0)) as [-> | Ne].
  - rewrite Z.add_0_r. symmetry. apply (slice_app 0 512 [] (sec w lba)); [done | apply sec_len].
  - replace (lba + q) with (lba + 1 + (q - 1)) by lia. rewrite (IH (lba + 1) (q - 1)) by lia.
    unfold slice, zdrop. pose proof (sec_len w lba) as L. unfold zlen in L.
    replace (Z.to_nat (512 * q)) with (length (sec w lba) + Z.to_nat (512 * (q - 1)))%nat by lia.
    by rewrite drop_app_add.
Qed.

(** The bytes of an entry's file on the disk. *)
Definition file_bytes i w (e : fs_entry) : list Z :=
  ztake (size e) (rd w (base_lba i + start_sector e) (Z.to_nat (nsec (size e)))).

Lemma iread_loop_spec fuel i e offset n total out w w' r :
  0 <= base_lba i -> 0 <= start_sector e -> 0 <= total -> 0 <= n -> 0 <= offset -> 0 <= size e <= 4294966784 ->
  base_lba i + start_sector e + nsec (size e) <= 4294967296 -> offset + total + n <= size e ->
  n = 0 \/ (offset + total) mod 512 + n <= 512 * Z.of_nat fuel ->
  iread_loop fuel i e offset n total out w = (w', r) ->
  same_disk w w' /\ forall l, r = Some l ->
    l = out ++ slice (offset + total) n (rd w (base_lba i + start_sector e) (Z.to_nat (nsec (size e)))).
Proof.
  revert n total out w w' r.
  induction fuel as [|fuel IH]; intros n total out w w' r B1 B2 B3 B4 B5 B6 B7 B8 F E.
  { cbn in E. injection E as <- <-. split; [done |]. intros l [= <-].
    assert (n = 0) as -> by (Z.div_mod_to_equations; lia). unfold slice. cbn. by rewrite app_nil_r. }
  cbn [iread_loop] in E. destruct (n =? 0) eqn:En; zb.
  { injection E as <- <-. subst n. split; [done |]. intros l [= <-]. unfold slice. cbn. by rewrite app_nil_r. }
  pose proof (nsec_bounds (size e) B6) as Ns. rewrite (u32_small (offset + total)) in E by lia.
  set (ab := offset + total) in *. set (q := ab / 512). set (oi := ab mod 512) in *.
  assert (Q : ab = 512 * q + oi /\ 0 <= oi < 512 /\ 0 <= q < nsec (size e))
    by (unfold q, oi; pose proof (Z.div_mod ab 512 ltac:(lia)); pose proof (Z.mod_pos_bound ab 512 ltac:(lia));
        assert (0 <= ab / 512) by (apply Z.div_pos; lia); lia).
  change (ab / 512) with q in E. rewrite u32_small in E by lia.
  destruct (dev_read_spec (base_lba i + start_sector e + q) w) as (S1 & R1).
  destruct (dev_read (base_lba i + start_sector e + q) w) as [w1 [b|]]; cbn [fst snd] in *;
    [| injection E as <- <-; by split].
  set (take_ := if n <? 512 - oi then n else 512 - oi) in *.
  assert (T : 0 < take_ <= n /\ take_ <= 512 - oi /\ (take_ = n \/ take_ = 512 - oi)) by (unfold take_; cases; lia).
  rewrite (u32_small (total + take_)) in E by lia.
  destruct (IH (n - take_) (total + take_) (out ++ slice oi take_ b) w1 w' r B1 B2 ltac:(lia) ltac:(lia) B5 B6 B7 ltac:(lia)) as (S2 & R2); [| exact E |].
  { destruct T as (T1 & T2 & [T3 | T3]); [left; lia | right].
    replace (offset + (total + take_)) with (512 * (q + 1)) by lia.
    rewrite (Z.mul_comm 512), Z.mod_mul by lia. lia. }
  split; [intros x; by rewrite S2 |]. intros l El. rewrite (R2 l El), <- app_assoc. f_equal.
  replace (offset + (total + take_)) with (ab + take_) by lia.
  rewrite (R1 b eq_refl), (rd_slice w (base_lba i + start_sector e) (Z.to_nat (nsec (size e))) q) by lia.
  rewrite slice_slice by lia. replace (512 * q + oi) with ab by lia.
  rewrite (rd_ext w w1) by (intros; apply S1). rewrite slice_cat by lia. f_equal. lia.
Qed.

(** [fs_iread_inst] returns the part of the file asked for. *)
Lemma iread_spec i idx off n w w' r :
  fs_ok i -> live i idx = true -> type (file i idx) = FS_TYPE_FILE -> size (file i idx) <= 4294966784 ->
  0 <= off -> 0 <= n -> off + n < 4294967296 -> fs_iread_inst i idx off n w = (w', r) ->
  same_disk w w' /\ forall out, r = Some out -> out = ztake n (zdrop off (file_bytes i w (file i idx))).
Proof.
  intros O Lv Ty Sz Po Pn B E. unfold fs_iread_inst in E. rewrite Lv, Ty in E. cbn [negb] in E.
  change (FS_TYPE_FILE =? FS_TYPE_FILE) with true in E. cbn [negb] in E.
  unfold live in Lv. zb. set (e := file i idx) in *. destruct (fo_base _ O) as (B1 & B2 & B3).
  assert (Eo : entry_ok e).
  { unfold e, file. pose proof (so_files _ (fo_super _ O)) as F. rewrite Forall_lookup in F. eapply F. apply lookup_zget.
    rewrite (so_len _ (fo_super _ O)). pose proof (so_count _ (fo_super _ O)). lia. }
  pose proof (eo_size _ Eo) as Es. pose proof (nsec_bounds (size e) ltac:(lia)) as Ns.
  assert (Lf : zlen (file_bytes i w e) = size e) by (unfold file_bytes; rewrite zlen_ztake, zlen_rd by lia; lia).
  destruct (size e <=? off) eqn:Eo2; zb.
  { injection E as <- <-. split; [done |]. intros out [= <-].
    assert (zdrop off (file_bytes i w e) = []) as -> by (unfold zdrop; apply drop_ge; unfold zlen in Lf; lia).
    unfold ztake. by rewrite take_nil. }
  rewrite (u32_small (off + n)) in E by lia.
  set (n' := if size e <? off + n then u32 (size e - off) else n) in E.
  assert (En : n' = Z.min n (size e - off)) by (unfold n'; cases; rewrite ?u32_small by lia; lia).
  destruct (fo_ext _ O idx ltac:(lia) Ty ltac:(fold e; lia)) as (X1 & X2). fold e in X1, X2. unfold FS_SUPER_SECTORS in X1.
  destruct (iread_loop_spec (Z.to_nat (n' / 512 + 2)) i e off n' 0 [] w w' r B1 ltac:(lia) (Z.le_refl 0) ltac:(lia) Po
    ltac:(lia) ltac:(lia) ltac:(lia)
    ltac:(right; rewrite Z.add_0_r; pose proof (Z.mod_pos_bound off 512 ltac:(lia)); Z.div_mod_to_equations; lia) E) as (S & R).
  split; [done |]. intros out Eout. rewrite (R out Eout). cbn [app]. rewrite Z.add_0_r, En.
  unfold file_bytes, slice, ztake, zdrop. rewrite skipn_firstn_comm, take_take. f_equal. lia.
Qed.

(** ** Names *)

(** A name of at most sixteen characters, padded with NULs. *)
Definition padded (base : list Z) : list Z := base ++ zrep (FS_NAME_MAX - zlen base) 0.

Definition nul_free (l : list Z) : Prop := Forall (fun c => c <> 0) l.

Lemma name_eq_spec en s :
  name_eq_slice en s = true <->
  zlen s <= FS_NAME_MAX /\ (forall k, 0 <= k < zlen s -> zget en k = zget s k) /\
  (zlen s < FS_NAME_MAX -> zget en (zlen s) = 0).
Proof.
  unfold name_eq_slice. destruct (FS_NAME_MAX <? zlen s) eqn:E; zb; [split; [done | lia] |].
  destruct (zfind _ _ _) as [k|] eqn:F.
  - destruct (zfind_Some _ _ _ _ F) as (R & T & _). zb. split; [done |]. intros (_ & C & _).
    destruct T. apply C. pose proof (zlen_nonneg s). lia.
  - rewrite zfind_None in F. rewrite negb_true_iff, andb_false_iff, negb_false_iff, Z.ltb_ge, Z.eqb_eq.
    assert (C : forall k, 0 <= k < zlen s -> zget en k = zget s k).
    { intros k Rk. specialize (F k ltac:(pose proof (zlen_nonneg s); lia)). zb. done. }
    split; [intros [L | Z0]; split_and!; try done; lia |]. intros (_ & _ & Z0).
    destruct (decide (zlen s < FS_NAME_MAX)); [right; auto | left; lia].
Qed.

Lemma nul_free_get l k : nul_free l -> 0 <= k < zlen l -> zget l k <> 0.
Proof. intros F R. unfold nul_free in F. rewrite Forall_lookup in F. eapply F. by apply lookup_zget. Qed.

Lemma padded_eq base nm :
  nul_free base -> nul_free nm -> zlen base <= FS_NAME_MAX ->
  (name_eq_slice (padded base) nm = true <-> nm = base).
Proof.
  intros Fb Fn L. rewrite name_eq_spec. pose proof (zlen_nonneg base). pose proof (zlen_nonneg nm).
  assert (G : forall k, 0 <= k < FS_NAME_MAX -> zget (padded base) k = if k <? zlen base then zget base k else 0).
  { intros k R. unfold padded. destruct (k <? zlen base) eqn:E; zb; [apply zget_app_l; lia |].
    rewrite zget_app_r by lia. apply zget_zrep. lia. }
  split.
  - intros (L2 & C & T). assert (Q : zlen nm = zlen base).
    { destruct (Z.lt_trichotomy (zlen nm) (zlen base)) as [Lt | [? | Gt]]; [| done |].
      - specialize (T ltac:(lia)). rewrite G in T by lia. rewrite (proj2 (Z.ltb_lt _ _)) in T by lia.
        by destruct (nul_free_get base (zlen nm) Fb ltac:(lia)).
      - specialize (C (zlen base) ltac:(lia)). rewrite G in C by lia.
        rewrite (proj2 (Z.ltb_ge _ _)) in C by lia. by destruct (nul_free_get nm (zlen base) Fn ltac:(lia)). }
    apply zlist_eq; [done |]. intros k Rk. rewrite <- C by done. rewrite G by lia. by rewrite (proj2 (Z.ltb_lt _ _)) by lia.
  - intros ->. split_and!; [done | |].
    + intros k R. rewrite G by lia. by rewrite (proj2 (Z.ltb_lt _ _)) by lia.
    + intros Lt. rewrite G by lia. by rewrite (proj2 (Z.ltb_ge _ _)) by lia.
Qed.

(** ** Looking names up *)

Definition hit i (parent : Z) (nm : list Z) (k : Z) : bool :=
  negb (type (file i k) =? FS_TYPE_FREE) && (parent_dir (file i k) =? parent) && name_eq_slice (name (file i k)) nm.

Lemma find_spec i p nm :
  0 <= file_count (super i) ->
  (find_in_dir_inst i p nm = -1 /\ forall k, 0 <= k < file_count (super i) -> hit i p nm k = false) \/
  (0 <= find_in_dir_inst i p nm < file_count (super i) /\ hit i p nm (find_in_dir_inst i p nm) = true /\
   forall k, 0 <= k < find_in_dir_inst i p nm -> hit i p nm k = false).
Proof.
  intros C. unfold find_in_dir_inst. destruct (zfind _ _ _) as [k|] eqn:E.
  - destruct (zfind_Some _ _ _ _ E) as (R & T & F). right. split_and!; [lia | lia | exact T | exact F].
  - left. split; [done |]. rewrite zfind_None in E. intros k R. apply (E k). lia.
Qed.

(** [j] is [i] with entry [e] put in slot [idx], which was free or just past the end. *)
Record added i j (idx : Z) (e : fs_entry) : Prop := Added {
  ad_file : file j idx = e;
  ad_other : forall k, 0 <= k < file_count (super i) -> k <> idx -> file j k = file i k;
  ad_slot : (0 <= idx < file_count (super i) /\ type (file i idx) = FS_TYPE_FREE /\
             file_count (super j) = file_count (super i)) \/
            (idx = file_count (super i) /\ file_count (super j) = idx + 1);
  ad_init : initialized j = initialized i;
  ad_live : type e <> FS_TYPE_FREE
}.

Lemma added_hit i j idx e p nm k :
  added i j idx e -> 0 <= k < file_count (super i) -> k <> idx -> hit j p nm k = hit i p nm k.
Proof. intros A R Ne. unfold hit. by rewrite (ad_other _ _ _ _ A). Qed.

Lemma added_free i j idx e p nm : added i j idx e -> 0 <= idx < file_count (super i) -> hit i p nm idx = false.
Proof.
  intros A R. unfold hit. destruct (ad_slot _ _ _ _ A) as [(_ & -> & _) | (-> & _)]; [done | lia].
Qed.

(** A lookup after the addition: the new name is found, the others as before. *)
Lemma find_added i j idx e p base nm q :
  0 <= file_count (super i) -> added i j idx e -> parent_dir e = p -> name e = padded base ->
  nul_free base -> nul_free nm -> zlen base <= FS_NAME_MAX -> find_in_dir_inst i p base = -1 ->
  find_in_dir_inst j q nm = if decide (q = p /\ nm = base) then idx else find_in_dir_inst i q nm.
Proof.
  intros C A Ep En Fb Fn L Mi.
  assert (Hi : hit j q nm idx = bool_decide (q = p /\ nm = base)).
  { unfold hit. rewrite (ad_file _ _ _ _ A), Ep, En. apply eq_true_iff_eq.
    rewrite bool_decide_eq_true, !andb_true_iff, padded_eq, negb_true_iff, Z.eqb_neq, Z.eqb_eq by done.
    pose proof (ad_live _ _ _ _ A). intuition congruence. }
  assert (R : 0 <= idx < file_count (super j) /\ (file_count (super j) = file_count (super i) \/
    file_count (super j) = file_count (super i) + 1 /\ idx = file_count (super i)) /\ 0 <= file_count (super j))
    by (destruct (ad_slot _ _ _ _ A) as [(R & _ & ->) | (-> & ->)]; lia).
  assert (Oth : forall k, 0 <= k < file_count (super j) -> k <> idx -> 0 <= k < file_count (super i) /\ hit j q nm k = hit i q nm k).
  { intros k Rk Ne. assert (0 <= k < file_count (super i)) by lia. split; [done | by eapply added_hit]. }
  destruct (decide (q = p /\ nm = base)) as [(-> & ->) | N].
  - destruct (find_spec i p base C) as [(_ & F) | (R' & _)]; [| lia].
    unfold find_in_dir_inst. erewrite (zfind_least _ _ _ idx); [done | lia | | ].
    + change (hit j p base idx = true). rewrite Hi. by apply bool_decide_eq_true.
    + intros k Rk. change (hit j p base k = false). destruct (Oth k ltac:(lia) ltac:(lia)) as (R' & ->). by apply F.
  - rewrite bool_decide_eq_false_2 in Hi by done.
    destruct (find_spec i q nm C) as [(-> & F) | (R' & T & F)].
    + unfold find_in_dir_inst. destruct (zfind _ _ _) as [k|] eqn:E; [| done].
      destruct (zfind_Some _ _ _ _ E) as (Rk & T & _). change (hit j q nm k = true) in T.
      destruct (decide (k = idx)) as [-> | Ne]; [congruence |].
      destruct (Oth k ltac:(lia) Ne) as (R' & Q). rewrite Q, F in T; done.
    + set (k := find_in_dir_inst i q nm) in *. unfold find_in_dir_inst.
      assert (k <> idx) by (intros E; rewrite E in *; by rewrite (added_free i j idx e) in T).
      erewrite (zfind_least _ _ _ k); [done | lia | |].
      * change (hit j q nm k = true). by rewrite (added_hit i j idx e).
      * intros k' Rk. change (hit j q nm k' = false). destruct (decide (k' = idx)) as [-> | Ne]; [done |].
        rewrite (added_hit i j idx e) by (done || lia). by apply F.
Qed.

(** ** Walking paths *)

Definition no_slash (l : list Z) : Prop := Forall (fun c => c <> SLASH) l.

Lemma component_spec p :
  p = fst (component p) ++ snd (component p) /\ no_slash (fst (component p)) /\
  (snd (component p) = [] \/ exists r, snd (component p) = SLASH :: r).
Proof.
  induction p as [|c p (E & N & T)]; [split_and!; [done | constructor | by left] |].
  cbn [component]. destruct (c =? SLASH) eqn:Ec; zb; cbn [fst snd].
  - subst. split_and!; [done | constructor | right; by exists p].
  - destruct (component p) as [a b]. cbn [fst snd] in *. split_and!; [by rewrite E at 1 | by constructor | done].
Qed.

Lemma component_app p t : component (p ++ SLASH :: t) = (fst (component p), snd (component p) ++ SLASH :: t).
Proof.
  induction p as [|c p IH]; cbn [component app]; [done |]. destruct (c =? SLASH); [done |].
  rewrite IH. by destruct (component p).
Qed.

Lemma component_flat p : no_slash p -> component p = (p, []).
Proof.
  induction p as [|c p IH]; intros N; [done |]. apply Forall_cons in N as (Nc & N). cbn [component].
  rewrite (proj2 (Z.eqb_neq c SLASH)) by done. by rewrite IH.
Qed.

Lemma zdrop1 {A} (x : A) l : zdrop 1 (x :: l) = l.
Proof. reflexivity. Qed.

(** A walk that ends at a directory extends by one more name. *)
Lemma walk_snoc fuel i p parent last f2 base :
  (length p < fuel)%nat -> (length p + S (length base) < f2)%nat -> base <> [] -> no_slash base ->
  last < 0 \/ parent = u8 last ->
  let r := iopen_walk fuel i parent p last in
  0 <= r -> type (file i r) = FS_TYPE_DIR ->
  iopen_walk f2 i parent (p ++ SLASH :: base) last = find_in_dir_inst i (u8 r) base.
Proof.
  intros L1 L2 Nb Ns. revert p parent last f2 L1 L2.
  induction fuel as [|fuel IH]; intros p parent last f2 L1 L2 Pa; [lia |]. cbv zeta. cbn [iopen_walk].
  destruct f2 as [|f2]; [lia |].
  destruct p as [|c p].
  { intros R T. destruct Pa as [| ->]; [lia |]. cbn [app iopen_walk component]. change (SLASH =? SLASH) with true. cbv iota.
    rewrite zdrop1. cbn [length Nat.add] in L2. destruct f2 as [|f2]; [lia |]. cbn [iopen_walk].
    destruct base as [|b base]; [done |]. rewrite component_flat by done.
    destruct (find_in_dir_inst i (u8 last) (b :: base) <? 0) eqn:E; zb; [| done].
    unfold find_in_dir_inst in *. destruct (zfind _ _ _) as [k|] eqn:Ez; [| done].
    destruct (zfind_Some _ _ _ _ Ez). lia. }
  destruct (component_spec (c :: p)) as (Ep & Nc & Tl). cbn [iopen_walk].
  rewrite (app_comm_cons p (SLASH :: base) c) || idtac.
  change ((c :: p) ++ SLASH :: base) with (c :: (p ++ SLASH :: base)). cbn [iopen_walk].
  change (c :: (p ++ SLASH :: base)) with ((c :: p) ++ SLASH :: base). rewrite component_app.
  destruct (component (c :: p)) as [nm rest]. cbn [fst snd] in *.
  assert (Lp : length (c :: p) = (length nm + length rest)%nat) by (rewrite Ep, length_app; done).
  destruct nm as [|a nm].
  - destruct Tl as [-> | (r & ->)]; [done |]. rewrite zdrop1. cbn [app]. rewrite zdrop1.
    cbn [length] in *. apply IH; [lia | lia | done].
  - destruct (find_in_dir_inst i parent (a :: nm) <? 0) eqn:E; zb; [lia |].
    destruct Tl as [-> | (r & ->)]; cbn [app].
    + intros R T. rewrite T. cbn [negb Z.eqb]. change (FS_TYPE_DIR =? FS_TYPE_DIR) with true. cbn [negb].
      rewrite zdrop1. destruct f2 as [|f2]; [cbn [length] in *; lia |]. cbn [iopen_walk].
      destruct base as [|b base]; [done |]. rewrite component_flat by done.
      destruct (find_in_dir_inst i (u8 (find_in_dir_inst i parent (a :: nm))) (b :: base) <? 0) eqn:E2; zb; [| done].
      unfold find_in_dir_inst in E2 |- *. destruct (zfind _ _ _) as [k|] eqn:Ez; [| done].
      destruct (zfind_Some _ _ _ _ Ez). lia.
    + destruct (negb _); [lia |]. rewrite !zdrop1. cbn [length] in *. apply IH; [lia | lia | by right].
Qed.

Lemma find_neg i p nm : find_in_dir_inst i p nm < 0 -> find_in_dir_inst i p nm = -1.
Proof.
  unfold find_in_dir_inst. destruct (zfind _ _ _) as [k|] eqn:E; [| done].
  destruct (zfind_Some _ _ _ _ E). lia.
Qed.

(** A walk that succeeds still does when the lookups it makes keep their result. *)
Lemma walk_mono fuel i j p parent last :
  (forall q nm, nul_free nm -> 0 <= find_in_dir_inst i q nm -> find_in_dir_inst j q nm = find_in_dir_inst i q nm /\
     type (file j (find_in_dir_inst i q nm)) = type (file i (find_in_dir_inst i q nm))) ->
  nul_free p -> 0 <= iopen_walk fuel i parent p last ->
  iopen_walk fuel j parent p last = iopen_walk fuel i parent p last.
Proof.
  intros Q. revert p parent last. induction fuel as [|fuel IH]; intros p parent last Np R; cbn [iopen_walk] in *; [done |].
  destruct p as [|c p]; [done |]. destruct (component_spec (c :: p)) as (Ep & _ & _).
  destruct (component (c :: p)) as [nm rest]. cbn [fst snd] in Ep. unfold nul_free in Np. rewrite Ep in Np.
  apply Forall_app in Np as (Nn & Nr).
  assert (Nd : nul_free (zdrop 1 rest)) by (apply Forall_drop, Nr).
  destruct nm as [|a nm]; [by apply IH |].
  destruct (find_in_dir_inst i parent (a :: nm) <? 0) eqn:E; zb; [lia |].
  destruct (Q parent (a :: nm) Nn E) as (-> & ->). rewrite (proj2 (Z.ltb_ge _ 0)) by done.
  destruct rest as [|d rest]; [done |]. destruct (negb _); [done |]. by apply IH.
Qed.

Lemma added_lookups i j idx e p base :
  0 <= file_count (super i) -> added i j idx e -> parent_dir e = p -> name e = padded base ->
  nul_free base -> zlen base <= FS_NAME_MAX -> find_in_dir_inst i p base = -1 ->
  forall q nm, nul_free nm -> 0 <= find_in_dir_inst i q nm -> find_in_dir_inst j q nm = find_in_dir_inst i q nm /\
    type (file j (find_in_dir_inst i q nm)) = type (file i (find_in_dir_inst i q nm)).
Proof.
  intros C A Ep En Fb L Mi q nm Fn R. rewrite (find_added i j idx e p base nm q) by done.
  destruct (decide _) as [(-> & ->) |]; [lia |]. split; [done |].
  destruct (find_spec i q nm C) as [(E & _) | (R' & T & _)]; [lia |].
  rewrite (ad_other _ _ _ _ A); [done | done |]. intros E. rewrite E in T, R'.
  by rewrite (added_free i j idx e) in T.
Qed.

(** ** Splitting paths *)

Lemma last_slash_spec path :
  match last_slash path with
  | None => no_slash path
  | Some k => 0 <= k < zlen path /\ path = ztake k path ++ SLASH :: zdrop (k + 1) path /\ no_slash (zdrop (k + 1) path)
  end.
Proof.
  unfold last_slash.
  pose (P := fun (n : nat) (acc : option Z) =>
    match acc with
    | None => forall q, 0 <= q < Z.of_nat n -> zget path q <> SLASH
    | Some k => 0 <= k < Z.of_nat n /\ zget path k = SLASH /\ forall q, k < q < Z.of_nat n -> zget path q <> SLASH
    end).
  assert (G : forall n, (n <= length path)%nat -> P n (foldl (fun acc k => if zget path (Z.of_nat k) =? SLASH
    then Some (Z.of_nat k) else acc) None (seq 0 n))).
  { induction n as [|n IH]; intros L; [cbn; intros; lia |]. rewrite seq_S, foldl_app. cbn [foldl Nat.add].
    specialize (IH ltac:(lia)). destruct (zget path (Z.of_nat n) =? SLASH) eqn:E; zb.
    - cbn. split_and!; [lia | lia | done | intros; lia].
    - destruct (foldl _ _ _) as [k|]; cbn in *.
      + destruct IH as (R & Ek & F). split_and!; [lia | lia | done |]. intros q Rq.
        destruct (decide (q = Z.of_nat n)) as [-> | Ne]; [done | apply F; lia].
      + intros q Rq. destruct (decide (q = Z.of_nat n)) as [-> | Ne]; [done | apply IH; lia]. }
  specialize (G (length path) ltac:(lia)). destruct (foldl _ _ _) as [k|]; cbn in G.
  - destruct G as (R & Ek & F). split; [unfold zlen; lia |].
    assert (Ep : path = ztake k path ++ SLASH :: zdrop (k + 1) path).
    { rewrite <- Ek. unfold ztake, zdrop. replace (Z.to_nat (k + 1)) with (S (Z.to_nat k)) by lia.
      rewrite (take_drop_middle path (Z.to_nat k) (zget path k)); [done |]. apply lookup_zget. unfold zlen. lia. }
    split; [exact Ep |]. apply Forall_lookup. intros q c Ec. unfold zdrop in Ec. rewrite lookup_drop in Ec.
    pose proof (lookup_lt_Some _ _ _ Ec). specialize (F (Z.of_nat (Z.to_nat (k + 1) + q)) ltac:(lia)).
    unfold zget in F. rewrite Nat2Z.id in F. by rewrite (list_lookup_total_correct _ _ _ Ec) in F.
  - apply Forall_lookup. intros q c Ec. pose proof (lookup_lt_Some _ _ _ Ec).
    specialize (G (Z.of_nat q) ltac:(lia)). unfold zget in G. rewrite Nat2Z.id in G.
    by rewrite (list_lookup_total_correct _ _ _ Ec) in G.
Qed.

Definition task_ok (cur : option task) : Prop :=
  match cur with Some t => 0 <= t_uid t < 65536 /\ 0 <= t_gid t < 65536 /\ 0 <= cwd_dir t < 256 | None => True end.

(** The path of an entry opens as a lookup of its base name in its parent. *)
Lemma split_open i path fr ri cur parent base :
  initialized i = true -> task_ok cur -> fr || ri = true ->
  split_path_inst i path fr ri cur = Some (parent, base) ->
  fs_iopen_inst i path fr cur = find_in_dir_inst i (u8 parent) base /\ no_slash base /\ base <> [] /\
  zlen base <= FS_NAME_MAX /\ (exists pre, path = pre ++ base).
Proof.
  intros Ini Tk Fr E. unfold split_path_inst in E. pose proof (last_slash_spec path) as Ls.
  destruct (last_slash path) as [k|].
  - destruct Ls as (Rk & Ep & Ns). destruct (k =? 0) eqn:Ek; zb.
    + subst k. change (ztake 0 path) with (@nil Z) in Ep. cbn [app] in Ep. change (0 + 1) with 1 in *.
      destruct (zlen (zdrop 1 path) =? 0) eqn:E0; [done |]. destruct (FS_NAME_MAX <? _) eqn:E1; [done |]. zb.
      injection E as <- <-. set (b := zdrop 1 path) in *. split_and!; [| done | by intros ->| lia | by exists [SLASH]].
      rewrite Ep. unfold fs_iopen_inst. rewrite Ini. cbn [negb]. change (SLASH =? SLASH) with true. cbv iota.
      destruct b as [|c b']; [done |]. cbn [iopen_walk length]. rewrite component_flat by done.
      destruct (_ <? 0) eqn:Ef; zb; [symmetry; by apply find_neg | done].
    + destruct (128 <=? k); [done |].
      destruct (fs_iopen_inst i (ztake k path) fr cur <? 0) eqn:Er; [done |].
      destruct (negb (type (file i (fs_iopen_inst i (ztake k path) fr cur)) =? FS_TYPE_DIR)) eqn:Et; [done |].
      destruct (zlen (zdrop (k + 1) path) =? 0) eqn:E0; [done |]. destruct (FS_NAME_MAX <? _) eqn:E1; [done |]. zb.
      injection E as <- <-. set (b := zdrop (k + 1) path) in *.
      assert (Nb : b <> []) by (by intros ->).
      split_and!; [| done | done | lia | by exists (ztake k path ++ [SLASH]); rewrite <- app_assoc].
      rewrite Ep at 1. unfold fs_iopen_inst in Er, Et |- *. rewrite Ini in Er, Et |- *. cbn [negb] in Er, Et |- *.
      destruct (ztake k path) as [|c p] eqn:Epre; [apply (f_equal zlen) in Epre; rewrite zlen_ztake in Epre by lia; unfold zlen at 2 in Epre; cbn [length] in Epre; lia |].
      cbn [app]. destruct (c =? SLASH) eqn:Ec.
      * destruct p as [|c2 p]; [lia |]. cbn [app].
        change (c2 :: p ++ SLASH :: b) with ((c2 :: p) ++ SLASH :: b).
        apply (walk_snoc (S (length (c2 :: p)))); try done; [lia | rewrite length_app; cbn [length]; lia | by left].
      * destruct fr; cbn [app];
        change (c :: p ++ SLASH :: b) with ((c :: p) ++ SLASH :: b);
        (apply (walk_snoc (S (length (c :: p)))); try done; [lia | rewrite length_app; cbn [length]; lia | by left]).
  - destruct (zlen path =? 0) eqn:E0; [done |]. destruct (FS_NAME_MAX <? zlen path) eqn:E1; [done |]. zb.
    injection E as <- <-. split_and!; [| done | by intros -> | lia | by exists []].
    unfold fs_iopen_inst. rewrite Ini. cbn [negb]. destruct path as [|c p]; [done |].
    assert (Nc := Ls). apply Forall_cons in Nc as (Nc & _). rewrite (proj2 (Z.eqb_neq c SLASH)) by done.
    set (pd := match cur with Some t => cwd_dir t | None => FS_DIR_ROOT end).
    assert (Pd : u8 pd = pd) by (apply u8_small; unfold pd, FS_DIR_ROOT; destruct cur; cbn in Tk; lia).
    destruct fr, ri; try done; cbn [orb negb iopen_walk length]; rewrite component_flat by done;
      rewrite ?Pd; change (u8 FS_DIR_ROOT) with FS_DIR_ROOT;
      (destruct (_ <? 0) eqn:Ef; zb; [symmetry; by apply find_neg | done]).
Qed.

End Proofs.

End FSINV.
