(* ===== verification/FsOps.v ===== *)
(** The operations of AdventFS that change the tree, and the theorems about them. *)

From stdpp Require Import base numbers list gmap.
From Stdlib Require Import ZArith Lia.
From S2P Require Import Prelude Bitmap Fs FsInv.
Import FS.

Import FSINV.

Module FSOPS.

Section Proofs.
Context {W : Type} `{FL : FsWorldLaws W}.
Implicit Types (i j : fs_instance) (w : W).

(** ** Table updates *)

Lemma file_set_file i k e q : super_ok (super i) -> 0 <= k < FS_MAX_FILES -> 0 <= q ->
  file (set_file i k e) q = if decide (q = k) then e else file i q.
Proof.
  intros O R J. unfold file, set_file. cbn [super set_super files]. destruct (decide (q = k)) as [-> | Ne].
  - apply zget_zset_eq. by rewrite (so_len _ O).
  - apply zget_zset_ne; lia.
Qed.

Lemma super_ok_set i k e : super_ok (super i) -> entry_ok e -> super_ok (super (set_file i k e)).
Proof.
  intros [M C R L F] E. split; cbn [super set_file set_super magic file_count reserved0 files]; try done.
  - by rewrite zlen_zset.
  - by apply Forall_insert.
Qed.

Lemma entry_ok_file i k : fs_ok i -> 0 <= k < FS_MAX_FILES -> entry_ok (file i k).
Proof.
  intros O R. pose proof (so_files _ (fo_super _ O)) as F. rewrite Forall_lookup in F.
  eapply F. apply lookup_zget. by rewrite (so_len _ (fo_super _ O)).
Qed.

Definition no_ext (e : fs_entry) : Prop := type e <> FS_TYPE_FILE \/ size e = 0.

Definition same_ext (e e' : fs_entry) : Prop :=
  type e = type e' /\ size e = size e' /\ start_sector e = start_sector e'.

Lemma no_ext_in e q : no_ext e -> in_ext e q = false.
Proof.
  intros N. destruct (in_ext e q) eqn:E; [| done]. apply in_ext_spec in E as (T & Z0 & _). by destruct N.
Qed.

Lemma same_ext_in e e' q : same_ext e e' -> in_ext e q = in_ext e' q.
Proof. intros (E1 & E2 & E3). unfold in_ext. by rewrite E1, E2, E3. Qed.

(** A new table over the same sectors, every extent of which was there before. *)
Lemma fs_ok_retable i j :
  fs_ok i -> super_ok (super j) -> initialized j = true -> base_lba j = base_lba i -> n_sectors j = n_sectors i ->
  bitmap j = bitmap i ->
  (forall k, 0 <= k < file_count (super j) ->
     no_ext (file j k) \/ (k < file_count (super i) /\ same_ext (file j k) (file i k))) -> fs_ok j.
Proof.
  intros O So Ini Eb En Em K. pose proof (so_count _ So) as C. pose proof (so_count _ (fo_super _ O)) as Ci.
  assert (U : forall q, used j q = used i q) by (intros; by apply used_same).
  assert (X : forall k q, 0 <= k < file_count (super j) -> in_ext (file j k) q = true ->
    0 <= k < file_count (super i) /\ in_ext (file i k) q = true).
  { intros k q R T. destruct (K k R) as [N | (R' & S)]; [by rewrite no_ext_in in T |].
    rewrite (same_ext_in _ _ _ S) in T. split; [lia | done]. }
  split; try done.
  - destruct (fo_bm _ O). split; congruence.
  - rewrite Eb, En. apply O.
  - intros q Q. rewrite U. by apply O.
  - intros k R T Z0. destruct (K k R) as [[] | (R' & (E1 & E2 & E3))]; try done.
    rewrite E1 in T. rewrite E2 in Z0. rewrite E2, E3, En. apply (fo_ext _ O); [lia | done | done].
  - intros k q R T. destruct (X k q R T). rewrite U. by apply (fo_used _ O k).
  - intros k l q Rk Rl Tk Tl. destruct (X k q Rk Tk), (X l q Rl Tl). by apply (fo_disj _ O k l q).
Qed.

Definition blank : fs_entry := Entry (zrep FS_NAME_MAX 0) 0 0 FS_TYPE_FREE FS_DIR_ROOT 0 0 0.

(** [j] keeps everything of [i] but its table. *)
Definition same_but_super i j : Prop :=
  in_use j = in_use i /\ initialized j = initialized i /\ base_lba j = base_lba i /\
  n_sectors j = n_sectors i /\ bitmap j = bitmap i.

Lemma alloc_slot_spec i j idx :
  super_ok (super i) -> alloc_slot_inst i = (j, idx) ->
  (idx = -1 /\ j = i) \/
  (0 <= idx < FS_MAX_FILES /\ super_ok (super j) /\ same_but_super i j /\ file j idx = blank /\
   (forall k, 0 <= k -> k <> idx -> file j k = file i k) /\
   ((0 <= idx < file_count (super i) /\ type (file i idx) = FS_TYPE_FREE /\ file_count (super j) = file_count (super i)) \/
    (idx = file_count (super i) /\ file_count (super j) = idx + 1))).
Proof.
  intros O E. unfold alloc_slot_inst in E. assert (Ob : entry_ok blank) by (split; cbn; unfold FS_TYPE_FREE, FS_DIR_ROOT; try done; lia).
  pose proof (so_count _ O) as C. fold blank in E. destruct (zfind _ _ _) as [k|] eqn:F.
  - destruct (zfind_Some _ _ _ _ F) as (R & T & _). zb. injection E as <- <-. right.
    split_and!; try lia; [by apply super_ok_set | done | by rewrite file_set_file, decide_True by (done || lia) | |].
    + intros q Q Ne. by rewrite file_set_file, decide_False by (done || lia).
    + left. split_and!; [lia | lia | done | done].
  - destruct (FS_MAX_FILES <=? file_count (super i)) eqn:M; zb; injection E as <- <-; [by left |]. right.
    assert (O1 : super_ok (super (set_count i (file_count (super i) + 1)))).
    { destruct O. split; cbn [super set_count set_super magic file_count reserved0 files]; try done. lia. }
    split_and!; try lia; [by apply super_ok_set | done | by rewrite file_set_file, decide_True by (done || lia) | |].
    + intros q Q Ne. by rewrite file_set_file, decide_False by (done || lia).
    + right. done.
Qed.

Lemma put_name_padded base : zlen base <= FS_NAME_MAX -> put_name (zrep FS_NAME_MAX 0) base = padded base.
Proof.
  intros L. unfold put_name, padded. f_equal. pose proof (zlen_nonneg base). unfold zdrop, zrep.
  rewrite drop_replicate. f_equal. unfold FS_NAME_MAX in *. lia.
Qed.

Lemma zlen_padded base : zlen base <= FS_NAME_MAX -> zlen (padded base) = FS_NAME_MAX.
Proof. intros L. unfold padded. rewrite zlen_app, zlen_zrep by lia. lia. Qed.

(** Adding a named entry of type [t] without data. *)
Lemma add_entry_spec i j1 idx parent base t u g m :
  fs_ok i -> 0 <= u < 65536 -> 0 <= g < 65536 -> 0 <= m < 65536 -> t = FS_TYPE_FILE \/ t = FS_TYPE_DIR ->
  zlen base <= FS_NAME_MAX -> alloc_slot_inst i = (j1, idx) -> 0 <= idx ->
  let e := Entry (padded base) 0 0 t (u8 parent) u g m in
  let j := set_file j1 idx e in
  added i j idx e /\ fs_ok j /\ 0 <= idx < FS_MAX_FILES /\ same_but_super i j.
Proof.
  intros O Ru Rg Rm Rt L E Ri e j.
  destruct (alloc_slot_spec i j1 idx (fo_super _ O) E) as [(-> & _) | (R & O1 & S & B & Oth & Sl)]; [lia |].
  assert (Oe : entry_ok e).
  { split; cbn; [by apply zlen_padded | lia | lia | unfold FS_TYPE_FILE, FS_TYPE_DIR in Rt; lia | apply u8_range | done..]. }
  assert (F : forall k, 0 <= k -> file j k = if decide (k = idx) then e else file j1 k) by (intros; by apply file_set_file).
  assert (A : added i j idx e).
  { split.
    - by rewrite F, decide_True by lia.
    - intros k Rk Ne. rewrite F, decide_False by lia. apply Oth; lia.
    - exact Sl.
    - apply S.
    - cbn. destruct Rt as [-> | ->]; done. }
  split; [done | split; [| split; [done | exact S]]].
  apply (fs_ok_retable i); [done | by apply super_ok_set | | apply S | apply S | apply S |].
  - cbn. destruct S as (_ & -> & _). apply O.
  - intros k Rk. change (file_count (super j)) with (file_count (super j1)) in Rk.
    destruct (decide (k = idx)) as [-> | Ne].
    + left. rewrite F, decide_True by lia. right. done.
    + right. rewrite F, decide_False, Oth by lia. split; [| done].
      destruct Sl as [(_ & _ & Q) | (Q1 & Q2)]; lia.
Qed.

Lemma iopen_range i path fr cur : 0 <= file_count (super i) -> 0 <= fs_iopen_inst i path fr cur ->
  initialized i = true /\ fs_iopen_inst i path fr cur < file_count (super i).
Proof.
  intros C. unfold fs_iopen_inst. destruct (initialized i); cbn [negb]; [| lia].
  assert (G : forall fuel p parent last, (0 <= last -> last < file_count (super i)) ->
    0 <= iopen_walk fuel i parent p last -> iopen_walk fuel i parent p last < file_count (super i)).
  { induction fuel as [|fuel IH]; intros p parent last L R; cbn [iopen_walk] in *; [lia |].
    destruct p as [|c p]; [auto |]. destruct (component (c :: p)) as [[|a nm] rest]; [by apply IH |].
    destruct (find_spec i parent (a :: nm) C) as [(Ef & _) | (Rf & _)].
    - rewrite Ef in R. cbn in R. lia.
    - rewrite (proj2 (Z.ltb_ge _ 0)) in R |- * by lia. destruct rest as [|d rest]; [lia |].
      destruct (negb _); [lia |]. apply IH; [lia | done]. }
  destruct (match path with [] => _ | _ => _ end) as [parent p]. destruct p as [|c p]; [lia |].
  intros R. split; [done |]. apply G; [lia | done].
Qed.

(** A walk does not see sizes, sectors, owners or modes. *)
Lemma iopen_same_tree i j path fr cur :
  initialized j = initialized i -> file_count (super j) = file_count (super i) ->
  (forall k, 0 <= k < file_count (super i) -> type (file j k) = type (file i k) /\
     parent_dir (file j k) = parent_dir (file i k) /\ name (file j k) = name (file i k)) ->
  fs_iopen_inst j path fr cur = fs_iopen_inst i path fr cur.
Proof.
  intros Ini Ec K.
  assert (F : forall p nm, find_in_dir_inst j p nm = find_in_dir_inst i p nm).
  { intros p nm. unfold find_in_dir_inst. rewrite Ec.
    erewrite zfind_ext; [done |]. intros k R. destruct (K k ltac:(lia)) as (-> & -> & ->). done. }
  assert (G : forall fuel p parent last, iopen_walk fuel j parent p last = iopen_walk fuel i parent p last).
  { induction fuel as [|fuel IH]; intros p parent last; cbn [iopen_walk]; [done |].
    destruct p as [|c p]; [done |]. destruct (component (c :: p)) as [[|a nm] rest]; [apply IH |].
    rewrite F. destruct (_ <? 0) eqn:E; [done |]. zb. destruct rest as [|d rest]; [done |].
    unfold find_in_dir_inst in *. destruct (zfind _ _ _) as [k|] eqn:Ez; [| lia].
    destruct (zfind_Some _ _ _ _ Ez) as (R & _). destruct (K k ltac:(lia)) as (-> & _). by rewrite IH. }
  unfold fs_iopen_inst. rewrite Ini. destruct (initialized i); [| done]. cbn [negb].
  destruct (match path with [] => _ | _ => _ end) as [parent p]. destruct p; [done | apply G].
Qed.

Lemma iopen_mono i j path fr cur :
  initialized j = initialized i -> nul_free path ->
  (forall q nm, nul_free nm -> 0 <= find_in_dir_inst i q nm -> find_in_dir_inst j q nm = find_in_dir_inst i q nm /\
     type (file j (find_in_dir_inst i q nm)) = type (file i (find_in_dir_inst i q nm))) ->
  0 <= fs_iopen_inst i path fr cur -> fs_iopen_inst j path fr cur = fs_iopen_inst i path fr cur.
Proof.
  intros Ini Nf Q. unfold fs_iopen_inst. rewrite Ini. destruct (initialized i); cbn [negb]; [| lia].
  destruct path as [|c p]; [lia |]. assert (Np := Nf). apply Forall_cons in Np as (_ & Np).
  destruct (c =? SLASH); [| destruct fr]; [destruct p as [|c2 p]; [lia |] | |]; intros R; by apply walk_mono.
Qed.

(** Opening the path of an added entry finds it. *)
Lemma iopen_added i j idx e path fr ri cur parent base :
  initialized i = true -> 0 <= file_count (super i) -> task_ok cur -> nul_free path -> fr || ri = true ->
  split_path_inst i path fr ri cur = Some (parent, base) ->
  find_in_dir_inst i (u8 parent) base = -1 ->
  added i j idx e -> parent_dir e = u8 parent -> name e = padded base ->
  fs_iopen_inst j path fr cur = idx.
Proof.
  intros Ini C Tk Nf Fr Sp Mi A Ep En.
  destruct (split_open i path fr ri cur parent base Ini Tk Fr Sp) as (_ & Ns & Nb & L & (pre & Epath)).
  assert (Nfb : nul_free base) by (unfold nul_free in Nf; rewrite Epath in Nf; by apply Forall_app in Nf as (_ & ?)).
  pose proof (added_lookups i j idx e (u8 parent) base C A Ep En Nfb L Mi) as Lk.
  assert (Sp' : split_path_inst j path fr ri cur = Some (parent, base)).
  { unfold split_path_inst in Sp |- *. destruct (last_slash path) as [k|]; [| done].
    destruct (k =? 0); [done |]. destruct (128 <=? k); [done |].
    destruct (fs_iopen_inst i (ztake k path) fr cur <? 0) eqn:Er; [done |].
    destruct (negb (type (file i (fs_iopen_inst i (ztake k path) fr cur)) =? FS_TYPE_DIR)) eqn:Et; [done |]. zb.
    rewrite (iopen_mono i j) by (done || apply A || by apply Forall_take). rewrite (proj2 (Z.ltb_ge _ 0)) by done.
    destruct (iopen_range i (ztake k path) fr cur C Er) as (_ & R).
    rewrite (ad_other _ _ _ _ A); [by rewrite Et | lia |]. intros Eq. rewrite Eq in Et, R.
    destruct (ad_slot _ _ _ _ A) as [(_ & T & _) | (T & _)]; [by rewrite T in Et | lia]. }
  destruct (split_open j path fr ri cur parent base) as (-> & _); [by rewrite (ad_init _ _ _ _ A) | done | done | done |].
  rewrite (find_added i j idx e (u8 parent) base base (u8 parent)) by done. by rewrite decide_True.
Qed.

(** ** Finding or creating the file to write *)

Definition cur_uid (cur : option task) : Z := match cur with Some t => t_uid t | None => 0 end.

Definition cur_gid (cur : option task) : Z := match cur with Some t => t_gid t | None => 0 end.

Lemma find_or_create_spec i path fr ri cur j idx :
  fs_ok i -> task_ok cur -> nul_free path -> fr || ri = true ->
  find_or_create_file_inst i path fr ri cur = (j, idx) ->
  (idx = -1 /\ j = i) \/
  (fs_ok j /\ same_but_super i j /\ 0 <= idx < file_count (super j) /\ type (file j idx) = FS_TYPE_FILE /\
   fs_iopen_inst j path fr cur = idx /\
   (j = i \/ exists e, added i j idx e /\ size e = 0 /\ uid e = cur_uid cur /\ gid e = cur_gid cur /\ mode e = 420)).
Proof.
  intros O Tk Nf Fr E. unfold find_or_create_file_inst in E. pose proof (so_count _ (fo_super _ O)) as C.
  destruct (0 <=? fs_iopen_inst i path fr cur) eqn:Ex; zb.
  - destruct (negb _) eqn:T; injection E as <- <-; [by left |]. right. zb.
    destruct (iopen_range i path fr cur ltac:(lia) Ex). split_and!; try done; by left.
  - destruct (split_path_inst i path fr ri cur) as [[parent base]|] eqn:Sp; [| injection E as <- <-; by left].
    destruct (alloc_slot_inst i) as [j1 k] eqn:Al. destruct (k <? 0) eqn:Ek; zb.
    { injection E as <- <-. left. destruct (alloc_slot_spec i j1 k (fo_super _ O) Al) as [(-> & ->) | (R & _)]; [done | lia]. }
    destruct (split_open i path fr ri cur parent base (fo_init _ O) Tk Fr Sp) as (Eo & Ns & Nb & L & (pre & Epath)).
    assert (Mi : find_in_dir_inst i (u8 parent) base = -1) by (apply find_neg; lia).
    destruct (alloc_slot_spec i j1 k (fo_super _ O) Al) as [(-> & _) | (R & O1 & _ & B & _ & Sl)]; [lia |].
    rewrite B in E. cbn [name start_sector size blank] in E. rewrite put_name_padded in E by done.
    assert (Tu : 0 <= cur_uid cur < 65536 /\ 0 <= cur_gid cur < 65536) by (destruct cur; cbn in *; lia).
    destruct (add_entry_spec i j1 k parent base FS_TYPE_FILE (cur_uid cur) (cur_gid cur) 420 O
      ltac:(lia) ltac:(lia) ltac:(lia) (or_introl eq_refl) L Al Ek) as (A & Oj & Rk & S).
    injection E as <- <-. fold (cur_uid cur) (cur_gid cur). right. split_and!; [done | done | lia | | | |].
    + change (file_count (super (set_file j1 k _))) with (file_count (super j1)).
      destruct Sl as [(? & _ & ->) | (-> & ->)]; lia.
    + by rewrite (ad_file _ _ _ _ A).
    + by apply (iopen_added i _ k _ path fr ri cur parent base (fo_init _ O) ltac:(lia) Tk Nf Fr Sp Mi A).
    + right. eexists. split; [exact A | done].
Qed.

(** ** Writing a file *)

Lemma file_bytes_ext i j w w' e :
  base_lba j = base_lba i -> 0 <= size e <= 4294966784 ->
  (forall q, start_sector e <= q < start_sector e + nsec (size e) -> sec w' (base_lba i + q) = sec w (base_lba i + q)) ->
  file_bytes j w' e = file_bytes i w e.
Proof.
  intros Eb R E. unfold file_bytes. rewrite Eb. f_equal. apply rd_ext. intros x Rx.
  pose proof (nsec_nonneg (size e)). replace x with (base_lba i + (x - base_lba i)) by lia. apply E. lia.
Qed.

(** What a table slot becomes. *)
Definition with_data (e : fs_entry) (start z : Z) : fs_entry :=
  Entry (name e) start z (type e) (parent_dir e) (uid e) (gid e) (mode e).

(** The state after the data is on disk and the entry points to it. *)
Lemma commit_ok i idx r z old_n :
  fs_ok i -> 0 <= idx < file_count (super i) -> type (file i idx) = FS_TYPE_FILE -> 0 <= z <= 4294966784 ->
  let needed := if nsec z =? 0 then 1 else nsec z in
  FS_SUPER_SECTORS <= r -> r + needed <= n_sectors i -> run_free i needed r ->
  old_n = (if size (file i idx) =? 0 then 0 else nsec (size (file i idx))) ->
  let j := set_file (set_run i r needed) idx (with_data (file i idx) r z) in
  let k := if 0 <? old_n then bitmap_free_run j (start_sector (file i idx)) old_n else j in
  fs_ok k /\ super k = super j /\ base_lba k = base_lba i /\ n_sectors k = n_sectors i /\ initialized k = true.
Proof.
  intros O Ri Ty Rz needed R1 R2 Rf Eo j k. pose proof (fo_super _ O) as So. pose proof (so_count _ So) as C.
  destruct (fo_base _ O) as (B1 & B2 & B3). pose proof (nsec_bounds z Rz) as Nz. unfold FS_SUPER_SECTORS in *.
  assert (Nd : 1 <= needed /\ (size (with_data (file i idx) r z) <> 0 -> needed = nsec z))
    by (unfold needed; cbn; cases; lia).
  destruct (set_run_spec i r needed (fo_bm _ O) ltac:(lia) ltac:(lia)) as (Om & S1 & U1).
  set (i2 := set_run i r needed) in *. destruct S1 as (S11 & S12 & S13 & S14 & S15).
  set (e := file i idx) in *. set (e' := with_data e r z) in *.
  assert (So2 : super_ok (super i2)) by (by rewrite S15).
  assert (Oe' : entry_ok e').
  { pose proof (entry_ok_file i idx O ltac:(unfold FS_MAX_FILES in *; lia)) as []. pose proof (bo_n _ (fo_bm _ O)). split; cbn; try done; lia. }
  assert (Fj : forall q, 0 <= q -> file j q = if decide (q = idx) then e' else file i q).
  { intros q Q. unfold j. rewrite file_set_file by (done || (unfold FS_MAX_FILES in *; lia)).
    case_decide; [done |]. unfold file. by rewrite S15. }
  assert (Cj : file_count (super j) = file_count (super i)) by (unfold j; cbn; by rewrite S15).
  assert (Soj : super_ok (super j)) by (by apply super_ok_set).
  assert (Uj : forall q, 0 <= q -> used j q = ((r <=? q) && (q <? r + needed)) || used i q) by exact U1.
  (* the new extent is free in i, the others avoid it *)
  assert (New : forall q, in_ext e' q = true -> r <= q < r + needed).
  { intros q T. apply in_ext_spec in T as (T1 & T2 & T3). cbn in T3. rewrite (proj2 Nd T2). lia. }
  assert (Old : forall l q, 0 <= l < file_count (super i) -> in_ext (file i l) q = true -> ~ r <= q < r + needed).
  { intros l q Rl T Rq. pose proof (fo_used _ O l q Rl T) as Uq. by rewrite Rf in Uq by lia. }
  assert (P0 : forall l q, 0 <= l < file_count (super i) -> in_ext (file i l) q = true -> 17 <= q).
  { intros l q Rl T. apply in_ext_spec in T as (T1 & T2 & T3). destruct (fo_ext _ O l Rl T1 T2). unfold FS_SUPER_SECTORS in *. lia. }
  (* the bitmap of the result *)
  assert (K : bm_ok k /\ same_but_bitmap j k /\
    forall q, 0 <= q -> used k q = negb (in_ext e q && (q <? n_sectors i)) && used j q).
  { unfold k. assert (Omj : bm_ok j) by (split; apply Om).
    destruct (0 <? old_n) eqn:En; zb.
    - assert (Se : size e <> 0) by (intros Z0; rewrite Z0 in Eo; cbn in Eo; lia).
      destruct (fo_ext _ O idx Ri Ty Se) as (X1 & X2 & X3). rewrite (proj2 (Z.eqb_neq _ _)) in Eo by done. subst old_n.
      unfold FS_SUPER_SECTORS in X1.
      destruct (give_run_spec j (start_sector e) (nsec (size e)) Omj X1 ltac:(fold e in X2; lia)) as (F1 & F2 & F3).
      split_and!; [done | done |]. intros q Q. rewrite F3 by done.
      assert (Nj : n_sectors j = n_sectors i) by exact S14. rewrite Nj. do 2 f_equal.
      unfold in_ext. fold e in Ty. rewrite Ty, (proj2 (Z.eqb_neq (size e) 0)) by done. done.
    - split_and!; try done. intros q Q.
      assert (N : no_ext e).
      { right. destruct (decide (size e = 0)) as [|Se]; [done |]. rewrite (proj2 (Z.eqb_neq _ _)) in Eo by done.
        pose proof (entry_ok_file i idx O ltac:(unfold FS_MAX_FILES in *; lia)) as Oe. fold e in Oe. pose proof (eo_size _ Oe).
        exfalso. destruct (fo_ext _ O idx Ri Ty Se) as (X1 & X2 & X3). fold e in X1, X2, X3.
        pose proof (nsec_bounds (size e) ltac:(lia)). lia. }
      by rewrite no_ext_in. }
  destruct K as (Omk & Sk & Uk). destruct Sk as (K1 & K2 & K3 & K4 & K5).
  split; [| split_and!; [done | by rewrite K3 | by rewrite K4 | rewrite K2; cbn; rewrite S12; apply O]].
  assert (Ck : file_count (super k) = file_count (super i)) by (by rewrite K5).
  assert (Fk : forall q, 0 <= q -> file k q = if decide (q = idx) then e' else file i q).
  { intros q Q. rewrite <- Fj by done. unfold file. by rewrite K5. }
  split; try done.
  - rewrite K2. cbn. rewrite S12. apply O.
  - by rewrite K5.
  - rewrite K3, K4. cbn. rewrite S13, S14. apply O.
  - intros q Q. unfold FS_SUPER_SECTORS in Q. rewrite Uk, Uj by lia. rewrite (fo_reserved _ O) by done.
    rewrite orb_true_r, andb_true_r. apply negb_true_iff. destruct (in_ext e q) eqn:T; [| done].
    pose proof (P0 idx q Ri T). lia.
  - intros l. rewrite Ck. intros Rl. rewrite Fk by lia. rewrite K4. cbn. rewrite S14.
    case_decide; [subst l; cbn; intros _ Z0; rewrite <- (proj2 Nd Z0); unfold FS_SUPER_SECTORS; lia |]. intros T1 T2. by apply (fo_ext _ O).
  - intros l q. rewrite Ck. intros Rl. rewrite Fk by lia. case_decide as El.
    + intros T. pose proof (New q T). rewrite Uk, Uj by lia.
      assert (Ie : in_ext e q = false).
      { apply not_true_is_false. intros T2. apply (Old idx q Ri T2). lia. }
      rewrite Ie.
      by rewrite (proj2 (Z.leb_le r q)), (proj2 (Z.ltb_lt q (r + needed))) by lia.
    + intros T. pose proof (P0 l q Rl T). rewrite Uk, Uj by lia. rewrite (fo_used _ O l q Rl T), orb_true_r, andb_true_r.
      apply negb_true_iff. assert (Ie : in_ext e q = false); [| by rewrite Ie].
      apply not_true_is_false. intros T2. apply El. by apply (fo_disj _ O l idx q).
  - intros l m q. rewrite Ck. intros Rl Rm. rewrite !Fk by lia. repeat case_decide; subst; try done.
    + intros T1 T2. pose proof (New q T1). exfalso. apply (Old m q Rm T2). lia.
    + intros T1 T2. pose proof (New q T2). exfalso. apply (Old l q Rl T1). lia.
    + by apply O.
Qed.

(** A change of the bitmap alone that keeps the used set. *)
Lemma fs_ok_bitmap i j :
  fs_ok i -> same_but_bitmap i j -> bm_ok j -> (forall q, 0 <= q -> used j q = used i q) -> fs_ok j.
Proof.
  intros O (S1 & S2 & S3 & S4 & S5) Om U.
  assert (Ef : forall k, file j k = file i k) by (intros; unfold file; by rewrite S5).
  split; try done.
  - rewrite S2. apply O.
  - rewrite S5. apply O.
  - rewrite S3, S4. apply O.
  - intros q Q. rewrite U by lia. by apply O.
  - intros k. rewrite S5, Ef, S4. apply O.
  - intros k q. rewrite S5, Ef. intros R T. rewrite U; [by apply (fo_used _ O k) |].
    apply in_ext_spec in T as (T1 & T2 & T3). destruct (fo_ext _ O k R T1 T2). unfold FS_SUPER_SECTORS in *. lia.
  - intros k l q. rewrite S5, !Ef. apply O.
Qed.

(** Giving back a run that was just taken. *)
Lemma undo_run i r n :
  fs_ok i -> FS_SUPER_SECTORS <= r -> 0 <= n -> r + n <= n_sectors i -> run_free i n r ->
  fs_ok (bitmap_free_run (set_run i r n) r n) /\ same_but_bitmap i (bitmap_free_run (set_run i r n) r n).
Proof.
  intros O R1 Rn R2 Rf. destruct (fo_base _ O) as (B1 & B2 & B3). unfold FS_SUPER_SECTORS in *.
  destruct (set_run_spec i r n (fo_bm _ O) ltac:(lia) ltac:(lia)) as (O1 & S1 & U1).
  destruct (give_run_spec (set_run i r n) r n O1 ltac:(done) ltac:(lia)) as (O2 & S2 & U2).
  pose proof (same_trans _ _ _ S1 S2) as S. split; [| done]. apply (fs_ok_bitmap i); try done.
  intros q Q. rewrite U2, U1 by done. destruct S1 as (_ & _ & _ & En & _). rewrite En.
  destruct (r <=? q) eqn:E1, (q <? r + n) eqn:E2, (q <? n_sectors i) eqn:E3; zb; cbn; try done; try lia.
  symmetry. apply Rf. lia.
Qed.

(** The disk agrees outside the superblock and the [n] sectors from [r]. *)
Definition disk_frame i w w' (r n : Z) : Prop :=
  forall x, base_lba i + FS_SUPER_SECTORS <= x -> (x < base_lba i + r \/ base_lba i + r + n <= x) -> sec w' x = sec w x.

(** Files keep their bytes when a free run is written. *)
Lemma bytes_kept i j w w' r n k :
  fs_ok i -> base_lba j = base_lba i -> disk_frame i w w' r n -> run_free i n r ->
  0 <= k < file_count (super i) -> type (file i k) = FS_TYPE_FILE ->
  file_bytes j w' (file i k) = file_bytes i w (file i k).
Proof.
  intros O Eb Fr Rf R T. destruct (decide (size (file i k) = 0)) as [Z0 |Z0].
  { unfold file_bytes. rewrite Z0. reflexivity. }
  destruct (fo_ext _ O k R T Z0) as (X1 & X2 & X3). pose proof (so_count _ (fo_super _ O)) as C.
  pose proof (eo_size _ (entry_ok_file i k O ltac:(lia))) as Es.
  apply file_bytes_ext; [done | lia |]. intros q Q. apply Fr; [lia |].
  destruct (decide (base_lba i + q < base_lba i + r)); [by left | right].
  destruct (decide (base_lba i + r + n <= base_lba i + q)); [done |]. exfalso.
  assert (U : used i q = true) by (apply (fo_used _ O k); [done |]; apply in_ext_spec; done).
  rewrite Rf in U; [done | lia].
Qed.

(** What an operation leaves of the files other than [idx]. *)
Definition others_kept i w j w' (idx : Z) : Prop :=
  forall k, 0 <= k < file_count (super i) -> k <> idx ->
    file j k = file i k /\ (type (file i k) = FS_TYPE_FILE -> file_bytes j w' (file j k) = file_bytes i w (file i k)).


(** The part of [fs_iwrite_all_inst] after the entry is known. *)
Definition write_tail i (idx : Z) (data : list Z) w : fs_instance * W * Z :=
  let sz := zlen data in
  let old_start := start_sector (file i idx) in
  let old_size := size (file i idx) in
  let old_n := if old_size =? 0 then 0 else u32 (old_size + 511) / 512 in
  let needed := u32 (sz + 511) / 512 in
  let needed := if needed =? 0 then 1 else needed in
  let '(i, new_start) := bitmap_alloc_run i needed in
  if new_start <? 0 then (i, w, -1) else
  match write_data (Z.to_nat needed) (base_lba i + new_start) data w with
  | (w, false) => (bitmap_free_run i new_start needed, w, -1)
  | (w, true) =>
      let i := set_file i idx (with_data (file i idx) new_start sz) in
      let i := if 0 <? old_n then bitmap_free_run i old_start old_n else i in
      let '(w, rc) := fs_write_super_inst i w in
      if negb (rc =? 0) then (i, w, -1) else (i, w, 0)
  end.

Lemma write_all_tail i path data fr ri cur w :
  fs_iwrite_all_inst i path data fr ri cur w =
  if negb (initialized i) then (i, w, -1) else
  let '(i, idx) := find_or_create_file_inst i path fr ri cur in
  if idx <? 0 then (i, w, -1) else write_tail i idx data w.
Proof. reflexivity. Qed.

(** The three outcomes of the tail: nothing committed, committed in memory only,
    committed on the disk. *)
Lemma write_tail_spec i idx data w j w' rc :
  fs_ok i -> 0 <= idx < file_count (super i) -> type (file i idx) = FS_TYPE_FILE ->
  zlen data <= 4294966784 -> write_tail i idx data w = (j, w', rc) ->
  fs_ok j /\ base_lba j = base_lba i /\ n_sectors j = n_sectors i /\
  file_count (super j) = file_count (super i) /\ initialized j = true /\
  others_kept i w j w' idx /\ (rc = 0 \/ rc = -1) /\
  ((rc = -1 /\ super j = super i /\ file_bytes j w' (file j idx) = file_bytes i w (file i idx)) \/
   (exists r, file j idx = with_data (file i idx) r (zlen data) /\ file_bytes j w' (file j idx) = data /\
      (rc = 0 -> rd w' (base_lba j) (Z.to_nat FS_SUPER_SECTORS) = encode_super (super j)))).
Proof.
  intros O R T L E. unfold write_tail in E. pose proof (zlen_nonneg data) as L0.
  pose proof (so_count _ (fo_super _ O)) as C. destruct (fo_base _ O) as (B1 & B2 & B3).
  pose proof (nsec_bounds (zlen data) ltac:(lia)) as Nd. pose proof (nsec_nonneg (zlen data)) as Np.
  fold (nsec (zlen data)) in E. fold (nsec (size (file i idx))) in E.
  set (needed := if nsec (zlen data) =? 0 then 1 else nsec (zlen data)) in *.
  assert (Nn : 1 <= needed /\ zlen data <= 512 * needed /\ needed <> 0) by (unfold needed; cases; lia).
  pose proof (alloc_run_spec i needed (fo_bm _ O) ltac:(lia)) as Al.
  rewrite (proj2 (Z.eqb_neq needed 0)) in Al by lia. cbv zeta in Al.
  destruct (bitmap_alloc_run i needed) as [i2 r]. destruct Al as [(-> & -> & _) | (R1 & R2 & Rf & -> & _)].
  { cbn in E. injection E as <- <- <-. split_and!; try done; [by apply O | by right |]. by left. }
  unfold FS_SUPER_SECTORS in R1. rewrite (proj2 (Z.ltb_ge r 0)) in E by lia.
  destruct (set_run_spec i r needed (fo_bm _ O) ltac:(lia) ltac:(lia)) as (Om & S & _).
  destruct S as (S1 & S2 & S3 & S4 & S5). rewrite S3 in E.
  destruct (write_data _ _ _ _) as [w1 ok] eqn:Ew.
  destruct (write_data_spec (Z.to_nat needed) (base_lba i + r) data w w1 ok ltac:(lia) ltac:(lia) ltac:(lia) Ew) as (D1 & D2).
  assert (F1 : disk_frame i w w1 r needed) by (intros x _ Hx; apply D1; lia).
  destruct ok.
  2: { injection E as <- <- <-. destruct (undo_run i r needed O R1 ltac:(lia) R2 Rf) as (Ou & (U1 & U2 & U3 & U4 & U5)).
    assert (Ef : forall k, file (bitmap_free_run (set_run i r needed) r needed) k = file i k) by (intros; unfold file; by rewrite U5).
    split_and!; [done | done | done | by rewrite U5 | by apply Ou | | by right |].
    - intros k Rk Ne. split; [apply Ef |]. intros Tf. rewrite Ef. by apply (bytes_kept i _ w w1 r needed).
    - left. split_and!; [done | done |]. rewrite Ef. by apply (bytes_kept i _ w w1 r needed). }
  assert (Ef : file (set_run i r needed) idx = file i idx) by (unfold file; by rewrite S5). rewrite Ef in E.
  pose proof (commit_ok i idx r (zlen data) (if size (file i idx) =? 0 then 0 else nsec (size (file i idx)))
    O R T ltac:(lia) R1 R2 Rf eq_refl) as Cm. cbv zeta in Cm. fold needed in Cm.
  set (jj := set_file (set_run i r needed) idx (with_data (file i idx) r (zlen data))) in *.
  set (kk := if 0 <? _ then bitmap_free_run jj _ _ else jj) in *.
  destruct Cm as (Ok & K1 & K2 & K3 & K4).
  destruct (fs_write_super_inst kk w1) as [w2 rc2] eqn:Es.
  destruct (write_super_spec kk w1 w2 rc2) as (D3 & Rc & D4);
    [apply Ok | by rewrite K2 | rewrite K2; unfold FS_SUPER_SECTORS; lia | done |].
  assert (F2 : disk_frame i w w2 r needed).
  { intros x X Hx. rewrite D3 by (rewrite K2; by right). by apply F1. }
  assert (Res : j = kk /\ w' = w2 /\ (rc = rc2)) by (destruct Rc as [-> | ->]; injection E as <- <- <-; done).
  destruct Res as (-> & -> & ->).
  assert (So2 : super_ok (super (set_run i r needed))) by (rewrite S5; apply O).
  assert (Fk : forall q, 0 <= q -> file kk q = if decide (q = idx) then with_data (file i idx) r (zlen data) else file i q).
  { intros q Q. unfold file at 1. rewrite K1. fold (file jj q). unfold jj. rewrite file_set_file by (done || lia).
    case_decide; [done |]. unfold file. by rewrite S5. }
  split_and!; try done.
  - rewrite K1. cbn. by rewrite S5.
  - intros k Rk Ne. rewrite Fk, decide_False by (done || lia). split; [done |]. intros Tf.
    by apply (bytes_kept i _ w w2 r needed).
  - right. exists r. rewrite Fk, decide_True by (done || lia). split_and!; [done | |].
    + unfold file_bytes. cbn [size start_sector with_data]. rewrite K2. destruct (decide (nsec (zlen data) = 0)) as [Z0 | Z0].
      { destruct data as [|b data]; [by rewrite Z0 |]. rewrite zlen_cons in *. pose proof (zlen_nonneg data). lia. }
      assert (En : needed = nsec (zlen data)) by (unfold needed; by rewrite (proj2 (Z.eqb_neq _ _))). rewrite <- En.
      rewrite (rd_ext w1 w2) by (intros x X; apply D3; rewrite K2; right; unfold FS_SUPER_SECTORS; lia).
      rewrite (D2 eq_refl). unfold ztake, zlen. by rewrite Nat2Z.id, take_app_length.
    + intros ->. by apply D4.
Qed.

Lemma others_kept_tree i w j w' idx :
  others_kept i w j w' idx -> type (file j idx) = type (file i idx) -> parent_dir (file j idx) = parent_dir (file i idx) ->
  name (file j idx) = name (file i idx) -> forall k, 0 <= k < file_count (super i) ->
  type (file j k) = type (file i k) /\ parent_dir (file j k) = parent_dir (file i k) /\ name (file j k) = name (file i k).
Proof. intros K E1 E2 E3 k R. destruct (decide (k = idx)) as [-> | Ne]; [done |]. by destruct (K k R Ne) as (-> & _). Qed.

(** The base and size of an instance never change. *)
Lemma others_kept_trans i j1 j w w' idx :
  others_kept i w j1 w idx -> others_kept j1 w j w' idx -> file_count (super i) <= file_count (super j1) ->
  others_kept i w j w' idx.
Proof.
  intros K1 K2 C k R Ne. destruct (K1 k R Ne) as (E1 & B1). destruct (K2 k ltac:(lia) Ne) as (E2 & B2).
  split; [congruence |]. intros T. rewrite E1 in B2. rewrite B2 by done. rewrite <- E1 at 1. by apply B1.
Qed.

Lemma added_others i j idx e w : added i j idx e -> same_but_super i j -> others_kept i w j w idx.
Proof.
  intros A (S1 & S2 & S3 & S4 & S5) k R Ne. rewrite (ad_other _ _ _ _ A) by done. split; [done |]. intros _.
  unfold file_bytes. by rewrite S3.
Qed.

Lemma added_count i j idx e : added i j idx e -> file_count (super i) <= file_count (super j).
Proof. intros A. destruct (ad_slot _ _ _ _ A) as [(R & _ & ->) | (-> & ->)]; lia. Qed.

Lemma others_refl i w idx : others_kept i w i w idx.
Proof. by intros k R Ne. Qed.

Lemma write_all_spec i path data fr ri cur w j w' rc :
  fs_ok i -> task_ok cur -> nul_free path -> fr || ri = true -> zlen data <= 4294966784 ->
  fs_iwrite_all_inst i path data fr ri cur w = (j, w', rc) ->
  let idx := fs_iopen_inst j path fr cur in
  fs_ok j /\ base_lba j = base_lba i /\ n_sectors j = n_sectors i /\ file_count (super i) <= file_count (super j) /\
  (rc = 0 \/ rc = -1) /\
  others_kept i w j w' idx /\
  (rc = 0 -> live j idx = true /\ type (file j idx) = FS_TYPE_FILE /\ size (file j idx) = zlen data /\
     file_bytes j w' (file j idx) = data /\
     rd w' (base_lba j) (Z.to_nat FS_SUPER_SECTORS) = encode_super (super j)) /\
  (0 <= fs_iopen_inst i path fr cur -> type (file i (fs_iopen_inst i path fr cur)) = FS_TYPE_FILE ->
     idx = fs_iopen_inst i path fr cur /\
     (file_bytes j w' (file j idx) = file_bytes i w (file i idx) \/ file_bytes j w' (file j idx) = data)).
Proof.
  intros O Tk Nf Fr L E. rewrite write_all_tail, (fo_init _ O) in E. cbn [negb] in E.
  destruct (find_or_create_file_inst i path fr ri cur) as [i1 k] eqn:Fc.
  destruct (find_or_create_spec i path fr ri cur i1 k O Tk Nf Fr Fc) as [(-> & ->) | (O1 & S & R & T & Op & Cs)].
  { change (-1 <? 0) with true in E. cbv iota in E. injection E as <- <- <-. split_and!; try done; [by right | intros; split; [done | by left]]. }
  rewrite (proj2 (Z.ltb_ge k 0)) in E by lia.
  destruct (write_tail_spec i1 k data w j w' rc O1 R T L E) as (Oj & Eb & En & Ec & Ini & K & Rc & Res).
  assert (Kt : type (file j k) = type (file i1 k) /\ parent_dir (file j k) = parent_dir (file i1 k) /\
               name (file j k) = name (file i1 k)).
  { destruct Res as [(_ & Es & _) | (r & -> & _)]; [unfold file; by rewrite Es | done]. }
  assert (Oj' : fs_iopen_inst j path fr cur = k).
  { rewrite <- Op. apply iopen_same_tree; [by rewrite Ini, (fo_init _ O1) | done |].
    apply (others_kept_tree i1 w j w' k K); apply Kt. }
  cbv zeta. rewrite Oj'. pose proof S as (S1 & S2 & S3 & S4 & S5).
  assert (Ki : others_kept i w i1 w k /\ file_count (super i) <= file_count (super i1)).
  { destruct Cs as [-> | (e & A & _)]; [split; [apply others_refl | lia] |].
    split; [by apply (added_others _ _ _ e) | by apply (added_count _ _ k e)]. }
  split_and!; [done | congruence | congruence | destruct Ki; lia | done | by apply (others_kept_trans i i1 j w w' k (proj1 Ki) K (proj2 Ki)) | |].
  - intros ->. destruct Res as [(? & _) | (r & Ef & Fb & Sb)]; [done |].
    split_and!; [| rewrite Ef; exact T | by rewrite Ef | done | by apply Sb].
    unfold live. rewrite Ini, Ec, (proj2 (Z.leb_le 0 k)), (proj2 (Z.ltb_lt k _)) by lia. done.
  - intros Po Ti. destruct Cs as [-> | (e & A & _)].
    + split; [congruence |]. destruct Res as [(_ & _ & Fb) | (r & _ & Fb & _)]; auto.
    + exfalso. destruct (iopen_range i path fr cur (proj1 (so_count _ (fo_super _ O))) Po) as (_ & Ri).
      assert (X : find_or_create_file_inst i path fr ri cur = (i, fs_iopen_inst i path fr cur)).
      { unfold find_or_create_file_inst. by rewrite (proj2 (Z.leb_le 0 _)), Ti by done. }
      rewrite Fc in X. injection X as X1 X2. rewrite <- X2 in Ti, Ri.
      destruct (ad_slot _ _ _ _ A) as [(_ & Tf & _) | (Q & _)]; [by rewrite Tf in Ti | lia].
Qed.

(** ** Directories, removal, permissions *)

(** Storing the superblock keeps every file and, on success, is what the disk holds. *)
Lemma store_spec i w w' rc :
  fs_ok i -> fs_write_super_inst i w = (w', rc) ->
  (rc = 0 \/ rc = -1) /\ (rc = 0 -> rd w' (base_lba i) (Z.to_nat FS_SUPER_SECTORS) = encode_super (super i)) /\
  others_kept i w i w' (-1).
Proof.
  intros O E. destruct (fo_base _ O) as (B1 & B2 & B3).
  destruct (write_super_spec i w w' rc (fo_super _ O) B1 ltac:(lia) E) as (D & Rc & P).
  split_and!; [done | done |]. intros k R _. split; [done |]. intros T.
  apply (bytes_kept i i w w' 0 0); try done; [| intros q Q; lia].
  intros x X _. apply D. by right.
Qed.

Lemma others_kept_store i w j w' idx :
  others_kept i w j w idx -> others_kept j w j w' (-1) -> file_count (super i) <= file_count (super j) ->
  others_kept i w j w' idx.
Proof.
  intros K1 K2 C. apply (others_kept_trans i j); [done | | done]. intros k R Ne. apply K2; lia.
Qed.

(** Replacing one entry of the table. *)
Lemma set_others i idx e w : fs_ok i -> 0 <= idx < FS_MAX_FILES -> others_kept i w (set_file i idx e) w idx.
Proof.
  intros O R k Rk Ne. rewrite file_set_file, decide_False by (done || apply O || lia). done.
Qed.

Lemma set_meta_ok i idx e :
  fs_ok i -> 0 <= idx < file_count (super i) -> entry_ok e -> same_ext e (file i idx) \/ no_ext e ->
  fs_ok (set_file i idx e).
Proof.
  intros O R Oe S. pose proof (so_count _ (fo_super _ O)) as C. apply (fs_ok_retable i); try done.
  - by apply super_ok_set; [apply O |].
  - apply O.
  - intros k Rk. change (file_count (super (set_file i idx e))) with (file_count (super i)) in Rk.
    rewrite file_set_file by (apply O || lia). case_decide; [subst; destruct S; [right; split; [lia | done] | by left] |].
    right. split; [lia | done].
Qed.

Lemma mkdir_spec i path fr ri cur w j w' rc :
  fs_ok i -> task_ok cur -> nul_free path -> fr || ri = true ->
  fs_imkdir_inst i path fr ri cur w = (j, w', rc) ->
  fs_ok j /\ base_lba j = base_lba i /\ n_sectors j = n_sectors i /\ file_count (super i) <= file_count (super j) /\
  (-1 <= rc < FS_MAX_FILES) /\
  others_kept i w j w' (fs_iopen_inst j path fr cur) /\
  (0 <= rc -> fs_iopen_inst i path fr cur = -1 /\ fs_iopen_inst j path fr cur = rc /\ live j rc = true /\
     type (file j rc) = FS_TYPE_DIR /\
     rd w' (base_lba j) (Z.to_nat FS_SUPER_SECTORS) = encode_super (super j)).
Proof.
  intros O Tk Nf Fr E. unfold fs_imkdir_inst in E. rewrite (fo_init _ O) in E. cbn [negb] in E.
  assert (Fail : forall b x, fs_ok i /\ base_lba i = base_lba i /\ n_sectors i = n_sectors i /\ file_count (super i) <= file_count (super i) /\
    -1 <= -1 < FS_MAX_FILES /\
    others_kept i w i w x /\ (0 <= -1 -> b)) by (intros; split_and!; try done; lia).
  destruct (split_path_inst i path fr ri cur) as [[parent base]|] eqn:Sp; [| injection E as <- <- <-; apply Fail].
  destruct (0 <=? find_in_dir_inst i (u8 parent) base) eqn:Fd; zb; [injection E as <- <- <-; apply Fail |].
  destruct (alloc_slot_inst i) as [j1 k] eqn:Al.
  destruct (alloc_slot_spec i j1 k (fo_super _ O) Al) as [(-> & ->) | (R & O1 & _ & B & _ & Sl)].
  { injection E as <- <- <-. apply Fail. }
  rewrite (proj2 (Z.ltb_ge k 0)) in E by lia. pose proof (so_count _ (fo_super _ O)) as C.
  destruct (split_open i path fr ri cur parent base (fo_init _ O) Tk Fr Sp) as (Eo & Ns & Nb & L & (pre & Epath)).
  assert (Mi : find_in_dir_inst i (u8 parent) base = -1) by (apply find_neg; lia).
  rewrite B in E. cbn [name start_sector size uid gid mode blank] in E. rewrite put_name_padded in E by done.
  destruct (add_entry_spec i j1 k parent base FS_TYPE_DIR 0 0 0 O ltac:(lia) ltac:(lia) ltac:(lia)
    (or_intror eq_refl) L Al ltac:(lia)) as (A & Oj & Rk & S).
  set (jj := set_file j1 k _) in *. destruct (fs_write_super_inst jj w) as [w2 rc2] eqn:Es.
  destruct (store_spec jj w w2 rc2 Oj Es) as (Rc & P & K).
  assert (Op : fs_iopen_inst jj path fr cur = k)
    by (eapply (iopen_added i jj k _ path fr ri cur parent base); try done; [apply O | lia]).
  assert (X : j = jj /\ w' = w2 /\ rc = if rc2 =? 0 then k else -1)
    by (destruct (rc2 =? 0); injection E as <- <- <-; done).
  destruct X as (-> & -> & ->). destruct S as (S1 & S2 & S3 & S4 & S5). rewrite Op.
  split_and!; [done | done | done | by apply (added_count _ _ k _ A) | cases; lia | cases; unfold FS_MAX_FILES in *; lia | |].
  - apply others_kept_store; [| done | by apply (added_count _ _ k _ A)]. by apply (added_others _ _ _ _ _ A).
  - destruct (rc2 =? 0) eqn:E0; zb; [| lia]. intros _. split_and!; [congruence | done | | | by apply P].
    + unfold live. rewrite (fo_init _ Oj), (proj2 (Z.leb_le 0 k)) by lia. cbn [andb]. apply Z.ltb_lt.
      change (file_count (super jj)) with (file_count (super j1)). destruct Sl as [(? & _ & ->) | (-> & ->)]; lia.
    + by rewrite (ad_file _ _ _ _ A).
Qed.

Lemma entry_ok_zero : entry_ok zero_entry.
Proof. split; cbn; try done; lia. Qed.

(** The sectors of a file are given back, and no others. *)
Lemma unlink_frees i idx : fs_ok i -> 0 <= idx < file_count (super i) -> type (file i idx) = FS_TYPE_FILE ->
  let j1 := if 0 <? size (file i idx) then bitmap_free_run i (start_sector (file i idx)) (nsec (size (file i idx))) else i in
  bm_ok j1 /\ same_but_bitmap i j1 /\ forall q, 0 <= q -> used j1 q = negb (in_ext (file i idx) q) && used i q.
Proof.
  intros O R Et j1. pose proof (so_count _ (fo_super _ O)). pose proof (eo_size _ (entry_ok_file i idx O ltac:(lia))) as Sz.
  unfold j1. destruct (0 <? size (file i idx)) eqn:Es; zb.
  - destruct (fo_ext _ O idx ltac:(lia) Et ltac:(lia)) as (X1 & X2 & X3). destruct (fo_base _ O).
    destruct (give_run_spec i (start_sector (file i idx)) (nsec (size (file i idx))) (fo_bm _ O) X1 ltac:(lia)) as (F1 & F2 & F3).
    split_and!; [done | done |]. intros q Q. rewrite F3 by done. f_equal. f_equal. unfold in_ext.
    rewrite Et, (proj2 (Z.eqb_neq (size (file i idx)) 0)) by lia. cbn [Z.eqb negb andb].
    change (FS_TYPE_FILE =? FS_TYPE_FILE) with true. cbn [andb].
    destruct (start_sector _ <=? q) eqn:E1, (q <? _ + _) eqn:E2, (q <? n_sectors i) eqn:E3; zb; try done; lia.
  - split_and!; [apply O | apply same_refl |]. intros q Q. rewrite no_ext_in; [done |]. right. lia.
Qed.

Lemma unlink_spec i path cur tasks w j w' rc :
  fs_ok i -> fs_unlink i path cur tasks w = (j, w', rc) ->
  let idx := fs_iopen_inst i path true cur in
  fs_ok j /\ base_lba j = base_lba i /\ n_sectors j = n_sectors i /\ file_count (super i) <= file_count (super j) /\
  (rc = 0 \/ rc = -1) /\
  others_kept i w j w' idx /\
  (rc = 0 -> live i idx = true /\ type (file i idx) = FS_TYPE_FILE /\ fs_check_perm i idx FS_PERM_W cur = 1 /\
     fs_entry_open_refs tasks idx <= 0 /\ file j idx = zero_entry /\
     (forall q, 0 <= q -> used j q = negb (in_ext (file i idx) q) && used i q) /\
     rd w' (base_lba j) (Z.to_nat FS_SUPER_SECTORS) = encode_super (super j)).
Proof.
  intros O E idx. unfold fs_unlink in E. rewrite (fo_init _ O) in E. cbn [negb] in E. fold idx in E.
  assert (Fail : forall b, fs_ok i /\ base_lba i = base_lba i /\ n_sectors i = n_sectors i /\ file_count (super i) <= file_count (super i) /\
    (-1 = 0 \/ -1 = -1) /\
    others_kept i w i w idx /\ (-1 = 0 -> b)) by (intros; split_and!; try done; by right).
  destruct (idx <? 0) eqn:Ei; zb; [injection E as <- <- <-; apply Fail |].
  destruct (negb _) eqn:Et; zb; [injection E as <- <- <-; apply Fail |].
  destruct (_ <=? 0) eqn:Ep; zb; [injection E as <- <- <-; apply Fail |].
  destruct (0 <? fs_entry_open_refs tasks idx) eqn:Er; zb; [injection E as <- <- <-; apply Fail |].
  pose proof (so_count _ (fo_super _ O)) as C. destruct (iopen_range i path true cur ltac:(lia) Ei) as (_ & Ri).
  fold idx in Ri. assert (Oe := entry_ok_file i idx O ltac:(lia)). pose proof (eo_size _ Oe) as Sz.
  set (j1 := if 0 <? size (file i idx) then _ else i) in E. fold (nsec (size (file i idx))) in j1.
  destruct (unlink_frees i idx O ltac:(lia) Et) as (Om & (S1 & S2 & S3 & S4 & S5) & U). fold j1 in Om, S1, S2, S3, S4, S5, U.
  set (jj := set_file j1 idx zero_entry) in E. destruct (fs_write_super_inst jj w) as [w2 rc2] eqn:Es.
  injection E as <- <- <-.
  assert (Fj : forall k, 0 <= k -> file jj k = if decide (k = idx) then zero_entry else file i k).
  { intros k Rk. unfold jj. rewrite file_set_file by (rewrite ?S5; apply O || lia). case_decide; [done |].
    unfold file. by rewrite S5. }
  assert (Uj : forall q, 0 <= q -> used jj q = negb (in_ext (file i idx) q) && used i q) by exact U.
  assert (Pos : forall k q, 0 <= k < file_count (super i) -> in_ext (file i k) q = true -> FS_SUPER_SECTORS <= q).
  { intros k q R T. apply in_ext_spec in T as (T1 & T2 & T3). destruct (fo_ext _ O k R T1 T2). lia. }
  assert (Nz : forall q, in_ext zero_entry q = false) by (intros; apply no_ext_in; by right).
  assert (Oj : fs_ok jj).
  { split; try done.
    - cbn. rewrite S2. apply O.
    - destruct Om. by split.
    - apply super_ok_set; [rewrite S5; apply O | apply entry_ok_zero].
    - cbn. rewrite S3, S4. apply O.
    - intros q Q. rewrite Uj, (fo_reserved _ O) by (done || lia). rewrite andb_true_r. apply negb_true_iff.
      apply not_true_is_false. intros T. pose proof (Pos idx q ltac:(lia) T). lia.
    - intros k. cbn [jj set_file set_super super file_count n_sectors]. rewrite S4, S5. intros Rk. rewrite Fj by lia.
      case_decide; [done | by apply (fo_ext _ O)].
    - intros k q. cbn [jj set_file set_super super file_count]. rewrite S5. intros Rk. rewrite Fj by lia.
      case_decide as Ek; [by rewrite Nz |]. intros T. pose proof (Pos k q Rk T). unfold FS_SUPER_SECTORS in *.
      rewrite Uj, (fo_used _ O k q Rk T), andb_true_r by lia. apply negb_true_iff, not_true_is_false. intros T2.
      apply Ek. by apply (fo_disj _ O k idx q).
    - intros k l q. cbn [jj set_file set_super super file_count]. rewrite S5. intros Rk Rl. rewrite !Fj by lia.
      repeat case_decide; rewrite ?Nz; try done. by apply O. }
  destruct (store_spec jj w w2 rc2 Oj Es) as (Rc & P & K).
  split_and!; [done | done | done | cbn; rewrite S5; lia | done | |].
  - apply others_kept_store; [| done |]; [| cbn; rewrite S5; lia].
    intros k Rk Ne. rewrite Fj, decide_False by (done || lia). split; [done |]. intros _. unfold file_bytes.
    cbn [jj set_file set_super base_lba]. by rewrite S3.
  - intros ->. split_and!; try done; [| | by rewrite Fj, decide_True by (done || lia) | by apply P].
    + unfold live. rewrite (fo_init _ O), (proj2 (Z.leb_le 0 idx)), (proj2 (Z.ltb_lt idx _)) by lia. done.
    + unfold fs_check_perm in *. repeat (case_match; try lia); done.
Qed.

(** The operations that only rewrite one entry and store the table. *)
Lemma set_store_spec i idx e w j w' rc :
  fs_ok i -> 0 <= idx < file_count (super i) -> entry_ok e -> same_ext e (file i idx) \/ no_ext e ->
  fs_write_super_inst (set_file i idx e) w = (w', rc) -> j = set_file i idx e ->
  fs_ok j /\ base_lba j = base_lba i /\ n_sectors j = n_sectors i /\ file_count (super i) <= file_count (super j) /\
  (rc = 0 \/ rc = -1) /\ others_kept i w j w' idx /\ file j idx = e /\ bitmap j = bitmap i /\
  (rc = 0 -> rd w' (base_lba j) (Z.to_nat FS_SUPER_SECTORS) = encode_super (super j)).
Proof.
  intros O R Oe S E ->. pose proof (so_count _ (fo_super _ O)) as C.
  pose proof (set_meta_ok i idx e O R Oe S) as Oj. destruct (store_spec _ w w' rc Oj E) as (Rc & P & K).
  split_and!; try done.
  - apply others_kept_store; [apply set_others; [done | lia] | done | done].
  - rewrite file_set_file by (apply O || lia). by rewrite decide_True.
Qed.

Lemma live_spec i idx : live i idx = true <-> initialized i = true /\ 0 <= idx < file_count (super i).
Proof. unfold live. rewrite !andb_true_iff, Z.leb_le, Z.ltb_lt. tauto. Qed.

Lemma fail_frame i w idx (b : Prop) : fs_ok i ->
  fs_ok i /\ base_lba i = base_lba i /\ n_sectors i = n_sectors i /\ file_count (super i) <= file_count (super i) /\
  (-1 = 0 \/ -1 = -1) /\ others_kept i w i w idx /\ (-1 = 0 -> b).
Proof. intros. split_and!; try done. by right. Qed.

Lemma rmdir_spec i path cur w j w' rc :
  fs_ok i -> fs_rmdir i path cur w = (j, w', rc) ->
  let idx := fs_iopen_inst i path true cur in
  fs_ok j /\ base_lba j = base_lba i /\ n_sectors j = n_sectors i /\ file_count (super i) <= file_count (super j) /\
  (rc = 0 \/ rc = -1) /\ others_kept i w j w' idx /\
  (rc = 0 -> live i idx = true /\ type (file i idx) = FS_TYPE_DIR /\ fs_check_perm i idx FS_PERM_W cur = 1 /\
     (forall k, 0 <= k < file_count (super i) -> k <> idx -> type (file i k) <> FS_TYPE_FREE -> parent_dir (file i k) <> idx) /\
     file j idx = zero_entry /\ bitmap j = bitmap i /\
     rd w' (base_lba j) (Z.to_nat FS_SUPER_SECTORS) = encode_super (super j)).
Proof.
  intros O E idx. unfold fs_rmdir in E. rewrite (fo_init _ O) in E. cbn [negb] in E. fold idx in E.
  destruct (idx <? 0) eqn:Ei; zb; [injection E as <- <- <-; by apply fail_frame |].
  destruct (negb _) eqn:Et; zb; [injection E as <- <- <-; by apply fail_frame |].
  destruct (_ <=? 0) eqn:Ep; zb; [injection E as <- <- <-; by apply fail_frame |].
  pose proof (so_count _ (fo_super _ O)) as C. destruct (iopen_range i path true cur ltac:(lia) Ei) as (_ & Ri).
  fold idx in Ri. rewrite u8_small in E by (unfold FS_MAX_FILES in *; lia).
  destruct (zfind _ _ _) eqn:Ez; [injection E as <- <- <-; by apply fail_frame |].
  destruct (fs_write_super_inst _ w) as [w2 rc2] eqn:Es. injection E as <- <- <-.
  destruct (set_store_spec i idx zero_entry w _ w2 rc2 O ltac:(lia) entry_ok_zero ltac:(by right; right) Es eq_refl)
    as (R1 & R2 & R3 & R4 & R5 & R6 & R7 & R8 & R9).
  split_and!; try done. intros ->. split_and!; try done; [| | | by apply R9].
  - apply live_spec. split; [apply O | lia].
  - unfold fs_check_perm in *. repeat (case_match; try lia); done.
  - intros k Rk Ne Tk Pk. rewrite zfind_None in Ez. specialize (Ez k ltac:(lia)).
    rewrite (proj2 (Z.eqb_neq k idx)), (proj2 (Z.eqb_neq (type _) _)), Pk, Z.eqb_refl in Ez by done. done.
Qed.

Lemma fs_mode_mask m : 0 <= m -> 0 <= Z.land m FS_MODE_RWX_MASK < 65536.
Proof.
  intros P. unfold FS_MODE_RWX_MASK. change 511 with (Z.ones 9). rewrite Z.land_ones by lia.
  pose proof (Z.mod_pos_bound m (2 ^ 9) ltac:(lia)). change (2 ^ 9) with 512 in *. lia.
Qed.

Lemma chmod_spec i idx m w j w' rc :
  fs_ok i -> 0 <= m < 65536 -> fs_chmod_idx i idx m w = (j, w', rc) ->
  fs_ok j /\ base_lba j = base_lba i /\ n_sectors j = n_sectors i /\ file_count (super i) <= file_count (super j) /\
  (rc = 0 \/ rc = -1) /\ others_kept i w j w' idx /\
  (rc = 0 -> live i idx = true /\ fs_entry_mode j idx = Z.land m 511 /\ fs_entry_uid j idx = fs_entry_uid i idx /\
     file_bytes j w' (file j idx) = file_bytes j w' (file i idx)).
Proof.
  intros O Rm E. unfold fs_chmod_idx in E. destruct (live i idx) eqn:Lv; cbn [negb] in E;
    [| injection E as <- <- <-; by apply fail_frame].
  pose proof Lv as Lv'. apply live_spec in Lv' as (_ & R). pose proof (so_count _ (fo_super _ O)) as C.
  destruct (fs_write_super_inst _ w) as [w2 rc2] eqn:Es. injection E as <- <- <-.
  pose proof (entry_ok_file i idx O ltac:(lia)) as Oe. set (e := file i idx) in *.
  set (e2 := Entry (name e) (start_sector e) (size e) (type e) (parent_dir e) (uid e) (gid e)
    (Z.land m FS_MODE_RWX_MASK)) in *.
  destruct (set_store_spec i idx e2 w (set_file i idx e2) w2 rc2 O R) as (R1 & R2 & R3 & R4 & R5 & R6 & R7 & R8 & R9);
    [| by left; split_and! | done | done |].
  { destruct Oe. split; cbn; try done. apply fs_mode_mask. lia. }
  split_and!; try done. intros Z0. unfold fs_entry_mode, fs_entry_uid.
  assert (Lj : live (set_file i idx e2) idx = true) by done.
  rewrite Lj, R7, Lv. unfold e2. cbn [mode uid]. rewrite <- Z.land_assoc. split_and!; done.
Qed.

Lemma chown_spec i idx u g w j w' rc :
  fs_ok i -> 0 <= u < 65536 -> 0 <= g < 65536 -> fs_chown_idx i idx u g w = (j, w', rc) ->
  fs_ok j /\ base_lba j = base_lba i /\ n_sectors j = n_sectors i /\ file_count (super i) <= file_count (super j) /\
  (rc = 0 \/ rc = -1) /\ others_kept i w j w' idx /\
  (rc = 0 -> live i idx = true /\ fs_entry_uid j idx = u /\ fs_entry_gid j idx = g /\
     fs_entry_mode j idx = fs_entry_mode i idx /\ file_bytes j w' (file j idx) = file_bytes j w' (file i idx)).
Proof.
  intros O Ru Rg E. unfold fs_chown_idx in E. destruct (live i idx) eqn:Lv; cbn [negb] in E;
    [| injection E as <- <- <-; by apply fail_frame].
  pose proof Lv as Lv'. apply live_spec in Lv' as (_ & R). pose proof (so_count _ (fo_super _ O)) as C.
  destruct (fs_write_super_inst _ w) as [w2 rc2] eqn:Es. injection E as <- <- <-.
  pose proof (entry_ok_file i idx O ltac:(lia)) as Oe. set (e := file i idx) in *.
  set (e2 := Entry (name e) (start_sector e) (size e) (type e) (parent_dir e) u g
    (mode e)) in *.
  destruct (set_store_spec i idx e2 w (set_file i idx e2) w2 rc2 O R) as (R1 & R2 & R3 & R4 & R5 & R6 & R7 & R8 & R9); [| by left; split_and! | done | done |].
  { destruct Oe. by split. }
  split_and!; try done. intros Z0. unfold fs_entry_mode, fs_entry_uid, fs_entry_gid.
  assert (Lj : live (set_file i idx e2) idx = true) by done.
  rewrite Lj, R7, Lv. split_and!; done.
Qed.

End Proofs.

End FSOPS.
