(* ===== verification/FsDev.v ===== *)
(** The two devices a volume is mounted on ([kernel/fs.c], inst_read_sector and
    inst_write_sector), as instances of the interface of the filesystem: a block device of
    its own, and the block cache over the disk for the boot volume. *)

From stdpp Require Import base numbers list gmap.
From Stdlib Require Import ZArith Lia.
From S2P Require Import Prelude Bcache Fs.

Module FSDEV.

(** A sector buffer holds 512 bytes. *)
Definition pad512 (b : list Z) : list Z := ztake 512 (b ++ zrep 512 0).

Lemma zlen_pad512 b : zlen (pad512 b) = 512.
Proof. unfold pad512. rewrite zlen_ztake, zlen_app, zlen_zrep by lia. pose proof (zlen_nonneg b). lia. Qed.

Lemma pad512_id b : zlen b = 512 -> pad512 b = b.
Proof. intros L. unfold pad512, ztake. rewrite take_app_le by (unfold zlen in L; lia). apply take_ge. unfold zlen in L. lia. Qed.

Lemma pad512_twice b : zlen b = 512 -> pad512 (pad512 b) = b.
Proof. intros L. by rewrite !(pad512_id b). Qed.

(** ** A block device of its own

    Reads and writes go straight to the driver ([inst->bdev->read], [inst->bdev->write]).  The second
    component answers the allocations of the scratch buffer, [true] when the list is used up. *)
Section Direct.
Context {D : Type} `{BlockDevLaws D}.

#[export] Instance blk_world : FsWorld (D * list bool) := {
  dev_read l w := let '(d, r) := ata_read_sector l (fst w) in (d, snd w, pad512 <$> r);
  dev_write l b w := let '(d, ok) := ata_write_sector l (pad512 b) (fst w) in (d, snd w, ok);
  scratch n w := (fst w, tl (snd w), hd true (snd w))
}.

(** Every device that keeps the contract of the driver is one the filesystem can be mounted on, whichever
    reads, writes and allocations fail. *)
#[export] Program Instance blk_laws : FsWorldLaws (D * list bool) := {
  sec w l := pad512 (sector (fst w) l)
}.
Next Obligation. intros. apply zlen_pad512. Qed.
Next Obligation.
  intros l [d m]. cbn. pose proof (read_sector_spec l d) as S. destruct (ata_read_sector l d) as [d' r]. destruct S as (S & R). cbn.
  split; [intros x; by rewrite S |]. destruct r as [b|]; cbn; [| done]. intros b' [= <-]. by rewrite R.
Qed.
Next Obligation.
  intros l b [d m]. cbn. pose proof (write_sector_spec l (pad512 b) d) as S. destruct (ata_write_sector l (pad512 b) d) as [d' ok]. destruct S as (S & R). cbn.
  split; [intros x Ne; by rewrite S |]. intros Ok L. rewrite R by done. by apply pad512_twice.
Qed.
Next Obligation. done. Qed.

End Direct.

(** The disk accepts every write. *)
Class ReliableWrites (D : Type) `{BlockDev D} : Prop :=
  reliable_writes : forall l b (d : D), snd (ata_write_sector l b d) = true.

(** ** The block cache over the disk

    The boot volume goes through [bcache_read] and [bcache_write].  A state is a cache that satisfies its invariant, and
    its disk.  The laws hold on a disk that accepts every write-back; reads may fail at will. *)
Section Cached.
Context {D : Type} `{BlockDevLaws D}.
Import BCACHE.

Definition cached : Type := { s : bcache * D | exists l, cache_ok (fst s) (snd s) l }.

Lemma access_keeps a (w : cached) :
  exists l, cache_ok (fst (fst (do_access a (proj1_sig w)))) (snd (fst (do_access a (proj1_sig w)))) l.
Proof.
  destruct w as [[c d] [l O]]. cbn [proj1_sig]. destruct (do_access a (c, d)) as [[c' d'] r] eqn:E. exact (access_ok a c d l c' d' r O E).
Qed.

(** The state after an access, which keeps the invariant. *)
Definition access (a : BCACHE.access) (w : cached) : cached * option (list Z) :=
  (exist _ (fst (do_access a (proj1_sig w))) (access_keeps a w), snd (do_access a (proj1_sig w))).

#[export] Instance cached_world : FsWorld cached := {
  dev_read l w := let '(w, r) := access (ARead l) w in (w, pad512 <$> r);
  dev_write l b w := let '(w, r) := access (AWrite l (pad512 b)) w in (w, bool_decide (is_Some r));
  scratch n w := (w, true)
}.

Lemma access_proj a w : proj1_sig (fst (access a w)) = fst (do_access a (proj1_sig w)) /\ snd (access a w) = snd (do_access a (proj1_sig w)).
Proof. done. Qed.

Context `{!ReliableWrites D}.

Lemma nothing_lost x c d : lost_by x c d = None.
Proof. unfold lost_by, lost. destruct (lookup x c); [done |]. rewrite reliable_writes. by rewrite andb_false_r. Qed.

(** On such a disk the cache is a device for the filesystem: a read, of any sector, may fail. *)
#[export] Program Instance cached_laws : FsWorldLaws cached := {
  sec w l := pad512 (view (fst (proj1_sig w)) (snd (proj1_sig w)) l)
}.
Next Obligation. intros. apply zlen_pad512. Qed.
Next Obligation.
  intros l [[c d] [m O]]. unfold Fs.dev_read, cached_world. set (w := exist _ (c, d) (ex_intro _ m O)).
  destruct (access_proj (ARead l) w) as [P R]. destruct (access (ARead l) w) as [w' r]. cbn [fst snd] in *. subst r. cbn beta iota zeta. cbn [fst snd]. rewrite P. clear P. change (proj1_sig w) with (c, d).
  destruct (do_access (ARead l) (c, d)) as [[c' d'] r] eqn:E. destruct (access_view _ _ _ _ _ _ _ O E) as (R & V). cbn [fst snd proj1_sig].
  split; [intros x; by rewrite V by (by rewrite nothing_lost) |]. destruct r as [b|]; cbn; [| done]. intros b' [= <-]. by rewrite (R b).
Qed.
Next Obligation.
  intros l b [[c d] [m O]]. unfold Fs.dev_write, cached_world. set (w := exist _ (c, d) (ex_intro _ m O)).
  destruct (access_proj (AWrite l (pad512 b)) w) as [P R]. destruct (access (AWrite l (pad512 b)) w) as [w' r]. cbn [fst snd] in *. subst r. cbn beta iota zeta. cbn [fst snd]. rewrite P. clear P. change (proj1_sig w) with (c, d).
  destruct (do_access (AWrite l (pad512 b)) (c, d)) as [[c' d'] r] eqn:E. destruct (access_view _ _ _ _ _ _ _ O E) as (R & V). cbn [fst snd proj1_sig].
  split; [intros x Ne; rewrite V by (by rewrite nothing_lost); by rewrite decide_False |]. intros _ L. rewrite V by (by rewrite nothing_lost).
  rewrite decide_True by done. by apply pad512_twice.
Qed.
Next Obligation. done. Qed.

End Cached.

(** ** Faulty disks in memory *)

(** Sectors not written yet are zero; reads of [fl_bad_r] and writes to [fl_bad_w] fail. *)
Record flaky := Flaky { fl_data : gmap Z (list Z); fl_bad_r : gset Z; fl_bad_w : gset Z }.

#[export] Instance flaky_dev : BlockDev flaky := {
  ata_read_sector l d := (d, if bool_decide (l ∈ fl_bad_r d) then None else Some (default (zrep 512 0) (fl_data d !! l)));
  ata_write_sector l b d :=
    if bool_decide (l ∈ fl_bad_w d) then (d, false) else (Flaky (<[l := b]> (fl_data d)) (fl_bad_r d) (fl_bad_w d), true)
}.

#[export] Program Instance flaky_laws : BlockDevLaws flaky := { sector d l := default (zrep 512 0) (fl_data d !! l) }.
Next Obligation. intros l d. cbn. by case_bool_decide. Qed.
Next Obligation.
  intros l b d. cbn. case_bool_decide; cbn; [done |]. split.
  - intros l' Ne. by rewrite lookup_insert_ne.
  - intros _. by rewrite lookup_insert_eq.
Qed.

(** Only reads fail. *)
Record worn := Worn { wo_data : gmap Z (list Z); wo_bad : gset Z }.

#[export] Instance worn_dev : BlockDev worn := {
  ata_read_sector l d := (d, if bool_decide (l ∈ wo_bad d) then None else Some (default (zrep 512 0) (wo_data d !! l)));
  ata_write_sector l b d := (Worn (<[l := b]> (wo_data d)) (wo_bad d), true)
}.

#[export] Program Instance worn_laws : BlockDevLaws worn := { sector d l := default (zrep 512 0) (wo_data d !! l) }.
Next Obligation. intros l d. cbn. by case_bool_decide. Qed.
Next Obligation.
  intros l b d. cbn. split.
  - intros l' Ne. by rewrite lookup_insert_ne.
  - intros _. by rewrite lookup_insert_eq.
Qed.

#[export] Instance worn_reliable : ReliableWrites worn.
Proof. done. Qed.

Lemma zeros_ok bad : exists l, BCACHE.cache_ok (fst (BCACHE.cache0, Worn ∅ bad)) (snd (BCACHE.cache0, Worn ∅ bad)) l.
Proof. exists BCACHE.slots. apply BCACHE.cache_init_ok. reflexivity. Qed.

(** An empty cache over a disk of zeros. *)
Definition fresh (bad : gset Z) : cached (D := worn) := exist _ (BCACHE.cache0, Worn ∅ bad) (zeros_ok bad).

End FSDEV.
