(* ===== verification/FsProps.v ===== *)
(** What AdventFS promises: write/read and remount round trips, the invariant over
    sequences of operations, first-fit allocation, removal. *)

From stdpp Require Import base numbers list gmap.
From Stdlib Require Import ZArith Lia.
From S2P Require Import Prelude Bitmap Bcache Fs FsInv FsOps FsDev.
Import FS FSINV FSOPS FSDEV.

Module FSPROPS.

Section Props.
Context {W : Type} `{FL : FsWorldLaws W}.
Implicit Types (i j : fs_instance) (w : W).

(** The device answers every request and the scratch buffer is always there. *)
Definition no_faults : Prop :=
  (forall l w, snd (dev_read l w) <> None) /\ (forall l b w, snd (dev_write l b w) = true) /\
  (forall n w, snd (scratch n w) = true).

Lemma iread_loop_total fuel i e offset n total out w :
  (forall l w, snd (dev_read l w) <> None) -> snd (iread_loop fuel i e offset n total out w) <> None.
Proof.
  intros NF. revert n total out w. induction fuel as [|fuel IH]; intros n total out w; cbn [iread_loop]; [done |].
  destruct (n =? 0); [done |]. cbv zeta.
  destruct (dev_read _ w) as [w1 [b|]] eqn:E; [apply IH |]. exfalso. eapply NF. by rewrite E.
Qed.

Lemma iread_total i idx off n w :
  no_faults -> live i idx = true -> type (file i idx) = FS_TYPE_FILE -> snd (fs_iread_inst i idx off n w) <> None.
Proof.
  intros (NF & _) Lv T. unfold fs_iread_inst. rewrite Lv, T. cbn [negb].
  change (FS_TYPE_FILE =? FS_TYPE_FILE) with true. cbn [negb]. cases; [done |]. by apply iread_loop_total.
Qed.

Lemma write_data_total n lba l w : no_faults -> snd (write_data n lba l w) = true.
Proof.
  intros (_ & NF & _). revert lba l w. induction n as [|n IH]; intros lba l w; cbn [write_data]; [done |]. cbv zeta.
  pose proof (NF (u32 lba) (ztake 512 l ++ zrep (512 - zlen (ztake 512 l)) 0) w) as E.
  destruct (dev_write _ _ w) as [w1 [|]]; [apply IH | done].
Qed.

Lemma write_sectors_total n lba l w : no_faults -> snd (write_sectors n lba l w) = true.
Proof.
  intros (_ & NF & _). revert lba l w. induction n as [|n IH]; intros lba l w; cbn [write_sectors]; [done |].
  pose proof (NF (u32 lba) (ztake 512 l) w) as E. destruct (dev_write _ _ w) as [w1 [|]]; [apply IH | done].
Qed.

Lemma read_sectors_total n lba w : no_faults -> snd (read_sectors n lba w) <> None.
Proof.
  intros (NF & _). revert lba w. induction n as [|n IH]; intros lba w; cbn [read_sectors]; [done |].
  pose proof (NF (u32 lba) w) as E. destruct (dev_read _ w) as [w1 [b|]]; [| done].
  specialize (IH (lba + 1) w1). by destruct (read_sectors n (lba + 1) w1) as [w2 [l|]].
Qed.

Lemma store_total i w : no_faults -> snd (fs_write_super_inst i w) = 0.
Proof.
  intros NF. unfold fs_write_super_inst. pose proof NF as (_ & _ & Sc).
  specialize (Sc (FS_SUPER_SECTORS * 512) w). destruct (scratch _ w) as [w1 [|]]; [| done].
  pose proof (write_sectors_total (Z.to_nat FS_SUPER_SECTORS) (base_lba i) (encode_super (super i)) w1 NF) as T.
  by destruct (write_sectors _ _ _ _) as [w2 [|]].
Qed.

Lemma write_tail_total i idx data w r' :
  fs_ok i -> no_faults -> FS_SUPER_SECTORS <= r' ->
  run_free i (if nsec (zlen data) =? 0 then 1 else nsec (zlen data)) r' -> snd (write_tail i idx data w) = 0.
Proof.
  intros O NF Rr Rf. unfold write_tail. fold (nsec (zlen data)).
  set (needed := if nsec (zlen data) =? 0 then 1 else nsec (zlen data)) in *.
  pose proof (nsec_nonneg (zlen data)) as Np. assert (Nn : 1 <= needed) by (unfold needed; cases; lia).
  pose proof (alloc_run_spec i needed (fo_bm _ O) ltac:(lia)) as Al.
  rewrite (proj2 (Z.eqb_neq needed 0)) in Al by lia. cbv zeta in Al.
  destruct (bitmap_alloc_run i needed) as [i2 r]. destruct Al as [(-> & -> & N) | (R1 & _)]; [by edestruct N |].
  unfold FS_SUPER_SECTORS in R1. rewrite (proj2 (Z.ltb_ge r 0)) by lia.
  pose proof (write_data_total (Z.to_nat needed) (base_lba i2 + r) data w NF) as Wt.
  destruct (write_data _ _ _ _) as [w1 [|]]; [| done].
  match goal with |- context [fs_write_super_inst ?k w1] => pose proof (store_total k w1 NF) as St;
    destruct (fs_write_super_inst k w1) as [w2 rc] end. cbn [snd] in St. by rewrite St.
Qed.

(** C10. Writing a file with [fs_iwrite_all_inst] and reading it back.  After a
    write that returned 0 the path opens to a live FILE entry of the data's size,
    and every successful read of that entry returns exactly the requested part of
    the data, for every offset and length that do not overflow 32 bits.  On a
    device without faults the read does succeed, and rewriting an existing file
    succeeds whenever the bitmap has a free run for it. *)
Theorem write_read_round_trip i path data fr ri cur w j w' rc :
  fs_ok i -> task_ok cur -> nul_free path -> fr || ri = true -> zlen data <= 4294966784 ->
  fs_iwrite_all_inst i path data fr ri cur w = (j, w', rc) ->
  let idx := fs_iopen_inst j path fr cur in
  (rc = 0 ->
     0 <= idx /\ inst_entry_type j idx = FS_TYPE_FILE /\ inst_size j idx = zlen data /\
     forall off n, 0 <= off -> 0 <= n -> off + n < 4294967296 ->
       (forall w2 out, fs_iread_inst j idx off n w' = (w2, Some out) -> out = ztake n (zdrop off data)) /\
       (no_faults -> exists w2, fs_iread_inst j idx off n w' = (w2, Some (ztake n (zdrop off data))))) /\
  (no_faults -> 0 <= fs_iopen_inst i path fr cur -> type (file i (fs_iopen_inst i path fr cur)) = FS_TYPE_FILE ->
     (exists r, FS_SUPER_SECTORS <= r /\ run_free i (if nsec (zlen data) =? 0 then 1 else nsec (zlen data)) r) -> rc = 0).
Proof.
  intros O Tk Nf Fr L E idx.
  destruct (write_all_spec i path data fr ri cur w j w' rc O Tk Nf Fr L E) as (Oj & _ & _ & _ & _ & _ & Ok & _).
  fold idx in Ok. split.
  - intros Z0. destruct (Ok Z0) as (Lv & T & Sz & Fb & _). pose proof (proj1 (live_spec _ _) Lv) as (_ & R).
    unfold inst_entry_type, inst_size. rewrite Lv. split_and!; [lia | done | done |]. intros off n P1 P2 P3.
    assert (G : forall w2 out, fs_iread_inst j idx off n w' = (w2, Some out) -> out = ztake n (zdrop off data)).
    { intros w2 out Er. rewrite <- Fb.
      by eapply (iread_spec j idx off n w' w2 (Some out) Oj Lv T ltac:(lia) P1 P2 P3 Er). }
    split; [done |]. intros NF. pose proof (iread_total j idx off n w' NF Lv T) as Tot.
    destruct (fs_iread_inst j idx off n w') as [w2 [out|]] eqn:Er; [| done]. exists w2. by rewrite (G w2 out).
  - intros NF Po Ti (r & Rr & Rf). rewrite write_all_tail, (fo_init _ O) in E. cbn [negb] in E.
    unfold find_or_create_file_inst in E. rewrite (proj2 (Z.leb_le 0 _)), Ti in E by done.
    change (negb (FS_TYPE_FILE =? FS_TYPE_FILE)) with false in E. cbv iota in E.
    rewrite (proj2 (Z.ltb_ge _ 0)) in E by done.
    pose proof (write_tail_total i (fs_iopen_inst i path fr cur) data w r O NF Rr Rf) as Tt.
    rewrite E in Tt. exact Tt.
Qed.

(** C11. Storing the superblock and mounting the disk again.  When [i] satisfies
    the invariant and the disk holds its superblock (as it does after every
    operation that returned 0), [fs_create_instance] over the same sectors can
    only fail by a device error, and otherwise returns an instance that satisfies
    the invariant, resolves every path to the same entry, holds the same bytes in
    every file, and whose rebuilt bitmap marks exactly the superblock, the
    sectors of files and what lies past the end. *)
Theorem remount_round_trip i slot w w' w'' res sl cur :
  fs_ok i -> fs_write_super_inst i w = (w', 0) ->
  fs_create_instance slot (base_lba i) (n_sectors i) w' = (res, sl, w'') ->
  (no_faults -> res <> None) /\
  forall i', res = Some i' ->
    fs_ok i' /\ (forall path fr, fs_iopen_inst i' path fr cur = fs_iopen_inst i path fr cur) /\
    (forall k, 0 <= k < file_count (super i) -> file i' k = file i k /\
       (type (file i k) = FS_TYPE_FILE -> file_bytes i' w'' (file i' k) = file_bytes i w (file i k))) /\
    (forall q, 0 <= q -> used i' q = true <->
       n_sectors i <= q \/ q < FS_SUPER_SECTORS \/
       exists k, 0 <= k < file_count (super i) /\ in_ext (file i k) q = true).
Proof.
  intros O E1 E2. destruct (store_spec i w w' 0 O E1) as (_ & P & K). specialize (P eq_refl).
  unfold fs_create_instance in E2. pose proof (bo_n _ (fo_bm _ O)) as Bn.
  rewrite (proj2 (Z.ltb_ge 8192 (n_sectors i))) in E2 by lia.
  set (j0 := Instance_ true false (base_lba i) (n_sectors i) (super slot) (zrep FS_BITMAP_BYTES_MAX 0)) in E2.
  destruct (load_superblock j0 w') as [[i1 w1] rc] eqn:El.
  destruct (load_spec i j0 w' w1 i1 rc O P eq_refl eq_refl El) as (Sd & Rc & Ld).
  pose proof (so_count _ (fo_super _ O)) as C.
  split.
  - intros NF. destruct Rc as [-> | (-> & _)].
    { change (negb (0 =? 0)) with false in E2. cbv iota in E2. by injection E2 as <- _ _. }
    exfalso. unfold load_superblock in El. change (base_lba j0) with (base_lba i) in El.
    pose proof (read_sectors_total (Z.to_nat FS_SUPER_SECTORS) (base_lba i) w' NF) as T.
    destruct (read_sectors _ _ w') as [w2 [sb|]] eqn:Er; [| done]. destruct (fo_base _ O) as (B1 & B2 & B3).
    destruct (read_sectors_spec (Z.to_nat FS_SUPER_SECTORS) (base_lba i) w' w2 (Some sb) B1 ltac:(unfold FS_SUPER_SECTORS in *; lia) Er) as (_ & Rd).
    rewrite (Rd sb eq_refl), P in El.
    assert (M : ztake 8 (encode_super (super i)) = FS_MAGIC)
      by (unfold encode_super; by rewrite (so_magic _ (fo_super _ O))).
    rewrite M, bool_decide_eq_true_2 in El by done. pose proof (f_equal snd El : 0 = -1). lia.
  - intros i' ->. destruct (negb (rc =? 0)) eqn:Er; zb; [done |]. injection E2 as <- <- <-.
    destruct (Ld Er) as (Es & Ei & Eb & En & Bm & U).
    assert (Ef : forall k, file i1 k = file i k) by (intros; unfold file; by rewrite Es).
    split_and!.
    + by apply (reload_ok i).
    + intros path fr. apply iopen_same_tree; [by rewrite Ei, (fo_init _ O) | by rewrite Es |].
      intros k _. by rewrite Ef.
    + intros k R. rewrite Ef. split; [done |]. intros T. destruct (K k R ltac:(lia)) as (_ & Kb). rewrite <- Kb by done.
      pose proof (eo_size _ (entry_ok_file i k O ltac:(lia))) as Sz.
      assert (Szb : size (file i k) <= 4294966784).
      { destruct (decide (size (file i k) = 0)); [lia |]. by apply (fo_ext _ O). }
      apply file_bytes_ext; [done | lia | intros; apply Sd].
    + intros q Q. rewrite U, !orb_true_iff, Z.leb_le, Z.ltb_lt, covered_spec, Z2Nat.id by lia. tauto.
Qed.

(** The reference: the lowest start past the superblock of [m] free sectors in a row. *)
Definition lowest_run i (m r : Z) : Prop :=
  FS_SUPER_SECTORS <= r /\ run_free i m r /\ forall r', FS_SUPER_SECTORS <= r' < r -> ~ run_free i m r'.

(** The sector allocator against its reference.  [bitmap_alloc_run] returns
    the lowest [r] past the superblock such that the [n] sectors from [r] on are
    all free ([n = 0] is taken as 1) and marks exactly them; it returns -1, with
    nothing marked, only when there is no such run. *)
Theorem alloc_run_first_fit i n :
  bm_ok i -> 0 <= n ->
  let m := Z.max 1 n in
  match bitmap_alloc_run i n with
  | (j, r) =>
      (r = -1 /\ j = i /\ forall r', ~ lowest_run i m r') \/
      (lowest_run i m r /\ r + m <= n_sectors i /\
       forall q, 0 <= q -> used j q = ((r <=? q) && (q <? r + m)) || used i q)
  end.
Proof.
  intros O N m. pose proof (alloc_run_spec i n O N) as S. cbv zeta in S.
  assert (Em : (if n =? 0 then 1 else n) = m) by (unfold m; cases; lia). rewrite Em in S.
  destruct (bitmap_alloc_run i n) as [j r]. destruct S as [(-> & -> & No) | (R1 & R2 & Rf & -> & No)].
  - left. split_and!; [done | done |]. intros r' (Rr & Rf & _). by destruct (No r' Rr).
  - right. split_and!; [done | done |]. unfold FS_SUPER_SECTORS in *. pose proof (bo_n _ O).
    by destruct (set_run_spec i r m O ltac:(lia) ltac:(lia)) as (_ & _ & U).
Qed.

(** ** Sequences of operations *)

Inductive fs_op :=
  | OpWrite (path data : list Z) | OpMkdir (path : list Z) | OpUnlink (path : list Z) | OpRmdir (path : list Z)
  | OpChmod (idx m : Z) | OpChown (idx u g : Z) | OpRead (idx off n : Z).

Definition op_ok (o : fs_op) : Prop :=
  match o with
  | OpWrite p d => nul_free p /\ zlen d <= 4294966784
  | OpMkdir p => nul_free p
  | OpChmod _ m => 0 <= m < 65536
  | OpChown _ u g => 0 <= u < 65536 /\ 0 <= g < 65536
  | _ => True
  end.

(** One call on the boot instance, and the index of the entry it names. *)
Definition run_op cur tasks (o : fs_op) i w : fs_instance * W * Z :=
  match o with
  | OpWrite p d => let '(j, w, _) := fs_write_all i p d cur w in (j, w, fs_open j p cur)
  | OpMkdir p => let '(j, w, _) := fs_mkdir i p cur w in (j, w, fs_open j p cur)
  | OpUnlink p => let '(j, w, _) := fs_unlink i p cur tasks w in (j, w, fs_iopen_inst i p true cur)
  | OpRmdir p => let '(j, w, _) := fs_rmdir i p cur w in (j, w, fs_iopen_inst i p true cur)
  | OpChmod idx m => let '(j, w, _) := fs_chmod_idx i idx m w in (j, w, idx)
  | OpChown idx u g => let '(j, w, _) := fs_chown_idx i idx u g w in (j, w, idx)
  | OpRead idx off n => let '(w, _) := fs_read i idx off n w in (i, w, -1)
  end.

Fixpoint run_ops cur tasks (ops : list fs_op) i w : fs_instance * W * list Z :=
  match ops with
  | [] => (i, w, [])
  | o :: ops' =>
      let '(i, w, idx) := run_op cur tasks o i w in
      let '(i, w, l) := run_ops cur tasks ops' i w in (i, w, idx :: l)
  end.

Lemma iread_same_disk i idx off n w w' r : fs_iread_inst i idx off n w = (w', r) -> same_disk w w'.
Proof.
  assert (G : forall fuel e offset m total out v, same_disk v (fst (iread_loop fuel i e offset m total out v))).
  { induction fuel as [|fuel IH]; intros e offset m total out v; cbn [iread_loop]; [done |].
    destruct (m =? 0); [done |]. cbv zeta.
    match goal with |- context [dev_read ?l v] => destruct (dev_read_spec l v) as (S1 & _); destruct (dev_read l v) as [v1 [b|]] end;
      [| done]. intros x. rewrite (IH _ _ _ _ _ v1 x). apply S1. }
  unfold fs_iread_inst. repeat (cases; [by intros [= <- _] |]). intros E. change w' with (fst (w', r)). rewrite <- E. apply G.
Qed.

Lemma run_op_spec cur tasks o i w j w' idx :
  fs_ok i -> task_ok cur -> op_ok o -> run_op cur tasks o i w = (j, w', idx) ->
  fs_ok j /\ file_count (super i) <= file_count (super j) /\ others_kept i w j w' idx.
Proof.
  intros O Tk Ok E. destruct o as [p d | p | p | p | k m | k u g | k off n]; cbn [run_op op_ok] in *.
  - destruct (fs_write_all i p d cur w) as [[j1 w1] rc] eqn:E1. injection E as <- <- <-.
    pose proof (write_all_spec i p d false true cur w j1 w1 rc O Tk (proj1 Ok) eq_refl (proj2 Ok) E1) as S. by split_and!; apply S.
  - destruct (fs_mkdir i p cur w) as [[j1 w1] rc] eqn:E1. injection E as <- <- <-.
    pose proof (mkdir_spec i p false true cur w j1 w1 rc O Tk Ok eq_refl E1) as S. by split_and!; apply S.
  - destruct (fs_unlink i p cur tasks w) as [[j1 w1] rc] eqn:E1. injection E as <- <- <-.
    pose proof (unlink_spec i p cur tasks w j1 w1 rc O E1) as S. by split_and!; apply S.
  - destruct (fs_rmdir i p cur w) as [[j1 w1] rc] eqn:E1. injection E as <- <- <-.
    pose proof (rmdir_spec i p cur w j1 w1 rc O E1) as S. by split_and!; apply S.
  - destruct (fs_chmod_idx i k m w) as [[j1 w1] rc] eqn:E1. injection E as <- <- <-.
    pose proof (chmod_spec i k m w j1 w1 rc O Ok E1) as S. by split_and!; apply S.
  - destruct (fs_chown_idx i k u g w) as [[j1 w1] rc] eqn:E1. injection E as <- <- <-.
    pose proof (chown_spec i k u g w j1 w1 rc O (proj1 Ok) (proj2 Ok) E1) as S. by split_and!; apply S.
  - destruct (fs_read i k off n w) as [w1 r] eqn:E1. injection E as <- <- <-. pose proof (iread_same_disk _ _ _ _ _ _ _ E1) as S.
    split_and!; [done | done |]. intros q R Ne. split; [done |]. intros T.
    pose proof (so_count _ (fo_super _ O)) as C. pose proof (eo_size _ (entry_ok_file i q O ltac:(lia))) as Sz.
    apply file_bytes_ext; [done | | intros; apply S]. destruct (decide (size (file i q) = 0)); [lia |].
    destruct (fo_ext _ O q R T) as (_ & _ & ?); [done | lia].
Qed.

Lemma run_ops_spec cur tasks ops i w j w' l :
  fs_ok i -> task_ok cur -> Forall op_ok ops -> run_ops cur tasks ops i w = (j, w', l) ->
  fs_ok j /\ file_count (super i) <= file_count (super j) /\
  forall k, 0 <= k < file_count (super i) -> ~ In k l -> file j k = file i k /\
    (type (file i k) = FS_TYPE_FILE -> file_bytes j w' (file j k) = file_bytes i w (file i k)).
Proof.
  intros O Tk Ok. revert i w l O. induction Ok as [|o ops Oo _ IH]; intros i w l O E; cbn [run_ops] in E.
  { by injection E as <- <- <-. }
  destruct (run_op cur tasks o i w) as [[i1 w1] idx] eqn:E1.
  destruct (run_ops cur tasks ops i1 w1) as [[i2 w2] l2] eqn:E2. injection E as -> -> <-.
  destruct (run_op_spec cur tasks o i w i1 w1 idx O Tk Oo E1) as (O1 & C1 & K1).
  destruct (IH i1 w1 l2 O1 E2) as (O2 & C2 & K2). split_and!; [done | lia |].
  intros k R Ni. cbn [In] in Ni. destruct (K1 k R ltac:(by intros ->; apply Ni; left)) as (F1 & B1).
  destruct (K2 k ltac:(lia) ltac:(by intros ?; apply Ni; right)) as (F2 & B2). split; [congruence |].
  intros T. rewrite B2 by (by rewrite F1). by apply B1.
Qed.

(** C12. Safety of the filesystem under any sequence of calls, over every device on which a failed access damages at most
    its own sector: a block device of its own, whichever of its reads, its writes and the allocations fail ([FSDEV.blk_laws]), and, for
    the boot volume, the block cache over a disk that accepts the write-backs, whichever reads fail ([FSDEV.cached_laws]; a
    write-back that fails loses another sector, [BCACHE.evicted_write_lost]).  Starting from an instance
    that satisfies the invariant, whatever writes, directory creations, removals, permission changes and reads
    are made and however they fail, the invariant still holds: in particular the extents
    of files lie inside the instance past the superblock, are marked in the
    bitmap, and no two files share a sector.  Every entry that no call named is
    unchanged, and so are the bytes of its file. *)
Theorem fs_calls_safe cur tasks ops i w j w' l :
  fs_ok i -> task_ok cur -> Forall op_ok ops -> run_ops cur tasks ops i w = (j, w', l) ->
  (fs_ok j /\
   (forall k q, 0 <= k < file_count (super j) -> in_ext (file j k) q = true ->
      FS_SUPER_SECTORS <= q < n_sectors j /\ bitmap_get j q = 1 /\
      forall m, 0 <= m < file_count (super j) -> in_ext (file j m) q = true -> m = k)) /\
  forall k, 0 <= k < file_count (super i) -> ~ In k l ->
    file j k = file i k /\ (type (file i k) = FS_TYPE_FILE -> file_bytes j w' (file j k) = file_bytes i w (file i k)).
Proof.
  intros O Tk Ok E. destruct (run_ops_spec cur tasks ops i w j w' l O Tk Ok E) as (Oj & _ & K).
  split; [| done]. split; [done |]. intros k q R T.
  pose proof (fo_used _ Oj k q R T) as U. pose proof T as T'. apply in_ext_spec in T' as (T1 & T2 & T3).
  destruct (fo_ext _ Oj k R T1 T2) as (X1 & X2 & X3). split_and!; [lia | lia | |].
  - unfold used in U. unfold bitmap_get. destruct (n_sectors j <=? q) eqn:En; [done |]. cbn [orb] in U.
    unfold FS_SUPER_SECTORS in *. rewrite bm_get_01 by lia. by rewrite U.
  - intros m Rm Tm. by apply (fo_disj _ Oj m k q).
Qed.

(** The disk holds the table of [j], at the place [i] is mounted. *)
Definition stored w i j : Prop := rd w (base_lba i) (Z.to_nat FS_SUPER_SECTORS) = encode_super (super j).

(** [j] and [w'] are [i] and [w] with entry [e] in slot [idx] and the sectors [freed] given back: every
    other slot, every other bit of the bitmap, every sector outside the table and the volume's place are as before. *)
Record tree_change i w j w' (idx : Z) (e : fs_entry) (freed : Z -> bool) : Prop := TreeChange {
  tc_place : in_use j = in_use i /\ initialized j = initialized i /\ base_lba j = base_lba i /\ n_sectors j = n_sectors i;
  tc_head : magic (super j) = magic (super i) /\ reserved0 (super j) = reserved0 (super i);
  tc_entry : 0 <= idx < FS_MAX_FILES /\ file j idx = e;
  tc_others : forall k, 0 <= k < FS_MAX_FILES -> k <> idx -> file j k = file i k;
  tc_used : forall q, 0 <= q -> used j q = used i q && negb (freed q);
  tc_disk : same_outside w w' (base_lba i) FS_SUPER_SECTORS
}.

(** Putting an entry in a table and storing the table. *)
Lemma put_change i j1 w w' idx e rc freed :
  fs_ok i -> 0 <= idx < FS_MAX_FILES -> entry_ok e -> super_ok (super j1) ->
  in_use j1 = in_use i /\ initialized j1 = initialized i /\ base_lba j1 = base_lba i /\ n_sectors j1 = n_sectors i ->
  magic (super j1) = magic (super i) /\ reserved0 (super j1) = reserved0 (super i) ->
  (forall k, 0 <= k < FS_MAX_FILES -> k <> idx -> file j1 k = file i k) ->
  (forall q, 0 <= q -> used j1 q = used i q && negb (freed q)) ->
  fs_write_super_inst (set_file j1 idx e) w = (w', rc) ->
  tree_change i w (set_file j1 idx e) w' idx e freed /\ (rc = 0 \/ rc = -1) /\ (rc = 0 -> stored w' i (set_file j1 idx e)).
Proof.
  intros O R Oe O1 P Hd Oth U E. destruct (fo_base _ O) as (B1 & B2 & B3). destruct P as (P1 & P2 & P3 & P4).
  assert (F : forall k, 0 <= k -> file (set_file j1 idx e) k = if decide (k = idx) then e else file j1 k) by (intros; by apply file_set_file).
  destruct (write_super_spec (set_file j1 idx e) w w' rc (super_ok_set _ _ _ O1 Oe)) as (D & Rc & St);
    [cbn; lia | cbn; lia | done |]. cbn [set_file set_super base_lba] in D, St. rewrite P3 in D, St.
  split; [| done]. split; try done.
  - split; [lia |]. by rewrite F, decide_True by lia.
  - intros k Rk Ne. rewrite F, decide_False by (done || lia). by apply Oth.
Qed.

(** What allows a removal, and a creation under the name [base] in directory [parent]. *)
Definition may_unlink i idx cur tasks : Prop :=
  0 <= idx /\ type (file i idx) = FS_TYPE_FILE /\ 0 < fs_check_perm i idx FS_PERM_W cur /\ fs_entry_open_refs tasks idx <= 0.

Definition may_rmdir i idx cur : Prop :=
  0 <= idx /\ type (file i idx) = FS_TYPE_DIR /\ 0 < fs_check_perm i idx FS_PERM_W cur /\
  forall k, 0 <= k < file_count (super i) -> k <> idx -> type (file i k) <> FS_TYPE_FREE -> parent_dir (file i k) <> idx.

Definition has_slot i : Prop :=
  file_count (super i) < FS_MAX_FILES \/ exists k, 0 <= k < file_count (super i) /\ type (file i k) = FS_TYPE_FREE.

Lemma unlink_effect i path cur tasks w j w' rc :
  fs_ok i -> fs_unlink i path cur tasks w = (j, w', rc) ->
  let idx := fs_iopen_inst i path true cur in
  (~ may_unlink i idx cur tasks /\ j = i /\ w' = w /\ rc = -1) \/
  (may_unlink i idx cur tasks /\ file_count (super j) = file_count (super i) /\
   tree_change i w j w' idx zero_entry (in_ext (file i idx)) /\ (rc = 0 \/ rc = -1) /\ (rc = 0 -> stored w' i j)).
Proof.
  intros O E idx. unfold fs_unlink in E. rewrite (fo_init _ O) in E. cbn [negb] in E. fold idx in E.
  destruct (idx <? 0) eqn:Ei; zb; [injection E as <- <- <-; left; split_and!; try done; intros []; lia |].
  destruct (negb _) eqn:Et; zb; [injection E as <- <- <-; left; split_and!; try done; intros (_ & ? & _); lia |].
  destruct (_ <=? 0) eqn:Ep; zb; [injection E as <- <- <-; left; split_and!; try done; intros (_ & _ & ? & _); lia |].
  destruct (0 <? fs_entry_open_refs tasks idx) eqn:Er; zb; [injection E as <- <- <-; left; split_and!; try done; intros (_ & _ & _ & ?); lia |].
  right. pose proof (so_count _ (fo_super _ O)) as C. destruct (iopen_range i path true cur ltac:(lia) Ei) as (_ & Ri). fold idx in Ri.
  destruct (unlink_frees i idx O ltac:(lia) Et) as (Om & (S1 & S2 & S3 & S4 & S5) & U). fold (nsec (size (file i idx))) in E.
  set (j1 := if 0 <? size (file i idx) then _ else i) in *. destruct (fs_write_super_inst _ w) as [w2 rc2] eqn:Es. injection E as <- <- <-.
  split; [split_and!; done || lia |]. split; [cbn; by rewrite S5 |].
  apply (put_change i j1 w w2 idx zero_entry rc2); [exact O | lia | apply entry_ok_zero | rewrite S5; apply O | done | by rewrite S5 | | | exact Es].
  - intros k _ _. unfold file. by rewrite S5.
  - intros q Q. rewrite U by done. apply andb_comm.
Qed.

Lemma rmdir_effect i path cur w j w' rc :
  fs_ok i -> fs_rmdir i path cur w = (j, w', rc) ->
  let idx := fs_iopen_inst i path true cur in
  (~ may_rmdir i idx cur /\ j = i /\ w' = w /\ rc = -1) \/
  (may_rmdir i idx cur /\ file_count (super j) = file_count (super i) /\
   tree_change i w j w' idx zero_entry (fun _ => false) /\ (rc = 0 \/ rc = -1) /\ (rc = 0 -> stored w' i j)).
Proof.
  intros O E idx. unfold fs_rmdir in E. rewrite (fo_init _ O) in E. cbn [negb] in E. fold idx in E.
  destruct (idx <? 0) eqn:Ei; zb; [injection E as <- <- <-; left; split_and!; try done; intros []; lia |].
  destruct (negb _) eqn:Et; zb; [injection E as <- <- <-; left; split_and!; try done; intros (_ & ? & _); lia |].
  destruct (_ <=? 0) eqn:Ep; zb; [injection E as <- <- <-; left; split_and!; try done; intros (_ & _ & ? & _); lia |].
  pose proof (so_count _ (fo_super _ O)) as C. destruct (iopen_range i path true cur ltac:(lia) Ei) as (_ & Ri). fold idx in Ri.
  rewrite u8_small in E by (unfold FS_MAX_FILES in *; lia). destruct (zfind _ _ _) as [k|] eqn:Ez.
  - injection E as <- <- <-. left. split_and!; try done. intros (_ & _ & _ & K). destruct (zfind_Some _ _ _ _ Ez) as (Rk & Tk & _). zb.
    apply (K k); done || lia.
  - right. destruct (fs_write_super_inst _ w) as [w2 rc2] eqn:Es. injection E as <- <- <-. split; [split_and!; try done; try lia |].
    + intros k Rk Ne Tk Pk. rewrite zfind_None in Ez. specialize (Ez k ltac:(lia)).
      rewrite (proj2 (Z.eqb_neq k idx)), (proj2 (Z.eqb_neq (type _) _)), Pk, Z.eqb_refl in Ez by done. done.
    + split; [done |]. apply (put_change i i w w2 idx zero_entry rc2); [exact O | lia | apply entry_ok_zero | apply O | done | done | done | | exact Es].
      intros q _. by rewrite andb_true_r.
Qed.

(** The directory entry of a new name. *)
Definition new_dir (parent : Z) (base : list Z) : fs_entry := Entry (padded base) 0 0 FS_TYPE_DIR (u8 parent) 0 0 0.

Lemma mkdir_effect i path cur w j w' rc :
  fs_ok i -> task_ok cur -> nul_free path -> fs_mkdir i path cur w = (j, w', rc) ->
  ((forall parent base, split_path_inst i path false true cur = Some (parent, base) ->
      0 <= find_in_dir_inst i (u8 parent) base \/ ~ has_slot i) /\ j = i /\ w' = w /\ rc = -1) \/
  (exists parent base idx, split_path_inst i path false true cur = Some (parent, base) /\
     find_in_dir_inst i (u8 parent) base = -1 /\ has_slot i /\ fs_open i path cur = -1 /\ fs_open j path cur = idx /\
     (idx < file_count (super i) /\ type (file i idx) = FS_TYPE_FREE /\ file_count (super j) = file_count (super i) \/
      idx = file_count (super i) /\ file_count (super j) = idx + 1) /\
     tree_change i w j w' idx (new_dir parent base) (fun _ => false) /\ (rc = idx \/ rc = -1) /\ (0 <= rc -> stored w' i j)).
Proof.
  intros O Tk Nf E. unfold fs_mkdir, fs_imkdir_inst in E. rewrite (fo_init _ O) in E. cbn [negb] in E.
  destruct (split_path_inst i path false true cur) as [[parent base]|] eqn:Sp; [| left; injection E as <- <- <-; split_and!; try done].
  destruct (0 <=? find_in_dir_inst i (u8 parent) base) eqn:Fd; zb;
    [left; injection E as <- <- <-; split_and!; try done; intros p b [= <- <-]; by left |].
  destruct (alloc_slot_inst i) as [j1 k] eqn:Al. pose proof (so_count _ (fo_super _ O)) as C.
  destruct (alloc_slot_spec i j1 k (fo_super _ O) Al) as [(-> & ->) | (R & O1 & S & B & Oth & Sl)].
  { left. injection E as <- <- <-. split_and!; try done. intros p b [= <- <-]. right. intros Hs. unfold alloc_slot_inst in Al.
    destruct (zfind _ _ _) as [k|] eqn:Ez; [destruct (zfind_Some _ _ _ _ Ez); injection Al; lia |].
    destruct (FS_MAX_FILES <=? file_count (super i)) eqn:M; zb; [| injection Al; lia]. destruct Hs as [? | (k & Rk & Tk2)]; [lia |].
    rewrite zfind_None in Ez. specialize (Ez k ltac:(lia)). rewrite Tk2 in Ez. done. }
  right. rewrite (proj2 (Z.ltb_ge k 0)) in E by lia.
  destruct (split_open i path false true cur parent base (fo_init _ O) Tk eq_refl Sp) as (Eo & Ns & Nb & L & (pre & Epath)).
  assert (Mi : find_in_dir_inst i (u8 parent) base = -1) by (apply find_neg; lia).
  rewrite B in E. cbn [name start_sector size uid gid mode blank] in E. rewrite put_name_padded in E by done. fold (new_dir parent base) in E.
  destruct (add_entry_spec i j1 k parent base FS_TYPE_DIR 0 0 0 O ltac:(lia) ltac:(lia) ltac:(lia)
    (or_intror eq_refl) L Al ltac:(lia)) as (A & Oj & Rk & _). fold (new_dir parent base) in A, Oj.
  set (jj := set_file j1 k (new_dir parent base)) in *. destruct (fs_write_super_inst jj w) as [w2 rc2] eqn:Es.
  assert (Op : fs_iopen_inst jj path false cur = k)
    by (eapply (iopen_added i jj k _ path false true cur parent base); try done; [apply O | lia]).
  assert (X : j = jj /\ w' = w2 /\ rc = if rc2 =? 0 then k else -1)
    by (destruct (rc2 =? 0); injection E as <- <- <-; done).
  destruct X as (-> & -> & ->). destruct S as (S1 & S2 & S3 & S4 & S5). exists parent, base, k.
  assert (Hd : magic (super j1) = magic (super i) /\ reserved0 (super j1) = reserved0 (super i)).
  { unfold alloc_slot_inst in Al. destruct (zfind _ _ _); [by injection Al as <- _ |]. destruct (_ <=? _); by injection Al as <- _. }
  destruct (put_change i j1 w w2 k (new_dir parent base) rc2 (fun _ => false) O R) as (T & Rc & St); [| exact O1 | done | exact Hd | | | exact Es |].
  - split; cbn; [by apply zlen_padded | lia | lia | unfold FS_TYPE_DIR; lia | apply u8_range | done..].
  - intros q Rq Ne. apply Oth; lia.
  - intros q _. unfold used. by rewrite S4, S5, andb_true_r.
  - split_and!; try done.
    + destruct Sl as [(? & ? & ?) | (? & ?)]; [by right; exists k | left; lia].
    + unfold fs_open. congruence.
    + destruct Sl as [(? & ? & ?) | (? & ?)]; [left; split_and!; done || lia | by right].
    + destruct (rc2 =? 0); [by left | by right].
    + destruct (rc2 =? 0) eqn:E0; zb; [intros _; by apply St | lia].
Qed.

(** C13. Removing and creating have exactly their effect.  [fs_unlink] acts just when the path names a file that the task
    may write and that no descriptor has open: it clears that entry and gives back exactly the sectors of the file.
    [fs_rmdir] acts just when the path names a directory the task may write and no entry has as its parent: it clears that
    entry and gives back nothing.  [fs_mkdir] acts just when the path splits in a directory and a name that is not there, and a slot
    is free: a free slot, or a new one at the end, takes the directory's entry, and the path, which did not open,
    opens to it.  In every case all other slots, the other bits of the bitmap and all sectors outside the table are as before, the
    table is on the disk when the call succeeds, and a call that may not act changes nothing and returns -1. *)
Theorem tree_calls_correct i path cur tasks w j w' rc :
  fs_ok i -> task_ok cur -> nul_free path ->
  let idx := fs_iopen_inst i path true cur in
  (fs_unlink i path cur tasks w = (j, w', rc) ->
     (~ may_unlink i idx cur tasks /\ j = i /\ w' = w /\ rc = -1) \/
     (may_unlink i idx cur tasks /\ file_count (super j) = file_count (super i) /\
      tree_change i w j w' idx zero_entry (in_ext (file i idx)) /\ (rc = 0 \/ rc = -1) /\ (rc = 0 -> stored w' i j))) /\
  (fs_rmdir i path cur w = (j, w', rc) ->
     (~ may_rmdir i idx cur /\ j = i /\ w' = w /\ rc = -1) \/
     (may_rmdir i idx cur /\ file_count (super j) = file_count (super i) /\
      tree_change i w j w' idx zero_entry (fun _ => false) /\ (rc = 0 \/ rc = -1) /\ (rc = 0 -> stored w' i j))) /\
  (fs_mkdir i path cur w = (j, w', rc) ->
     ((forall parent base, split_path_inst i path false true cur = Some (parent, base) ->
         0 <= find_in_dir_inst i (u8 parent) base \/ ~ has_slot i) /\ j = i /\ w' = w /\ rc = -1) \/
     (exists parent base idx, split_path_inst i path false true cur = Some (parent, base) /\
        find_in_dir_inst i (u8 parent) base = -1 /\ has_slot i /\ fs_open i path cur = -1 /\ fs_open j path cur = idx /\
        (idx < file_count (super i) /\ type (file i idx) = FS_TYPE_FREE /\ file_count (super j) = file_count (super i) \/
         idx = file_count (super i) /\ file_count (super j) = idx + 1) /\
        tree_change i w j w' idx (new_dir parent base) (fun _ => false) /\ (rc = idx \/ rc = -1) /\ (0 <= rc -> stored w' i j))).
Proof.
  intros O Tk Nf idx. split_and!; [by apply unlink_effect | by apply rmdir_effect | by apply mkdir_effect].
Qed.

End Props.

(** ** A disk in memory *)

(** The sectors written so far; the others hold zeros. *)
Abbreviation ram := (gmap Z (list Z)).

#[export] Instance ram_world : FsWorld ram := {
  dev_read l w := (w, Some (pad512 (default [] (w !! l))));
  dev_write l b w := (<[l := b]> w, true);
  scratch n w := (w, true)
}.

#[export] Program Instance ram_laws : FsWorldLaws ram := {
  sec w l := pad512 (default [] (w !! l))
}.
Next Obligation. intros. apply zlen_pad512. Qed.
Next Obligation. intros. cbn. split; [done | by intros b [= <-]]. Qed.
Next Obligation.
  intros. cbn. split.
  - intros x Ne. by rewrite lookup_insert_ne.
  - intros _ L. rewrite lookup_insert_eq. cbn [default from_option id]. by apply pad512_id.
Qed.
Next Obligation. done. Qed.

Lemma ram_no_faults : no_faults (W := ram).
Proof. by split_and!. Qed.

(** A freshly formatted volume of [n] sectors. *)
Definition blank_volume (n : Z) : fs_instance :=
  set_run (Instance_ true true 0 n (Super FS_MAGIC 0 (zrep 500 0) (zrep FS_MAX_FILES zero_entry))
             (zrep FS_BITMAP_BYTES_MAX 0)) 0 FS_SUPER_SECTORS.

Lemma blank_volume_ok n : FS_SUPER_SECTORS <= n <= 8192 -> fs_ok (blank_volume n).
Proof.
  intros R. unfold FS_SUPER_SECTORS in *. unfold blank_volume.
  set (i := Instance_ true true 0 n _ _). assert (Om : bm_ok i) by (split; cbn; [reflexivity | lia]).
  destruct (set_run_spec i 0 17 Om ltac:(lia) ltac:(lia)) as (O & (S1 & S2 & S3 & S4 & S5) & U).
  change FS_SUPER_SECTORS with 17. split.
  - by rewrite S2.
  - done.
  - rewrite S5. split; [done | cbn; unfold FS_MAX_FILES; lia | done | done |]. apply Forall_replicate, entry_ok_zero.
  - rewrite S3, S4. cbn. unfold FS_SUPER_SECTORS. lia.
  - unfold FS_SUPER_SECTORS. intros q Q. rewrite U by lia. destruct (0 <=? q) eqn:E1, (q <? 0 + 17) eqn:E2; zb; try done; lia.
  - rewrite S5. cbn. lia.
  - rewrite S5. cbn. lia.
  - rewrite S5. cbn. lia.
Qed.

Lemma write_read_round_trip_witness :
  exists j w', fs_iwrite_all_inst (blank_volume 64) [47; 97] [104; 105; 33] false true None (∅ : ram) = (j, w', 0) /\
    inst_size j (fs_iopen_inst j [47; 97] false None) = 3 /\
    exists w2, fs_iread_inst j (fs_iopen_inst j [47; 97] false None) 1 2 w' = (w2, Some [105; 33]).
Proof.
  destruct (fs_iwrite_all_inst (blank_volume 64) [47; 97] [104; 105; 33] false true None (∅ : ram)) as [[j w'] rc] eqn:E.
  assert (Z0 : snd (fs_iwrite_all_inst (blank_volume 64) [47; 97] [104; 105; 33] false true None (∅ : ram)) = 0) by (vm_compute; reflexivity).
  rewrite E in Z0. cbn [snd] in Z0. subst rc.
  assert (O : fs_ok (blank_volume 64)) by (apply blank_volume_ok; unfold FS_SUPER_SECTORS; lia).
  assert (Nf : nul_free [47; 97]) by (repeat constructor; lia).
  destruct (write_read_round_trip (W := ram) (blank_volume 64) [47; 97] [104; 105; 33] false true None ∅ j w' 0
    O I Nf eq_refl ltac:(vm_compute; discriminate) E) as (H & _). destruct (H eq_refl) as (_ & _ & Sz & R).
  exists j, w'. split; [done | split; [exact Sz |]].
  apply (R 1 2 ltac:(lia) ltac:(lia) ltac:(lia)), ram_no_faults.
Defined.

Lemma remount_round_trip_witness :
  exists w' i', fs_write_super_inst (blank_volume 64) (∅ : ram) = (w', 0) /\
    fst (fst (fs_create_instance (blank_volume 0) 0 64 w')) = Some i' /\ fs_ok i'.
Proof.
  assert (O : fs_ok (blank_volume 64)) by (apply blank_volume_ok; unfold FS_SUPER_SECTORS; lia).
  destruct (fs_write_super_inst (blank_volume 64) (∅ : ram)) as [w' rc] eqn:E.
  assert (Z0 : snd (fs_write_super_inst (blank_volume 64) (∅ : ram)) = 0) by (vm_compute; reflexivity).
  rewrite E in Z0. cbn [snd] in Z0. subst rc.
  destruct (fs_create_instance (blank_volume 0) (base_lba (blank_volume 64)) (n_sectors (blank_volume 64)) w') as [[res sl] w2] eqn:E2.
  destruct (remount_round_trip (blank_volume 64) (blank_volume 0) ∅ w' w2 res sl None O E E2) as (H1 & H2).
  destruct res as [i'|]; [| by destruct (H1 ram_no_faults)].
  exists w', i'. split; [done | split; [| by apply H2]].
  change (base_lba (blank_volume 64)) with 0 in E2. change (n_sectors (blank_volume 64)) with 64 in E2. by rewrite E2.
Defined.

Lemma alloc_run_first_fit_witness :
  snd (bitmap_alloc_run (blank_volume 64) 3) = 17 /\
  used (fst (bitmap_alloc_run (blank_volume 64) 3)) 19 = true /\ used (fst (bitmap_alloc_run (blank_volume 64) 3)) 20 = false.
Proof.
  assert (O : bm_ok (blank_volume 64)) by (apply blank_volume_ok; unfold FS_SUPER_SECTORS; lia).
  pose proof (alloc_run_first_fit (blank_volume 64) 3 O ltac:(lia)) as H. cbv zeta in H.
  destruct (bitmap_alloc_run (blank_volume 64) 3) as [j r] eqn:E. cbn [fst snd].
  destruct H as [(-> & _) | (_ & _ & U)].
  - exfalso. assert (T : snd (bitmap_alloc_run (blank_volume 64) 3) = 17) by (vm_compute; reflexivity). by rewrite E in T.
  - assert (T : snd (bitmap_alloc_run (blank_volume 64) 3) = 17) by (vm_compute; reflexivity). rewrite E in T.
    cbn [snd] in T. subst r. rewrite !U by lia. split_and!; vm_compute; reflexivity.
Defined.

(** Two files and a directory are made, one file removed, and the directory kept. *)
Definition demo_ops : list fs_op :=
  [OpMkdir [100]; OpWrite [100; 47; 102] [1; 2]; OpWrite [103] [3]; OpRead 1 0 2; OpChmod 1 384; OpUnlink [100; 47; 102]; OpRmdir [120]].

(** On a device of its own, where sector 18 cannot be written, sector 17 cannot be read and the first allocation fails,
    three of the calls fail; on the boot volume, through the block cache, the disk cannot read sector 40. *)
Lemma fs_calls_safe_witness :
  (exists j w' l, run_ops None [] demo_ops (blank_volume 64) (Flaky ∅ {[17]} {[18]}, [false]) = (j, w', l) /\ fs_ok j /\
     l = [0; 1; 2; -1; 1; 1; -1] /\ size (file j 2) = 0) /\
  (exists j w' l, run_ops None [] demo_ops (blank_volume 64) (fresh {[40]}) = (j, w', l) /\ fs_ok j /\ size (file j 2) = 1).
Proof.
  assert (O : fs_ok (blank_volume 64)) by (apply blank_volume_ok; unfold FS_SUPER_SECTORS; lia).
  assert (Ok : Forall op_ok demo_ops) by (repeat constructor; cbn; try lia; try (vm_compute; discriminate)).
  split.
  - destruct (run_ops None [] demo_ops (blank_volume 64) (Flaky ∅ {[17]} {[18]}, [false])) as [[j w'] l] eqn:E.
    assert (Z0 : (let '(j, _, l) := run_ops None [] demo_ops (blank_volume 64) (Flaky ∅ {[17]} {[18]}, [false]) in (l, size (file j 2)))
      = ([0; 1; 2; -1; 1; 1; -1], 0)) by (vm_compute; reflexivity).
    rewrite E in Z0. injection Z0 as Zl Zs. exists j, w', l. split; [done | split; [| by split]].
    apply (fs_calls_safe None [] demo_ops (blank_volume 64) _ j w' l O I Ok E).
  - destruct (run_ops None [] demo_ops (blank_volume 64) (fresh {[40]})) as [[j w'] l] eqn:E.
    assert (Z0 : (let '(j, _, l) := run_ops None [] demo_ops (blank_volume 64) (fresh {[40]}) in size (file j 2)) = 1) by (vm_compute; reflexivity).
    rewrite E in Z0. exists j, w', l. split; [done | split; [| done]].
    apply (fs_calls_safe None [] demo_ops (blank_volume 64) _ j w' l O I Ok E).
Defined.

(** A directory "d" and a file "f" of two bytes are made in an empty volume. *)
Definition demo_tree : fs_instance * ram := fst (run_ops None [] [OpMkdir [100]; OpWrite [102] [1; 2]] (blank_volume 64) (∅ : ram)).

Lemma demo_tree_ok : fs_ok (fst demo_tree).
Proof.
  unfold demo_tree. destruct (run_ops _ _ _ _ _) as [[j w'] l] eqn:E. cbn [fst].
  refine (proj1 (run_ops_spec None [] _ (blank_volume 64) ∅ j w' l _ I _ E)); [apply blank_volume_ok; unfold FS_SUPER_SECTORS; lia |].
  repeat constructor; cbn; try lia; vm_compute; discriminate.
Qed.

(** Making "e" takes slot 2; removing "/f" gives back sector 17 and leaves "d"; removing "/d" leaves the sector of "f". *)
Lemma tree_calls_correct_witness :
  (exists j w', fs_mkdir (fst demo_tree) [101] None (snd demo_tree) = (j, w', 2) /\ fs_open j [101] None = 2 /\
     file j 0 = file (fst demo_tree) 0 /\ file j 1 = file (fst demo_tree) 1 /\ used j 17 = true) /\
  (exists j w', fs_unlink (fst demo_tree) [47; 102] None [] (snd demo_tree) = (j, w', 0) /\ file j 1 = zero_entry /\
     file j 0 = file (fst demo_tree) 0 /\ used (fst demo_tree) 17 = true /\ used j 17 = false) /\
  (exists j w', fs_rmdir (fst demo_tree) [47; 100] None (snd demo_tree) = (j, w', 0) /\ file j 0 = zero_entry /\
     file j 1 = file (fst demo_tree) 1 /\ used j 17 = true).
Proof.
  assert (U : used (fst demo_tree) 17 = true) by (vm_compute; reflexivity). split; [| split].
  - destruct (fs_mkdir (fst demo_tree) [101] None (snd demo_tree)) as [[j w'] rc] eqn:E.
    assert (Z0 : snd (fs_mkdir (fst demo_tree) [101] None (snd demo_tree)) = 2) by (vm_compute; reflexivity). rewrite E in Z0. cbn [snd] in Z0. subst rc.
    assert (Nf : nul_free [101]) by (repeat constructor; lia). exists j, w'. split; [done |].
    destruct (tree_calls_correct (fst demo_tree) [101] None [] (snd demo_tree) j w' 2 demo_tree_ok I Nf) as (_ & _ & H).
    destruct (H E) as [(_ & _ & _ & ?) | (pa & ba & idx & _ & _ & _ & _ & Op & _ & T & R & _)]; [lia |].
    assert (Ix : idx = 2) by lia. rewrite Ix in *. split; [exact Op |]. rewrite !(tc_others _ _ _ _ _ _ _ T) by (unfold FS_MAX_FILES; lia).
    split; [done | split; [done |]]. rewrite (tc_used _ _ _ _ _ _ _ T) by lia. by rewrite U.
  - destruct (fs_unlink (fst demo_tree) [47; 102] None [] (snd demo_tree)) as [[j w'] rc] eqn:E.
    assert (Z0 : snd (fs_unlink (fst demo_tree) [47; 102] None [] (snd demo_tree)) = 0) by (vm_compute; reflexivity). rewrite E in Z0. cbn [snd] in Z0. subst rc.
    assert (Nf : nul_free [47; 102]) by (repeat constructor; lia). exists j, w'. split; [done |].
    destruct (tree_calls_correct (fst demo_tree) [47; 102] None [] (snd demo_tree) j w' 0 demo_tree_ok I Nf) as (H & _ & _).
    assert (Ei : fs_iopen_inst (fst demo_tree) [47; 102] true None = 1) by (vm_compute; reflexivity). cbv zeta in H. rewrite Ei in H.
    destruct (H E) as [(_ & _ & _ & ?) | (_ & _ & T & _)]; [lia |]. split; [apply (tc_entry _ _ _ _ _ _ _ T) |].
    rewrite (tc_others _ _ _ _ _ _ _ T) by (unfold FS_MAX_FILES; lia). rewrite (tc_used _ _ _ _ _ _ _ T) by lia. rewrite U.
    split; [done | split; [done | vm_compute; reflexivity]].
  - destruct (fs_rmdir (fst demo_tree) [47; 100] None (snd demo_tree)) as [[j w'] rc] eqn:E.
    assert (Z0 : snd (fs_rmdir (fst demo_tree) [47; 100] None (snd demo_tree)) = 0) by (vm_compute; reflexivity). rewrite E in Z0. cbn [snd] in Z0. subst rc.
    assert (Nf : nul_free [47; 100]) by (repeat constructor; lia). exists j, w'. split; [done |].
    destruct (tree_calls_correct (fst demo_tree) [47; 100] None [] (snd demo_tree) j w' 0 demo_tree_ok I Nf) as (_ & H & _).
    assert (Ei : fs_iopen_inst (fst demo_tree) [47; 100] true None = 0) by (vm_compute; reflexivity). cbv zeta in H. rewrite Ei in H.
    destruct (H E) as [(_ & _ & _ & ?) | (_ & _ & T & _)]; [lia |]. split; [apply (tc_entry _ _ _ _ _ _ _ T) |].
    split; [exact (tc_others _ _ _ _ _ _ _ T 1 ltac:(unfold FS_MAX_FILES; lia) ltac:(lia)) |].
    rewrite (tc_used _ _ _ _ _ _ _ T 17 ltac:(lia)), U. exact eq_refl.
Defined.

(** ** Two corner cases of the code *)

(** [fs_iread_inst] clips [n] against [offset + n] in 32 bits: when the sum wraps to
    at most the file's size, the loop runs for the whole [n], past the file. *)
Lemma read_wraps {W} `{FsWorld W} i idx off n (w : W) :
  live i idx = true -> type (file i idx) = FS_TYPE_FILE -> 0 <= off < size (file i idx) -> size (file i idx) < 4294967296 ->
  4294967296 - off <= n < 4294967296 -> u32 (off + n) <= size (file i idx) ->
  fs_iread_inst i idx off n w = iread_loop (Z.to_nat (n / 512 + 2)) i (file i idx) off n 0 [] w /\
  size (file i idx) < off + n.
Proof.
  intros Lv T R R2 N U. split.
  - unfold fs_iread_inst. rewrite Lv, T. change (negb (FS_TYPE_FILE =? FS_TYPE_FILE)) with false. cbv iota. cbn [negb].
    rewrite (proj2 (Z.leb_gt _ _)), (proj2 (Z.ltb_ge _ _)) by lia. done.
  - lia.
Qed.

(** A file written empty takes a sector that the next write of it does not give back. *)
Example empty_write_leaks :
  let '(j, w, _) := fs_iwrite_all_inst (blank_volume 64) [97] [] false true None (∅ : ram) in
  let '(k, _, rc) := fs_iwrite_all_inst j [97] [1] false true None w in
  rc = 0 /\ bitmap_get k 17 = 1 /\ start_sector (file k 0) = 18 /\ size (file k 0) = 1 /\ file_count (super k) = 1.
Proof. vm_compute. split_and!; reflexivity. Qed.

End FSPROPS.
