(* ===== verification/Vfs.v ===== *)
(** The VFS mount table ([kernel/vfs.c]).

    Path dispatch only: a table of four mounts, the longest-prefix resolution of an
    absolute path, and the forwarding of open, readdir, mkdir and write_all to the
    operations of the mount found.  The operations of a filesystem are the fields
    of [vfs_fs_ops]; a null function pointer is [None]. *)

From stdpp Require Import base numbers list gmap.
From Stdlib Require Import ZArith Lia.
From S2P Require Import Prelude.

Module VFS.

Definition VFS_MAX_MOUNTS : Z := 4.

Definition MOUNT_PHASE : Z := 65536.

Definition SLASH : Z := 47.

Section Vfs.
Context {W Inode : Type}.

(** Relative paths come in; [None] from open and a negative index are -1.
    readdir returns the index, the new iterator and the name stored, if any. *)
Record vfs_fs_ops := Ops {
  op_open : list Z -> W -> W * option Inode;
  op_readdir : option (list Z -> Z -> W -> W * (Z * Z * option (list Z)));
  op_mkdir : option (list Z -> W -> W * Z);
  op_write_all : option (list Z -> list Z -> W -> W * Z)
}.

Record vfs_mount_t := Mount {
  in_use : bool;
  mount_point : list Z;
  fs_name : list Z;
  ops : vfs_fs_ops
}.

Definition no_ops : vfs_fs_ops := Ops (fun _ w => (w, None)) None None None.

#[global] Instance mount_inhabited : Inhabited vfs_mount_t := populate (Mount false [] [] no_ops).

(** [g_mounts] *)
Definition mounts : Type := list vfs_mount_t.

Definition vfs_init (t : mounts) : mounts :=
  zfor (Z.to_nat VFS_MAX_MOUNTS) 0
    (fun k t => let m := zget t k in zset t k (Mount false (mount_point m) (fs_name m) (ops m))) t.

(** [strncpy] of 15 characters and the final NUL. *)
Definition vfs_mount (t : mounts) (mp name : list Z) (o : vfs_fs_ops) : mounts * Z :=
  match zfind (Z.to_nat VFS_MAX_MOUNTS) 0 (fun k =>
          in_use (zget t k) && bool_decide (mount_point (zget t k) = mp)) with
  | Some _ => (t, -1)
  | None =>
      match zfind (Z.to_nat VFS_MAX_MOUNTS) 0 (fun k => negb (in_use (zget t k))) with
      | None => (t, -1)
      | Some idx => (zset t idx (Mount true (ztake 15 mp) (ztake 15 name) o), 0)
      end
  end.

Definition find_rootfs (t : mounts) : option Z :=
  zfind (Z.to_nat VFS_MAX_MOUNTS) 0 (fun k =>
    in_use (zget t k) && bool_decide (mount_point (zget t k) = [SLASH])).

(** The character at [n], NUL at the end. *)
Definition char_at (p : list Z) (n : Z) : Z := default 0 (p !! Z.to_nat n).

(** The test of one turn of the loop in [resolve], the length apart. *)
Definition prefix_of (mp path : list Z) : bool :=
  bool_decide (ztake (zlen mp) path = mp) &&
  ((char_at path (zlen mp) =? 0) || (char_at path (zlen mp) =? SLASH)).

Definition resolve_step (t : mounts) (path : list Z) (k : Z) (acc : option Z * Z) : option Z * Z :=
  let '(best, best_len) := acc in
  let m := zget t k in
  if negb (in_use m) then acc else
  let mlen := zlen (mount_point m) in
  if mlen <=? best_len then acc else
  if negb (prefix_of (mount_point m) path) then acc else (Some k, mlen).

(** The mount's index and the path relative to it. *)
Definition resolve (t : mounts) (path : list Z) : option (Z * list Z) :=
  if negb (char_at path 0 =? SLASH) then None else
  let '(best, best_len) :=
    zfor (Z.to_nat VFS_MAX_MOUNTS) 0 (resolve_step t path) (find_rootfs t, 1) in
  match best with
  | None => None
  | Some k =>
      let rel := zdrop best_len path in
      Some (k, if char_at rel 0 =? SLASH then zdrop 1 rel else rel)
  end.

Definition vfs_open (t : mounts) (path : list Z) (w : W) : W * option Inode :=
  if negb (char_at path 0 =? SLASH) then
    match find_rootfs t with None => (w, None) | Some r => op_open (ops (zget t r)) path w end
  else if char_at path 1 =? 0 then
    match find_rootfs t with None => (w, None) | Some r => op_open (ops (zget t r)) [] w end
  else
    match resolve t path with None => (w, None) | Some (m, rel) => op_open (ops (zget t m)) rel w end.

(** A mount whose name appears in the listing of [/]. *)
Definition top_level (m : vfs_mount_t) : bool :=
  in_use m && (char_at (mount_point m) 0 =? SLASH) && negb (char_at (mount_point m) 1 =? 0) &&
  negb (existsb (fun c => c =? SLASH) (zdrop 1 (mount_point m))).

(** The second phase of the root listing, from mount index [mi]. *)
Definition mount_phase (t : mounts) (mi : Z) : Z * Z * option (list Z) :=
  match zfind (Z.to_nat (VFS_MAX_MOUNTS - mi)) mi (fun k => top_level (zget t k)) with
  | Some k => (Z.lor 65536 k, MOUNT_PHASE + k + 1, Some (ztake 15 (zdrop 1 (mount_point (zget t k)))))
  | None => (-1, MOUNT_PHASE + VFS_MAX_MOUNTS, None)
  end.

Definition vfs_readdir (t : mounts) (path : list Z) (iter : Z) (w : W) : W * (Z * Z * option (list Z)) :=
  if negb (char_at path 0 =? SLASH) then
    match find_rootfs t with
    | None => (w, (-1, iter, None))
    | Some r => match op_readdir (ops (zget t r)) with None => (w, (-1, iter, None)) | Some rd => rd path iter w end
    end
  else
    match resolve t path with
    | None => (w, (-1, iter, None))
    | Some (m, rel) =>
        match op_readdir (ops (zget t m)) with
        | None => (w, (-1, iter, None))
        | Some rd =>
            let is_root_listing :=
              (char_at path 1 =? 0) || ((char_at path 1 =? SLASH) && (char_at path 2 =? 0)) in
            if negb is_root_listing then rd rel iter w
            else if iter <? MOUNT_PHASE then
              match rd rel iter w with
              | (w, (idx, it, nm)) =>
                  if 0 <=? idx then (w, (idx, it, nm)) else (w, mount_phase t 0)
              end
            else (w, mount_phase t (iter - MOUNT_PHASE))
        end
    end.

Definition vfs_mkdir (t : mounts) (path : list Z) (w : W) : W * Z :=
  let '(m, rel) :=
    if negb (char_at path 0 =? SLASH) then (find_rootfs t, path)
    else match resolve t path with None => (None, []) | Some (m, rel) => (Some m, rel) end in
  match m with
  | None => (w, -1)
  | Some m => match op_mkdir (ops (zget t m)) with None => (w, -1) | Some f => f rel w end
  end.

Definition vfs_write_all (t : mounts) (path data : list Z) (w : W) : W * Z :=
  let '(m, rel) :=
    if negb (char_at path 0 =? SLASH) then (find_rootfs t, path)
    else match resolve t path with None => (None, []) | Some (m, rel) => (Some m, rel) end in
  match m with
  | None => (w, -1)
  | Some m => match op_write_all (ops (zget t m)) with None => (w, -1) | Some f => f rel data w end
  end.

(** [while ( *s && o < cap - 1) buf[o++] = *s++] *)
Definition emit (cap : Z) (out s : list Z) : list Z := out ++ ztake (cap - 1 - zlen out) s.

(** The bytes before the final NUL; their number is the result. *)
Definition vfs_describe_mounts (t : mounts) (cap : Z) : list Z :=
  if cap <=? 0 then [] else
  zfor (Z.to_nat VFS_MAX_MOUNTS) 0 (fun k out =>
    let m := zget t k in
    if negb (in_use m) then out
    else emit cap (emit cap (emit cap (emit cap out (mount_point m)) [32]) (fs_name m)) [10]) [].

(** ** Resolution *)

Definition table_ok (t : mounts) : Prop := zlen t = VFS_MAX_MOUNTS.

(** Mount [k] is live and its mount point is a component prefix of [path]. *)
Definition matches (t : mounts) (path : list Z) (k : Z) : Prop :=
  0 <= k < VFS_MAX_MOUNTS /\ in_use (zget t k) = true /\
  (mount_point (zget t k) = [SLASH] \/
   1 < zlen (mount_point (zget t k)) /\
   exists rest, path = mount_point (zget t k) ++ rest /\ (rest = [] \/ exists r, rest = SLASH :: r)).

Definition nul_free (p : list Z) : Prop := Forall (fun c => c <> 0) p.

Lemma char_at_app_r a b : char_at (a ++ b) (zlen a) = char_at b 0.
Proof. unfold char_at, zlen. rewrite Nat2Z.id, lookup_app_r, Nat.sub_diag by lia. done. Qed.

Lemma prefix_of_spec mp path : nul_free path ->
  prefix_of mp path = true <-> exists rest, path = mp ++ rest /\ (rest = [] \/ exists r, rest = SLASH :: r).
Proof.
  intros Nf. unfold prefix_of. rewrite andb_true_iff, bool_decide_eq_true, orb_true_iff, !Z.eqb_eq. split.
  - intros (E & F). exists (zdrop (zlen mp) path). split; [rewrite <- E at 1; symmetry; apply ztake_zdrop |].
    rewrite <- (ztake_zdrop (zlen mp) path), E, char_at_app_r in F.
    unfold nul_free in Nf. rewrite <- (ztake_zdrop (zlen mp) path) in Nf. apply Forall_app in Nf as (_ & Nf).
    destruct (zdrop (zlen mp) path) as [|c r]; [by left | right]. change (char_at (c :: r) 0) with c in F.
    apply Forall_cons in Nf as (Nc & _). destruct F as [-> | ->]; [done | by exists r].
  - intros (rest & -> & F). split; [unfold ztake, zlen; by rewrite Nat2Z.id, take_app_length |].
    rewrite char_at_app_r. destruct F as [-> | (r & ->)]; [by left | by right].
Qed.

(** The path relative to mount [k]: the mount point and one slash removed. *)
Definition relative (t : mounts) (path : list Z) (k : Z) : list Z :=
  let rel := zdrop (zlen (mount_point (zget t k))) path in
  if char_at rel 0 =? SLASH then zdrop 1 rel else rel.

Lemma find_rootfs_spec t :
  match find_rootfs t with
  | Some r => 0 <= r < VFS_MAX_MOUNTS /\ in_use (zget t r) = true /\ mount_point (zget t r) = [SLASH] /\
      forall k, 0 <= k < r -> in_use (zget t k) = true -> mount_point (zget t k) <> [SLASH]
  | None => forall k, 0 <= k < VFS_MAX_MOUNTS -> in_use (zget t k) = true -> mount_point (zget t k) <> [SLASH]
  end.
Proof.
  unfold find_rootfs. destruct (zfind _ _ _) as [r|] eqn:E.
  - destruct (zfind_Some _ _ _ _ E) as (R & T & F). apply andb_true_iff in T as (T1 & T2). apply bool_decide_eq_true in T2.
    split_and!; [lia | unfold VFS_MAX_MOUNTS in *; lia | done | done |]. intros k Rk U M. specialize (F k Rk).
    rewrite U, M, bool_decide_eq_true_2 in F by done. done.
  - rewrite zfind_None in E. intros k Rk U M. specialize (E k ltac:(unfold VFS_MAX_MOUNTS in *; lia)).
    rewrite U, M, bool_decide_eq_true_2 in E by done. done.
Qed.

(** The loop's invariant: the best of the root mount and the mounts before [k], the
    lowest index among the longest. *)
Definition best_of (t : mounts) (path : list Z) (k : Z) (acc : option Z * Z) : Prop :=
  let '(best, len) := acc in
  1 <= len /\
  (forall q, 0 <= q < VFS_MAX_MOUNTS -> (q < k \/ mount_point (zget t q) = [SLASH]) -> matches t path q ->
     exists b, best = Some b /\ zlen (mount_point (zget t q)) <= len /\
       (zlen (mount_point (zget t q)) = len -> b <= q)) /\
  match best with
  | None => len = 1
  | Some b => matches t path b /\ zlen (mount_point (zget t b)) = len /\ (b < k \/ mount_point (zget t b) = [SLASH])
  end.

Lemma resolve_loop t path : nul_free path ->
  best_of t path VFS_MAX_MOUNTS (zfor (Z.to_nat VFS_MAX_MOUNTS) 0 (resolve_step t path) (find_rootfs t, 1)).
Proof.
  intros Nf. change VFS_MAX_MOUNTS with (0 + Z.of_nat (Z.to_nat VFS_MAX_MOUNTS)) at 1. apply zfor_ind.
  - pose proof (find_rootfs_spec t) as F. cbn. split; [done |]. destruct (find_rootfs t) as [r|].
    + destruct F as (R & U & M & Lo). split.
      * intros q Rq [? | Mq] (_ & Uq & _); [lia |]. exists r. rewrite Mq. split_and!; try done. intros _.
        destruct (decide (q < r)); [| lia]. by destruct (Lo q ltac:(lia) Uq).
      * split_and!; [split_and!; try done; try lia; by left | by rewrite M | by right].
    + split; [| done]. intros q Rq [? | Mq] (_ & Uq & _); [lia |]. by destruct (F q Rq Uq).
  - intros k [best len] Rk (L1 & Q & B). unfold resolve_step.
    (* a mount that is live, longer and a prefix is the new best; any other leaves it *)
    assert (Keep : (matches t path k -> exists b, best = Some b /\ zlen (mount_point (zget t k)) <= len /\
        (zlen (mount_point (zget t k)) = len -> b <= k)) -> best_of t path (k + 1) (best, len)).
    { intros Hk. split; [done | split].
      - intros q Rq [Lq | Mq] Mt; [| by apply Q; auto].
        destruct (decide (q < k)) as [L | L]; [apply Q; auto |]. assert (q = k) as -> by lia. by apply Hk.
      - destruct best; [| done]. destruct B as (B1 & B2 & [B3 | B3]); split_and!; auto; left; lia. }
    change (VFS_MAX_MOUNTS) with 4 in *. change (0 + Z.of_nat (Z.to_nat 4)) with 4 in Rk.
    destruct (in_use (zget t k)) eqn:Uk; cbn [negb].
    2: { apply Keep. intros (_ & Uk' & _). congruence. }
    destruct (zlen (mount_point (zget t k)) <=? len) eqn:El; zb.
    { apply Keep. intros Mt. pose proof Mt as (_ & _ & [Mk | (Lk & _)]); [apply Q; auto; lia |].
      destruct best as [b|]; [| lia]. destruct B as (_ & Eb & [B3 | B3]); [| rewrite B3 in Eb; change (zlen [SLASH]) with 1 in Eb; lia].
      exists b. split_and!; [done | done | lia]. }
    destruct (prefix_of (mount_point (zget t k)) path) eqn:Ep; cbn [negb].
    2: { apply Keep. intros (_ & _ & [Mk | (_ & Hp)]); [rewrite Mk in El; change (zlen [SLASH]) with 1 in El; lia |].
      apply prefix_of_spec in Hp; [congruence | done]. }
    assert (Mk : matches t path k) by (split_and!; [lia | change VFS_MAX_MOUNTS with 4; lia | done | right; split; [lia | by apply prefix_of_spec]]).
    split_and!; [lia | | done | done | left; lia].
    intros q Rq Cs Mt. exists k. split; [done |]. destruct (decide (q = k)) as [-> | Ne]; [split; lia |].
    destruct (Q q Rq ltac:(destruct Cs; [left; lia | by right]) Mt) as (b & _ & Lb & _). split; lia.
Qed.

(** C14. Path resolution.  For an absolute path, [resolve] picks a live mount whose
    mount point is the root or a prefix of the path ending at a component boundary,
    of greatest length among all such mounts and the first in the table among
    equals, with the path relative to it; it fails only when no mount matches. *)
Theorem resolve_longest_prefix t path :
  nul_free path -> char_at path 0 = SLASH ->
  match resolve t path with
  | Some (m, rel) => matches t path m /\ rel = relative t path m /\
      forall q, matches t path q ->
        zlen (mount_point (zget t q)) < zlen (mount_point (zget t m)) \/
        zlen (mount_point (zget t q)) = zlen (mount_point (zget t m)) /\ m <= q
  | None => forall q, ~ matches t path q
  end.
Proof.
  intros Nf C0. unfold resolve. rewrite C0, Z.eqb_refl. cbn [negb]. pose proof (resolve_loop t path Nf) as L.
  destruct (zfor _ _ _ _) as [[m|] len]; destruct L as (L1 & Q & B).
  - destruct B as (Mm & <- & _). split_and!; [done | done |]. intros q Mq.
    destruct (Q q ltac:(apply Mq) ltac:(left; apply Mq) Mq) as (b & [= <-] & Lb & Eb). lia.
  - intros q Mq. by destruct (Q q ltac:(apply Mq) ltac:(left; apply Mq) Mq) as (b & ? & _).
Qed.

(** ** The listing of the root *)

(** Repeated calls of readdir, at most [fuel] of them, until one fails: the names stored. *)
Fixpoint listing (fuel : nat) (rd : Z -> W -> W * (Z * Z * option (list Z))) (iter : Z) (w : W)
    : W * list (list Z) * bool :=
  match fuel with
  | O => (w, [], false)
  | S fuel' =>
      match rd iter w with
      | (w, (idx, it, nm)) =>
          if idx <? 0 then (w, [], true)
          else let '(w, l, done) := listing fuel' rd it w in (w, default [] nm :: l, done)
      end
  end.

(** The names of the top-level mounts among [n] from [k] on. *)
Fixpoint top_from (n : nat) (t : mounts) (k : Z) : list (list Z) :=
  match n with
  | O => []
  | S n' =>
      if top_level (zget t k) then ztake 15 (zdrop 1 (mount_point (zget t k))) :: top_from n' t (k + 1)
      else top_from n' t (k + 1)
  end.

Lemma readdir_phase2 t m rel rd mi w :
  resolve t [SLASH] = Some (m, rel) -> op_readdir (ops (zget t m)) = Some rd -> 0 <= mi ->
  vfs_readdir t [SLASH] (MOUNT_PHASE + mi) w = (w, mount_phase t mi).
Proof.
  intros R D M. unfold vfs_readdir. change (negb (char_at [SLASH] 0 =? SLASH)) with false. cbv iota. rewrite R, D.
  change (char_at [SLASH] 1 =? 0) with true. cbn [orb negb]. rewrite (proj2 (Z.ltb_ge _ _)) by lia.
  do 2 f_equal. lia.
Qed.

Lemma listing_phase2 t m rel rd w :
  resolve t [SLASH] = Some (m, rel) -> op_readdir (ops (zget t m)) = Some rd ->
  forall n fuel mi, 0 <= mi -> mi + Z.of_nat n = VFS_MAX_MOUNTS -> (n < fuel)%nat ->
  listing fuel (vfs_readdir t [SLASH]) (MOUNT_PHASE + mi) w = (w, top_from n t mi, true).
Proof.
  intros R D. induction n as [|n IH]; intros fuel mi P E F; (destruct fuel as [|fuel]; [lia |]); cbn [listing].
  - rewrite (readdir_phase2 t m rel rd) by done. unfold mount_phase. by replace (Z.to_nat (VFS_MAX_MOUNTS - mi)) with 0%nat by lia.
  - rewrite (readdir_phase2 t m rel rd) by done. unfold mount_phase.
    replace (Z.to_nat (VFS_MAX_MOUNTS - mi)) with (S n) by lia. cbn [zfind top_from].
    destruct (top_level (zget t mi)) eqn:T.
    + rewrite (proj2 (Z.ltb_ge (Z.lor 65536 mi) 0)) by (apply Z.lor_nonneg; lia).
      rewrite <- Z.add_assoc, IH by lia. done.
    + specialize (IH (S fuel) (mi + 1) ltac:(lia) ltac:(lia) ltac:(lia)). cbn [listing] in IH.
      rewrite (readdir_phase2 t m rel rd) in IH by (done || lia). unfold mount_phase in IH.
      replace (Z.to_nat (VFS_MAX_MOUNTS - (mi + 1))) with n in IH by lia. exact IH.
Qed.

(** Listing the root.  If the root filesystem's own listing ends after [n]
    calls with the names [l] and keeps its iterator below [MOUNT_PHASE], then
    repeated [vfs_readdir] calls on [/] end after at most five more calls and yield
    [l] followed by the name of every live single-segment mount, once each, in
    table order. *)
Theorem root_listing t m rel rd n w w1 l :
  resolve t [SLASH] = Some (m, rel) -> op_readdir (ops (zget t m)) = Some rd ->
  (forall it w w' idx it' nm, it < MOUNT_PHASE -> rd rel it w = (w', (idx, it', nm)) -> 0 <= idx -> it' < MOUNT_PHASE) ->
  listing n (rd rel) 0 w = (w1, l, true) ->
  listing (n + 5) (vfs_readdir t [SLASH]) 0 w = (w1, l ++ top_from (Z.to_nat VFS_MAX_MOUNTS) t 0, true).
Proof.
  intros R D B. assert (L0 : 0 < MOUNT_PHASE) by done. revert L0. generalize 0 at 1 2 3 as it.
  revert w l. induction n as [|n IH]; intros w l it Hi E; cbn [listing] in E; [done |].
  cbn [listing Nat.add]. unfold vfs_readdir at 1. change (negb (char_at [SLASH] 0 =? SLASH)) with false. cbv iota.
  rewrite R, D. change (char_at [SLASH] 1 =? 0) with true. cbn [orb negb]. rewrite (proj2 (Z.ltb_lt _ _)) by done.
  destruct (rd rel it w) as [w2 [[idx it2] nm]] eqn:Er. destruct (idx <? 0) eqn:Ei; zb.
  - rewrite (proj2 (Z.leb_gt 0 idx)) by done. injection E as -> <-. cbn [app].
    pose proof (listing_phase2 t m rel rd w1 R D 4 (S (n + 5)) 0 ltac:(lia) eq_refl ltac:(lia)) as P.
    cbn [listing] in P. rewrite (readdir_phase2 t m rel rd) in P by done. exact P.
  - rewrite (proj2 (Z.leb_le 0 idx)) by done. rewrite (proj2 (Z.ltb_ge idx 0)) by done.
    destruct (listing n (rd rel) it2 w2) as [[w3 l3] d3] eqn:El. injection E as -> <- ->.
    rewrite (IH w2 l3 it2); [done | by eapply B | done].
Qed.

(** The mount table.  [vfs_mount] refuses a mount point already in the table
    and a full table, leaving the table as it was; otherwise exactly one free slot
    becomes live, with the first fifteen characters of the mount point, and every
    other slot is unchanged. *)
Theorem vfs_mount_correct t mp name o t' rc :
  table_ok t -> vfs_mount t mp name o = (t', rc) ->
  (rc = -1 /\ t' = t /\
     ((exists k, 0 <= k < VFS_MAX_MOUNTS /\ in_use (zget t k) = true /\ mount_point (zget t k) = mp) \/
      (forall k, 0 <= k < VFS_MAX_MOUNTS -> in_use (zget t k) = true))) \/
  (rc = 0 /\ table_ok t' /\ exists k, 0 <= k < VFS_MAX_MOUNTS /\ in_use (zget t k) = false /\
     zget t' k = Mount true (ztake 15 mp) (ztake 15 name) o /\
     (forall q, 0 <= q -> q <> k -> zget t' q = zget t q) /\
     (forall q, 0 <= q < VFS_MAX_MOUNTS -> in_use (zget t q) = true -> mount_point (zget t q) <> mp) /\
     (zlen mp <= 15 -> nul_free mp -> char_at mp 0 = SLASH -> matches t' mp k)).
Proof.
  intros O E. unfold vfs_mount in E. unfold table_ok in *. destruct (zfind _ _ _) as [k|] eqn:D.
  - injection E as <- <-. left. split_and!; [done | done | left]. destruct (zfind_Some _ _ _ _ D) as (R & T & _).
    apply andb_true_iff in T as (T1 & T2). apply bool_decide_eq_true in T2. exists k. unfold VFS_MAX_MOUNTS in *. split_and!; done || lia.
  - rewrite zfind_None in D. destruct (zfind _ _ (fun k => negb _)) as [k|] eqn:F.
    + injection E as <- <-. right. destruct (zfind_Some _ _ _ _ F) as (R & T & _). zb.
      assert (Rk : 0 <= k < VFS_MAX_MOUNTS) by (unfold VFS_MAX_MOUNTS in *; lia).
      assert (Ek : zget (zset t k (Mount true (ztake 15 mp) (ztake 15 name) o)) k = Mount true (ztake 15 mp) (ztake 15 name) o)
        by (apply zget_zset_eq; lia).
      split_and!; [done | by rewrite zlen_zset |]. exists k. split_and!; try done; try lia.
      * intros q Q Ne. apply zget_zset_ne; lia.
      * intros q Q U M. specialize (D q ltac:(unfold VFS_MAX_MOUNTS in *; lia)). rewrite U, M, bool_decide_eq_true_2 in D; done.
      * intros L Nf C0. split_and!; try lia; [by rewrite Ek |]. rewrite Ek. cbn [mount_point].
        assert (Et : ztake 15 mp = mp) by (unfold ztake; apply take_ge; unfold zlen in L; lia). rewrite Et.
        destruct mp as [|c [|c2 r]]; [done | left; change (char_at [c] 0) with c in C0; by subst |]. right.
        split; [rewrite !zlen_cons; pose proof (zlen_nonneg r); lia |]. exists []. split; [by rewrite app_nil_r | by left].
    + injection E as <- <-. rewrite zfind_None in F. left. split_and!; [done | done | right]. intros k R.
      specialize (F k ltac:(unfold VFS_MAX_MOUNTS in *; lia)). by apply negb_false_iff in F.
Qed.

End Vfs.

Arguments vfs_fs_ops : clear implicits.
Arguments vfs_mount_t : clear implicits.
Arguments mounts : clear implicits.

(** ** A table with three mounts *)

(** A filesystem of [n] nameless files whose state counts the calls. *)
Definition demo_ops (n : Z) : vfs_fs_ops Z Z :=
  Ops (fun rel w => (w + 1, Some (zlen rel)))
    (Some (fun _ it w => if it <? n then (w + 1, (it, it + 1, Some [48 + it])) else (w + 1, (-1, it, None)))) None None.

Definition free_mount : vfs_mount_t Z Z := Mount false [] [] no_ops.

Definition demo_table : mounts Z Z :=
  let t := [free_mount; free_mount; free_mount; free_mount] in
  let '(t, _) := vfs_mount t [47] [114] (demo_ops 2) in
  let '(t, _) := vfs_mount t [47; 112] [112] (demo_ops 1) in
  let '(t, _) := vfs_mount t [47; 112; 47; 113] [113] (demo_ops 1) in t.

Lemma resolve_longest_prefix_witness :
  resolve demo_table [47; 112; 47; 113; 47; 120] = Some (2, [120]) /\
  resolve demo_table [47; 112; 113] = Some (0, [112; 113]) /\ matches demo_table [47; 112; 47; 113; 47; 120] 2.
Proof.
  assert (Nf : nul_free [47; 112; 47; 113; 47; 120]) by (repeat constructor; lia).
  pose proof (resolve_longest_prefix demo_table [47; 112; 47; 113; 47; 120] Nf eq_refl) as H.
  assert (E : resolve demo_table [47; 112; 47; 113; 47; 120] = Some (2, [120])) by (vm_compute; reflexivity).
  rewrite E in H. split_and!; [done | vm_compute; reflexivity | apply H].
Defined.

Lemma root_listing_witness :
  listing (3 + 5) (vfs_readdir demo_table [SLASH]) 0 0 = (3, [[48]; [49]; [112]], true).
Proof.
  apply (root_listing demo_table 0 [] (fun _ it w => if it <? 2 then (w + 1, (it, it + 1, Some [48 + it])) else (w + 1, (-1, it, None)))
    3 0 3 [[48]; [49]]); [vm_compute; reflexivity | vm_compute; reflexivity | | vm_compute; reflexivity].
  intros it w w' idx it' nm L. unfold MOUNT_PHASE. destruct (it <? 2) eqn:E; zb; intros [= <- <- <- <-]; lia.
Defined.

Lemma vfs_mount_correct_witness :
  exists t', vfs_mount demo_table [47; 114] [114] (demo_ops 0) = (t', 0) /\ matches t' [47; 114] 3.
Proof.
  destruct (vfs_mount demo_table [47; 114] [114] (demo_ops 0)) as [t' rc] eqn:E.
  destruct (vfs_mount_correct demo_table [47; 114] [114] (demo_ops 0) t' rc eq_refl E)
    as [(-> & _) | (-> & _ & k & Rk & Uk & _ & _ & _ & M)].
  - exfalso. assert (T : snd (vfs_mount demo_table [47; 114] [114] (demo_ops 0)) = 0) by (vm_compute; reflexivity). by rewrite E in T.
  - exists t'. split; [done |].
    assert (k = 3) as -> by (unfold VFS_MAX_MOUNTS in Rk; assert (k = 0 \/ k = 1 \/ k = 2 \/ k = 3) as [-> | [-> | [-> | ->]]] by lia; done).
    apply M; [vm_compute; discriminate | repeat constructor; lia | done].
Defined.

(** A mount point of sixteen characters or more is stored shortened: its own path
    goes to the root filesystem, and mounting it again is not refused. *)
Example long_mount_lost :
  let long := [47; 97; 97; 97; 97; 97; 97; 97; 97; 97; 97; 97; 97; 97; 97; 98] in
  let t1 := fst (vfs_mount demo_table long [97] (demo_ops 0)) in
  let free2 := zset t1 1 free_mount in
  option_map fst (resolve t1 (long ++ [47; 120])) = Some 0 /\ snd (vfs_mount free2 long [97] (demo_ops 0)) = 0.
Proof. split; vm_compute; reflexivity. Qed.

End VFS.
