(* ===== verification/Signal.v ===== *)
(** Signals ([kernel/signal.c]).

    The signal state of the tasks, sending to a task and to a process group, the
    choice of the signal to deliver, the delivery frame on the user stack and the
    return from a handler.  User memory is the byte memory of [Memory].  What the
    delivery does with the scheduler is an [outcome]: resume the interrupted
    program, give the processor away (stopped), or exit. *)

From stdpp Require Import base numbers list gmap.
From Stdlib Require Import ZArith Lia.
From S2P Require Import Prelude Memory.

Module SIGNAL.

Definition NSIG : Z := 32.
Definition SIGINT : Z := 2.
Definition SIGQUIT : Z := 3.
Definition SIGHUP : Z := 1.
Definition SIGKILL : Z := 9.
Definition SIGCHLD : Z := 17.
Definition SIGCONT : Z := 18.
Definition SIGSTOP : Z := 19.
Definition SIGTSTP : Z := 20.

Definition SIG_DFL : Z := 0.
Definition SIG_IGN : Z := 1.

Definition TASK_MAX : Z := 32.

Definition STATE_UNUSED : Z := 0.
Definition STATE_READY : Z := 1.
Definition STATE_DEAD : Z := 4.
Definition STATE_ZOMBIE : Z := 6.
Definition STATE_STOPPED : Z := 7.

(** The fields of [struct task] that signals use. *)
Record task := Task {
  id : Z;
  pgid : Z;
  state : Z;
  is_user : bool;
  sig_pending : Z;
  sig_mask : Z;
  sig_tramp : Z;
  sig_handlers : list Z
}.

#[global] Instance task_inhabited : Inhabited task := populate (Task 0 0 0 false 0 0 0 []).

(** [g_tasks] *)
Definition tasks : Type := list task.

(** [struct registers] *)
Record regs := Regs {
  ds : Z; edi : Z; esi : Z; ebp : Z; esp_orig : Z; ebx : Z; edx : Z; ecx : Z; eax : Z;
  int_no : Z; err_code : Z; eip : Z; cs : Z; eflags : Z; useresp : Z; ss : Z
}.

Definition bit (s : Z) : Z := u32 (Z.shiftl 1 s).

Definition clear (x b : Z) : Z := Z.land x (u32 (Z.lnot b)).

Inductive action := ACT_TERM | ACT_IGN | ACT_STOP | ACT_CONT.

Definition default_action (sig : Z) : action :=
  if sig =? SIGCHLD then ACT_IGN
  else if (sig =? SIGSTOP) || (sig =? SIGTSTP) then ACT_STOP
  else if sig =? SIGCONT then ACT_CONT
  else ACT_TERM.

Definition set_pending (t : task) (p : Z) : task :=
  Task (id t) (pgid t) (state t) (is_user t) p (sig_mask t) (sig_tramp t) (sig_handlers t).

Definition set_mask (t : task) (m : Z) : task :=
  Task (id t) (pgid t) (state t) (is_user t) (sig_pending t) m (sig_tramp t) (sig_handlers t).

Definition set_state (t : task) (s : Z) : task :=
  Task (id t) (pgid t) s (is_user t) (sig_pending t) (sig_mask t) (sig_tramp t) (sig_handlers t).

Definition set_handlers (t : task) (h : list Z) (tr : Z) : task :=
  Task (id t) (pgid t) (state t) (is_user t) (sig_pending t) (sig_mask t) tr h.

Definition signal_init_task (t : task) : task :=
  Task (id t) (pgid t) (state t) (is_user t) 0 0 0
    (zfor (Z.to_nat NSIG) 0 (fun i h => zset h i SIG_DFL) (sig_handlers t)).

Definition signal_reset_on_exec (t : task) : task :=
  set_handlers t
    (zfor (Z.to_nat NSIG) 0 (fun i h => if negb (zget h i =? SIG_IGN) then zset h i SIG_DFL else h) (sig_handlers t)) 0.

(** On the current task; [None] is the pointer -1. *)
Definition signal_install (t : task) (sig handler tramp : Z) : task * option Z :=
  if (sig <? 1) || (NSIG <=? sig) then (t, None) else
  if (sig =? SIGKILL) || (sig =? SIGSTOP) then (t, None) else
  let prev := zget (sig_handlers t) sig in
  (set_handlers t (zset (sig_handlers t) sig handler) (if negb (tramp =? 0) then tramp else sig_tramp t), Some prev).

(** The change [signal_send] makes to the task found. *)
Definition queue_signal (sig : Z) (t : task) : task :=
  let t := if sig =? SIGCONT then
             let t := set_pending t (clear (sig_pending t) (Z.lor (bit SIGSTOP) (bit SIGTSTP))) in
             if state t =? STATE_STOPPED then set_state t STATE_READY else t
           else t in
  let t := if (sig =? SIGSTOP) || (sig =? SIGTSTP) then set_pending t (clear (sig_pending t) (bit SIGCONT)) else t in
  set_pending t (Z.lor (sig_pending t) (bit sig)).

(** [task_at] is null for an UNUSED slot. *)
Definition used (ts : tasks) (i : Z) : bool := negb (state (zget ts i) =? STATE_UNUSED).

Definition signal_send (target_pid sig : Z) (ts : tasks) : tasks * Z :=
  if (sig <? 1) || (NSIG <=? sig) then (ts, -1) else
  if target_pid =? 0 then (ts, -1) else
  match zfind (Z.to_nat TASK_MAX) 0 (fun i => used ts i && (id (zget ts i) =? target_pid)) with
  | None => (ts, -1)
  | Some i => (zset ts i (queue_signal sig (zget ts i)), 0)
  end.

(** Task [i] belongs to the group and can still run. *)
Definition in_group (pg : Z) (t : task) : bool :=
  (pgid t =? pg) && negb ((state t =? STATE_DEAD) || (state t =? STATE_ZOMBIE)).

Definition signal_send_pgrp (pg sig : Z) (ts : tasks) : tasks * Z :=
  if (sig <? 1) || (NSIG <=? sig) then (ts, -1) else
  if pg =? 0 then (ts, -1) else
  let '(ts, delivered) :=
    zfor (Z.to_nat TASK_MAX) 0 (fun i '(ts, delivered) =>
      if negb (used ts i) then (ts, delivered) else
      if negb (in_group pg (zget ts i)) then (ts, delivered) else
      let '(ts, rc) := signal_send (id (zget ts i)) sig ts in
      (ts, if rc =? 0 then delivered + 1 else delivered)) (ts, 0) in
  (ts, if 0 <? delivered then 0 else -1).

Definition pick_pending (t : task) : Z :=
  let deliverable := clear (sig_pending t) (sig_mask t) in
  if deliverable =? 0 then 0 else
  match zfind (Z.to_nat (NSIG - 1)) 1 (fun s => negb (Z.land deliverable (bit s) =? 0)) with
  | Some s => s
  | None => 0
  end.

(** ** The user stack *)

Definition st32 (m : memory) (a v : Z) : memory :=
  blit m a [u8 v; u8 (Z.shiftr v 8); u8 (Z.shiftr v 16); u8 (Z.shiftr v 24)].

Definition ld32 (m : memory) (a : Z) : Z :=
  foldr (fun b acc => b + 256 * acc) 0 (load m a 4).

Definition words (r : regs) : list Z :=
  [ds r; edi r; esi r; ebp r; esp_orig r; ebx r; edx r; ecx r; eax r; int_no r; err_code r; eip r; cs r; eflags r;
   useresp r; ss r].

Definition of_words (w : list Z) : regs :=
  Regs (zget w 0) (zget w 1) (zget w 2) (zget w 3) (zget w 4) (zget w 5) (zget w 6) (zget w 7) (zget w 8) (zget w 9)
    (zget w 10) (zget w 11) (zget w 12) (zget w 13) (zget w 14) (zget w 15).

Fixpoint st_words (m : memory) (a : Z) (w : list Z) : memory :=
  match w with [] => m | x :: w' => st_words (st32 m a x) (a + 4) w' end.

Fixpoint ld_words (m : memory) (a : Z) (n : nat) : list Z :=
  match n with O => [] | S n' => ld32 m a :: ld_words m (a + 4) n' end.

Definition REGS_SIZE : Z := 64.

Inductive outcome := Resume | Resched | Exit (code : Z).

(** [cur] is the slot of the current task, if any. *)
Definition signal_check_and_deliver (cur : option Z) (ts : tasks) (m : memory) (r : regs)
    : tasks * memory * regs * outcome :=
  if negb (Z.land (cs r) 3 =? 3) then (ts, m, r, Resume) else
  match cur with
  | None => (ts, m, r, Resume)
  | Some k =>
      let t := zget ts k in
      if negb (is_user t) then (ts, m, r, Resume) else
      let sig := pick_pending t in
      if sig =? 0 then (ts, m, r, Resume) else
      let t := set_pending t (clear (sig_pending t) (bit sig)) in
      let ts := zset ts k t in
      let h := zget (sig_handlers t) sig in
      if h =? SIG_IGN then (ts, m, r, Resume) else
      if h =? SIG_DFL then
        match default_action sig with
        | ACT_IGN | ACT_CONT => (ts, m, r, Resume)
        | ACT_STOP => (zset ts k (set_state t STATE_STOPPED), m, r, Resched)
        | ACT_TERM => (ts, m, r, Exit (128 + sig))
        end
      else if sig_tramp t =? 0 then (ts, m, r, Resume) else
      let user_esp := u32 (useresp r - REGS_SIZE) in
      let m := st_words m user_esp (words r) in
      let user_esp := u32 (user_esp - 4) in
      let m := st32 m user_esp sig in
      let user_esp := u32 (user_esp - 4) in
      let m := st32 m user_esp (sig_tramp t) in
      let r := Regs (ds r) (edi r) (esi r) (ebp r) (esp_orig r) (ebx r) (edx r) (ecx r) (eax r) (int_no r) (err_code r)
                 h (cs r) (eflags r) user_esp (ss r) in
      let ts := zset ts k (set_mask t (Z.lor (sig_mask t) (bit sig))) in
      (ts, m, r, Resume)
  end.

Definition signal_sigreturn (k : Z) (ts : tasks) (m : memory) (r : regs) : tasks * regs :=
  let user_esp := useresp r in
  let delivered_sig := s32 (ld32 m (u32 (user_esp - 4))) in
  let r := of_words (ld_words m user_esp 16) in
  let ts := if (0 <? delivered_sig) && (delivered_sig <? NSIG) then
              let t := zget ts k in zset ts k (set_mask t (clear (sig_mask t) (bit delivered_sig)))
            else ts in
  (ts, r).

(** ** Bits *)

Definition word (x : Z) : Prop := 0 <= x < 4294967296.

Lemma bit_testbit s k : 0 <= s < 32 -> 0 <= k -> Z.testbit (bit s) k = (s =? k).
Proof.
  intros R K. unfold bit. rewrite Z.shiftl_1_l, u32_small.
  - rewrite Z.pow2_bits_eqb by lia. done.
  - split; [apply Z.pow_nonneg; lia |]. change 4294967296 with (2 ^ 32). apply Z.pow_lt_mono_r; lia.
Qed.

Lemma bit_word s : word (bit s).
Proof. apply u32_range. Qed.

Lemma clear_testbit x b k : word x -> word b -> 0 <= k -> Z.testbit (clear x b) k = Z.testbit x k && negb (Z.testbit b k).
Proof.
  intros X B K. unfold clear. rewrite Z.land_spec. destruct (decide (k < 32)) as [L | G].
  - unfold u32. change 4294967296 with (2 ^ 32). by rewrite Z.mod_pow2_bits_low, Z.lnot_spec by lia.
  - unfold word in *. change 4294967296 with (2 ^ 32) in *. by rewrite (bits_above 32 x k) by lia.
Qed.

Lemma clear_word x b : word x -> word (clear x b).
Proof. intros X. unfold clear. change 4294967296 with (2 ^ 32) in *. by apply (land_bound 32). Qed.

Lemma lor_word x b : word x -> word b -> word (Z.lor x b).
Proof. intros X B. by apply (lor_bound 32). Qed.

Lemma word_ext x y : word x -> word y -> (forall k, 0 <= k < 32 -> Z.testbit x k = Z.testbit y k) -> x = y.
Proof.
  intros X Y E. apply Z.bits_inj'. intros k K. destruct (decide (k < 32)); [apply E; lia |].
  unfold word in *. change 4294967296 with (2 ^ 32) in *. by rewrite !(bits_above 32) by lia.
Qed.

(** Signal [s] is pending and not masked. *)
Definition deliverable (t : task) (s : Z) : bool := Z.testbit (sig_pending t) s && negb (Z.testbit (sig_mask t) s).

Definition bits_ok (t : task) : Prop := word (sig_pending t) /\ word (sig_mask t).

Lemma land_bit x s : word x -> 0 <= s < 32 -> negb (Z.land x (bit s) =? 0) = Z.testbit x s.
Proof.
  intros X R. destruct (Z.testbit x s) eqn:T.
  - apply negb_true_iff, Z.eqb_neq. intros Z0. apply (f_equal (fun y => Z.testbit y s)) in Z0.
    rewrite Z.land_spec, T, bit_testbit, Z.eqb_refl, Z.bits_0 in Z0 by lia. done.
  - apply negb_false_iff, Z.eqb_eq. apply Z.bits_inj'. intros k K. rewrite Z.land_spec, bit_testbit, Z.bits_0 by lia.
    destruct (s =? k) eqn:E; zb; [subst; by rewrite T | apply andb_false_r].
Qed.

(** The lowest deliverable signal, 0 when there is none. *)
Lemma pick_pending_spec t : bits_ok t ->
  (pick_pending t = 0 /\ forall s, 1 <= s < NSIG -> deliverable t s = false) \/
  (1 <= pick_pending t < NSIG /\ deliverable t (pick_pending t) = true /\
   forall s, 1 <= s < pick_pending t -> deliverable t s = false).
Proof.
  intros (P & M). unfold pick_pending. set (d := clear (sig_pending t) (sig_mask t)).
  assert (D : forall s, 0 <= s < 32 -> Z.testbit d s = deliverable t s) by (intros; by apply clear_testbit; try lia).
  assert (Wd : word d) by by apply clear_word.
  destruct (d =? 0) eqn:E0; zb.
  - left. split; [done |]. intros s R. rewrite <- D, E0 by (unfold NSIG in *; lia). apply Z.bits_0.
  - destruct (zfind _ _ _) as [s|] eqn:E.
    + right. destruct (zfind_Some _ _ _ _ E) as (R & T & F). change (Z.of_nat (Z.to_nat (NSIG - 1))) with 31 in R.
      rewrite land_bit in T by (done || lia). split_and!; [lia | unfold NSIG; lia | by rewrite <- D by lia |].
      intros q Q. rewrite <- D by lia. rewrite <- land_bit by (done || lia). by apply F.
    + left. split; [done |]. intros s R. rewrite zfind_None in E. rewrite <- D, <- land_bit by (unfold NSIG in *; done || lia).
      apply E. change (Z.of_nat (Z.to_nat (NSIG - 1))) with 31. unfold NSIG in R. lia.
Qed.

(** ** The frame *)

Lemma ld32_blit m a v : word v -> ld32 (st32 m a v) a = v.
Proof.
  intros R. unfold ld32, st32.
  pose proof (load_blit m a [u8 v; u8 (Z.shiftr v 8); u8 (Z.shiftr v 16); u8 (Z.shiftr v 24)]) as E.
  cbn [length] in E. rewrite E. cbn [foldr]. unfold word, u8 in *. rewrite !Z.shiftr_div_pow2 by lia.
  change (2 ^ 8) with 256. change (2 ^ 16) with 65536. change (2 ^ 24) with 16777216. Z.div_mod_to_equations. lia.
Qed.

Lemma ld32_ext m m' a : (forall k, a <= k < a + 4 -> ld m k = ld m' k) -> ld32 m a = ld32 m' a.
Proof. intros E. unfold ld32. by rewrite (load_ext m m'). Qed.

Lemma st32_out m a v k : k < a \/ a + 4 <= k -> ld (st32 m a v) k = ld m k.
Proof. intros R. apply ld_blit_out. exact R. Qed.

Lemma st_words_out m a w k : k < a \/ a + 4 * zlen w <= k -> ld (st_words m a w) k = ld m k.
Proof.
  revert m a. induction w as [|x w IH]; intros m a R; cbn [st_words]; [done |]. rewrite zlen_cons in R.
  pose proof (zlen_nonneg w). rewrite IH by lia. apply st32_out. lia.
Qed.

Lemma ld_words_ext m m' a n : (forall k, a <= k < a + 4 * Z.of_nat n -> ld m k = ld m' k) -> ld_words m a n = ld_words m' a n.
Proof.
  revert a. induction n as [|n IH]; intros a E; cbn [ld_words]; [done |].
  f_equal; [apply ld32_ext; intros; apply E; lia | apply IH; intros; apply E; lia].
Qed.

Lemma ld_st_words m a w : Forall word w -> ld_words (st_words m a w) a (length w) = w.
Proof.
  revert m a. induction w as [|x w IH]; intros m a F; cbn [st_words ld_words length]; [done |].
  apply Forall_cons in F as (Fx & F). f_equal; [| by apply IH].
  rewrite <- (ld32_blit m a x Fx) at 2. apply ld32_ext. intros k R. apply st_words_out. lia.
Qed.

Definition regs_ok (r : regs) : Prop := Forall word (words r).

Lemma of_words_words r : of_words (words r) = r.
Proof. by destruct r. Qed.

(** ** Delivery and return *)

(** C15. A handler returns to where the program was.  When the lowest deliverable
    signal of a user task has a handler and a trampoline, the delivery enters the
    handler with the trampoline as return address and the signal number as its
    argument, stores nothing outside the 72 bytes below the old stack pointer, and
    masks the signal.  If the handler, whatever else it does, leaves the saved
    frame and the signal number in place and returns through the trampoline, then
    [signal_sigreturn] gives back every register of the interrupted program and
    unmasks exactly that signal. *)
Theorem handler_round_trip k ts m r :
  0 <= k < zlen ts -> bits_ok (zget ts k) -> is_user (zget ts k) = true -> Z.land (cs r) 3 = 3 ->
  regs_ok r -> 72 <= useresp r ->
  let t := zget ts k in let sig := pick_pending t in let h := zget (sig_handlers t) sig in
  sig <> 0 -> h <> SIG_DFL -> h <> SIG_IGN -> word h -> sig_tramp t <> 0 -> word (sig_tramp t) ->
  match signal_check_and_deliver (Some k) ts m r with
  | (ts', m', r', o) =>
      o = Resume /\ eip r' = h /\ useresp r' = useresp r - 72 /\
      ld32 m' (useresp r') = sig_tramp t /\ ld32 m' (useresp r' + 4) = sig /\
      (forall a, a < useresp r - 72 \/ useresp r <= a -> ld m' a = ld m a) /\
      sig_mask (zget ts' k) = Z.lor (sig_mask t) (bit sig) /\
      sig_pending (zget ts' k) = clear (sig_pending t) (bit sig) /\
      forall ts2 m2 r2, 0 <= k < zlen ts2 -> bits_ok (zget ts2 k) ->
        (forall a, useresp r - 68 <= a < useresp r -> ld m2 a = ld m' a) -> useresp r2 = useresp r' + 8 ->
        match signal_sigreturn k ts2 m2 r2 with
        | (ts3, r3) =>
            r3 = r /\ sig_mask (zget ts3 k) = clear (sig_mask (zget ts2 k)) (bit sig) /\
            (sig_mask (zget ts2 k) = Z.lor (sig_mask t) (bit sig) -> sig_mask (zget ts3 k) = sig_mask t)
        end
  end.
Proof.
  intros Rk Bo U C3 Ro Sp t sig h S0 H0 H1 Wh T0 Wt.
  destruct (pick_pending_spec t Bo) as [(E & _) | (Rs & Dl & _)]; [done |]. fold sig in Rs, Dl. unfold NSIG in Rs.
  assert (Wsp : word (useresp r)) by (unfold regs_ok, words in Ro; rewrite !Forall_cons in Ro; tauto).
  unfold word in Wsp.
  unfold signal_check_and_deliver. rewrite C3. cbn [Z.eqb negb Pos.eqb]. fold t. change (is_user t = true) in U. rewrite U. cbn [negb]. fold sig.
  rewrite (proj2 (Z.eqb_neq sig 0)) by done. cbn [sig_handlers set_pending sig_tramp sig_mask]. fold h.
  rewrite (proj2 (Z.eqb_neq h _)), (proj2 (Z.eqb_neq h SIG_DFL)), (proj2 (Z.eqb_neq (sig_tramp t) 0)) by done.
  unfold REGS_SIZE. rewrite (u32_small (useresp r - 64)), !u32_small by (rewrite ?u32_small; lia).
  set (a0 := useresp r - 64). set (m1 := st_words m a0 (words r)). set (m2 := st32 m1 (a0 - 4) sig).
  set (m3 := st32 m2 (a0 - 4 - 4) (sig_tramp t)). cbn [eip useresp].
  set (t1 := set_pending t (clear (sig_pending t) (bit sig))). set (t2 := set_mask t1 (Z.lor (sig_mask t) (bit sig))).
  assert (Ws : word sig) by (unfold word; lia).
  assert (L2 : ld32 m3 (a0 - 4) = sig).
  { rewrite <- (ld32_blit m1 (a0 - 4) sig Ws). apply ld32_ext. intros q Q. apply st32_out. lia. }
  assert (L3 : ld_words m3 a0 16 = words r).
  { rewrite <- (ld_st_words m a0 (words r) Ro) at 1. apply ld_words_ext. intros q Q. unfold m3, m2.
    rewrite !st32_out by lia. done. }
  assert (G : zget (zset (zset ts k t1) k t2) k = t2) by (apply zget_zset_eq; by rewrite zlen_zset).
  rewrite G. split_and!; try done.
  - unfold a0. lia.
  - by apply ld32_blit.
  - replace (a0 - 4 - 4 + 4) with (a0 - 4) by lia. exact L2.
  - intros q Q. unfold m3, m2, m1. rewrite !st32_out by lia. apply st_words_out.
    change (zlen (words r)) with 16. lia.
  - intros ts2 mm r2 Rk2 Bo2 Fr E2. unfold signal_sigreturn.
    assert (Eu : useresp r2 = a0) by lia. rewrite Eu, u32_small by lia.
    assert (Es : ld32 mm (a0 - 4) = sig) by (rewrite <- L2; apply ld32_ext; intros; apply Fr; lia).
    rewrite Es, s32_small by lia. rewrite (proj2 (Z.ltb_lt 0 sig)), (proj2 (Z.ltb_lt sig NSIG)) by (unfold NSIG; lia).
    cbn [andb]. rewrite zget_zset_eq by done. cbn [sig_mask set_mask]. split_and!; [| done |].
    + rewrite <- (of_words_words r), <- L3. f_equal. apply ld_words_ext. intros; apply Fr; lia.
    + intros ->. destruct Bo as (_ & Wm). apply word_ext; [apply clear_word, lor_word; [done | apply bit_word] | done |].
      intros q Q. rewrite clear_testbit, Z.lor_spec, bit_testbit by (done || lia || apply bit_word || apply lor_word; done || apply bit_word).
      destruct (sig =? q) eqn:Eq; cbn [negb]; [| by rewrite orb_false_r, andb_true_r].
      zb. subst q. rewrite andb_false_r. unfold deliverable in Dl. apply andb_true_iff in Dl as (_ & Dl). by apply negb_true_iff in Dl.
Qed.

(** ** Signals that cannot be caught *)

(** The signal state of a task through its life. *)
Inductive reach : task -> Prop :=
| R_create t : zlen (sig_handlers t) = NSIG -> reach (signal_init_task t)
| R_install t sig h tr : reach t -> reach (fst (signal_install t sig h tr))
| R_exec t : reach t -> reach (signal_reset_on_exec t)
| R_queue t sig : reach t -> 1 <= sig < NSIG -> reach (queue_signal sig t)
| R_deliver t k ts m r : reach t -> 0 <= k < zlen ts -> zget ts k = t ->
    reach (zget (fst (fst (fst (signal_check_and_deliver (Some k) ts m r)))) k)
| R_sigreturn t k ts m r : reach t -> 0 <= k < zlen ts -> zget ts k = t ->
    reach (zget (fst (signal_sigreturn k ts m r)) k)
| R_fork t i g : reach t ->
    reach (Task i g STATE_READY (is_user t) 0 (sig_mask t) (sig_tramp t) (sig_handlers t))
| R_sched t s : reach t -> reach (set_state t s).

Definition uncatchable (s : Z) : Prop := s = SIGKILL \/ s = SIGSTOP.

Record sig_ok (t : task) : Prop := SigOk {
  sk_bits : bits_ok t;
  sk_len : zlen (sig_handlers t) = NSIG;
  sk_dfl s : uncatchable s -> zget (sig_handlers t) s = SIG_DFL;
  sk_mask s : uncatchable s -> Z.testbit (sig_mask t) s = false
}.

Lemma uncatchable_range s : uncatchable s -> 1 <= s < 32.
Proof. intros [-> | ->]; unfold SIGKILL, SIGSTOP; lia. Qed.

Lemma handlers_fill (f : Z -> list Z -> list Z) h :
  zlen h = NSIG -> (forall i g, zlen g = NSIG -> 0 <= i < NSIG -> zlen (f i g) = NSIG /\
    (forall s, 0 <= s -> zget (f i g) s = zget g s \/ zget (f i g) s = SIG_DFL)) ->
  (forall i g, zlen g = NSIG -> 0 <= i < NSIG -> zget g i <> SIG_IGN -> zget (f i g) i = SIG_DFL) ->
  zlen (zfor (Z.to_nat NSIG) 0 f h) = NSIG /\
  forall s, 0 <= s -> zget (zfor (Z.to_nat NSIG) 0 f h) s = zget h s \/ zget (zfor (Z.to_nat NSIG) 0 f h) s = SIG_DFL.
Proof.
  intros L F _. apply (zfor_ind (fun _ g => zlen g = NSIG /\ forall s, 0 <= s -> zget g s = zget h s \/ zget g s = SIG_DFL)).
  - split; [done |]. intros s _. by left.
  - intros i g R (Lg & G). change (0 + Z.of_nat (Z.to_nat NSIG)) with NSIG in R. destruct (F i g Lg R) as (L' & Q). split; [done |].
    intros s Rs. destruct (Q s Rs) as [-> | ->]; [by apply G | by right].
Qed.

Lemma init_handlers h : zlen h = NSIG ->
  zlen (zfor (Z.to_nat NSIG) 0 (fun i h => zset h i SIG_DFL) h) = NSIG /\
  forall s, 0 <= s < NSIG -> zget (zfor (Z.to_nat NSIG) 0 (fun i h => zset h i SIG_DFL) h) s = SIG_DFL.
Proof.
  intros L. pose (P := fun n g => zlen g = NSIG /\ forall s, 0 <= s < n -> zget g s = SIG_DFL).
  apply (zfor_ind P (Z.to_nat NSIG) 0 (fun i h => zset h i SIG_DFL) h).
  - split; [done | intros; lia].
  - intros k g R (Lg & G). split; [by rewrite zlen_zset |]. intros s Rs.
    change (0 + Z.of_nat (Z.to_nat NSIG)) with NSIG in R. destruct (decide (s = k)) as [-> | Ne]; [apply zget_zset_eq; lia |].
    rewrite zget_zset_ne by lia. apply G. lia.
Qed.

Lemma queue_sig_ok t sig : 1 <= sig < NSIG -> sig_ok t -> sig_ok (queue_signal sig t).
Proof.
  intros R [[P M] L D K]. unfold queue_signal.
  assert (W : forall p, word p -> sig_ok (set_pending t p)) by (intros; split; [by split | done..]).
  assert (W2 : forall p, word p -> sig_ok (set_pending (set_state t STATE_READY) p)) by (intros; split; [by split | done..]).
  repeat cases; cbn; try (apply W, lor_word; [repeat apply clear_word; done | apply bit_word]);
    try (apply W2, lor_word; [repeat apply clear_word; done | apply bit_word]).
Qed.

Lemma deliver_sig_ok k ts m r : 0 <= k < zlen ts -> sig_ok (zget ts k) ->
  sig_ok (zget (fst (fst (fst (signal_check_and_deliver (Some k) ts m r)))) k).
Proof.
  intros Rk O. pose proof O as [[P M] L D K]. unfold signal_check_and_deliver. cases; [done |]. cases; [done |].
  destruct (pick_pending (zget ts k) =? 0) eqn:E0; zb; [done |].
  destruct (pick_pending_spec (zget ts k) (conj P M)) as [(? & _) | (Rs & _)]; [done |].
  set (sig := pick_pending (zget ts k)) in *. set (t1 := set_pending (zget ts k) (clear (sig_pending (zget ts k)) (bit sig))).
  assert (O1 : sig_ok t1) by (split; [split; [by apply clear_word | done] | done..]).
  assert (Z1 : zget (zset ts k t1) k = t1) by (by apply zget_zset_eq).
  cbn [sig_handlers set_pending sig_tramp sig_mask]. cases; [cbn [fst]; by rewrite Z1 |]. cases.
  - cases; cbn [fst]; rewrite ?Z1; try done. rewrite zget_zset_eq by (by rewrite zlen_zset). by split; apply O1.
  - cases; [cbn [fst]; by rewrite Z1 |]. cbn [fst]. rewrite zget_zset_eq by (by rewrite zlen_zset). split; [| done | done |].
    + split; [by apply clear_word | apply lor_word; [done | apply bit_word]].
    + cbn [sig_mask set_mask set_pending t1]. intros s U. pose proof (uncatchable_range s U).
      rewrite Z.lor_spec, K, bit_testbit by (done || unfold NSIG in Rs; lia). cbn [orb]. apply Z.eqb_neq. intros <-.
      rewrite D in * by done. done.
Qed.

Lemma reach_sig_ok t : reach t -> sig_ok t.
Proof.
  induction 1 as [t L | t sig h tr _ O | t _ O | t sig _ O R | t k ts m r _ O Rk <- | t k ts m r _ O Rk <- | t i g _ O | t s _ O].
  - destruct (init_handlers _ L) as (L' & D). split; cbn; [split; unfold word; cbn; lia | done | | intros; apply Z.bits_0].
    intros s U. apply D. pose proof (uncatchable_range s U). unfold NSIG. lia.
  - unfold signal_install. cases; [done |]. cases; [done |]. cbn [fst]. destruct O as [B L D K].
    split; [done | cbn; by rewrite zlen_zset | | done]. cbn. intros s U. pose proof (uncatchable_range s U).
    rewrite zget_zset_ne; [by apply D | lia | lia |]. destruct U; subst; lia.
  - destruct O as [B L D K]. unfold signal_reset_on_exec.
    assert (G : zlen (zfor (Z.to_nat NSIG) 0 (fun i h => if negb (zget h i =? SIG_IGN) then zset h i SIG_DFL else h) (sig_handlers t)) = NSIG /\
      forall s, 0 <= s -> zget (zfor (Z.to_nat NSIG) 0 (fun i h => if negb (zget h i =? SIG_IGN) then zset h i SIG_DFL else h) (sig_handlers t)) s =
        zget (sig_handlers t) s \/ zget (zfor (Z.to_nat NSIG) 0 (fun i h => if negb (zget h i =? SIG_IGN) then zset h i SIG_DFL else h) (sig_handlers t)) s = SIG_DFL).
    { apply handlers_fill; [done | |].
      - intros i g Lg R. cases; [| by split; [| intros; left]]. split; [by rewrite zlen_zset |]. intros s Rs.
        destruct (decide (s = i)) as [-> | Ne]; [right; apply zget_zset_eq; lia | left; apply zget_zset_ne; lia].
      - intros i g Lg R Ne. rewrite (proj2 (Z.eqb_neq _ _)) by done. cbn [negb]. apply zget_zset_eq. lia. }
    destruct G as (G1 & G2). split; [done | done | | done]. cbn [sig_handlers set_handlers]. intros s U.
    destruct (G2 s) as [-> | ->]; [pose proof (uncatchable_range s U); lia | by apply D | done].
  - by apply queue_sig_ok.
  - by apply deliver_sig_ok.
  - unfold signal_sigreturn. cases; [| done]. cbn [fst]. rewrite zget_zset_eq by done. destruct O as [[P M] L D K].

    split; [split; [done | by apply clear_word] | done | done |]. cbn. intros s U. pose proof (uncatchable_range s U).
    rewrite clear_testbit, K by (done || lia || apply bit_word). done.
  - destruct O as [[P M] L D K]. split; [split; [unfold word; cbn; lia | done] | done..].
  - destruct O as [B L D K]. by split.
Qed.

(** SIGKILL cannot be caught, ignored or masked.  Whatever a task has installed
    and whatever was delivered, returned from, inherited or kept across exec, a
    pending SIGKILL is deliverable: the next delivery to the task takes it and makes
    the task exit with 137, or takes one of the signals 1 to 8 and leaves it pending. *)
Theorem sigkill_certain t k ts m r :
  reach t -> 0 <= k < zlen ts -> zget ts k = t -> is_user t = true -> Z.land (cs r) 3 = 3 ->
  Z.testbit (sig_pending t) SIGKILL = true ->
  match signal_check_and_deliver (Some k) ts m r with
  | (ts', m', r', o) =>
      (pick_pending t = SIGKILL /\ o = Exit 137) \/
      (1 <= pick_pending t < SIGKILL /\ Z.testbit (sig_pending (zget ts' k)) SIGKILL = true /\
       Z.testbit (sig_pending (zget ts' k)) (pick_pending t) = false)
  end.
Proof.
  intros Re Rk <- U C3 B. destruct (reach_sig_ok _ Re) as [[P M] L D K]. set (t := zget ts k) in *.
  assert (Dk : deliverable t SIGKILL = true) by (unfold deliverable; rewrite B, K; [done | by left]).
  destruct (pick_pending_spec t (conj P M)) as [(_ & F) | (Rs & Ds & F)].
  { rewrite F in Dk; [done | unfold SIGKILL, NSIG; lia]. }
  set (sig := pick_pending t) in *.
  assert (Le : sig <= SIGKILL).
  { destruct (decide (sig <= SIGKILL)); [done |]. rewrite F in Dk; [done | unfold SIGKILL in *; lia]. }
  assert (Cl : Z.testbit (clear (sig_pending t) (bit sig)) sig = false).
  { rewrite clear_testbit, bit_testbit, Z.eqb_refl by (done || apply bit_word || (unfold NSIG in *; lia)). apply andb_false_r. }
  unfold signal_check_and_deliver. rewrite C3. cbn [Z.eqb negb Pos.eqb]. fold t. rewrite U. cbn [negb]. fold sig.
  rewrite (proj2 (Z.eqb_neq sig 0)) by lia. cbn [sig_handlers set_pending sig_tramp sig_mask].
  destruct (decide (sig = SIGKILL)) as [Ek | Ne].
  - rewrite Ek, D by (by left). cbn. by left.
  - assert (Ck : Z.testbit (clear (sig_pending t) (bit sig)) SIGKILL = true).
    { rewrite clear_testbit, bit_testbit, B by (done || apply bit_word || (unfold NSIG, SIGKILL in *; lia)).
      by rewrite (proj2 (Z.eqb_neq sig SIGKILL)) by done. }
    assert (Z1 : forall t1, zget (zset ts k t1) k = t1) by (intros; by apply zget_zset_eq).
    assert (Z2 : forall t1 t2, zget (zset (zset ts k t1) k t2) k = t2) by (intros; apply zget_zset_eq; by rewrite zlen_zset).
    assert (Lt : 1 <= sig < SIGKILL) by lia.
    destruct (_ =? SIG_IGN); [| destruct (_ =? SIG_DFL); [destruct (default_action sig) | destruct (_ =? 0)]]; right; rewrite ?Z1, ?Z2; cbn [sig_pending set_pending set_mask set_state]; (split; [exact Lt | by split]).
Qed.

(** ** Sending *)

(** Identifiers of the used slots are distinct, and the task with identifier 0
    ([kmain]) belongs to no group. *)
Definition ids_ok (ts : tasks) : Prop :=
  zlen ts = TASK_MAX /\
  (forall i, 0 <= i < TASK_MAX -> used ts i = true -> id (zget ts i) = 0 -> pgid (zget ts i) = 0) /\
  forall i j, 0 <= i < TASK_MAX -> 0 <= j < TASK_MAX -> used ts i = true -> used ts j = true ->
    id (zget ts i) = id (zget ts j) -> i = j.

Lemma queue_id sig t : id (queue_signal sig t) = id t /\ pgid (queue_signal sig t) = pgid t.
Proof. unfold queue_signal. by repeat cases. Qed.

Lemma queue_used sig t : (state (queue_signal sig t) =? STATE_UNUSED) = (state t =? STATE_UNUSED).
Proof.
  unfold queue_signal. destruct (sig =? SIGCONT); [| by destruct (_ || _)].
  destruct (_ || _); cbn [state set_pending]; (destruct (state t =? STATE_STOPPED) eqn:E; [| done]); zb; cbn; by rewrite E.
Qed.

(** Signal [s] is cancelled by [sig]: stops by SIGCONT, SIGCONT by stops. *)
Definition cancels (sig s : Z) : bool :=
  if sig =? SIGCONT then (s =? SIGSTOP) || (s =? SIGTSTP)
  else ((sig =? SIGSTOP) || (sig =? SIGTSTP)) && (s =? SIGCONT).

Lemma queue_bits sig t s : bits_ok t -> 1 <= sig < NSIG -> 0 <= s < NSIG ->
  Z.testbit (sig_pending (queue_signal sig t)) s = (s =? sig) || (Z.testbit (sig_pending t) s && negb (cancels sig s)).
Proof.
  intros (P & M) R Rs. unfold NSIG in *. unfold queue_signal, cancels.
  assert (B : forall x, word x -> Z.testbit (Z.lor x (bit sig)) s = (s =? sig) || Z.testbit x s).
  { intros x X. rewrite Z.lor_spec, bit_testbit by lia. rewrite orb_comm. f_equal. apply Z.eqb_sym. }
  assert (W : forall a, word (clear (sig_pending t) a)) by (intros; by apply clear_word).
  destruct (sig =? SIGCONT) eqn:E1; zb.
  - subst sig. change ((SIGCONT =? SIGSTOP) || (SIGCONT =? SIGTSTP)) with false. cbv iota.
    assert (Ep : forall t', sig_pending t' = clear (sig_pending t) (Z.lor (bit SIGSTOP) (bit SIGTSTP)) ->
      Z.testbit (Z.lor (sig_pending t') (bit SIGCONT)) s = (s =? SIGCONT) || (Z.testbit (sig_pending t) s && negb ((s =? SIGSTOP) || (s =? SIGTSTP)))).
    { intros t' ->. rewrite B by done. f_equal. rewrite clear_testbit, Z.lor_spec, !bit_testbit by
        (done || lia || (unfold SIGSTOP, SIGTSTP; lia) || (apply lor_word; apply bit_word)).
      by rewrite (Z.eqb_sym SIGSTOP), (Z.eqb_sym SIGTSTP). }
    cases; by apply Ep.
  - destruct ((sig =? SIGSTOP) || (sig =? SIGTSTP)) eqn:E2; cbn [sig_pending set_pending andb].
    + rewrite B by done. f_equal. rewrite clear_testbit, bit_testbit by (done || lia || (unfold SIGCONT; lia) || apply bit_word).
      by rewrite (Z.eqb_sym SIGCONT).
    + rewrite B by done. by rewrite andb_true_r.
Qed.

Lemma send_self ts i sig : ids_ok ts -> 0 <= i < TASK_MAX -> used ts i = true -> pgid (zget ts i) <> 0 -> 1 <= sig < NSIG ->
  signal_send (id (zget ts i)) sig ts = (zset ts i (queue_signal sig (zget ts i)), 0).
Proof.
  intros (L & Z0 & U) R Ui Pg Rs. unfold signal_send. rewrite (proj2 (Z.ltb_ge sig 1)), (proj2 (Z.leb_gt NSIG sig)) by lia.
  cbn [orb]. rewrite (proj2 (Z.eqb_neq (id _) 0)) by (intros E; apply Pg, Z0; done).
  rewrite (zfind_least _ 0 _ i); [done | unfold TASK_MAX in *; lia | by rewrite Ui, Z.eqb_refl |].
  intros j Rj. destruct (used ts j) eqn:Uj; [| done]. cbn [andb]. apply Z.eqb_neq. intros E.
  assert (j = i) by (apply U; [lia | lia | done | done | done]). lia.
Qed.

Lemma zset_queue_ids ts i sig : ids_ok ts -> 0 <= i < TASK_MAX ->
  ids_ok (zset ts i (queue_signal sig (zget ts i))) /\
  (forall j, 0 <= j < TASK_MAX -> used (zset ts i (queue_signal sig (zget ts i))) j = used ts j) /\
  (forall j, 0 <= j < TASK_MAX -> id (zget (zset ts i (queue_signal sig (zget ts i))) j) = id (zget ts j)).
Proof.
  intros (L & Z0 & U) R. set (ts' := zset _ _ _).
  assert (G : forall j, 0 <= j < TASK_MAX -> zget ts' j = if decide (j = i) then queue_signal sig (zget ts i) else zget ts j).
  { intros j Rj. unfold ts'. case_decide; [subst; apply zget_zset_eq; lia | apply zget_zset_ne; lia]. }
  assert (Us : forall j, 0 <= j < TASK_MAX -> used ts' j = used ts j).
  { intros j Rj. unfold used. rewrite G by done. case_decide; [subst; by rewrite queue_used | done]. }
  assert (Is : forall j, 0 <= j < TASK_MAX -> id (zget ts' j) = id (zget ts j) /\ pgid (zget ts' j) = pgid (zget ts j)).
  { intros j Rj. rewrite G by done. case_decide; [subst; apply queue_id | done]. }
  split_and!; [| done | intros; by apply Is]. split; [by unfold ts'; rewrite zlen_zset | split].
  - intros j Rj Uj E. rewrite Us in Uj by done. destruct (Is j Rj) as (E1 & ->). apply Z0; congruence.
  - intros j l Rj Rl Uj Ul E. rewrite Us in Uj, Ul by done. destruct (Is j Rj), (Is l Rl). apply U; congruence.
Qed.

(** A signal to a process group reaches every member, once.  With distinct
    identifiers, every used task of the group that is neither dead nor a zombie has
    the signal pending, its pending stops cancelled by SIGCONT (which also wakes a
    stopped member) and its pending SIGCONT by a stop, all its other bits kept; no
    other task changes; the result is 0 exactly when there was a member. *)
Theorem signal_send_pgrp_correct pg sig ts :
  ids_ok ts -> 1 <= sig < NSIG -> pg <> 0 ->
  let member i := used ts i && in_group pg (zget ts i) in
  match signal_send_pgrp pg sig ts with
  | (ts', rc) =>
      (rc = 0 <-> exists i, 0 <= i < TASK_MAX /\ member i = true) /\
      forall i, 0 <= i < TASK_MAX ->
        (member i = false -> zget ts' i = zget ts i) /\
        (member i = true ->
           id (zget ts' i) = id (zget ts i) /\ sig_mask (zget ts' i) = sig_mask (zget ts i) /\
           sig_handlers (zget ts' i) = sig_handlers (zget ts i) /\
           state (zget ts' i) = (if (sig =? SIGCONT) && (state (zget ts i) =? STATE_STOPPED) then STATE_READY
                                 else state (zget ts i)) /\
           (bits_ok (zget ts i) -> forall s, 0 <= s < NSIG ->
              Z.testbit (sig_pending (zget ts' i)) s =
              (s =? sig) || (Z.testbit (sig_pending (zget ts i)) s && negb (cancels sig s))))
  end.
Proof.
  intros O R Pg member. unfold signal_send_pgrp.
  rewrite (proj2 (Z.ltb_ge sig 1)), (proj2 (Z.leb_gt NSIG sig)), (proj2 (Z.eqb_neq pg 0)) by (done || lia). cbn [orb].
  pose (P := fun n '(ts', d) => ids_ok ts' /\ 0 <= d /\ (0 < d <-> exists i, 0 <= i < n /\ member i = true) /\
    forall i, 0 <= i < TASK_MAX -> zget ts' i = if (i <? n) && member i then queue_signal sig (zget ts i) else zget ts i).
  match goal with |- context [zfor ?n 0 ?f ?s] => pose proof (zfor_ind P n 0 f s) as I; set (loop := zfor n 0 f s) in * end.
  assert (G : P 32 loop).
  { apply I; clear I loop.
    - split_and!; [done | done | |]. { split; [lia | intros (i & Ri & _); lia]. } intros i Ri. rewrite (proj2 (Z.ltb_ge i 0)) by lia. done.
    - intros k [ts' d] Rk (Oi & D0 & Dd & Gi). change (0 + Z.of_nat (Z.to_nat TASK_MAX)) with 32 in Rk.
      assert (Tk : zget ts' k = zget ts k) by (rewrite Gi by (unfold TASK_MAX; lia); by rewrite (proj2 (Z.ltb_ge k k)) by lia).
      assert (Uk : used ts' k = used ts k) by (unfold used; by rewrite Tk). rewrite Uk, Tk.
      assert (Skip : member k = false -> P (k + 1) (ts', d)).
      { intros Mk. split_and!; [done | done | |].
        - rewrite Dd. split; intros (i & Ri & Mi); exists i; (split; [| done]); [lia |]. destruct (decide (i = k)); [congruence | lia].
        - intros i Ri. rewrite Gi by done. destruct (decide (i = k)) as [-> |]; [by rewrite Mk, !andb_false_r |].
          destruct (i <? k) eqn:E1, (i <? k + 1) eqn:E2; zb; try done; lia. }
      unfold member in Skip at 1. destruct (used ts k) eqn:U2; cbn [negb andb] in *; [| by apply Skip].
      destruct (in_group pg (zget ts k)) eqn:Ig; cbn [negb] in *; [| by apply Skip].
      assert (Pk : pgid (zget ts' k) <> 0).
      { rewrite Tk. unfold in_group in Ig. apply andb_true_iff in Ig as (Ig & _). zb. congruence. }
      assert (Rk2 : 0 <= k < TASK_MAX) by (unfold TASK_MAX; lia).
      pose proof (send_self ts' k sig Oi Rk2 ltac:(by rewrite Uk) Pk R) as Es. rewrite Tk in Es. rewrite Es. cbn [Z.eqb].
      destruct (zset_queue_ids ts' k sig Oi Rk2) as (Oz & _). rewrite Tk in Oz.
      assert (Mk : member k = true) by (unfold member; by rewrite U2, Ig).
      split_and!; [done | lia | |].
      + split; [| lia]. intros _. exists k. split; [lia | done].
      + intros i Ri. destruct (decide (i = k)) as [-> | Ne].
        * rewrite zget_zset_eq by (destruct Oi as (-> & _); lia). by rewrite (proj2 (Z.ltb_lt k _)), Mk by lia.
        * rewrite zget_zset_ne, Gi by lia. destruct (i <? k) eqn:E1, (i <? k + 1) eqn:E2; zb; try done; lia. }
  destruct loop as [ts' d]. destruct G as (_ & D0 & Dd & Gi). change 32 with TASK_MAX in Dd.
  split.
  - rewrite <- Dd. destruct (0 <? d) eqn:E; zb; split; try done; lia.
  - intros i Ri. rewrite Gi by done. rewrite (proj2 (Z.ltb_lt i 32)) by (unfold TASK_MAX in Ri; lia). cbn [andb].
    destruct (member i); split; try done. intros _. split_and!.
    + apply queue_id.
    + unfold queue_signal. by repeat cases.
    + unfold queue_signal. by repeat cases.
    + unfold queue_signal. destruct (sig =? SIGCONT); cbn [andb]; repeat cases; done.
    + intros B s Rs. by apply queue_bits.
Qed.

(** ** Two weaknesses of the code *)

(** [signal_sigreturn] takes all sixteen registers, segment selectors and flags
    included, from user memory: any word can be in [cs]. *)
Lemma sigreturn_trusts_user k ts m a w r :
  Forall word w -> length w = 16%nat -> useresp r = a -> snd (signal_sigreturn k ts (st_words m a w) r) = of_words w.
Proof.
  intros F L <-. unfold signal_sigreturn. rewrite <- L, ld_st_words by done. by destruct (_ && _).
Qed.

(** SIGKILL leaves a stopped task stopped: only SIGCONT makes it READY. *)
Lemma sigkill_leaves_stopped t : state t = STATE_STOPPED -> state (queue_signal SIGKILL t) = STATE_STOPPED.
Proof. intros E. exact E. Qed.

(** ** A table with two groups *)

Definition demo_task (i g h : Z) : task := Task i g STATE_READY true 4 0 4096 (zset (zrep 32 0) 2 h).

Definition demo_tasks : tasks :=
  demo_task 7 3 5000 :: demo_task 8 4 0 :: set_state (demo_task 9 3 0) STATE_STOPPED :: zrep 29 (Task 0 0 0 false 0 0 0 []).

Definition demo_regs : regs := Regs 35 1 2 3 4 5 6 7 8 128 0 70000 27 514 90000 35.

Lemma handler_round_trip_witness :
  match signal_check_and_deliver (Some 0) demo_tasks ∅ demo_regs with
  | (ts', m', r', o) => eip r' = 5000 /\ useresp r' = 89928 /\ snd (signal_sigreturn 0 ts' m'
      (Regs 0 0 0 0 0 0 0 0 0 0 0 0 0 0 89936 0)) = demo_regs
  end.
Proof.
  pose proof (handler_round_trip 0 demo_tasks ∅ demo_regs) as H.
  assert (Ro : regs_ok demo_regs) by (repeat constructor; unfold word; cbn; lia).
  assert (Bo : bits_ok (zget demo_tasks 0)) by (split; unfold word; vm_compute; split; discriminate || reflexivity).
  specialize (H ltac:(vm_compute; split; discriminate || reflexivity) Bo eq_refl eq_refl Ro ltac:(cbn; lia)).
  assert (Ep : pick_pending (zget demo_tasks 0) = 2) by (vm_compute; reflexivity). cbv zeta in H. rewrite Ep in H.
  change (zget (sig_handlers (zget demo_tasks 0)) 2) with 5000 in H.
  specialize (H ltac:(done) ltac:(done) ltac:(done) ltac:(unfold word; lia) ltac:(done) ltac:(unfold word; vm_compute; split; discriminate || reflexivity)).
  assert (Lt : forall t', 0 <= 0 < zlen (zset demo_tasks 0 t')) by (intros; rewrite zlen_zset; vm_compute; split; discriminate || reflexivity).
  destruct (signal_check_and_deliver (Some 0) demo_tasks ∅ demo_regs) as [[[ts' m'] r'] o] eqn:E.
  destruct H as (_ & H1 & H2 & _ & _ & _ & Hm & Hp & H3). split_and!; [done | done |].
  assert (Ets : ts' = zset (zset demo_tasks 0 (set_pending (zget demo_tasks 0) 0)) 0
      (set_mask (set_pending (zget demo_tasks 0) 0) 4)).
  { apply (f_equal (fun x => fst (fst (fst x)))) in E. cbn [fst] in E. rewrite <- E. vm_compute. reflexivity. }
  specialize (H3 ts' m' (Regs 0 0 0 0 0 0 0 0 0 0 0 0 0 0 89936 0)).
  destruct (signal_sigreturn 0 ts' m' _) as [ts3 r3]. cbn [snd]. apply H3; [| | done | rewrite H2; reflexivity].
  - subst ts'. rewrite zlen_zset. apply Lt.
  - unfold bits_ok. rewrite Hm, Hp. split; unfold word; vm_compute; split; discriminate || reflexivity.
Defined.

Lemma sigkill_certain_witness :
  let t := queue_signal SIGKILL (signal_init_task (demo_task 7 3 5000)) in
  pick_pending t = SIGKILL /\
  snd (signal_check_and_deliver (Some 0) [t] ∅ demo_regs) = Exit 137.
Proof.
  intros t. assert (Re : reach t) by (apply R_queue; [apply R_create; reflexivity | unfold SIGKILL, NSIG; lia]).
  pose proof (sigkill_certain t 0 [t] ∅ demo_regs Re ltac:(vm_compute; split; discriminate || reflexivity)
    eq_refl eq_refl eq_refl ltac:(vm_compute; reflexivity)) as H.
  assert (Ep : pick_pending t = SIGKILL) by (vm_compute; reflexivity). rewrite Ep in H. split; [done |].
  destruct (signal_check_and_deliver (Some 0) [t] ∅ demo_regs) as [[[ts' m'] r'] o]. cbn [snd].
  destruct H as [(_ & ->) | (R & _)]; [done | lia].
Defined.

Lemma signal_send_pgrp_correct_witness :
  snd (signal_send_pgrp 3 SIGCONT demo_tasks) = 0 /\
  state (zget (fst (signal_send_pgrp 3 SIGCONT demo_tasks)) 2) = STATE_READY /\
  zget (fst (signal_send_pgrp 3 SIGCONT demo_tasks)) 1 = zget demo_tasks 1.
Proof.
  assert (Un : forall i, 0 <= i < TASK_MAX -> used demo_tasks i = true -> i = 0 \/ i = 1 \/ i = 2).
  { intros i R U. destruct (decide (i < 3)); [lia |]. exfalso. unfold used, demo_tasks, TASK_MAX in *.
    change (demo_task 7 3 5000 :: demo_task 8 4 0 :: set_state (demo_task 9 3 0) STATE_STOPPED :: zrep 29 (Task 0 0 0 false 0 0 0 []))
      with ([demo_task 7 3 5000; demo_task 8 4 0; set_state (demo_task 9 3 0) STATE_STOPPED] ++ zrep 29 (Task 0 0 0 false 0 0 0 [])) in U.
    rewrite zget_app_r in U by (change (zlen _) with 3; lia). change (zlen [demo_task 7 3 5000; demo_task 8 4 0; set_state (demo_task 9 3 0) STATE_STOPPED]) with 3 in U.
    rewrite zget_zrep in U by lia. done. }
  assert (O : ids_ok demo_tasks).
  { split; [reflexivity | split].
    - intros i R U. by destruct (Un i R U) as [-> | [-> | ->]].
    - intros i j Ri Rj Ui Uj E. destruct (Un i Ri Ui) as [-> | [-> | ->]], (Un j Rj Uj) as [-> | [-> | ->]]; vm_compute in E; congruence. }
  pose proof (signal_send_pgrp_correct 3 SIGCONT demo_tasks O ltac:(unfold SIGCONT, NSIG; lia) ltac:(lia)) as H.
  cbv zeta in H. destruct (signal_send_pgrp 3 SIGCONT demo_tasks) as [ts' rc]. destruct H as (Hr & Hi). cbn [fst snd].
  split_and!.
  - apply Hr. exists 0. split; [unfold TASK_MAX; lia | reflexivity].
  - destruct (Hi 2 ltac:(unfold TASK_MAX; lia)) as (_ & H2). destruct (H2 eq_refl) as (_ & _ & _ & -> & _). reflexivity.
  - destruct (Hi 1 ltac:(unfold TASK_MAX; lia)) as (H2 & _). by apply H2.
Defined.

End SIGNAL.
