(* ===== verification/Pty.v ===== *)
(** Pseudo-terminals ([kernel/pty.c]).

    A pair of byte rings between a master and a slave end, reference counters, and
    the line discipline that turns three control characters into signals for the
    foreground process group.  As in [Pipe], a blocking call runs to its return or
    to its next [task_yield]. *)

From stdpp Require Import base numbers list.
From Stdlib Require Import ZArith Lia.
From S2P Require Import Prelude Ring Memory Signal Pipe.

Module PTY.
Import SIGNAL.

Definition PTY_MAX : Z := 4.

Definition PTY_BUF_SZ : Z := 4096.

Definition PTY_MODE_ISIG : Z := 1.

(** One direction: [head], [tail] and the bytes. *)
Record ring := Ring { head : Z; tail : Z; bytes : list Z }.

Record pty := Pty {
  in_use : bool;
  master_refs : Z;
  slave_refs : Z;
  m_to_s : ring;
  s_to_m : ring;
  fg_pgrp : Z;
  mode : Z
}.

Definition ring_zero : ring := Ring 0 0 (zrep PTY_BUF_SZ 0).

Definition pty_zero : pty := Pty false 0 0 ring_zero ring_zero 0 0.

#[global] Instance pty_inhabited : Inhabited pty := populate pty_zero.

(** [g_ptys] *)
Definition ptys : Type := list pty.

Definition set_in_use (p : pty) (b : bool) : pty :=
  Pty b (master_refs p) (slave_refs p) (m_to_s p) (s_to_m p) (fg_pgrp p) (mode p).

Definition set_master_refs (p : pty) (n : Z) : pty :=
  Pty (in_use p) n (slave_refs p) (m_to_s p) (s_to_m p) (fg_pgrp p) (mode p).

Definition set_slave_refs (p : pty) (n : Z) : pty :=
  Pty (in_use p) (master_refs p) n (m_to_s p) (s_to_m p) (fg_pgrp p) (mode p).

Definition set_m_to_s (p : pty) (r : ring) : pty :=
  Pty (in_use p) (master_refs p) (slave_refs p) r (s_to_m p) (fg_pgrp p) (mode p).

Definition set_s_to_m (p : pty) (r : ring) : pty :=
  Pty (in_use p) (master_refs p) (slave_refs p) (m_to_s p) r (fg_pgrp p) (mode p).

Definition set_fg (p : pty) (g : Z) : pty :=
  Pty (in_use p) (master_refs p) (slave_refs p) (m_to_s p) (s_to_m p) g (mode p).

Definition set_mode (p : pty) (m : Z) : pty :=
  Pty (in_use p) (master_refs p) (slave_refs p) (m_to_s p) (s_to_m p) (fg_pgrp p) m.

Definition pty_init (g : ptys) : ptys :=
  zfor (Z.to_nat PTY_MAX) 0 (fun i g => zset g i (set_in_use (zget g i) false)) g.

Definition pty_new (g : ptys) : ptys * Z :=
  match zfind (Z.to_nat PTY_MAX) 0 (fun i => negb (in_use (zget g i))) with
  | Some i => (zset g i (Pty true 1 1 ring_zero ring_zero 0 PTY_MODE_ISIG), i)
  | None => (g, -1)
  end.

Definition valid (g : ptys) (idx : Z) : bool := (0 <=? idx) && (idx <? PTY_MAX) && in_use (zget g idx).

Definition pty_inc_master (idx : Z) (g : ptys) : ptys :=
  if valid g idx then zset g idx (set_master_refs (zget g idx) (master_refs (zget g idx) + 1)) else g.

Definition pty_inc_slave (idx : Z) (g : ptys) : ptys :=
  if valid g idx then zset g idx (set_slave_refs (zget g idx) (slave_refs (zget g idx) + 1)) else g.

Definition try_free (p : pty) : pty :=
  if (master_refs p =? 0) && (slave_refs p =? 0) then set_in_use p false else p.

Definition pty_close_master (idx : Z) (g : ptys) (ts : tasks) : ptys * tasks :=
  if negb (valid g idx) then (g, ts) else
  let p := zget g idx in
  let p := if 0 <? master_refs p then set_master_refs p (master_refs p - 1) else p in
  let ts := if (master_refs p =? 0) && (0 <? fg_pgrp p) then fst (signal_send_pgrp (u32 (fg_pgrp p)) SIGHUP ts) else ts in
  (zset g idx (try_free p), ts).

Definition pty_close_slave (idx : Z) (g : ptys) : ptys :=
  if negb (valid g idx) then g else
  let p := zget g idx in
  let p := if 0 <? slave_refs p then set_slave_refs p (slave_refs p - 1) else p in
  zset g idx (try_free p).

Definition pty_master_refs (idx : Z) (g : ptys) : Z := if valid g idx then master_refs (zget g idx) else 0.

Definition pty_slave_refs (idx : Z) (g : ptys) : Z := if valid g idx then slave_refs (zget g idx) else 0.

(** [t] is the current task, if any. *)
Definition signal_interrupted (t : option task) : bool :=
  match t with None => false | Some t => negb (clear (sig_pending t) (sig_mask t) =? 0) end.

Definition pty_master_read_avail (idx : Z) (g : ptys) : Z :=
  if negb (valid g idx) then -1 else
  let r := s_to_m (zget g idx) in if negb (head r =? tail r) then 1 else 0.

Definition pty_slave_read_avail (idx : Z) (g : ptys) : Z :=
  if negb (valid g idx) then -1 else
  let r := m_to_s (zget g idx) in if negb (head r =? tail r) then 1 else 0.

(** The copy loop of both reads. *)
Fixpoint drain (n : nat) (r : ring) (out : list Z) : ring * list Z :=
  match n with
  | O => (r, out)
  | S n' =>
      if tail r =? head r then (r, out) else
      drain n' (Ring (head r) ((tail r + 1) mod PTY_BUF_SZ) (bytes r)) (out ++ [zget (bytes r) (tail r)])
  end.

(** One turn of a read from the head of its wait loop, [peer] references at the
    other end; [Return None] is -1. *)
Definition read_wait (n peer : Z) (t : option task) (r : ring) : ring * PIPE.outcome (option (list Z)) unit :=
  if (head r =? tail r) && (0 <? peer) then
    (r, if signal_interrupted t then PIPE.Return None else PIPE.Yield tt)
  else let '(r, out) := drain (Z.to_nat n) r [] in (r, PIPE.Return (Some out)).

Definition pty_master_read (idx n : Z) (t : option task) (g : ptys) : ptys * PIPE.outcome (option (list Z)) unit :=
  if negb (valid g idx) then (g, PIPE.Return None) else
  let p := zget g idx in
  let '(r, o) := read_wait n (slave_refs p) t (s_to_m p) in (zset g idx (set_s_to_m p r), o).

Definition pty_slave_read (idx n : Z) (t : option task) (g : ptys) : ptys * PIPE.outcome (option (list Z)) unit :=
  if negb (valid g idx) then (g, PIPE.Return None) else
  let p := zget g idx in
  let '(r, o) := read_wait n (master_refs p) t (m_to_s p) in (zset g idx (set_m_to_s p r), o).

(** The signal a byte stands for, 0 for none. *)
Definition isig (b : Z) : Z :=
  if b =? 3 then SIGINT else if b =? 28 then SIGQUIT else if b =? 26 then SIGTSTP else 0.

(** The line discipline takes the byte. *)
Definition taken (p : pty) (b : Z) : bool :=
  negb (Z.land (mode p) PTY_MODE_ISIG =? 0) && negb (isig b =? 0) && (0 <? fg_pgrp p).

(** The loop of [pty_master_write]; [rest] are the bytes not yet copied. *)
Fixpoint master_loop (rest : list Z) (copied : Z) (p : pty) (ts : tasks)
    : pty * tasks * PIPE.outcome Z (list Z * Z) :=
  match rest with
  | [] => (p, ts, PIPE.Return copied)
  | b :: rest' =>
      if slave_refs p =? 0 then (p, ts, PIPE.Return (if 0 <? copied then copied else -1)) else
      if taken p b then
        master_loop rest' (copied + 1) p (fst (signal_send_pgrp (u32 (fg_pgrp p)) (isig b) ts))
      else
        let r := m_to_s p in
        let next := (head r + 1) mod PTY_BUF_SZ in
        if next =? tail r then (p, ts, PIPE.Yield (rest, copied)) else
        master_loop rest' (copied + 1) (set_m_to_s p (Ring next (tail r) (zset (bytes r) (head r) b))) ts
  end.

Definition pty_master_write (idx : Z) (l : list Z) (g : ptys) (ts : tasks)
    : ptys * tasks * PIPE.outcome Z (list Z * Z) :=
  if negb (valid g idx) then (g, ts, PIPE.Return (-1)) else
  let '(p, ts, o) := master_loop l 0 (zget g idx) ts in (zset g idx p, ts, o).

Fixpoint slave_loop (rest : list Z) (copied : Z) (p : pty) : pty * PIPE.outcome Z (list Z * Z) :=
  match rest with
  | [] => (p, PIPE.Return copied)
  | b :: rest' =>
      if master_refs p =? 0 then (p, PIPE.Return (if 0 <? copied then copied else -1)) else
      let r := s_to_m p in
      let next := (head r + 1) mod PTY_BUF_SZ in
      if next =? tail r then (p, PIPE.Yield (rest, copied)) else
      slave_loop rest' (copied + 1) (set_s_to_m p (Ring next (tail r) (zset (bytes r) (head r) b)))
  end.

Definition pty_slave_write (idx : Z) (l : list Z) (g : ptys) : ptys * PIPE.outcome Z (list Z * Z) :=
  if negb (valid g idx) then (g, PIPE.Return (-1)) else
  let '(p, o) := slave_loop l 0 (zget g idx) in (zset g idx p, o).

Definition pty_set_fg_pgrp (idx pgid : Z) (g : ptys) : ptys :=
  if negb (valid g idx) then g else zset g idx (set_fg (zget g idx) pgid).

Definition pty_get_fg_pgrp (idx : Z) (g : ptys) : Z := if valid g idx then fg_pgrp (zget g idx) else 0.

Definition pty_set_mode (idx m : Z) (g : ptys) : ptys :=
  if negb (valid g idx) then g else zset g idx (set_mode (zget g idx) m).

Definition pty_get_mode (idx : Z) (g : ptys) : Z := if valid g idx then mode (zget g idx) else 0.

(** ** The rings *)

Definition ring_good (r : ring) : Prop := ring_ok PTY_BUF_SZ (bytes r) (head r) (tail r).

(** The bytes queued, oldest first. *)
Definition queued (r : ring) : list Z := contents PTY_BUF_SZ (bytes r) (head r) (tail r).

Definition full (r : ring) : Prop := zlen (queued r) = PTY_BUF_SZ - 1.

Lemma ring_push r b : ring_good r -> (head r + 1) mod PTY_BUF_SZ <> tail r ->
  let r' := Ring ((head r + 1) mod PTY_BUF_SZ) (tail r) (zset (bytes r) (head r) b) in
  ring_good r' /\ queued r' = queued r ++ [b].
Proof. intros O NF r'. split; [by apply (ring_ok_push PTY_BUF_SZ) | by apply (contents_push PTY_BUF_SZ)]. Qed.

Lemma ring_is_full r : ring_good r -> ((head r + 1) mod PTY_BUF_SZ = tail r <-> full r).
Proof.
  intros O. unfold full. rewrite (ring_full PTY_BUF_SZ (bytes r) (head r) (tail r) O).
  pose proof (ring_len_bounds _ _ _ _ O). unfold zlen, queued. rewrite length_contents. lia.
Qed.

Lemma ring_drain n r out r' out' :
  ring_good r -> drain n r out = (r', out') ->
  ring_good r' /\ out' = out ++ take n (queued r) /\ queued r' = drop n (queued r).
Proof.
  revert r out. induction n as [|n IH]; cbn [drain]; intros r out O E.
  - injection E as <- <-. by rewrite take_0, drop_0, app_nil_r.
  - destruct (tail r =? head r) eqn:Et; zb.
    + injection E as <- <-. assert (queued r = []) as -> by (by apply (ring_empty PTY_BUF_SZ _ _ _ O)). by rewrite app_nil_r.
    + assert (Ne : head r <> tail r) by auto.
      pose proof (contents_pop PTY_BUF_SZ (bytes r) (head r) (tail r) O Ne) as Q.
      assert (O1 : ring_good (Ring (head r) ((tail r + 1) mod PTY_BUF_SZ) (bytes r))) by exact (ring_ok_pop PTY_BUF_SZ _ _ _ O).
      destruct (IH _ _ O1 E) as (O2 & -> & Q2).
      split_and!; [done | |].
      * change (queued r) with (contents PTY_BUF_SZ (bytes r) (head r) (tail r)). rewrite Q. cbn [take]. by rewrite <- app_assoc.
      * rewrite Q2. change (queued r) with (contents PTY_BUF_SZ (bytes r) (head r) (tail r)). by rewrite Q.
Qed.

(** ** The line discipline *)

(** The bytes of [l] that reach the slave, and the signals of the others. *)
Definition passed (p : pty) (l : list Z) : list Z := filter (fun b => taken p b = false) l.

Definition raised (p : pty) (l : list Z) : list Z := map isig (filter (fun b => taken p b = true) l).

Definition send_all (pg : Z) (sigs : list Z) (ts : tasks) : tasks :=
  foldl (fun ts s => fst (signal_send_pgrp (u32 pg) s ts)) ts sigs.

(** What a master write leaves unchanged. *)
Definition same_ends (p p' : pty) : Prop :=
  in_use p' = in_use p /\ master_refs p' = master_refs p /\ slave_refs p' = slave_refs p /\ s_to_m p' = s_to_m p /\
  fg_pgrp p' = fg_pgrp p /\ mode p' = mode p.

Lemma taken_same p p' b : same_ends p p' -> taken p' b = taken p b.
Proof. intros (_ & _ & _ & _ & E1 & E2). unfold taken. by rewrite E1, E2. Qed.

Lemma master_loop_spec l copied p ts p' ts' o :
  ring_good (m_to_s p) -> slave_refs p <> 0 -> master_loop l copied p ts = (p', ts', o) ->
  ring_good (m_to_s p') /\ same_ends p p' /\
  exists k, (k <= length l)%nat /\ queued (m_to_s p') = queued (m_to_s p) ++ passed p (take k l) /\
    ts' = send_all (fg_pgrp p) (raised p (take k l)) ts /\
    match o with
    | PIPE.Return v => k = length l /\ v = copied + zlen l
    | PIPE.Yield (rest, c) => rest = drop k l /\ rest <> [] /\ c = copied + Z.of_nat k /\ full (m_to_s p')
    end.
Proof.
  revert copied p ts. induction l as [|b l IH]; cbn [master_loop]; intros copied p ts O Sr E.
  - injection E as <- <- <-. split_and!; try done. exists 0%nat. split_and!; try done; [by rewrite app_nil_r | change (zlen []) with 0; lia].
  - rewrite (proj2 (Z.eqb_neq _ 0)) in E by done. destruct (taken p b) eqn:Tk.
    + destruct (IH _ _ _ O Sr E) as (O' & Sm & k & Lk & Q & -> & R). split_and!; [done | done |]. exists (S k).
      cbn [take length]. unfold passed, raised in *. rewrite !filter_cons, !decide_False, !decide_True by congruence. cbn [map].
      split_and!; [lia | done | done |]. destruct o as [v | [rest c]]; cbn [drop].
      * rewrite zlen_cons. destruct R as (-> & ->). lia.
      * destruct R as (R1 & R2 & -> & R4). split_and!; [done | done | lia | done].
    + destruct ((head (m_to_s p) + 1) mod PTY_BUF_SZ =? tail (m_to_s p)) eqn:Ef; zb.
      { injection E as <- <- <-. split_and!; try done. exists 0%nat. split_and!; try done; [lia | by rewrite app_nil_r | lia |].
        by apply ring_is_full. }
      destruct (ring_push (m_to_s p) b O Ef) as (O1 & Q1).
      destruct (IH (copied + 1) (set_m_to_s p _) ts O1 Sr E) as (O' & Sm & k & Lk & Q & -> & R). split_and!; [done | done |].
      exists (S k). cbn [take length]. change (passed (set_m_to_s p _) (take k l)) with (passed p (take k l)) in Q.
      cbn [m_to_s set_m_to_s] in Q. rewrite Q1, <- app_assoc in Q.
      unfold passed, raised in *. rewrite !filter_cons, !decide_True, !decide_False by congruence.
      split_and!; [lia | done | done |]. destruct o as [v | [rest c]]; cbn [drop].
      * rewrite zlen_cons. destruct R as (-> & ->). lia.
      * destruct R as (R1 & R2 & -> & R4). split_and!; [done | done | lia | done].
Qed.

(** What a slave write leaves unchanged. *)
Definition same_sides (p p' : pty) : Prop :=
  in_use p' = in_use p /\ master_refs p' = master_refs p /\ slave_refs p' = slave_refs p /\ m_to_s p' = m_to_s p /\
  fg_pgrp p' = fg_pgrp p /\ mode p' = mode p.

Lemma slave_loop_spec l copied p p' o :
  ring_good (s_to_m p) -> master_refs p <> 0 -> slave_loop l copied p = (p', o) ->
  ring_good (s_to_m p') /\ same_sides p p' /\
  exists k, (k <= length l)%nat /\ queued (s_to_m p') = queued (s_to_m p) ++ take k l /\
    match o with
    | PIPE.Return v => k = length l /\ v = copied + zlen l
    | PIPE.Yield (rest, c) => rest = drop k l /\ rest <> [] /\ c = copied + Z.of_nat k /\ full (s_to_m p')
    end.
Proof.
  revert copied p. induction l as [|b l IH]; cbn [slave_loop]; intros copied p O Sr E.
  - injection E as <- <-. split_and!; try done. exists 0%nat. split_and!; try done; [by rewrite app_nil_r | change (zlen []) with 0; lia].
  - rewrite (proj2 (Z.eqb_neq _ 0)) in E by done.
    destruct ((head (s_to_m p) + 1) mod PTY_BUF_SZ =? tail (s_to_m p)) eqn:Ef; zb.
    { injection E as <- <-. split_and!; try done. exists 0%nat. split_and!; try done; [lia | by rewrite app_nil_r | lia |].
      by apply ring_is_full. }
    destruct (ring_push (s_to_m p) b O Ef) as (O1 & Q1).
    destruct (IH (copied + 1) (set_s_to_m p _) O1 Sr E) as (O' & Sm & k & Lk & Q & R). split_and!; [done | exact Sm |].
    exists (S k). cbn [take length]. cbn [s_to_m set_s_to_m] in Q. rewrite Q1, <- app_assoc in Q.
    split_and!; [lia | done |]. destruct o as [v | [rest c]]; cbn [drop].
    + rewrite zlen_cons. destruct R as (-> & ->). lia.
    + destruct R as (R1 & R2 & -> & R4). split_and!; [done | done | lia | done].
Qed.

Lemma read_wait_spec n peer t r r' o :
  ring_good r -> read_wait n peer t r = (r', o) ->
  ring_good r' /\
  match o with
  | PIPE.Return (Some out) => out = take (Z.to_nat n) (queued r) /\ queued r' = drop (Z.to_nat n) (queued r) /\
      (queued r = [] -> peer <= 0)
  | PIPE.Return None => r' = r /\ queued r = [] /\ signal_interrupted t = true
  | PIPE.Yield _ => r' = r /\ queued r = [] /\ 0 < peer /\ signal_interrupted t = false
  end.
Proof.
  intros O E. unfold read_wait in E. destruct (ring_empty PTY_BUF_SZ (bytes r) (head r) (tail r) O) as (Q1 & Q2).
  change (contents PTY_BUF_SZ (bytes r) (head r) (tail r)) with (queued r) in Q1, Q2.
  destruct ((head r =? tail r) && (0 <? peer)) eqn:C.
  - apply andb_true_iff in C as (C1 & C2). zb. destruct (signal_interrupted t) eqn:Si; injection E as <- <-; split_and!; auto.
  - destruct (drain (Z.to_nat n) r []) as [r1 out] eqn:D. injection E as <- <-.
    destruct (ring_drain _ _ _ _ _ O D) as (O' & -> & Q). split_and!; try done. intros En. apply Q1 in En.
    rewrite En, Z.eqb_refl in C. cbn [andb] in C. by zb.
Qed.

Definition pty_ok (p : pty) : Prop := ring_good (m_to_s p) /\ ring_good (s_to_m p).

Lemma valid_range g idx : valid g idx = true -> 0 <= idx < PTY_MAX /\ in_use (zget g idx) = true.
Proof. unfold valid. intros V. apply andb_true_iff in V as (V & U). zb. split; [lia | done]. Qed.

(** C16. Keyboard to program.  A master write on an open pair hands over a prefix of
    its bytes in order: those the line discipline takes become signals to the
    foreground group, in order, and all others are queued, in order, for the slave;
    the call returns the number of its bytes only when all were handed over and
    yields only with the ring full and the exact rest in hand.  What a slave read
    returns are the oldest queued bytes, and it waits only on an empty ring with
    the master open and no signal pending.  The other pairs and the other
    direction are untouched. *)
Theorem pty_master_to_slave g idx l ts n t :
  zlen g = PTY_MAX -> valid g idx = true -> pty_ok (zget g idx) -> slave_refs (zget g idx) <> 0 ->
  match pty_master_write idx l g ts with
  | (g1, ts1, o) =>
      let p := zget g idx in let p1 := zget g1 idx in
      pty_ok p1 /\ same_ends p p1 /\ (forall j, 0 <= j -> j <> idx -> zget g1 j = zget g j) /\
      exists k, queued (m_to_s p1) = queued (m_to_s p) ++ passed p (take k l) /\
        ts1 = send_all (fg_pgrp p) (raised p (take k l)) ts /\
        match o with
        | PIPE.Return v => k = length l /\ v = zlen l
        | PIPE.Yield (rest, c) => rest = drop k l /\ rest <> [] /\ c = Z.of_nat k /\ full (m_to_s p1)
        end /\
        match pty_slave_read idx n t g1 with
        | (g2, PIPE.Return (Some out)) =>
            out = take (Z.to_nat n) (queued (m_to_s p) ++ passed p (take k l)) /\
            queued (m_to_s (zget g2 idx)) = drop (Z.to_nat n) (queued (m_to_s p) ++ passed p (take k l))
        | (g2, PIPE.Return None) => zget g2 idx = p1 /\ queued (m_to_s p1) = [] /\ signal_interrupted t = true
        | (g2, PIPE.Yield _) =>
            zget g2 idx = p1 /\ queued (m_to_s p1) = [] /\ 0 < master_refs p /\ signal_interrupted t = false
        end
  end.
Proof.
  intros L V (O1 & O2) Sr. pose proof (valid_range _ _ V) as (R & U). unfold pty_master_write. rewrite V. cbn [negb].
  destruct (master_loop l 0 (zget g idx) ts) as [[p1 ts1] o] eqn:E.
  destruct (master_loop_spec l 0 (zget g idx) ts p1 ts1 o O1 Sr E) as (Q1 & Sm & k & Lk & Q & T & Ro).
  cbv zeta. rewrite zget_zset_eq by lia. destruct Sm as (S1 & S2 & S3 & S4 & S5 & S6).
  split_and!; [split; [done | by rewrite S4] | by split_and! | intros; by apply zget_zset_ne; lia |].
  exists k. split_and!; [done | done | destruct o as [v | [rest c]]; exact Ro |].
  unfold pty_slave_read. assert (V1 : valid (zset g idx p1) idx = true).
  { unfold valid in V |- *. rewrite zget_zset_eq, S1 by lia. exact V. }
  rewrite V1. cbn [negb]. rewrite zget_zset_eq, S2 by lia.
  destruct (read_wait n (master_refs (zget g idx)) t (m_to_s p1)) as [r2 o2] eqn:Er.
  destruct (read_wait_spec _ _ _ _ _ _ Q1 Er) as (Q2 & R2).
  rewrite !zget_zset_eq by (rewrite ?zlen_zset; lia).
  assert (Id : set_m_to_s p1 (m_to_s p1) = p1) by (by destruct p1).
  destruct o2 as [[out|] | []]; cbn [m_to_s set_m_to_s].
  - rewrite <- Q. tauto.
  - destruct R2 as (-> & R2). by rewrite Id.
  - destruct R2 as (-> & R2). by rewrite Id.
Qed.

(** A read of either end whose other end is closed returns at once. *)
Lemma read_wait_closed n t r r' o : ring_good r -> read_wait n 0 t r = (r', o) ->
  o = PIPE.Return (Some (take (Z.to_nat n) (queued r))) /\ queued r' = drop (Z.to_nat n) (queued r).
Proof.
  intros O E. unfold read_wait in E. change (0 <? 0) with false in E. rewrite andb_false_r in E.
  destruct (drain (Z.to_nat n) r []) as [r1 out] eqn:D. injection E as <- <-. by destruct (ring_drain _ _ _ _ _ O D) as (_ & -> & Q).
Qed.

Lemma valid_zset g idx p : valid g idx = true -> zlen g = PTY_MAX -> in_use p = in_use (zget g idx) -> valid (zset g idx p) idx = true.
Proof. intros V L E. pose proof (valid_range _ _ V) as (R & U). unfold valid in V |- *. rewrite zget_zset_eq, E by lia. exact V. Qed.

(** C17. Program to screen, and hangup.  A slave write on an open pair queues a prefix of its bytes unchanged, all of them when it returns and
    with the exact rest in hand and the ring full when it yields; what [pty_master_read] then returns are the oldest
    queued bytes, in order, and it waits only on an empty ring with the slave open and no signal pending.  Closing
    the master drops one reference; the last one sends SIGHUP to the foreground group, after which slave writes
    fail and a slave read never waits: it returns the bytes still queued and then none.  After the last slave close a
    master read does the same.  The other pairs and the other direction are untouched. *)
Theorem pty_slave_to_master g idx l ts n t :
  zlen g = PTY_MAX -> valid g idx = true -> pty_ok (zget g idx) -> 0 < master_refs (zget g idx) ->
  0 < slave_refs (zget g idx) -> 0 <= fg_pgrp (zget g idx) < 4294967296 ->
  let p := zget g idx in
  (match pty_slave_write idx l g with
   | (g1, o) =>
       let p1 := zget g1 idx in
       pty_ok p1 /\ same_sides p p1 /\ (forall k, 0 <= k < PTY_MAX -> k <> idx -> zget g1 k = zget g k) /\
       exists k, queued (s_to_m p1) = queued (s_to_m p) ++ take k l /\
         match o with
         | PIPE.Return v => k = length l /\ v = zlen l
         | PIPE.Yield (rest, c) => rest = drop k l /\ rest <> [] /\ c = Z.of_nat k /\ full (s_to_m p1)
         end /\
         match pty_master_read idx n t g1 with
         | (g2, PIPE.Return (Some out)) =>
             out = take (Z.to_nat n) (queued (s_to_m p) ++ take k l) /\
             queued (s_to_m (zget g2 idx)) = drop (Z.to_nat n) (queued (s_to_m p) ++ take k l) /\ m_to_s (zget g2 idx) = m_to_s p
         | (g2, PIPE.Return None) => zget g2 idx = p1 /\ queued (s_to_m p1) = [] /\ signal_interrupted t = true
         | (g2, PIPE.Yield _) => zget g2 idx = p1 /\ queued (s_to_m p1) = [] /\ signal_interrupted t = false
         end
   end) /\
  (match pty_close_master idx g ts with
   | (g1, ts1) =>
       zget g1 idx = set_master_refs p (master_refs p - 1) /\ (forall k, 0 <= k < PTY_MAX -> k <> idx -> zget g1 k = zget g k) /\
       (1 < master_refs p -> ts1 = ts) /\
       (master_refs p = 1 ->
          ts1 = (if 0 <? fg_pgrp p then fst (signal_send_pgrp (fg_pgrp p) SIGHUP ts) else ts) /\
          pty_slave_write idx l g1 = (g1, PIPE.Return (if bool_decide (l = []) then 0 else -1)) /\
          match pty_slave_read idx n t g1 with
          | (g2, o) =>
              o = PIPE.Return (Some (take (Z.to_nat n) (queued (m_to_s p)))) /\
              queued (m_to_s (zget g2 idx)) = drop (Z.to_nat n) (queued (m_to_s p))
          end)
   end) /\
  (slave_refs p = 1 ->
   match pty_master_read idx n t (pty_close_slave idx g) with
   | (g2, o) =>
       o = PIPE.Return (Some (take (Z.to_nat n) (queued (s_to_m p)))) /\
       queued (s_to_m (zget g2 idx)) = drop (Z.to_nat n) (queued (s_to_m p))
   end).
Proof.
  intros L V (O1 & O2) Mr Sr Fg p. pose proof (valid_range _ _ V) as (R & U). fold p in O1, O2, Mr, Sr, Fg, U. split; [| split].
  - unfold pty_slave_write. rewrite V. cbn [negb]. fold p. destruct (slave_loop l 0 p) as [p1 o] eqn:E.
    destruct (slave_loop_spec l 0 p p1 o O2 ltac:(lia) E) as (Q1 & Sm & k & Lk & Q & Ro).
    cbv zeta. rewrite zget_zset_eq by lia. pose proof Sm as (S1 & S2 & S3 & S4 & S5 & S6).
    split_and!; [split; [by rewrite S4 | done] | done | intros; by apply zget_zset_ne; lia |].
    exists k. split_and!; [done | destruct o as [v | [rest c]]; exact Ro |].
    unfold pty_master_read. rewrite (valid_zset g idx p1 V L S1). cbn [negb]. rewrite zget_zset_eq, S3 by lia.
    destruct (read_wait n (slave_refs p) t (s_to_m p1)) as [r2 o2] eqn:Er. destruct (read_wait_spec _ _ _ _ _ _ Q1 Er) as (Q2 & R2).
    rewrite !zget_zset_eq by (rewrite ?zlen_zset; lia). assert (Id : set_s_to_m p1 (s_to_m p1) = p1) by (by destruct p1).
    destruct o2 as [[out|] | []]; cbn [s_to_m m_to_s set_s_to_m].
    + rewrite <- Q. tauto.
    + destruct R2 as (-> & R2). by rewrite Id.
    + destruct R2 as (-> & R2 & _ & R3). by rewrite Id.
  - unfold pty_close_master. rewrite V. cbn [negb]. fold p. rewrite (proj2 (Z.ltb_lt 0 _)) by done.
    set (p1 := set_master_refs p (master_refs p - 1)). cbn [master_refs p1 set_master_refs fg_pgrp].
    assert (Et : try_free p1 = p1).
    { unfold try_free. change (slave_refs p1) with (slave_refs p). by rewrite (proj2 (Z.eqb_neq (slave_refs p) 0)), andb_false_r by lia. }
    rewrite Et. set (g1 := zset g idx p1). assert (G1 : zget g1 idx = p1) by (unfold g1; apply zget_zset_eq; lia).
    assert (V1 : valid g1 idx = true) by (by apply valid_zset).
    split_and!; [done | intros; by apply zget_zset_ne; lia | |].
    { intros M. by rewrite (proj2 (Z.eqb_neq (master_refs p - 1) 0)) by lia. }
    intros M. rewrite M. change (1 - 1 =? 0) with true. cbn [andb]. rewrite u32_small by lia.
    assert (M1 : master_refs p1 = 0) by (unfold p1; cbn; lia). split_and!; [by destruct (0 <? fg_pgrp p) | |].
    + unfold pty_slave_write. rewrite V1, G1. cbn [negb].
      assert (Z1 : zset g1 idx p1 = g1) by (unfold g1; apply zset_zset).
      destruct l as [|b l]; cbn [slave_loop]; [by rewrite Z1 |]. rewrite M1. cbn [Z.eqb]. by rewrite Z1.
    + unfold pty_slave_read. rewrite V1, G1, M1. cbn [negb].
      destruct (read_wait n 0 t (m_to_s p1)) as [r2 o2] eqn:Er. rewrite zget_zset_eq by (unfold g1; rewrite zlen_zset; lia).
      exact (read_wait_closed n t (m_to_s p) r2 o2 O1 Er).
  - intros S1. unfold pty_close_slave. rewrite V. cbn [negb]. fold p. rewrite (proj2 (Z.ltb_lt 0 _)) by done.
    set (p1 := set_slave_refs p (slave_refs p - 1)). assert (Et : try_free p1 = p1).
    { unfold try_free. change (master_refs p1) with (master_refs p). by rewrite (proj2 (Z.eqb_neq (master_refs p) 0)) by lia. }
    rewrite Et. unfold pty_master_read. rewrite (valid_zset g idx p1 V L eq_refl). cbn [negb]. rewrite zget_zset_eq by lia.
    replace (slave_refs p1) with 0 by (unfold p1; cbn; lia). destruct (read_wait n 0 t (s_to_m p1)) as [r2 o2] eqn:Er.
    rewrite zget_zset_eq by (rewrite zlen_zset; lia). exact (read_wait_closed n t (s_to_m p) r2 o2 O2 Er).
Qed.

(** ** A pair in use *)

Definition demo_ptys : ptys :=
  pty_set_fg_pgrp 0 3 (fst (pty_new [pty_zero; pty_zero; pty_zero; pty_zero])).

Lemma demo_ok : pty_ok (zget demo_ptys 0).
Proof. split; split; unfold PTY_BUF_SZ; vm_compute; try done; split; discriminate || reflexivity. Qed.

Lemma pty_master_to_slave_witness :
  match pty_master_write 0 [108; 3; 115] demo_ptys demo_tasks with
  | (g1, ts1, o) => queued (m_to_s (zget g1 0)) = [108; 115] /\
      ts1 = fst (signal_send_pgrp 3 SIGINT demo_tasks)
  end.
Proof.
  pose proof (pty_master_to_slave demo_ptys 0 [108; 3; 115] demo_tasks 5 None eq_refl eq_refl demo_ok ltac:(done)) as H.
  assert (Eo : snd (pty_master_write 0 [108; 3; 115] demo_ptys demo_tasks) = PIPE.Return 3) by (vm_compute; reflexivity).
  destruct (pty_master_write 0 [108; 3; 115] demo_ptys demo_tasks) as [[g1 ts1] o]. cbn [snd] in Eo. subst o.
  destruct H as (_ & _ & _ & k & H1 & H2 & (-> & _) & _). split; [rewrite H1 | rewrite H2]; vm_compute; reflexivity.
Defined.

(** Two bytes reach the master; the hangup reaches group 3; a closed slave ends the output. *)
Lemma pty_slave_to_master_witness :
  snd (pty_master_read 0 1 None (fst (pty_slave_write 0 [104; 105] demo_ptys))) = PIPE.Return (Some [104]) /\
  snd (pty_close_master 0 demo_ptys demo_tasks) = fst (signal_send_pgrp 3 SIGHUP demo_tasks) /\
  snd (pty_slave_read 0 4 None (fst (pty_close_master 0 demo_ptys demo_tasks))) = PIPE.Return (Some []) /\
  snd (pty_master_read 0 1 None (pty_close_slave 0 demo_ptys)) = PIPE.Return (Some []).
Proof.
  destruct (pty_slave_to_master demo_ptys 0 [104; 105] demo_tasks 1 None eq_refl eq_refl demo_ok
    ltac:(vm_compute; reflexivity) ltac:(vm_compute; reflexivity) ltac:(vm_compute; split; [discriminate | reflexivity])) as (H1 & _ & H3).
  destruct (pty_slave_to_master demo_ptys 0 [] demo_tasks 4 None eq_refl eq_refl demo_ok
    ltac:(vm_compute; reflexivity) ltac:(vm_compute; reflexivity) ltac:(vm_compute; split; [discriminate | reflexivity])) as (_ & H2 & _).
  split; [| split; [| split]].
  - assert (Eo : snd (pty_slave_write 0 [104; 105] demo_ptys) = PIPE.Return 2) by (vm_compute; reflexivity).
    assert (Ep : exists out, snd (pty_master_read 0 1 None (fst (pty_slave_write 0 [104; 105] demo_ptys))) = PIPE.Return (Some out))
      by (eexists; vm_compute; reflexivity).
    destruct (pty_slave_write 0 [104; 105] demo_ptys) as [g1 o]. cbn [fst snd] in *. subst o. destruct H1 as (_ & _ & _ & k & _ & (-> & _) & H).
    destruct (pty_master_read 0 1 None g1) as [g2 o2]. destruct Ep as (out & Ep). cbn [snd] in *. subst o2. destruct H as (-> & _). vm_compute. reflexivity.
  - destruct (pty_close_master 0 demo_ptys demo_tasks) as [g1 ts1]. destruct H2 as (_ & _ & _ & H). by destruct (H eq_refl) as (-> & _).
  - destruct (pty_close_master 0 demo_ptys demo_tasks) as [g1 ts1]. destruct H2 as (_ & _ & _ & H). destruct (H eq_refl) as (_ & _ & H').
    cbn [fst]. destruct (pty_slave_read 0 4 None g1) as [g2 o]. destruct H' as (-> & _). vm_compute. reflexivity.
  - specialize (H3 eq_refl). destruct (pty_master_read 0 1 None (pty_close_slave 0 demo_ptys)) as [g2 o]. destruct H3 as (-> & _). vm_compute. reflexivity.
Defined.

(** At end of file [pty_slave_read_avail] answers 0, "would block", while the read
    itself returns at once. *)
Example eof_not_available :
  let g1 := fst (pty_close_master 0 demo_ptys demo_tasks) in
  pty_slave_read_avail 0 g1 = 0 /\ snd (pty_slave_read 0 1 None g1) = PIPE.Return (Some []).
Proof. split; vm_compute; reflexivity. Qed.

End PTY.
