(* ===== verification/Wire.v ===== *)
(** Byte order and the Internet checksum ([kernel/net.h], [ip_checksum] of
    [kernel/ip.c]).

    The machine is little-endian: a 16-bit field at offset [k] of a buffer is the
    bytes [k] and [k + 1], low byte first, and the wire order comes from [htons]
    and [htonl], as in the code. *)

From stdpp Require Import base numbers list.
From Stdlib Require Import ZArith Lia.
From S2P Require Import Prelude.

Module WIRE.

Definition htons (v : Z) : Z := u16 (Z.lor (Z.shiftr v 8) (Z.shiftl v 8)).

Definition ntohs (v : Z) : Z := htons v.

Definition htonl (v : Z) : Z :=
  Z.lor (Z.lor (Z.lor (Z.land (Z.shiftr v 24) 255) (Z.land (Z.shiftr v 8) 65280))
    (Z.land (u32 (Z.shiftl v 8)) 16711680)) (Z.land (u32 (Z.shiftl v 24)) 4278190080).

Definition ntohl (v : Z) : Z := htonl v.

(** Reading and writing a field of a buffer. *)
Definition le16 (l : list Z) (k : Z) : Z := zget l k + 256 * zget l (k + 1).

Definition le32 (l : list Z) (k : Z) : Z := le16 l k + 65536 * le16 l (k + 2).

Definition put16 (v : Z) : list Z := [u8 v; u8 (Z.shiftr v 8)].

Definition put32 (v : Z) : list Z := [u8 v; u8 (Z.shiftr v 8); u8 (Z.shiftr v 16); u8 (Z.shiftr v 24)].

Definition store16 (l : list Z) (k v : Z) : list Z := zset (zset l k (u8 v)) (k + 1) (u8 (Z.shiftr v 8)).

(** [len] bytes starting at offset [k]. *)
Definition slice (l : list Z) (k len : Z) : list Z := ztake len (zdrop k l).

(** Reading within a buffer: [None] past its end. *)
Definition rd (l : list Z) (k : Z) : option Z := if (0 <=? k) && (k <? zlen l) then Some (zget l k) else None.

Definition rd16 (l : list Z) (k : Z) : option Z := a ← rd l k; b ← rd l (k + 1); Some (a + 256 * b).

Definition rd32 (l : list Z) (k : Z) : option Z := a ← rd16 l k; b ← rd16 l (k + 2); Some (a + 65536 * b).

Definition rdn (l : list Z) (k len : Z) : option (list Z) :=
  if (0 <=? k) && (0 <=? len) && (k + len <=? zlen l) then Some (slice l k len) else None.

(** ** The checksum *)

(** The loop over 16-bit words and the trailing byte. *)
Fixpoint sum16 (l : list Z) (sum : Z) : Z :=
  match l with
  | a :: b :: l' => sum16 l' (u32 (sum + (a + 256 * b)))
  | [a] => u32 (sum + a)
  | [] => sum
  end.

(** [while (sum >> 16) ...]; [fold16_done] shows that two turns are enough. *)
Fixpoint fold16 (n : nat) (sum : Z) : Z :=
  match n with
  | O => sum
  | S n' => if Z.shiftr sum 16 =? 0 then sum else fold16 n' (u32 (Z.land sum 65535 + Z.shiftr sum 16))
  end.

Definition ip_checksum (l : list Z) : Z := u16 (Z.lnot (fold16 2 (sum16 l 0))).

(** ** Reads within a buffer *)

Lemma rd_in l k : 0 <= k < zlen l -> rd l k = Some (zget l k).
Proof. intros R. unfold rd. by rewrite (proj2 (Z.leb_le 0 k)), (proj2 (Z.ltb_lt k _)) by lia. Qed.

Lemma rd16_in l k : 0 <= k -> k + 2 <= zlen l -> rd16 l k = Some (le16 l k).
Proof. intros K R. unfold rd16. by rewrite !rd_in by lia. Qed.

Lemma rd32_in l k : 0 <= k -> k + 4 <= zlen l -> rd32 l k = Some (le32 l k).
Proof. intros K R. unfold rd32. rewrite !rd16_in by lia. done. Qed.

Lemma rdn_in l k len : 0 <= k -> 0 <= len -> k + len <= zlen l -> rdn l k len = Some (slice l k len).
Proof. intros K N R. unfold rdn. by rewrite (proj2 (Z.leb_le 0 k)), (proj2 (Z.leb_le 0 len)), (proj2 (Z.leb_le _ (zlen l))) by lia. Qed.

Lemma rdn_past l k len : 0 <= k -> 0 <= len -> zlen l < k + len -> rdn l k len = None.
Proof. intros K N R. unfold rdn. by rewrite (proj2 (Z.leb_le 0 k)), (proj2 (Z.leb_le 0 len)), (proj2 (Z.leb_gt _ (zlen l))) by lia. Qed.

(** ** Byte order *)

Lemma htons_eq v : 0 <= v < 65536 -> htons v = v / 256 + v mod 256 * 256.
Proof.
  intros R. unfold htons. rewrite Z.shiftr_div_pow2, Z.shiftl_mul_pow2 by lia. change (2 ^ 8) with 256.
  change 256 with (2 ^ 8) at 2. rewrite lor_add by (change (2 ^ 8) with 256; zdm). change (2 ^ 8) with 256. zdm.
Qed.

Lemma htons_range v : 0 <= htons v < 65536.
Proof. apply u16_range. Qed.

Lemma ntohs_htons v : 0 <= v < 65536 -> ntohs (htons v) = v.
Proof. intros R. unfold ntohs. pose proof (htons_range v). rewrite !htons_eq by (rewrite ?htons_eq in *; lia). zdm. Qed.

(** The four bytes of a 32-bit value. *)
Lemma bytes4 v : 0 <= v < 4294967296 -> exists a b c d,
  0 <= a < 256 /\ 0 <= b < 256 /\ 0 <= c < 256 /\ 0 <= d < 256 /\ v = a + 256 * b + 65536 * c + 16777216 * d /\
  v mod 256 = a /\ v / 256 mod 256 = b /\ v / 65536 mod 256 = c /\ v / 16777216 = d.
Proof.
  intros R. exists (v mod 256), (v / 256 mod 256), (v / 65536 mod 256), (v / 16777216).
  assert (E1 : v = 256 * (v / 256) + v mod 256) by (apply Z.div_mod; lia).
  assert (E2 : v / 256 = 256 * (v / 65536) + v / 256 mod 256).
  { change 65536 with (256 * 256). rewrite <- Z.div_div by lia. apply Z.div_mod. lia. }
  assert (E3 : v / 65536 = 256 * (v / 16777216) + v / 65536 mod 256).
  { change 16777216 with (65536 * 256). rewrite <- Z.div_div by lia. apply Z.div_mod. lia. }
  assert (P : forall x, 0 <= x mod 256 < 256) by (intros; by apply Z.mod_pos_bound).
  assert (0 <= v / 16777216 < 256) by (split; [apply Z.div_pos | apply Z.div_lt_upper_bound]; lia).
  split_and!; try done; try apply P; lia.
Qed.

Lemma htonl_eq v : 0 <= v < 4294967296 ->
  htonl v = v / 16777216 + v / 65536 mod 256 * 256 + v / 256 mod 256 * 65536 + v mod 256 * 16777216.
Proof.
  intros R. unfold htonl.
  change 255 with (Z.ones 8 * 2 ^ 0). change 65280 with (Z.ones 8 * 2 ^ 8).
  change 16711680 with (Z.ones 8 * 2 ^ 16). change 4278190080 with (Z.ones 8 * 2 ^ 24).
  rewrite !land_ones_shift, !Z.shiftr_div_pow2, !Z.shiftl_mul_pow2 by lia.
  change (2 ^ 0) with 1. change (2 ^ 16) with 65536; change (2 ^ 24) with 16777216; change (2 ^ 8) with 256.
  rewrite Z.div_1_r, Z.mul_1_r, (Z.div_div v 256 256) by lia. change (256 * 256) with 65536.
  destruct (bytes4 v R) as (a & b & c & d & Ra & Rb & Rc & Rd & E & Ea & Eb & Ec & Ed).
  assert (E1 : v / 16777216 mod 256 = d) by (rewrite Ed; apply Z.mod_small; lia).
  assert (E2 : u32 (v * 256) / 65536 mod 256 = b).
  { unfold u32. replace (v * 256) with (256 * a + 65536 * (b + 256 * c) + d * 4294967296) by lia.
    rewrite Z.mod_add, (Z.mod_small (_ + _) 4294967296) by lia.
    replace ((256 * a + 65536 * (b + 256 * c)) / 65536) with (b + 256 * c) by (apply (Z.div_unique _ _ _ (256 * a)); lia).
    symmetry. apply (Z.mod_unique _ _ c); lia. }
  assert (E3 : u32 (v * 16777216) / 16777216 mod 256 = a).
  { unfold u32. replace (v * 16777216) with (16777216 * a + (b + 256 * c + 65536 * d) * 4294967296) by lia.
    rewrite Z.mod_add, (Z.mod_small _ 4294967296) by lia.
    replace (16777216 * a / 16777216) with a by (apply (Z.div_unique _ _ _ 0); lia). apply Z.mod_small. lia. }
  rewrite E1, E2, E3, Ea, Eb, Ec, Ed. change 256 with (2 ^ 8) at 1. change 65536 with (2 ^ 16). change 16777216 with (2 ^ 24).
  rewrite (lor_add 8), (lor_add 16), (lor_add 24) by lia. lia.
Qed.

Lemma htonl_range v : 0 <= v < 4294967296 -> 0 <= htonl v < 4294967296.
Proof.
  intros R. rewrite htonl_eq by done. destruct (bytes4 v R) as (a & b & c & d & Ra & Rb & Rc & Rd & E & -> & -> & -> & ->). lia.
Qed.

Lemma ntohl_htonl v : 0 <= v < 4294967296 -> ntohl (htonl v) = v.
Proof.
  intros R. unfold ntohl. pose proof (htonl_range v R) as R2. rewrite (htonl_eq (htonl v)) by done.
  rewrite (htonl_eq v) in * by done. destruct (bytes4 v R) as (a & b & c & d & Ra & Rb & Rc & Rd & E & Ea & Eb & Ec & Ed).
  rewrite Ea, Eb, Ec, Ed in *. destruct (bytes4 _ R2) as (a' & b' & c' & d' & Ra' & Rb' & Rc' & Rd' & E' & -> & -> & -> & ->). lia.
Qed.

(** ** The checksum as a ones' complement sum *)

Lemma pair_ind (P : list Z -> Prop) :
  P [] -> (forall a, P [a]) -> (forall a b l, P l -> P (a :: b :: l)) -> forall l, P l.
Proof. intros P0 P1 P2. fix IH 1. intros [|a [|b l]]; [exact P0 | exact (P1 a) | exact (P2 a b l (IH l))]. Qed.

(** The sum of the 16-bit words, not truncated. *)
Fixpoint wsum (l : list Z) : Z :=
  match l with a :: b :: l' => a + 256 * b + wsum l' | [a] => a | [] => 0 end.

(** The reference: the representative in [1, 65535] of a positive sum modulo 65535. *)
Definition ones_sum (s : Z) : Z := if s =? 0 then 0 else (s - 1) mod 65535 + 1.

Lemma wsum_bound l : bytes_ok l -> 0 <= wsum l <= 32768 * (zlen l + 1).
Proof.
  revert l. apply (pair_ind (fun l => bytes_ok l -> 0 <= wsum l <= 32768 * (zlen l + 1))); cbn [wsum].
  - intros _. unfold zlen. cbn [length]. lia.
  - intros a B. apply Forall_cons in B as (Ra & _). rewrite zlen_cons. unfold zlen. cbn [length]. lia.
  - intros a b l IH B. apply Forall_cons in B as (Ra & B). apply Forall_cons in B as (Rb & B).
    rewrite !zlen_cons. specialize (IH B). lia.
Qed.

Lemma sum16_eq l : forall s, bytes_ok l -> 0 <= s -> s + wsum l < 4294967296 -> sum16 l s = s + wsum l.
Proof.
  revert l. apply (pair_ind (fun l => forall s, bytes_ok l -> 0 <= s -> s + wsum l < 4294967296 -> sum16 l s = s + wsum l));
    cbn [sum16 wsum]; intros.
  - lia.
  - rename select (bytes_ok _) into B. apply Forall_cons in B as (Ra & _). by rewrite u32_small by lia.
  - rename select (bytes_ok _) into B. apply Forall_cons in B as (Ra & B). apply Forall_cons in B as (Rb & B).
    pose proof (wsum_bound l B). rewrite u32_small, H by (done || lia). lia.
Qed.

Lemma land_shift_16 s : 0 <= s < 4294967296 ->
  u32 (Z.land s 65535 + Z.shiftr s 16) = s mod 65536 + s / 65536 /\ (Z.shiftr s 16 = 0 <-> s < 65536).
Proof.
  intros R. change 65535 with (Z.ones 16). rewrite Z.land_ones, Z.shiftr_div_pow2 by lia. change (2 ^ 16) with 65536.
  split; [apply u32_small; zdm | zdm].
Qed.

Lemma fold16_done s : 0 <= s < 4294967296 -> fold16 2 s = ones_sum s /\ Z.shiftr (fold16 2 s) 16 = 0.
Proof.
  intros R. destruct (land_shift_16 s R) as (E1 & Z1). cbn [fold16]. rewrite E1.
  pose proof (Z.mod_pos_bound s 65536 ltac:(lia)) as M. pose proof (Z.div_mod s 65536 ltac:(lia)) as D.
  assert (Q : 0 <= s / 65536 < 65536) by (split; [apply Z.div_pos | apply Z.div_lt_upper_bound]; lia).
  set (t := s mod 65536 + s / 65536) in *. assert (T : 0 <= t < 4294967296) by (unfold t; lia).
  destruct (land_shift_16 t T) as (E2 & Z2). rewrite E2.
  assert (O : ones_sum s = ones_sum t).
  { unfold ones_sum. rewrite <- (Z.mod_add (t - 1) (s / 65536)) by lia. unfold t.
    replace (s mod 65536 + s / 65536 - 1 + s / 65536 * 65535) with (s - 1) by lia.
    destruct (Z.eqb_spec s 0), (Z.eqb_spec (s mod 65536 + s / 65536) 0); try done; lia. }
  assert (F : forall x, 0 <= x < 65536 -> ones_sum x = x).
  { intros x X. unfold ones_sum. destruct (Z.eqb_spec x 0); [lia |]. rewrite Z.mod_small; lia. }
  destruct (Z.shiftr s 16 =? 0) eqn:C1; zb; [apply Z1 in C1; by rewrite F, (proj2 Z1) by lia |].
  destruct (Z.shiftr t 16 =? 0) eqn:C2; zb; [pose proof (proj1 Z2 C2); by rewrite O, F by lia |].
  assert (65536 <= t) by (destruct (decide (t < 65536)); [exfalso; tauto | lia]).
  assert (E3 : t mod 65536 = t - 65536 /\ t / 65536 = 1) by zdm. destruct E3 as (-> & ->).
  rewrite O. split.
  - unfold ones_sum. destruct (Z.eqb_spec t 0); [lia |]. replace (t - 1) with (t - 65536 + 1 * 65535) by lia.
    rewrite Z.mod_add, Z.mod_small by lia. lia.
  - rewrite Z.shiftr_div_pow2 by lia. apply Z.div_small. change (2 ^ 16) with 65536. lia.
Qed.

Lemma ones_sum_range s : 0 <= s -> 0 <= ones_sum s < 65536.
Proof. intros. unfold ones_sum. destruct (Z.eqb_spec s 0); [lia |]. pose proof (Z.mod_pos_bound (s - 1) 65535). lia. Qed.

(** [ip_checksum] is the complement of the ones' complement sum of the words. *)
Lemma ip_checksum_eq l : bytes_ok l -> zlen l <= 65536 -> ip_checksum l = 65535 - ones_sum (wsum l).
Proof.
  intros B L. pose proof (wsum_bound l B). unfold ip_checksum. rewrite sum16_eq by (done || lia).
  destruct (fold16_done (0 + wsum l) ltac:(lia)) as (-> & _). rewrite Z.add_0_l.
  pose proof (ones_sum_range (wsum l) ltac:(lia)). unfold u16, Z.lnot.
  replace (Z.pred (- ones_sum (wsum l))) with (65535 - ones_sum (wsum l) + (-1) * 65536) by lia.
  rewrite Z.mod_add by lia. apply Z.mod_small. lia.
Qed.

Lemma ip_checksum_range l : 0 <= ip_checksum l < 65536.
Proof. apply u16_range. Qed.

Lemma zset_cons (x : Z) l i b : 0 <= i -> zset (x :: l) i b = if i =? 0 then b :: l else x :: zset l (i - 1) b.
Proof.
  intros I. unfold zset. destruct (Z.eqb_spec i 0) as [-> |]; [done |].
  by replace (Z.to_nat i) with (S (Z.to_nat (i - 1))) by lia.
Qed.

Lemma zget_cons (x : Z) l i : 0 <= i -> zget (x :: l) i = if i =? 0 then x else zget l (i - 1).
Proof.
  intros I. unfold zget. destruct (Z.eqb_spec i 0) as [-> |]; [done |].
  by replace (Z.to_nat i) with (S (Z.to_nat (i - 1))) by lia.
Qed.

Lemma wsum_zset l : forall i b, 0 <= i < zlen l ->
  wsum (zset l i b) = wsum l + (b - zget l i) * (if Z.even i then 1 else 256).
Proof.
  revert l. apply (pair_ind (fun l => forall i b, 0 <= i < zlen l ->
    wsum (zset l i b) = wsum l + (b - zget l i) * (if Z.even i then 1 else 256))).
  - intros i b R. unfold zlen in R. cbn [length] in R. lia.
  - intros a i b R. unfold zlen in R. cbn [length] in R. replace i with 0 by lia. change (zset [a] 0 b) with [b]. change (zget [a] 0) with a. cbn [wsum Z.even]. lia.
  - intros a b l IH i v R. rewrite !zlen_cons in R.
    destruct (decide (i = 0)) as [-> |]; [change (zset (a :: b :: l) 0 v) with (v :: b :: l); change (zget (a :: b :: l) 0) with a; cbn [wsum Z.even]; lia |].
    destruct (decide (i = 1)) as [-> |]; [change (zset (a :: b :: l) 1 v) with (a :: v :: l); change (zget (a :: b :: l) 1) with b; cbn [wsum Z.even]; lia |].
    rewrite !zset_cons, !zget_cons by lia. rewrite !(proj2 (Z.eqb_neq _ 0)) by lia. cbn [wsum].
    replace (i - 1 - 1) with (i - 2) by lia. rewrite IH by lia.
    replace (Z.even (i - 2)) with (Z.even i) by (rewrite Z.even_sub; by destruct (Z.even i)). lia.
Qed.

Lemma byte_range l i : bytes_ok l -> 0 <= zget l i < 256.
Proof.
  intros B. destruct (decide (Z.to_nat i < length l)%nat) as [L |].
  - apply lookup_lt_is_Some_2 in L as (x & E). rewrite (zget_lookup _ _ _ E). by apply (Forall_lookup_1 _ _ _ _ B E).
  - unfold zget. rewrite list_lookup_total_alt, lookup_ge_None_2 by lia. cbn. lia.
Qed.

Lemma byte_zset l i b : bytes_ok l -> 0 <= b < 256 -> bytes_ok (zset l i b).
Proof. intros. by apply Forall_insert. Qed.

Lemma bytes_ok_app l1 l2 : bytes_ok (l1 ++ l2) <-> bytes_ok l1 /\ bytes_ok l2.
Proof. apply Forall_app. Qed.

Lemma bytes_ok_store16 l k v : bytes_ok l -> bytes_ok (store16 l k v).
Proof. intros. unfold store16. repeat apply byte_zset; try done; apply u8_range. Qed.

Lemma wsum_store16 l k v : bytes_ok l -> 0 <= v < 65536 -> 0 <= k -> Z.even k = true -> k + 2 <= zlen l -> le16 l k = 0 ->
  wsum (store16 l k v) = wsum l + v.
Proof.
  intros B V K E L Z0. unfold le16 in Z0. pose proof (byte_range l k B). pose proof (byte_range l (k + 1) B).
  unfold store16. rewrite !wsum_zset, zget_zset_ne by (rewrite ?zlen_zset; lia).
  replace (Z.even (k + 1)) with false by (rewrite Z.even_add, E; done). rewrite E.
  rewrite Z.shiftr_div_pow2 by lia. change (2 ^ 8) with 256. replace (zget l k) with 0 by lia. replace (zget l (k + 1)) with 0 by lia.
  unfold u8. zdm.
Qed.

(** The checksum of a message whose checksum field is zero, stored in that field,
    makes the whole message verify. *)
Lemma checksum_fill l k : bytes_ok l -> zlen l <= 65536 -> 0 <= k -> Z.even k = true -> k + 2 <= zlen l -> le16 l k = 0 ->
  ip_checksum (store16 l k (ip_checksum l)) = 0.
Proof.
  intros B Le K E L Z0. pose proof (ip_checksum_range l) as C. rewrite ip_checksum_eq.
  2: by apply bytes_ok_store16. 2: unfold store16; by rewrite !zlen_zset.
  rewrite wsum_store16 by done. rewrite ip_checksum_eq by done. pose proof (wsum_bound l B) as W. unfold ones_sum.
  destruct (Z.eqb_spec (wsum l) 0) as [-> |]; [done |].
  pose proof (Z.mod_pos_bound (wsum l - 1) 65535 ltac:(lia)). rewrite (proj2 (Z.eqb_neq _ 0)) by lia.
  pose proof (Z.div_mod (wsum l - 1) 65535 ltac:(lia)) as D.
  replace (wsum l + (65535 - ((wsum l - 1) mod 65535 + 1)) - 1) with (65534 + (wsum l - 1) / 65535 * 65535) by lia.
  rewrite Z.mod_add by lia. done.
Qed.

(** A message that verifies has a sum divisible by 65535. *)
Lemma verifies_divides l : bytes_ok l -> zlen l <= 65536 -> ip_checksum l = 0 -> exists q, wsum l = q * 65535.
Proof.
  intros B L E. rewrite ip_checksum_eq in E by done. unfold ones_sum in E. pose proof (wsum_bound l B).
  destruct (Z.eqb_spec (wsum l) 0); [lia |]. pose proof (Z.div_mod (wsum l - 1) 65535 ltac:(lia)).
  exists ((wsum l - 1) / 65535 + 1). lia.
Qed.

(** C18. [ip_checksum] is the complement of the ones' complement sum of the 16-bit
    words of the message (two carry folds are always enough).  A message whose
    zeroed checksum field receives its own checksum verifies, and from then on no
    single corrupted byte, the checksum field included, goes undetected. *)
Theorem checksum_correct l k i b :
  bytes_ok l -> zlen l <= 65536 -> 0 <= k -> Z.even k = true -> k + 2 <= zlen l -> le16 l k = 0 ->
  0 <= i < zlen l -> 0 <= b < 256 ->
  let l' := store16 l k (ip_checksum l) in
  ip_checksum l = 65535 - ones_sum (wsum l) /\ ip_checksum l' = 0 /\
  (b <> zget l' i -> ip_checksum (zset l' i b) <> 0).
Proof.
  intros B L K E K2 Z0 I Rb l'. split; [by apply ip_checksum_eq |]. split; [by apply checksum_fill |].
  intros Ne C. assert (B' : bytes_ok l') by by apply bytes_ok_store16.
  assert (L' : zlen l' = zlen l) by (unfold l', store16; by rewrite !zlen_zset).
  destruct (verifies_divides l' B' ltac:(lia) (checksum_fill l k B L K E K2 Z0)) as (q & Eq).
  destruct (verifies_divides (zset l' i b)) as (q' & Eq'); [by apply byte_zset | rewrite zlen_zset; lia | done |].
  rewrite wsum_zset in Eq' by lia. pose proof (byte_range l' i B'). destruct (Z.even i); nia.
Qed.

Lemma checksum_correct_witness :
  let l := [69; 0; 0; 28; 0; 1; 0; 0; 64; 17; 0; 0; 10; 0; 2; 15; 10; 0; 2; 2] in
  let l' := store16 l 10 (ip_checksum l) in
  ip_checksum l' = 0 /\ ip_checksum (zset l' 8 63) <> 0.
Proof.
  intros l l'.
  assert (B : bytes_ok l) by (repeat constructor; discriminate || reflexivity).
  destruct (checksum_correct l 10 8 63 B ltac:(discriminate) ltac:(discriminate) eq_refl ltac:(discriminate) eq_refl
    ltac:(split; [discriminate | reflexivity]) ltac:(split; [discriminate | reflexivity])) as (_ & H1 & H2).
  split; [exact H1 |]. apply H2. vm_compute. discriminate.
Defined.

End WIRE.
