(* ===== verification/Net.v ===== *)
(** Ethernet, ARP, IP, ICMP and UDP ([kernel/net.c], [eth.c], [arp.c], [ip.c],
    [icmp.c], [udp.c]).

    The state holds the globals of these files; [T] is the state of the TCP layer
    above and [W] that of the devices below.  A network driver, the TCP receiver,
    the UDP callbacks and the clock are parameters, so that the calls of
    [ip_send] back into the receivers (loopback) are the code's own recursion,
    closed in [Tcp].  Frames are byte lists; addresses are lists of 4 and 6 bytes.
    A receiver returns [None] when it reads past the end of the frame. *)

From stdpp Require Import base numbers list sets.
From Stdlib Require Import ZArith Lia.
From S2P Require Import Prelude Wire.

Module NET.
Import WIRE.

Definition IP_PROTO_ICMP : Z := 1.
Definition IP_PROTO_TCP : Z := 6.
Definition IP_PROTO_UDP : Z := 17.
Definition ETH_TYPE_IPV4 : Z := 2048.
Definition ETH_TYPE_ARP : Z := 2054.
Definition ETH_MTU : Z := 1500.
Definition ARP_CACHE_SIZE : Z := 16.
Definition ARP_HW_ETHERNET : Z := 1.
Definition ARP_PROTO_IPV4 : Z := 2048.
Definition ARP_OP_REQUEST : Z := 1.
Definition ARP_OP_REPLY : Z := 2.
Definition ICMP_ECHO_REPLY : Z := 0.
Definition ICMP_ECHO_REQUEST : Z := 8.
Definition UDP_MAX_LISTENERS : Z := 4.

Definition g_mac_broadcast : list Z := [255; 255; 255; 255; 255; 255].

(** The fields as they lie in memory: 16-bit ones in wire order. *)
Record ip_hdr := Ip_hdr {
  ver_ihl : Z; tos : Z; total_len : Z; id : Z; flags_frag : Z; ttl : Z; proto : Z; csum : Z;
  src : list Z; dst : list Z }.

Record arp_entry := Arp_entry { used : bool; ip : list Z; mac : list Z }.

#[global] Instance arp_entry_inhabited : Inhabited arp_entry := populate (Arp_entry false [] []).

(** A UDP listener; the callback 0 is the null pointer. *)
Record listener := Listener { port : Z; cb : Z }.

#[global] Instance listener_inhabited : Inhabited listener := populate (Listener 0 0).

(** The addresses of the host and its link. *)
Record config := Config {
  g_my_mac : list Z; g_my_ip : list Z; g_gateway_ip : list Z; g_subnet_mask : list Z;
  g_net_up : bool; g_nic_send : option nat }.

Record ping := Ping { g_ping_received : Z; g_ping_last_seq : Z; g_ping_last_tick : Z }.

Record net (T W : Type) := Net {
  conf : config; g_cache : list arp_entry; g_ip_id : Z; g_listeners : list listener; pinged : ping;
  tcp : T; world : W }.

Arguments Net {T W}. Arguments conf {T W}. Arguments g_cache {T W}. Arguments g_ip_id {T W}.
Arguments g_listeners {T W}. Arguments pinged {T W}. Arguments tcp {T W}. Arguments world {T W}.

(** A network driver: [drv_init] probes the device and reports its address. *)
Record driver (W : Type) := Driver { drv_init : W -> W * option (list Z); drv_send : list Z -> W -> W * Z }.

Arguments Driver {W}. Arguments drv_init {W}. Arguments drv_send {W}.

Section Stack.
Context {T W : Type} (drivers : list (driver W)).
Context (tcp_rx : ip_hdr -> list Z -> Z -> net T W -> option (net T W)).
Context (udp_cb : Z -> list Z -> Z -> list Z -> net T W -> net T W) (pit_ticks : W -> Z).
Implicit Types n : net T W.

Definition set_conf n (c : config) : net T W := Net c (g_cache n) (g_ip_id n) (g_listeners n) (pinged n) (tcp n) (world n).
Definition set_cache n c : net T W := Net (conf n) c (g_ip_id n) (g_listeners n) (pinged n) (tcp n) (world n).
Definition set_ip_id n i : net T W := Net (conf n) (g_cache n) i (g_listeners n) (pinged n) (tcp n) (world n).
Definition set_listeners n l : net T W := Net (conf n) (g_cache n) (g_ip_id n) l (pinged n) (tcp n) (world n).
Definition set_pinged n p : net T W := Net (conf n) (g_cache n) (g_ip_id n) (g_listeners n) p (tcp n) (world n).
Definition set_tcp n t : net T W := Net (conf n) (g_cache n) (g_ip_id n) (g_listeners n) (pinged n) t (world n).
Definition set_world n w : net T W := Net (conf n) (g_cache n) (g_ip_id n) (g_listeners n) (pinged n) (tcp n) w.

Definition my_ip n : list Z := g_my_ip (conf n).

(** ** net.c *)

(** The probes of [net_init], in order; the first device that answers is used. *)
Fixpoint probe (k : nat) (ds : list (driver W)) n : net T W :=
  match ds with
  | [] => n
  | d :: ds' =>
      let '(w, r) := drv_init d (world n) in
      let n := set_world n w in
      match r with
      | Some m => let c := conf n in set_conf n (Config m (g_my_ip c) (g_gateway_ip c) (g_subnet_mask c) true (Some k))
      | None => probe (S k) ds' n
      end
  end.

Definition net_init n : net T W := probe 0 drivers n.

Definition net_send_frame (frame : list Z) n : net T W * Z :=
  match g_nic_send (conf n) with
  | Some k =>
      match drivers !! k with
      | Some d => if negb (g_net_up (conf n)) then (n, -1) else
          let '(w, rc) := drv_send d frame (world n) in (set_world n w, rc)
      | None => (n, -1)
      end
  | None => (n, -1)
  end.

Definition net_is_local (a : list Z) n : bool :=
  forallb (fun i => Z.land (zget a i) (zget (g_subnet_mask (conf n)) i) =? Z.land (zget (my_ip n) i) (zget (g_subnet_mask (conf n)) i))
    [0; 1; 2; 3].

(** ** eth.c *)

Definition eth_frame (to from : list Z) (ethertype : Z) (payload : list Z) : list Z :=
  to ++ from ++ put16 (htons ethertype) ++ payload.

Definition eth_send (to : list Z) (ethertype : Z) (payload : list Z) n : net T W * Z :=
  if ETH_MTU <? zlen payload then (n, -1) else
  let '(n, rc) := net_send_frame (eth_frame to (g_my_mac (conf n)) ethertype payload) n in
  (n, if 0 <=? rc then 0 else -1).

(** ** arp.c *)

Definition ip_eq (a b : list Z) : bool := forallb (fun i => zget a i =? zget b i) [0; 1; 2; 3].

Definition arp_cache_insert (a m : list Z) n : net T W :=
  let c := g_cache n in
  match zfind (Z.to_nat ARP_CACHE_SIZE) 0 (fun i => used (zget c i) && ip_eq (ip (zget c i)) a) with
  | Some i => set_cache n (zset c i (Arp_entry true (ip (zget c i)) m))
  | None =>
      match zfind (Z.to_nat ARP_CACHE_SIZE) 0 (fun i => negb (used (zget c i))) with
      | Some i => set_cache n (zset c i (Arp_entry true a m))
      | None => set_cache n (zset c 0 (Arp_entry (used (zget c 0)) a m))
      end
  end.

Definition arp_lookup (a : list Z) n : option (list Z) :=
  match zfind (Z.to_nat ARP_CACHE_SIZE) 0 (fun i => used (zget (g_cache n) i) && ip_eq (ip (zget (g_cache n) i)) a) with
  | Some i => Some (mac (zget (g_cache n) i))
  | None => None
  end.

Definition arp_pkt (opcode : Z) (smac sip tmac tip : list Z) : list Z :=
  put16 (htons ARP_HW_ETHERNET) ++ put16 (htons ARP_PROTO_IPV4) ++ [6; 4] ++ put16 (htons opcode) ++
  smac ++ sip ++ tmac ++ tip.

Definition arp_send_request (target : list Z) n : net T W * Z :=
  eth_send g_mac_broadcast ETH_TYPE_ARP
    (arp_pkt ARP_OP_REQUEST (g_my_mac (conf n)) (my_ip n) [0; 0; 0; 0; 0; 0] target) n.

Definition arp_send_reply (to_mac to_ip : list Z) n : net T W * Z :=
  eth_send to_mac ETH_TYPE_ARP (arp_pkt ARP_OP_REPLY (g_my_mac (conf n)) (my_ip n) to_mac to_ip) n.

Definition arp_rx (p : list Z) n : option (net T W) :=
  if zlen p <? 28 then Some n else
  hw ← rd16 p 0; if negb (ntohs hw =? ARP_HW_ETHERNET) then Some n else
  pt ← rd16 p 2; if negb (ntohs pt =? ARP_PROTO_IPV4) then Some n else
  smac ← rdn p 8 6; sip ← rdn p 14 4;
  let n := arp_cache_insert sip smac n in
  op ← rd16 p 6;
  if ntohs op =? ARP_OP_REQUEST then
    tip ← rdn p 24 4; Some (if ip_eq tip (my_ip n) then fst (arp_send_reply smac sip n) else n)
  else Some n.

(** ** udp.c *)

Definition udp_init n : net T W :=
  set_listeners n (zfor (Z.to_nat UDP_MAX_LISTENERS) 0 (fun i l => zset l i (Listener 0 (cb (zget l i)))) (g_listeners n)).

Definition udp_listen (p c : Z) n : net T W * Z :=
  if p =? 0 then (n, -1) else
  let l := g_listeners n in
  match zfind (Z.to_nat UDP_MAX_LISTENERS) 0 (fun i => port (zget l i) =? p) with
  | Some i => (set_listeners n (zset l i (Listener (port (zget l i)) c)), 0)
  | None =>
      match zfind (Z.to_nat UDP_MAX_LISTENERS) 0 (fun i => port (zget l i) =? 0) with
      | Some i => (set_listeners n (zset l i (Listener p c)), 0)
      | None => (n, -1)
      end
  end.

(** The buffer both transport checksums run over. *)
Definition pseudo (s d : list Z) (pr : Z) (seg : list Z) : list Z :=
  s ++ d ++ [0; pr; u8 (Z.shiftr (zlen seg) 8); u8 (zlen seg)] ++ seg.

Definition udp_checksum (s d seg : list Z) : Z :=
  if 1500 <? zlen seg then 0 else
  let c := ip_checksum (pseudo s d IP_PROTO_UDP seg) in if c =? 0 then 65535 else c.

(** [len] is the length the caller passes, [seg] what lies there; the callback may read its whole buffer. *)
Definition udp_rx (h : ip_hdr) (seg : list Z) (len : Z) n : option (net T W) :=
  if len <? 8 then Some n else
  dp ← rd16 seg 2; sp ← rd16 seg 0; ul ← rd16 seg 4;
  let dst_port := ntohs dp in
  let src_port := ntohs sp in
  let udp_len := ntohs ul in
  if len <? udp_len then Some n else
  if udp_len <? 8 then Some n else
  let l := g_listeners n in
  match zfind (Z.to_nat UDP_MAX_LISTENERS) 0 (fun i => (port (zget l i) =? dst_port) && negb (cb (zget l i) =? 0)) with
  | Some i => payload ← rdn seg 8 (udp_len - 8); Some (udp_cb (cb (zget l i)) (src h) src_port payload n)
  | None => Some n
  end.

(** ** ip.c *)

Definition is_ip_broadcast (a : list Z) : bool := forallb (fun i => zget a i =? 255) [0; 1; 2; 3].

Definition we_have_ip n : bool := existsb (fun i => negb (zget (my_ip n) i =? 0)) [0; 1; 2; 3].

(** The result is [None] when the packet is not for this host.  A segment the host sends itself is as long as it says, so
    its receiver does not read past it ([udp_rx_in_range], [TCP.tcp_rx_in_range]) and the default is not used. *)
Definition try_loopback (d : list Z) (pr : Z) (payload : list Z) n : option (net T W) :=
  let is_lo := zget d 0 =? 127 in
  let is_us := we_have_ip n && ip_eq d (my_ip n) in
  if negb is_lo && negb is_us then None else
  let h := Ip_hdr 69 0 (htons (u16 (20 + zlen payload))) 0 0 64 pr 0 d d in
  Some (if pr =? IP_PROTO_TCP then default n (tcp_rx h payload (zlen payload) n)
        else if pr =? IP_PROTO_UDP then default n (udp_rx h payload (zlen payload) n)
        else n).

(** The 20 bytes of a header. *)
Definition ip_bytes (h : ip_hdr) : list Z :=
  [ver_ihl h; tos h] ++ put16 (total_len h) ++ put16 (id h) ++ put16 (flags_frag h) ++ [ttl h; proto h] ++ put16 (csum h) ++
  src h ++ dst h.

Definition ip_hdr_at (p : list Z) : ip_hdr :=
  Ip_hdr (zget p 0) (zget p 1) (le16 p 2) (le16 p 4) (le16 p 6) (zget p 8) (zget p 9) (le16 p 10) (slice p 12 4) (slice p 16 4).

(** The fields of a received header, each read from the packet. *)
Definition rd_hdr (p : list Z) : option ip_hdr :=
  v ← rd p 0; t ← rd p 1; tl ← rd16 p 2; i ← rd16 p 4; ff ← rd16 p 6; tt ← rd p 8; pr ← rd p 9; cs ← rd16 p 10;
  s ← rdn p 12 4; d ← rdn p 16 4; Some (Ip_hdr v t tl i ff tt pr cs s d).

Definition ip_send (d : list Z) (pr : Z) (payload : list Z) n : net T W * Z :=
  let len := zlen payload in
  if 1500 - 20 <? len then (n, -1) else
  match try_loopback d pr payload n with
  | Some n => (n, 0)
  | None =>
      let nexthop := if net_is_local d n then d else g_gateway_ip (conf n) in
      match (if is_ip_broadcast d then Some g_mac_broadcast else arp_lookup nexthop n) with
      | None => (fst (arp_send_request nexthop n), -2)
      | Some m =>
          let n := set_ip_id n (u16 (g_ip_id n + 1)) in
          let h := Ip_hdr 69 0 (htons (u16 (20 + len))) (htons (g_ip_id n)) 0 64 pr 0 (my_ip n) d in
          let buf := store16 (ip_bytes h) 10 (ip_checksum (ip_bytes h)) in
          eth_send m ETH_TYPE_IPV4 (buf ++ payload) n
      end
  end.

(** ** icmp.c *)

Definition icmp_rx (h : ip_hdr) (payload : list Z) (len : Z) n : option (net T W) :=
  if len <? 8 then Some n else
  msg ← rdn payload 0 len;
  if negb (ip_checksum msg =? 0) then Some n else
  ty ← rd payload 0;
  if ty =? ICMP_ECHO_REQUEST then
    if 1500 <? len then Some n else
    let out := store16 (zset msg 0 ICMP_ECHO_REPLY) 2 0 in
    let out := store16 out 2 (ip_checksum out) in
    Some (fst (ip_send (src h) IP_PROTO_ICMP out n))
  else if ty =? ICMP_ECHO_REPLY then
    s ← rd16 payload 6; Some (set_pinged n (Ping 1 (ntohs s) (pit_ticks (world n))))
  else Some n.

(** The filler of a request. *)
Definition echo_pattern : list Z := map (fun k => u8 (64 + Z.of_nat k)) (seq 0 32).

Definition icmp_send_echo (d : list Z) (i s : Z) n : net T W * Z :=
  let buf := [ICMP_ECHO_REQUEST; 0] ++ put16 0 ++ put16 (htons i) ++ put16 (htons s) ++ echo_pattern in
  ip_send d IP_PROTO_ICMP (store16 buf 2 (ip_checksum buf)) n.

(** ** Receiving *)

Definition ip_rx (p : list Z) n : option (net T W) :=
  let len := zlen p in
  if len <? 20 then Some n else
  h ← rd_hdr p;
  if negb (Z.shiftr (ver_ihl h) 4 =? 4) then Some n else
  let ihl := Z.land (ver_ihl h) 15 * 4 in
  if ihl <? 20 then Some n else
  if len <? ntohs (total_len h) then Some n else
  let matches_us := we_have_ip n && ip_eq (dst h) (my_ip n) in
  if negb matches_us && negb (is_ip_broadcast (dst h)) && we_have_ip n then Some n else
  let body := zdrop ihl p in
  let blen := u32 (ntohs (total_len h) - ihl) in
  if proto h =? IP_PROTO_ICMP then icmp_rx h body blen n
  else if proto h =? IP_PROTO_TCP then tcp_rx h body (s32 blen) n
  else if proto h =? IP_PROTO_UDP then udp_rx h body (s32 blen) n
  else Some n.

Definition eth_rx (frame : list Z) n : option (net T W) :=
  if zlen frame <? 14 then Some n else
  ty ← rd16 frame 12;
  let et := ntohs ty in
  let payload := zdrop 14 frame in
  if et =? ETH_TYPE_ARP then arp_rx payload n
  else if et =? ETH_TYPE_IPV4 then ip_rx payload n
  else Some n.

Definition net_rx_frame (frame : list Z) n : option (net T W) := eth_rx frame n.

Definition udp_send (d : list Z) (sp dp : Z) (data : list Z) n : net T W * Z :=
  if 1500 - 8 <? zlen data then (n, -1) else
  let buf := put16 (htons sp) ++ put16 (htons dp) ++ put16 (htons (u16 (8 + zlen data))) ++ put16 0 ++ data in
  ip_send d IP_PROTO_UDP (store16 buf 6 (udp_checksum (my_ip n) d buf)) n.

End Stack.

(** ** Fields of a buffer *)

Lemma zdrop_app_at (l1 l2 : list Z) k : zlen l1 = k -> zdrop k (l1 ++ l2) = l2.
Proof. intros <-. unfold zdrop, zlen. rewrite Nat2Z.id. apply drop_app_length. Qed.

Lemma ztake_app_at (l1 l2 : list Z) k : zlen l1 = k -> ztake k (l1 ++ l2) = l1.
Proof. intros <-. unfold ztake, zlen. rewrite Nat2Z.id. apply take_app_length. Qed.

Lemma slice_at (l1 m l2 : list Z) k len : zlen l1 = k -> zlen m = len -> slice (l1 ++ m ++ l2) k len = m.
Proof. intros L1 L2. unfold slice. by rewrite (zdrop_app_at l1), (ztake_app_at m). Qed.

Lemma le16_put16 v l k : 0 <= v < 65536 -> 0 <= k -> le16 (put16 v ++ l) 0 = v.
Proof.
  intros V K. change (u8 v + 256 * u8 (Z.shiftr v 8) = v). rewrite Z.shiftr_div_pow2 by lia. change (2 ^ 8) with 256. zdm.
Qed.

Lemma le16_app_r (l1 l2 : list Z) k : zlen l1 <= k -> le16 (l1 ++ l2) k = le16 l2 (k - zlen l1).
Proof. intros. unfold le16. rewrite !zget_app_r by lia. by replace (k + 1 - zlen l1) with (k - zlen l1 + 1) by lia. Qed.

Lemma le16_at (l1 l2 : list Z) v k : 0 <= v < 65536 -> zlen l1 = k -> le16 (l1 ++ put16 v ++ l2) k = v.
Proof. intros V L. rewrite le16_app_r, L, Z.sub_diag by lia. by apply (le16_put16 v l2 0). Qed.

Lemma bytes_ok_put16 v : bytes_ok (put16 v).
Proof. repeat constructor; apply u8_range. Qed.

Lemma four (l : list Z) : zlen l = 4 -> exists a b c d, l = [a; b; c; d].
Proof.
  unfold zlen. intros L. destruct l as [|a [|b [|c [|d [|e l]]]]]; cbn [length] in L; try lia. by exists a, b, c, d.
Qed.

Lemma ip_eq_refl a : ip_eq a a = true.
Proof. unfold ip_eq. cbn. by rewrite !Z.eqb_refl. Qed.

Lemma ip_eq_spec a b : zlen a = 4 -> zlen b = 4 -> (ip_eq a b = true <-> a = b).
Proof.
  intros La Lb. split; [| intros ->; apply ip_eq_refl]. intros E.
  destruct (four a La) as (a0 & a1 & a2 & a3 & ->), (four b Lb) as (b0 & b1 & b2 & b3 & ->).
  unfold ip_eq in E. cbn [forallb] in E. rewrite !andb_true_iff in E. destruct E as (E0 & E1 & E2 & E3 & _). zb.
  change (a0 = b0) in E0. change (a1 = b1) in E1. change (a2 = b2) in E2. change (a3 = b3) in E3. by subst.
Qed.

(** ** The header *)

Definition hdr_ok (h : ip_hdr) : Prop :=
  (forall v, v ∈ [ver_ihl h; tos h; ttl h; proto h] -> 0 <= v < 256) /\
  (forall v, v ∈ [total_len h; id h; flags_frag h; csum h] -> 0 <= v < 65536) /\
  zlen (src h) = 4 /\ bytes_ok (src h) /\ zlen (dst h) = 4 /\ bytes_ok (dst h).

Definition with_csum (h : ip_hdr) (c : Z) : ip_hdr :=
  Ip_hdr (ver_ihl h) (tos h) (total_len h) (id h) (flags_frag h) (ttl h) (proto h) c (src h) (dst h).

Lemma ip_bytes_len h : zlen (src h) = 4 -> zlen (dst h) = 4 -> zlen (ip_bytes h) = 20.
Proof. intros L1 L2. unfold ip_bytes. rewrite !zlen_app, L1, L2. done. Qed.

Lemma ip_bytes_ok h : hdr_ok h -> bytes_ok (ip_bytes h).
Proof.
  intros (B & _ & _ & B1 & _ & B2). unfold ip_bytes. rewrite !bytes_ok_app. split_and!; try done; try apply bytes_ok_put16;
    repeat (apply Forall_cons_2; [apply B; set_solver |]); apply Forall_nil_2.
Qed.

Lemma rd_hdr_in p : 20 <= zlen p -> rd_hdr p = Some (ip_hdr_at p).
Proof. intros L. unfold rd_hdr. by rewrite !rd_in, !rd16_in, !rdn_in by lia. Qed.

(** Encoding a header and decoding it again. *)
Lemma ip_hdr_round_trip h c payload : hdr_ok h -> 0 <= c < 65536 ->
  ip_hdr_at (store16 (ip_bytes h) 10 c ++ payload) = with_csum h c.
Proof.
  intros (_ & B & L1 & _ & L2 & _) C. destruct h as [v t tl i ff tt pr cs s d]. cbn [src dst ver_ihl tos total_len id flags_frag ttl proto csum] in *.
  destruct (four s L1) as (s0 & s1 & s2 & s3 & ->), (four d L2) as (d0 & d1 & d2 & d3 & ->).
  assert (E : forall v, 0 <= v < 65536 -> u8 v + 256 * u8 (Z.shiftr v 8) = v) by (intros x X; apply (le16_put16 x [] 0); lia).
  assert (Bt : 0 <= tl < 65536 /\ 0 <= i < 65536 /\ 0 <= ff < 65536) by (split_and!; apply B; set_solver).
  destruct Bt as (Bt & Bi & Bf). unfold ip_hdr_at, with_csum.
  f_equal; first [reflexivity | exact (E tl Bt) | exact (E i Bi) | exact (E ff Bf) | exact (E c C)].
Qed.

(** ** The ARP cache *)

Section Proofs.
Context {T W : Type} (drivers : list (driver W)).
Context (tcp_rx : ip_hdr -> list Z -> Z -> net T W -> option (net T W)).
Context (udp_cb : Z -> list Z -> Z -> list Z -> net T W -> net T W) (pit_ticks : W -> Z).
Implicit Types n A B : net T W.

Local Abbreviation ip_send := (ip_send drivers tcp_rx udp_cb).
Local Abbreviation eth_rx := (eth_rx drivers tcp_rx udp_cb pit_ticks).

(** A cache entry just learnt is the one found, whatever the cache held. *)
Lemma arp_lookup_insert a m n : zlen (g_cache n) = ARP_CACHE_SIZE ->
  arp_lookup a (arp_cache_insert a m n) = Some m.
Proof.
  intros L. unfold ARP_CACHE_SIZE in L. unfold arp_cache_insert. set (c := g_cache n) in *.
  destruct (zfind _ 0 (fun i => used (zget c i) && ip_eq (ip (zget c i)) a)) as [i|] eqn:F1;
    [| destruct (zfind _ 0 (fun i => negb (used (zget c i)))) as [i|] eqn:F2].
  - apply zfind_Some in F1 as (R & P & F). change (Z.of_nat (Z.to_nat ARP_CACHE_SIZE)) with 16 in R.
    apply andb_true_iff in P as (P1 & P2). unfold arp_lookup. cbn [g_cache set_cache].
    rewrite (zfind_least _ _ _ i); [by rewrite zget_zset_eq by lia | done | rewrite zget_zset_eq by lia; exact P2 |].
    intros k K. rewrite zget_zset_ne by lia. by apply F.
  - apply zfind_Some in F2 as (R & P & F). change (Z.of_nat (Z.to_nat ARP_CACHE_SIZE)) with 16 in R. rewrite zfind_None in F1.
    unfold arp_lookup. cbn [g_cache set_cache].
    rewrite (zfind_least _ _ _ i); [by rewrite zget_zset_eq by lia | done | rewrite zget_zset_eq by lia; apply ip_eq_refl |].
    intros k K. rewrite zget_zset_ne by lia. apply F1. change (Z.of_nat (Z.to_nat ARP_CACHE_SIZE)) with 16. lia.
  - rewrite zfind_None in F2. specialize (F2 0 ltac:(split; [done | reflexivity])). apply negb_false_iff in F2.
    unfold arp_lookup. cbn [g_cache set_cache].
    rewrite (zfind_least _ _ _ 0); [by rewrite zget_zset_eq by lia | split; [done | reflexivity] | rewrite zget_zset_eq by lia; cbn [used ip]; by rewrite F2, ip_eq_refl | lia].
Qed.

Lemma arp_cache_insert_frame a m n : exists c, arp_cache_insert a m n = set_cache n c /\ zlen c = zlen (g_cache n).
Proof. unfold arp_cache_insert. repeat cases; eexists; (split; [reflexivity | apply zlen_zset]). Qed.

(** ** The link

    What the stack relies on of a driver: the frames it is given go out, one by
    one and in order. *)

Context (sent : W -> list (list Z)) (nic : nat) (drv : driver W).
Hypothesis nic_drv : drivers !! nic = Some drv.
Hypothesis nic_sends : forall f w, sent (fst (drv_send drv f w)) = sent w ++ [f] /\ 0 <= snd (drv_send drv f w).

Definition addr_ok (a : list Z) : Prop := zlen a = 4 /\ bytes_ok a.

(** A host whose link is up. *)
Definition host_ok n : Prop :=
  g_net_up (conf n) = true /\ g_nic_send (conf n) = Some nic /\ zlen (g_my_mac (conf n)) = 6 /\ bytes_ok (g_my_mac (conf n)) /\
  addr_ok (my_ip n) /\ zlen (g_cache n) = ARP_CACHE_SIZE.

(** [n'] is [n] after sending [frames]: only the device, the packet counter and the
    ARP cache may differ. *)
Definition sends n n' (frames : list (list Z)) : Prop :=
  sent (world n') = sent (world n) ++ frames /\ conf n' = conf n /\ zlen (g_cache n') = zlen (g_cache n) /\
  g_listeners n' = g_listeners n /\ pinged n' = pinged n /\ tcp n' = tcp n.

Lemma sends_trans n1 n2 n3 f1 f2 : sends n1 n2 f1 -> sends n2 n3 f2 -> sends n1 n3 (f1 ++ f2).
Proof.
  intros (A1 & A2 & A3 & A4 & A5 & A6) (B1 & B2 & B3 & B4 & B5 & B6).
  split_and!; try congruence. by rewrite B1, A1, app_assoc.
Qed.

Lemma host_ok_sends n n' f : host_ok n -> sends n n' f -> host_ok n'.
Proof. intros H (_ & E & C & _). unfold host_ok, my_ip in *. by rewrite E, C. Qed.

Lemma host_ok_cache n c : host_ok n -> zlen c = zlen (g_cache n) -> host_ok (set_cache n c).
Proof. intros (H1 & H2 & H3 & H4 & H5 & H6) E. unfold host_ok, my_ip in *. cbn [conf g_cache set_cache]. by rewrite E. Qed.

Lemma eth_send_frame to et payload n : host_ok n -> zlen payload <= ETH_MTU ->
  let '(n', rc) := eth_send drivers to et payload n in
  rc = 0 /\ g_cache n' = g_cache n /\ sends n n' [eth_frame to (g_my_mac (conf n)) et payload].
Proof.
  intros (U & K & _) L. unfold eth_send. rewrite (proj2 (Z.ltb_ge _ _)) by lia.
  unfold net_send_frame. rewrite K, nic_drv, U. cbn [negb].
  pose proof (nic_sends (eth_frame to (g_my_mac (conf n)) et payload) (world n)) as (S1 & S2).
  destruct (drv_send drv _ (world n)) as [w rc]. cbn [fst snd] in S1, S2. rewrite (proj2 (Z.leb_le _ _)) by done.
  by split_and!.
Qed.

Lemma eth_frame_fields to from et payload : zlen to = 6 -> zlen from = 6 -> 0 <= et < 65536 ->
  zlen (eth_frame to from et payload) = 14 + zlen payload /\ ntohs (le16 (eth_frame to from et payload) 12) = et /\
  zdrop 14 (eth_frame to from et payload) = payload.
Proof.
  intros L1 L2 E. unfold eth_frame. split_and!.
  - rewrite !zlen_app, L1, L2. change (zlen (put16 (htons et))) with 2. lia.
  - rewrite app_assoc, le16_at by (rewrite ?zlen_app; (apply htons_range || lia)). by apply ntohs_htons.
  - rewrite !app_assoc. apply zdrop_app_at. rewrite !zlen_app, L1, L2. done.
Qed.

Definition arp_pkt_ok (smac sip tmac tip : list Z) : Prop := zlen smac = 6 /\ zlen sip = 4 /\ zlen tmac = 6 /\ zlen tip = 4.

(** Decoding an ARP packet gives back its fields. *)
Lemma arp_pkt_fields op smac sip tmac tip : arp_pkt_ok smac sip tmac tip -> 0 <= op < 65536 ->
  let p := arp_pkt op smac sip tmac tip in
  zlen p = 28 /\ ntohs (le16 p 0) = ARP_HW_ETHERNET /\ ntohs (le16 p 2) = ARP_PROTO_IPV4 /\ ntohs (le16 p 6) = op /\
  slice p 8 6 = smac /\ slice p 14 4 = sip /\ slice p 24 4 = tip.
Proof.
  intros (L1 & L2 & L3 & L4) O p.
  set (pre := put16 (htons ARP_HW_ETHERNET) ++ put16 (htons ARP_PROTO_IPV4) ++ [6; 4] ++ put16 (htons op)).
  assert (P : p = pre ++ smac ++ sip ++ tmac ++ tip) by reflexivity. assert (Lp : zlen pre = 8) by reflexivity.
  split_and!.
  - rewrite P, !zlen_app, L1, L2, L3, L4, Lp. done.
  - reflexivity.
  - reflexivity.
  - change (le16 p 6) with (le16 (put16 (htons op) ++ []) 0). rewrite (le16_put16 _ _ 0) by (apply htons_range || lia).
    by apply ntohs_htons.
  - rewrite P. by apply slice_at.
  - rewrite P, (app_assoc pre). apply slice_at; [| done]. by rewrite zlen_app, L1, Lp.
  - rewrite P, (app_assoc pre), (app_assoc _ sip), (app_assoc _ tmac). rewrite <- (app_nil_r tip) at 1.
    apply slice_at; [| done]. by rewrite !zlen_app, L1, L2, L3, Lp.
Qed.

(** ** Packets across the link *)

(** The header [ip_send] writes on host [n], already counted in [g_ip_id n]. *)
Definition out_hdr n (pr : Z) (d payload : list Z) : ip_hdr :=
  Ip_hdr 69 0 (htons (u16 (20 + zlen payload))) (htons (g_ip_id n)) 0 64 pr 0 (my_ip n) d.

Definition packet n (pr : Z) (d payload : list Z) : list Z :=
  store16 (ip_bytes (out_hdr n pr d payload)) 10 (ip_checksum (ip_bytes (out_hdr n pr d payload))) ++ payload.

Definition ip_frame n (m : list Z) (pr : Z) (d payload : list Z) : list Z :=
  eth_frame m (g_my_mac (conf n)) ETH_TYPE_IPV4 (packet n pr d payload).

(** The address is not one of this host. *)
Definition remote n (d : list Z) : Prop := zget d 0 <> 127 /\ we_have_ip n && ip_eq d (my_ip n) = false.

Definition next_hop n (d : list Z) : list Z := if net_is_local d n then d else g_gateway_ip (conf n).

Lemma out_hdr_ok n pr d payload : addr_ok (my_ip n) -> addr_ok d -> 0 <= pr < 256 -> hdr_ok (out_hdr n pr d payload).
Proof.
  intros (S1 & S2) (D1 & D2) P. split_and!; try done; cbn [ver_ihl tos ttl proto total_len id flags_frag csum out_hdr].
  - intros v V. repeat (apply elem_of_cons in V as [-> | V]; [lia |]). by apply elem_of_nil in V.
  - intros v V. repeat (apply elem_of_cons in V as [-> | V]; [apply htons_range || lia |]). by apply elem_of_nil in V.
Qed.

Lemma ip_send_wire d pr payload m n :
  host_ok n -> addr_ok d -> remote n d -> zlen payload <= 1480 ->
  (if is_ip_broadcast d then Some g_mac_broadcast else arp_lookup (next_hop n d) n) = Some m ->
  exists n' i, ip_send d pr payload n = (n', 0) /\ g_cache n' = g_cache n /\
    sends n n' [ip_frame (set_ip_id n i) m pr d payload].
Proof.
  intros H D (R1 & R2) L M. unfold NET.ip_send. rewrite (proj2 (Z.ltb_ge _ _)) by lia.
  unfold try_loopback. rewrite R2, (proj2 (Z.eqb_neq _ _) R1). cbn [negb andb]. unfold next_hop in M. rewrite M.
  set (n1 := set_ip_id n (u16 (g_ip_id n + 1))).
  assert (H1 : host_ok n1) by exact H.
  fold (out_hdr n1 pr d payload). fold (packet n1 pr d payload).
  assert (Lp : zlen (packet n1 pr d payload) <= ETH_MTU).
  { unfold packet, store16. rewrite zlen_app, !zlen_zset, ip_bytes_len; [unfold ETH_MTU; lia | | apply D].
    destruct H1 as (_ & _ & _ & _ & (H5 & _) & _). exact H5. }
  pose proof (eth_send_frame m ETH_TYPE_IPV4 (packet n1 pr d payload) n1 H1 Lp) as E.
  destruct (eth_send drivers m ETH_TYPE_IPV4 (packet n1 pr d payload) n1) as [n' rc]. destruct E as (-> & C & S).
  by exists n', (u16 (g_ip_id n + 1)).
Qed.

(** The receiver of the frame hands the protocol the sender's address and exactly
    the payload. *)
Lemma eth_rx_wire A B m pr d payload :
  host_ok A -> addr_ok d -> zlen m = 6 -> 0 <= pr < 256 -> zlen payload <= 1480 -> my_ip B = d \/ is_ip_broadcast d = true ->
  exists h, src h = my_ip A /\ dst h = d /\
  eth_rx (ip_frame A m pr d payload) B =
    if pr =? IP_PROTO_ICMP then icmp_rx drivers tcp_rx udp_cb pit_ticks h payload (zlen payload) B
    else if pr =? IP_PROTO_TCP then tcp_rx h payload (zlen payload) B
    else if pr =? IP_PROTO_UDP then udp_rx udp_cb h payload (zlen payload) B
    else Some B.
Proof.
  intros (_ & _ & Lm & _ & S & _) D Lto P L To.
  set (h0 := out_hdr A pr d payload). pose proof (out_hdr_ok A pr d payload S D P) as Ho. fold h0 in Ho.
  set (c := ip_checksum (ip_bytes h0)). exists (with_csum h0 c). split; [done |]. split; [done |].
  assert (Lb : zlen (store16 (ip_bytes h0) 10 c) = 20).
  { unfold store16. rewrite !zlen_zset. apply ip_bytes_len; [apply S | apply D]. }
  destruct (eth_frame_fields m (g_my_mac (conf A)) ETH_TYPE_IPV4 (packet A pr d payload) Lto Lm ltac:(done)) as (F1 & F2 & F3).
  unfold NET.eth_rx, ip_frame. pose proof (zlen_nonneg (packet A pr d payload)). rewrite rd16_in by lia. cbn [mbind option_bind]. cbv zeta.
  rewrite F1, F2, F3. rewrite (proj2 (Z.ltb_ge _ _)) by lia. cbn [Z.eqb].
  change (ETH_TYPE_IPV4 =? ETH_TYPE_ARP) with false. change (ETH_TYPE_IPV4 =? ETH_TYPE_IPV4) with true. cbv iota.
  unfold ip_rx. cbv zeta. unfold packet. fold h0. fold c. pose proof (zlen_nonneg payload).
  rewrite rd_hdr_in by (rewrite zlen_app, Lb; lia). cbn [mbind option_bind].
  rewrite ip_hdr_round_trip by (done || apply ip_checksum_range).
  assert (Tl : ntohs (total_len (with_csum h0 c)) = 20 + zlen payload).
  { change (total_len (with_csum h0 c)) with (htons (u16 (20 + zlen payload))). pose proof (zlen_nonneg payload).
    rewrite ntohs_htons by apply u16_range. apply u16_small. lia. }
  rewrite Tl. rewrite zlen_app, Lb. pose proof (zlen_nonneg payload).
  change (ver_ihl (with_csum h0 c)) with 69. change (Z.land 69 15 * 4) with 20.
  change (negb (Z.shiftr 69 4 =? 4)) with false. change (20 <? 20) with false.
  rewrite !(proj2 (Z.ltb_ge _ _)) by lia. cbv iota.
  change (dst (with_csum h0 c)) with d. change (proto (with_csum h0 c)) with pr.
  assert (Acc : negb (we_have_ip B && ip_eq d (my_ip B)) && negb (is_ip_broadcast d) && we_have_ip B = false).
  { destruct To as [<- | ->]; [rewrite ip_eq_refl; by destruct (we_have_ip B), (is_ip_broadcast (my_ip B)) | by rewrite andb_false_r]. }
  rewrite Acc. rewrite (zdrop_app_at (store16 (ip_bytes h0) 10 c)) by done.
  replace (20 + zlen payload - 20) with (zlen payload) by lia. rewrite u32_small, s32_small by lia. done.
Qed.

(** ** Address resolution and echo *)

Definition arp_frame (to : list Z) n (op : Z) (tmac tip : list Z) : list Z :=
  eth_frame to (g_my_mac (conf n)) ETH_TYPE_ARP (arp_pkt op (g_my_mac (conf n)) (my_ip n) tmac tip).

Lemma eth_rx_arp to A op tmac tip B : zlen to = 6 -> zlen tmac = 6 -> zlen tip = 4 -> 0 <= op < 65536 -> host_ok A ->
  eth_rx (arp_frame to A op tmac tip) B = Some (
    let B' := arp_cache_insert (my_ip A) (g_my_mac (conf A)) B in
    if op =? ARP_OP_REQUEST then
      if ip_eq tip (my_ip B') then fst (arp_send_reply drivers (g_my_mac (conf A)) (my_ip A) B') else B'
    else B').
Proof.
  intros Lt Lm Li O (_ & _ & La & _ & (Ls & _) & _). unfold NET.eth_rx, arp_frame.
  destruct (eth_frame_fields to (g_my_mac (conf A)) ETH_TYPE_ARP (arp_pkt op (g_my_mac (conf A)) (my_ip A) tmac tip) Lt La ltac:(done)) as (F1 & F2 & F3).
  destruct (arp_pkt_fields op (g_my_mac (conf A)) (my_ip A) tmac tip ltac:(by split_and!) O) as (P1 & P2 & P3 & P4 & P5 & P6 & P7).
  rewrite P1 in F1. rewrite rd16_in by lia. cbn [mbind option_bind]. cbv zeta. rewrite F1, F2, F3. change (14 + 28 <? 14) with false.
  change (ETH_TYPE_ARP =? ETH_TYPE_ARP) with true. cbv iota. unfold arp_rx. rewrite !rd16_in, !rdn_in by lia. cbn [mbind option_bind].
  rewrite P1, P2, P3, P4, P5, P6, P7. change (28 <? 28) with false. rewrite !Z.eqb_refl. cbn [negb]. cbv zeta. by destruct (op =? ARP_OP_REQUEST).
Qed.

(** A question and its answer: both ends know each other afterwards. *)
Lemma arp_exchange A B :
  host_ok A -> host_ok B -> exists A1 B1 A2 q r,
    arp_send_request drivers (my_ip B) A = (A1, 0) /\ sends A A1 [q] /\
    eth_rx q B = Some B1 /\ sends B B1 [r] /\ eth_rx r A1 = Some A2 /\ sends A1 A2 [] /\
    arp_lookup (my_ip B) A2 = Some (g_my_mac (conf B)) /\ arp_lookup (my_ip A) B1 = Some (g_my_mac (conf A)).
Proof.
  intros HA HB. pose proof HA as (_ & _ & LaA & _ & (LiA & _) & CA). pose proof HB as (_ & _ & LaB & _ & (LiB & _) & CB).
  set (q := arp_frame g_mac_broadcast A ARP_OP_REQUEST [0; 0; 0; 0; 0; 0] (my_ip B)).
  destruct (arp_pkt_fields ARP_OP_REQUEST (g_my_mac (conf A)) (my_ip A) [0;0;0;0;0;0] (my_ip B) ltac:(by split_and!) ltac:(done)) as (P1 & _).
  pose proof (eth_send_frame g_mac_broadcast ETH_TYPE_ARP (arp_pkt ARP_OP_REQUEST (g_my_mac (conf A)) (my_ip A) [0;0;0;0;0;0] (my_ip B)) A HA ltac:(by rewrite P1)) as E.
  fold (arp_send_request drivers (my_ip B) A) in E.
  destruct (arp_send_request drivers (my_ip B) A) as [A1 rc]. destruct E as (-> & C1 & S1).
  pose proof (eth_rx_arp g_mac_broadcast A ARP_OP_REQUEST [0;0;0;0;0;0] (my_ip B) B eq_refl eq_refl LiB ltac:(done) HA) as Eq.
  fold q in Eq. cbv zeta in Eq. change (ARP_OP_REQUEST =? ARP_OP_REQUEST) with true in Eq. cbv iota in Eq.
  set (B' := arp_cache_insert (my_ip A) (g_my_mac (conf A)) B) in *.
  destruct (arp_cache_insert_frame (my_ip A) (g_my_mac (conf A)) B) as (c & EB & Lc). fold B' in EB.
  assert (HB' : host_ok B') by (rewrite EB; by apply host_ok_cache).
  assert (EiB : my_ip B' = my_ip B) by (by rewrite EB). assert (EmB : conf B' = conf B) by (by rewrite EB).
  rewrite EiB, ip_eq_refl in Eq.
  destruct (arp_pkt_fields ARP_OP_REPLY (g_my_mac (conf B')) (my_ip B') (g_my_mac (conf A)) (my_ip A)
    ltac:(rewrite EmB, EiB; by split_and!) ltac:(done)) as (P2 & _).
  pose proof (eth_send_frame (g_my_mac (conf A)) ETH_TYPE_ARP (arp_pkt ARP_OP_REPLY (g_my_mac (conf B')) (my_ip B') (g_my_mac (conf A)) (my_ip A)) B' HB' ltac:(by rewrite P2)) as E2.
  fold (arp_send_reply drivers (g_my_mac (conf A)) (my_ip A) B') in E2.
  destruct (arp_send_reply drivers (g_my_mac (conf A)) (my_ip A) B') as [B1 rc2]. destruct E2 as (_ & C2 & S2). cbn [fst] in Eq.
  set (r := arp_frame (g_my_mac (conf A)) B' ARP_OP_REPLY (g_my_mac (conf A)) (my_ip A)).
  pose proof (eth_rx_arp (g_my_mac (conf A)) B' ARP_OP_REPLY (g_my_mac (conf A)) (my_ip A) A1 LaA LaA LiA ltac:(done) HB') as Er.
  fold r in Er. change (ARP_OP_REPLY =? ARP_OP_REQUEST) with false in Er. cbv zeta iota in Er. rewrite EiB, EmB in Er.
  destruct (arp_cache_insert_frame (my_ip B) (g_my_mac (conf B)) A1) as (c' & EA & Lc').
  assert (S2' : sends B B1 [r]).
  { destruct S2 as (T1 & T2 & T3 & T4 & T5 & T6). assert (Ew : world B' = world B) by (by rewrite EB).
    split; [by rewrite <- Ew |]. rewrite EB in T2, T3, T4, T5, T6. split_and!; try done. by rewrite T3. }
  exists A1, B1, (arp_cache_insert (my_ip B) (g_my_mac (conf B)) A1), q, r.
  split; [done |]. split; [exact S1 |]. split; [exact Eq |]. split; [exact S2' |]. split; [exact Er |]. split.
  { rewrite EA. split_and!; try done. cbn [world set_cache]. by rewrite app_nil_r. }
  split; [apply arp_lookup_insert; by rewrite C1 | unfold arp_lookup; rewrite C2; by apply arp_lookup_insert].
Qed.

Lemma le16_store16 l k v : 0 <= v < 65536 -> 0 <= k -> k + 2 <= zlen l -> le16 (store16 l k v) k = v.
Proof.
  intros V K L. unfold le16, store16. rewrite zget_zset_ne, !zget_zset_eq by (rewrite ?zlen_zset; lia).
  exact (le16_put16 v [] 0 V ltac:(done)).
Qed.

Lemma le16_zset_ne l i b k : 0 <= i -> 0 <= k -> i <> k -> i <> k + 1 -> le16 (zset l i b) k = le16 l k.
Proof. intros. unfold le16. by rewrite !zget_zset_ne by lia. Qed.

Lemma le16_store16_ne l i v k : 0 <= i -> 0 <= k -> i + 2 <= k \/ k + 2 <= i -> le16 (store16 l i v) k = le16 l k.
Proof. intros. unfold store16. by rewrite !le16_zset_ne by lia. Qed.

(** An echo message with its checksum. *)
Definition sealed (l : list Z) : list Z := store16 l 2 (ip_checksum l).

Lemma sealed_ok l : bytes_ok l -> 8 <= zlen l <= 1500 -> le16 l 2 = 0 ->
  zlen (sealed l) = zlen l /\ bytes_ok (sealed l) /\ ip_checksum (sealed l) = 0 /\ le16 (sealed l) 6 = le16 l 6 /\ zget (sealed l) 0 = zget l 0.
Proof.
  intros B L Z0. unfold sealed. split_and!.
  - unfold store16. by rewrite !zlen_zset.
  - by apply bytes_ok_store16.
  - apply checksum_fill; done || lia.
  - rewrite le16_store16_ne by lia. done.
  - unfold store16. by rewrite !zget_zset_ne by lia.
Qed.

(** The reply the receiver builds. *)
Lemma echo_reply l : bytes_ok l -> 8 <= zlen l <= 1500 ->
  let out := store16 (zset l 0 ICMP_ECHO_REPLY) 2 0 in
  bytes_ok out /\ zlen out = zlen l /\ le16 out 2 = 0 /\ le16 out 6 = le16 l 6 /\ zget out 0 = ICMP_ECHO_REPLY.
Proof.
  intros B L out. assert (Lo : zlen out = zlen l) by (unfold out, store16; by rewrite !zlen_zset). split_and!; try done.
  - apply bytes_ok_store16, byte_zset; done.
  - apply le16_store16; rewrite ?zlen_zset; lia.
  - unfold out. rewrite le16_store16_ne, le16_zset_ne by lia. done.
  - unfold out, store16. rewrite !zget_zset_ne, zget_zset_eq by lia. done.
Qed.

Lemma rdn_all l : rdn l 0 (zlen l) = Some l.
Proof. pose proof (zlen_nonneg l). rewrite rdn_in by lia. f_equal. rewrite <- (app_nil_r l) at 1. by apply (slice_at [] l []). Qed.

Lemma icmp_request_rx h l B : bytes_ok l -> 8 <= zlen l <= 1480 -> ip_checksum l = 0 -> zget l 0 = ICMP_ECHO_REQUEST ->
  icmp_rx drivers tcp_rx udp_cb pit_ticks h l (zlen l) B =
    Some (fst (ip_send (src h) IP_PROTO_ICMP (sealed (store16 (zset l 0 ICMP_ECHO_REPLY) 2 0)) B)).
Proof.
  intros Bl L C T0. unfold icmp_rx. rewrite !(proj2 (Z.ltb_ge _ _)) by lia. rewrite rdn_all, rd_in by lia. cbn [mbind option_bind].
  rewrite ?rd16_in by lia. by rewrite C, T0.
Qed.

Lemma icmp_reply_rx h l A : bytes_ok l -> 8 <= zlen l <= 1480 -> ip_checksum l = 0 -> zget l 0 = ICMP_ECHO_REPLY ->
  icmp_rx drivers tcp_rx udp_cb pit_ticks h l (zlen l) A =
    Some (set_pinged A (Ping 1 (ntohs (le16 l 6)) (pit_ticks (world A)))).
Proof.
  intros Bl L C T0. unfold icmp_rx. rewrite !(proj2 (Z.ltb_ge _ _)) by lia. rewrite rdn_all, rd_in by lia. cbn [mbind option_bind].
  rewrite ?rd16_in by lia. by rewrite C, T0.
Qed.

(** Two hosts of one network, neither address special for the other. *)
Definition neighbour n (d : list Z) : Prop := remote n d /\ net_is_local d n = true /\ is_ip_broadcast d = false.

Lemma neighbour_conf n n' d : conf n' = conf n -> neighbour n d -> neighbour n' d.
Proof. intros E. unfold neighbour, remote, net_is_local, we_have_ip, my_ip. by rewrite E. Qed.

Lemma neighbour_hop n d : neighbour n d ->
  (if is_ip_broadcast d then Some g_mac_broadcast else arp_lookup (next_hop n d) n) = arp_lookup d n.
Proof. intros (_ & L & ->). unfold next_hop. by rewrite L. Qed.

Definition echo_request (i s : Z) : list Z :=
  [ICMP_ECHO_REQUEST; 0] ++ put16 0 ++ put16 (htons i) ++ put16 (htons s) ++ echo_pattern.

Lemma echo_request_ok i s : 0 <= s < 65536 ->
  bytes_ok (echo_request i s) /\ zlen (echo_request i s) = 40 /\ le16 (echo_request i s) 2 = 0 /\
  le16 (echo_request i s) 6 = htons s /\ zget (echo_request i s) 0 = ICMP_ECHO_REQUEST.
Proof.
  intros S. split_and!; try reflexivity.
  - unfold echo_request. rewrite !bytes_ok_app. split_and!; try apply bytes_ok_put16; repeat constructor; discriminate || reflexivity.
  - change (le16 (echo_request i s) 6) with (le16 (put16 (htons s) ++ []) 0). by rewrite (le16_put16 _ _ 0) by (apply htons_range || lia).
Qed.

Lemma icmp_send_echo_eq d i s n :
  icmp_send_echo drivers tcp_rx udp_cb d i s n = ip_send d IP_PROTO_ICMP (sealed (echo_request i s)) n.
Proof. reflexivity. Qed.

(** An echo request between hosts that know each other, and its reply. *)
Lemma echo_exchange A B l s :
  host_ok A -> host_ok B -> neighbour A (my_ip B) -> neighbour B (my_ip A) ->
  arp_lookup (my_ip B) A = Some (g_my_mac (conf B)) -> arp_lookup (my_ip A) B = Some (g_my_mac (conf A)) ->
  bytes_ok l -> 8 <= zlen l <= 1480 -> ip_checksum l = 0 -> zget l 0 = ICMP_ECHO_REQUEST -> le16 l 6 = htons s -> 0 <= s < 65536 ->
  exists A1 B1 A2 e f,
    ip_send (my_ip B) IP_PROTO_ICMP l A = (A1, 0) /\ sends A A1 [e] /\ eth_rx e B = Some B1 /\ sends B B1 [f] /\
    eth_rx f A1 = Some A2 /\ pinged A2 = Ping 1 s (pit_ticks (world A1)) /\ conf A2 = conf A.
Proof.
  intros HA HB NA NB LA LB Bl Ll Cl Tl Sl S.
  pose proof HA as (_ & _ & LmA & _ & AA & _). pose proof HB as (_ & _ & LmB & _ & AB & _).
  destruct (ip_send_wire (my_ip B) IP_PROTO_ICMP l (g_my_mac (conf B)) A HA AB (proj1 NA) (proj2 Ll))
    as (A1 & j & E1 & _ & S1); [by rewrite neighbour_hop |].
  destruct (eth_rx_wire (set_ip_id A j) B (g_my_mac (conf B)) IP_PROTO_ICMP (my_ip B) l HA AB LmB ltac:(done) (proj2 Ll)
    (or_introl eq_refl)) as (h & Hs & _ & E2).
  change (IP_PROTO_ICMP =? IP_PROTO_ICMP) with true in E2. cbv iota in E2. rewrite (icmp_request_rx h l B Bl Ll Cl Tl), Hs in E2.
  destruct (echo_reply l Bl ltac:(lia)) as (Br & Lr & Cr & Sr & Tr). revert Br Lr Cr Sr Tr E2.
  generalize (store16 (zset l 0 ICMP_ECHO_REPLY) 2 0). intros out Br Lr Cr Sr Tr E2.
  destruct (sealed_ok out Br ltac:(lia) Cr) as (Lo & Bo & Co & So & To). revert Lo Bo Co So To E2.
  generalize (sealed out). intros o Lo Bo Co So To E2.
  destruct (ip_send_wire (my_ip A) IP_PROTO_ICMP o (g_my_mac (conf A)) B HB AA (proj1 NB) ltac:(lia))
    as (B1 & j2 & E3 & _ & S3); [by rewrite neighbour_hop |].
  change (my_ip (set_ip_id A j)) with (my_ip A) in E2. rewrite E3 in E2. cbn [fst] in E2. pose proof S1 as (_ & C1 & _).
  destruct (eth_rx_wire (set_ip_id B j2) A1 (g_my_mac (conf A)) IP_PROTO_ICMP (my_ip A) o HB AA LmA ltac:(done) ltac:(lia))
    as (h2 & _ & _ & E4); [left; unfold my_ip; by rewrite C1 |].
  change (IP_PROTO_ICMP =? IP_PROTO_ICMP) with true in E4. cbv iota in E4.
  rewrite (icmp_reply_rx h2 o A1 Bo ltac:(lia) Co (eq_trans To Tr)), So, Sr, Sl, ntohs_htons in E4 by exact S.
  exists A1, B1, (set_pinged A1 (Ping 1 s (pit_ticks (world A1)))), (ip_frame (set_ip_id A j) (g_my_mac (conf B)) IP_PROTO_ICMP (my_ip B) l),
    (ip_frame (set_ip_id B j2) (g_my_mac (conf A)) IP_PROTO_ICMP (my_ip A) o).
  done.
Qed.

(** C19. Ping.  The first echo request to a neighbour whose address is not yet known
    reports -2 and asks for the address; once the question and its answer have
    crossed the link, the retry succeeds: the request reaches the neighbour, its
    reply comes back, and the sequence number sent is the one recorded. *)
Theorem ping_reaches A B i s :
  host_ok A -> host_ok B -> neighbour A (my_ip B) -> neighbour B (my_ip A) ->
  arp_lookup (my_ip B) A = None -> 0 <= s < 65536 ->
  exists A1 B1 A2 A3 B2 A4 q r e f,
    icmp_send_echo drivers tcp_rx udp_cb (my_ip B) i s A = (A1, -2) /\ sends A A1 [q] /\
    eth_rx q B = Some B1 /\ sends B B1 [r] /\ eth_rx r A1 = Some A2 /\ sends A1 A2 [] /\
    icmp_send_echo drivers tcp_rx udp_cb (my_ip B) i s A2 = (A3, 0) /\ sends A2 A3 [e] /\
    eth_rx e B1 = Some B2 /\ sends B1 B2 [f] /\
    eth_rx f A3 = Some A4 /\ pinged A4 = Ping 1 s (pit_ticks (world A3)) /\ conf A4 = conf A.
Proof.
  intros HA HB NA NB Miss S.
  destruct (arp_exchange A B HA HB) as (A1 & B1 & A2 & q & r & E1 & S1 & E2 & S2 & E3 & S3 & LA & LB).
  destruct (echo_request_ok i s S) as (Bm & Lm & Cm & Sm & Tm).
  destruct (sealed_ok (echo_request i s) Bm ltac:(lia) Cm) as (Ls & Bs & Cs & Ss & Ts). rewrite Lm in Ls. rewrite Sm in Ss. rewrite Tm in Ts.
  pose proof (icmp_send_echo_eq (my_ip B) i s) as Eq. clear Bm Lm Cm Sm Tm. revert Ls Bs Cs Ss Ts Eq.
  generalize (sealed (echo_request i s)). intros l Ls Bs Cs Ss Ts Eq.
  pose proof S1 as (_ & C1 & _). pose proof S2 as (_ & C2 & _). pose proof S3 as (_ & C3 & _).
  assert (CA : conf A2 = conf A) by congruence.
  assert (IA : my_ip A2 = my_ip A) by (unfold my_ip; by rewrite CA). assert (IB : my_ip B1 = my_ip B) by (unfold my_ip; by rewrite C2).
  pose proof (host_ok_sends _ _ _ HA S1) as HA1. pose proof (host_ok_sends _ _ _ HA1 S3) as HA2. pose proof (host_ok_sends _ _ _ HB S2) as HB1.
  destruct (echo_exchange A2 B1 l s HA2 HB1) as (A3 & B2 & A4 & e & f & E4 & S4 & E5 & S5 & E6 & P & C);
    try (rewrite ?IA, ?IB, ?CA, ?C2; first [done | by apply (neighbour_conf A) | by apply (neighbour_conf B) | lia]).
  rewrite IB, <- Eq in E4. rewrite CA in C. exists A1, B1, A2, A3, B2, A4, q, r, e, f.
  split; [| repeat (split; [assumption |]); congruence]. rewrite Eq.
  unfold NET.ip_send. rewrite Ls. change (1500 - 20 <? 40) with false. cbv iota. unfold try_loopback.
  destruct NA as ((R1 & ->) & -> & ->). rewrite (proj2 (Z.eqb_neq _ _) R1). cbn [negb andb]. by rewrite Miss, E1.
Qed.

(** ** Datagrams *)

(** The callback a datagram to [p] reaches. *)
Definition listens n (p c : Z) : Prop := forall h s payload,
  0 <= zlen payload <= 65527 -> 0 <= s < 65536 -> forall seg len, len = 8 + zlen payload -> le16 seg 0 = htons s -> le16 seg 2 = htons p ->
  le16 seg 4 = htons len -> zlen seg = len -> slice seg 8 (zlen payload) = payload ->
  udp_rx udp_cb h seg len n = Some (udp_cb c (src h) s payload n).

Lemma udp_listen_listens p c n n' : udp_listen p c n = (n', 0) -> zlen (g_listeners n) = UDP_MAX_LISTENERS -> c <> 0 ->
  0 <= p < 65536 -> listens n' p c /\ conf n' = conf n.
Proof.
  unfold UDP_MAX_LISTENERS. intros E L C P.
  assert (H : exists j, zfind (Z.to_nat UDP_MAX_LISTENERS) 0 (fun i => (port (zget (g_listeners n') i) =? p) && negb (cb (zget (g_listeners n') i) =? 0)) = Some j /\
    cb (zget (g_listeners n') j) = c /\ conf n' = conf n).
  { unfold udp_listen in E. destruct (Z.eqb_spec p 0); [done |]. set (l := g_listeners n) in *.
    destruct (zfind _ 0 (fun i => port (zget l i) =? p)) as [i|] eqn:F1; [| destruct (zfind _ 0 (fun i => port (zget l i) =? 0)) as [i|] eqn:F2; [| done]].
    - injection E as <-. apply zfind_Some in F1 as (R & Pi & F). change (Z.of_nat (Z.to_nat UDP_MAX_LISTENERS)) with 4 in R.
      exists i. cbn [g_listeners set_listeners conf]. rewrite zget_zset_eq by lia. split_and!; try done.
      apply zfind_least; [done | rewrite zget_zset_eq by lia; cbn [port cb]; by rewrite Pi, (proj2 (Z.eqb_neq c 0)) |].
      intros k K. rewrite zget_zset_ne by lia. by rewrite F.
    - injection E as <-. apply zfind_Some in F2 as (R & Pi & F). change (Z.of_nat (Z.to_nat UDP_MAX_LISTENERS)) with 4 in R. rewrite zfind_None in F1.
      exists i. cbn [g_listeners set_listeners conf]. rewrite zget_zset_eq by lia. split_and!; try done.
      apply zfind_least; [done | rewrite zget_zset_eq by lia; cbn [port cb]; by rewrite Z.eqb_refl, (proj2 (Z.eqb_neq c 0)) |].
      intros k K. rewrite zget_zset_ne by lia. rewrite F1; [done |]. change (Z.of_nat (Z.to_nat UDP_MAX_LISTENERS)) with 4. lia. }
  destruct H as (j & Fj & Cj & Ec). split; [| done]. intros h s payload Lp S seg len -> E0 E2 E4 Ls Es.
  unfold udp_rx. rewrite !rd16_in by lia. cbn [mbind option_bind]. rewrite E0, E2, E4, !ntohs_htons by lia. rewrite !(proj2 (Z.ltb_ge _ _)) by lia.
  rewrite Fj, Cj. replace (8 + zlen payload - 8) with (zlen payload) by lia. rewrite rdn_in by lia. cbn [mbind option_bind]. by rewrite Es.
Qed.

(** The datagram [udp_send] builds. *)
Definition datagram n (d : list Z) (sp dp : Z) (data : list Z) : list Z :=
  let buf := put16 (htons sp) ++ put16 (htons dp) ++ put16 (htons (u16 (8 + zlen data))) ++ put16 0 ++ data in
  store16 buf 6 (udp_checksum (my_ip n) d buf).

Lemma datagram_fields n d sp dp data : zlen data <= 65527 ->
  let seg := datagram n d sp dp data in
  zlen seg = 8 + zlen data /\ le16 seg 0 = htons sp /\ le16 seg 2 = htons dp /\ le16 seg 4 = htons (8 + zlen data) /\
  slice seg 8 (zlen data) = data.
Proof.
  intros L seg. pose proof (zlen_nonneg data).
  assert (E : exists a b, seg = (put16 (htons sp) ++ put16 (htons dp) ++ put16 (htons (u16 (8 + zlen data))) ++ [a; b]) ++ data) by (by eexists _, _).
  destruct E as (a & b & ->).
  assert (P : forall v, le16 (put16 (htons v) ++ []) 0 = htons v) by (intros; apply (le16_put16 _ _ 0); [apply htons_range | done]).
  split_and!.
  - rewrite zlen_app. change (zlen (put16 (htons sp) ++ _)) with 8. done.
  - apply P.
  - apply P.
  - rewrite u16_small by lia. apply P.
  - unfold slice. rewrite zdrop_app_at by done. unfold ztake, zlen. rewrite Nat2Z.id. apply firstn_all.
Qed.

(** C20. Datagrams.  What [udp_send] sends to a known neighbour, the neighbour's
    callback for that port receives: the same bytes, the sender's address and port,
    once.  A datagram to the host's own address reaches its own callback without
    the link, and one too long for a packet is refused and changes nothing. *)
Theorem udp_delivery A B0 B c m sp dp data :
  host_ok A -> addr_ok (my_ip B0) -> udp_listen dp c B0 = (B, 0) -> zlen (g_listeners B0) = UDP_MAX_LISTENERS -> c <> 0 ->
  remote A (my_ip B0) -> zlen m = 6 ->
  (if is_ip_broadcast (my_ip B0) then Some g_mac_broadcast else arp_lookup (next_hop A (my_ip B0)) A) = Some m ->
  0 <= sp < 65536 -> 0 <= dp < 65536 ->
  (zlen data <= 1472 -> exists A' f,
     udp_send drivers tcp_rx udp_cb (my_ip B0) sp dp data A = (A', 0) /\ sends A A' [f] /\
     eth_rx f B = Some (udp_cb c (my_ip A) sp data B)) /\
  (zlen data <= 1472 -> we_have_ip B0 = true ->
     udp_send drivers tcp_rx udp_cb (my_ip B0) sp dp data B = (udp_cb c (my_ip B0) sp data B, 0)) /\
  (1472 < zlen data -> udp_send drivers tcp_rx udp_cb (my_ip B0) sp dp data A = (A, -1)).
Proof.
  intros HA AB E LB C R Lm M Sp Dp. destruct (udp_listen_listens dp c B0 B E LB C Dp) as (Li & Ec). pose proof (zlen_nonneg data).
  assert (IB : my_ip B = my_ip B0) by (unfold my_ip; by rewrite Ec).
  assert (Rx : forall n h, zlen data <= 1472 -> let seg := datagram n (my_ip B0) sp dp data in
    udp_rx udp_cb h seg (zlen seg) B = Some (udp_cb c (src h) sp data B)).
  { intros n h L. destruct (datagram_fields n (my_ip B0) sp dp data ltac:(lia)) as (F1 & F2 & F3 & F4 & F5). cbv zeta.
    rewrite F1. apply Li; done || lia. }
  assert (Sd : forall n, zlen data <= 1472 -> udp_send drivers tcp_rx udp_cb (my_ip B0) sp dp data n =
    ip_send (my_ip B0) IP_PROTO_UDP (datagram n (my_ip B0) sp dp data) n).
  { intros n L. unfold udp_send. by rewrite (proj2 (Z.ltb_ge _ _)) by lia. }
  split_and!.
  - intros L. destruct (datagram_fields A (my_ip B0) sp dp data ltac:(lia)) as (F1 & _). cbv zeta in F1.
    destruct (ip_send_wire (my_ip B0) IP_PROTO_UDP (datagram A (my_ip B0) sp dp data) m A HA AB R ltac:(lia) M) as (A' & i & E1 & _ & S1).
    exists A'. eexists. split; [by rewrite Sd |]. split; [exact S1 |].
    destruct (eth_rx_wire (set_ip_id A i) B m IP_PROTO_UDP (my_ip B0) (datagram A (my_ip B0) sp dp data) HA AB Lm ltac:(done) ltac:(lia)
      (or_introl IB)) as (h & Hs & _ & ->).
    change (IP_PROTO_UDP =? IP_PROTO_ICMP) with false. change (IP_PROTO_UDP =? IP_PROTO_TCP) with false.
    change (IP_PROTO_UDP =? IP_PROTO_UDP) with true. cbv iota. rewrite (Rx A h L), Hs. done.
  - intros L Ip. rewrite Sd by done. destruct (datagram_fields B (my_ip B0) sp dp data ltac:(lia)) as (F1 & _). cbv zeta in F1.
    unfold NET.ip_send. rewrite (proj2 (Z.ltb_ge _ _)) by lia. unfold try_loopback.
    assert (we_have_ip B = true) as -> by (unfold we_have_ip in *; by rewrite IB). rewrite IB, ip_eq_refl. cbn [negb andb]. rewrite andb_false_r.
    change (IP_PROTO_UDP =? IP_PROTO_TCP) with false. change (IP_PROTO_UDP =? IP_PROTO_UDP) with true. cbv iota. by rewrite (Rx B _ L).
  - intros L. unfold udp_send. destruct (1500 - 8 <? zlen data) eqn:G; [done |]. zb. unfold NET.ip_send.
    destruct (datagram_fields A (my_ip B0) sp dp data ltac:(lia)) as (F1 & _). cbv zeta in F1. fold (datagram A (my_ip B0) sp dp data).
    rewrite F1, (proj2 (Z.ltb_lt _ _)) by lia. done.
Qed.

(** ** Reads past the frame *)

(** An accepted ICMP packet whose total length is below its own header length. *)
Definition truncated_icmp (frame : list Z) n : bool :=
  let p := zdrop 14 frame in let h := ip_hdr_at p in let ihl := Z.land (ver_ihl h) 15 * 4 in
  (34 <=? zlen frame) && (ntohs (le16 frame 12) =? ETH_TYPE_IPV4) && (Z.shiftr (ver_ihl h) 4 =? 4) && (20 <=? ihl) &&
  (ntohs (total_len h) <=? zlen p) && ((we_have_ip n && ip_eq (dst h) (my_ip n)) || is_ip_broadcast (dst h) || negb (we_have_ip n)) &&
  (proto h =? IP_PROTO_ICMP) && (ntohs (total_len h) <? ihl).

Lemma ihl_range v : 0 <= Z.land v 15 * 4 <= 60.
Proof. change 15 with (Z.ones 4). rewrite Z.land_ones by lia. pose proof (Z.mod_pos_bound v (2 ^ 4)). lia. Qed.

(** Every receiver reads within the bytes it is told of. *)
Lemma icmp_rx_in_range h p len n : len <= zlen p -> icmp_rx drivers tcp_rx udp_cb pit_ticks h p len n <> None.
Proof.
  intros L. unfold icmp_rx. destruct (Z.ltb_spec len 8); [done |]. rewrite rdn_in, rd_in, rd16_in by lia. cbn [mbind option_bind]. by repeat cases.
Qed.

Lemma icmp_rx_past h p len n : 8 <= len -> zlen p < len -> icmp_rx drivers tcp_rx udp_cb pit_ticks h p len n = None.
Proof. intros L1 L2. unfold icmp_rx. by rewrite (proj2 (Z.ltb_ge _ _) L1), rdn_past by lia. Qed.

Lemma udp_rx_in_range h p len n : len <= zlen p -> udp_rx udp_cb h p len n <> None.
Proof.
  intros L. unfold udp_rx. destruct (Z.ltb_spec len 8); [done |]. rewrite !rd16_in by lia. cbn [mbind option_bind]. cbv zeta.
  destruct (Z.ltb_spec len (ntohs (le16 p 4))); [done |]. destruct (Z.ltb_spec (ntohs (le16 p 4)) 8); [done |].
  destruct (zfind _ _ _); [| done]. by rewrite rdn_in by lia.
Qed.

Lemma arp_rx_in_range p n : arp_rx drivers p n <> None.
Proof.
  unfold arp_rx. destruct (Z.ltb_spec (zlen p) 28); [done |]. rewrite !rd16_in, !rdn_in by lia. cbn [mbind option_bind]. cbv zeta. by repeat cases.
Qed.

(** A frame is read past its end just when it is a truncated ICMP packet, if the receiver of TCP segments reads within them. *)
Lemma eth_rx_reads frame n :
  (forall h seg len n, len <= zlen seg -> tcp_rx h seg len n <> None) ->
  zlen frame <= 1518 -> eth_rx frame n = None <-> truncated_icmp frame n = true.
Proof.
  intros Tin L. unfold NET.eth_rx, truncated_icmp. cbv zeta. set (p := zdrop 14 frame).
  destruct (Z.ltb_spec (zlen frame) 14) as [S | S].
  { split; [done |]. rewrite (proj2 (Z.leb_gt 34 _)) by lia. done. }
  assert (Lp : zlen p = zlen frame - 14) by (unfold p; rewrite zlen_zdrop by lia; lia).
  rewrite rd16_in by lia. cbn [mbind option_bind].
  destruct (ntohs (le16 frame 12) =? ETH_TYPE_ARP) eqn:Ea.
  { split; [intros E; by apply arp_rx_in_range in E |]. zb. rewrite Ea. change (ETH_TYPE_ARP =? ETH_TYPE_IPV4) with false. by rewrite andb_false_r. }
  destruct (ntohs (le16 frame 12) =? ETH_TYPE_IPV4); [| by rewrite andb_false_r]. rewrite andb_true_r.
  unfold ip_rx. cbv zeta. rewrite Lp. destruct (Z.ltb_spec (zlen frame - 14) 20) as [S2 | S2].
  { split; [done |]. by rewrite (proj2 (Z.leb_gt 34 _)) by lia. }
  rewrite rd_hdr_in by lia. cbn [mbind option_bind].
  rewrite (proj2 (Z.leb_le 34 _)) by lia. set (h := ip_hdr_at p). cbn [andb].
  destruct (Z.shiftr (ver_ihl h) 4 =? 4); [| done]. cbn [negb andb].
  pose proof (ihl_range (ver_ihl h)) as Ri. set (ihl := Z.land (ver_ihl h) 15 * 4) in *.
  destruct (Z.ltb_spec ihl 20) as [S3 | S3]; [by rewrite (proj2 (Z.leb_gt 20 _)) by lia |].
  rewrite (proj2 (Z.leb_le 20 _)) by lia. cbn [andb].
  destruct (Z.ltb_spec (zlen frame - 14) (ntohs (total_len h))) as [S4 | S4]; [by rewrite (proj2 (Z.leb_gt _ _)) by lia |].
  rewrite (proj2 (Z.leb_le _ _)) by lia. cbn [andb].
  assert (Rt : 0 <= ntohs (total_len h) < 65536) by apply htons_range.
  (* the length the receivers are told of: within the body, or wrapped around *)
  assert (Bl : ihl <= ntohs (total_len h) -> u32 (ntohs (total_len h) - ihl) <= zlen (zdrop ihl p) /\ s32 (u32 (ntohs (total_len h) - ihl)) <= zlen (zdrop ihl p)).
  { intros Q. rewrite zlen_zdrop, u32_small, s32_small by lia. lia. }
  assert (Bw : ntohs (total_len h) < ihl -> 8 <= u32 (ntohs (total_len h) - ihl) /\ zlen (zdrop ihl p) < u32 (ntohs (total_len h) - ihl) /\
    s32 (u32 (ntohs (total_len h) - ihl)) <= zlen (zdrop ihl p)).
  { intros Q. rewrite zlen_zdrop by lia. unfold s32, u32. Z.div_mod_to_equations. lia. }
  destruct (we_have_ip n && ip_eq (dst h) (my_ip n)), (is_ip_broadcast (dst h)), (we_have_ip n); cbn [negb andb orb]; try done.
  all: destruct (proto h =? IP_PROTO_ICMP) eqn:Ep; cbn [andb];
    [| split; [| done]; intros E; exfalso; revert E; repeat case_match; try done; first [apply Tin | apply udp_rx_in_range];
       destruct (Z.ltb_spec (ntohs (total_len h)) ihl); first [by apply Bw | by apply Bl]].
  all: destruct (Z.ltb_spec (ntohs (total_len h)) ihl) as [S5 | S5].
  all: try (split; [done |]; intros _; apply icmp_rx_past; by apply Bw).
  all: split; [| done]; intros E; exfalso; revert E; apply icmp_rx_in_range; by apply Bl.
Qed.

End Proofs.

(** ** Two hosts on a cable *)

Section Example.

(** A device that queues what it is given. *)
Definition cable : driver (list (list Z)) := Driver (fun w => (w, Some [2; 0; 0; 0; 0; 1])) (fun f w => (w ++ [f], 0)).

Definition demo_tcp_rx (h : ip_hdr) (seg : list Z) (len : Z) (n : net (list (Z * list Z)) (list (list Z))) := Some n.

(** The callback files the datagram under its number. *)
Definition demo_cb (c : Z) (s : list Z) (sp : Z) (data : list Z) (n : net (list (Z * list Z)) (list (list Z))) :=
  set_tcp n (tcp n ++ [(c, data)]).

Definition demo_host (k : Z) : net (list (Z * list Z)) (list (list Z)) :=
  let n := net_init [cable] (Net (Config [] [] [] [] false None) (zrep ARP_CACHE_SIZE (Arp_entry false [0; 0; 0; 0] [0; 0; 0; 0; 0; 0]))
    0 (zrep UDP_MAX_LISTENERS (Listener 0 0)) (Ping 0 0 0) [] []) in
  set_conf n (Config [2; 0; 0; 0; 0; k] [10; 0; 2; k] [10; 0; 2; 2] [255; 255; 255; 0] (g_net_up (conf n)) (g_nic_send (conf n))).

Lemma cable_sends f (w : list (list Z)) : fst (drv_send cable f w) = w ++ [f] /\ 0 <= snd (drv_send cable f w).
Proof. done. Qed.

Ltac host_tac := split_and!; try reflexivity; repeat constructor; discriminate || reflexivity.

Lemma demo_host_ok : host_ok 0 (demo_host 15) /\ host_ok 0 (demo_host 16).
Proof. split; host_tac. Qed.

Lemma demo_neighbours : neighbour (demo_host 15) [10; 0; 2; 16] /\ neighbour (demo_host 16) [10; 0; 2; 15].
Proof. split; (split; [split; [vm_compute; discriminate | reflexivity] | split; reflexivity]). Qed.

Lemma ping_reaches_witness :
  arp_lookup [10; 0; 2; 16] (demo_host 15) = None /\
  exists A4 w : net (list (Z * list Z)) (list (list Z)), pinged A4 = Ping 1 7 (Z.of_nat (length (world w))) /\ conf A4 = conf (demo_host 15).
Proof.
  split; [reflexivity |].
  destruct (ping_reaches [cable] demo_tcp_rx demo_cb (fun w => Z.of_nat (length w)) (fun w => w) 0 cable eq_refl cable_sends
    (demo_host 15) (demo_host 16) 1 7 (proj1 demo_host_ok) (proj2 demo_host_ok) (proj1 demo_neighbours) (proj2 demo_neighbours)
    eq_refl ltac:(lia)) as (A1 & B1 & A2 & A3 & B2 & A4 & q & r & e & f & H).
  exists A4, A3. tauto.
Defined.

Lemma udp_delivery_witness :
  let B := fst (udp_listen 53 9 (demo_host 16)) in
  let A := arp_cache_insert [10; 0; 2; 16] [2; 0; 0; 0; 0; 16] (demo_host 15) in
  exists A' f, udp_send [cable] demo_tcp_rx demo_cb [10; 0; 2; 16] 4000 53 [104; 105] A = (A', 0) /\
    eth_rx [cable] demo_tcp_rx demo_cb (fun _ => 0) f B = Some (set_tcp B [(9, [104; 105])]).
Proof.
  intros B A.
  destruct (udp_delivery [cable] demo_tcp_rx demo_cb (fun _ => 0) (fun w => w) 0 cable eq_refl cable_sends A (demo_host 16) B 9 [2; 0; 0; 0; 0; 16] 4000 53 [104; 105])
    as (H & _); [host_tac | host_tac | reflexivity | reflexivity | discriminate | split; [vm_compute; discriminate | reflexivity] | reflexivity
    | reflexivity | lia | lia |].
  destruct (H ltac:(vm_compute; discriminate)) as (A' & f & E1 & _ & E2). exists A', f. split; [exact E1 | exact E2].
Defined.

(** A 34-byte frame: a 40-byte header, total length 20, protocol ICMP. *)
Definition bad_frame : list Z :=
  zrep 12 255 ++ [8; 0] ++ [74; 0; 0; 20; 0; 0; 0; 0; 64; 1; 0; 0; 10; 0; 2; 2; 10; 0; 2; 15].

End Example.

End NET.
