(* ===== verification/Tcp.v ===== *)
(** TCP ([kernel/tcp.c]).

    The table of connections sits in the [tcp] component of the network state.  A
    loopback send calls [tcp_rx] back before it returns; the recursion is closed
    with fuel in [tcp_rx], and [tcp_rx_terminates] shows that [TCP_DEPTH] levels are
    always enough.  The application callbacks get the connection's number and its
    [user_data]; they may change the world outside the stack and [user_data], as
    those of [kernel/sock.c] do.  The fields [tx_buf] and [tx_len] are never used by
    the code and are left out. *)

From stdpp Require Import base numbers list sets.
From Stdlib Require Import ZArith Lia.
From S2P Require Import Prelude Wire Net.

(** What the application behind a connection does; 0 is the null callback. *)
Class TcpUser (W : Type) := {
  connect_cb : Z -> Z -> Z -> W -> W * Z;
  recv_cb : Z -> Z -> Z -> list Z -> W -> W;
  close_cb : Z -> Z -> Z -> W -> W
}.

Module TCP.
Import WIRE NET.

Definition TCP_FIN : Z := 1.
Definition TCP_SYN : Z := 2.
Definition TCP_RST : Z := 4.
Definition TCP_PSH : Z := 8.
Definition TCP_ACK : Z := 16.
Definition TCP_RX_BUF : Z := 4096.
Definition TCP_MAX_TCBS : Z := 24.

Inductive tcp_state :=
  | TCP_CLOSED | TCP_LISTEN | TCP_SYN_SENT | TCP_SYN_RCVD | TCP_ESTABLISHED | TCP_FIN_WAIT_1 | TCP_FIN_WAIT_2
  | TCP_CLOSE_WAIT | TCP_LAST_ACK | TCP_TIME_WAIT.

#[global] Instance tcp_state_eq_dec : EqDecision tcp_state.
Proof. solve_decision. Defined.

Record tcb := Tcb {
  in_use : bool; state : tcp_state; is_listener : bool; local_port : Z; remote_ip : list Z; remote_port : Z;
  snd_isn : Z; snd_nxt : Z; snd_una : Z; rcv_isn : Z; rcv_nxt : Z;
  on_connect : Z; on_recv : Z; on_close : Z; user_data : Z }.

Definition tcb_zero : tcb := Tcb false TCP_CLOSED false 0 [0; 0; 0; 0] 0 0 0 0 0 0 0 0 0 0.

#[global] Instance tcb_inhabited : Inhabited tcb := populate tcb_zero.

Record tcps := Tcps { g_tcbs : list tcb; g_next_eph : Z }.

Definition set_state (t : tcb) (x : tcp_state) : tcb :=
  Tcb (in_use t) x (is_listener t) (local_port t) (remote_ip t) (remote_port t) (snd_isn t) (snd_nxt t) (snd_una t) (rcv_isn t) (rcv_nxt t)
    (on_connect t) (on_recv t) (on_close t) (user_data t).

Definition set_snd_nxt (t : tcb) (x : Z) : tcb :=
  Tcb (in_use t) (state t) (is_listener t) (local_port t) (remote_ip t) (remote_port t) (snd_isn t) x (snd_una t) (rcv_isn t) (rcv_nxt t)
    (on_connect t) (on_recv t) (on_close t) (user_data t).

Definition set_snd_una (t : tcb) (x : Z) : tcb :=
  Tcb (in_use t) (state t) (is_listener t) (local_port t) (remote_ip t) (remote_port t) (snd_isn t) (snd_nxt t) x (rcv_isn t) (rcv_nxt t)
    (on_connect t) (on_recv t) (on_close t) (user_data t).

Definition set_rcv_isn (t : tcb) (x : Z) : tcb :=
  Tcb (in_use t) (state t) (is_listener t) (local_port t) (remote_ip t) (remote_port t) (snd_isn t) (snd_nxt t) (snd_una t) x (rcv_nxt t)
    (on_connect t) (on_recv t) (on_close t) (user_data t).

Definition set_rcv_nxt (t : tcb) (x : Z) : tcb :=
  Tcb (in_use t) (state t) (is_listener t) (local_port t) (remote_ip t) (remote_port t) (snd_isn t) (snd_nxt t) (snd_una t) (rcv_isn t) x
    (on_connect t) (on_recv t) (on_close t) (user_data t).

Definition set_user_data (t : tcb) (x : Z) : tcb :=
  Tcb (in_use t) (state t) (is_listener t) (local_port t) (remote_ip t) (remote_port t) (snd_isn t) (snd_nxt t) (snd_una t) (rcv_isn t) (rcv_nxt t)
    (on_connect t) (on_recv t) (on_close t) x.

(** [tcb_release], on one slot. *)
Definition released (t : tcb) : tcb :=
  Tcb false TCP_CLOSED false (local_port t) (remote_ip t) (remote_port t) (snd_isn t) (snd_nxt t) (snd_una t) (rcv_isn t) (rcv_nxt t) 0 0 0 0.

Definition is_state (t : tcb) (x : tcp_state) : bool := bool_decide (state t = x).

(** [flags & f] *)
Definition has (flags f : Z) : bool := negb (Z.land flags f =? 0).

Definition tcp_init : tcps := Tcps (zrep TCP_MAX_TCBS tcb_zero) 49152.

Definition tcb_alloc (g : tcps) : option (tcps * Z) :=
  match zfind (Z.to_nat TCP_MAX_TCBS) 0 (fun i => negb (in_use (zget (g_tcbs g) i))) with
  | Some i => Some (Tcps (zset (g_tcbs g) i (Tcb true TCP_CLOSED false 0 [0; 0; 0; 0] 0 0 0 0 0 0 0 0 0 0)) (g_next_eph g), i)
  | None => None
  end.

Definition port_in_use (g : tcps) (p : Z) : bool :=
  match zfind (Z.to_nat TCP_MAX_TCBS) 0 (fun i =>
    let t := zget (g_tcbs g) i in in_use t && negb (is_state t TCP_CLOSED) && (local_port t =? p)) with
  | Some _ => true | None => false end.

(** [tries] turns of the port search; 0 when all are taken. *)
Fixpoint eph_loop (tries : nat) (g : tcps) : tcps * Z :=
  match tries with
  | O => (g, 0)
  | S tries' =>
      let p := g_next_eph g in
      let e := u16 (g_next_eph g + 1) in
      let e := if e =? 0 then 49152 else e in
      let p := if p <? 49152 then 49152 else p in
      let g := Tcps (g_tcbs g) e in
      if port_in_use g p then eph_loop tries' g else (g, p)
  end.

Definition alloc_ephemeral_port (g : tcps) : tcps * Z := eph_loop (Z.to_nat 16384) g.

Definition tcp_checksum (s d seg : list Z) : Z :=
  if 1500 <? zlen seg then 0 else ip_checksum (pseudo s d IP_PROTO_TCP seg).

(** Segment layout, before the checksum is filled in. *)
Definition segment (sport dport seq ack flags : Z) (data : list Z) : list Z :=
  put16 (htons sport) ++ put16 (htons dport) ++ put32 (htonl seq) ++ put32 (htonl ack) ++ [80; flags] ++
  put16 (htons TCP_RX_BUF) ++ put16 0 ++ put16 0 ++ data.

Section Tcp.
Context {W : Type} (drivers : list (driver W)).
Context (udp_cb : Z -> list Z -> Z -> list Z -> net tcps W -> net tcps W) (pit_ticks : W -> Z) `{TcpUser W}.

Local Abbreviation S := (net tcps W).
Implicit Types s : S.

Definition tcbn s (i : Z) : tcb := zget (g_tcbs (tcp s)) i.

Definition upd s (i : Z) (f : tcb -> tcb) : S := set_tcp s (Tcps (zset (g_tcbs (tcp s)) i (f (tcbn s i))) (g_next_eph (tcp s))).

(** ** Calling the application *)

Definition fire_connect (i : Z) s : S :=
  let t := tcbn s i in
  if on_connect t =? 0 then s else
  let '(w, ud) := connect_cb (on_connect t) i (user_data t) (world s) in upd (set_world s w) i (fun t => set_user_data t ud).

Definition fire_recv (i : Z) (data : list Z) s : S :=
  let t := tcbn s i in if on_recv t =? 0 then s else set_world s (recv_cb (on_recv t) i (user_data t) data (world s)).

Definition fire_close (i : Z) s : S :=
  let t := tcbn s i in if on_close t =? 0 then s else set_world s (close_cb (on_close t) i (user_data t) (world s)).

Definition tcb_release (i : Z) s : S := upd s i released.

(** ** One level of the recursion: [rx] is the receiver a loopback send calls. *)

Section Level.
Context (rx : ip_hdr -> list Z -> Z -> S -> option S).

Definition tcp_send_seg_seq (i flags : Z) (data : list Z) (seq : Z) s : S * Z :=
  if 1500 <? 20 + zlen data then (s, -1) else
  let t := tcbn s i in
  let seg := segment (local_port t) (remote_port t) seq (rcv_nxt t) flags data in
  ip_send drivers rx udp_cb (remote_ip t) IP_PROTO_TCP (store16 seg 16 (tcp_checksum (my_ip s) (remote_ip t) seg)) s.

Definition tcp_send_ack (i flags : Z) s : S := fst (tcp_send_seg_seq i flags [] (snd_nxt (tcbn s i)) s).

Definition find_tcb_for_seg (dst_port src_port : Z) (src_ip : list Z) (flags : Z) (g : tcps) : option Z :=
  match zfind (Z.to_nat TCP_MAX_TCBS) 0 (fun i =>
    let t := zget (g_tcbs g) i in
    in_use t && negb (is_state t TCP_LISTEN) && negb (is_state t TCP_CLOSED) && (local_port t =? dst_port) &&
    (remote_port t =? src_port) && ip_eq (remote_ip t) src_ip) with
  | Some i => Some i
  | None =>
      if has flags TCP_SYN then
        zfind (Z.to_nat TCP_MAX_TCBS) 0 (fun i =>
          let t := zget (g_tcbs g) i in in_use t && is_state t TCP_LISTEN && (local_port t =? dst_port))
      else None
  end.

Definition isn s : Z := u32 (pit_ticks (world s) * 2654435761).

Definition spawn_conn_from_listener (l : Z) (src_ip : list Z) (src_port seq : Z) s : S :=
  match tcb_alloc (tcp s) with
  | None => s
  | Some (g, c) =>
      let s := set_tcp s g in
      let lt := tcbn s l in
      let s := upd s c (fun _ => Tcb true TCP_SYN_RCVD false (local_port lt) src_ip src_port (isn s) (u32 (isn s + 1)) (isn s)
        seq (u32 (seq + 1)) (on_connect lt) (on_recv lt) (on_close lt) (user_data lt)) in
      fst (tcp_send_seg_seq c (Z.lor TCP_SYN TCP_ACK) [] (isn s) s)
  end.

(** The case [TCP_ESTABLISHED], which [TCP_SYN_RCVD] falls through to. *)
Definition established_rx (i flags seq ack : Z) (payload : list Z) s : S :=
  let s := if has flags TCP_ACK then upd s i (fun t => set_snd_una t ack) else s in
  let s := if (0 <? zlen payload) && (seq =? rcv_nxt (tcbn s i)) then
             let s := upd s i (fun t => set_rcv_nxt t (u32 (rcv_nxt t + zlen payload))) in
             let s := tcp_send_ack i TCP_ACK s in
             fire_recv i payload s
           else s in
  if has flags TCP_FIN then
    let s := upd s i (fun t => set_rcv_nxt t (u32 (rcv_nxt t + 1))) in
    let s := tcp_send_ack i TCP_ACK s in
    let s := upd s i (fun t => set_state t TCP_CLOSE_WAIT) in
    fire_close i s
  else s.

Definition syn_sent_rx (i flags seq ack : Z) (payload : list Z) s : S :=
  if negb (has flags TCP_SYN) || negb (has flags TCP_ACK) then s else
  if negb (ack =? snd_nxt (tcbn s i)) then s else
  let s := upd s i (fun t => set_rcv_nxt (set_rcv_isn (set_snd_una t ack) seq) (u32 (seq + 1))) in
  let s := tcp_send_ack i TCP_ACK s in
  let s := upd s i (fun t => set_state t TCP_ESTABLISHED) in
  let s := fire_connect i s in
  if 0 <? zlen payload then
    let s := upd s i (fun t => set_rcv_nxt t (u32 (rcv_nxt t + zlen payload))) in
    let s := tcp_send_ack i TCP_ACK s in
    fire_recv i payload s
  else s.

(** The peer's FIN in the two FIN_WAIT states. *)
Definition fin_wait_fin (i flags : Z) s : S :=
  if has flags TCP_FIN then
    let s := upd s i (fun t => set_rcv_nxt t (u32 (rcv_nxt t + 1))) in
    let s := tcp_send_ack i TCP_ACK s in
    tcb_release i (fire_close i s)
  else s.

(** [tcp_rx] once the header is read. *)
Definition tcp_rx_seg (src_ip : list Z) (dst_port src_port flags seq ack : Z) (payload : list Z) s : S :=
  match find_tcb_for_seg dst_port src_port src_ip flags (tcp s) with
  | None => s
  | Some i =>
      if is_state (tcbn s i) TCP_LISTEN then
        if negb (has flags TCP_SYN) then s else spawn_conn_from_listener i src_ip src_port seq s
      else if has flags TCP_RST then tcb_release i (fire_close i s)
      else
        match state (tcbn s i) with
        | TCP_SYN_SENT => syn_sent_rx i flags seq ack payload s
        | TCP_SYN_RCVD =>
            if negb (has flags TCP_ACK) then s else
            if negb (ack =? snd_nxt (tcbn s i)) then s else
            let s := upd s i (fun t => set_state (set_snd_una t ack) TCP_ESTABLISHED) in
            established_rx i flags seq ack payload (fire_connect i s)
        | TCP_ESTABLISHED => established_rx i flags seq ack payload s
        | TCP_FIN_WAIT_1 =>
            let s := if has flags TCP_ACK && (ack =? snd_nxt (tcbn s i))
                     then upd s i (fun t => set_state (set_snd_una t ack) TCP_FIN_WAIT_2) else s in
            fin_wait_fin i flags s
        | TCP_FIN_WAIT_2 => fin_wait_fin i flags s
        | TCP_LAST_ACK =>
            if has flags TCP_ACK && (ack =? snd_nxt (tcbn s i)) then tcb_release i (fire_close i s) else s
        | _ => s
        end
  end.

(** Each field is read from the segment; [None] is a read past it. *)
Definition tcp_rx_level (h : ip_hdr) (seg : list Z) (len : Z) s : option S :=
  if len <? 20 then Some s else
  dp ← rd16 seg 2; sp ← rd16 seg 0; flags ← rd seg 13; sq ← rd32 seg 4; ak ← rd32 seg 8; off ← rd seg 12;
  let hdr_len := Z.shiftr off 4 * 4 in
  if (hdr_len <? 20) || (len <? hdr_len) then Some s else
  payload ← rdn seg hdr_len (len - hdr_len);
  Some (tcp_rx_seg (src h) (ntohs dp) (ntohs sp) flags (ntohl sq) (ntohl ak) payload s).

End Level.

Fixpoint tcp_rx_n (fuel : nat) (h : ip_hdr) (seg : list Z) (len : Z) s : option S :=
  match fuel with
  | O => Some s
  | Datatypes.S f => tcp_rx_level (tcp_rx_n f) h seg len s
  end.

Definition TCP_DEPTH : nat := 26.

Definition tcp_rx : ip_hdr -> list Z -> Z -> S -> option S := tcp_rx_n TCP_DEPTH.

(** ** The calls of the application *)

Definition tcp_listen (p c r k ud : Z) s : S * option Z :=
  if port_in_use (tcp s) p then (s, None) else
  match tcb_alloc (tcp s) with
  | None => (s, None)
  | Some (g, i) =>
      (upd (set_tcp s g) i (fun t => Tcb (in_use t) TCP_LISTEN true p (remote_ip t) (remote_port t) (snd_isn t) (snd_nxt t) (snd_una t)
        (rcv_isn t) (rcv_nxt t) c r k ud), Some i)
  end.

Definition tcp_connect (rip : list Z) (rport c r k ud : Z) s : S * option Z :=
  let '(g, lport) := alloc_ephemeral_port (tcp s) in
  let s := set_tcp s g in
  if lport =? 0 then (s, None) else
  match tcb_alloc (tcp s) with
  | None => (s, None)
  | Some (g, i) =>
      let s := set_tcp s g in
      let s := upd s i (fun t => Tcb (in_use t) TCP_SYN_SENT false lport rip rport (isn s) (u32 (isn s + 1)) (isn s)
        (rcv_isn t) 0 c r k ud) in
      let '(s, rc) := tcp_send_seg_seq tcp_rx i TCP_SYN [] (snd_isn (tcbn s i)) s in
      if rc <? 0 then (tcb_release i s, None) else (s, Some i)
  end.

Definition tcp_send (i : Z) (data : list Z) s : S * Z :=
  if negb (in_use (tcbn s i)) then (s, -1) else
  if negb (is_state (tcbn s i) TCP_ESTABLISHED) && negb (is_state (tcbn s i) TCP_CLOSE_WAIT) then (s, -1) else
  let seq := snd_nxt (tcbn s i) in
  let s := upd s i (fun t => set_snd_nxt t (u32 (snd_nxt t + zlen data))) in
  let '(s, rc) := tcp_send_seg_seq tcp_rx i (Z.lor TCP_PSH TCP_ACK) data seq s in
  if rc <? 0 then (upd s i (fun t => set_snd_nxt t seq), -1) else (s, zlen data).

Definition tcp_close (i : Z) s : S * Z :=
  if negb (in_use (tcbn s i)) then (s, -1) else
  match state (tcbn s i) with
  | TCP_LISTEN => (tcb_release i s, 0)
  | TCP_ESTABLISHED =>
      let fin_seq := snd_nxt (tcbn s i) in
      let s := upd s i (fun t => set_state (set_snd_nxt t (u32 (snd_nxt t + 1))) TCP_FIN_WAIT_1) in
      (fst (tcp_send_seg_seq tcp_rx i (Z.lor TCP_FIN TCP_ACK) [] fin_seq s), 0)
  | TCP_CLOSE_WAIT =>
      let fin_seq := snd_nxt (tcbn s i) in
      let s := upd s i (fun t => set_state (set_snd_nxt t (u32 (snd_nxt t + 1))) TCP_LAST_ACK) in
      (fst (tcp_send_seg_seq tcp_rx i (Z.lor TCP_FIN TCP_ACK) [] fin_seq s), 0)
  | TCP_SYN_SENT => (tcb_release i s, 0)
  | _ => (s, 0)
  end.

Definition tcp_state_of (i : Z) s : tcp_state := if in_use (tcbn s i) then state (tcbn s i) else TCP_CLOSED.

End Tcp.

(** ** Reading a segment back *)

Lemma le32_put32 v : 0 <= v < 4294967296 ->
  u8 v + 256 * u8 (Z.shiftr v 8) + 65536 * (u8 (Z.shiftr v 16) + 256 * u8 (Z.shiftr v 24)) = v.
Proof.
  intros R. rewrite !Z.shiftr_div_pow2 by lia. change (2 ^ 8) with 256. change (2 ^ 16) with 65536. change (2 ^ 24) with 16777216.
  destruct (bytes4 v R) as (a & b & c & d & Ra & Rb & Rc & Rd & E & Ea & Eb & Ec & Ed). unfold u8. rewrite Ea, Eb, Ec, Ed.
  rewrite (Z.mod_small d) by lia. lia.
Qed.

Lemma segment_fields sport dport seq ack flags data c :
  0 <= seq < 4294967296 -> 0 <= ack < 4294967296 ->
  let seg := store16 (segment sport dport seq ack flags data) 16 c in
  zlen seg = 20 + zlen data /\ zget seg 12 = 80 /\ zget seg 13 = flags /\ le16 seg 0 = htons sport /\ le16 seg 2 = htons dport /\
  le32 seg 4 = htonl seq /\ le32 seg 8 = htonl ack /\ slice seg 20 (zlen data) = data.
Proof.
  intros Sq Ak seg.
  set (pre := put16 (htons sport) ++ put16 (htons dport) ++ put32 (htonl seq) ++ put32 (htonl ack) ++ [80; flags] ++
    put16 (htons TCP_RX_BUF) ++ put16 c ++ put16 0).
  assert (E : seg = pre ++ data) by reflexivity. assert (L : zlen pre = 20) by reflexivity.
  assert (P : forall v, u8 (htons v) + 256 * u8 (Z.shiftr (htons v) 8) = htons v).
  { intros v. exact (le16_put16 (htons v) [] 0 (htons_range v) ltac:(done)). }
  split_and!.
  - rewrite E, zlen_app, L. done.
  - reflexivity.
  - reflexivity.
  - exact (P sport).
  - exact (P dport).
  - exact (le32_put32 (htonl seq) (htonl_range seq Sq)).
  - exact (le32_put32 (htonl ack) (htonl_range ack Ak)).
  - rewrite E. unfold slice. rewrite zdrop_app_at by done. unfold ztake, zlen. rewrite Nat2Z.id. apply firstn_all.
Qed.

(** ** The table *)

Section Proofs.
Context {W : Type} (drivers : list (driver W)).
Context (udp_cb : Z -> list Z -> Z -> list Z -> net tcps W -> net tcps W) (pit_ticks : W -> Z) `{TcpUser W}.

Local Abbreviation S := (net tcps W).
Implicit Types s : S.

Local Abbreviation tcp_send_seg_seq := (tcp_send_seg_seq drivers udp_cb).
Local Abbreviation tcp_send_ack := (tcp_send_ack drivers udp_cb).
Local Abbreviation tcp_rx_level := (tcp_rx_level drivers udp_cb pit_ticks).
Local Abbreviation tcp_rx_seg := (tcp_rx_seg drivers udp_cb pit_ticks).
Local Abbreviation tcp_rx_n := (tcp_rx_n drivers udp_cb pit_ticks).

Definition table_ok s : Prop := zlen (g_tcbs (tcp s)) = TCP_MAX_TCBS.

(** The slots not in use. *)
Definition nfree (g : tcps) : Z := countb (fun i => negb (in_use (zget (g_tcbs g) i))) (Z.to_nat TCP_MAX_TCBS).

Lemma tcb_alloc_spec g g' i : zlen (g_tcbs g) = TCP_MAX_TCBS -> tcb_alloc g = Some (g', i) ->
  0 <= i < TCP_MAX_TCBS /\ in_use (zget (g_tcbs g) i) = false /\ zlen (g_tcbs g') = TCP_MAX_TCBS /\ nfree g' = nfree g - 1 /\
  g_next_eph g' = g_next_eph g /\ in_use (zget (g_tcbs g') i) = true /\ (forall j, 0 <= j -> j <> i -> zget (g_tcbs g') j = zget (g_tcbs g) j).
Proof.
  intros L E. unfold tcb_alloc in E. destruct (zfind _ 0 _) as [k|] eqn:F; [| done]. injection E as <- <-.
  apply zfind_Some in F as (R & P & _). change (Z.of_nat (Z.to_nat TCP_MAX_TCBS)) with 24 in R. unfold TCP_MAX_TCBS in *.
  apply negb_true_iff in P. cbn [g_tcbs g_next_eph]. split_and!; try done; try lia.
  - by rewrite zlen_zset.
  - unfold nfree. cbn [g_tcbs]. apply (countb_clear _ _ _ k).
    + change (Z.of_nat (Z.to_nat TCP_MAX_TCBS)) with 24. lia.
    + by rewrite P.
    + by rewrite zget_zset_eq by lia.
    + intros j Rj Ne. by rewrite zget_zset_ne by lia.
  - by rewrite zget_zset_eq by lia.
  - intros j Rj Ne. apply zget_zset_ne; lia.
Qed.

Lemma nfree_range g : 0 <= nfree g <= TCP_MAX_TCBS.
Proof. unfold nfree. pose proof (countb_bounds (fun i => negb (in_use (zget (g_tcbs g) i))) (Z.to_nat TCP_MAX_TCBS)). unfold TCP_MAX_TCBS in *. lia. Qed.

Lemma tcb_alloc_free g : 0 < nfree g <-> is_Some (tcb_alloc g).
Proof.
  unfold tcb_alloc, nfree. destruct (zfind _ 0 _) as [k|] eqn:F.
  - split; [by eexists | intros _]. apply zfind_Some in F as (R & P & _).
    pose proof (countb_bounds (fun i => negb (in_use (zget (g_tcbs g) i))) (Z.to_nat TCP_MAX_TCBS)) as B.
    destruct (decide (countb (fun i => negb (in_use (zget (g_tcbs g) i))) (Z.to_nat TCP_MAX_TCBS) = 0)) as [E0 |]; [| lia].
    rewrite (countb_set (fun i => negb (in_use (zget (g_tcbs g) i)) && negb (i =? k)) _ _ k) in E0.
    + pose proof (countb_bounds (fun i => negb (in_use (zget (g_tcbs g) i)) && negb (i =? k)) (Z.to_nat TCP_MAX_TCBS)). lia.
    + lia.
    + by rewrite Z.eqb_refl, andb_false_r.
    + done.
    + intros j Rj Ne. by rewrite (proj2 (Z.eqb_neq j k)), andb_true_r by done.
  - rewrite zfind_None in F. rewrite (countb_ext _ (fun _ => false)).
    + split; [vm_compute; discriminate | intros (? & ?); done].
    + intros j Rj. apply F. lia.
Qed.

Lemma tcbn_upd s i f : 0 <= i < zlen (g_tcbs (tcp s)) -> tcbn (upd s i f) i = f (tcbn s i).
Proof. intros R. unfold tcbn, upd. cbn [tcp set_tcp g_tcbs]. by rewrite zget_zset_eq. Qed.

Lemma tcbn_upd_ne s i j f : 0 <= i -> 0 <= j -> i <> j -> tcbn (upd s i f) j = tcbn s j.
Proof. intros. unfold tcbn, upd. cbn [tcp set_tcp g_tcbs]. by rewrite zget_zset_ne. Qed.

(** ** The recursion *)

(** Loopback reaches the receiver on exactly this state and payload, or not at all. *)
Lemma ip_send_ext (rx1 rx2 : ip_hdr -> list Z -> Z -> S -> option S) d pr payload s :
  (forall h, src h = d -> rx1 h payload (zlen payload) s = rx2 h payload (zlen payload) s) ->
  ip_send drivers rx1 udp_cb d pr payload s = ip_send drivers rx2 udp_cb d pr payload s.
Proof.
  intros E. unfold ip_send. destruct (1500 - 20 <? zlen payload); [done |]. unfold try_loopback.
  destruct (negb (zget d 0 =? 127) && negb (we_have_ip s && ip_eq d (my_ip s))); [done |].
  destruct (pr =? IP_PROTO_TCP); [by rewrite E | done].
Qed.

(** An ACK without data is answered by nothing. *)
Lemma rx_seg_ack rx1 rx2 src_ip dp sp seq ack s :
  tcp_rx_seg rx1 src_ip dp sp TCP_ACK seq ack [] s = tcp_rx_seg rx2 src_ip dp sp TCP_ACK seq ack [] s.
Proof.
  unfold TCP.tcp_rx_seg. destruct (find_tcb_for_seg _ _ _ _ _) as [i|]; [| done].
  change (has TCP_ACK TCP_SYN) with false. change (has TCP_ACK TCP_RST) with false.
  cbn [negb]. destruct (is_state _ _); [done |]. by destruct (state _).
Qed.

(** The segment a connection sends, and how [tcp_rx] reads it. *)
Definition out_seg s (i flags : Z) (data : list Z) (seq : Z) : list Z :=
  let t := tcbn s i in let seg := segment (local_port t) (remote_port t) seq (rcv_nxt t) flags data in
  store16 seg 16 (tcp_checksum (my_ip s) (remote_ip t) seg).

Definition tcb_ok (t : tcb) : Prop :=
  0 <= local_port t < 65536 /\ 0 <= remote_port t < 65536 /\ 0 <= snd_nxt t < 4294967296 /\ 0 <= rcv_nxt t < 4294967296.

Lemma tcp_rx_out rx s i flags data seq h s' :
  tcb_ok (tcbn s i) -> 0 <= seq < 4294967296 ->
  tcp_rx_level rx h (out_seg s i flags data seq) (20 + zlen data) s' =
    Some (tcp_rx_seg rx (src h) (remote_port (tcbn s i)) (local_port (tcbn s i)) flags seq (rcv_nxt (tcbn s i)) data s').
Proof.
  intros (R1 & R2 & R3 & R4) Sq. unfold TCP.tcp_rx_level. pose proof (zlen_nonneg data).
  destruct (segment_fields (local_port (tcbn s i)) (remote_port (tcbn s i)) seq (rcv_nxt (tcbn s i)) flags data
    (tcp_checksum (my_ip s) (remote_ip (tcbn s i)) (segment (local_port (tcbn s i)) (remote_port (tcbn s i)) seq (rcv_nxt (tcbn s i)) flags data)) Sq R4)
    as (F1 & F2 & F3 & F4 & F5 & F6 & F7 & F8). fold (out_seg s i flags data seq) in *.
  rewrite (proj2 (Z.ltb_ge (20 + zlen data) 20)) by lia. rewrite !rd16_in, !rd32_in, !rd_in by lia. cbn [mbind option_bind]. cbv zeta.
  rewrite F2. change (Z.shiftr 80 4 * 4) with 20. change (20 <? 20) with false.
  rewrite (proj2 (Z.ltb_ge (20 + zlen data) 20)) by lia. cbn [orb]. replace (20 + zlen data - 20) with (zlen data) by lia.
  rewrite rdn_in by lia. cbn [mbind option_bind]. by rewrite F3, F4, F5, F6, F7, F8, !ntohs_htons, !ntohl_htonl by done.
Qed.

Lemma zlen_out_seg s i flags data seq : tcb_ok (tcbn s i) -> 0 <= seq < 4294967296 -> zlen (out_seg s i flags data seq) = 20 + zlen data.
Proof. intros (_ & _ & _ & R4) Sq. apply (segment_fields (local_port (tcbn s i)) (remote_port (tcbn s i)) seq (rcv_nxt (tcbn s i)) flags data _ Sq R4). Qed.

Lemma tcp_rx_out_any s i flags seq : exists dp sp q a, forall rx h s',
  tcp_rx_level rx h (out_seg s i flags [] seq) (zlen (out_seg s i flags [] seq)) s' = Some (tcp_rx_seg rx (src h) dp sp flags q a [] s').
Proof. by eexists _, _, _, _. Qed.

Lemma send_ext rx1 rx2 i flags seq s :
  (forall h, rx1 h (out_seg s i flags [] seq) (zlen (out_seg s i flags [] seq)) s = rx2 h (out_seg s i flags [] seq) (zlen (out_seg s i flags [] seq)) s) ->
  tcp_send_seg_seq rx1 i flags [] seq s = tcp_send_seg_seq rx2 i flags [] seq s.
Proof. intros E. unfold TCP.tcp_send_seg_seq. cbv zeta. fold (out_seg s i flags [] seq). by rewrite (ip_send_ext rx1 rx2). Qed.

Lemma send_ack_ext n m i s : tcp_send_ack (tcp_rx_n (Datatypes.S n)) i TCP_ACK s = tcp_send_ack (tcp_rx_n (Datatypes.S m)) i TCP_ACK s.
Proof.
  unfold TCP.tcp_send_ack. apply (f_equal fst), send_ext. intros h.
  destruct (tcp_rx_out_any s i TCP_ACK (snd_nxt (tcbn s i))) as (dp & sp & q & a & E).
  change (tcp_rx_level (tcp_rx_n n) h (out_seg s i TCP_ACK [] (snd_nxt (tcbn s i))) (zlen (out_seg s i TCP_ACK [] (snd_nxt (tcbn s i)))) s =
    tcp_rx_level (tcp_rx_n m) h (out_seg s i TCP_ACK [] (snd_nxt (tcbn s i))) (zlen (out_seg s i TCP_ACK [] (snd_nxt (tcbn s i)))) s).
  rewrite !E. apply (f_equal Some), rx_seg_ack.
Qed.

(** Two receivers whose answers to ACKs agree. *)
Definition acks_agree (rx1 rx2 : ip_hdr -> list Z -> Z -> S -> option S) : Prop :=
  forall i s, tcp_send_ack rx1 i TCP_ACK s = tcp_send_ack rx2 i TCP_ACK s.

Lemma established_ext rx1 rx2 i flags seq ack payload s : acks_agree rx1 rx2 ->
  established_rx drivers udp_cb rx1 i flags seq ack payload s = established_rx drivers udp_cb rx2 i flags seq ack payload s.
Proof. intros E. unfold established_rx. cbv zeta. by rewrite !E. Qed.

Lemma rx_seg_ext rx1 rx2 src_ip dp sp flags seq ack payload s : acks_agree rx1 rx2 ->
  (forall l, spawn_conn_from_listener drivers udp_cb pit_ticks rx1 l src_ip sp seq s =
             spawn_conn_from_listener drivers udp_cb pit_ticks rx2 l src_ip sp seq s) ->
  tcp_rx_seg rx1 src_ip dp sp flags seq ack payload s = tcp_rx_seg rx2 src_ip dp sp flags seq ack payload s.
Proof.
  intros A E. unfold TCP.tcp_rx_seg. destruct (find_tcb_for_seg _ _ _ _ _) as [i|]; [| done].
  destruct (is_state _ _); [by rewrite E |]. destruct (has flags TCP_RST); [done |].
  destruct (state (tcbn s i)); try done.
  - unfold syn_sent_rx. cbv zeta. by rewrite !A.
  - cbv zeta. by rewrite (established_ext rx1 rx2).
  - by rewrite (established_ext rx1 rx2).
  - unfold fin_wait_fin. cbv zeta. by rewrite !A.
  - unfold fin_wait_fin. cbv zeta. by rewrite !A.
Qed.

Lemma nfree_upd s i f : 0 <= i -> table_ok s -> in_use (tcbn s i) = true -> (forall t, in_use (f t) = true) -> nfree (tcp (upd s i f)) = nfree (tcp s).
Proof.
  intros R L U F. unfold nfree. apply countb_ext. intros j Rj. fold (tcbn (upd s i f) j). fold (tcbn s j).
  destruct (decide (j = i)) as [-> | Ne]; [| by rewrite tcbn_upd_ne by lia].
  rewrite tcbn_upd, F, U; [done |]. unfold table_ok in L. rewrite L. done.
Qed.

Lemma table_ok_upd s i f : table_ok s -> table_ok (upd s i f).
Proof. unfold table_ok, upd. cbn [tcp set_tcp g_tcbs]. by rewrite zlen_zset. Qed.

Lemma level_ext rx1 rx2 h seg len s : acks_agree rx1 rx2 ->
  (forall l src_ip sp seq, spawn_conn_from_listener drivers udp_cb pit_ticks rx1 l src_ip sp seq s =
                           spawn_conn_from_listener drivers udp_cb pit_ticks rx2 l src_ip sp seq s) ->
  tcp_rx_level rx1 h seg len s = tcp_rx_level rx2 h seg len s.
Proof.
  intros A E. unfold TCP.tcp_rx_level. destruct (len <? 20); [done |].
  destruct (rd16 seg 2), (rd16 seg 0), (rd seg 13), (rd32 seg 4), (rd32 seg 8), (rd seg 12); cbn [mbind option_bind]; try done.
  cbv zeta. destruct (orb _ _); [done |]. destruct (rdn _ _ _); cbn [mbind option_bind]; [| done].
  apply (f_equal Some), rx_seg_ext; [exact A | intros; apply E].
Qed.

Lemma tcp_rx_n_S n h seg len s : tcp_rx_n (Datatypes.S n) h seg len s = tcp_rx_level (tcp_rx_n n) h seg len s.
Proof. reflexivity. Qed.

Lemma spawn_ext rx1 rx2 l src_ip sp seq s : table_ok s ->
  (forall h seg s', table_ok s' -> nfree (tcp s') = nfree (tcp s) - 1 -> rx1 h seg (zlen seg) s' = rx2 h seg (zlen seg) s') ->
  spawn_conn_from_listener drivers udp_cb pit_ticks rx1 l src_ip sp seq s =
  spawn_conn_from_listener drivers udp_cb pit_ticks rx2 l src_ip sp seq s.
Proof.
  intros T E. unfold spawn_conn_from_listener. destruct (tcb_alloc (tcp s)) as [[g c]|] eqn:A; [| done].
  destruct (tcb_alloc_spec _ _ _ T A) as (R & U & L' & Nf & _ & U' & _). cbv zeta. apply (f_equal fst), send_ext. intros h. apply E.
  - apply table_ok_upd. exact L'.
  - rewrite nfree_upd; try done; lia.
Qed.

Lemma rx_depth k : forall h seg len s n m, table_ok s -> nfree (tcp s) <= Z.of_nat k -> (k + 2 <= n)%nat -> (k + 2 <= m)%nat ->
  tcp_rx_n n h seg len s = tcp_rx_n m h seg len s.
Proof.
  induction k as [|k IH]; intros h seg len s n m T F Ln Lm;
    (destruct n as [|n]; [lia |]); (destruct m as [|m]; [lia |]); rewrite !tcp_rx_n_S;
    (apply level_ext; [destruct n as [|n]; [lia |]; destruct m as [|m]; [lia |]; intros i' s'; apply send_ack_ext |]);
    intros l src_ip sp seq; (apply spawn_ext; [exact T |]); intros h' seg' s' T' F'.
  - pose proof (nfree_range (tcp s')). lia.
  - apply IH; lia || exact T'.
Qed.

(** C22. The recursion of [tcp_rx] through loopback sends ends: two levels more than
    there are free connections are enough for any segment in any state, so the
    depth [tcp_rx] is given is never used up. *)
Theorem tcp_rx_terminates h seg len s n :
  table_ok s -> (Z.to_nat (nfree (tcp s)) + 2 <= n)%nat -> tcp_rx_n n h seg len s = tcp_rx drivers udp_cb pit_ticks h seg len s.
Proof.
  intros T L. unfold tcp_rx. pose proof (nfree_range (tcp s)). unfold TCP_MAX_TCBS in *.
  apply (rx_depth (Z.to_nat (nfree (tcp s)))); [done | lia | done | unfold TCP_DEPTH; lia].
Qed.

(** ** Reads past the frame *)

(** A segment is read within the bytes its length counts. *)
Lemma tcp_rx_in_range h seg len s : len <= zlen seg -> tcp_rx drivers udp_cb pit_ticks h seg len s <> None.
Proof.
  intros L. unfold tcp_rx, TCP_DEPTH. rewrite tcp_rx_n_S. unfold TCP.tcp_rx_level. destruct (Z.ltb_spec len 20); [done |].
  rewrite !rd16_in, !rd32_in, !rd_in by lia. cbn [mbind option_bind]. cbv zeta.
  destruct ((Z.shiftr (zget seg 12) 4 * 4 <? 20) || (len <? Z.shiftr (zget seg 12) 4 * 4)) eqn:Q; [done |]. apply orb_false_iff in Q as [Q1 Q2]. zb.
  by rewrite rdn_in by lia.
Qed.

(** C21. Any Ethernet frame, however malformed, is read within its bytes by the whole receive path (Ethernet, ARP, the IP header, ICMP, UDP, TCP and
    the payloads handed to the callbacks), with one exception: an accepted ICMP packet whose total length is
    smaller than its header length.  There the body length wraps around and the checksum runs past the frame.  Every
    read of the receivers is checked against the bytes of the frame ([WIRE.rd], [WIRE.rdn]), so the theorem rests on each of their guards. *)
Theorem eth_rx_bounds frame s :
  zlen frame <= 1518 -> eth_rx drivers (tcp_rx drivers udp_cb pit_ticks) udp_cb pit_ticks frame s = None <-> truncated_icmp frame s = true.
Proof. apply eth_rx_reads. intros h seg len s'. apply tcp_rx_in_range. Qed.

(** ** Two ends of one host

    A connection of the host to itself: connections [i] and [j], with the control
    blocks [a] and [b], in the world [w]; everything else is as in [s]. *)

Definition matches (t : tcb) (dp sp : Z) (ip : list Z) : bool :=
  in_use t && negb (is_state t TCP_LISTEN) && negb (is_state t TCP_CLOSED) && (local_port t =? dp) && (remote_port t =? sp) &&
  ip_eq (remote_ip t) ip.

Definition alive (t : tcb) : bool := in_use t && negb (is_state t TCP_LISTEN) && negb (is_state t TCP_CLOSED).

(** [d] is an address of this host. *)
Definition loop_addr s (d : list Z) : Prop := addr_ok d /\ (zget d 0 = 127 \/ (we_have_ip s = true /\ d = my_ip s)).

(** No other connection has the 4-tuple of either end. *)
Definition alone s (i j p q : Z) (d : list Z) : Prop := forall k, 0 <= k < TCP_MAX_TCBS -> k <> i -> k <> j ->
  matches (tcbn s k) p q d = false /\ matches (tcbn s k) q p d = false.

(** The two control blocks face each other. *)
Definition facing (a b : tcb) (d : list Z) : Prop :=
  local_port a = remote_port b /\ remote_port a = local_port b /\ local_port a <> remote_port a /\ remote_ip a = d /\ remote_ip b = d /\
  tcb_ok a /\ tcb_ok b.

Definition pst s (i j : Z) (a b : tcb) (w : W) : S :=
  set_world (set_tcp s (Tcps (zset (zset (g_tcbs (tcp s)) i a) j b) (g_next_eph (tcp s)))) w.

Definition slots (i j : Z) : Prop := 0 <= i < TCP_MAX_TCBS /\ 0 <= j < TCP_MAX_TCBS /\ i <> j.

Lemma facing_sym a b d : facing a b d -> facing b a d.
Proof. intros (E1 & E2 & N & R1 & R2 & O1 & O2). split_and!; try done. congruence. Qed.

Lemma alone_sym s i j p q d : alone s i j p q d -> alone s j i q p d.
Proof. intros A k R N1 N2. destruct (A k R N2 N1). done. Qed.

Lemma pst_swap s i j a b w : slots i j -> pst s i j a b w = pst s j i b a w.
Proof. intros (R1 & R2 & N). unfold pst, zset. rewrite list_insert_insert_ne by lia. done. Qed.

Lemma pst_self s i j : table_ok s -> slots i j -> s = pst s i j (tcbn s i) (tcbn s j) (world s).
Proof.
  intros T (R1 & R2 & N). unfold table_ok in T. unfold pst, tcbn. rewrite !zset_id by (rewrite ?T; lia). by destruct s as [? ? ? ? ? []].
Qed.

Section Pair.
Context s (i j : Z) (T : table_ok s) (Sl : slots i j).

Lemma tcbn_pst_j a b w : tcbn (pst s i j a b w) j = b.
Proof. destruct Sl as (R1 & R2 & N). unfold tcbn, pst. cbn. apply zget_zset_eq. rewrite zlen_zset. unfold table_ok in T. lia. Qed.

Lemma tcbn_pst_i a b w : tcbn (pst s i j a b w) i = a.
Proof.
  destruct Sl as (R1 & R2 & N). unfold tcbn, pst. cbn. rewrite zget_zset_ne by lia. apply zget_zset_eq. unfold table_ok in T. lia.
Qed.

Lemma tcbn_pst_k a b w k : 0 <= k -> k <> i -> k <> j -> tcbn (pst s i j a b w) k = tcbn s k.
Proof. destruct Sl as (R1 & R2 & N). intros. unfold tcbn, pst. cbn. by rewrite !zget_zset_ne by lia. Qed.

Lemma upd_pst_j a b w f : upd (pst s i j a b w) j f = pst s i j a (f b) w.
Proof. unfold upd. rewrite tcbn_pst_j. unfold pst. cbn. by rewrite zset_zset. Qed.

Lemma upd_pst_i a b w f : upd (pst s i j a b w) i f = pst s i j (f a) b w.
Proof.
  destruct Sl as (R1 & R2 & N). unfold upd. rewrite tcbn_pst_i. unfold pst, zset. cbn.
  rewrite (list_insert_insert_ne _ (Z.to_nat i) (Z.to_nat j)), list_insert_insert_eq by lia. done.
Qed.

Lemma upd_first f : upd s i f = pst s i j (f (tcbn s i)) (tcbn s j) (world s).
Proof. rewrite <- (upd_pst_i (tcbn s i) (tcbn s j) (world s) f). by rewrite <- pst_self. Qed.

Lemma table_ok_pst a b w : table_ok (pst s i j a b w).
Proof. unfold table_ok, pst. cbn. rewrite !zlen_zset. exact T. Qed.

(** Demultiplexing to [j]. *)
Lemma find_j a b w d flags : facing a b d -> alone s i j (local_port a) (remote_port a) d -> alive b = true ->
  find_tcb_for_seg (remote_port a) (local_port a) d flags (tcp (pst s i j a b w)) = Some j.
Proof.
  intros (E1 & E2 & N & Ra & Rb & _) A L. destruct Sl as (R1 & R2 & Ne). unfold find_tcb_for_seg.
  rewrite (zfind_least _ _ _ j); [done | change (Z.of_nat (Z.to_nat TCP_MAX_TCBS)) with TCP_MAX_TCBS; lia | |].
  - fold (tcbn (pst s i j a b w) j). rewrite tcbn_pst_j. unfold alive in L. by rewrite L, E2, E1, Rb, !Z.eqb_refl, ip_eq_refl.
  - intros k K. fold (tcbn (pst s i j a b w) k). destruct (decide (k = i)) as [-> | Nk].
    + rewrite tcbn_pst_i. rewrite (proj2 (Z.eqb_neq (local_port a) (remote_port a))) by done. by rewrite andb_false_r.
    + rewrite tcbn_pst_k by lia. apply (A k); lia.
Qed.

(** A segment from [i] over loopback is received in the same state. *)
Lemma send_loop_any n flags data seq a b w d : remote_ip a = d -> tcb_ok a -> loop_addr s d -> zlen data <= 1460 -> 0 <= seq < 4294967296 ->
  tcp_send_seg_seq (tcp_rx_n (Datatypes.S n)) i flags data seq (pst s i j a b w) =
    (tcp_rx_seg (tcp_rx_n n) d (remote_port a) (local_port a) flags seq (rcv_nxt a) data (pst s i j a b w), 0).
Proof.
  intros Ra Oa (_ & Lo) Ld Sq. unfold TCP.tcp_send_seg_seq.
  rewrite (proj2 (Z.ltb_ge 1500 _)) by lia. cbv zeta. fold (out_seg (pst s i j a b w) i flags data seq).
  assert (Oa' : tcb_ok (tcbn (pst s i j a b w) i)) by by rewrite tcbn_pst_i.
  pose proof (zlen_out_seg _ _ flags data seq Oa' Sq) as Lz. rewrite tcbn_pst_i, Ra.
  unfold ip_send. rewrite Lz, (proj2 (Z.ltb_ge (1500 - 20) _)) by lia. unfold try_loopback.
  assert (C : negb (zget d 0 =? 127) && negb (we_have_ip (pst s i j a b w) && ip_eq d (my_ip (pst s i j a b w))) = false).
  { change (we_have_ip (pst s i j a b w)) with (we_have_ip s). change (my_ip (pst s i j a b w)) with (my_ip s).
    destruct Lo as [-> | (-> & ->)]; [done | by rewrite ip_eq_refl, andb_false_r]. }
  rewrite C. change (IP_PROTO_TCP =? IP_PROTO_TCP) with true. cbv iota. rewrite tcp_rx_n_S, Lz, tcp_rx_out by done.
  by rewrite tcbn_pst_i.
Qed.

Lemma send_loop n flags data seq a b w d : facing a b d -> loop_addr s d -> zlen data <= 1460 -> 0 <= seq < 4294967296 ->
  tcp_send_seg_seq (tcp_rx_n (Datatypes.S n)) i flags data seq (pst s i j a b w) =
    (tcp_rx_seg (tcp_rx_n n) d (remote_port a) (local_port a) flags seq (rcv_nxt a) data (pst s i j a b w), 0).
Proof. intros (_ & _ & _ & Ra & _ & Oa & _). by apply send_loop_any. Qed.

Lemma recv_j rx flags seq ack data a b w d : facing a b d -> alone s i j (local_port a) (remote_port a) d -> alive b = true ->
  has flags TCP_RST = false ->
  tcp_rx_seg rx d (remote_port a) (local_port a) flags seq ack data (pst s i j a b w) =
    let s := pst s i j a b w in
    match state b with
    | TCP_SYN_SENT => syn_sent_rx drivers udp_cb rx j flags seq ack data s
    | TCP_SYN_RCVD =>
        if negb (has flags TCP_ACK) then s else
        if negb (ack =? snd_nxt b) then s else
        established_rx drivers udp_cb rx j flags seq ack data (fire_connect j (upd s j (fun t => set_state (set_snd_una t ack) TCP_ESTABLISHED)))
    | TCP_ESTABLISHED => established_rx drivers udp_cb rx j flags seq ack data s
    | TCP_FIN_WAIT_1 =>
        fin_wait_fin drivers udp_cb rx j flags
          (if has flags TCP_ACK && (ack =? snd_nxt b) then upd s j (fun t => set_state (set_snd_una t ack) TCP_FIN_WAIT_2) else s)
    | TCP_FIN_WAIT_2 => fin_wait_fin drivers udp_cb rx j flags s
    | TCP_LAST_ACK => if has flags TCP_ACK && (ack =? snd_nxt b) then tcb_release j (fire_close j s) else s
    | _ => s
    end.
Proof.
  intros F A L R. unfold TCP.tcp_rx_seg. rewrite (find_j a b w d flags F A L), tcbn_pst_j, R. cbv zeta.
  unfold alive in L. rewrite !andb_true_iff in L. destruct L as ((_ & L) & _). apply negb_true_iff in L. by rewrite L.
Qed.

End Pair.

(** What the callbacks make of a connection and the world. *)
Definition connected (t : tcb) (i : Z) (w : W) : W * tcb :=
  if on_connect t =? 0 then (w, t) else let '(w', ud) := connect_cb (on_connect t) i (user_data t) w in (w', set_user_data t ud).

Definition received (t : tcb) (i : Z) (data : list Z) (w : W) : W :=
  if on_recv t =? 0 then w else recv_cb (on_recv t) i (user_data t) data w.

Definition closed (t : tcb) (i : Z) (w : W) : W := if on_close t =? 0 then w else close_cb (on_close t) i (user_data t) w.

Lemma facing_rcv a b d x : facing a b d -> facing (set_rcv_nxt a (u32 x)) b d.
Proof.
  intros (? & ? & ? & ? & ? & (? & ? & ? & ?) & ?). pose proof (u32_range x).
  split; [done |]. split; [done |]. split; [done |]. split; [done |]. split; [done |]. split; [| done].
  split; [done |]. split; [done |]. by split.
Qed.

Lemma facing_snd a b d x : facing a b d -> facing (set_snd_nxt a (u32 x)) b d.
Proof.
  intros (? & ? & ? & ? & ? & (? & ? & ? & ?) & ?). pose proof (u32_range x).
  split; [done |]. split; [done |]. split; [done |]. split; [done |]. split; [done |]. split; [| done].
  split; [done |]. split; [done |]. by split.
Qed.

Section Steps.
Context s (i j : Z) (d : list Z) (T : table_ok s) (Sl : slots i j) (Lo : loop_addr s d).

Local Abbreviation P := (pst s i j).

Lemma fire_connect_j a b w : fire_connect j (P a b w) = P a (snd (connected b j w)) (fst (connected b j w)).
Proof.
  unfold fire_connect, connected. rewrite tcbn_pst_j by done. change (world (P a b w)) with w.
  destruct (on_connect b =? 0); [done |]. destruct (connect_cb _ _ _ _) as [w' ud].
  change (set_world (P a b w) w') with (P a b w'). by rewrite upd_pst_j.
Qed.

Lemma fire_recv_j a b w data : fire_recv j data (P a b w) = P a b (received b j data w).
Proof. unfold fire_recv, received. rewrite tcbn_pst_j by done. by destruct (on_recv b =? 0). Qed.

Lemma fire_close_j a b w : fire_close j (P a b w) = P a b (closed b j w).
Proof. unfold fire_close, closed. rewrite tcbn_pst_j by done. by destruct (on_close b =? 0). Qed.

Lemma release_j a b w : tcb_release j (P a b w) = P a (released b) w.
Proof. unfold tcb_release. by rewrite upd_pst_j. Qed.

(** The ACK [i] sends, by the state of the other end. *)
Lemma ack_to n a b w : facing a b d -> alone s i j (local_port a) (remote_port a) d -> alive b = true ->
  tcp_send_ack (tcp_rx_n (Datatypes.S n)) i TCP_ACK (P a b w) =
    let ack := rcv_nxt a in
    match state b with
    | TCP_SYN_RCVD =>
        if negb (ack =? snd_nxt b) then P a b w else
        let '(w, b) := connected (set_state (set_snd_una b ack) TCP_ESTABLISHED) j w in P a (set_snd_una b ack) w
    | TCP_ESTABLISHED => P a (set_snd_una b ack) w
    | TCP_FIN_WAIT_1 => P a (if ack =? snd_nxt b then set_state (set_snd_una b ack) TCP_FIN_WAIT_2 else b) w
    | TCP_LAST_ACK => if ack =? snd_nxt b then P a (released b) (closed b j w) else P a b w
    | _ => P a b w
    end.
Proof.
  intros F A L. unfold TCP.tcp_send_ack. rewrite tcbn_pst_i by done.
  assert (Sq : 0 <= snd_nxt a < 4294967296) by apply F.
  rewrite (send_loop s i j T Sl n TCP_ACK [] (snd_nxt a) a b w d F Lo ltac:(done) Sq). cbn [fst].
  rewrite (recv_j s i j T Sl (tcp_rx_n n) TCP_ACK (snd_nxt a) (rcv_nxt a) [] a b w d F A L eq_refl).
  change (has TCP_ACK TCP_ACK) with true. cbv zeta. cbn [negb andb].
  destruct (state b); try done.
  - destruct (rcv_nxt a =? snd_nxt b); [cbn [negb] | done]. rewrite upd_pst_j, fire_connect_j by done.
    destruct (connected _ j w) as [w' b']. cbn [fst snd]. unfold established_rx. change (has TCP_ACK TCP_ACK) with true.
    change (has TCP_ACK TCP_FIN) with false. change (0 <? zlen []) with false. cbn [andb]. by rewrite upd_pst_j.
  - unfold established_rx. change (has TCP_ACK TCP_ACK) with true.
    change (has TCP_ACK TCP_FIN) with false. change (0 <? zlen []) with false. cbn [andb]. by rewrite upd_pst_j.
  - unfold fin_wait_fin. change (has TCP_ACK TCP_FIN) with false. destruct (rcv_nxt a =? snd_nxt b); [by rewrite upd_pst_j | done].
  - destruct (rcv_nxt a =? snd_nxt b); [| done]. by rewrite fire_close_j, release_j.
Qed.

End Steps.

(** An established connection of the host with itself. *)
Record session s (i j : Z) (d : list Z) : Prop := {
  se_table : table_ok s; se_slots : slots i j; se_addr : loop_addr s d; se_facing : facing (tcbn s i) (tcbn s j) d;
  se_alone : alone s i j (local_port (tcbn s i)) (remote_port (tcbn s i)) d;
  se_use : in_use (tcbn s i) = true /\ in_use (tcbn s j) = true;
  se_state : state (tcbn s i) = TCP_ESTABLISHED /\ state (tcbn s j) = TCP_ESTABLISHED;
  se_sync : snd_nxt (tcbn s i) = rcv_nxt (tcbn s j) /\ snd_nxt (tcbn s j) = rcv_nxt (tcbn s i)
}.

Lemma session_sym s i j d : session s i j d -> session s j i d.
Proof.
  intros [T (R1 & R2 & N) L F A (U1 & U2) (E1 & E2) (Y1 & Y2)]. pose proof F as (P1 & P2 & _).
  split; try done; [by apply facing_sym |]. rewrite <- P1, <- P2. by apply alone_sym.
Qed.

(** [s'] is [s] but for connections [i] and [j] and the world outside. *)
Definition only_changes s s' (i j : Z) : Prop :=
  s' = set_world (set_tcp s (tcp s')) (world s') /\ g_next_eph (tcp s') = g_next_eph (tcp s) /\
  zlen (g_tcbs (tcp s')) = zlen (g_tcbs (tcp s)) /\ forall k, 0 <= k -> k <> i -> k <> j -> tcbn s' k = tcbn s k.

Lemma only_changes_pst s i j a b w : slots i j -> only_changes s (pst s i j a b w) i j.
Proof.
  intros Sl. split_and!; try done.
  - unfold pst. cbn. by rewrite !zlen_zset.
  - intros k K N1 N2. by apply tcbn_pst_k.
Qed.

Lemma alone_pst s i j p q d a b w : slots i j -> alone s i j p q d -> alone (pst s i j a b w) i j p q d.
Proof. intros Sl A k R N1 N2. rewrite tcbn_pst_k by (done || lia). by apply A. Qed.

Lemma alive_in t x : in_use t = true -> state t = x -> x <> TCP_LISTEN -> x <> TCP_CLOSED -> alive t = true.
Proof.
  intros U E N1 N2. unfold alive, is_state. by rewrite U, E, !bool_decide_eq_false_2.
Qed.

(** What the application attached to a connection. *)
Definition same_app (t t' : tcb) : Prop :=
  on_connect t' = on_connect t /\ on_recv t' = on_recv t /\ on_close t' = on_close t /\ user_data t' = user_data t.

(** The outcome of sending [data] from [i] to [j]. *)
Definition transferred s (i j : Z) (d data : list Z) s' (rc : Z) : Prop :=
  (zlen data <= 1460 ->
     rc = zlen data /\ session s' i j d /\ session s' j i d /\ only_changes s s' i j /\
     same_app (tcbn s i) (tcbn s' i) /\ same_app (tcbn s j) (tcbn s' j) /\
     world s' = if 0 <? zlen data then received (tcbn s j) j data (world s) else world s) /\
  (1460 < zlen data -> rc = -1 /\ s' = s).

Lemma transfer_step s i j d data : session s i j d ->
  let '(s', rc) := tcp_send drivers udp_cb pit_ticks i data s in transferred s i j d data s' rc.
Proof.
  intros Se. pose proof Se as [T Sl Lo F A (U1 & U2) (E1 & E2) (Y1 & Y2)]. pose proof (zlen_nonneg data) as Zd.
  unfold tcp_send. rewrite U1. unfold is_state. rewrite E1, bool_decide_eq_true_2 by done. cbn [negb andb].
  rewrite (upd_first s i j T Sl). set (a := tcbn s i) in *. set (b := tcbn s j) in *. set (w := world s). set (a1 := set_snd_nxt a (u32 (snd_nxt a + zlen data))).
  destruct (decide (zlen data <= 1460)) as [Ld | Ld].
  2: { assert (Er : tcp_send_seg_seq (tcp_rx drivers udp_cb pit_ticks) i (Z.lor TCP_PSH TCP_ACK) data (snd_nxt a) (pst s i j a1 b w) =
         (pst s i j a1 b w, -1)).
    { unfold TCP.tcp_send_seg_seq. destruct (1500 <? 20 + zlen data) eqn:G; [done |]. zb. cbv zeta. unfold ip_send.
      fold (out_seg (pst s i j a1 b w) i (Z.lor TCP_PSH TCP_ACK) data (snd_nxt a)).
      assert (Oa : tcb_ok (tcbn (pst s i j a1 b w) i)) by (rewrite tcbn_pst_i by done; apply (facing_snd a b d (snd_nxt a + zlen data) F)).
      rewrite zlen_out_seg by (done || apply F). by rewrite (proj2 (Z.ltb_lt (1500 - 20) _)) by lia. }
    rewrite Er. change (-1 <? 0) with true. cbv iota. split; [lia |]. intros _. split; [done |]. rewrite upd_pst_i by done.
    replace (set_snd_nxt a1 (snd_nxt a)) with a by (unfold a1, set_snd_nxt; by destruct a). symmetry. by apply pst_self. }
  assert (F1 : facing a1 b d) by by apply facing_snd.
  unfold tcp_rx, TCP_DEPTH. rewrite (send_loop s i j T Sl 25 _ data (snd_nxt a) a1 b w d F1 Lo Ld ltac:(apply F)).
  change (0 <? 0) with false. cbv iota.
  rewrite (recv_j s i j T Sl (tcp_rx_n 25) (Z.lor TCP_PSH TCP_ACK) (snd_nxt a) (rcv_nxt a1) data a1 b w d F1 A (alive_in b _ U2 E2 ltac:(done) ltac:(done)) eq_refl).
  cbv zeta. rewrite E2. unfold established_rx. change (has (Z.lor TCP_PSH TCP_ACK) TCP_ACK) with true.
  change (has (Z.lor TCP_PSH TCP_ACK) TCP_FIN) with false. cbv iota. rewrite upd_pst_j by done. rewrite tcbn_pst_j by done.
  set (b1 := set_snd_una b (rcv_nxt a1)). change (rcv_nxt b1) with (rcv_nxt b). rewrite <- Y1, Z.eqb_refl, andb_true_r.
  destruct (Z.ltb_spec 0 (zlen data)) as [G | G].
  - cbv zeta. rewrite upd_pst_j by done. set (b2 := set_rcv_nxt b1 _).
    assert (F2 : facing b2 a1 d) by (apply facing_rcv, (facing_sym a1 b1), F1).
    pose proof Sl as (R1 & R2 & N). assert (Sl' : slots j i) by (unfold slots; lia).
    rewrite (pst_swap s i j a1 b2 w Sl).
    rewrite (ack_to s j i d T Sl' Lo 24 b2 a1 w F2); [| | exact (alive_in a1 _ U1 E1 ltac:(done) ltac:(done))].
    2: { change (local_port b2) with (local_port b). change (remote_port b2) with (remote_port b).
         destruct F as (<- & <- & _). by apply alone_sym. }
    change (state a1) with (state a). rewrite E1. cbv zeta. rewrite <- (pst_swap s i j) by done. set (a2 := set_snd_una a1 (rcv_nxt b2)).
    rewrite fire_recv_j by done. split; [| lia]. intros _. split; [done |].
    assert (Se' : session (pst s i j a2 b2 (received b2 j data w)) i j d).
    { split; try (rewrite ?tcbn_pst_i, ?tcbn_pst_j by done); try done.
      - by apply table_ok_pst.
      - exact (facing_sym b2 a1 d F2).
      - by apply alone_pst.
      - split; [| exact Y2]. unfold b2. cbn [rcv_nxt set_rcv_nxt b1 set_snd_una]. by rewrite <- Y1. }
    split; [done |]. split; [by apply session_sym |]. split; [by apply only_changes_pst |].
    rewrite tcbn_pst_i, tcbn_pst_j by done. split; [by repeat split |]. split; [by repeat split |].
    rewrite (proj2 (Z.ltb_lt 0 (zlen data)) G). reflexivity.
  - split; [| lia]. intros _. split; [done |].
    assert (Ea : a1 = a).
    { unfold a1. replace (zlen data) with 0 by lia. rewrite Z.add_0_r, u32_small by apply F. by destruct a. }
    assert (Se' : session (pst s i j a1 b1 w) i j d).
    { rewrite Ea. split; try (rewrite ?tcbn_pst_i, ?tcbn_pst_j by done); try done.
      - by apply table_ok_pst.
      - by apply alone_pst. }
    split; [done |]. split; [by apply session_sym |]. split; [by apply only_changes_pst |].
    rewrite tcbn_pst_i, tcbn_pst_j by done. split; [by repeat split |]. split; [by repeat split |].
    rewrite (proj2 (Z.ltb_ge 0 (zlen data)) G). reflexivity.
Qed.

(** C23. Data over loopback.  What one end of an established connection sends, up to a
    segment, the other end's callback receives: exactly those bytes, once, before
    the call returns their number; both ends agree on both sequence numbers
    afterwards and nothing else changes.  A longer buffer is refused with no
    effect.  The connection is symmetric, so this holds in both directions. *)
Theorem tcp_transfer s i j d data : session s i j d ->
  let '(s', rc) := tcp_send drivers udp_cb pit_ticks i data s in transferred s i j d data s' rc.
Proof. apply transfer_step. Qed.

(** ** Opening and closing *)

(** The first listener on port [p]. *)
Definition listening s (l p : Z) : Prop :=
  0 <= l < TCP_MAX_TCBS /\ in_use (tcbn s l) = true /\ state (tcbn s l) = TCP_LISTEN /\ local_port (tcbn s l) = p /\
  forall k, 0 <= k < l -> in_use (tcbn s k) && is_state (tcbn s k) TCP_LISTEN && (local_port (tcbn s k) =? p) = false.

Definition fresh : tcb := Tcb true TCP_CLOSED false 0 [0; 0; 0; 0] 0 0 0 0 0 0 0 0 0 0.

Lemma alloc_upd s g i f : table_ok s -> tcb_alloc (tcp s) = Some (g, i) -> upd (set_tcp s g) i f = upd s i (fun _ => f fresh).
Proof.
  intros T A. pose proof (tcb_alloc_spec _ _ _ T A) as (R & _). unfold tcb_alloc in A. destruct (zfind _ 0 _) as [k|]; [| done].
  injection A as <- <-. unfold upd, tcbn. cbn. rewrite zget_zset_eq, zset_zset; [done |]. unfold table_ok, TCP_MAX_TCBS in *. lia.
Qed.

Lemma eph_spec n : forall g g' p, 0 <= g_next_eph g < 65536 -> eph_loop n g = (g', p) -> p <> 0 ->
  g_tcbs g' = g_tcbs g /\ port_in_use g p = false /\ 49152 <= p < 65536.
Proof.
  induction n as [|n IH]; cbn [eph_loop]; intros g g' p R E Np; [by injection E as <- <- |].
  cbv zeta in E. set (e := if u16 (g_next_eph g + 1) =? 0 then 49152 else u16 (g_next_eph g + 1)) in E.
  assert (Re : 0 <= e < 65536) by (unfold e; pose proof (u16_range (g_next_eph g + 1)); destruct (_ =? 0); lia).
  clearbody e. set (p0 := if g_next_eph g <? 49152 then 49152 else g_next_eph g) in E.
  assert (Rp : 49152 <= p0 < 65536) by (unfold p0; destruct (Z.ltb_spec (g_next_eph g) 49152); lia). clearbody p0.
  destruct (port_in_use (Tcps (g_tcbs g) e) p0) eqn:U.
  - exact (IH (Tcps (g_tcbs g) e) g' p Re E Np).
  - injection E as <- <-. split; [done |]. split; [exact U | lia].
Qed.

Lemma alloc_port_spec g g' p : 0 <= g_next_eph g < 65536 -> alloc_ephemeral_port g = (g', p) -> p <> 0 ->
  g_tcbs g' = g_tcbs g /\ port_in_use g p = false /\ 49152 <= p < 65536.
Proof. unfold alloc_ephemeral_port. generalize (Z.to_nat 16384). intros n. apply eph_spec. Qed.

Lemma port_free g p k : port_in_use g p = false -> 0 <= k < TCP_MAX_TCBS ->
  in_use (zget (g_tcbs g) k) && negb (is_state (zget (g_tcbs g) k) TCP_CLOSED) && (local_port (zget (g_tcbs g) k) =? p) = false.
Proof.
  unfold port_in_use. intros U R. destruct (zfind _ 0 _) eqn:F; [done |]. rewrite zfind_None in F. apply F.
  change (Z.of_nat (Z.to_nat TCP_MAX_TCBS)) with TCP_MAX_TCBS. lia.
Qed.

Lemma connected_ud t i w : exists ud, snd (connected t i w) = set_user_data t ud.
Proof.
  unfold connected. destruct (on_connect t =? 0); [exists (user_data t); by destruct t |].
  destruct (connect_cb _ _ _ _) as [w' ud]. by exists ud.
Qed.

(** The client's SYN finds the listener. *)
Lemma find_listener s i j a b w l p q d : table_ok s -> slots i j -> listening s l q ->
  in_use (tcbn s i) = false -> in_use (tcbn s j) = false -> in_use b = false -> state a = TCP_SYN_SENT -> local_port a = p -> p <> q ->
  (forall k, 0 <= k < TCP_MAX_TCBS -> matches (tcbn s k) q p d = false) ->
  find_tcb_for_seg q p d TCP_SYN (tcp (pst s i j a b w)) = Some l.
Proof.
  intros T Sl (Rl & Ul & El & Pl & Fl) Ui Uj Ub Ea Pa Npq M. pose proof Sl as (R1 & R2 & N).
  assert (Nl : l <> i /\ l <> j) by (split; congruence). unfold find_tcb_for_seg.
  rewrite (proj2 (zfind_None _ _ _)).
  - change (has TCP_SYN TCP_SYN) with true. cbv iota. apply zfind_least.
    + change (Z.of_nat (Z.to_nat TCP_MAX_TCBS)) with TCP_MAX_TCBS. lia.
    + fold (tcbn (pst s i j a b w) l). rewrite tcbn_pst_k by (done || tauto || lia).
      by rewrite Ul, Pl, Z.eqb_refl, (bool_decide_eq_true_2 _ El : is_state _ _ = true).
    + intros k K. fold (tcbn (pst s i j a b w) k). destruct (decide (k = i)) as [-> | Ni].
      { rewrite tcbn_pst_i by done. unfold is_state. rewrite Ea, bool_decide_eq_false_2 by done. by rewrite andb_false_r. }
      destruct (decide (k = j)) as [-> | Nj]; [by rewrite tcbn_pst_j, Ub by done |].
      rewrite tcbn_pst_k by (done || lia). apply Fl. lia.
  - change (Z.of_nat (Z.to_nat TCP_MAX_TCBS)) with TCP_MAX_TCBS. intros k K. fold (tcbn (pst s i j a b w) k).
    destruct (decide (k = i)) as [-> | Ni].
    { rewrite tcbn_pst_i by done. rewrite Pa, (proj2 (Z.eqb_neq p q)) by done. by rewrite andb_false_r. }
    destruct (decide (k = j)) as [-> | Nj]; [by rewrite tcbn_pst_j, Ub by done |].
    rewrite tcbn_pst_k by (done || lia). apply M. lia.
Qed.

(** The control blocks of the handshake, in the order they arise. *)
Definition syn_sent (p q : Z) (d : list Z) (x c r k ud : Z) : tcb :=
  Tcb true TCP_SYN_SENT false p d q x (u32 (x + 1)) x 0 0 c r k ud.

Definition syn_rcvd (lt : tcb) (d : list Z) (p seq x : Z) : tcb :=
  Tcb true TCP_SYN_RCVD false (local_port lt) d p x (u32 (x + 1)) x seq (u32 (seq + 1)) (on_connect lt) (on_recv lt) (on_close lt) (user_data lt).

(** From the server's SYN-ACK on: the client answers, and both are established. *)
Lemma handshake_tail n s i j a b d x :
  table_ok s -> slots i j -> loop_addr s d -> alone s i j (local_port a) (remote_port a) d -> facing a b d ->
  in_use a = true -> in_use b = true -> state a = TCP_SYN_SENT -> state b = TCP_SYN_RCVD ->
  snd_nxt a = rcv_nxt b -> snd_nxt b = u32 (x + 1) -> 0 <= x < 4294967296 -> forall w1 b2 w2 a2,
  connected (set_state (set_snd_una b (u32 (x + 1))) TCP_ESTABLISHED) j (world s) = (w1, b2) ->
  connected (set_state (set_rcv_nxt (set_rcv_isn (set_snd_una a (rcv_nxt b)) x) (u32 (x + 1))) TCP_ESTABLISHED) i w1 = (w2, a2) ->
  fst (tcp_send_seg_seq (tcp_rx_n (Datatypes.S (Datatypes.S n))) j (Z.lor TCP_SYN TCP_ACK) [] x (pst s i j a b (world s))) = pst s i j a2 b2 w2.
Proof.
  intros T Sl Lo Al F Ua Ub Ea Eb Y1 Y2 Rx w1 b2 w2 a2 Cb Ca. set (w := world s) in *.
  assert (Sl' : slots j i) by (unfold slots in *; lia). pose proof F as (P1 & P2 & _).
  assert (Al' : alone s j i (local_port b) (remote_port b) d) by (rewrite <- P1, <- P2; by apply alone_sym).
  rewrite (pst_swap s i j a b w Sl).
  rewrite (send_loop s j i T Sl' (Datatypes.S n) (Z.lor TCP_SYN TCP_ACK) [] x b a w d (facing_sym _ _ _ F) Lo ltac:(done) Rx). cbn [fst].
  rewrite (recv_j s j i T Sl' (tcp_rx_n (Datatypes.S n)) (Z.lor TCP_SYN TCP_ACK) x (rcv_nxt b) [] b a w d (facing_sym _ _ _ F) Al'
    (alive_in a _ Ua Ea ltac:(done) ltac:(done)) eq_refl).
  cbv zeta. rewrite Ea. unfold syn_sent_rx. change (has (Z.lor TCP_SYN TCP_ACK) TCP_SYN) with true.
  change (has (Z.lor TCP_SYN TCP_ACK) TCP_ACK) with true. cbn [negb orb]. rewrite (tcbn_pst_j s j i T Sl'), Y1, Z.eqb_refl. cbn [negb].
  rewrite (upd_pst_j s j i T Sl'). set (a0 := set_rcv_nxt (set_rcv_isn (set_snd_una a (rcv_nxt b)) x) (u32 (x + 1))).
  assert (F0 : facing a0 b d) by (apply facing_rcv; exact F).
  rewrite <- (pst_swap s i j a0 b w Sl). rewrite (ack_to s i j d T Sl Lo n a0 b w F0 Al (alive_in b _ Ub Eb ltac:(done) ltac:(done))).
  cbv zeta. rewrite Eb. change (rcv_nxt a0) with (u32 (x + 1)). rewrite Y2, Z.eqb_refl. cbn [negb].
  pose proof (connected_ud (set_state (set_snd_una b (u32 (x + 1))) TCP_ESTABLISHED) j w) as (ud & Eu).
  rewrite Cb in Eu |- *. cbn [snd] in Eu. assert (Eb2 : set_snd_una b2 (u32 (x + 1)) = b2) by (by rewrite Eu). rewrite Eb2.
  rewrite (pst_swap s i j a0 b2 w1 Sl), (upd_pst_j s j i T Sl'), (fire_connect_j s j i T Sl').
  unfold a0. rewrite Ca. cbn [fst snd]. change (0 <? zlen []) with false. cbv iota.
  by rewrite (pst_swap s i j a2 b2 w2 Sl).
Qed.

Lemma connected_pair t i w w' t' : connected t i w = (w', t') -> exists u, t' = set_user_data t u /\
  (if on_connect t =? 0 then (w, user_data t) else connect_cb (on_connect t) i (user_data t) w) = (w', u).
Proof.
  unfold connected. destruct (on_connect t =? 0); [intros E; injection E as <- <-; exists (user_data t); split; [by destruct t | done] |].
  destruct (connect_cb _ _ _ _) as [v ud]. intros E. injection E as <- <-. by exists ud.
Qed.

(** The whole exchange that the SYN of slot [i] starts. *)
Lemma syn_exchange n s i j d p q l g2 x c r k ud :
  let a0 := syn_sent p q d x c r k ud in let b0 := syn_rcvd (tcbn s l) d p x x in
  let sx := pst s i j a0 (tcbn s j) (world s) in
  table_ok s -> slots i j -> loop_addr s d -> in_use (tcbn s i) = false -> in_use (tcbn s j) = false -> listening s l q -> p <> q ->
  0 <= p < 65536 -> 0 <= q < 65536 -> alone s i j p q d -> (forall y, 0 <= y < TCP_MAX_TCBS -> matches (tcbn s y) q p d = false) ->
  0 <= x < 4294967296 -> (forall s1, world s1 = world s -> isn pit_ticks s1 = x) -> tcb_alloc (tcp sx) = Some (g2, j) ->
  forall w1 b2 w2 a2,
  connected (set_state (set_snd_una b0 (u32 (x + 1))) TCP_ESTABLISHED) j (world s) = (w1, b2) ->
  connected (set_state (set_rcv_nxt (set_rcv_isn (set_snd_una a0 (u32 (x + 1))) x) (u32 (x + 1))) TCP_ESTABLISHED) i w1 = (w2, a2) ->
  tcp_send_seg_seq (tcp_rx_n (Datatypes.S (Datatypes.S (Datatypes.S n)))) i TCP_SYN [] x sx = (pst s i j a2 b2 w2, 0) /\ facing a0 b0 d.
Proof.
  intros a0 b0 sx T Sl Lo Ui Uj Li Npq Rp Rq Al Ml Rx Ix A2 w1 b2 w2 a2 Cb Ca. pose proof Sl as (Ri & Rj & Nij).
  pose proof (u32_range (x + 1)) as Ru. pose proof Li as (Rl & Ul & El & Pl & _).
  assert (Oa : tcb_ok a0) by (unfold tcb_ok, a0; cbn [syn_sent local_port remote_port snd_nxt rcv_nxt]; lia).
  assert (Ob : tcb_ok b0) by (unfold tcb_ok, b0; cbn [syn_rcvd local_port remote_port snd_nxt rcv_nxt]; rewrite Pl; lia).
  assert (F : facing a0 b0 d) by (by split_and!). split; [| exact F].
  assert (Hf : find_tcb_for_seg q p d TCP_SYN (tcp sx) = Some l) by (by apply find_listener).
  assert (Nl : l <> i /\ l <> j) by (split; congruence).
  assert (Tx : table_ok sx) by (by apply table_ok_pst).
  assert (Elx : tcbn sx l = tcbn s l) by (apply tcbn_pst_k; done || tauto || lia).
  assert (Elg : tcbn (set_tcp sx g2) l = tcbn s l).
  { rewrite <- Elx. destruct (tcb_alloc_spec _ _ _ Tx A2) as (_ & _ & _ & _ & _ & _ & Fr). unfold tcbn. cbn. apply Fr; [lia | tauto]. }
  assert (Eb : upd sx j (fun _ => b0) = pst s i j a0 b0 (world s)) by (by apply upd_pst_j).
  pose proof (handshake_tail n s i j a0 b0 d x T Sl Lo Al F eq_refl eq_refl eq_refl eq_refl eq_refl eq_refl Rx w1 b2 w2 a2 Cb Ca) as Ht.
  assert (Sp : spawn_conn_from_listener drivers udp_cb pit_ticks (tcp_rx_n (Datatypes.S (Datatypes.S n))) l d p x sx = pst s i j a2 b2 w2).
  { unfold spawn_conn_from_listener. rewrite A2. cbv zeta. rewrite (alloc_upd sx g2 j _ Tx A2), (Ix (set_tcp sx g2)), Elg by done.
    fold (syn_rcvd (tcbn s l) d p x x). fold b0. rewrite (Ix (upd sx j (fun _ => b0))), Eb by done. exact Ht. }
  unfold sx. rewrite (send_loop_any s i j T Sl (Datatypes.S (Datatypes.S n)) TCP_SYN [] x a0 (tcbn s j) (world s) d eq_refl Oa Lo ltac:(done) Rx).
  fold sx. f_equal. change (remote_port a0) with q. change (local_port a0) with p. unfold TCP.tcp_rx_seg. rewrite Hf, Elx.
  unfold is_state. rewrite El, bool_decide_eq_true_2 by done. change (has TCP_SYN TCP_SYN) with true. cbn [negb]. exact Sp.
Qed.

(** The situation a client of port [q] meets: a listener [l], the port [p] it will be
    given, two free slots, no leftover connection on the pair of ports. *)
Definition connectable s (d : list Z) (q p : Z) (g : tcps) (l : Z) : Prop :=
  table_ok s /\ 0 <= g_next_eph (tcp s) < 65536 /\ loop_addr s d /\ alloc_ephemeral_port (tcp s) = (g, p) /\ p <> 0 /\
  listening s l q /\ 0 <= q < 65536 /\ 2 <= nfree (tcp s) /\
  forall x, 0 <= x < TCP_MAX_TCBS -> matches (tcbn s x) q p d = false.

(** The handshake is done between [i], the client, and [j]; [c] is the client's
    [on_connect] and [ud] its cookie. *)
Definition handshaken s (d : list Z) (q p : Z) (g : tcps) (l c r k ud i j : Z) s' : Prop :=
  in_use (tcbn s i) = false /\ in_use (tcbn s j) = false /\ session s' i j d /\
  local_port (tcbn s' i) = p /\ local_port (tcbn s' j) = q /\
  snd_una (tcbn s' i) = snd_nxt (tcbn s' i) /\ snd_una (tcbn s' j) = snd_nxt (tcbn s' j) /\
  only_changes (set_tcp s g) s' i j /\
  let lt := tcbn s l in
  let '(w1, uj) := if on_connect lt =? 0 then (world s, user_data lt) else connect_cb (on_connect lt) j (user_data lt) (world s) in
  let '(w2, ui) := if c =? 0 then (w1, ud) else connect_cb c i ud w1 in
  world s' = w2 /\ same_app (set_user_data lt uj) (tcbn s' j) /\
  on_connect (tcbn s' i) = c /\ on_recv (tcbn s' i) = r /\ on_close (tcbn s' i) = k /\ user_data (tcbn s' i) = ui.

Lemma connect_exchange s d q p g l c r k ud : connectable s d q p g l ->
  exists i j s', tcp_connect drivers udp_cb pit_ticks d q c r k ud s = (s', Some i) /\ handshaken s d q p g l c r k ud i j s'.
Proof.
  intros (T & Re & Lo & Ae & Np & Li & Rq & Nf & M). destruct (alloc_port_spec _ _ _ Re Ae Np) as (Eg & Pu & Rp).
  set (s0 := set_tcp s g). assert (T0 : table_ok s0) by (unfold table_ok, s0; cbn; by rewrite Eg).
  assert (Et : forall x, tcbn s0 x = tcbn s x) by (intros x; unfold tcbn, s0; cbn; by rewrite Eg).
  assert (N0 : nfree (tcp s0) = nfree (tcp s)) by (unfold nfree, s0; cbn; by rewrite Eg).
  assert (Li0 : listening s0 l q).
  { destruct Li as (L1 & L2 & L3 & L4 & L5). split_and!; rewrite ?Et; try done; try lia. intros x X. rewrite Et. by apply L5. }
  assert (Npq : p <> q).
  { intros ->. destruct Li as (L1 & L2 & L3 & L4 & _). pose proof (port_free _ _ l Pu L1) as C. fold (tcbn s l) in C.
    rewrite L2, L4, Z.eqb_refl in C. unfold is_state in C. rewrite L3 in C. by rewrite bool_decide_eq_false_2 in C. }
  destruct (tcb_alloc (tcp s0)) as [[g1 i]|] eqn:A1.
  2: { exfalso. pose proof (proj1 (tcb_alloc_free (tcp s0)) ltac:(lia)) as (y & Hy). congruence. }
  destruct (tcb_alloc_spec _ _ _ T0 A1) as (Ri & Ui & T1 & N1 & _ & U1 & _).
  set (x := isn pit_ticks s0). assert (Rx : 0 <= x < 4294967296) by apply u32_range.
  assert (Ix : forall s1, world s1 = world s0 -> isn pit_ticks s1 = x) by (intros s1 Hw; unfold x, isn; by rewrite Hw).
  set (a0 := syn_sent p q d x c r k ud).
  assert (Ec : tcp_connect drivers udp_cb pit_ticks d q c r k ud s =
    let '(s', rc) := tcp_send_seg_seq (tcp_rx drivers udp_cb pit_ticks) i TCP_SYN [] x (upd s0 i (fun _ => a0)) in
    if rc <? 0 then (tcb_release i s', None) else (s', Some i)).
  { unfold tcp_connect. rewrite Ae. fold s0. rewrite (proj2 (Z.eqb_neq p 0)), A1 by done. rewrite (alloc_upd _ _ _ _ T0 A1).
    rewrite (Ix (set_tcp s0 g1)) by done. cbn [fresh in_use rcv_isn]. fold (syn_sent p q d x c r k ud). fold a0.
    rewrite tcbn_upd by (unfold table_ok in T0; rewrite T0; done). done. }
  clearbody x. set (sx := upd s0 i (fun _ => a0)) in *.
  assert (Tx : table_ok sx) by (by apply table_ok_upd).
  assert (Ntcp : nfree (tcp sx) = nfree (tcp s0) - 1).
  { unfold sx. rewrite <- (alloc_upd s0 g1 i (fun _ => a0) T0 A1). rewrite nfree_upd; try done; lia. }
  destruct (tcb_alloc (tcp sx)) as [[g2 j]|] eqn:A2.
  2: { exfalso. pose proof (proj1 (tcb_alloc_free (tcp sx)) ltac:(lia)) as (y & Hy). congruence. }
  destruct (tcb_alloc_spec _ _ _ Tx A2) as (Rj & Uj & _). fold (tcbn sx j) in Uj. fold (tcbn s0 i) in Ui.
  assert (Nij : i <> j) by (intros <-; unfold sx in Uj; rewrite tcbn_upd in Uj by (unfold table_ok in T0; rewrite T0; done); done).
  assert (Sl : slots i j) by done.
  assert (Uj0 : in_use (tcbn s0 j) = false) by (unfold sx in Uj; rewrite tcbn_upd_ne in Uj by (done || lia); done).
  assert (Ex : sx = pst s0 i j a0 (tcbn s0 j) (world s0)) by (apply upd_first; done).
  assert (Al : alone s0 i j p q d).
  { intros y Ry N2 N3. rewrite Et. split; [| by apply M]. pose proof (port_free _ _ y Pu Ry) as C. fold (tcbn s y) in C. unfold matches.
    destruct (in_use (tcbn s y)); [| done]. destruct (is_state (tcbn s y) TCP_CLOSED); [by rewrite andb_false_r |].
    cbn [negb andb] in C. rewrite C. by rewrite andb_false_r. }
  destruct (connected (set_state (set_snd_una (syn_rcvd (tcbn s0 l) d p x x) (u32 (x + 1))) TCP_ESTABLISHED) j (world s0)) as [w1 b2] eqn:Cb.
  destruct (connected (set_state (set_rcv_nxt (set_rcv_isn (set_snd_una a0 (u32 (x + 1))) x) (u32 (x + 1))) TCP_ESTABLISHED) i w1) as [w2 a2] eqn:Ca.
  rewrite Ex in A2.
  destruct (syn_exchange 23 s0 i j d p q l g2 x c r k ud T0 Sl Lo Ui Uj0 Li0 Npq ltac:(lia) Rq Al
    ltac:(intros; rewrite Et; by apply M) Rx Ix A2 w1 b2 w2 a2 Cb Ca) as (Se & F).
  rewrite Et in Cb. destruct (connected_pair _ _ _ _ _ Cb) as (ub & Eb & Cb1). destruct (connected_pair _ _ _ _ _ Ca) as (ua & Ea & Ca1).
  exists i, j, (pst s0 i j a2 b2 w2). unfold handshaken. rewrite !tcbn_pst_i, !tcbn_pst_j by done. rewrite <- !Et.
  change (syn_sent p q d x c r k ud) with a0 in Se.
  split; [rewrite Ec, Ex; unfold tcp_rx, TCP_DEPTH; rewrite Se; done |]. split; [done |]. split; [done |]. rewrite Et in F.
  subst a2 b2. destruct Li as (_ & _ & _ & Pl & _). split.
  { split; rewrite ?tcbn_pst_i, ?tcbn_pst_j by done; try done.
    - by apply table_ok_pst.
    - apply (facing_rcv a0 (syn_rcvd (tcbn s l) d p x x) d (x + 1) F).
    - by apply alone_pst. }
  do 4 (split; [done |]). split; [by apply only_changes_pst |]. cbv zeta. rewrite Et.
  change (on_connect (set_state (set_snd_una (syn_rcvd (tcbn s l) d p x x) (u32 (x + 1))) TCP_ESTABLISHED)) with (on_connect (tcbn s l)) in Cb1.
  change (user_data (set_state (set_snd_una (syn_rcvd (tcbn s l) d p x x) (u32 (x + 1))) TCP_ESTABLISHED)) with (user_data (tcbn s l)) in Cb1.
  change (world s0) with (world s) in Cb1. rewrite Cb1.
  change (on_connect (set_state _ TCP_ESTABLISHED)) with c in Ca1. change (user_data (set_state _ TCP_ESTABLISHED)) with ud in Ca1.
  by rewrite Ca1.
Qed.

(** Connecting over loopback.  With a listener on the port, two free slots and no
    leftover connection on the same pair of ports, [tcp_connect] to an address of
    this host returns with the three-way handshake done: both ends are established,
    face each other, agree on all sequence numbers and have nothing unacknowledged;
    the listener's callback ran once for the new server end and then the client's
    own; the listener and every other connection are as before. *)
Theorem tcp_connect_loopback s d q p g l c r k ud : connectable s d q p g l ->
  exists i j s', tcp_connect drivers udp_cb pit_ticks d q c r k ud s = (s', Some i) /\ handshaken s d q p g l c r k ud i j s'.
Proof. apply connect_exchange. Qed.



(** The first half: the end that closes is half closed, the other knows. *)
Lemma close_first s i j d : session s i j d ->
  let a := tcbn s i in let b := tcbn s j in
  let a2 := set_state (set_snd_una (set_state (set_snd_nxt a (u32 (snd_nxt a + 1))) TCP_FIN_WAIT_1) (u32 (rcv_nxt b + 1))) TCP_FIN_WAIT_2 in
  let b2 := set_state (set_rcv_nxt (set_snd_una b (rcv_nxt a)) (u32 (rcv_nxt b + 1))) TCP_CLOSE_WAIT in
  tcp_close drivers udp_cb pit_ticks i s = (pst s i j a2 b2 (closed b j (world s)), 0) /\ facing a2 b2 d.
Proof.
  intros [T Sl Lo F A (U1 & U2) (E1 & E2) (Y1 & Y2)]. cbv zeta. assert (Sl' : slots j i) by (unfold slots in *; lia).
  unfold tcp_close. rewrite U1, E1. cbn [negb]. rewrite (upd_first s i j T Sl).
  set (a := tcbn s i) in *. set (b := tcbn s j) in *. set (w := world s).
  set (a1 := set_state (set_snd_nxt a (u32 (snd_nxt a + 1))) TCP_FIN_WAIT_1).
  assert (F1 : facing a1 b d) by (by apply (facing_snd a b d (snd_nxt a + 1))).
  unfold tcp_rx, TCP_DEPTH. rewrite (send_loop s i j T Sl 25 (Z.lor TCP_FIN TCP_ACK) [] (snd_nxt a) a1 b w d F1 Lo ltac:(done) ltac:(apply F)).
  cbn [fst]. rewrite (recv_j s i j T Sl (tcp_rx_n 25) (Z.lor TCP_FIN TCP_ACK) (snd_nxt a) (rcv_nxt a1) [] a1 b w d F1 A
    (alive_in b _ U2 E2 ltac:(done) ltac:(done)) eq_refl).
  cbv zeta. rewrite E2. unfold established_rx. change (has (Z.lor TCP_FIN TCP_ACK) TCP_ACK) with true.
  change (has (Z.lor TCP_FIN TCP_ACK) TCP_FIN) with true. change (0 <? zlen []) with false. cbn [andb]. cbv zeta.
  rewrite !upd_pst_j by done. change (rcv_nxt (set_snd_una b (rcv_nxt a1))) with (rcv_nxt b).
  set (b1 := set_rcv_nxt (set_snd_una b (rcv_nxt a1)) (u32 (rcv_nxt b + 1))).
  assert (F2 : facing b1 a1 d) by (apply facing_rcv, (facing_sym a1 b), F1). pose proof F as (P1 & P2 & _).
  assert (A' : alone s j i (local_port b1) (remote_port b1) d).
  { change (local_port b1) with (local_port b). change (remote_port b1) with (remote_port b). rewrite <- P1, <- P2. by apply alone_sym. }
  rewrite (pst_swap s i j a1 b1 w Sl), (ack_to s j i d T Sl' Lo 24 b1 a1 w F2 A' (alive_in a1 TCP_FIN_WAIT_1 U1 eq_refl ltac:(done) ltac:(done))).
  cbv zeta. change (state a1) with TCP_FIN_WAIT_1. cbv iota.
  change (rcv_nxt b1) with (u32 (rcv_nxt b + 1)). change (snd_nxt a1) with (u32 (snd_nxt a + 1)). rewrite Y1, Z.eqb_refl.
  rewrite <- (pst_swap s i j) by done. rewrite upd_pst_j, fire_close_j by done.
  split; [done |]. apply facing_sym. exact F2.
Qed.

(** Closing over loopback.  After [tcp_close] at one end of an established
    connection that end waits in FIN_WAIT_2 and the other, told by its callback, in
    CLOSE_WAIT; after [tcp_close] at the other end both slots are free again, no
    callback is left attached to them, and nothing else has changed. *)
Theorem tcp_close_pair s i j d : session s i j d ->
  let '(s1, r1) := tcp_close drivers udp_cb pit_ticks i s in
  let '(s2, r2) := tcp_close drivers udp_cb pit_ticks j s1 in
  r1 = 0 /\ r2 = 0 /\ tcp_state_of i s1 = TCP_FIN_WAIT_2 /\ tcp_state_of j s1 = TCP_CLOSE_WAIT /\
  world s1 = closed (tcbn s j) j (world s) /\ only_changes s s1 i j /\
  tcp_state_of i s2 = TCP_CLOSED /\ tcp_state_of j s2 = TCP_CLOSED /\ in_use (tcbn s2 i) = false /\ in_use (tcbn s2 j) = false /\
  on_recv (tcbn s2 i) = 0 /\ on_recv (tcbn s2 j) = 0 /\
  world s2 = closed (tcbn s i) i (closed (tcbn s j) j (world s1)) /\ only_changes s s2 i j.
Proof.
  intros Se. destruct (close_first s i j d Se) as (E & F). cbv zeta in F. rewrite E.
  pose proof Se as [T Sl Lo _ A (U1 & U2) (E1 & E2) (Y1 & Y2)]. assert (Sl' : slots j i) by (unfold slots in *; lia).
  set (a := tcbn s i) in *. set (b := tcbn s j) in *. set (w1 := closed b j (world s)).
  set (a2 := set_state (set_snd_una _ _) TCP_FIN_WAIT_2) in *. set (b2 := set_state (set_rcv_nxt _ _) TCP_CLOSE_WAIT) in *. clear E.
  unfold tcp_close. rewrite tcbn_pst_j by done. change (in_use b2) with (in_use b). rewrite U2. change (state b2) with TCP_CLOSE_WAIT. cbn [negb].
  rewrite upd_pst_j by done. set (b3 := set_state (set_snd_nxt b2 (u32 (snd_nxt b2 + 1))) TCP_LAST_ACK).
  assert (F3 : facing b3 a2 d) by (by apply (facing_snd b2 a2 d (snd_nxt b2 + 1)), facing_sym).
  assert (A3 : alone s i j (local_port a2) (remote_port a2) d) by exact A.
  assert (A' : alone s j i (local_port b3) (remote_port b3) d).
  { pose proof F3 as (P1 & P2 & _). rewrite P1, P2. by apply alone_sym. }
  unfold tcp_rx, TCP_DEPTH. rewrite (pst_swap s i j a2 b3 w1 Sl).
  rewrite (send_loop s j i T Sl' 25 (Z.lor TCP_FIN TCP_ACK) [] (snd_nxt b2) b3 a2 w1 d F3 Lo ltac:(done) ltac:(apply F)). cbn [fst].
  rewrite (recv_j s j i T Sl' (tcp_rx_n 25) (Z.lor TCP_FIN TCP_ACK) (snd_nxt b2) (rcv_nxt b3) [] b3 a2 w1 d F3 A'
    (alive_in a2 TCP_FIN_WAIT_2 U1 eq_refl ltac:(done) ltac:(done)) eq_refl).
  cbv zeta. change (state a2) with TCP_FIN_WAIT_2. cbv iota. unfold fin_wait_fin.
  change (has (Z.lor TCP_FIN TCP_ACK) TCP_FIN) with true. cbv iota zeta. rewrite (upd_pst_j s j i T Sl').
  change (rcv_nxt a2) with (rcv_nxt a). set (a3 := set_rcv_nxt a2 (u32 (rcv_nxt a + 1))).
  assert (F4 : facing a3 b3 d) by (by apply facing_rcv, facing_sym).
  rewrite <- (pst_swap s i j a3 b3 w1 Sl), (ack_to s i j d T Sl Lo 24 a3 b3 w1 F4 A (alive_in b3 TCP_LAST_ACK U2 eq_refl ltac:(done) ltac:(done))).
  cbv zeta. change (state b3) with TCP_LAST_ACK. cbv iota. change (rcv_nxt a3) with (u32 (rcv_nxt a + 1)).
  change (snd_nxt b3) with (u32 (snd_nxt b + 1)). rewrite Y2, Z.eqb_refl.
  rewrite (pst_swap s i j a3 (released b3) _ Sl), (fire_close_j s j i T Sl'), (release_j s j i T Sl'), <- (pst_swap s i j) by done.
  unfold tcp_state_of. rewrite !tcbn_pst_i, !tcbn_pst_j by done.
  change (in_use a2) with (in_use a). change (in_use b2) with (in_use b). rewrite U1, U2.
  split; [done |]. split; [done |]. split; [done |]. split; [done |]. split; [done |]. split; [by apply only_changes_pst |].
  do 7 (split; [done |]). by apply only_changes_pst.
Qed.

End Proofs.

(** ** What the stack can do to the world

    A property of the world kept by the drivers and by the application's callbacks is
    kept by every operation.  The connection handed to a callback is in the table. *)

Section World.
Context {W : Type} (drivers : list (driver W)).
Context (udp_cb : Z -> list Z -> Z -> list Z -> net tcps W -> net tcps W) (pit_ticks : W -> Z) `{TcpUser W}.
Context (P : W -> Prop).
Hypothesis drv_keeps : forall v f w, v ∈ drivers -> P w -> P (fst (drv_send v f w)).
Hypothesis connect_keeps : forall c i ud w, 0 <= i < TCP_MAX_TCBS -> P w -> P (fst (connect_cb c i ud w)).
Hypothesis recv_keeps : forall c i ud data w, P w -> P (recv_cb c i ud data w).
Hypothesis close_keeps : forall c i ud w, P w -> P (close_cb c i ud w).

Local Abbreviation S := (net tcps W).
Implicit Types s : S.

Lemma eth_keeps to et payload s : P (world s) -> P (world (fst (eth_send drivers to et payload s))).
Proof.
  intros Ps. unfold eth_send, net_send_frame. cases; [done |]. destruct (g_nic_send (conf s)) as [k|]; [| done].
  destruct (drivers !! k) as [v|] eqn:L; [| done]. destruct (g_net_up (conf s)); [| done]. cbn [negb].
  pose proof (drv_keeps v (eth_frame to (g_my_mac (conf s)) et payload) _ (list_elem_of_lookup_2 _ _ _ L) Ps) as Q.
  by destruct (drv_send _ _ _).
Qed.

Lemma fire_connect_keeps i s : 0 <= i < TCP_MAX_TCBS -> P (world s) -> P (world (fire_connect i s)).
Proof.
  intros R Ps. unfold fire_connect. cases; [done |]. pose proof (connect_keeps (on_connect (tcbn s i)) i (user_data (tcbn s i)) _ R Ps) as Q.
  by destruct (connect_cb _ _ _ _).
Qed.

Lemma fire_recv_keeps i data s : P (world s) -> P (world (fire_recv i data s)).
Proof. intros Ps. unfold fire_recv. cases; [done | by apply recv_keeps]. Qed.

Lemma fire_close_keeps i s : P (world s) -> P (world (fire_close i s)).
Proof. intros Ps. unfold fire_close. cases; [done | by apply close_keeps]. Qed.

Section Level.
Context (rx : ip_hdr -> list Z -> Z -> S -> option S).
Hypothesis rx_keeps : forall h l len s, P (world s) -> P (world (default s (rx h l len s))).

Lemma send_keeps i flags data seq s : P (world s) -> P (world (fst (tcp_send_seg_seq drivers udp_cb rx i flags data seq s))).
Proof.
  intros Ps. unfold tcp_send_seg_seq. cases; [done |]. cbv zeta. unfold ip_send, try_loopback. change (IP_PROTO_TCP =? IP_PROTO_TCP) with true.
  cases; [done |]. cases; [| by apply rx_keeps]. destruct (if is_ip_broadcast _ then _ else _); by apply eth_keeps.
Qed.

Lemma ack_keeps i flags s : P (world s) -> P (world (tcp_send_ack drivers udp_cb rx i flags s)).
Proof. apply send_keeps. Qed.

Lemma established_keeps i flags seq ack data s : P (world s) -> P (world (established_rx drivers udp_cb rx i flags seq ack data s)).
Proof.
  intros Ps. unfold established_rx. cbv zeta. set (s1 := if has flags TCP_ACK then _ else s).
  assert (P1 : P (world s1)) by (unfold s1; by cases). clearbody s1. set (s2 := if _ && _ then _ else s1).
  assert (P2 : P (world s2)) by (unfold s2; cases; [by apply fire_recv_keeps, ack_keeps | done]). clearbody s2.
  cases; [| done]. apply fire_close_keeps. by apply (ack_keeps i TCP_ACK (upd s2 i _)).
Qed.

Lemma syn_sent_keeps i flags seq ack data s : 0 <= i < TCP_MAX_TCBS -> P (world s) ->
  P (world (syn_sent_rx drivers udp_cb rx i flags seq ack data s)).
Proof.
  intros R Ps. unfold syn_sent_rx. cases; [done |]. cases; [done |]. cbv zeta. set (s1 := fire_connect i _).
  assert (P1 : P (world s1)) by (apply fire_connect_keeps; [done |]; by apply (ack_keeps i TCP_ACK (upd s i _))). clearbody s1.
  cases; [by apply fire_recv_keeps, ack_keeps | done].
Qed.

Lemma fin_wait_keeps i flags s : P (world s) -> P (world (fin_wait_fin drivers udp_cb rx i flags s)).
Proof. intros Ps. unfold fin_wait_fin. cases; [by apply (fire_close_keeps i), ack_keeps | done]. Qed.

Lemma rx_seg_keeps ip dp sp flags seq ack data s : P (world s) ->
  P (world (tcp_rx_seg drivers udp_cb pit_ticks rx ip dp sp flags seq ack data s)).
Proof.
  intros Ps. unfold tcp_rx_seg. destruct (find_tcb_for_seg _ _ _ _ _) as [i|] eqn:F; [| done].
  assert (R : 0 <= i < TCP_MAX_TCBS).
  { unfold find_tcb_for_seg in F. destruct (zfind _ 0 _) eqn:Z1; [injection F as <-; by apply zfind_Some in Z1 as (R & _) |].
    destruct (has flags TCP_SYN); [by apply zfind_Some in F as (R & _) | done]. }
  cases; [cases; [done |] |].
  - unfold spawn_conn_from_listener. destruct (tcb_alloc (tcp s)) as [[g c]|]; [| done]. by apply send_keeps.
  - cases; [by apply (fire_close_keeps i) |].
    destruct (state (tcbn s i)); try done; try (by apply syn_sent_keeps); try (by apply established_keeps); try (by apply fin_wait_keeps).
    + cases; [done |]. cases; [done |]. apply established_keeps. by apply fire_connect_keeps.
    + apply fin_wait_keeps. by cases.
    + cases; [by apply (fire_close_keeps i) | done].
Qed.

Lemma rx_level_keeps h l len s : P (world s) -> P (world (default s (tcp_rx_level drivers udp_cb pit_ticks rx h l len s))).
Proof.
  intros Ps. unfold tcp_rx_level. cases; [done |].
  destruct (rd16 l 2), (rd16 l 0), (rd l 13), (rd32 l 4), (rd32 l 8), (rd l 12); cbn [mbind option_bind]; try done.
  cbv zeta. cases; [done |]. destruct (rdn _ _ _); [by apply rx_seg_keeps | done].
Qed.

End Level.

Lemma rx_keeps h l len s : P (world s) -> P (world (default s (tcp_rx drivers udp_cb pit_ticks h l len s))).
Proof.
  unfold tcp_rx. generalize TCP_DEPTH as n. intros n. revert h l len s. induction n as [|n IH]; intros h l len s Ps; [done |].
  by apply rx_level_keeps.
Qed.

Lemma tcp_listen_keeps p c r k ud s : let '(s', t) := tcp_listen p c r k ud s in
  world s' = world s /\ forall i, t = Some i -> 0 <= i < TCP_MAX_TCBS.
Proof.
  unfold tcp_listen. cases; [done |]. unfold tcb_alloc. destruct (zfind _ 0 _) as [i|] eqn:F; [| done].
  split; [done |]. intros ? [= <-]. by apply zfind_Some in F as (R & _).
Qed.

Lemma tcp_connect_keeps d q c r k ud s : P (world s) ->
  let '(s', t) := tcp_connect drivers udp_cb pit_ticks d q c r k ud s in
  P (world s') /\ forall i, t = Some i -> 0 <= i < TCP_MAX_TCBS.
Proof.
  intros Ps. unfold tcp_connect. destruct (alloc_ephemeral_port (tcp s)) as [g p]. cases; [done |].
  unfold tcb_alloc. destruct (zfind _ 0 _) as [i|] eqn:F; [| done]. cbv zeta. set (s1 := upd _ i _).
  pose proof (send_keeps _ rx_keeps i TCP_SYN [] (snd_isn (tcbn s1 i)) s1 Ps) as Q.
  destruct (tcp_send_seg_seq _ _ _ _ _ _ _ _) as [s2 rc]. cases; [done |]. split; [done |]. intros ? [= <-].
  by apply zfind_Some in F as (R & _).
Qed.

Lemma tcp_send_keeps i data s : P (world s) -> P (world (fst (tcp_send drivers udp_cb pit_ticks i data s))).
Proof.
  intros Ps. unfold tcp_send. cases; [done |]. cases; [done |]. cbv zeta. set (s1 := upd s i _).
  pose proof (send_keeps _ rx_keeps i (Z.lor TCP_PSH TCP_ACK) data (snd_nxt (tcbn s i)) s1 Ps) as Q.
  destruct (tcp_send_seg_seq _ _ _ _ _ _ _ _) as [s2 rc]. by cases.
Qed.

Lemma tcp_close_keeps i s : P (world s) -> P (world (fst (tcp_close drivers udp_cb pit_ticks i s))).
Proof.
  intros Ps. unfold tcp_close. cases; [done |]. destruct (state (tcbn s i)); try done; by apply (send_keeps _ rx_keeps).
Qed.

End World.

(** ** A server and a client on one host *)

(** The application logs what it is told. *)
#[export] Instance log_user : TcpUser (list (Z * Z * list Z)) := {|
  connect_cb := fun c i ud w => (w ++ [(1, i, [])], ud);
  recv_cb := fun c i ud data w => w ++ [(2, i, data)];
  close_cb := fun c i ud w => w ++ [(3, i, [])] |}.

Definition demo_udp (c : Z) (s : list Z) (sp : Z) (data : list Z) (n : net tcps (list (Z * Z * list Z))) := n.

Definition demo_ticks (w : list (Z * Z * list Z)) : Z := 77.

Definition demo_lo : list Z := [127; 0; 0; 1].

Definition demo_server : net tcps (list (Z * Z * list Z)) :=
  fst (tcp_listen 80 1 2 3 7 (Net (Config [] [0; 0; 0; 0] [] [] false None) [] 0 [] (Ping 0 0 0) tcp_init [])).

Definition demo_pair : net tcps (list (Z * Z * list Z)) := Eval vm_compute in
  fst (tcp_connect [] demo_udp demo_ticks demo_lo 80 4 5 6 8 demo_server).

Lemma all_slots (f : Z -> bool) : zfind (Z.to_nat TCP_MAX_TCBS) 0 f = None -> forall k, 0 <= k < TCP_MAX_TCBS -> f k = false.
Proof. intros E k K. apply (proj1 (zfind_None _ _ _) E). change (Z.of_nat (Z.to_nat TCP_MAX_TCBS)) with TCP_MAX_TCBS. lia. Qed.

Lemma demo_addr s : loop_addr (W := list (Z * Z * list Z)) s demo_lo.
Proof. split; [split; [reflexivity | repeat constructor; discriminate || reflexivity] | left; reflexivity]. Qed.

(** A packet with a 40-byte header and total length 20 is read past its end; a good ping request of the same length is not. *)
Lemma eth_rx_bounds_witness :
  eth_rx [] (tcp_rx [] demo_udp demo_ticks) demo_udp demo_ticks bad_frame demo_server = None /\
  eth_rx [] (tcp_rx [] demo_udp demo_ticks) demo_udp demo_ticks (zset bad_frame 14 69) demo_server <> None.
Proof.
  split.
  - apply (eth_rx_bounds [] demo_udp demo_ticks bad_frame demo_server); [vm_compute; discriminate | vm_compute; reflexivity].
  - intros E. apply (eth_rx_bounds [] demo_udp demo_ticks (zset bad_frame 14 69) demo_server) in E; [vm_compute in E; discriminate | vm_compute; discriminate].
Defined.

Lemma tcp_rx_terminates_witness :
  table_ok demo_server /\
  tcp_rx_n [] demo_udp demo_ticks 100 (Ip_hdr 69 0 0 0 0 64 6 0 demo_lo demo_lo) (zrep 20 0) 20 demo_server =
  tcp_rx [] demo_udp demo_ticks (Ip_hdr 69 0 0 0 0 64 6 0 demo_lo demo_lo) (zrep 20 0) 20 demo_server.
Proof.
  split; [reflexivity |]. apply (tcp_rx_terminates [] demo_udp demo_ticks); [reflexivity |]. apply Nat.leb_le. vm_compute. reflexivity.
Defined.

Lemma tcp_connect_loopback_witness :
  exists i j s', tcp_connect [] demo_udp demo_ticks demo_lo 80 4 5 6 8 demo_server = (s', Some i) /\ session s' i j demo_lo.
Proof.
  destruct (tcp_connect_loopback [] demo_udp demo_ticks demo_server demo_lo 80 49152 (fst (alloc_ephemeral_port (tcp demo_server))) 0 4 5 6 8)
    as (i & j & s' & E & _ & _ & Se & _).
  - split; [reflexivity |]. split; [vm_compute; split; [discriminate | reflexivity] |]. split; [apply demo_addr |].
    split; [vm_compute; reflexivity |]. split; [discriminate |].
    split; [split; [split; [discriminate | reflexivity] |]; split_and!; try reflexivity; intros k K; lia |].
    split; [split; [discriminate | reflexivity] |]. split; [vm_compute; discriminate |].
    apply (all_slots (fun x => matches (tcbn demo_server x) 80 49152 demo_lo)). vm_compute. reflexivity.
  - exists i, j, s'. split; [exact E | exact Se].
Defined.

Lemma demo_session : session demo_pair 1 2 demo_lo.
Proof.
  assert (Al : forall p q, zfind (Z.to_nat TCP_MAX_TCBS) 0 (fun k => negb (k =? 1) && negb (k =? 2) && matches (tcbn demo_pair k) p q demo_lo) = None ->
    forall k, 0 <= k < TCP_MAX_TCBS -> k <> 1 -> k <> 2 -> matches (tcbn demo_pair k) p q demo_lo = false).
  { intros p q E k K N1 N2. pose proof (all_slots _ E k K) as C. cbv beta in C.
    rewrite (proj2 (Z.eqb_neq k 1) N1), (proj2 (Z.eqb_neq k 2) N2) in C. cbn [negb andb] in C. exact C. }
  split.
  - vm_compute. reflexivity.
  - split_and!; vm_compute; discriminate || reflexivity.
  - apply demo_addr.
  - vm_compute. split_and!; discriminate || reflexivity.
  - intros k K N1 N2. split; (apply Al; [vm_compute; reflexivity | exact K | exact N1 | exact N2]).
  - vm_compute. done.
  - vm_compute. done.
  - vm_compute. done.
Qed.

Lemma tcp_transfer_witness :
  let '(s', rc) := tcp_send [] demo_udp demo_ticks 1 [71; 69; 84] demo_pair in
  rc = 3 /\ session s' 2 1 demo_lo /\ world s' = world demo_pair ++ [(2, 2, [71; 69; 84])].
Proof.
  pose proof (tcp_transfer [] demo_udp demo_ticks demo_pair 1 2 demo_lo [71; 69; 84] demo_session) as H.
  destruct (tcp_send [] demo_udp demo_ticks 1 [71; 69; 84] demo_pair) as [s' rc]. destruct H as (H & _).
  destruct (H ltac:(vm_compute; discriminate)) as (-> & _ & Se & _ & _ & _ & Ew). split; [reflexivity |]. split; [exact Se |].
  rewrite Ew. vm_compute. reflexivity.
Defined.

Lemma tcp_close_pair_witness :
  let '(s1, _) := tcp_close [] demo_udp demo_ticks 1 demo_pair in
  let '(s2, _) := tcp_close [] demo_udp demo_ticks 2 s1 in
  tcp_state_of 1 s2 = TCP_CLOSED /\ tcp_state_of 2 s2 = TCP_CLOSED /\ world s1 = world demo_pair ++ [(3, 2, [])].
Proof.
  pose proof (tcp_close_pair [] demo_udp demo_ticks demo_pair 1 2 demo_lo demo_session) as H.
  destruct (tcp_close [] demo_udp demo_ticks 1 demo_pair) as [s1 r1]. destruct (tcp_close [] demo_udp demo_ticks 2 s1) as [s2 r2].
  destruct H as (_ & _ & _ & _ & H1 & _ & H2 & H3 & _). split; [exact H2 |]. split; [exact H3 |]. rewrite H1. vm_compute. reflexivity.
Defined.

(** Data sent to an end that has closed its own direction: the sender is told it was
    accepted, the receiver is told nothing, and nothing is acknowledged. *)
Example half_close_data_lost :
  let s1 := fst (tcp_close [] demo_udp demo_ticks 1 demo_pair) in
  let '(s2, rc) := tcp_send [] demo_udp demo_ticks 2 [1; 2; 3] s1 in
  rc = 3 /\ world s2 = world s1 /\ rcv_nxt (tcbn s2 1) = rcv_nxt (tcbn s1 1).
Proof. vm_compute. done. Qed.

(** A FIN is obeyed whatever its sequence number. *)
Example fin_any_sequence :
  let s1 := tcp_rx_seg [] demo_udp demo_ticks (tcp_rx [] demo_udp demo_ticks) demo_lo 80 49152 TCP_FIN 12345 0 [] demo_pair in
  tcp_state_of 2 s1 = TCP_CLOSE_WAIT.
Proof. vm_compute. done. Qed.

End TCP.
