(* ===== verification/Sock.v ===== *)
(** Sockets ([kernel/sock.c]) over [Tcp].

    The socket table is part of the world the TCP callbacks act on; [TcpUser] is
    discharged by the socket layer's own callbacks.  A blocking call runs to its
    return or to its next [task_yield]; [sock_accept] and [sock_read] start over
    when they are resumed, [sock_connect] carries its connection and its count. *)

From stdpp Require Import base numbers list sets relations.
From Stdlib Require Import ZArith Lia.
From S2P Require Import Prelude Ring Pipe Wire Net Tcp.

Module SOCK.
Import WIRE NET TCP.

Definition SOCK_MAX : Z := 24.
Definition SOCK_RX_BUF : Z := 4096.
Definition SOCK_BACKLOG_MAX : Z := 8.

Inductive sock_state := SOCK_FREE | SOCK_NEW | SOCK_LISTEN | SOCK_CONNECTING | SOCK_CONNECTED | SOCK_CLOSED.

#[global] Instance sock_state_eq_dec : EqDecision sock_state.
Proof. solve_decision. Defined.

Record sock := Sock {
  sstate : sock_state; refcount : Z; sport : Z; stcb : option Z;
  pending_conns : list Z; pending_head : Z; pending_tail : Z; backlog : Z;
  rx_head : Z; rx_tail : Z; peer_closed : Z; rx_buf : list Z }.

(** A slot filled with zeros. *)
Definition sock_zero : sock := Sock SOCK_FREE 0 0 None (zrep SOCK_BACKLOG_MAX 0) 0 0 0 0 0 0 (zrep SOCK_RX_BUF 0).

#[global] Instance sock_inhabited : Inhabited sock := populate sock_zero.

Definition set_sstate (k : sock) (x : sock_state) : sock :=
  Sock x (refcount k) (sport k) (stcb k) (pending_conns k) (pending_head k) (pending_tail k) (backlog k) (rx_head k) (rx_tail k) (peer_closed k) (rx_buf k).

Definition set_refcount (k : sock) (x : Z) : sock :=
  Sock (sstate k) x (sport k) (stcb k) (pending_conns k) (pending_head k) (pending_tail k) (backlog k) (rx_head k) (rx_tail k) (peer_closed k) (rx_buf k).

Definition set_sport (k : sock) (x : Z) : sock :=
  Sock (sstate k) (refcount k) x (stcb k) (pending_conns k) (pending_head k) (pending_tail k) (backlog k) (rx_head k) (rx_tail k) (peer_closed k) (rx_buf k).

Definition set_stcb (k : sock) (x : option Z) : sock :=
  Sock (sstate k) (refcount k) (sport k) x (pending_conns k) (pending_head k) (pending_tail k) (backlog k) (rx_head k) (rx_tail k) (peer_closed k) (rx_buf k).

Definition set_queue (k : sock) (conns : list Z) (h t b : Z) : sock :=
  Sock (sstate k) (refcount k) (sport k) (stcb k) conns h t b (rx_head k) (rx_tail k) (peer_closed k) (rx_buf k).

Definition set_rx (k : sock) (h t : Z) (b : list Z) : sock :=
  Sock (sstate k) (refcount k) (sport k) (stcb k) (pending_conns k) (pending_head k) (pending_tail k) (backlog k) h t (peer_closed k) b.

Definition set_peer_closed (k : sock) (x : Z) : sock :=
  Sock (sstate k) (refcount k) (sport k) (stcb k) (pending_conns k) (pending_head k) (pending_tail k) (backlog k) (rx_head k) (rx_tail k) x (rx_buf k).

(** ** The accept queue *)

Definition q_empty (k : sock) : bool := pending_head k =? pending_tail k.

Definition q_full (k : sock) : bool :=
  ((pending_head k + 1) mod SOCK_BACKLOG_MAX =? pending_tail k) ||
  (backlog k <=? (pending_head k - pending_tail k + SOCK_BACKLOG_MAX) mod SOCK_BACKLOG_MAX).

Definition q_init (k : sock) (b : Z) : sock :=
  let b := if b <=? 0 then 1 else b in
  let b := if SOCK_BACKLOG_MAX <? b then SOCK_BACKLOG_MAX else b in
  set_queue k (zrep SOCK_BACKLOG_MAX (-1)) 0 0 b.

Definition q_push (k : sock) (conn : Z) : sock :=
  if q_full k then k else
  set_queue k (zset (pending_conns k) (pending_head k) conn) ((pending_head k + 1) mod SOCK_BACKLOG_MAX) (pending_tail k) (backlog k).

Definition q_pop (k : sock) : sock * Z :=
  if q_empty k then (k, -1) else
  (set_queue k (zset (pending_conns k) (pending_tail k) (-1)) (pending_head k) ((pending_tail k + 1) mod SOCK_BACKLOG_MAX) (backlog k),
   zget (pending_conns k) (pending_tail k)).

(** The table and what lies outside it. *)
Record swld (W : Type) := Swld { g_socks : list sock; dev : W }.

Arguments Swld {W}. Arguments g_socks {W}. Arguments dev {W}.

Definition is_sstate (k : sock) (x : sock_state) : bool := bool_decide (sstate k = x).

Definition in_range (idx : Z) : bool := (0 <=? idx) && (idx <? SOCK_MAX).

Definition sock_init : list sock := zrep SOCK_MAX (q_init sock_zero 0).

Section Callbacks.
Context {W : Type}.
Implicit Types w : swld W.

Definition sk w (i : Z) : sock := zget (g_socks w) i.

Definition sset w (i : Z) (k : sock) : swld W := Swld (zset (g_socks w) i k) (dev w).

(** The socket behind a connection's cookie, [None] for -1. *)
Definition sock_for_tcb (ud : Z) w : option Z :=
  if ud =? 0 then None else
  let idx := s32 ud - 1 in
  if negb (in_range idx) then None else
  if is_sstate (sk w idx) SOCK_FREE then None else Some idx.

(** [t] is the connection, [ud] its cookie; the cookie afterwards is returned. *)
Definition on_connect (t ud : Z) w : swld W * Z :=
  match sock_for_tcb ud w with
  | None => (w, ud)
  | Some i =>
      if is_sstate (sk w i) SOCK_CONNECTING then (sset w i (set_stcb (set_sstate (sk w i) SOCK_CONNECTED) (Some t)), ud) else
      if negb (is_sstate (sk w i) SOCK_LISTEN) then (w, ud) else
      if q_full (sk w i) then (w, ud) else
      match zfind (Z.to_nat SOCK_MAX) 0 (fun c => is_sstate (sk w c) SOCK_FREE) with
      | None => (w, ud)
      | Some c =>
          let w := sset w c (q_init (set_peer_closed (set_stcb (set_refcount (set_sstate sock_zero SOCK_CONNECTED) 1) (Some t)) 0) 0) in
          (sset w i (q_push (sk w i) c), c + 1)
      end
  end.

(** The loop of [on_recv]. *)
Fixpoint rx_loop (data : list Z) (k : sock) : sock :=
  match data with
  | [] => k
  | b :: data' =>
      let next := (rx_head k + 1) mod SOCK_RX_BUF in
      if next =? rx_tail k then k else rx_loop data' (set_rx k next (rx_tail k) (zset (rx_buf k) (rx_head k) (u8 b)))
  end.

Definition on_recv (ud : Z) (data : list Z) w : swld W :=
  match sock_for_tcb ud w with None => w | Some i => sset w i (rx_loop data (sk w i)) end.

Definition on_close (ud : Z) w : swld W :=
  match sock_for_tcb ud w with None => w | Some i => sset w i (set_peer_closed (sk w i) 1) end.

End Callbacks.

(** The socket layer as the application of TCP; its three callbacks have the numbers
    1, 2 and 3. *)
#[export] Instance sock_user {W} : TcpUser (swld W) := {|
  connect_cb := fun c t ud w => if c =? 1 then on_connect t ud w else (w, ud);
  recv_cb := fun c t ud data w => if c =? 2 then on_recv ud data w else w;
  close_cb := fun c t ud w => if c =? 3 then on_close ud w else w |}.

Definition lift_driver {W} (d : driver W) : driver (swld W) :=
  Driver (fun w => let '(v, r) := drv_init d (dev w) in (Swld (g_socks w) v, r))
         (fun f w => let '(v, r) := drv_send d f (dev w) in (Swld (g_socks w) v, r)).

Section Calls.
Context {W : Type} (drivers : list (driver W)).
Context (udp_cb : Z -> list Z -> Z -> list Z -> net tcps (swld W) -> net tcps (swld W)) (pit_ticks : W -> Z).

Local Abbreviation S := (net tcps (swld W)).
Local Abbreviation nics := (map lift_driver drivers).
Local Abbreviation ticks := (fun w : swld W => pit_ticks (dev w)).
Implicit Types s : S.

Definition so s (i : Z) : sock := sk (world s) i.

Definition put s (i : Z) (k : sock) : S := set_world s (sset (world s) i k).

Definition sock_create s : S * Z :=
  match zfind (Z.to_nat SOCK_MAX) 0 (fun i => is_sstate (so s i) SOCK_FREE) with
  | Some i => (put s i (q_init (set_stcb (set_refcount (set_sstate sock_zero SOCK_NEW) 1) None) 0), i)
  | None => (s, -1)
  end.

Definition sock_inc_ref (idx : Z) s : S :=
  if negb (in_range idx) then s else
  if is_sstate (so s idx) SOCK_FREE then s else put s idx (set_refcount (so s idx) (refcount (so s idx) + 1)).

Definition sock_bind (idx p : Z) s : S * Z :=
  if negb (in_range idx) then (s, -1) else
  if negb (is_sstate (so s idx) SOCK_NEW) then (s, -1) else (put s idx (set_sport (so s idx) p), 0).

Definition sock_listen (idx b : Z) s : S * Z :=
  if negb (in_range idx) then (s, -1) else
  if negb (is_sstate (so s idx) SOCK_NEW) then (s, -1) else
  let s := put s idx (q_init (set_sstate (so s idx) SOCK_LISTEN) b) in
  let '(s, t) := tcp_listen (sport (so s idx)) 1 2 3 (idx + 1) s in
  let s := put s idx (set_stcb (so s idx) t) in
  match t with
  | None => (put s idx (set_sstate (so s idx) SOCK_NEW), -1)
  | Some _ => (s, 0)
  end.

Definition sock_accept (idx : Z) s : S * PIPE.outcome Z unit :=
  if negb (in_range idx) then (s, PIPE.Return (-1)) else
  if negb (is_sstate (so s idx) SOCK_LISTEN) then (s, PIPE.Return (-1)) else
  if q_empty (so s idx) then (s, PIPE.Yield tt) else
  let '(k, conn) := q_pop (so s idx) in (put s idx k, PIPE.Return conn).

Definition sock_accept_avail (idx : Z) s : Z :=
  if negb (in_range idx) then -1 else
  if negb (is_sstate (so s idx) SOCK_LISTEN) then -1 else if q_empty (so s idx) then 0 else 1.

Definition readable (k : sock) : bool := is_sstate k SOCK_CONNECTED || is_sstate k SOCK_CLOSED.

Definition sock_read_avail (idx : Z) s : Z :=
  if negb (in_range idx) then -1 else
  if negb (readable (so s idx)) then -1 else
  if negb (rx_head (so s idx) =? rx_tail (so s idx)) || negb (peer_closed (so s idx) =? 0) then 1 else 0.

(** The end of [sock_connect], after its wait loop. *)
Definition connect_done (idx : Z) s : S * PIPE.outcome Z (Z * Z) :=
  if negb (is_sstate (so s idx) SOCK_CONNECTED)
  then (put s idx (set_stcb (set_sstate (so s idx) SOCK_NEW) None), PIPE.Return (-1))
  else (s, PIPE.Return 0).

(** The head of the wait loop. *)
Definition connect_wait (idx t spins : Z) s : S * PIPE.outcome Z (Z * Z) :=
  if is_sstate (so s idx) SOCK_CONNECTING && (spins <? 500) then (s, PIPE.Yield (t, spins)) else connect_done idx s.

(** After a [task_yield]. *)
Definition connect_resume (idx t spins : Z) s : S * PIPE.outcome Z (Z * Z) :=
  let spins := spins + 1 in
  if bool_decide (tcp_state_of t s = TCP_CLOSED) then connect_done idx s else connect_wait idx t spins s.

Definition sock_connect (idx : Z) (d : list Z) (p : Z) s : S * PIPE.outcome Z (Z * Z) :=
  if negb (in_range idx) then (s, PIPE.Return (-1)) else
  if negb (is_sstate (so s idx) SOCK_NEW) then (s, PIPE.Return (-1)) else
  let k := so s idx in
  let s := put s idx (q_init (set_rx (set_peer_closed (set_sstate k SOCK_CONNECTING) 0) 0 0 (rx_buf k)) 0) in
  let '(s, t) := tcp_connect nics udp_cb ticks d p 1 2 3 (idx + 1) s in
  match t with
  | None => (put s idx (set_sstate (so s idx) SOCK_NEW), PIPE.Return (-1))
  | Some t => connect_wait idx t 0 (put s idx (set_stcb (so s idx) (Some t)))
  end.

(** The copy loop of [sock_read]. *)
Fixpoint rx_drain (n : nat) (k : sock) (out : list Z) : sock * list Z :=
  match n with
  | O => (k, out)
  | Datatypes.S n' =>
      if rx_tail k =? rx_head k then (k, out) else
      rx_drain n' (set_rx k (rx_head k) ((rx_tail k + 1) mod SOCK_RX_BUF) (rx_buf k)) (out ++ [zget (rx_buf k) (rx_tail k)])
  end.

(** [Return None] is -1. *)
Definition sock_read (idx n : Z) s : S * PIPE.outcome (option (list Z)) unit :=
  if negb (in_range idx) then (s, PIPE.Return None) else
  if negb (readable (so s idx)) then (s, PIPE.Return None) else
  if (rx_head (so s idx) =? rx_tail (so s idx)) && (peer_closed (so s idx) =? 0) then (s, PIPE.Yield tt) else
  let '(k, out) := rx_drain (Z.to_nat n) (so s idx) [] in (put s idx k, PIPE.Return (Some out)).

Definition sock_write (idx : Z) (data : list Z) s : S * Z :=
  if negb (in_range idx) then (s, -1) else
  if negb (is_sstate (so s idx) SOCK_CONNECTED) then (s, -1) else
  match stcb (so s idx) with
  | None => (s, -1)
  | Some t => tcp_send nics udp_cb ticks t data s
  end.

Definition sock_close (idx : Z) s : S * Z :=
  if negb (in_range idx) then (s, -1) else
  if is_sstate (so s idx) SOCK_FREE then (s, -1) else
  if 1 <? refcount (so s idx) then (put s idx (set_refcount (so s idx) (refcount (so s idx) - 1)), 0) else
  let s := match stcb (so s idx) with
           | Some t => let s := fst (tcp_close nics udp_cb ticks t s) in put s idx (set_stcb (so s idx) None)
           | None => s
           end in
  (put s idx (q_init (set_refcount (set_sstate (so s idx) SOCK_FREE) 0) 0), 0).

End Calls.

(** ** The form of the table *)

Section Form.

Definition rx_good (k : sock) : Prop := ring_ok SOCK_RX_BUF (rx_buf k) (rx_head k) (rx_tail k).

(** The bytes received and not yet read. *)
Definition rxq (k : sock) : list Z := contents SOCK_RX_BUF (rx_buf k) (rx_head k) (rx_tail k).

(** The connections waiting to be accepted. *)
Definition pending (k : sock) : list Z := contents SOCK_BACKLOG_MAX (pending_conns k) (pending_head k) (pending_tail k).

(** A socket in form; [lk] says its slot may be in use with no reference to it. *)
Record sock_ok (lk : Prop) (k : sock) : Prop := {
  so_rx : rx_good k;
  so_ring : ring_ok SOCK_BACKLOG_MAX (pending_conns k) (pending_head k) (pending_tail k);
  so_backlog : 1 <= backlog k <= SOCK_BACKLOG_MAX;
  so_pending : zlen (pending k) <= backlog k /\ Forall (fun c => 0 <= c < SOCK_MAX) (pending k);
  so_free : sstate k = SOCK_FREE -> refcount k = 0 /\ stcb k = None;
  so_count : 0 <= refcount k;
  so_held : sstate k <> SOCK_FREE -> lk \/ 1 <= refcount k;
  so_tcb : forall t, stcb k = Some t -> 0 <= t < TCP_MAX_TCBS;
  so_conn : sstate k = SOCK_CONNECTED -> is_Some (stcb k) }.

(** A table in form, the slots that may have lost their references being those of [L]. *)
Definition socks_ok (L : list Z) (l : list sock) : Prop := zlen l = SOCK_MAX /\ forall i, 0 <= i < SOCK_MAX -> sock_ok (i ∈ L) (zget l i).

(** What changes of a socket leave the rings alone. *)
Definition same_rings (k k' : sock) : Prop :=
  pending_conns k' = pending_conns k /\ pending_head k' = pending_head k /\ pending_tail k' = pending_tail k /\ backlog k' = backlog k /\
  rx_head k' = rx_head k /\ rx_tail k' = rx_tail k /\ rx_buf k' = rx_buf k.

Lemma sock_ok_upd {lk} k k' : sock_ok lk k -> same_rings k k' ->
  (sstate k' = SOCK_FREE -> refcount k' = 0 /\ stcb k' = None) -> 0 <= refcount k' ->
  (sstate k' <> SOCK_FREE -> lk \/ 1 <= refcount k') ->
  (forall t, stcb k' = Some t -> 0 <= t < TCP_MAX_TCBS) -> (sstate k' = SOCK_CONNECTED -> is_Some (stcb k')) -> sock_ok lk k'.
Proof.
  intros [A B C D _ _ _ _ _] (E1 & E2 & E3 & E4 & E5 & E6 & E7). unfold rx_good, pending in *.
  split; unfold rx_good, pending; try done; rewrite ?E1, ?E2, ?E3, ?E4, ?E5, ?E6, ?E7; done.
Qed.

(** An empty queue is put in place by [q_init], whatever was there before. *)
Lemma q_init_ok {lk} k b : rx_good k -> (sstate k = SOCK_FREE -> refcount k = 0 /\ stcb k = None) -> 0 <= refcount k ->
  (sstate k <> SOCK_FREE -> lk \/ 1 <= refcount k) ->
  (forall t, stcb k = Some t -> 0 <= t < TCP_MAX_TCBS) -> (sstate k = SOCK_CONNECTED -> is_Some (stcb k)) ->
  sock_ok lk (q_init k b) /\ pending (q_init k b) = [].
Proof.
  intros R F P H T C. unfold q_init. set (b2 := if _ <? _ then _ else _).
  assert (Rb : 1 <= b2 <= SOCK_BACKLOG_MAX) by (unfold b2, SOCK_BACKLOG_MAX; destruct (Z.leb_spec b 0) as [B | B]; [done |]; destruct (Z.ltb_spec 8 b); lia). clearbody b2.
  assert (Pe : pending (set_queue k (zrep SOCK_BACKLOG_MAX (-1)) 0 0 b2) = []) by reflexivity.
  split; [| done]. split; try done; rewrite ?Pe; try done. split; [| constructor].
  change (0 <= b2). lia.
Qed.

Lemma ring_count k : ring_ok SOCK_BACKLOG_MAX (pending_conns k) (pending_head k) (pending_tail k) ->
  zlen (pending k) = (pending_head k - pending_tail k + SOCK_BACKLOG_MAX) mod SOCK_BACKLOG_MAX.
Proof.
  intros R. unfold zlen, pending. rewrite length_contents, Z2Nat.id by (by eapply ring_len_bounds).
  unfold ring_len. rewrite <- (Z.mod_add (pending_head k - pending_tail k) 1 SOCK_BACKLOG_MAX) by done. done.
Qed.

(** The queue refuses exactly at its limit. *)
Lemma q_full_spec {lk} k : sock_ok lk k -> q_full k = true <-> zlen (pending k) = Z.min (backlog k) (SOCK_BACKLOG_MAX - 1).
Proof.
  intros O. pose proof (so_ring _ k O) as R. pose proof (so_backlog _ k O). pose proof (so_pending _ k O) as (L & _).
  pose proof (ring_full _ _ _ _ R) as F. unfold ring_succ in F. pose proof (ring_len_bounds _ _ _ _ R) as B.
  assert (E : zlen (pending k) = ring_len SOCK_BACKLOG_MAX (pending_head k) (pending_tail k)).
  { unfold zlen, pending. rewrite length_contents. lia. }
  unfold q_full. rewrite <- ring_count by done. rewrite orb_true_iff, Z.eqb_eq, Z.leb_le, F, E in *. lia.
Qed.

Lemma q_push_spec {lk} k c : sock_ok lk k -> 0 <= c < SOCK_MAX -> sock_ok lk (q_push k c) /\
  pending (q_push k c) = if q_full k then pending k else pending k ++ [c].
Proof.
  intros O C. unfold q_push. destruct (q_full k) eqn:F; [done |]. pose proof (so_ring _ k O) as R. pose proof (so_pending _ k O) as (L & A).
  assert (N : zlen (pending k) < backlog k).
  { unfold q_full in F. rewrite <- ring_count in F by done. apply orb_false_iff in F as (_ & F). by apply Z.leb_gt in F. }
  apply orb_false_iff in F as (F & _). apply Z.eqb_neq in F. set (k' := set_queue _ _ _ _ _).
  assert (E : pending k' = pending k ++ [c]) by (by apply (contents_push SOCK_BACKLOG_MAX)).
  split; [| done]. destruct O as [O1 O2 O3 O4 O5 O6 O7 O8 O9]. split; try done.
  - by apply (ring_ok_push SOCK_BACKLOG_MAX).
  - rewrite E, zlen_app, Forall_app, Forall_singleton. change (backlog k') with (backlog k). change (zlen [c]) with 1. split; [lia | done].
Qed.

Lemma q_pop_spec {lk} k : sock_ok lk k -> sock_ok lk (fst (q_pop k)) /\
  pending k = (if q_empty k then [] else snd (q_pop k) :: pending (fst (q_pop k))).
Proof.
  intros O. pose proof (so_ring _ k O) as R. pose proof (so_pending _ k O) as (L & A). unfold q_pop, q_empty.
  destruct (Z.eqb_spec (pending_head k) (pending_tail k)) as [E | E]; [split; [done | by apply (ring_empty _ _ _ _ R)] |].
  cbn [fst snd]. set (k' := set_queue _ _ _ _ _).
  assert (R' : ring_ok SOCK_BACKLOG_MAX (pending_conns k) (pending_head k) (ring_succ SOCK_BACKLOG_MAX (pending_tail k))) by (by apply ring_ok_pop).
  pose proof (contents_pop _ _ _ _ R E) as P.
  assert (Q : pending k' = contents SOCK_BACKLOG_MAX (pending_conns k) (pending_head k) (ring_succ SOCK_BACKLOG_MAX (pending_tail k))).
  { unfold pending, k'. cbn [pending_conns pending_head pending_tail set_queue]. unfold contents. apply map_ext_in. intros x Hx%in_seq.
    pose proof (ring_len_pop _ _ _ _ R E) as Lp. pose proof (ring_len_bounds _ _ _ _ R). fold (ring_succ SOCK_BACKLOG_MAX (pending_tail k)) in *.
    rewrite Lp in Hx. destruct R as [_ _ _ Rt]. unfold SOCK_BACKLOG_MAX in *. apply zget_zset_ne; [lia | apply Z.mod_pos_bound; lia |].
    unfold ring_succ. rewrite Zplus_mod_idemp_l. intros Eq.
    assert (pending_tail k = pending_tail k mod 8) as Em by (symmetry; by apply Z.mod_small).
    rewrite Em in Eq at 1. Z.div_mod_to_equations. lia. }
  change (pending k) with (contents SOCK_BACKLOG_MAX (pending_conns k) (pending_head k) (pending_tail k)) in *. rewrite P, Q in *.
  split; [| done]. destruct O as [O1 O2 O3 O4 O5 O6 O7 O8 O9]. split; try done.
  - unfold k'. cbn. apply ring_ok_store. exact R'.
  - rewrite Q. rewrite zlen_cons in L. split; [change (backlog k') with (backlog k); lia |]. by inversion A.
Qed.

Lemma rx_loop_spec data k : rx_good k -> let k' := rx_loop data k in
  rx_good k' /\ rxq k' = ztake (SOCK_RX_BUF - 1) (rxq k ++ map u8 data) /\
  k' = set_rx k (rx_head k') (rx_tail k) (rx_buf k').
Proof.
  revert k. induction data as [|b data IH]; intros k O; cbn [rx_loop map].
  - split; [done |]. split; [| by destruct k]. rewrite app_nil_r. unfold ztake. rewrite take_ge; [done |].
    unfold rxq. rewrite length_contents. pose proof (ring_len_bounds _ _ _ _ O). unfold SOCK_RX_BUF in *. lia.
  - pose proof (ring_len_bounds _ _ _ _ O) as B. pose proof (ring_full _ _ _ _ O) as F. unfold ring_succ in F.
    destruct (Z.eqb_spec ((rx_head k + 1) mod SOCK_RX_BUF) (rx_tail k)) as [E | E].
    + split; [done |]. split; [| by destruct k]. apply F in E. unfold ztake. rewrite take_app_le.
      * rewrite take_ge; [done |]. unfold rxq. rewrite length_contents, E. lia.
      * unfold rxq. rewrite length_contents, E. lia.
    + set (k1 := set_rx k _ _ _). assert (O1 : rx_good k1) by (by apply (ring_ok_push SOCK_RX_BUF)).
      assert (Q1 : rxq k1 = rxq k ++ [u8 b]) by (by apply (contents_push SOCK_RX_BUF)).
      destruct (IH k1 O1) as (O2 & Q2 & S2). split; [done |]. split; [by rewrite Q2, Q1, <- app_assoc | exact S2].
Qed.

Lemma rx_drain_spec n k out k' out' : rx_good k -> rx_drain n k out = (k', out') ->
  rx_good k' /\ out' = out ++ take n (rxq k) /\ rxq k' = drop n (rxq k) /\ k' = set_rx k (rx_head k) (rx_tail k') (rx_buf k).
Proof.
  revert k out. induction n as [|n IH]; cbn [rx_drain]; intros k out O E.
  - injection E as <- <-. rewrite take_0, drop_0, app_nil_r. split_and!; try done. by destruct k.
  - destruct (Z.eqb_spec (rx_tail k) (rx_head k)) as [Et | Et].
    + injection E as <- <-. assert (Q : rxq k = []) by (by apply (ring_empty SOCK_RX_BUF _ _ _ O)). rewrite Q, app_nil_r. split_and!; try done. by destruct k.
    + assert (Ne : rx_head k <> rx_tail k) by auto. pose proof (contents_pop _ _ _ _ O Ne) as Q. fold (rxq k) in Q.
      assert (O1 : rx_good (set_rx k (rx_head k) ((rx_tail k + 1) mod SOCK_RX_BUF) (rx_buf k))) by exact (ring_ok_pop _ _ _ _ O).
      destruct (IH _ _ O1 E) as (O2 & -> & Q2 & S2). rewrite Q. split_and!; [done | by rewrite <- app_assoc | done | exact S2].
Qed.

End Form.

(** ** Every step keeps the form *)

(** The conditions of [sock_ok_upd] that [K], the form before, settles. *)
Ltac form K := try done; try (by repeat split); try (by intros; apply K); try (by intros ? [= <-]); try (by intros _; right).

Section Keeps.
Context {W : Type} (drivers : list (driver W)).
Context (udp_cb : Z -> list Z -> Z -> list Z -> net tcps (swld W) -> net tcps (swld W)) (pit_ticks : W -> Z).

Local Abbreviation S := (net tcps (swld W)).
Local Abbreviation nics := (map lift_driver drivers).
Local Abbreviation ticks := (fun w : swld W => pit_ticks (dev w)).
Implicit Types (s : S) (w : swld W).
Context (Lk : list Z).

(** A slot in use. *)
Definition busy w (i : Z) : Prop := 0 <= i < SOCK_MAX /\ sstate (sk w i) <> SOCK_FREE.

(** [w] has the form, and no socket in use at [w0] was freed. *)
Definition grown (w0 w : swld W) : Prop := socks_ok Lk (g_socks w) /\ forall i, busy w0 i -> busy w i.

Lemma grown_refl w : socks_ok Lk (g_socks w) -> grown w w.
Proof. done. Qed.

Lemma in_range_spec i : in_range i = true <-> 0 <= i < SOCK_MAX.
Proof. unfold in_range. rewrite andb_true_iff, Z.leb_le, Z.ltb_lt. done. Qed.

Lemma is_sstate_spec k x : is_sstate k x = true <-> sstate k = x.
Proof. unfold is_sstate. apply bool_decide_eq_true. Qed.

Lemma is_sstate_ne k x : is_sstate k x = false <-> sstate k <> x.
Proof. unfold is_sstate. apply bool_decide_eq_false. Qed.

Lemma sk_sset_in w i k : socks_ok Lk (g_socks w) -> 0 <= i < SOCK_MAX -> sk (sset w i k) i = k.
Proof. intros (L & _) R. unfold sk, sset. cbn. apply zget_zset_eq. by rewrite L. Qed.

Lemma sk_sset_ne w i j k : 0 <= i -> 0 <= j -> i <> j -> sk (sset w i k) j = sk w j.
Proof. intros. unfold sk, sset. cbn. by apply zget_zset_ne. Qed.

Lemma sset_ok w i k : socks_ok Lk (g_socks w) -> 0 <= i < SOCK_MAX -> sock_ok (i ∈ Lk) k -> socks_ok Lk (g_socks (sset w i k)).
Proof.
  intros O R K. split; [cbn; rewrite zlen_zset; apply O |]. intros j Rj. change (sock_ok (j ∈ Lk) (sk (sset w i k) j)).
  destruct (decide (i = j)) as [<- | Ne]; [by rewrite sk_sset_in | rewrite sk_sset_ne by lia; by apply O].
Qed.

Lemma sset_grown w0 w i k : grown w0 w -> 0 <= i < SOCK_MAX -> sock_ok (i ∈ Lk) k -> (busy w0 i -> sstate k <> SOCK_FREE) -> grown w0 (sset w i k).
Proof.
  intros (O & B) R K N. split; [by apply sset_ok |]. intros j Bj. split; [apply Bj |].
  destruct (decide (i = j)) as [<- | Ne]; [rewrite sk_sset_in by done; by apply N |].
  rewrite sk_sset_ne; [by apply B | lia | apply Bj | done].
Qed.

Lemma sk_ok w i : socks_ok Lk (g_socks w) -> 0 <= i < SOCK_MAX -> sock_ok (i ∈ Lk) (sk w i).
Proof. intros O R. by apply O. Qed.

Lemma sock_for_tcb_spec ud w i : sock_for_tcb ud w = Some i -> busy w i.
Proof.
  unfold sock_for_tcb. cases; [done |]. cbv zeta. destruct (in_range _) eqn:R; [cbn [negb] | done].
  destruct (is_sstate _ _) eqn:F; [done |]. intros [= <-]. split; [by apply in_range_spec | by apply is_sstate_ne].
Qed.

Lemma zero_rx_good : rx_good sock_zero.
Proof. split; reflexivity || (split; [discriminate | reflexivity]). Qed.

Lemma on_connect_keeps w0 t ud w : 0 <= t < TCP_MAX_TCBS -> grown w0 w -> grown w0 (fst (on_connect t ud w)).
Proof.
  intros T G. pose proof G as (O & B). unfold on_connect. destruct (sock_for_tcb ud w) as [i|] eqn:E; [| done].
  apply sock_for_tcb_spec in E as (R & N). pose proof (sk_ok w i O R) as K.
  destruct (is_sstate (sk w i) SOCK_CONNECTING) eqn:C.
  - apply sset_grown; try done. apply (sock_ok_upd (sk w i)); form K.
  - destruct (is_sstate (sk w i) SOCK_LISTEN) eqn:Li; [cbn [negb] | done]. destruct (q_full (sk w i)) eqn:F; [done |].
    destruct (zfind _ 0 _) as [c|] eqn:Z1; [| done]. apply zfind_Some in Z1 as (Rc & Fc & _). change (0 <= c < SOCK_MAX) in Rc.
    apply is_sstate_spec in Fc. set (k := q_init _ 0).
    assert (Kc : sock_ok (c ∈ Lk) k) by (apply q_init_ok; form T; exact zero_rx_good).
    assert (Gc : grown w0 (sset w c k)) by (by apply sset_grown). cbn [fst]. assert (Ne : c <> i) by congruence.
    apply sset_grown; try done; rewrite sk_sset_ne by lia; [by apply q_push_spec |].
    intros _. unfold q_push. by rewrite F.
Qed.

Lemma on_recv_keeps w0 ud data w : grown w0 w -> grown w0 (on_recv ud data w).
Proof.
  intros G. pose proof G as (O & B). unfold on_recv. destruct (sock_for_tcb ud w) as [i|] eqn:E; [| done].
  apply sock_for_tcb_spec in E as (R & N). pose proof (sk_ok w i O R) as K. destruct (rx_loop_spec data _ (so_rx _ _ K)) as (O' & _ & Ek).
  apply sset_grown; try done; rewrite Ek; [| done]. rewrite Ek in O'. destruct K. by split.
Qed.

Lemma on_close_keeps w0 ud w : grown w0 w -> grown w0 (on_close ud w).
Proof.
  intros G. pose proof G as (O & B). unfold on_close. destruct (sock_for_tcb ud w) as [i|] eqn:E; [| done].
  apply sock_for_tcb_spec in E as (R & N). pose proof (sk_ok w i O R) as K.
  apply sset_grown; try done. apply (sock_ok_upd (sk w i)); form K.
Qed.

Lemma drv_keeps w0 v f w : v ∈ nics -> grown w0 w -> grown w0 (fst (drv_send v f w)).
Proof.
  intros (v' & -> & _)%list_elem_of_fmap G. cbn. by destruct (drv_send v' f (dev w)).
Qed.

Lemma connect_cb_keeps w0 c i ud w : 0 <= i < TCP_MAX_TCBS -> grown w0 w -> grown w0 (fst (connect_cb c i ud w)).
Proof. intros. cbn. cases; [by apply on_connect_keeps | done]. Qed.

Lemma recv_cb_keeps w0 c i ud data w : grown w0 w -> grown w0 (recv_cb c i ud data w).
Proof. intros. cbn. cases; [by apply on_recv_keeps | done]. Qed.

Lemma close_cb_keeps w0 c i ud w : grown w0 w -> grown w0 (close_cb c i ud w).
Proof. intros. cbn. cases; [by apply on_close_keeps | done]. Qed.

End Keeps.

Create HintDb socks.
#[export] Hint Resolve drv_keeps connect_cb_keeps recv_cb_keeps close_cb_keeps : socks.

Section Steps.
Context {W : Type} (drivers : list (driver W)).
Context (udp_cb : Z -> list Z -> Z -> list Z -> net tcps (swld W) -> net tcps (swld W)) (pit_ticks : W -> Z).

Local Abbreviation S := (net tcps (swld W)).
Local Abbreviation nics := (map lift_driver drivers).
Local Abbreviation ticks := (fun w : swld W => pit_ticks (dev w)).
Implicit Types (s : S) (w : swld W).

(** What a task or the network can do next, a task resumed inside [sock_connect] apart. *)
Inductive step s : S -> Prop :=
  | st_create : step s (fst (sock_create s))
  | st_inc_ref i : step s (sock_inc_ref i s)
  | st_bind i p : step s (fst (sock_bind i p s))
  | st_listen i b : step s (fst (sock_listen i b s))
  | st_accept i : step s (fst (sock_accept i s))
  | st_connect i d p : step s (fst (sock_connect drivers udp_cb pit_ticks i d p s))
  | st_read i n : step s (fst (sock_read i n s))
  | st_write i data : step s (fst (sock_write drivers udp_cb pit_ticks i data s))
  | st_close i : step s (fst (sock_close drivers udp_cb pit_ticks i s))
  | st_rx h seg len : step s (default s (tcp_rx nics udp_cb ticks h seg len s)).

(** What tasks and the network did from [s0] on, with the slots that a task resumed
    inside [sock_connect] found freed by another holder: [sock_connect] does not
    look again whether the slot is still its own. *)
Inductive run s0 : list Z -> S -> Prop :=
  | run_start : run s0 [] s0
  | run_step L s s' : run s0 L s -> step s s' -> run s0 L s'
  | run_resume L s i t n : run s0 L s -> 0 <= i < SOCK_MAX ->
      run s0 (if is_sstate (so s i) SOCK_FREE then i :: L else L) (fst (connect_resume i t n s)).

(** The table is in form, the slots of [L] apart from their references. *)
Definition in_form L s : Prop := socks_ok L (g_socks (world s)).

Context {Lk : list Z}.

Local Abbreviation good := (in_form Lk).

Lemma put_good s i k : good s -> 0 <= i < SOCK_MAX -> sock_ok (i ∈ Lk) k -> good (put s i k).
Proof. apply (sset_ok Lk (world s)). Qed.

Lemma so_put_in s i k : good s -> 0 <= i < SOCK_MAX -> so (put s i k) i = k.
Proof. apply (sk_sset_in Lk (world s)). Qed.

Lemma put_put s i k k' : put (put s i k) i k' = put s i k'.
Proof. unfold put, sset. cbn. by rewrite zset_zset. Qed.

Lemma so_ok s i : good s -> 0 <= i < SOCK_MAX -> sock_ok (i ∈ Lk) (so s i).
Proof. apply (sk_ok Lk (world s)). Qed.

(** A change of one socket that leaves its rings alone. *)
Lemma put_upd s i k : good s -> 0 <= i < SOCK_MAX -> same_rings (so s i) k ->
  (sstate k = SOCK_FREE -> refcount k = 0 /\ stcb k = None) -> 0 <= refcount k -> (sstate k <> SOCK_FREE -> i ∈ Lk \/ 1 <= refcount k) ->
  (forall t, stcb k = Some t -> 0 <= t < TCP_MAX_TCBS) -> (sstate k = SOCK_CONNECTED -> is_Some (stcb k)) -> good (put s i k).
Proof. intros G R. intros. apply put_good; try done. apply (sock_ok_upd (so s i)); [by apply so_ok | done..]. Qed.

Lemma create_good s : good s -> good (fst (sock_create s)).
Proof.
  intros G. unfold sock_create. destruct (zfind _ 0 _) as [i|] eqn:F; [| done]. apply zfind_Some in F as (R & _).
  change (0 <= i < SOCK_MAX) in R. apply put_good; [done | done |]. apply q_init_ok; try done; intros _; by right.
Qed.

Lemma inc_ref_good s i : good s -> good (sock_inc_ref i s).
Proof.
  intros G. unfold sock_inc_ref. destruct (in_range i) eqn:R; [cbn [negb] | done]. apply in_range_spec in R.
  destruct (is_sstate _ _) eqn:F; [done |]. apply is_sstate_ne in F. pose proof (so_ok s i G R) as K.
  pose proof (so_count _ _ K). apply put_upd; form K; cbn; [| intros _; right]; lia.
Qed.

Lemma bind_good s i p : good s -> good (fst (sock_bind i p s)).
Proof.
  intros G. unfold sock_bind. destruct (in_range i) eqn:R; [cbn [negb] | done]. apply in_range_spec in R.
  cases; [done |]. pose proof (so_ok s i G R) as K.
  apply put_upd; form K.
Qed.

Lemma listen_good s i b : good s -> good (fst (sock_listen i b s)).
Proof.
  intros G. unfold sock_listen. destruct (in_range i) eqn:R; [cbn [negb] | done]. apply in_range_spec in R.
  destruct (is_sstate _ _) eqn:F; [cbn [negb] | done]. apply is_sstate_spec in F. pose proof (so_ok s i G R) as K.
  assert (H1 : i ∈ Lk \/ 1 <= refcount (so s i)) by (apply K; by rewrite F).
  set (k := q_init _ b). assert (Kk : sock_ok (i ∈ Lk) k) by (apply q_init_ok; try done; by apply K).
  cbv zeta. set (s1 := put s i k). assert (G1 : good s1) by (by apply put_good). assert (E1 : so s1 i = k) by (by apply so_put_in).
  pose proof (tcp_listen_keeps (sport (so s1 i)) 1 2 3 (i + 1) s1) as Q. destruct (tcp_listen _ 1 2 3 (i + 1) s1) as [s2 t].
  destruct Q as (Ew & Rt). assert (G2 : good s2) by (unfold good; by rewrite Ew).
  assert (E2 : so s2 i = k) by (unfold so; by rewrite Ew). rewrite E2.
  assert (G3 : good (put s2 i (set_stcb k t))).
  { apply put_good; try done. apply (sock_ok_upd k); form Kk. }
  destruct t as [t|]; [exact G3 |]. cbn [fst]. rewrite so_put_in by done.
  apply put_good; try done. apply (sock_ok_upd k); form Kk.
Qed.

Lemma accept_good s i : good s -> good (fst (sock_accept i s)).
Proof.
  intros G. unfold sock_accept. destruct (in_range i) eqn:R; [cbn [negb] | done]. apply in_range_spec in R.
  cases; [done |]. cases; [done |]. pose proof (q_pop_spec _ (so_ok s i G R)) as (K & _).
  destruct (q_pop (so s i)) as [k c]. by apply put_good.
Qed.

(** Slot [i] is in use, or one of those that may lose their references. *)
Definition had s (i : Z) : Prop := 0 <= i < SOCK_MAX /\ (sstate (so s i) <> SOCK_FREE \/ i ∈ Lk).

Lemma had_held s i : good s -> had s i -> i ∈ Lk \/ 1 <= refcount (so s i).
Proof. intros G (R & [N | N]); [by apply (so_ok s i G R) | by left]. Qed.

Lemma connect_done_good s i : good s -> had s i -> good (fst (connect_done i s)).
Proof.
  intros G B. pose proof (had_held s i G B) as Hd. destruct B as (R & _). unfold connect_done. cases; [| done].
  pose proof (so_ok s i G R) as K. apply put_upd; form K.
Qed.

Lemma connect_wait_good s i t n : good s -> had s i -> good (fst (connect_wait i t n s)).
Proof. intros G B. unfold connect_wait. cases; [done | by apply connect_done_good]. Qed.

Lemma resume_good s i t n : good s -> had s i -> good (fst (connect_resume i t n s)).
Proof. intros G B. unfold connect_resume. cbv zeta. cases; [by apply connect_done_good | by apply connect_wait_good]. Qed.

Lemma connect_good s i d p : good s -> good (fst (sock_connect drivers udp_cb pit_ticks i d p s)).
Proof.
  intros G. unfold sock_connect. destruct (in_range i) eqn:R; [cbn [negb] | done]. apply in_range_spec in R.
  destruct (is_sstate _ _) eqn:F; [cbn [negb] | done]. apply is_sstate_spec in F. pose proof (so_ok s i G R) as K.
  cbv zeta. set (k := q_init _ 0). assert (Kk : sock_ok (i ∈ Lk) k).
  { apply q_init_ok; try done; [| apply K | intros _; apply K; by rewrite F | apply K].
    destruct K as [[K1 K2 K3 K4] _ _ _ _ _ _ _ _]. split; try done; by cbn. }
  set (s1 := put s i k). assert (G1 : good s1) by (by apply put_good).
  assert (B1 : busy (world s1) i) by (split; [done |]; change (sk (world s1) i) with (so s1 i); unfold s1; by rewrite so_put_in).
  pose proof (tcp_connect_keeps nics udp_cb ticks (grown Lk (world s1)) ltac:(eauto with socks) ltac:(eauto with socks) ltac:(eauto with socks)
    ltac:(eauto with socks) d p 1 2 3 (i + 1) s1 (grown_refl Lk _ G1)) as Q.
  destruct (tcp_connect _ _ _ _ _ _ _ _ _ _) as [s2 t]. destruct Q as ((G2 & B2) & Rt). specialize (B2 i B1). fold (good s2) in G2.
  pose proof (so_ok s2 i G2 R) as K2. pose proof B2 as (_ & N2). fold (so s2 i) in N2.
  destruct t as [t|].
  - apply connect_wait_good.
    + apply put_upd; form K2.
    + split; [done |]. left. by rewrite so_put_in.
  - apply put_upd; form K2.
Qed.

Lemma read_good s i n : good s -> good (fst (sock_read i n s)).
Proof.
  intros G. unfold sock_read. destruct (in_range i) eqn:R; [cbn [negb] | done]. apply in_range_spec in R.
  cases; [done |]. cases; [done |]. pose proof (so_ok s i G R) as K. destruct (rx_drain _ _ _) as [k out] eqn:E.
  destruct (rx_drain_spec _ _ _ _ _ (so_rx _ _ K) E) as (O & _ & _ & Ek). apply put_good; try done. rewrite Ek in O |- *. destruct K. by split.
Qed.

Lemma write_good s i data : good s -> good (fst (sock_write drivers udp_cb pit_ticks i data s)).
Proof.
  intros G. unfold sock_write. cases; [done |]. cases; [done |]. destruct (stcb _); [| done].
  apply (tcp_send_keeps nics udp_cb ticks (grown Lk (world s))); eauto with socks. by apply grown_refl.
Qed.

Lemma close_good s i : good s -> good (fst (sock_close drivers udp_cb pit_ticks i s)).
Proof.
  intros G. unfold sock_close. destruct (in_range i) eqn:R; [cbn [negb] | done]. apply in_range_spec in R.
  destruct (is_sstate _ _) eqn:F; [done |]. apply is_sstate_ne in F. pose proof (so_ok s i G R) as K.
  cases; [zb; apply put_upd; form K; cbn; [lia |]; intros _; right; lia |]. cbv zeta. cbn [fst].
  assert (Fin : forall s1, good s1 -> sock_ok (i ∈ Lk) (q_init (set_refcount (set_sstate (set_stcb (so s1 i) None) SOCK_FREE) 0) 0)).
  { intros s1 G1. apply q_init_ok; try done. exact (so_rx _ _ (so_ok s1 i G1 R)). }
  destruct (stcb (so s i)) as [t|] eqn:Et.
  - assert (G1 : good (fst (tcp_close nics udp_cb ticks t s))).
    { apply (tcp_close_keeps nics udp_cb ticks (grown Lk (world s))); eauto with socks. by apply grown_refl. }
    set (s1 := fst _) in *. rewrite so_put_in, put_put by done. apply put_good; try done. by apply Fin.
  - apply put_good; try done. pose proof (Fin s G) as Q. unfold set_stcb in Q. rewrite <- Et in Q. exact Q.
Qed.

Lemma rx_good_step s h seg len : good s -> good (default s (tcp_rx nics udp_cb ticks h seg len s)).
Proof.
  intros G. apply (rx_keeps nics udp_cb ticks (grown Lk (world s))); eauto with socks. by apply grown_refl.
Qed.

Lemma step_good s s' : step s s' -> good s -> good s'.
Proof.
  intros St G. destruct St.
  - by apply create_good.
  - by apply inc_ref_good.
  - by apply bind_good.
  - by apply listen_good.
  - by apply accept_good.
  - by apply connect_good.
  - by apply read_good.
  - by apply write_good.
  - by apply close_good.
  - by apply rx_good_step.
Qed.

Lemma sock_init_ok : socks_ok Lk sock_init.
Proof.
  split; [reflexivity |]. intros i R. unfold sock_init. rewrite zget_zrep by done. by apply q_init_ok.
Qed.

End Steps.

(** A state in form with every reference accounted for. *)
Abbreviation good := (in_form []).

Section Runs.
Context {W : Type} (drivers : list (driver W)).
Context (udp_cb : Z -> list Z -> Z -> list Z -> net tcps (swld W) -> net tcps (swld W)) (pit_ticks : W -> Z).

Implicit Types s : net tcps (swld W).

Lemma so_put s i k : good s -> 0 <= i < SOCK_MAX -> so (put s i k) i = k.
Proof. apply so_put_in. Qed.

Lemma sk_sset (w : swld W) i k : socks_ok [] (g_socks w) -> 0 <= i < SOCK_MAX -> sk (sset w i k) i = k.
Proof. apply sk_sset_in. Qed.

Lemma in_form_cons L i s : in_form L s -> in_form (i :: L) s.
Proof.
  intros (Z & O). split; [exact Z |]. intros j R. destruct (O j R). split; try done. intros N.
  destruct (so_held0 N) as [M | M]; [left; by apply list_elem_of_further | by right].
Qed.

Lemma resume_in_form L s i t n : in_form L s -> 0 <= i < SOCK_MAX ->
  in_form (if is_sstate (so s i) SOCK_FREE then i :: L else L) (fst (connect_resume i t n s)).
Proof.
  intros G R. destruct (is_sstate (so s i) SOCK_FREE) eqn:F.
  - apply resume_good; [by apply in_form_cons |]. split; [done |]. right. by apply list_elem_of_here.
  - apply resume_good; [done |]. split; [done |]. left. by apply is_sstate_ne.
Qed.

(** C24. The socket table.  In every state that tasks' calls and arriving segments
    can lead to from the table of [sock_init], with any interleaving of calls that
    block, the receive ring and the accept queue of every socket are rings, the
    queue holds at most [backlog] connections and each of them is a slot of the
    table, a free slot has no references and no connection, no count of references
    is negative, the connection of a socket is an entry of the TCP table, and a
    connected socket has one.  A socket in use has at least one reference, unless
    its slot is one of [L]: those that a task blocked in [sock_connect] found freed
    by another holder when it went on, which puts the slot in use again with no
    reference to it.  Without such a task [L] is empty. *)
Theorem socks_reachable s L s' : g_socks (world s) = sock_init -> run drivers udp_cb pit_ticks s L s' -> in_form L s'.
Proof.
  intros E. induction 1 as [| L s1 s2 _ IH St | L s1 i t n _ IH R].
  - unfold in_form. rewrite E. apply sock_init_ok.
  - by eapply step_good.
  - by apply resume_in_form.
Qed.

End Runs.


(** ** The byte stream between two sockets of one host *)

Section Stream.
Context {W : Type} (drivers : list (driver W)).
Context (udp_cb : Z -> list Z -> Z -> list Z -> net tcps (swld W) -> net tcps (swld W)) (pit_ticks : W -> Z).

Local Abbreviation S := (net tcps (swld W)).
Implicit Types (s : S) (w : swld W).

(** Socket [x] is connected, through connection [i], and held once. *)
Definition end_of s (x i : Z) : Prop :=
  sstate (so s x) = SOCK_CONNECTED /\ refcount (so s x) = 1 /\ stcb (so s x) = Some i /\ peer_closed (so s x) = 0 /\
  TCP.on_recv (tcbn s i) = 2 /\ TCP.on_close (tcbn s i) = 3 /\ user_data (tcbn s i) = x + 1.

Record paired s (d : list Z) (x y i j : Z) : Prop := {
  pr_good : good s; pr_session : session s i j d; pr_range : 0 <= x < SOCK_MAX /\ 0 <= y < SOCK_MAX /\ x <> y;
  pr_x : end_of s x i; pr_y : end_of s y j }.

(** What the two ends do. *)
Inductive call := Write (data : list Z) | Read (n : Z) | Close.

Inductive result := Rc (z : Z) | Got (l : option (list Z)) | Blocks.

(** [x] writes and closes, [y] reads. *)
Definition perform (x y : Z) (c : call) s : S * result :=
  match c with
  | Write data => let '(s, r) := sock_write drivers udp_cb pit_ticks x data s in (s, Rc r)
  | Read n => match sock_read y n s with (s, PIPE.Return l) => (s, Got l) | (s, PIPE.Yield _) => (s, Blocks) end
  | Close => let '(s, r) := sock_close drivers udp_cb pit_ticks x s in (s, Rc r)
  end.

Fixpoint perform_all (x y : Z) (l : list call) s : S * list result :=
  match l with
  | [] => (s, [])
  | c :: l => let '(s, r) := perform x y c s in let '(s, rs) := perform_all x y l s in (s, r :: rs)
  end.

(** The contract: a queue of at most 4095 bytes and whether the writer is there.  A
    write that finds no room reports success and loses the tail of its bytes. *)
Definition stream : Type := list Z * bool.

Definition promised (c : call) (st : stream) : stream * result :=
  let '(q, op) := st in
  match c with
  | Write data =>
      if op && (zlen data <=? 1460) then ((ztake (SOCK_RX_BUF - 1) (q ++ map u8 data), op), Rc (zlen data)) else (st, Rc (-1))
  | Read n => match q with [] => (st, if op then Blocks else Got (Some [])) | _ => ((zdrop n q, op), Got (Some (ztake n q))) end
  | Close => ((q, false), Rc (if op then 0 else -1))
  end.

Fixpoint promised_all (l : list call) (st : stream) : stream * list result :=
  match l with
  | [] => (st, [])
  | c :: l => let '(st, r) := promised c st in let '(st, rs) := promised_all l st in (st, r :: rs)
  end.

(** [st] is what lies between [x] and [y]. *)
Definition between s (d : list Z) (x y i j : Z) (st : stream) : Prop :=
  rxq (so s y) = fst st /\
  if snd st then paired s d x y i j
  else good s /\ 0 <= x < SOCK_MAX /\ 0 <= y < SOCK_MAX /\ sstate (so s x) = SOCK_FREE /\ sstate (so s y) = SOCK_CONNECTED /\
    peer_closed (so s y) = 1.

Lemma session_world s w (i j : Z) d : session s i j d -> session (set_world s w) i j d.
Proof. intros [T Sl Lo F A U E Y]. by split. Qed.

Lemma sock_of_busy w x : sstate (sk w x) <> SOCK_FREE -> 0 <= x < SOCK_MAX -> sock_for_tcb (x + 1) w = Some x.
Proof.
  intros E R. unfold sock_for_tcb. rewrite (proj2 (Z.eqb_neq (x + 1) 0)) by lia. unfold SOCK_MAX in R.
  rewrite s32_small by lia. replace (x + 1 - 1) with x by lia. cbv zeta.
  rewrite (proj2 (in_range_spec x) R). cbn [negb]. by rewrite (proj2 (is_sstate_ne _ _)).
Qed.

Lemma sock_of w x : sstate (sk w x) = SOCK_CONNECTED -> 0 <= x < SOCK_MAX -> sock_for_tcb (x + 1) w = Some x.
Proof. intros E. apply sock_of_busy. by rewrite E. Qed.

Lemma so_put_ne s x y k : 0 <= x -> 0 <= y -> x <> y -> so (put s x k) y = so s y.
Proof. apply (sk_sset_ne (world s)). Qed.

(** The peer's data and its close, as its socket sees them. *)
Lemma received_so s y j data : good s -> 0 <= y < SOCK_MAX -> end_of s y j ->
  received (tcbn s j) j data (world s) = sset (world s) y (rx_loop data (so s y)).
Proof.
  intros G R (E & _ & _ & _ & Er & _ & Eu). unfold received. rewrite Er, Eu. change (2 =? 0) with false. cbv iota.
  change (recv_cb 2 j (y + 1) data (world s)) with (on_recv (y + 1) data (world s)). unfold on_recv. by rewrite sock_of.
Qed.

Lemma closed_so s y j : good s -> 0 <= y < SOCK_MAX -> end_of s y j ->
  closed (tcbn s j) j (world s) = sset (world s) y (set_peer_closed (so s y) 1).
Proof.
  intros G R (E & _ & _ & _ & _ & Ec & Eu). unfold closed. rewrite Ec, Eu. change (3 =? 0) with false. cbv iota.
  change (close_cb 3 j (y + 1) (world s)) with (on_close (y + 1) (world s)). unfold on_close. by rewrite sock_of.
Qed.

Lemma end_of_same s s' (x i : Z) : same_app (tcbn s i) (tcbn s' i) -> so s' x = so s x -> end_of s x i -> end_of s' x i.
Proof. intros (_ & E2 & E3 & E4) Es. unfold end_of. by rewrite E2, E3, E4, Es. Qed.

Lemma end_of_rx s s' (x i h t : Z) b : same_app (tcbn s i) (tcbn s' i) -> so s' x = set_rx (so s x) h t b -> end_of s x i -> end_of s' x i.
Proof. intros (_ & E2 & E3 & E4) Es. unfold end_of. by rewrite E2, E3, E4, Es. Qed.

Lemma write_step s d x y i j data : paired s d x y i j ->
  let '(s', rc) := sock_write drivers udp_cb pit_ticks x data s in
  (zlen data <= 1460 -> rc = zlen data /\ paired s' d x y i j /\ rxq (so s' y) = ztake (SOCK_RX_BUF - 1) (rxq (so s y) ++ map u8 data)) /\
  (1460 < zlen data -> rc = -1 /\ s' = s).
Proof.
  intros [G Se (Rx & Ry & Ne) Ex Ey]. pose proof Ex as (Ex1 & _ & Ex3 & _).
  pose proof (write_good drivers udp_cb pit_ticks s x data G) as G'. revert G'.
  unfold sock_write. rewrite (proj2 (in_range_spec x) Rx). unfold is_sstate. rewrite Ex1, bool_decide_eq_true_2, Ex3 by done. cbn [negb].
  pose proof (transfer_step (map lift_driver drivers) udp_cb (fun w : swld W => pit_ticks (dev w)) s i j d data Se) as Q.
  destruct (tcp_send _ _ _ _ _ _) as [s' rc]. intros G'. cbn [fst] in G'. destruct Q as (Q1 & Q2). split; [| exact Q2]. intros L.
  destruct (Q1 L) as (-> & Se' & _ & _ & A1 & A2 & Ew). split; [done |].
  pose proof (rx_loop_spec data (so s y) (so_rx _ _ (so_ok s y G Ry))) as (_ & Qr & Es).
  assert (Ey' : so s' y = rx_loop data (so s y)).
  { unfold so at 1. rewrite Ew. destruct (Z.ltb_spec 0 (zlen data)) as [N | N].
    - rewrite (received_so s y j) by done. by apply sk_sset.
    - destruct data as [|b data]; [done | unfold zlen in N; cbn [length] in N; lia]. }
  assert (Ex' : so s' x = so s x).
  { unfold so at 1. rewrite Ew. destruct (0 <? zlen data); [| done]. rewrite (received_so s y j) by done. apply sk_sset_ne; lia. }
  rewrite Ey', Qr. split; [| done]. split; try done; [by apply (end_of_same s) |]. eapply end_of_rx; [exact A2 | rewrite Ey'; exact Es | done].
Qed.

(** A read by the owner of [y], whatever the state of the other end. *)
Lemma read_step s y n : good s -> 0 <= y < SOCK_MAX -> sstate (so s y) = SOCK_CONNECTED ->
  exists s', sock_read y n s = (s', snd (sock_read y n s)) /\ good s' /\ rxq (so s' y) = zdrop n (rxq (so s y)) /\
  (exists h t b, s' = put s y (set_rx (so s y) h t b)) /\
  snd (sock_read y n s) = match rxq (so s y) with
                          | [] => if peer_closed (so s y) =? 0 then PIPE.Yield tt else PIPE.Return (Some [])
                          | q => PIPE.Return (Some (ztake n q)) end.
Proof.
  intros G R E. pose proof (read_good s y n G) as G'. pose proof (so_rx _ _ (so_ok s y G R)) as O. revert G'.
  pose proof (ring_empty SOCK_RX_BUF (rx_buf (so s y)) _ _ O) as Em. fold (rxq (so s y)) in Em.
  assert (Id : s = put s y (set_rx (so s y) (rx_head (so s y)) (rx_tail (so s y)) (rx_buf (so s y)))).
  { assert (Ek : set_rx (so s y) (rx_head (so s y)) (rx_tail (so s y)) (rx_buf (so s y)) = sk (world s) y) by (by destruct (so s y) eqn:Es; unfold so in Es; rewrite Es).
    rewrite Ek. unfold put, sset, sk. rewrite zset_id by (by rewrite (proj1 G)). by destruct s as [? ? ? ? ? ? []]. }
  unfold sock_read. rewrite (proj2 (in_range_spec y) R). unfold readable, is_sstate. rewrite E, bool_decide_eq_true_2 by done.
  cbn [negb orb]. destruct (Z.eqb_spec (rx_head (so s y)) (rx_tail (so s y))) as [Eh | Eh]; cbn [andb].
  - pose proof (proj2 Em Eh) as Q. destruct (peer_closed (so s y) =? 0).
    + intros G'. exists s. rewrite Q. unfold zdrop. rewrite drop_nil. split; [done |]. split; [done |]. split; [done |]. split; [by eexists _, _, _ | done].
    + pose proof (fun k out => rx_drain_spec (Z.to_nat n) (so s y) [] k out O) as D. destruct (rx_drain _ _ _) as [k out].
      destruct (D k out eq_refl) as (_ & -> & Qk & Ek). intros G'. exists (put s y k). rewrite so_put, Qk, Q by done.
      split; [done |]. split; [done |]. split; [done |]. split; [eexists _, _, _; by rewrite Ek at 1 | by rewrite take_nil].
  - pose proof (fun k out => rx_drain_spec (Z.to_nat n) (so s y) [] k out O) as D. destruct (rx_drain _ _ _) as [k out].
    destruct (D k out eq_refl) as (_ & -> & Qk & Ek). intros G'. exists (put s y k). rewrite so_put, Qk by done.
    split; [done |]. split; [done |]. split; [done |]. split; [eexists _, _, _; by rewrite Ek at 1 |].
    destruct (rxq (so s y)) as [|b q] eqn:Q; [by destruct (Eh (proj1 Em eq_refl)) | done].
Qed.

Lemma paired_read s d x y i j h t b : paired s d x y i j -> good (put s y (set_rx (so s y) h t b)) -> paired (put s y (set_rx (so s y) h t b)) d x y i j.
Proof.
  intros [G Se (Rx & Ry & Ne) Ex Ey] G'. split; try done; [by apply session_world | |].
  - apply (end_of_same s); [done | apply so_put_ne; lia | done].
  - eapply end_of_rx; [| by apply so_put | done]. done.
Qed.

Lemma close_step s d x y i j : paired s d x y i j ->
  exists s', sock_close drivers udp_cb pit_ticks x s = (s', 0) /\ between s' d x y i j (rxq (so s y), false).
Proof.
  intros [G Se (Rx & Ry & Ne) Ex Ey]. pose proof (close_good drivers udp_cb pit_ticks s x G) as G'. revert G'.
  destruct Ex as (Ex1 & Ex2 & Ex3 & _). unfold sock_close. rewrite (proj2 (in_range_spec x) Rx). unfold is_sstate.
  rewrite Ex1, Ex2, Ex3, bool_decide_eq_false_2 by done. change (1 <? 1) with false. cbn [negb]. cbv zeta.
  destruct (close_first (map lift_driver drivers) udp_cb (fun w : swld W => pit_ticks (dev w)) s i j d Se) as (Ec & _). rewrite Ec. cbn [fst]. clear Ec.
  set (s1 := pst s i j _ _ _). assert (Ew : world s1 = sset (world s) y (set_peer_closed (so s y) 1)) by (apply closed_so; done).
  assert (G1 : good s1).
  { unfold good. rewrite Ew. apply sset_ok; try done. pose proof (so_ok s y G Ry) as K. apply (sock_ok_upd (so s y)); form K. }
  clearbody s1. rewrite so_put, put_put by done. set (k := q_init _ 0). intros G2. exists (put s1 x k). split; [done |].
  assert (Ey' : so (put s1 x k) y = set_peer_closed (so s y) 1).
  { rewrite so_put_ne by lia. unfold so at 1. rewrite Ew. by apply sk_sset. }
  unfold between. rewrite Ey'. cbn [fst snd]. split; [done |]. split; [exact G2 |]. rewrite so_put by done.
  split; [done |]. split; [done |]. split; [done |]. split; [apply Ey | done].
Qed.

Lemma perform_step s d x y i j st c : between s d x y i j st ->
  let '(s', r) := perform x y c s in let '(st', r') := promised c st in r = r' /\ between s' d x y i j st'.
Proof.
  destruct st as [q op]. intros (Eq & B). cbn [fst snd] in *. destruct c as [data | n |]; cbn [perform promised].
  - destruct op; cbn [andb].
    + pose proof (write_step s d x y i j data B) as Q. destruct (sock_write _ _ _ _ _ _) as [s' rc]. destruct Q as (Q1 & Q2).
      destruct (Z.leb_spec (zlen data) 1460) as [L | L].
      * destruct (Q1 L) as (-> & B' & Er). split; [done |]. split; [cbn [fst]; by rewrite Er, Eq | exact B'].
      * destruct (Q2 L) as (-> & ->). done.
    + destruct B as (G & Rx & Ry & Ex & Ey). unfold sock_write. rewrite (proj2 (in_range_spec x) Rx). unfold is_sstate.
      rewrite Ex, bool_decide_eq_false_2 by done. done.
  - assert (C : good s /\ 0 <= y < SOCK_MAX /\ sstate (so s y) = SOCK_CONNECTED /\ (peer_closed (so s y) =? 0) = op).
    { destruct op; [destruct B as [? ? (? & ? & ?) ? (? & ? & ? & Ep & ?)] | destruct B as (? & ? & ? & ? & ? & Ep)]; by rewrite Ep. }
    destruct C as (G & Ry & Ey & Ep). destruct (read_step s y n G Ry Ey) as (s' & E & G' & Q & (h & t & b & Es) & R).
    rewrite E. rewrite R, Ep, Eq. rewrite Eq in Q.
    assert (B' : between s' d x y i j (zdrop n q, op)).
    { split; [exact Q |]. cbn [snd]. destruct op; [subst s'; by apply paired_read |]. destruct B as (_ & Rx & _ & Ex & _ & Ec).
      subst s'. split; [exact G' |]. rewrite so_put by done. split; [done |]. split; [done |]. split; [| done].
      destruct (decide (x = y)) as [-> | N]; [congruence |]. by rewrite so_put_ne by lia. }
    destruct q as [|b0 q]; [| done]. unfold zdrop in B'. rewrite drop_nil in B'. by destruct op.
  - destruct op.
    + destruct (close_step s d x y i j B) as (s' & -> & B'). rewrite Eq in B'. done.
    + pose proof B as (G & Rx & Ry & Ex & Ey). unfold sock_close. rewrite (proj2 (in_range_spec x) Rx). unfold is_sstate.
      rewrite Ex, bool_decide_eq_true_2 by done. done.
Qed.

(** C25. A byte stream between two sockets.  For any sequence of writes and closes by
    one end and reads by the other, every result the calls return is the one of a
    queue of bytes: reads give the bytes written, in order and once, block when
    there are none and the writer is there, and report the end of the stream once
    it has closed and the queue is drained; a write after the close fails.  The
    queue holds 4095 bytes, and a write says its whole length went through even
    when the end of it was dropped. *)
Theorem sock_stream s d x y i j st l : between s d x y i j st ->
  let '(s', rs) := perform_all x y l s in let '(st', rs') := promised_all l st in rs = rs' /\ between s' d x y i j st'.
Proof.
  revert s st. induction l as [|c l IH]; intros s st B; cbn [perform_all promised_all]; [done |].
  pose proof (perform_step s d x y i j st c B) as Q. destruct (perform x y c s) as [s1 r]. destruct (promised c st) as [st1 r'].
  destruct Q as (-> & B1). specialize (IH s1 st1 B1). destruct (perform_all x y l s1) as [s2 rs]. destruct (promised_all l st1) as [st2 rs'].
  by destruct IH as (-> & B2).
Qed.

(** ** Opening a connection between two sockets of one host *)

(** The socket made for a connection that arrives. *)
Definition accepted (t : Z) : sock := q_init (set_peer_closed (set_stcb (set_refcount (set_sstate sock_zero SOCK_CONNECTED) 1) (Some t)) 0) 0.

Lemma accepted_ok lk t : 0 <= t < TCP_MAX_TCBS -> sock_ok lk (accepted t).
Proof. intros T. apply q_init_ok; form T; exact zero_rx_good. Qed.

Definition first_free w (c : Z) : Prop := zfind (Z.to_nat SOCK_MAX) 0 (fun c => is_sstate (sk w c) SOCK_FREE) = Some c.

Lemma first_free_spec w c : first_free w c -> 0 <= c < SOCK_MAX /\ sstate (sk w c) = SOCK_FREE.
Proof. intros (R & F & _)%zfind_Some. by apply is_sstate_spec in F. Qed.

Lemma on_connect_listen w n t c : 0 <= n < SOCK_MAX -> sstate (sk w n) = SOCK_LISTEN -> q_full (sk w n) = false -> first_free w c ->
  on_connect t (n + 1) w = (sset (sset w c (accepted t)) n (q_push (sk w n) c), c + 1).
Proof.
  intros R E F Fc. destruct (first_free_spec w c Fc) as (Rc & Ec). unfold on_connect. rewrite sock_of_busy by (done || by rewrite E).
  unfold is_sstate. rewrite E, bool_decide_eq_false_2, bool_decide_eq_true_2, F by done. cbn [negb]. unfold first_free, is_sstate in Fc.
  rewrite Fc. cbv zeta. rewrite sk_sset_ne; [done | lia | lia |]. intros ->. congruence.
Qed.

Lemma on_connect_client w x i : 0 <= x < SOCK_MAX -> sstate (sk w x) = SOCK_CONNECTING ->
  on_connect i (x + 1) w = (sset w x (set_stcb (set_sstate (sk w x) SOCK_CONNECTED) (Some i)), x + 1).
Proof.
  intros R E. unfold on_connect. rewrite sock_of_busy by (done || by rewrite E).
  unfold is_sstate. by rewrite E, bool_decide_eq_true_2 by done.
Qed.

(** Socket [n] listens on port [q] through connection [l] and has room in its queue. *)
Definition server s (q : Z) (n l : Z) : Prop :=
  0 <= n < SOCK_MAX /\ sstate (so s n) = SOCK_LISTEN /\ q_full (so s n) = false /\
  TCP.on_connect (tcbn s l) = 1 /\ TCP.on_recv (tcbn s l) = 2 /\ TCP.on_close (tcbn s l) = 3 /\ user_data (tcbn s l) = n + 1.

(** Socket [x] was just made. *)
Definition client s (x : Z) : Prop := 0 <= x < SOCK_MAX /\ sstate (so s x) = SOCK_NEW /\ refcount (so s x) = 1.

Lemma connect_step s d q p g l n x c : good s -> connectable s d q p g l -> server s q n l -> client s x -> first_free (world s) c ->
  exists i j s', sock_connect drivers udp_cb pit_ticks x d q s = (s', PIPE.Return 0) /\ paired s' d x c i j /\
    rxq (so s' x) = [] /\ rxq (so s' c) = [] /\ so s' n = q_push (so s n) c.
Proof.
  intros G C (Rn & En & Fn & A1 & A2 & A3 & A4) (Rx & Ex & Hx) Fc. destruct (first_free_spec _ _ Fc) as (Rc & Ec).
  pose proof (connect_good drivers udp_cb pit_ticks s x d q G) as G'. revert G'. unfold sock_connect.
  rewrite (proj2 (in_range_spec x) Rx). unfold is_sstate. rewrite Ex, bool_decide_eq_true_2 by done. cbn [negb]. cbv zeta.
  set (k := q_init _ 0). set (s1 := put s x k).
  assert (Nxn : x <> n) by (intros ->; congruence). assert (Nxc : x <> c) by (intros ->; unfold so in Ex; congruence).
  assert (Nnc : n <> c) by (intros ->; unfold so in En; congruence).
  assert (C1 : connectable s1 d q p g l) by exact C.
  assert (G1 : good s1).
  { apply put_good; try done. pose proof (so_ok s x G Rx) as K. apply q_init_ok; form K; [| intros _; right; cbn; lia].
    destruct K as [[K1 K2 K3 K4] _ _ _ _ _ _ _ _]. by split. }
  assert (X1 : sk (world s1) x = k) by (by apply so_put).
  assert (N1 : sk (world s1) n = so s n) by (apply (so_put_ne s x n); lia).
  assert (F1 : first_free (world s1) c).
  { unfold first_free. erewrite zfind_ext; [exact Fc |]. intros y Ry. cbv beta. destruct (decide (x = y)) as [<- | Ne].
    - rewrite X1. unfold is_sstate. change (sk (world s) x) with (so s x). by rewrite Ex.
    - f_equal. apply (so_put_ne s x y); lia. }
  destruct (connect_exchange (map lift_driver drivers) udp_cb (fun w : swld W => pit_ticks (dev w)) s1 d q p g l 1 2 3 (x + 1) C1)
    as (i & j & s2 & E & _ & _ & Se & _ & _ & _ & _ & _ & Hw). cbv zeta in Hw.
  change (tcbn s1 l) with (tcbn s l) in Hw. rewrite A1, A4 in Hw. change (1 =? 0) with false in Hw. cbv iota in Hw.
  change (connect_cb 1 j (n + 1) (world s1)) with (on_connect j (n + 1) (world s1)) in Hw.
  rewrite (on_connect_listen (world s1) n j c) in Hw by (done || by rewrite N1). rewrite N1 in Hw.
  set (w1 := sset (sset _ c _) n _) in Hw. change (connect_cb 1 i (x + 1) w1) with (on_connect i (x + 1) w1) in Hw.
  assert (Xw : sk w1 x = k) by (unfold w1; rewrite !sk_sset_ne by lia; exact X1).
  rewrite on_connect_client in Hw by (done || by rewrite Xw). rewrite Xw in Hw.
  destruct Hw as (Ew & (_ & B2 & B3 & B4) & _ & D2 & D3 & D4). rewrite E. clear E.
  assert (Gw : socks_ok [] (g_socks w1)).
  { apply sset_ok; [apply sset_ok; try done | done | by apply q_push_spec; [apply so_ok |]]. apply accepted_ok, Se. }
  assert (Kk : sock_ok (x ∈ []) k) by (rewrite <- X1; by apply (so_ok s1)).
  assert (Sx : so s2 x = set_stcb (set_sstate k SOCK_CONNECTED) (Some i)) by (unfold so; rewrite Ew; by apply sk_sset).
  assert (G2 : good s2).
  { unfold good. rewrite Ew. apply sset_ok; try done. apply (sock_ok_upd k); form Kk. intros ? [= <-]. apply Se. }
  set (s3 := put s2 x _). intros G'. exists i, j, s3.
  assert (Sk : so s3 x = set_stcb (set_sstate k SOCK_CONNECTED) (Some i)) by (unfold s3; rewrite so_put, Sx by done; done).
  assert (St : connect_wait x i 0 s3 = (s3, PIPE.Return 0)).
  { unfold connect_wait, connect_done, is_sstate. rewrite Sk. done. }
  rewrite St in G' |- *. cbn [fst] in G'. split; [done |].
  assert (Sn : so s3 n = q_push (so s n) c).
  { unfold s3. rewrite so_put_ne by lia. unfold so at 1. rewrite Ew, sk_sset_ne by lia. apply sk_sset; [| done].
    apply sset_ok; try done. apply accepted_ok, Se. }
  assert (Sc : so s3 c = accepted j).
  { unfold s3. rewrite so_put_ne by lia. unfold so at 1. rewrite Ew. unfold w1. rewrite !sk_sset_ne by lia. by apply sk_sset. }
  split; [| rewrite Sk, Sc, Sn; done]. split; try done; [by apply session_world | |].
  - unfold end_of. rewrite Sk. split_and!; try done.
  - unfold end_of. rewrite Sc. change (tcbn s3 j) with (tcbn s2 j). rewrite B2, B3, B4. done.
Qed.

Lemma paired_other s d x y i j n k : paired s d x y i j -> good (put s n k) -> 0 <= n -> n <> x -> n <> y -> paired (put s n k) d x y i j.
Proof.
  intros [G Se (Rx & Ry & Ne) Ex Ey] G' R N1 N2. split; try done; [by apply session_world | |];
    (apply (end_of_same s); [done | apply so_put_ne; lia | done]).
Qed.

(** C26. Connecting two sockets.  When a socket listens on the port with room in its
    queue and there is a free socket, [sock_connect] to an address of this host
    returns 0 without blocking, with the new server end at the back of the
    listener's queue; [sock_accept] then returns the connection at the front,
    which is the new one when none waited, and the two sockets are the ends of a
    stream that holds nothing in either direction. *)
Theorem sock_connect_accept s d q p g l n x c :
  good s -> connectable s d q p g l -> server s q n l -> client s x -> first_free (world s) c ->
  exists i j s1 s2 a,
    sock_connect drivers udp_cb pit_ticks x d q s = (s1, PIPE.Return 0) /\ pending (so s1 n) = pending (so s n) ++ [c] /\
    sock_accept n s1 = (s2, PIPE.Return a) /\ a :: pending (so s2 n) = pending (so s n) ++ [c] /\
    between s1 d x c i j ([], true) /\ between s2 d x c i j ([], true) /\ between s2 d c x j i ([], true).
Proof.
  intros G C Sv Cl Fc. pose proof Sv as (Rn & En & Fn & _). destruct (first_free_spec _ _ Fc) as (Rc & Ec).
  destruct (connect_step s d q p g l n x c G C Sv Cl Fc) as (i & j & s1 & E1 & P1 & Qx & Qc & Sn).
  pose proof (q_push_spec (so s n) c (so_ok s n G Rn) Rc) as (K1 & Pn). rewrite Fn in Pn. rewrite <- Sn in K1, Pn.
  pose proof (accept_good s1 n (pr_good _ _ _ _ _ _ P1)) as G2. pose proof (q_pop_spec (so s1 n) K1) as (K2 & Pp).
  assert (Ne : q_empty (so s1 n) = false) by (destruct (q_empty (so s1 n)); [rewrite Pn in Pp; by destruct (pending (so s n)) | done]).
  assert (El : sstate (so s1 n) = SOCK_LISTEN) by (rewrite Sn; unfold q_push; by rewrite Fn).
  assert (Ea : sock_accept n s1 = (put s1 n (fst (q_pop (so s1 n))), PIPE.Return (snd (q_pop (so s1 n))))).
  { unfold sock_accept. rewrite (proj2 (in_range_spec n) Rn). unfold is_sstate. rewrite El, bool_decide_eq_true_2, Ne by done.
    cbn [negb]. by destruct (q_pop (so s1 n)). }
  rewrite Ea in G2. cbn [fst] in G2. pose proof P1 as [G1 Se1 (Rx & _ & Nxc) (Ex & _) (Ey & _)].
  assert (N1 : n <> x) by (intros ->; congruence). assert (N2 : n <> c) by (intros ->; congruence).
  pose proof (paired_other _ _ _ _ _ _ n _ P1 G2 ltac:(lia) N1 N2) as P2.
  exists i, j, s1, (put s1 n (fst (q_pop (so s1 n)))), (snd (q_pop (so s1 n))).
  split; [exact E1 |]. split; [exact Pn |]. split; [exact Ea |]. rewrite so_put by done. rewrite Ne, Pn in Pp.
  split; [by rewrite Pp |]. split; [by split |]. unfold between. cbn [fst snd]. rewrite !so_put_ne by lia.
  split; [by split |]. split; [done |]. destruct P2 as [? ? (? & ? & ?) ? ?]. split; try done. by apply session_sym.
Qed.

End Stream.

(** ** A listening socket and a client on one host *)

Definition demo_udp (c : Z) (a : list Z) (p : Z) (data : list Z) (n : net tcps (swld unit)) := n.

Definition demo_ticks (w : unit) : Z := 77.

Definition demo_host : net tcps (swld unit) :=
  Net (Config [] [0; 0; 0; 0] [] [] false None) [] 0 [] (Ping 0 0 0) tcp_init (Swld sock_init tt).

(** Socket 0 listens on port 80; socket 1 is new. *)
Definition demo_server : net tcps (swld unit) :=
  let s := fst (sock_create (fst (sock_create demo_host))) in fst (sock_listen 0 4 (fst (sock_bind 0 80 s))).

Lemma demo_good : good demo_server.
Proof.
  apply listen_good, bind_good, create_good, create_good. apply sock_init_ok.
Qed.

(** The same host on a network where nobody answers. *)
Definition mute : driver unit := Driver (fun w => (w, None)) (fun _ w => (w, 0)).

Definition demo_wired : net tcps (swld unit) :=
  Net (Config [2; 0; 0; 0; 0; 15] [10; 0; 2; 15] [10; 0; 2; 2] [255; 255; 255; 0] true (Some 0%nat)) (g_cache demo_host) 0 []
    (Ping 0 0 0) tcp_init (Swld sock_init tt).

(** A task blocks in [sock_connect]; another holder of the socket closes it, which
    frees the slot; the task goes on. *)
Definition demo_waits : net tcps (swld unit) * PIPE.outcome Z (Z * Z) :=
  sock_connect [mute] demo_udp demo_ticks 0 [255; 255; 255; 255] 80 (fst (sock_create demo_wired)).

Definition demo_closed : net tcps (swld unit) := fst (sock_close [mute] demo_udp demo_ticks 0 (fst demo_waits)).

Definition demo_stray : net tcps (swld unit) := fst (connect_resume 0 0 0 demo_closed).

Lemma demo_run : run [mute] demo_udp demo_ticks demo_wired [] demo_closed.
Proof.
  eapply run_step; [| apply (st_close _ _ _ _ 0)]. eapply run_step; [| apply (st_connect _ _ _ _ 0 [255; 255; 255; 255] 80)].
  eapply run_step; [apply run_start | apply st_create].
Qed.

Lemma demo_run_stray : run [mute] demo_udp demo_ticks demo_wired [0] demo_stray.
Proof.
  assert (F : is_sstate (so demo_closed 0) SOCK_FREE = true) by (vm_compute; reflexivity).
  pose proof (run_resume _ _ _ _ _ _ 0 0 0 demo_run (conj (Z.le_refl 0) eq_refl)) as Q. rewrite F in Q. exact Q.
Qed.

(** The task that goes on puts the freed slot in use with no reference to it. *)
Lemma closed_while_connecting :
  snd (connect_resume 0 0 0 demo_closed) = PIPE.Return (-1) /\ sstate (so demo_stray 0) = SOCK_NEW /\ refcount (so demo_stray 0) = 0.
Proof. split_and!; vm_compute; reflexivity. Qed.

Lemma socks_reachable_witness :
  sstate (so (fst demo_waits) 0) = SOCK_CONNECTING /\ in_form [] demo_closed /\ in_form [0] demo_stray.
Proof.
  split; [vm_compute; reflexivity |].
  split; [exact (socks_reachable [mute] demo_udp demo_ticks demo_wired [] demo_closed eq_refl demo_run) |].
  exact (socks_reachable [mute] demo_udp demo_ticks demo_wired [0] demo_stray eq_refl demo_run_stray).
Defined.

Definition demo_eph : tcps := fst (alloc_ephemeral_port (tcp demo_server)).

Lemma demo_connectable : connectable demo_server demo_lo 80 49152 demo_eph 0.
Proof.
  split; [vm_compute; reflexivity |]. split; [vm_compute; split; [discriminate | reflexivity] |].
  split; [split; [split; [reflexivity | repeat constructor; discriminate || reflexivity] | left; reflexivity] |].
  split; [vm_compute; reflexivity |]. split; [discriminate |].
  split; [split; [split; [discriminate | reflexivity] |]; split_and!; [vm_compute; reflexivity.. | intros k K; lia] |].
  split; [split; [discriminate | reflexivity] |]. split; [vm_compute; discriminate |].
  apply (all_slots (fun x => matches (tcbn demo_server x) 80 49152 demo_lo)). vm_compute. reflexivity.
Qed.

Lemma demo_ends : server demo_server 80 0 0 /\ client demo_server 1 /\ first_free (world demo_server) 2.
Proof.
  split; [split; [split; [discriminate | reflexivity] |]; split_and!; vm_compute; reflexivity |].
  split; [split; [split; [discriminate | reflexivity] |]; split; vm_compute; reflexivity | vm_compute; reflexivity].
Qed.

Lemma sock_connect_accept_witness :
  exists i j s1 s2,
    sock_connect [] demo_udp demo_ticks 1 demo_lo 80 demo_server = (s1, PIPE.Return 0) /\
    sock_accept 0 s1 = (s2, PIPE.Return 2) /\ between s2 demo_lo 1 2 i j ([], true).
Proof.
  destruct demo_ends as (Sv & Cl & Fc).
  destruct (sock_connect_accept [] demo_udp demo_ticks demo_server demo_lo 80 49152 demo_eph 0 0 1 2 demo_good demo_connectable Sv Cl Fc)
    as (i & j & s1 & s2 & a & E1 & _ & E2 & P & _ & B & _).
  assert (Pe : pending (so demo_server 0) = []) by (vm_compute; reflexivity). rewrite Pe in P. injection P as -> _.
  exists i, j, s1, s2. split; [exact E1 |]. split; [exact E2 | exact B].
Defined.

(** A write, a read of part of it, a write, the close, and reads to the end. *)
Definition demo_calls : list call :=
  [Read 8; Write [72; 105; 33]; Read 2; Write [10]; Close; Write [0]; Read 8; Read 8].

Lemma sock_stream_witness :
  exists i j s0 s1,
    between s0 demo_lo 1 2 i j ([], true) /\
    perform_all [] demo_udp demo_ticks 1 2 demo_calls s0 =
    (s1, [Blocks; Rc 3; Got (Some [72; 105]); Rc 1; Rc 0; Rc (-1); Got (Some [33; 10]); Got (Some [])]).
Proof.
  destruct demo_ends as (Sv & Cl & Fc).
  destruct (connect_step [] demo_udp demo_ticks demo_server demo_lo 80 49152 demo_eph 0 0 1 2 demo_good demo_connectable Sv Cl Fc)
    as (i & j & s0 & _ & P & _ & Q & _).
  assert (B : between s0 demo_lo 1 2 i j ([], true)) by (split; [exact Q | exact P]).
  pose proof (sock_stream [] demo_udp demo_ticks s0 demo_lo 1 2 i j ([], true) demo_calls B) as H.
  assert (E : promised_all demo_calls ([], true) =
    (([], false), [Blocks; Rc 3; Got (Some [72; 105]); Rc 1; Rc 0; Rc (-1); Got (Some [33; 10]); Got (Some [])])) by (vm_compute; reflexivity).
  rewrite E in H. destruct (perform_all _ _ _ _ _ _ s0) as [s1 rs] eqn:R. destruct H as (-> & _). exists i, j, s0, s1.
  split; [exact B | exact R].
Defined.

(** Bytes that do not fit are lost although the write reports them sent: with 4095
    bytes queued nothing of a further write arrives. *)
Example full_ring_drops data : zlen data <= 1460 ->
  promised (Write data) (zrep 4095 0, true) = ((zrep 4095 0, true), Rc (zlen data)).
Proof.
  intros L. cbn [promised andb]. rewrite (proj2 (Z.leb_le _ _) L). reflexivity.
Qed.

End SOCK.
