(* ===== verification/Paging.v ===== *)
(** Page tables ([kernel/paging.c]) over [Pmm].

    Physical memory is a map from addresses to 32-bit words, which is how the code
    reads and writes tables; [pd[i]] is the word at [pd + 4 i].  Frames come from and
    go back to the page allocator of [Pmm].  CR3, the paging bit of CR0 and the
    addresses given to [invlpg] are fields of the state. *)

From stdpp Require Import base numbers list gmap.
From Stdlib Require Import ZArith Lia.
From S2P Require Import Prelude Bitmap Pmm.

Module PAGING.
Import PMM.

Definition PAGE_SIZE : Z := 4096.
Definition PTE_PRESENT : Z := 1.
Definition PTE_WRITABLE : Z := 2.
Definition PTE_USER : Z := 4.
Definition PAGE_MASK : Z := 4294963200.

Definition PD_INDEX (a : Z) : Z := Z.land (Z.shiftr a 22) 1023.

Definition PT_INDEX (a : Z) : Z := Z.land (Z.shiftr a 12) 1023.

(** The fields of [struct vbe_state] the pager reads. *)
Record vbe_state := Vbe { enabled : bool; fb_phys : Z; fb_size : Z }.

Record vm := Vm {
  mem : gmap Z Z; frames : pmm; g_pd : Z; g_paging_on : bool; cr3 : Z; flushed : list Z; vbe : vbe_state }.

Implicit Types s : vm.

Definition set_mem s (m : gmap Z Z) : vm := Vm m (frames s) (g_pd s) (g_paging_on s) (cr3 s) (flushed s) (vbe s).

Definition set_frames s (f : pmm) : vm := Vm (mem s) f (g_pd s) (g_paging_on s) (cr3 s) (flushed s) (vbe s).

Definition set_g_pd s (p : Z) : vm := Vm (mem s) (frames s) p (g_paging_on s) (cr3 s) (flushed s) (vbe s).

(** [load_cr3] and [write_cr0]. *)
Definition set_paging_on s : vm := Vm (mem s) (frames s) (g_pd s) true (g_pd s) (flushed s) (vbe s).

Definition invlpg s (a : Z) : vm := Vm (mem s) (frames s) (g_pd s) (g_paging_on s) (cr3 s) (flushed s ++ [a]) (vbe s).

(** [p[i]] *)
Definition word (m : gmap Z Z) (p i : Z) : Z := default 0 (m !! (p + 4 * i)).

Definition store (m : gmap Z Z) (p i v : Z) : gmap Z Z := <[p + 4 * i := v]> m.

(** [memset(p, 0, PAGE_SIZE)] *)
Definition zero_page (p : Z) (m : gmap Z Z) : gmap Z Z := zfor 1024 0 (fun i m => store m p i 0) m.

(** [memcpy(d, p, PAGE_SIZE)] *)
Definition copy_page (d p : Z) (m : gmap Z Z) : gmap Z Z := zfor 1024 0 (fun i m => store m d i (word m p i)) m.

Definition present (e : Z) : bool := negb (Z.land e PTE_PRESENT =? 0).

Definition frame_of (e : Z) : Z := Z.land e PAGE_MASK.

(** A zeroed frame, 0 when there is none. *)
Definition alloc_frame s : vm * Z := let '(f, p) := pmm_alloc_page (frames s) in (set_frames s f, p).

Definition free_frame (p : Z) s : vm := set_frames s (pmm_free_page p (frames s)).

Definition do_map_pd (pd virt phys flags : Z) s : vm * Z :=
  let pd_i := PD_INDEX virt in
  let pt_i := PT_INDEX virt in
  let install s :=
    let pt := frame_of (word (mem s) pd pd_i) in
    (set_mem s (store (mem s) pt pt_i (Z.lor (Z.lor (frame_of phys) (Z.land flags 4095)) PTE_PRESENT)), 0) in
  if negb (present (word (mem s) pd pd_i)) then
    let '(s, pt) := alloc_frame s in
    if pt =? 0 then (s, -1) else
    let m := zero_page pt (mem s) in
    install (set_mem s (store m pd pd_i (Z.lor (Z.lor (Z.lor (frame_of pt) PTE_PRESENT) PTE_WRITABLE) (Z.land flags PTE_USER))))
  else if negb (Z.land flags PTE_USER =? 0) then
    install (set_mem s (store (mem s) pd pd_i (Z.lor (word (mem s) pd pd_i) PTE_USER)))
  else install s.

Definition do_map (virt phys flags : Z) s : vm * Z := do_map_pd (g_pd s) virt phys flags s.

(** The mapping loop of [paging_init]: [n] pages from [a]; false when memory ran out. *)
Fixpoint map_loop (n : nat) (a : Z) s : vm * bool :=
  match n with
  | O => (s, true)
  | S n' => let '(s, r) := do_map a a PTE_WRITABLE s in if negb (r =? 0) then (s, false) else map_loop n' (a + PAGE_SIZE) s
  end.

(** The end of the identity map. *)
Definition identity_end s : Z :=
  let total_pages := pmm_total_pages (frames s) in
  let total_pages := if Z.shiftr 1073741824 PMM_PAGE_SHIFT <? total_pages then Z.shiftr 1073741824 PMM_PAGE_SHIFT else total_pages in
  Z.land (u32 (u32 (Z.shiftl total_pages PMM_PAGE_SHIFT) + 4194303)) (u32 (Z.lnot 4194303)).

Definition paging_init s : vm :=
  let '(s, pd) := alloc_frame s in
  let s := set_g_pd s pd in
  if pd =? 0 then s else
  let s := set_mem s (zero_page pd (mem s)) in
  let '(s, ok) := map_loop (Z.to_nat ((identity_end s - 1) / PAGE_SIZE)) PAGE_SIZE s in
  if ok then set_paging_on s else s.

Definition paging_map (virt phys flags : Z) s : vm * Z :=
  let '(s, r) := do_map virt phys flags s in
  (if (r =? 0) && g_paging_on s then invlpg s virt else s, r).

Definition paging_unmap (virt : Z) s : vm * Z :=
  let pde := word (mem s) (g_pd s) (PD_INDEX virt) in
  if negb (present pde) then (s, -1) else
  let s := set_mem s (store (mem s) (frame_of pde) (PT_INDEX virt) 0) in
  (if g_paging_on s then invlpg s virt else s, 0).

Definition paging_user_va_to_pa (pd virt : Z) s : Z :=
  if pd =? 0 then 0 else
  let pde := word (mem s) pd (PD_INDEX virt) in
  if negb (present pde) then 0 else
  let pte := word (mem s) (frame_of pde) (PT_INDEX virt) in
  if negb (present pte) then 0 else Z.lor (frame_of pte) (Z.land virt 4095).

Definition paging_translate (virt : Z) s : Z :=
  let pde := word (mem s) (g_pd s) (PD_INDEX virt) in
  if negb (present pde) then 0 else
  let pte := word (mem s) (frame_of pde) (PT_INDEX virt) in
  if negb (present pte) then 0 else Z.lor (frame_of pte) (Z.land virt 4095).

Definition paging_is_enabled s : bool := g_paging_on s.

Definition paging_pd_addr s : Z := g_pd s.

Definition paging_create_user_pd s : vm * Z :=
  let '(s, pd) := alloc_frame s in
  if pd =? 0 then (s, 0) else
  let m := zero_page pd (mem s) in
  let m := zfor 8 0 (fun i m => store m pd i (word m (g_pd s) i)) m in
  let m := zfor 768 256 (fun i m => if present (word m (g_pd s) i) then store m pd i (word m (g_pd s) i) else m) m in
  (set_mem s m, pd).

Definition paging_map_in (pd virt phys flags : Z) s : vm * Z :=
  let '(s, r) := do_map_pd pd virt phys flags s in
  (if (r =? 0) && g_paging_on s && (pd =? g_pd s) then invlpg s virt else s, r).

(** The framebuffer as a range of frames; both bounds are 0 without one. *)
Definition fb_lo s : Z := if enabled (vbe s) then frame_of (fb_phys (vbe s)) else 0.

Definition fb_hi s : Z := if enabled (vbe s) then frame_of (u32 (fb_phys (vbe s) + fb_size (vbe s) + 4095)) else 0.

Definition in_fb s (phys : Z) : bool := negb (fb_lo s =? 0) && (fb_lo s <=? phys) && (phys <? fb_hi s).

(** The inner loop of [paging_destroy_user_pd]. *)
Definition destroy_pt (pt : Z) s : vm :=
  zfor 1024 0 (fun j s =>
    let pte := word (mem s) pt j in
    if present pte then if in_fb s (frame_of pte) then s else free_frame (frame_of pte) s else s) s.

Definition destroy_pde (pd i : Z) s : vm :=
  let pde := word (mem s) pd i in
  if negb (present pde) then s else
  if (256 <=? i) && (pde =? word (mem s) (g_pd s) i) then set_mem s (store (mem s) pd i 0) else
  let s := free_frame (frame_of pde) (destroy_pt (frame_of pde) s) in
  set_mem s (store (mem s) pd i 0).

Definition paging_destroy_user_pd (pd : Z) s : vm :=
  if pd =? 0 then s else free_frame pd (zfor 1016 8 (destroy_pde pd) s).

(** The inner loop of [paging_clone_user_pd]: [n] entries from [j]; the count of data
    pages, [None] when memory ran out. *)
Fixpoint clone_pt (n : nat) (j parent_pt child_pt count : Z) s : vm * option Z :=
  match n with
  | O => (s, Some count)
  | S n' =>
      let pte := word (mem s) parent_pt j in
      if negb (present pte) then clone_pt n' (j + 1) parent_pt child_pt count s else
      if in_fb s (frame_of pte) then clone_pt n' (j + 1) parent_pt child_pt count s else
      let '(s, dst) := alloc_frame s in
      if dst =? 0 then (s, None) else
      let m := copy_page dst (frame_of pte) (mem s) in
      let m := store m child_pt j (Z.lor (frame_of dst) (Z.land pte 4095)) in
      clone_pt n' (j + 1) parent_pt child_pt (u32 (count + 1)) (set_mem s m)
  end.

(** The outer loop: [n] entries from [i]; [None] when the clone was given up. *)
Fixpoint clone_pd (n : nat) (i parent child count : Z) s : vm * option Z :=
  match n with
  | O => (s, Some count)
  | S n' =>
      let pde := word (mem s) parent i in
      if negb (present pde) then clone_pd n' (i + 1) parent child count s else
      let '(s, child_pt) := alloc_frame s in
      if child_pt =? 0 then (paging_destroy_user_pd child s, None) else
      let s := set_mem s (zero_page child_pt (mem s)) in
      let '(s, r) := clone_pt 1024 0 (frame_of pde) child_pt count s in
      let s := set_mem s (store (mem s) child i (Z.lor (frame_of child_pt) (Z.land pde 4095))) in
      match r with
      | None => (paging_destroy_user_pd child s, None)
      | Some count => clone_pd n' (i + 1) parent child count s
      end
  end.

(** The clone and the number of data pages. *)
Definition paging_clone_user_pd (parent : Z) s : vm * Z * Z :=
  if parent =? 0 then (s, 0, 0) else
  let '(s, child) := alloc_frame s in
  if child =? 0 then (s, 0, 0) else
  let m := zero_page child (mem s) in
  let s := set_mem s (zfor 8 0 (fun i m => store m child i (word m parent i)) m) in
  let '(s, r) := clone_pd 1016 8 parent child 0 s in
  match r with
  | Some count => (s, child, count)
  | None => (s, 0, 0)
  end.

Definition paging_pd_used s : Z := countb (fun i => present (word (mem s) (g_pd s) i)) 1024.

(** ** Entries *)

Definition aligned (p : Z) : Prop := p mod 4096 = 0.

Lemma frame_of_div x : 0 <= x < 4294967296 -> frame_of x = x / 4096 * 4096.
Proof. intros R. exact (land_align 12 x ltac:(lia) R). Qed.

Lemma land_4095 x : Z.land x 4095 = x mod 4096.
Proof. change 4095 with (Z.ones 12). by rewrite Z.land_ones by lia. Qed.

Lemma frame_of_range x : 0 <= frame_of x < 4294967296.
Proof. unfold frame_of. rewrite Z.land_comm. by apply (land_bound 32). Qed.

Lemma frame_of_aligned x : aligned (frame_of x).
Proof.
  unfold aligned. rewrite <- land_4095. unfold frame_of. rewrite <- Z.land_assoc. change (Z.land PAGE_MASK 4095) with 0. apply Z.land_0_r.
Qed.

Lemma frame_of_id p : aligned p -> 0 <= p < 4294967296 -> frame_of p = p.
Proof. unfold aligned. intros A R. rewrite frame_of_div by done. Z.div_mod_to_equations. lia. Qed.

Lemma frame_of_low l : 0 <= l < 4096 -> frame_of l = 0.
Proof. intros R. rewrite frame_of_div by lia. rewrite Z.div_small by done. done. Qed.

Lemma frame_of_lor x l : 0 <= l < 4096 -> frame_of (Z.lor x l) = frame_of x.
Proof. intros R. unfold frame_of. rewrite Z.land_lor_distr_l. fold (frame_of l). rewrite frame_of_low by done. apply Z.lor_0_r. Qed.

Lemma land1_aligned p : aligned p -> Z.land p 1 = 0.
Proof. intros A. change 1 with (Z.ones 1). rewrite Z.land_ones by lia. unfold aligned in A. change (2 ^ 1) with 2. Z.div_mod_to_equations. lia. Qed.

Lemma present_lor p l : aligned p -> present (Z.lor p l) = present l.
Proof. intros A. unfold present, PTE_PRESENT. by rewrite Z.land_lor_distr_l, land1_aligned, Z.lor_0_l. Qed.

Lemma present_lor_user x : present (Z.lor x PTE_USER) = present x.
Proof. unfold present. rewrite Z.land_lor_distr_l. change (Z.land PTE_USER PTE_PRESENT) with 0. by rewrite Z.lor_0_r. Qed.

Lemma present_lor_1 x : present (Z.lor x PTE_PRESENT) = true.
Proof.
  unfold present. rewrite Z.land_lor_distr_l. change (Z.land PTE_PRESENT PTE_PRESENT) with 1. apply negb_true_iff, Z.eqb_neq. intros E.
  apply Z.lor_eq_0_iff in E as (_ & E). done.
Qed.

Lemma low_lor p l : aligned p -> 0 <= l < 4096 -> Z.land (Z.lor p l) 4095 = l.
Proof. intros A R. rewrite Z.land_lor_distr_l, !land_4095, A, Z.lor_0_l. by apply Z.mod_small. Qed.

Lemma lor_low p l : aligned p -> 0 <= l < 4096 -> Z.lor p l = p + l.
Proof.
  intros A R. rewrite <- Z.add_lor_land. replace (Z.land p l) with 0; [lia |].
  rewrite <- (Z.mod_small l 4096 R), <- land_4095, (Z.land_comm l), Z.land_assoc, land_4095, A. done.
Qed.

Lemma present_low x : present (Z.land x 4095) = present x.
Proof. unfold present. by rewrite <- Z.land_assoc. Qed.

Lemma land_4095_range x : 0 <= Z.land x 4095 < 4096.
Proof. rewrite land_4095. by apply Z.mod_pos_bound. Qed.

Lemma PD_INDEX_div a : 0 <= a < 4294967296 -> PD_INDEX a = a / 4194304.
Proof.
  intros R. unfold PD_INDEX. change 1023 with (Z.ones 10). rewrite Z.land_ones, Z.shiftr_div_pow2 by lia. change (2 ^ 22) with 4194304.
  change (2 ^ 10) with 1024. apply Z.mod_small. Z.div_mod_to_equations. lia.
Qed.

Lemma PT_INDEX_div a : PT_INDEX a = (a / 4096) mod 1024.
Proof. unfold PT_INDEX. change 1023 with (Z.ones 10). by rewrite Z.land_ones, Z.shiftr_div_pow2 by lia. Qed.

Lemma PD_INDEX_range a : 0 <= PD_INDEX a < 1024.
Proof. unfold PD_INDEX. rewrite Z.land_comm. by apply (land_bound 10). Qed.

Lemma PT_INDEX_range a : 0 <= PT_INDEX a < 1024.
Proof. unfold PT_INDEX. rewrite Z.land_comm. by apply (land_bound 10). Qed.

(** The two indices name the page. *)
Lemma same_indices v w : 0 <= v < 4294967296 -> 0 <= w < 4294967296 ->
  (PD_INDEX v = PD_INDEX w /\ PT_INDEX v = PT_INDEX w) <-> v / 4096 = w / 4096.
Proof.
  intros Rv Rw. rewrite !PD_INDEX_div, !PT_INDEX_div by done.
  assert (E : forall x, x / 4194304 = x / 4096 / 1024) by (intros x; by rewrite Z.div_div by lia). rewrite !E.
  split; [intros (E1 & E2) | by intros ->].
  rewrite (Z.div_mod (v / 4096) 1024), (Z.div_mod (w / 4096) 1024), E1, E2 by lia. done.
Qed.

(** ** Words *)

Lemma word_store m p i v q j : aligned p -> aligned q -> 0 <= i < 1024 -> 0 <= j < 1024 ->
  word (store m p i v) q j = if (p =? q) && (i =? j) then v else word m q j.
Proof.
  unfold aligned, word, store. intros Ap Aq Ri Rj. destruct ((p =? q) && (i =? j)) eqn:E.
  - apply andb_true_iff in E as (E1 & E2). zb. subst. by rewrite lookup_insert_eq.
  - rewrite lookup_insert_ne; [done |]. apply andb_false_iff in E. rewrite !Z.eqb_neq in E. Z.div_mod_to_equations. lia.
Qed.

(** Words written to page [d] one after the other, from what is not on that page. *)
Lemma fill_words (c : gmap Z Z -> Z -> bool) (g : gmap Z Z -> Z -> Z) d n a m :
  aligned d -> 0 <= a -> a + Z.of_nat n <= 1024 ->
  (forall m' i, (forall q j, aligned q -> 0 <= j < 1024 -> q <> d -> word m' q j = word m q j) -> 0 <= i < 1024 -> c m' i = c m i /\ g m' i = g m i) ->
  let m' := zfor n a (fun i m => if c m i then store m d i (g m i) else m) m in
  forall q j, aligned q -> 0 <= j < 1024 ->
    word m' q j = if (d =? q) && ((a <=? j) && (j <? a + Z.of_nat n)) && c m j then g m j else word m q j.
Proof.
  intros Ad Ra Rn Inv. cbv zeta.
  apply (zfor_ind (fun k m' => forall q j, aligned q -> 0 <= j < 1024 ->
    word m' q j = if (d =? q) && ((a <=? j) && (j <? k)) && c m j then g m j else word m q j)).
  - intros q j Aq Rj. destruct (Z.leb_spec a j), (Z.ltb_spec j a); try lia; by rewrite ?andb_false_r.
  - intros k m' Rk IH q j Aq Rj.
    destruct (Inv m' k) as (Ec & Eg); [| lia |].
    { intros q' j' Aq' Rj' Ne. rewrite IH by done. by rewrite (proj2 (Z.eqb_neq d q')). }
    rewrite Ec, Eg. destruct (c m k) eqn:Ck.
    + rewrite word_store, IH by (done || lia). destruct (Z.eqb_spec d q) as [-> | N]; [| done]. cbn [andb].
      destruct (Z.eqb_spec k j) as [-> | N].
      * rewrite (proj2 (Z.leb_le a j)), (proj2 (Z.ltb_lt j (j + 1))), Ck by lia. done.
      * destruct (Z.ltb_spec j k), (Z.ltb_spec j (k + 1)); try done; lia.
    + rewrite IH by done. destruct (Z.eqb_spec k j) as [-> | N]; [by rewrite Ck, !andb_false_r |].
      destruct (Z.ltb_spec j k), (Z.ltb_spec j (k + 1)); try done; lia.
Qed.

Lemma word_zero p m q j : aligned p -> aligned q -> 0 <= j < 1024 -> word (zero_page p m) q j = if p =? q then 0 else word m q j.
Proof.
  intros Ap Aq Rj. unfold zero_page.
  rewrite (fill_words (fun _ _ => true) (fun _ _ => 0) p 1024 0 m) by done.
  rewrite (proj2 (Z.leb_le 0 j)), (proj2 (Z.ltb_lt j (0 + Z.of_nat 1024))) by lia. by rewrite !andb_true_r.
Qed.

Lemma word_copy d p m q j : aligned d -> aligned p -> d <> p -> aligned q -> 0 <= j < 1024 ->
  word (copy_page d p m) q j = if d =? q then word m p j else word m q j.
Proof.
  intros Ad Ap Ne Aq Rj. unfold copy_page.
  rewrite (fill_words (fun _ _ => true) (fun m i => word m p i) d 1024 0 m); try done.
  - rewrite (proj2 (Z.leb_le 0 j)), (proj2 (Z.ltb_lt j (0 + Z.of_nat 1024))) by lia. by rewrite !andb_true_r.
  - intros m' i E Ri. split; [done |]. by apply E.
Qed.

(** ** Frames *)

Definition total s : Z := g_total_pages (frames s).

(** The frame at [p] is in use. *)
Definition used s (p : Z) : bool := page_used (frames s) (p / 4096).

(** Frames the allocator can still give. *)
Definition nfree (f : pmm) : Z := countb (fun p => (0 <? p) && allocatable f p) (Z.to_nat (g_total_pages f)).

(** An address the allocator can return. *)
Definition in_ram s (p : Z) : Prop := aligned p /\ 4096 <= p < total s * 4096.

Lemma in_ram_range s p : pmm_ok (frames s) -> in_ram s p -> 0 <= p < 4294967296.
Proof. intros O (_ & R). pose proof (ok_total _ O). unfold total, PMM_MAX_PAGES in *. lia. Qed.

Lemma alloc_frame_spec s : pmm_ok (frames s) -> let '(s', p) := alloc_frame s in
  s' = set_frames s (frames s') /\ pmm_ok (frames s') /\ total s' = total s /\
  if p =? 0 then frames s' = frames s /\ nfree (frames s) = 0
  else in_ram s p /\ used s p = false /\ nfree (frames s') = nfree (frames s) - 1 /\
    forall q, aligned q -> 0 <= q -> used s' q = (q =? p) || used s q.
Proof.
  intros O. pose proof (alloc_page_step _ O) as St. unfold alloc_frame. rewrite alloc_page_first_fit in St |- * by done.
  pose proof (ok_total _ O) as Rt. unfold PMM_MAX_PAGES in Rt.
  destruct (zfind _ 1 (allocatable (frames s))) as [p|] eqn:F.
  - apply zfind_Some in F as (R & A & _). cbn [fst snd] in St. destruct St as (O' & T & St). unfold PMM_PAGE_SIZE.
    set (f := add_used 1 (bit_set (frames s) p)) in *. assert (Rp : 1 <= p < g_total_pages (frames s)) by lia.
    rewrite (proj2 (Z.eqb_neq (p * 4096) 0)) by lia. cbn [frames set_frames]. split; [done |]. split; [done |]. split; [done |].
    assert (U : forall q, 0 <= q -> page_used f q = (q =? p) || page_used (frames s) q).
    { intros q Rq. destruct (St q Rq) as (S1 & _ & S3). unfold op_takes, PMM_PAGE_SIZE in S1, S3. destruct (Z.eqb_spec q p) as [-> | N].
      - apply S1. lia.
      - apply S3; [lia | tauto]. }
    unfold used, in_ram, total, aligned. rewrite Z.div_mul by done. split_and!.
    + by rewrite Z.mod_mul.
    + lia.
    + lia.
    + by apply negb_true_iff.
    + unfold nfree. rewrite T. apply (countb_clear _ _ _ p).
      * lia.
      * rewrite (proj2 (Z.ltb_lt 0 p)) by lia. done.
      * unfold allocatable. by rewrite U, Z.eqb_refl, andb_false_r by lia.
      * intros k Rk N. unfold allocatable. rewrite U by lia. by rewrite (proj2 (Z.eqb_neq k p)).
    + intros q Aq Rq. rewrite U by (apply Z.div_pos; lia). f_equal. destruct (Z.eqb_spec q (p * 4096)), (Z.eqb_spec (q / 4096) p); try done; Z.div_mod_to_equations; lia.
  - rewrite Z.eqb_refl. cbn [frames set_frames]. split; [by destruct s |]. split; [done |]. split; [done |]. split; [done |].
    rewrite zfind_None in F. unfold nfree. rewrite (countb_ext _ (fun _ => false)).
    + destruct (countb_bounds (fun _ : Z => false) (Z.to_nat (g_total_pages (frames s)))) as (B & _).
      assert (C : forall n, countb (fun _ : Z => false) n = 0) by (induction n as [|n IH]; [done | cbn [countb]; by rewrite IH]). apply C.
    + intros k Rk. destruct (Z.ltb_spec 0 k); [| done]. apply F. lia.
Qed.

(** The address of a table after a range of addresses was freed in order. *)
Definition free_all (l : list Z) s : vm := foldl (fun s p => free_frame p s) s l.

Lemma free_all_app l1 l2 s : free_all (l1 ++ l2) s = free_all l2 (free_all l1 s).
Proof. apply foldl_app. Qed.

Lemma free_frame_set_mem p s m : free_frame p (set_mem s m) = set_mem (free_frame p s) m.
Proof. done. Qed.

Lemma mem_free_frame p s : mem (free_frame p s) = mem s.
Proof. done. Qed.

Lemma free_all_one p s : free_all [p] s = free_frame p s.
Proof. done. Qed.

Lemma free_all_set_mem l m s : free_all l (set_mem s m) = set_mem (free_all l s) m.
Proof. revert s. induction l as [|p l IH]; intros s; [done |]. exact (IH (free_frame p s)). Qed.

Lemma free_all_frames l s : free_all l s = set_frames s (frames (free_all l s)).
Proof.
  revert s. induction l as [|p l IH]; intros s; [by destruct s |]. change (free_all (p :: l) s) with (free_all l (free_frame p s)). rewrite IH. done.
Qed.

Lemma free_all_keeps l s : mem (free_all l s) = mem s /\ g_pd (free_all l s) = g_pd s /\ vbe (free_all l s) = vbe s.
Proof. rewrite free_all_frames. done. Qed.

Lemma free_all_used l s : pmm_ok (frames s) -> Forall (fun p => aligned p /\ 0 <= p < 4294967296) l ->
  pmm_ok (frames (free_all l s)) /\ total (free_all l s) = total s /\
  forall q, 0 <= q -> page_used (frames (free_all l s)) q =
    if bool_decide (q * 4096 ∈ l) && (q <? total s) then false else page_used (frames s) q.
Proof.
  revert s. induction l as [|p l IH]; intros s O A.
  { split; [done |]. split; [done |]. intros q Rq. by rewrite bool_decide_eq_false_2 by set_solver. }
  inversion A as [| ? ? (Ap & Rp) A']; subst. destruct (free_page_spec (frames s) p O Rp) as (O1 & T1 & U1).
  destruct (IH (free_frame p s) O1 A') as (O2 & T2 & U2). change (free_all (p :: l) s) with (free_all l (free_frame p s)).
  change (total (free_frame p s)) with (g_total_pages (pmm_free_page p (frames s))) in *. rewrite T1 in T2, U2.
  split; [done |]. split; [done |]. intros q Rq. rewrite U2 by done. change (g_total_pages (frames s)) with (total s) in *.
  destruct (U1 q Rq) as (Y & N). unfold PMM_PAGE_SIZE in Y, N. destruct (Z.ltb_spec q (total s)) as [L | L].
  - rewrite !andb_true_r. destruct (decide (q * 4096 ∈ l)) as [I | I].
    + rewrite !bool_decide_eq_true_2; set_solver.
    + rewrite (bool_decide_eq_false_2 (q * 4096 ∈ l)) by done. destruct (decide (p = q * 4096)) as [-> | Ne].
      * rewrite bool_decide_eq_true_2 by set_solver. by apply Y.
      * rewrite bool_decide_eq_false_2 by set_solver. apply N. lia.
  - rewrite !andb_false_r. apply N. lia.
Qed.

(** ** Address spaces *)

(** What the tables at [pd] say of address [v]. *)
Definition entry s (pd v : Z) : option Z :=
  let pde := word (mem s) pd (PD_INDEX v) in
  if present pde then let pte := word (mem s) (frame_of pde) (PT_INDEX v) in if present pte then Some pte else None else None.

(** A frame that holds a table. *)
Definition table s (p : Z) : Prop := in_ram s p /\ used s p = true.

(** A page directory whose tables are frames of their own. *)
Record tree s (pd : Z) : Prop := {
  tr_ok : pmm_ok (frames s);
  tr_pd : table s pd;
  tr_pt : forall i, 0 <= i < 1024 -> present (word (mem s) pd i) = true ->
    table s (frame_of (word (mem s) pd i)) /\ frame_of (word (mem s) pd i) <> pd;
  tr_inj : forall i j, 0 <= i < 1024 -> 0 <= j < 1024 -> present (word (mem s) pd i) = true -> present (word (mem s) pd j) = true ->
    frame_of (word (mem s) pd i) = frame_of (word (mem s) pd j) -> i = j }.

Lemma va_to_pa_entry pd v s : pd <> 0 -> paging_user_va_to_pa pd v s =
  match entry s pd v with Some e => Z.lor (frame_of e) (Z.land v 4095) | None => 0 end.
Proof.
  intros N. unfold paging_user_va_to_pa, entry. rewrite (proj2 (Z.eqb_neq pd 0)) by done.
  destruct (present (word (mem s) pd _)); [cbn [negb] | done]. by destruct (present _).
Qed.

Lemma translate_entry v s : paging_translate v s =
  match entry s (g_pd s) v with Some e => Z.lor (frame_of e) (Z.land v 4095) | None => 0 end.
Proof.
  unfold paging_translate, entry. destruct (present (word (mem s) (g_pd s) _)); [cbn [negb] | done]. by destruct (present _).
Qed.

(** Writing an entry of the table an address goes through. *)
Lemma install_step s pd virt v : tree s pd -> 0 <= virt < 4294967296 -> present (word (mem s) pd (PD_INDEX virt)) = true ->
  let pt := frame_of (word (mem s) pd (PD_INDEX virt)) in
  let s' := set_mem s (store (mem s) pt (PT_INDEX virt) v) in
  tree s' pd /\
  (forall w, 0 <= w < 4294967296 -> entry s' pd w =
     if w / 4096 =? virt / 4096 then if present v then Some v else None else entry s pd w) /\
  (forall i, 0 <= i < 1024 -> word (mem s') pd i = word (mem s) pd i) /\
  (forall q j, aligned q -> 0 <= j < 1024 -> q <> pt -> word (mem s') q j = word (mem s) q j).
Proof.
  intros T Rv P pt s'. pose proof (PD_INDEX_range virt) as Ri. pose proof (PT_INDEX_range virt) as Rj.
  destruct (tr_pt s pd T _ Ri P) as (((Apt & Rpt) & Upt) & Npt). fold pt in Apt, Rpt, Upt, Npt.
  assert (Wq : forall q j, aligned q -> 0 <= j < 1024 -> word (mem s') q j = if (pt =? q) && (PT_INDEX virt =? j) then v else word (mem s) q j).
  { intros q j Aq Rq. unfold s'. cbn [mem set_mem]. by apply word_store. }
  assert (Apd : aligned pd) by apply T.
  assert (Wpd : forall i, 0 <= i < 1024 -> word (mem s') pd i = word (mem s) pd i).
  { intros i Ri'. rewrite Wq by done. by rewrite (proj2 (Z.eqb_neq pt pd)). }
  split; [| split; [| split; [done |]]].
  - split; [apply T | apply T | |].
    + intros i Ri'. rewrite Wpd by done. by apply T.
    + intros i j Ri' Rj'. rewrite !Wpd by done. by apply T.
  - intros w Rw. unfold entry. rewrite Wpd by apply PD_INDEX_range. pose proof (same_indices w virt Rw Rv) as Si.
    destruct (present (word (mem s) pd (PD_INDEX w))) eqn:Pw.
    + rewrite Wq by (apply frame_of_aligned || apply PT_INDEX_range). destruct (Z.eqb_spec (w / 4096) (virt / 4096)) as [E | E].
      * apply Si in E as (E1 & E2). rewrite E1, E2. fold pt. by rewrite !Z.eqb_refl.
      * replace ((pt =? frame_of (word (mem s) pd (PD_INDEX w))) && (PT_INDEX virt =? PT_INDEX w)) with false; [done |].
        symmetry. apply andb_false_iff. rewrite !Z.eqb_neq. destruct (decide (PT_INDEX virt = PT_INDEX w)) as [E2 | E2]; [| by right].
        left. intros E1. apply E, Si. split; [| done]. symmetry. apply (tr_inj s pd T); try done; apply PD_INDEX_range.
    + destruct (Z.eqb_spec (w / 4096) (virt / 4096)) as [E | E]; [| done]. apply Si in E as (E1 & E2). congruence.
  - intros q j Aq Rj' N. rewrite Wq by done. by rewrite (proj2 (Z.eqb_neq pt q)) by done.
Qed.

(** Giving an address a table of its own, empty. *)
Lemma grow_step s pd i pt low s1 : tree s pd -> 0 <= i < 1024 -> present (word (mem s) pd i) = false ->
  alloc_frame s = (s1, pt) -> pt <> 0 -> 0 <= low < 4096 -> present low = true ->
  let s' := set_mem s1 (store (zero_page pt (mem s1)) pd i (Z.lor pt low)) in
  tree s' pd /\ (forall w, entry s' pd w = entry s pd w) /\ frame_of (word (mem s') pd i) = pt /\
  (forall k, 0 <= k < 1024 -> present (word (mem s') pd k) = (k =? i) || present (word (mem s) pd k)) /\
  nfree (frames s') = nfree (frames s) - 1 /\ used s pt = false /\
  (forall q j, table s q -> 0 <= j < 1024 -> q <> pd -> word (mem s') q j = word (mem s) q j).
Proof.
  intros T Ri Np A Npt Rl Pl s'. pose proof (alloc_frame_spec s (tr_ok _ _ T)) as Sp. rewrite A in Sp.
  destruct Sp as (E1 & O1 & T1 & Sp). rewrite (proj2 (Z.eqb_neq pt 0)) in Sp by done. destruct Sp as ((Apt & Rpt) & Upt & Nf & Us).
  assert (Em : mem s1 = mem s) by (by rewrite E1). pose proof (tr_pd _ _ T) as ((Apd & Rpd) & Upd).
  assert (Npd : pt <> pd) by congruence. pose proof (ok_total _ O1) as Rt. unfold total in *. unfold PMM_MAX_PAGES in Rt.
  assert (Rg : 0 <= pt < 4294967296) by lia.
  assert (Wq : forall q j, aligned q -> 0 <= j < 1024 -> word (mem s') q j =
    if (pd =? q) && (i =? j) then Z.lor pt low else if pt =? q then 0 else word (mem s) q j).
  { intros q j Aq Rq. unfold s'. cbn [mem set_mem]. rewrite word_store, word_zero, Em by done. done. }
  assert (Wpd : forall k, 0 <= k < 1024 -> word (mem s') pd k = if i =? k then Z.lor pt low else word (mem s) pd k).
  { intros k Rk. rewrite Wq, Z.eqb_refl, (proj2 (Z.eqb_neq pt pd)) by done. done. }
  assert (Tb : forall q, table s q -> table s' q).
  { intros q ((Aq & Rq) & Uq). split; [split; [done | unfold total in *; cbn [s' frames set_mem]; lia] |].
    change (used s' q) with (used s1 q). rewrite Us, Uq by (done || lia). by rewrite orb_true_r. }
  assert (Fp : frame_of (Z.lor pt low) = pt) by (by rewrite frame_of_lor, frame_of_id).
  assert (Tq : forall q, table s q -> q <> pt) by (intros q (_ & Uq) ->; congruence).
  assert (Tpt : table s' pt).
  { split; [split; [done | unfold total in *; cbn [s' frames set_mem]; lia] |]. change (used s' pt) with (used s1 pt). rewrite Us, Z.eqb_refl by (done || lia). done. }
  split_and!.
  - split; [done | by apply Tb, T | |].
    + intros k Rk. rewrite Wpd by done. destruct (Z.eqb_spec i k) as [<- | N].
      * intros _. by rewrite Fp.
      * intros P. destruct (tr_pt s pd T k Rk P). split; [by apply Tb | done].
    + intros k l Rk Rl'. rewrite !Wpd by done. destruct (Z.eqb_spec i k) as [<- | N1], (Z.eqb_spec i l) as [<- | N2]; try done.
      * intros _ P. rewrite Fp. intros E. destruct (tr_pt s pd T l Rl' P) as (Tl & _). by destruct (Tq _ Tl).
      * intros P _. rewrite Fp. intros E. destruct (tr_pt s pd T k Rk P) as (Tk & _). by destruct (Tq _ Tk).
      * by apply T.
  - intros w. unfold entry. rewrite Wpd by apply PD_INDEX_range. destruct (Z.eqb_spec i (PD_INDEX w)) as [<- | N].
    + rewrite present_lor, Pl, Fp, Np by done. rewrite Wq by (done || apply PT_INDEX_range).
      rewrite (proj2 (Z.eqb_neq pd pt)), Z.eqb_refl by congruence. done.
    + destruct (present (word (mem s) pd (PD_INDEX w))) eqn:P; [| done].
      destruct (tr_pt s pd T _ (PD_INDEX_range w) P) as (Tw & Nw). rewrite Wq by (apply frame_of_aligned || apply PT_INDEX_range).
      rewrite (proj2 (Z.eqb_neq pd _)), (proj2 (Z.eqb_neq pt _)); [done | | congruence]. intros E. by destruct (Tq _ Tw).
  - by rewrite Wpd, Z.eqb_refl.
  - intros k Rk. rewrite Wpd by done. rewrite (Z.eqb_sym k i). destruct (i =? k); [by rewrite present_lor, Pl | done].
  - exact Nf.
  - done.
  - intros q j Tq' Rj N. pose proof (Tq q Tq'). rewrite Wq by (done || apply Tq'). by rewrite (proj2 (Z.eqb_neq pd q)), (proj2 (Z.eqb_neq pt q)) by congruence.
Qed.

(** Opening a table to user code. *)
Lemma user_step s pd i : tree s pd -> 0 <= i < 1024 ->
  let s' := set_mem s (store (mem s) pd i (Z.lor (word (mem s) pd i) PTE_USER)) in
  tree s' pd /\ (forall w, entry s' pd w = entry s pd w) /\ frame_of (word (mem s') pd i) = frame_of (word (mem s) pd i) /\
  (forall k, 0 <= k < 1024 -> present (word (mem s') pd k) = present (word (mem s) pd k)) /\
  (forall q j, aligned q -> 0 <= j < 1024 -> q <> pd -> word (mem s') q j = word (mem s) q j).
Proof.
  intros T Ri s'. pose proof (tr_pd _ _ T) as ((Apd & Rpd) & Upd).
  assert (Wq : forall q j, aligned q -> 0 <= j < 1024 -> word (mem s') q j =
    if (pd =? q) && (i =? j) then Z.lor (word (mem s) pd i) PTE_USER else word (mem s) q j).
  { intros q j Aq Rq. unfold s'. cbn [mem set_mem]. by apply word_store. }
  assert (Wk : forall k, 0 <= k < 1024 -> present (word (mem s') pd k) = present (word (mem s) pd k) /\
    frame_of (word (mem s') pd k) = frame_of (word (mem s) pd k)).
  { intros k Rk. rewrite Wq, Z.eqb_refl by done. destruct (Z.eqb_spec i k) as [<- | N]; [| done].
    cbn [andb]. by rewrite present_lor_user, frame_of_lor. }
  assert (Wn : forall q j, aligned q -> 0 <= j < 1024 -> q <> pd -> word (mem s') q j = word (mem s) q j).
  { intros q j Aq Rj N. rewrite Wq by done. by rewrite (proj2 (Z.eqb_neq pd q)) by done. }
  split_and!; try done.
  - split; [apply T | apply T | |].
    + intros k Rk. destruct (Wk k Rk) as (-> & ->). by apply T.
    + intros k l Rk Rl. destruct (Wk k Rk) as (-> & ->), (Wk l Rl) as (-> & ->). by apply T.
  - intros w. unfold entry. destruct (Wk _ (PD_INDEX_range w)) as (E1 & E2). rewrite E1, E2.
    destruct (present (word (mem s) pd (PD_INDEX w))) eqn:P; [| done]. destruct (tr_pt s pd T _ (PD_INDEX_range w) P) as (Tw & Nw).
    by rewrite Wn by (apply Tw || apply PT_INDEX_range || done).
  - by apply Wk.
  - intros k Rk. by apply Wk.
Qed.

Definition new_pte (phys flags : Z) : Z := Z.lor (Z.lor (frame_of phys) (Z.land flags 4095)) PTE_PRESENT.

Lemma new_pte_frame phys flags : frame_of (new_pte phys flags) = frame_of phys.
Proof.
  unfold new_pte. rewrite frame_of_lor by done. rewrite frame_of_lor by apply land_4095_range.
  apply frame_of_id; [apply frame_of_aligned | apply frame_of_range].
Qed.

(** What a mapping does to a state: nothing but adding a page to [pd], at the price of
    a frame when the address had no table. *)
Record mapped s (pd virt phys flags : Z) s' : Prop := {
  mp_tree : tree s' pd;
  mp_state : s' = set_mem (set_frames s (frames s')) (mem s');
  mp_total : total s' = total s;
  mp_entry : forall w, 0 <= w < 4294967296 ->
    entry s' pd w = if w / 4096 =? virt / 4096 then Some (new_pte phys flags) else entry s pd w;
  mp_tables : forall k, 0 <= k < 1024 -> present (word (mem s') pd k) = (k =? PD_INDEX virt) || present (word (mem s) pd k);
  mp_free : nfree (frames s') = nfree (frames s) - (if present (word (mem s) pd (PD_INDEX virt)) then 0 else 1);
  mp_used : forall q, table s q -> table s' q;
  mp_words : forall q j, table s q -> 0 <= j < 1024 -> q <> pd ->
    (present (word (mem s) pd (PD_INDEX virt)) = true -> q <> frame_of (word (mem s) pd (PD_INDEX virt))) ->
    word (mem s') q j = word (mem s) q j }.

Lemma map_step s pd virt phys flags : tree s pd -> 0 <= virt < 4294967296 ->
  let '(s', r) := do_map_pd pd virt phys flags s in
  (r = 0 /\ mapped s pd virt phys flags s') \/
  (r = -1 /\ s' = s /\ present (word (mem s) pd (PD_INDEX virt)) = false /\ nfree (frames s) = 0).
Proof.
  intros T Rv. pose proof (PD_INDEX_range virt) as Ri. unfold do_map_pd. fold (new_pte phys flags).
  pose proof (present_lor_1 (Z.lor (frame_of phys) (Z.land flags 4095))) as Pn. fold (new_pte phys flags) in Pn.
  destruct (present (word (mem s) pd (PD_INDEX virt))) eqn:P; cbn [negb].
  - assert (Old : forall s1, tree s1 pd -> (forall w, entry s1 pd w = entry s pd w) ->
      frame_of (word (mem s1) pd (PD_INDEX virt)) = frame_of (word (mem s) pd (PD_INDEX virt)) ->
      (forall k, 0 <= k < 1024 -> present (word (mem s1) pd k) = present (word (mem s) pd k)) ->
      (forall q j, aligned q -> 0 <= j < 1024 -> q <> pd -> word (mem s1) q j = word (mem s) q j) -> s1 = set_mem s (mem s1) ->
      mapped s pd virt phys flags (set_mem s1 (store (mem s1) (frame_of (word (mem s1) pd (PD_INDEX virt))) (PT_INDEX virt) (new_pte phys flags)))).
    { intros s1 T1 E1 F1 P1 W1 S1. destruct (install_step s1 pd virt (new_pte phys flags) T1 Rv) as (T2 & E2 & K2 & W2); [by rewrite P1 |].
      assert (Ef : frames s1 = frames s) by (by rewrite S1). split.
      - done.
      - rewrite S1 at 1. cbn [mem frames set_mem set_frames]. rewrite Ef. by destruct s.
      - unfold total. cbn [frames set_mem]. by rewrite Ef.
      - intros w Rw. rewrite E2, Pn, E1 by done. done.
      - intros k Rk. rewrite K2, P1 by done. destruct (Z.eqb_spec k (PD_INDEX virt)) as [-> |]; [by rewrite P | done].
      - cbn [frames set_mem]. rewrite Ef, P. lia.
      - intros q ((Aq & Rq) & Uq). split; [split; [done |] |]; unfold total, used in *; cbn [frames set_mem]; by rewrite Ef.
      - intros q j Tq Rj N1 N2. rewrite W2; [by apply W1, N1; [apply Tq |] | apply Tq | done | rewrite F1; by apply N2]. }
    destruct (negb (Z.land flags PTE_USER =? 0)).
    + left. split; [done |]. destruct (user_step s pd _ T Ri) as (T1 & E1 & F1 & P1 & W1). by apply Old.
    + left. split; [done |]. apply Old; try done. by destruct s.
  - destruct (alloc_frame s) as [s1 pt] eqn:A. pose proof (alloc_frame_spec s (tr_ok _ _ T)) as Sp. rewrite A in Sp.
    destruct Sp as (S1 & O1 & T1 & Sp). destruct (Z.eqb_spec pt 0) as [-> | Npt].
    { right. destruct Sp as (Ef & Nf). split; [done |]. split; [| done]. rewrite S1, Ef. by destruct s. }
    left. split; [done |]. destruct Sp as ((Apt & Rpt) & _).
    assert (Rg : 0 <= pt < 4294967296). { pose proof (ok_total _ (tr_ok _ _ T)). unfold total, PMM_MAX_PAGES in *. lia. }
    rewrite (frame_of_id pt), <- !Z.lor_assoc by done. set (low := Z.lor PTE_PRESENT (Z.lor PTE_WRITABLE (Z.land flags PTE_USER))).
    assert (Rl : 0 <= low < 4096).
    { apply (lor_bound 12); [done | done |]. apply (lor_bound 12); [done | done |]. rewrite Z.land_comm. by apply (land_bound 12). }
    assert (Pl : present low = true) by (unfold low; rewrite Z.lor_comm; apply present_lor_1).
    destruct (grow_step s pd _ pt low s1 T Ri P A Npt Rl Pl) as (T2 & E2 & F2 & P2 & N2 & Up & W2).
    set (s2 := set_mem s1 (store (zero_page pt (mem s1)) pd (PD_INDEX virt) (Z.lor pt low))) in *.
    destruct (install_step s2 pd virt (new_pte phys flags) T2 Rv) as (T3 & E3 & K3 & W3); [by rewrite P2, Z.eqb_refl |].
    rewrite F2 in T3, E3, K3, W3 |- *. set (s3 := set_mem s2 _) in *.
    assert (Tb : forall q, table s q -> table s3 q /\ q <> pt).
    { intros q ((Aq & Rq) & Uq). split; [| congruence]. pose proof (alloc_frame_spec s (tr_ok _ _ T)) as Sp. rewrite A in Sp.
      destruct Sp as (_ & _ & Tt & Sp). rewrite (proj2 (Z.eqb_neq pt 0)) in Sp by done. destruct Sp as (_ & _ & _ & Us).
      split; [split; [done | change (total s3) with (total s1); lia] |]. change (used s3 q) with (used s1 q).
      rewrite Us, Uq; [apply orb_true_r | exact Aq | lia]. }
    split.
    + done.
    + change (frames s3) with (frames s1). unfold s3 at 1, s2 at 1. rewrite S1 at 1. done.
    + exact T1.
    + intros w Rw. rewrite E3, Pn, E2 by done. done.
    + intros k Rk. rewrite K3 by done. by apply P2.
    + rewrite P. exact N2.
    + intros q Tq. by apply Tb.
    + intros q j Tq Rj Nq _. destruct (Tb q Tq) as (_ & Np). rewrite W3; [exact (W2 q j Tq Rj Nq) | apply Tq | exact Rj | exact Np].
Qed.

Lemma alone_entry s s' other : tree s other -> pmm_ok (frames s') -> (forall q, table s q -> table s' q) ->
  (forall j, 0 <= j < 1024 -> word (mem s') other j = word (mem s) other j) ->
  (forall k j, 0 <= k < 1024 -> 0 <= j < 1024 -> present (word (mem s) other k) = true ->
    word (mem s') (frame_of (word (mem s) other k)) j = word (mem s) (frame_of (word (mem s) other k)) j) ->
  tree s' other /\ forall w, entry s' other w = entry s other w.
Proof.
  intros T O Tb W1 W2. split; [split |].
  - done.
  - apply Tb, T.
  - intros i Ri. rewrite W1 by done. intros P. destruct (tr_pt s other T i Ri P). split; [by apply Tb | done].
  - intros i j Ri Rj. rewrite !W1 by done. by apply T.
  - intros w. unfold entry. rewrite W1 by apply PD_INDEX_range.
    destruct (present (word (mem s) other (PD_INDEX w))) eqn:P; [| done]. rewrite W2; [done | apply PD_INDEX_range | apply PT_INDEX_range | done].
Qed.

(** The directory [pd] and its table for [virt] are none of [other]'s. *)
Definition apart s (pd virt other : Z) : Prop :=
  let pt := frame_of (word (mem s) pd (PD_INDEX virt)) in
  let shared q := q = pd \/ (present (word (mem s) pd (PD_INDEX virt)) = true /\ q = pt) in
  ~ shared other /\ forall k, 0 <= k < 1024 -> present (word (mem s) other k) = true -> ~ shared (frame_of (word (mem s) other k)).

(** C27. Mapping and unmapping.  [paging_map_in] makes exactly one page translate to the
    frame it is given, in that directory and in no other whose tables are its own,
    takes at most one frame, and flushes the address when the directory is the
    kernel's and paging is on; out of memory it changes nothing.  [paging_unmap]
    makes exactly one page of the kernel's directory untranslatable, with a flush
    and without taking or giving back a frame. *)
Theorem paging_update s pd virt phys flags : tree s pd -> 0 <= virt < 4294967296 ->
  (let '(s', r) := paging_map_in pd virt phys flags s in
   (r = 0 /\ tree s' pd /\
    (forall w, 0 <= w < 4294967296 -> paging_user_va_to_pa pd w s' =
       if w / 4096 =? virt / 4096 then Z.lor (frame_of phys) (Z.land w 4095) else paging_user_va_to_pa pd w s) /\
    (forall other, tree s other -> apart s pd virt other ->
       tree s' other /\ forall w, paging_user_va_to_pa other w s' = paging_user_va_to_pa other w s) /\
    nfree (frames s) - 1 <= nfree (frames s') <= nfree (frames s) /\
    flushed s' = flushed s ++ (if g_paging_on s && (pd =? g_pd s) then [virt] else [])) \/
   (r = -1 /\ s' = s /\ nfree (frames s) = 0)) /\
  (pd = g_pd s -> let '(s', r) := paging_unmap virt s in
   (r = 0 /\ tree s' pd /\ frames s' = frames s /\
    (forall w, 0 <= w < 4294967296 -> paging_translate w s' = if w / 4096 =? virt / 4096 then 0 else paging_translate w s) /\
    flushed s' = flushed s ++ (if g_paging_on s then [virt] else [])) \/
   (r = -1 /\ s' = s /\ forall w, 0 <= w < 4294967296 -> w / 4194304 = virt / 4194304 -> paging_translate w s = 0)).
Proof.
  intros T Rv. assert (Npd : pd <> 0) by (destruct (tr_pd _ _ T) as ((_ & R) & _); lia). split.
  - unfold paging_map_in. pose proof (map_step s pd virt phys flags T Rv) as M. destruct (do_map_pd pd virt phys flags s) as [s1 r].
    destruct M as [(-> & M) | (-> & -> & _ & Nf)]; [| right; done]. left. destruct M as [T1 S1 Tt E1 _ Nf Us Ws].
    set (s2 := if (0 =? 0) && g_paging_on s1 && (pd =? g_pd s1) then invlpg s1 virt else s1). assert (Em : mem s2 = mem s1) by (unfold s2; by cases).
    assert (Ef : frames s2 = frames s1) by (unfold s2; by cases).
    assert (Ee : forall p w, entry s2 p w = entry s1 p w) by (intros; unfold entry; by rewrite Em).
    assert (Tr : forall p, tree s1 p -> tree s2 p).
    { intros p [O D X Y]. split; unfold table, in_ram, total, used in *; rewrite ?Ef, ?Em; done. }
    split; [done |]. split; [by apply Tr |]. split; [| split; [| split]].
    + intros w Rw. rewrite !va_to_pa_entry, Ee, E1 by done. destruct (w / 4096 =? virt / 4096); [by rewrite new_pte_frame | done].
    + intros other To (Na & A). assert (Nt : other <> 0) by (destruct (tr_pd _ _ To) as ((_ & R) & _); lia).
      destruct (alone_entry s s1 other To (tr_ok _ _ T1) Us) as (T2 & E2).
      * intros j Rj. apply Ws; [apply To | done | tauto | tauto].
      * intros k j Rk Rj P. specialize (A k Rk P). apply Ws; [by apply To | done | tauto | tauto].
      * split; [by apply Tr |]. intros w. by rewrite !va_to_pa_entry, Ee, E2 by done.
    + rewrite Ef, Nf. destruct (present _); lia.
    + unfold s2. change (0 =? 0) with true. cbn [andb]. rewrite S1. cbn [g_paging_on g_pd set_mem set_frames].
      destruct (g_paging_on s && (pd =? g_pd s)); cbn [flushed invlpg set_mem set_frames]; by rewrite ?app_nil_r.
  - intros ->. unfold paging_unmap. destruct (present (word (mem s) (g_pd s) (PD_INDEX virt))) eqn:P; cbn [negb].
    + left. destruct (install_step s (g_pd s) virt 0 T Rv P) as (T1 & E1 & _ & _).
      set (s1 := set_mem s _) in *. change (present 0) with false in E1. cbv iota in E1. set (s2 := if g_paging_on s1 then invlpg s1 virt else s1).
      assert (Em : mem s2 = mem s1) by (unfold s2; by cases). assert (Ef : frames s2 = frames s1) by (unfold s2; by cases).
      assert (Eg : g_pd s2 = g_pd s) by (unfold s2; by cases).
      split; [done |]. split; [| split; [done | split]].
      * destruct T1 as [O D X Y]. split; unfold table, in_ram, total, used in *; rewrite ?Ef, ?Em; done.
      * intros w Rw. rewrite !translate_entry, Eg. replace (entry s2 (g_pd s) w) with (entry s1 (g_pd s) w) by (unfold entry; by rewrite Em).
        rewrite E1 by done. by destruct (w / 4096 =? virt / 4096).
      * unfold s2. change (g_paging_on s1) with (g_paging_on s). destruct (g_paging_on s); cbn; by rewrite ?app_nil_r.
    + right. split; [done |]. split; [done |]. intros w Rw E. unfold paging_translate. rewrite PD_INDEX_div in * by done. by rewrite E, P.
Qed.

(** ** The identity map *)

(** The page tables needed for the pages from 1 up to address [a]. *)
Definition tables_to (a : Z) : Z := if a <=? 4096 then 0 else (a - 1) / 4194304 + 1.

(** Pages 1 up to address [a] are mapped to themselves, and nothing else. *)
Record identity s (a : Z) : Prop := {
  id_tree : tree s (g_pd s);
  id_entry : forall w, 0 <= w < 4294967296 ->
    entry s (g_pd s) w = if (4096 <=? w) && (w <? a) then Some (new_pte (w / 4096 * 4096) PTE_WRITABLE) else None;
  id_tables : forall k, 0 <= k < 1024 -> present (word (mem s) (g_pd s) k) = (k <? tables_to a) }.

Lemma tables_to_step a : aligned a -> 4096 <= a < 4294967296 ->
  tables_to (a + 4096) = if a / 4194304 <? tables_to a then tables_to a else tables_to a + 1.
Proof.
  intros A R. unfold tables_to, aligned in *. destruct (Z.leb_spec a 4096), (Z.leb_spec (a + 4096) 4096); try lia.
  - replace a with 4096 by lia. done.
  - destruct (Z.ltb_spec (a / 4194304) ((a - 1) / 4194304 + 1)); Z.div_mod_to_equations; lia.
Qed.

Lemma tables_to_top a : aligned a -> 4096 <= a -> tables_to a <= a / 4194304 + 1 /\ (tables_to a <= a / 4194304 -> tables_to a = a / 4194304).
Proof. intros A R. unfold tables_to, aligned in *. destruct (Z.leb_spec a 4096); Z.div_mod_to_equations; lia. Qed.

Lemma map_loop_spec n : forall a s, identity s a -> aligned a -> 4096 <= a -> a + 4096 * Z.of_nat n <= 4294967296 ->
  let '(s', ok) := map_loop n a s in let e := a + 4096 * Z.of_nat n in
  s' = set_mem (set_frames s (frames s')) (mem s') /\ total s' = total s /\
  if ok then identity s' e /\ tables_to e - tables_to a <= nfree (frames s) else nfree (frames s) < tables_to e - tables_to a.
Proof.
  induction n as [|n IH]; intros a s I A Ra Re.
  - cbn [map_loop]. replace (a + 4096 * Z.of_nat 0) with a by lia. split; [by destruct s |]. split; [done |]. split; [done |].
    pose proof (countb_bounds (fun p => (0 <? p) && allocatable (frames s) p) (Z.to_nat (g_total_pages (frames s)))). unfold nfree. lia.
  - cbn [map_loop]. rewrite Nat2Z.inj_succ in *. replace (a + 4096 * Z.succ (Z.of_nat n)) with (a + 4096 + 4096 * Z.of_nat n) in * by lia.
    assert (Rv : 0 <= a < 4294967296) by lia. pose proof (map_step s (g_pd s) a a PTE_WRITABLE (id_tree _ _ I) Rv) as M.
    pose proof (PD_INDEX_range a) as Ri. pose proof (id_tables _ _ I _ Ri) as P. rewrite PD_INDEX_div in P, Ri by done.
    pose proof (tables_to_step a A ltac:(lia)) as St. destruct (tables_to_top a A Ra) as (Top & Top2). unfold do_map.
    assert (Mono : tables_to (a + 4096) <= tables_to (a + 4096 + 4096 * Z.of_nat n)).
    { unfold tables_to. destruct (Z.leb_spec (a + 4096) 4096), (Z.leb_spec (a + 4096 + 4096 * Z.of_nat n) 4096); try lia. Z.div_mod_to_equations; lia. }
    destruct (do_map_pd (g_pd s) a a PTE_WRITABLE s) as [s1 r]. destruct M as [(-> & M) | (-> & -> & Pn & Nf)].
    + change (negb (0 =? 0)) with false. cbv iota. destruct M as [T1 S1 Tt E1 K1 Nf Us Ws].
      rewrite PD_INDEX_div in Nf by done. rewrite P in Nf.
      assert (Eg : g_pd s1 = g_pd s) by (by rewrite S1).
      assert (I1 : identity s1 (a + PAGE_SIZE)).
      { unfold PAGE_SIZE. split; rewrite ?Eg; [done | |].
        - intros w Rw. rewrite E1, (id_entry _ _ I) by done. unfold aligned in A. destruct (Z.eqb_spec (w / 4096) (a / 4096)) as [E | E].
          + rewrite (proj2 (Z.leb_le 4096 w)), (proj2 (Z.ltb_lt w (a + 4096))) by (Z.div_mod_to_equations; lia). cbn [andb]. do 2 f_equal.
            Z.div_mod_to_equations. lia.
          + destruct (Z.leb_spec 4096 w), (Z.ltb_spec w a), (Z.ltb_spec w (a + 4096)); try done; exfalso; Z.div_mod_to_equations; lia.
        - intros k Rk. rewrite K1, (id_tables _ _ I), PD_INDEX_div by done. rewrite St.
          destruct (Z.ltb_spec (a / 4194304) (tables_to a)), (Z.eqb_spec k (a / 4194304)), (Z.ltb_spec k (tables_to a)), (Z.ltb_spec k (tables_to a + 1)); (done || lia). }
      specialize (IH (a + PAGE_SIZE) s1 I1). unfold PAGE_SIZE in IH.
      assert (A1 : aligned (a + 4096)) by (unfold aligned in *; Z.div_mod_to_equations; lia).
      specialize (IH A1 ltac:(lia) ltac:(lia)). unfold PAGE_SIZE. destruct (map_loop n (a + 4096) s1) as [s2 ok]. cbv zeta in IH |- *.
      destruct IH as (S2 & T2 & IH). split; [rewrite S2 at 1; rewrite S1 at 1; done |]. split; [by rewrite T2 |].
      rewrite Nf, St in *. destruct (a / 4194304 <? tables_to a), ok; first [split; [apply IH | lia] | lia].
    + change (negb (-1 =? 0)) with true. cbv iota zeta. split; [by destruct s |]. split; [done |].
      rewrite PD_INDEX_div, P in Pn by done. rewrite Pn in St. lia.
Qed.

Lemma identity_end_spec s : pmm_ok (frames s) ->
  identity_end s = (total s * 4096 + 4194303) / 4194304 * 4194304 /\ 0 <= identity_end s <= 1073741824.
Proof.
  intros O. pose proof (ok_total _ O) as R. unfold PMM_MAX_PAGES in R. unfold identity_end, pmm_total_pages.
  change (Z.shiftr 1073741824 PMM_PAGE_SHIFT) with 262144. rewrite (proj2 (Z.ltb_ge 262144 _)) by lia. cbv zeta. fold (total s) in *.
  rewrite Z.shiftl_mul_pow2 by (unfold PMM_PAGE_SHIFT; lia). change (2 ^ PMM_PAGE_SHIFT) with 4096. rewrite !u32_small by (rewrite ?u32_small; lia).
  pose proof (land_align 22 (total s * 4096 + 4194303) ltac:(lia) ltac:(lia)) as E. change (u32 (Z.lnot (2 ^ 22 - 1))) with (u32 (Z.lnot 4194303)) in E.
  change (2 ^ 22) with 4194304 in E. rewrite E. Z.div_mod_to_equations. lia.
Qed.

(** Paging is turned on.  When the allocator has one frame for the directory and
    one for every 4 MiB of RAM, [paging_init] enables paging on a directory in which
    every address from page 1 to the end of RAM, rounded up to 4 MiB, translates to
    itself and no other address translates at all, page 0 included; with fewer
    frames it leaves paging as it was. *)
Theorem paging_init_identity s : pmm_ok (frames s) -> 0 < total s ->
  let s' := paging_init s in let e := identity_end s in
  total s * 4096 <= e < total s * 4096 + 4194304 /\
  if 1 + e / 4194304 <=? nfree (frames s) then
    g_paging_on s' = true /\ cr3 s' = g_pd s' /\ tree s' (g_pd s') /\
    forall v, 0 <= v < 4294967296 -> paging_translate v s' = if (4096 <=? v) && (v <? e) then v else 0
  else g_paging_on s' = g_paging_on s /\ cr3 s' = cr3 s.
Proof.
  intros O Pt s' e. destruct (identity_end_spec s O) as (Ee & Re). fold e in Ee, Re.
  assert (Be : total s * 4096 <= e < total s * 4096 + 4194304) by (rewrite Ee; Z.div_mod_to_equations; lia). split; [exact Be |].
  assert (De : e / 4194304 * 4194304 = e) by (rewrite Ee at 1; rewrite Z.div_mul by done; lia).
  unfold s', paging_init. pose proof (alloc_frame_spec s O) as Sp. destruct (alloc_frame s) as [s1 pd].
  destruct Sp as (S1 & O1 & T1 & Sp). destruct (Z.eqb_spec pd 0) as [-> | Npd].
  { destruct Sp as (_ & Nf). rewrite (proj2 (Z.leb_gt (1 + e / 4194304) _)); [by rewrite S1 |]. rewrite Nf. Z.div_mod_to_equations. lia. }
  destruct Sp as (Rp & Up & Nf & Us). set (s2 := set_mem (set_g_pd s1 pd) (zero_page pd (mem (set_g_pd s1 pd)))).
  assert (Apd : aligned pd) by apply Rp.
  assert (W : forall i, 0 <= i < 1024 -> word (mem s2) pd i = 0).
  { intros i Ri. unfold s2. cbn [mem set_mem set_g_pd]. by rewrite word_zero, Z.eqb_refl. }
  assert (I : identity s2 4096).
  { split.
    - split.
      + exact O1.
      + split; [split; [exact Apd |] |].
        * change (total s2) with (total s1). rewrite T1. apply Rp.
        * change (used s2 (g_pd s2)) with (used s1 pd). rewrite Us, Z.eqb_refl by (done || (destruct Rp; lia)). done.
      + intros i Ri. change (g_pd s2) with pd. rewrite (W i Ri). intros C. discriminate C.
      + intros i j Ri Rj. change (g_pd s2) with pd. rewrite (W i Ri). intros C. discriminate C.
    - intros w Rw. unfold entry. change (g_pd s2) with pd. rewrite W by apply PD_INDEX_range. change (present 0) with false. cbv iota zeta.
      destruct (Z.leb_spec 4096 w), (Z.ltb_spec w 4096); try done; lia.
    - intros k Rk. change (g_pd s2) with pd. rewrite W by done. change (tables_to 4096) with 0. symmetry. apply Z.ltb_ge. lia. }
  assert (Ei : identity_end s2 = e) by (unfold e, identity_end, pmm_total_pages; change (g_total_pages (frames s2)) with (total s1); by rewrite T1).
  cbv zeta. fold s2. rewrite Ei. unfold PAGE_SIZE. assert (Pe : 4194304 <= e) by (Z.div_mod_to_equations; lia).
  pose proof (map_loop_spec (Z.to_nat ((e - 1) / 4096)) 4096 s2 I ltac:(done) ltac:(lia)) as L.
  rewrite Z2Nat.id in L by (Z.div_mod_to_equations; lia). replace (4096 + 4096 * ((e - 1) / 4096)) with e in L by (Z.div_mod_to_equations; lia).
  specialize (L ltac:(lia)). destruct (map_loop _ 4096 s2) as [s3 ok]. cbv zeta in L. destruct L as (S3 & T3 & L).
  assert (Te : tables_to e - tables_to 4096 = e / 4194304).
  { unfold tables_to. change (4096 <=? 4096) with true. rewrite (proj2 (Z.leb_gt e 4096)) by lia. Z.div_mod_to_equations. lia. }
  rewrite Te in L. change (nfree (frames s2)) with (nfree (frames s1)) in L. rewrite Nf in L. destruct ok.
  - destruct L as (I3 & L). rewrite (proj2 (Z.leb_le (1 + e / 4194304) _)) by lia. split; [done |]. split; [done |].
    split; [destruct (id_tree _ _ I3); by split |]. intros v Rv. rewrite translate_entry.
    change (entry (set_paging_on s3) (g_pd (set_paging_on s3)) v) with (entry s3 (g_pd s3) v). rewrite (id_entry _ _ I3) by done.
    destruct ((4096 <=? v) && (v <? e)) eqn:C; [| done]. apply andb_true_iff in C as (C1 & C2). zb.
    rewrite new_pte_frame, frame_of_id, land_4095 by (unfold aligned; rewrite ?Z.mod_mul by done; try done; Z.div_mod_to_equations; lia).
    rewrite lor_low by (unfold aligned; rewrite ?Z.mod_mul by done; try done; apply Z.mod_pos_bound; lia). Z.div_mod_to_equations. lia.
  - rewrite (proj2 (Z.leb_gt (1 + e / 4194304) _)) by lia. rewrite S3. cbn. rewrite S1. done.
Qed.

(** ** Tearing an address space down *)

Definition concat_map {A} (f : Z -> list A) (l : list Z) : list A := concat (map f l).

(** The frame an entry gives back. *)
Definition data_frame s (e : Z) : option Z := if present e && negb (in_fb s (frame_of e)) then Some (frame_of e) else None.

Definition pt_frames s (pt : Z) : list Z := omap (fun j => data_frame s (word (mem s) pt j)) (seqZ 0 1024).

(** The frames behind entry [i] of a directory that are its own. *)
Definition own_pde s (pd i : Z) : list Z :=
  let e := word (mem s) pd i in
  if negb (present e) then [] else if (256 <=? i) && (e =? word (mem s) (g_pd s) i) then [] else pt_frames s (frame_of e) ++ [frame_of e].

(** Every frame that belongs to the address space [pd]. *)
Definition owned s (pd : Z) : list Z := concat_map (own_pde s pd) (seqZ 8 1016) ++ [pd].

Lemma data_frame_vbe s s' e : vbe s' = vbe s -> data_frame s' e = data_frame s e.
Proof. intros E. unfold data_frame, in_fb, fb_lo, fb_hi. by rewrite E. Qed.

Lemma destroy_pt_free n : forall z pt i s, z = Z.of_nat n ->
  zfor n i (fun j s =>
    let pte := word (mem s) pt j in
    if present pte then if in_fb s (frame_of pte) then s else free_frame (frame_of pte) s else s) s =
  free_all (omap (fun j => data_frame s (word (mem s) pt j)) (seqZ i z)) s.
Proof.
  induction n as [|n IH]; intros z pt i s ->; [done |]. rewrite seqZ_cons by lia. cbn [zfor omap list_omap]. cbv zeta.
  replace (Z.pred (Z.of_nat (S n))) with (Z.of_nat n) by lia. change (Z.succ i) with (i + 1). unfold data_frame at 1.
  destruct (present (word (mem s) pt i)); [| by apply IH]. destruct (in_fb s (frame_of (word (mem s) pt i))); [by apply IH |]. cbn [andb negb].
  by rewrite (IH (Z.of_nat n)).
Qed.

Lemma destroy_pt_eq pt s : destroy_pt pt s = free_all (pt_frames s pt) s.
Proof. exact (destroy_pt_free 1024 1024 pt 0 s eq_refl). Qed.

Lemma pt_frames_ext s s' pt : vbe s' = vbe s -> (forall j, 0 <= j < 1024 -> word (mem s') pt j = word (mem s) pt j) ->
  pt_frames s' pt = pt_frames s pt.
Proof.
  intros V W. unfold pt_frames. assert (R : Forall (fun j => 0 <= j < 1024) (seqZ 0 1024)) by (apply Forall_forall; intros j Hj%elem_of_seqZ; lia).
  induction R as [| j l Rj _ IH]; [done |]. cbn [omap list_omap]. rewrite W, (data_frame_vbe s s') by done. destruct (data_frame s _); [f_equal |]; exact IH.
Qed.

Lemma own_pde_ext s s' pd i : vbe s' = vbe s -> g_pd s' = g_pd s -> word (mem s') pd i = word (mem s) pd i ->
  word (mem s') (g_pd s) i = word (mem s) (g_pd s) i ->
  (present (word (mem s) pd i) = true -> forall j, 0 <= j < 1024 ->
     word (mem s') (frame_of (word (mem s) pd i)) j = word (mem s) (frame_of (word (mem s) pd i)) j) ->
  own_pde s' pd i = own_pde s pd i.
Proof.
  intros V G W1 W2 W3. unfold own_pde. rewrite G, W1, W2. destruct (present (word (mem s) pd i)); [| done].
  by rewrite (pt_frames_ext s s') by auto.
Qed.

Lemma concat_map_ext {A} (f g : Z -> list A) l : (forall i, i ∈ l -> f i = g i) -> concat_map f l = concat_map g l.
Proof. intros E. unfold concat_map. f_equal. apply map_ext_in. intros i Hi%list_elem_of_In. by apply E. Qed.

(** The loop over a directory whose tables are not the directory itself. *)
Lemma destroy_loop pd : aligned pd -> forall n z i s, z = Z.of_nat n -> aligned (g_pd s) -> g_pd s <> pd -> 0 <= i -> i + z <= 1024 ->
  (forall k, i <= k < i + z -> present (word (mem s) pd k) = true -> frame_of (word (mem s) pd k) <> pd) ->
  exists m', zfor n i (destroy_pde pd) s = set_mem (free_all (concat_map (own_pde s pd) (seqZ i z)) s) m' /\
    forall q j, aligned q -> 0 <= j < 1024 -> q <> pd -> word m' q j = word (mem s) q j.
Proof.
  intros Ap. induction n as [|n IH]; intros z i s -> Ag Ng Ri Rn Nt.
  { exists (mem s). split; [by destruct s | done]. }
  rewrite seqZ_cons by lia. replace (Z.pred (Z.of_nat (S n))) with (Z.of_nat n) by lia. change (Z.succ i) with (i + 1). cbn [zfor].
  assert (St : exists m1, destroy_pde pd i s = set_mem (free_all (own_pde s pd i) s) m1 /\
    (forall q j, aligned q -> 0 <= j < 1024 -> q <> pd -> word m1 q j = word (mem s) q j) /\
    (forall j, 0 <= j < 1024 -> j <> i -> word m1 pd j = word (mem s) pd j)).
  { assert (Wm : forall m, (forall q j, word m q j = word (mem s) q j) ->
      (forall q j, aligned q -> 0 <= j < 1024 -> q <> pd -> word (store m pd i 0) q j = word (mem s) q j) /\
      (forall j, 0 <= j < 1024 -> j <> i -> word (store m pd i 0) pd j = word (mem s) pd j)).
    { intros m Em. split; intros; rewrite word_store, Em by (done || lia).
      - by rewrite (proj2 (Z.eqb_neq pd q)) by done.
      - by rewrite (proj2 (Z.eqb_neq i j)), andb_false_r by done. }
    unfold destroy_pde, own_pde. destruct (present (word (mem s) pd i)); cbn [negb]; [| exists (mem s); by destruct s].
    destruct ((256 <=? i) && _).
    - exists (store (mem s) pd i 0). split; [done |]. by apply Wm.
    - rewrite destroy_pt_eq, free_all_app, free_all_one, mem_free_frame.
      destruct (free_all_keeps (pt_frames s (frame_of (word (mem s) pd i))) s) as (Em & _). rewrite Em.
      exists (store (mem s) pd i 0). split; [exact eq_refl |]. apply Wm. reflexivity. }
  destruct St as (m1 & -> & W1 & W1'). set (s1 := set_mem _ m1).
  assert (Gs : g_pd s1 = g_pd s /\ vbe s1 = vbe s /\ mem s1 = m1) by (destruct (free_all_keeps (own_pde s pd i) s) as (_ & K2 & K3); split; [exact K2 | split; [exact K3 | exact eq_refl]]).
  destruct Gs as (G1 & V1 & M1).
  destruct (IH (Z.of_nat n) (i + 1) s1 eq_refl) as (m2 & E2 & W2); rewrite ?G1, ?M1; try done; try lia.
  { intros k Rk. rewrite W1' by lia. apply Nt. lia. }
  exists m2. split.
  - rewrite E2. unfold concat_map at 2. cbn [map concat]. rewrite free_all_app. fold (concat_map (own_pde s pd) (seqZ (i + 1) (Z.of_nat n))).
    rewrite (concat_map_ext (own_pde s1 pd) (own_pde s pd)).
    + unfold s1. by rewrite free_all_set_mem.
    + intros k Hk%elem_of_seqZ. apply own_pde_ext; try done; rewrite ?M1.
      * apply W1'; lia.
      * apply W1; [done | lia | done].
      * intros P j Rj. apply W1; [apply frame_of_aligned | done |]. apply Nt; [lia | done].
  - intros q j Aq Rj N. rewrite W2, M1 by done. by apply W1.
Qed.

Lemma destroy_unfold pd s : pd <> 0 -> paging_destroy_user_pd pd s = free_frame pd (zfor 1016 8 (destroy_pde pd) s).
Proof. intros N. unfold paging_destroy_user_pd. by rewrite (proj2 (Z.eqb_neq pd 0) N). Qed.

Lemma owned_free s pd : free_all (owned s pd) s = free_frame pd (free_all (concat_map (own_pde s pd) (seqZ 8 1016)) s).
Proof. unfold owned. rewrite free_all_app. apply free_all_one. Qed.

(** Destroying an address space gives back the frames that are its own. *)
Lemma destroy_spec s pd : pd <> 0 -> aligned pd -> aligned (g_pd s) -> g_pd s <> pd ->
  (forall k, 8 <= k < 8 + 1016 -> present (word (mem s) pd k) = true -> frame_of (word (mem s) pd k) <> pd) ->
  exists m', paging_destroy_user_pd pd s = set_mem (free_all (owned s pd) s) m' /\
    forall q j, aligned q -> 0 <= j < 1024 -> q <> pd -> word m' q j = word (mem s) q j.
Proof.
  intros N0 Ap Ag Ng Nt. destruct (destroy_loop pd Ap 1016 1016 8 s eq_refl Ag Ng) as (m' & E & W); [discriminate | discriminate | exact Nt |].
  exists m'. split; [| exact W]. rewrite (destroy_unfold pd s N0), E, free_frame_set_mem, owned_free. exact eq_refl.
Qed.

(** ** Copying an address space *)

(** Not a frame the allocator could give out at [s]. *)
Definition settled s (p : Z) : Prop := aligned p /\ ~ (in_ram s p /\ used s p = false).

(** [s] comes from [s0] by taking the frames [l] and writing to them only. *)
Record grew s0 s (l : list Z) : Prop := {
  gr_state : s = set_mem (set_frames s0 (frames s)) (mem s);
  gr_ok : pmm_ok (frames s);
  gr_total : total s = total s0;
  gr_nodup : NoDup l;
  gr_new : Forall (fun p => in_ram s0 p /\ used s0 p = false) l;
  gr_used : forall q, 0 <= q -> page_used (frames s) q = bool_decide (q * 4096 ∈ l) || page_used (frames s0) q;
  gr_free : nfree (frames s) = nfree (frames s0) - zlen l;
  gr_words : forall q j, aligned q -> 0 <= j < 1024 -> q ∉ l -> word (mem s) q j = word (mem s0) q j }.

Lemma grew_refl s : pmm_ok (frames s) -> grew s s [].
Proof.
  intros O. split.
  - by destruct s.
  - done.
  - done.
  - apply NoDup_nil_2.
  - apply Forall_nil_2.
  - intros q Rq. by rewrite bool_decide_eq_false_2 by set_solver.
  - change (zlen []) with 0. lia.
  - done.
Qed.

Lemma settled_new s0 s l p : grew s0 s l -> settled s0 p -> p ∉ l.
Proof. intros G (A & N) I. apply N. pose proof (gr_new _ _ _ G) as F. rewrite Forall_forall in F. by apply F. Qed.

Lemma grew_in s0 s l p : grew s0 s l -> p ∈ l -> aligned p /\ 4096 <= p < 4294967296 /\ used s p = true /\ in_ram s0 p /\ used s0 p = false.
Proof.
  intros G I. pose proof (gr_new _ _ _ G) as F. rewrite Forall_forall in F. destruct (F p I) as ((A & R) & U).
  pose proof (ok_total _ (gr_ok _ _ _ G)) as T. pose proof (gr_total _ _ _ G) as E. unfold total, PMM_MAX_PAGES in *.
  split; [done |]. split; [lia |]. split; [| done]. unfold used. rewrite (gr_used _ _ _ G) by (apply Z.div_pos; lia).
  rewrite bool_decide_eq_true_2; [done |]. unfold aligned in A. replace (p / 4096 * 4096) with p by (Z.div_mod_to_equations; lia). done.
Qed.

Lemma grew_store s0 s l m : grew s0 s l -> (forall q j, aligned q -> 0 <= j < 1024 -> q ∉ l -> word m q j = word (mem s) q j) -> grew s0 (set_mem s m) l.
Proof.
  intros [S O T N F U R Wd] E. split; try done.
  - rewrite S. done.
  - intros q j Aq Rj Nq. cbn [mem set_mem]. rewrite E by done. by apply Wd.
Qed.

Lemma grew_alloc s0 s l : grew s0 s l ->
  let '(s1, p) := alloc_frame s in
  mem s1 = mem s /\ (if p =? 0 then s1 = s /\ nfree (frames s) = 0 else (p ∉ l) /\ grew s0 s1 (l ++ [p])).
Proof.
  intros G. pose proof (alloc_frame_spec s (gr_ok _ _ _ G)) as Sp. destruct (alloc_frame s) as [s1 p].
  destruct Sp as (E & O1 & T1 & Sp). split; [by rewrite E |]. destruct (Z.eqb_spec p 0) as [-> | Np].
  { destruct Sp as (Ef & Nf). split; [| done]. rewrite E, Ef. by destruct s. }
  destruct Sp as ((Ap & Rp) & Up & Nf & Us).
  assert (Ni : p ∉ l) by (intros I; destruct (grew_in _ _ _ _ G I) as (_ & _ & U & _); congruence). split; [done |].
  pose proof (gr_total _ _ _ G) as Et. destruct G as [S O T N F U R Wd]. split; try done.
  - rewrite E at 1. rewrite S at 1. rewrite E. cbn. by rewrite S.
  - congruence.
  - apply NoDup_app. split; [done |]. split; [intros x I ->%list_elem_of_singleton; done | apply NoDup_singleton].
  - apply Forall_app. split; [done |]. apply Forall_singleton. split; [split; [done | by rewrite <- Et] |].
    unfold used in *. rewrite U in Up by (apply Z.div_pos; lia). by apply orb_false_iff in Up as (_ & Up).
  - intros q Rq. specialize (Us (q * 4096)). unfold used in Us. rewrite Z.div_mul in Us by done.
    rewrite Us, U by (done || lia || (unfold aligned; apply Z.mod_mul; done)). rewrite orb_assoc. f_equal.
    destruct (Z.eqb_spec (q * 4096) p) as [-> | Ne].
    + rewrite (bool_decide_eq_true_2 (p ∈ l ++ [p])) by set_solver. done.
    + cbn [orb]. apply bool_decide_ext. set_solver.
  - rewrite Nf, R, zlen_app. change (zlen [p]) with 1. lia.
  - intros q j Aq Rj Nq. rewrite E. cbn [mem set_frames]. apply Wd; [done | done | set_solver].
Qed.

(** Where the entry [e] of the original at [s0] is copied to by [e'] at [s]. *)
Definition copy_of s0 s (l : list Z) (e e' : Z) : Prop :=
  match data_frame s0 e with
  | Some f => exists d, e' = Z.lor d (Z.land e 4095) /\ d ∈ l /\ forall x, 0 <= x < 1024 -> word (mem s) d x = word (mem s0) f x
  | None => e' = 0
  end.

Lemma copy_of_mono s0 s l l' e e' : (forall x, x ∈ l -> x ∈ l') -> copy_of s0 s l e e' -> copy_of s0 s l' e e'.
Proof. intros I. unfold copy_of. destruct (data_frame s0 e); [| done]. intros (d & E & M & W). exists d. auto. Qed.

Lemma copy_of_words s0 s s' l e e' : (forall q x, q ∈ l -> 0 <= x < 1024 -> word (mem s') q x = word (mem s) q x) ->
  copy_of s0 s l e e' -> copy_of s0 s' l e e'.
Proof.
  intros I. unfold copy_of. destruct (data_frame s0 e); [| done]. intros (d & E & M & W). exists d. split; [done |]. split; [done |].
  intros x Rx. rewrite I by done. by apply W.
Qed.

(** The data frames of a table of the original may not be handed out again. *)
Definition pt_settled s (pt : Z) : Prop :=
  settled s pt /\ forall j, 0 <= j < 1024 -> present (word (mem s) pt j) = true -> settled s (frame_of (word (mem s) pt j)).

(** The framebuffer is no part of RAM. *)
Definition fb_outside s : Prop := forall p, in_ram s p -> in_fb s p = false.

Definition frames_from s0 s (pt i n : Z) : list Z := omap (fun k => data_frame s0 (word (mem s) pt k)) (seqZ i n).

Lemma data_frame_some s e f : data_frame s e = Some f -> present e = true /\ in_fb s f = false /\ f = frame_of e.
Proof.
  unfold data_frame. destruct (present e); [cbn [andb] | done]. destruct (in_fb s (frame_of e)) eqn:B; [done |]. intros [= <-]. done.
Qed.

Lemma data_frame_copy s e d : present e = true -> aligned d -> 0 <= d < 4294967296 -> in_fb s d = false ->
  data_frame s (Z.lor d (Z.land e 4095)) = Some d.
Proof.
  intros P A R B. unfold data_frame. rewrite present_lor, present_low, P, frame_of_lor, frame_of_id, B by (done || apply land_4095_range). done.
Qed.

Lemma frames_from_succ s0 s pt j n : 0 <= n -> frames_from s0 s pt j (Z.succ n) =
  match data_frame s0 (word (mem s) pt j) with
  | Some f => f :: frames_from s0 s pt (j + 1) n
  | None => frames_from s0 s pt (j + 1) n
  end.
Proof. intros R. unfold frames_from. rewrite seqZ_cons by lia. rewrite Z.pred_succ. reflexivity. Qed.

Lemma frames_from_zero s0 s pt j n : (forall k, j <= k < j + n -> word (mem s) pt k = 0) -> frames_from s0 s pt j n = [].
Proof.
  intros E. unfold frames_from. assert (F : Forall (fun k => word (mem s) pt k = 0) (seqZ j n)).
  { apply Forall_forall. intros k Hk%elem_of_seqZ. by apply E. }
  induction F as [| k ks Ek _ IH]; [done |]. cbn [omap list_omap]. rewrite Ek. exact IH.
Qed.

(** What the inner loop has done from entry [j] on, starting at [s] with frames [l]. *)
Definition pt_copied s0 s (l : list Z) (ppt cpt count j n : Z) s' (r : option Z) : Prop :=
  exists d, grew s0 s' (l ++ d) /\
    (forall q x, aligned q -> 0 <= x < 1024 -> q ∉ d -> q <> cpt -> word (mem s') q x = word (mem s) q x) /\
    (forall k, 0 <= k < j -> word (mem s') cpt k = word (mem s) cpt k) /\
    frames_from s0 s' cpt j n = d /\
    match r with
    | Some c => c = u32 (count + zlen d) /\ zlen d = zlen (frames_from s0 s0 ppt j n) /\
        forall k, j <= k < 1024 -> copy_of s0 s' d (word (mem s0) ppt k) (word (mem s') cpt k)
    | None => nfree (frames s') = 0 /\ zlen d < zlen (frames_from s0 s0 ppt j n)
    end.

Lemma pt_copied_skip s0 s l ppt cpt count j n s' r : 0 <= n -> 0 <= j -> data_frame s0 (word (mem s0) ppt j) = None -> word (mem s) cpt j = 0 ->
  pt_copied s0 s l ppt cpt count (j + 1) n s' r -> pt_copied s0 s l ppt cpt count j (Z.succ n) s' r.
Proof.
  intros Rn Rj De Z0 (d & G & W & K & D & R). exists d. assert (Zj : word (mem s') cpt j = 0) by (rewrite K by lia; exact Z0).
  rewrite !frames_from_succ by done. rewrite Zj, De. change (data_frame s0 0) with (@None Z). cbv iota.
  split; [exact G |]. split; [exact W |]. split; [intros k Rk; apply K; lia |]. split; [exact D |]. destruct r as [c|]; [| exact R].
  destruct R as (Ec & El & Cp). split; [exact Ec |]. split; [exact El |]. intros k Rk.
  destruct (decide (k = j)) as [-> | N]; [| apply Cp; lia]. unfold copy_of. by rewrite De.
Qed.

(** One data page: a fresh frame [dst] and the entry that leads to it. *)
Lemma pt_copied_take s0 s l ppt cpt count j n s' r dst e s2 :
  0 <= n -> 0 <= j < 1024 -> grew s0 s l -> cpt ∈ l -> aligned cpt -> aligned dst -> dst ∉ l -> fb_outside s0 -> in_ram s0 dst -> 0 <= dst < 4294967296 ->
  e = word (mem s0) ppt j -> data_frame s0 e = Some (frame_of e) -> present e = true ->
  (forall q x, aligned q -> 0 <= x < 1024 -> word (mem s2) q x =
     if (cpt =? q) && (j =? x) then Z.lor dst (Z.land e 4095) else if dst =? q then word (mem s0) (frame_of e) x else word (mem s) q x) ->
  pt_copied s0 s2 (l ++ [dst]) ppt cpt (u32 (count + 1)) (j + 1) n s' r -> pt_copied s0 s l ppt cpt count j (Z.succ n) s' r.
Proof.
  intros Rn Rj G Ic Ac Ad Ni Fb Ram Rd Ee De Pe W2 (d & G' & W & K & D & R). rewrite <- app_assoc in G'. cbn [app] in G'. exists (dst :: d).
  assert (Ncd : cpt <> dst) by congruence.
  assert (Nod : dst ∉ d) by (pose proof (gr_nodup _ _ _ G') as N; apply NoDup_app in N as (_ & _ & N); by apply NoDup_cons in N as (N & _)).
  assert (Kj : word (mem s') cpt j = Z.lor dst (Z.land e 4095)) by (rewrite K by lia; rewrite W2, !Z.eqb_refl by done; done).
  rewrite !frames_from_succ by done. rewrite Kj, data_frame_copy, <- Ee, De by (done || by apply Fb).
  split; [done |]. split; [| split; [| split]].
  - intros q x Aq Rx Nq Nc. apply not_elem_of_cons in Nq as (Nq1 & Nq2). rewrite W by done.
    rewrite W2, (proj2 (Z.eqb_neq cpt q)), (proj2 (Z.eqb_neq dst q)) by congruence. done.
  - intros k Rk. rewrite K by lia. rewrite W2, Z.eqb_refl, (proj2 (Z.eqb_neq j k)), (proj2 (Z.eqb_neq dst cpt)) by (done || lia). done.
  - by rewrite <- D.
  - rewrite !zlen_cons. destruct r as [c|]; [| split; [apply R | lia]]. destruct R as (Ec & El & Cp). split; [| split; [lia |]].
    + rewrite Ec. unfold u32. rewrite Zplus_mod_idemp_l. f_equal. lia.
    + intros k Rk.
      destruct (decide (k = j)) as [-> | N]; [| apply (copy_of_mono s0 s' d); [intros y I; apply elem_of_cons; by right | apply Cp; lia]].
      unfold copy_of. rewrite <- Ee, De, Kj. exists dst. split; [done |]. split; [apply elem_of_cons; by left |]. intros x Rx.
      rewrite W, W2, (proj2 (Z.eqb_neq cpt dst)), Z.eqb_refl by done. done.
Qed.

Lemma grew_take s0 s s1 l m cpt dst j v (g : Z -> Z) : grew s0 s1 (l ++ [dst]) -> mem s1 = mem s -> cpt ∈ l ->
  (forall q x, aligned q -> 0 <= x < 1024 -> word m q x = if (cpt =? q) && (j =? x) then v else if dst =? q then g x else word (mem s) q x) ->
  grew s0 (set_mem s1 m) (l ++ [dst]).
Proof.
  intros G1 M1 Ic W. apply grew_store; [exact G1 |]. intros q x Aq Rx Nq. rewrite not_elem_of_app, not_elem_of_cons in Nq. destruct Nq as (Nq1 & Nq2 & _).
  assert (N1 : cpt <> q) by (intros <-; exact (Nq1 Ic)). assert (N2 : dst <> q) by (intros <-; exact (Nq2 eq_refl)).
  rewrite (W q x Aq Rx), (proj2 (Z.eqb_neq cpt q) N1), (proj2 (Z.eqb_neq dst q) N2), M1. reflexivity.
Qed.

Lemma clone_pt_spec s0 : fb_outside s0 -> forall n j ppt cpt count s l,
  j + Z.of_nat n = 1024 -> 0 <= j -> grew s0 s l -> pt_settled s0 ppt -> cpt ∈ l -> 0 <= count < 4294967296 ->
  (forall k, j <= k < 1024 -> word (mem s) cpt k = 0) ->
  let '(s', r) := clone_pt n j ppt cpt count s in pt_copied s0 s l ppt cpt count j (Z.of_nat n) s' r.
Proof.
  intros Fb. induction n as [|n IH]; intros j ppt cpt count s l En Rj G Ps Ic Rc Zk.
  { cbn [clone_pt]. exists []. rewrite app_nil_r. split; [done |]. split; [done |]. split; [done |]. split; [done |].
    change (zlen []) with 0. rewrite Z.add_0_r, u32_small by lia. split; [done |]. split; [done |]. intros k Rk. lia. }
  rewrite Nat2Z.inj_succ in *. assert (Rj' : 0 <= j < 1024) by lia. cbn [clone_pt].
  pose proof Ps as (Sp & Sd). destruct (grew_in _ _ _ _ G Ic) as (Ac & Rcpt & _).
  assert (Wp : word (mem s) ppt j = word (mem s0) ppt j) by (apply G; [apply Sp | done | by eapply settled_new]). rewrite Wp.
  assert (Eb : forall p, in_fb s p = in_fb s0 p) by (intros p; rewrite (gr_state _ _ _ G); done). rewrite Eb.
  assert (Skip : data_frame s0 (word (mem s0) ppt j) = None ->
    let '(s', r) := clone_pt n (j + 1) ppt cpt count s in pt_copied s0 s l ppt cpt count j (Z.succ (Z.of_nat n)) s' r).
  { intros De. specialize (IH (j + 1) ppt cpt count s l ltac:(lia) ltac:(lia) G Ps Ic Rc ltac:(intros; apply Zk; lia)).
    destruct (clone_pt n (j + 1) ppt cpt count s) as [s' r]. apply pt_copied_skip; [lia | lia | done | apply Zk; lia | exact IH]. }
  remember (word (mem s0) ppt j) as e eqn:Ee.
  destruct (present e) eqn:Pe; cbn [negb]; [| apply Skip; unfold data_frame; by rewrite Pe].
  destruct (in_fb s0 (frame_of e)) eqn:Be; [apply Skip; unfold data_frame; by rewrite Pe, Be |]. clear Skip.
  assert (De : data_frame s0 e = Some (frame_of e)) by (unfold data_frame; by rewrite Pe, Be).
  pose proof (grew_alloc _ _ _ G) as Al. destruct (alloc_frame s) as [s1 dst]. destruct Al as (M1 & Al). destruct (Z.eqb_spec dst 0) as [-> | Nd].
  { destruct Al as (-> & Nf). exists []. rewrite app_nil_r, (frames_from_zero s0 s), frames_from_succ, <- Ee, De by (lia || (intros; apply Zk; lia)).
    split; [done |]. split; [done |]. split; [done |]. split; [done |]. split; [done |]. rewrite zlen_cons. change (zlen []) with 0.
    pose proof (zlen_nonneg (frames_from s0 s0 ppt (j + 1) (Z.of_nat n))). lia. }
  destruct Al as (Ni & G1). destruct (grew_in _ _ _ dst G1 ltac:(apply elem_of_app; right; by apply list_elem_of_singleton)) as (Ad & Rd & _ & Ram & Ud).
  assert (Pj : present (word (mem s0) ppt j) = true) by (by rewrite <- Ee). pose proof (Sd j Rj' Pj) as Sf. rewrite <- Ee in Sf.
  assert (Nf : frame_of e ∉ l) by (by eapply settled_new).
  assert (Ndf : dst <> frame_of e) by (intros E; destruct Sf as (_ & Sf); apply Sf; by rewrite <- E).
  assert (Ncd : cpt <> dst) by congruence. rewrite (frame_of_id dst) by (done || lia).
  assert (Em : exists m2, m2 = store (copy_page dst (frame_of e) (mem s1)) cpt j (Z.lor dst (Z.land e 4095))) by (by eexists).
  destruct Em as (m2 & Em2). rewrite <- Em2.
  assert (W2 : forall q x, aligned q -> 0 <= x < 1024 -> word (mem (set_mem s1 m2)) q x =
    if (cpt =? q) && (j =? x) then Z.lor dst (Z.land e 4095) else if dst =? q then word (mem s0) (frame_of e) x else word (mem s) q x).
  { intros q x Aq Rx. cbn [mem set_mem].
    rewrite Em2, (word_store _ _ _ _ _ _ Ac Aq Rj' Rx), (word_copy _ _ _ _ _ Ad (frame_of_aligned e) Ndf Aq Rx), M1.
    rewrite (gr_words _ _ _ G (frame_of e) x (frame_of_aligned e) Rx Nf). exact eq_refl. }
  assert (G2 : grew s0 (set_mem s1 m2) (l ++ [dst])).
  { exact (grew_take s0 s s1 l m2 cpt dst j _ (fun x => word (mem s0) (frame_of e) x) G1 M1 Ic W2). }
  specialize (IH (j + 1) ppt cpt (u32 (count + 1)) (set_mem s1 m2) (l ++ [dst]) ltac:(lia) ltac:(lia) G2 Ps ltac:(apply elem_of_app; by left) (u32_range _)).
  destruct (clone_pt n (j + 1) ppt cpt _ _) as [s' r].
  refine (pt_copied_take s0 s l ppt cpt count j (Z.of_nat n) s' r dst e (set_mem s1 m2)
    (Nat2Z.is_nonneg n) Rj' G Ic Ac Ad Ni Fb Ram _ Ee De Pe W2 (IH _)); [lia |].
  intros k Rk. rewrite W2 by (exact Ac || lia). rewrite Z.eqb_refl, (proj2 (Z.eqb_neq j k)), (proj2 (Z.eqb_neq dst cpt)) by (congruence || lia). apply Zk. lia.
Qed.

(** The conditions under which [parent] can be copied: no table or data frame of it, and
    no table of the kernel, is a frame the allocator thinks free. *)
Record cloneable s0 (parent : Z) : Prop := {
  cb_ok : pmm_ok (frames s0);
  cb_fb : fb_outside s0;
  cb_parent : settled s0 parent /\ parent <> 0;
  cb_pts : forall k, 0 <= k < 1024 -> present (word (mem s0) parent k) = true -> pt_settled s0 (frame_of (word (mem s0) parent k));
  cb_master : settled s0 (g_pd s0);
  cb_shared : forall k, 0 <= k < 1024 -> present (word (mem s0) (g_pd s0) k) = true -> settled s0 (frame_of (word (mem s0) (g_pd s0) k)) }.

(** The directory [child] has its entries up to [i], and they account for [l]. *)
Record owning s0 s (child : Z) (l : list Z) (i : Z) : Prop := {
  ow_grew : grew s0 s l;
  ow_child : child ∈ l;
  ow_perm : l ≡ₚ child :: concat_map (own_pde s child) (seqZ 8 (i - 8));
  ow_pt : forall k, 8 <= k < i -> present (word (mem s) child k) = true -> frame_of (word (mem s) child k) ∈ own_pde s child k;
  ow_rest : forall k, i <= k < 1024 -> word (mem s) child k = 0 }.

Lemma pt_frames_from s0 s pt : vbe s = vbe s0 -> pt_frames s pt = frames_from s0 s pt 0 1024.
Proof.
  intros V. unfold pt_frames, frames_from. generalize (seqZ 0 1024). intros ks.
  induction ks as [|k ks IH]; [done |]. cbn [omap list_omap]. by rewrite (data_frame_vbe s0 s), IH.
Qed.

Lemma grew_vbe s0 s l : grew s0 s l -> vbe s = vbe s0 /\ g_pd s = g_pd s0.
Proof. intros G. by rewrite (gr_state _ _ _ G). Qed.

Lemma elem_of_concat_map {A} (f : Z -> list A) l x : x ∈ concat_map f l <-> exists k, k ∈ l /\ x ∈ f k.
Proof.
  unfold concat_map. induction l as [|k l IH]; cbn [map concat].
  - split; [intros E; by apply elem_of_nil in E | intros (k & E & _); by apply elem_of_nil in E].
  - rewrite elem_of_app, IH. split.
    + intros [E | (k' & K & E)]; [exists k | exists k']; (split; [apply elem_of_cons; auto | done]).
    + intros (k' & [-> | K]%elem_of_cons & E); [by left | right; by exists k'].
Qed.

Lemma concat_map_snoc {A} (f : Z -> list A) i : 8 <= i -> concat_map f (seqZ 8 (i + 1 - 8)) = concat_map f (seqZ 8 (i - 8)) ++ f i.
Proof.
  intros R. replace (i + 1 - 8) with (i - 8 + 1) by lia. rewrite seqZ_app by lia. unfold concat_map. rewrite map_app, concat_app.
  f_equal. replace (8 + (i - 8)) with i by lia. cbn [seqZ map concat]. apply app_nil_r.
Qed.

(** The frames of a directory under construction that come from entry [k]. *)
Lemma owned_pt s0 s child l i k : owning s0 s child l i -> 8 <= k < i -> present (word (mem s) child k) = true ->
  frame_of (word (mem s) child k) ∈ l /\ frame_of (word (mem s) child k) <> child.
Proof.
  intros O R P. pose proof (ow_pt _ _ _ _ _ O k R P) as I.
  assert (Ic : frame_of (word (mem s) child k) ∈ concat_map (own_pde s child) (seqZ 8 (i - 8))).
  { apply elem_of_concat_map. exists k. split; [apply elem_of_seqZ; lia | done]. }
  split.
  - rewrite (ow_perm _ _ _ _ _ O). apply elem_of_cons. by right.
  - intros E. pose proof (gr_nodup _ _ _ (ow_grew _ _ _ _ _ O)) as N. rewrite (ow_perm _ _ _ _ _ O) in N.
    apply NoDup_cons in N as (N & _). apply N. rewrite E in Ic. exact Ic.
Qed.

(** [s'] has the contents [s0] had and the same frames free. *)
Definition restored s0 s' : Prop :=
  pmm_ok (frames s') /\ (forall q, 0 <= q -> page_used (frames s') q = page_used (frames s0) q) /\
  forall q x, settled s0 q -> 0 <= x < 1024 -> word (mem s') q x = word (mem s0) q x.

Lemma destroy_owning s0 s child l i parent : cloneable s0 parent -> owning s0 s child l i -> 8 <= i <= 1024 ->
  restored s0 (paging_destroy_user_pd child s) /\ owned s child ≡ₚ l.
Proof.
  intros C O Ri. pose proof (ow_grew _ _ _ _ _ O) as G. destruct (grew_vbe _ _ _ G) as (Ev & Eg).
  destruct (grew_in _ _ _ _ G (ow_child _ _ _ _ _ O)) as (Ac & Rc & _). pose proof (settled_new _ _ _ _ G (cb_master _ _ C)) as Ng.
  assert (Eo : owned s child = concat_map (own_pde s child) (seqZ 8 (i - 8)) ++ [child]).
  { unfold owned. f_equal. replace 1016 with (i - 8 + (1024 - i)) by lia. rewrite seqZ_app by lia. unfold concat_map. rewrite map_app, concat_app.
    fold (concat_map (own_pde s child) (seqZ (8 + (i - 8)) (1024 - i))). rewrite (concat_map_ext _ (fun _ => [])).
    - assert (Z0 : forall ks, concat_map (fun _ : Z => @nil Z) ks = []) by (intros ks; unfold concat_map; induction ks as [|z zs IHz]; [done | exact IHz]).
      rewrite Z0. apply app_nil_r.
    - intros k Hk%elem_of_seqZ. unfold own_pde. rewrite (ow_rest _ _ _ _ _ O) by lia. done. }
  assert (Pm : owned s child ≡ₚ l) by (rewrite Eo, (ow_perm _ _ _ _ _ O); apply Permutation_app_comm). split; [| exact Pm].
  destruct (destroy_spec s child) as (m' & E & W).
  - lia.
  - exact Ac.
  - rewrite Eg. apply (cb_master _ _ C).
  - rewrite Eg. intros E. apply Ng. rewrite E. apply O.
  - intros k Rk P. destruct (decide (k < i)) as [L | L]; [refine (proj2 (owned_pt _ _ _ _ _ _ O _ P)); lia |].
    rewrite (ow_rest _ _ _ _ _ O) in P by lia. discriminate P.
  - rewrite E. destruct (free_all_used (owned s child) s (gr_ok _ _ _ G)) as (O2 & T2 & U2).
    { apply Forall_forall. intros p Ip. rewrite Pm in Ip. destruct (grew_in _ _ _ _ G Ip) as (A & R & _). split; [done | lia]. }
    split; [exact O2 |]. split.
    + intros q Rq. cbn [frames set_mem]. rewrite U2, (gr_used _ _ _ G) by done.
      assert (Eb : bool_decide (q * 4096 ∈ owned s child) = bool_decide (q * 4096 ∈ l)) by (apply bool_decide_ext; by rewrite Pm).
      rewrite Eb. destruct (decide (q * 4096 ∈ l)) as [I | I]; [| by rewrite bool_decide_eq_false_2].
      rewrite bool_decide_eq_true_2 by done. cbn [andb orb]. destruct (grew_in _ _ _ _ G I) as (_ & _ & _ & (_ & R0) & U0).
      rewrite (gr_total _ _ _ G), (proj2 (Z.ltb_lt q (total s0))) by lia. unfold used in U0. by rewrite Z.div_mul in U0 by done.
    + intros q x Sq Rx. cbn [mem set_mem]. pose proof (settled_new _ _ _ _ G Sq) as Nq. rewrite W; [| apply Sq | done |].
      * by apply (gr_words _ _ _ G); [apply Sq | |].
      * intros ->. apply Nq, O.
Qed.

(** One more entry of the directory: a filled table [cpt] with the data frames [d]. *)
Lemma owning_step s0 s child l i cpt d s3 low parent : cloneable s0 parent -> owning s0 s child l i -> 8 <= i < 1024 -> 0 <= low < 4096 ->
  present low = true -> grew s0 s3 ((l ++ [cpt]) ++ d) ->
  (forall q x, aligned q -> 0 <= x < 1024 -> q ∉ d -> q <> cpt -> word (mem s3) q x = word (mem s) q x) ->
  frames_from s0 s3 cpt 0 1024 = d ->
  owning s0 (set_mem s3 (store (mem s3) child i (Z.lor cpt low))) child ((l ++ [cpt]) ++ d) (i + 1).
Proof.
  intros C O Ri Rl Pl G W D. pose proof (ow_grew _ _ _ _ _ O) as G0. pose proof (gr_nodup _ _ _ G) as N.
  destruct (grew_in _ _ _ _ G0 (ow_child _ _ _ _ _ O)) as (Ac & Rc & _).
  destruct (grew_in _ _ _ cpt G) as (Ap & Rp & _ & New).
  { apply elem_of_app. left. apply elem_of_app. right. by apply list_elem_of_singleton. }
  assert (Old : forall q, q ∈ l -> (q ∉ d) /\ q <> cpt).
  { intros q I. apply NoDup_app in N as (N1 & N2 & _). split; [apply N2, elem_of_app; by left |].
    intros ->. apply NoDup_app in N1 as (_ & N1 & _). by apply (N1 cpt I), list_elem_of_singleton. }
  destruct (Old child (ow_child _ _ _ _ _ O)) as (Nd & Nc). set (v := Z.lor cpt low).
  assert (W4 : forall q x, aligned q -> 0 <= x < 1024 -> word (store (mem s3) child i v) q x = if (child =? q) && (i =? x) then v else word (mem s3) q x).
  { intros q x Aq Rx. apply word_store; done || lia. }
  assert (Wc : forall k, 0 <= k < 1024 -> k <> i -> word (store (mem s3) child i v) child k = word (mem s) child k).
  { intros k Rk Nk. rewrite W4, (proj2 (Z.eqb_neq i k)), andb_false_r by (done || lia). apply W; done. }
  assert (Wq : forall q x, q ∈ l -> q <> child -> aligned q -> 0 <= x < 1024 -> word (store (mem s3) child i v) q x = word (mem s) q x).
  { intros q x I Nq Aq Rx. destruct (Old q I). rewrite W4, (proj2 (Z.eqb_neq child q)) by (done || congruence). cbn [andb]. by apply W. }
  assert (Wi : word (store (mem s3) child i v) child i = v) by (rewrite W4, !Z.eqb_refl by (done || lia); done).
  destruct (grew_vbe _ _ _ G) as (V3 & M3). destruct (grew_vbe _ _ _ G0) as (V0 & M0).
  assert (Ng : forall l' s', grew s0 s' l' -> forall k, 0 <= k < 1024 -> word (mem s') (g_pd s0) k = word (mem s0) (g_pd s0) k).
  { intros l' s' Gl k Rk. apply Gl; [apply (cb_master _ _ C) | done | exact (settled_new _ _ _ _ Gl (cb_master _ _ C))]. }
  assert (Ngc : child <> g_pd s0) by (intros E; apply (settled_new _ _ _ _ G0 (cb_master _ _ C)); rewrite <- E; apply O).
  assert (Fv : frame_of v = cpt) by (unfold v; rewrite frame_of_lor, frame_of_id by (done || lia); done).
  set (s4 := set_mem s3 (store (mem s3) child i v)).
  assert (Oi : own_pde s4 child i = d ++ [cpt]).
  { unfold own_pde. cbn [mem s4 set_mem g_pd]. rewrite Wi. unfold v at 1. rewrite present_lor, Pl by done. cbn [negb].
    assert (Em : (v =? word (store (mem s3) child i v) (g_pd s3) i) = false).
    { apply Z.eqb_neq. rewrite M3, W4, (proj2 (Z.eqb_neq child (g_pd s0))), (Ng _ _ G) by (done || lia || apply (cb_master _ _ C)). cbn [andb].
      intros E. pose proof (cb_shared _ _ C i ltac:(lia)) as Sh. rewrite <- E in Sh. unfold v in Sh.
      rewrite present_lor, frame_of_lor, frame_of_id in Sh by (done || lia). destruct (Sh Pl) as (_ & Sh'). exact (Sh' New). }
    rewrite Em, andb_false_r, Fv. f_equal. rewrite <- D. rewrite <- (pt_frames_from s0 s3) by done.
    apply pt_frames_ext; [done |]. intros j Rj. cbn [mem s4 set_mem]. rewrite W4, (proj2 (Z.eqb_neq child cpt)) by done. done. }
  assert (Ok : forall k, 8 <= k < i -> own_pde s4 child k = own_pde s child k).
  { intros k Rk. assert (g_pd s3 = g_pd s /\ vbe s3 = vbe s) as (Eg & Ev) by (split; congruence).
    apply own_pde_ext; [exact Ev | exact Eg | apply Wc; lia | |].
    - cbn [mem s4 set_mem]. rewrite M0, W4, (proj2 (Z.eqb_neq child (g_pd s0))), (Ng _ _ G), (Ng _ _ G0) by (done || lia || apply (cb_master _ _ C)). done.
    - intros P j Rj. destruct (owned_pt _ _ _ _ _ _ O Rk P) as (I & Nq). apply Wq; [done | done | apply frame_of_aligned | done]. }
  split.
  - apply grew_store; [exact G |]. intros q x Aq Rx Nq. rewrite W4, (proj2 (Z.eqb_neq child q)); [done | | done | done].
    intros <-. apply Nq, elem_of_app. left. apply elem_of_app. left. apply O.
  - apply elem_of_app. left. apply elem_of_app. left. apply O.
  - rewrite concat_map_snoc by lia. rewrite Oi, (concat_map_ext (own_pde s4 child) (own_pde s child)).
    + rewrite (ow_perm _ _ _ _ _ O) at 1. cbn [app]. apply perm_skip. rewrite <- app_assoc. apply Permutation_app_head, Permutation_app_comm.
    + intros k Hk%elem_of_seqZ. apply Ok. lia.
  - intros k Rk P. destruct (decide (k = i)) as [-> | Nk].
    + rewrite Oi. cbn [mem s4 set_mem]. rewrite Wi, Fv.
      apply elem_of_app. right. by apply list_elem_of_singleton.
    + rewrite Ok by lia. cbn [mem s4 set_mem] in P |- *. rewrite Wc in P |- * by lia. apply O; [lia | done].
  - intros k Rk. cbn [mem s4 set_mem]. rewrite Wc by lia. apply O. lia.
Qed.

(** What a clone of [parent] needs for entry [k]: a table and its data frames. *)
Definition data_of s (pd k : Z) : list Z :=
  let e := word (mem s) pd k in if present e then pt_frames s (frame_of e) else [].

Definition demand s (pd k : Z) : list Z :=
  let e := word (mem s) pd k in if present e then frame_of e :: pt_frames s (frame_of e) else [].

(** Entry [k] of [child] leads to a table in [l] whose entries lead to copies in [l]. *)
Definition pde_copy s0 s (l : list Z) (parent child k : Z) : Prop :=
  let e := word (mem s0) parent k in
  if present e then exists pt, word (mem s) child k = Z.lor pt (Z.land e 4095) /\ pt ∈ l /\
    forall j, 0 <= j < 1024 -> copy_of s0 s l (word (mem s0) (frame_of e) j) (word (mem s) pt j)
  else word (mem s) child k = 0.

Lemma pde_copy_mono s0 s l l' parent child k : (forall x, x ∈ l -> x ∈ l') -> pde_copy s0 s l parent child k -> pde_copy s0 s l' parent child k.
Proof.
  intros I. unfold pde_copy. destruct (present _); [| done]. intros (pt & E & M & W). exists pt. split; [done |]. split; [by apply I |].
  intros j Rj. eapply copy_of_mono; [exact I | by apply W].
Qed.

Definition pd_copied s0 s (l : list Z) (parent child count i n : Z) s' (r : option Z) : Prop :=
  match r with
  | Some c => exists d, owning s0 s' child (l ++ d) 1024 /\
      (forall q x, q ∈ l -> q <> child -> 0 <= x < 1024 -> word (mem s') q x = word (mem s) q x) /\
      (forall k, 0 <= k < i -> word (mem s') child k = word (mem s) child k) /\
      c = u32 (count + zlen (concat_map (data_of s0 parent) (seqZ i n))) /\ zlen d = zlen (concat_map (demand s0 parent) (seqZ i n)) /\
      forall k, i <= k < 1024 -> pde_copy s0 s' d parent child k
  | None => restored s0 s' /\ nfree (frames s) < zlen (concat_map (demand s0 parent) (seqZ i n))
  end.

Lemma concat_map_cons {A} (f : Z -> list A) i n : 0 <= n -> concat_map f (seqZ i (Z.succ n)) = f i ++ concat_map f (seqZ (i + 1) n).
Proof. intros R. unfold concat_map. rewrite seqZ_cons by lia. rewrite Z.pred_succ. reflexivity. Qed.

Lemma pd_copied_skip s0 s l parent child count i n s' r : 0 <= n -> 0 <= i -> present (word (mem s0) parent i) = false ->
  word (mem s) child i = 0 -> pd_copied s0 s l parent child count (i + 1) n s' r ->
  pd_copied s0 s l parent child count i (Z.succ n) s' r.
Proof.
  intros Rn Ri P Z0. unfold pd_copied. rewrite !concat_map_cons by done.
  assert (E1 : data_of s0 parent i = []) by (unfold data_of; by rewrite P). assert (E2 : demand s0 parent i = []) by (unfold demand; by rewrite P).
  rewrite E1, E2. cbn [app]. destruct r as [c|]; [| done].
  intros (d & O & W & K & Ec & El & Cp). exists d. split; [exact O |]. split; [exact W |]. split; [intros k Rk; apply K; lia |]. split; [exact Ec |].
  split; [exact El |]. intros k Rk. destruct (decide (k = i)) as [-> | N]; [| apply Cp; lia].
  unfold pde_copy. rewrite P, K by lia. exact Z0.
Qed.

(** The loop from the next entry on, after a table was copied. *)
Lemma pd_copied_take s0 s l parent child count c i n cpt d s4 s' r : 0 <= n -> 0 <= i < 1024 ->
  grew s0 s l -> owning s0 s4 child ((l ++ [cpt]) ++ d) (i + 1) -> child ∈ l -> present (word (mem s0) parent i) = true ->
  (forall q x, q ∈ l -> q <> child -> 0 <= x < 1024 -> word (mem s4) q x = word (mem s) q x) ->
  (forall k, 0 <= k < i -> word (mem s4) child k = word (mem s) child k) ->
  c = u32 (count + zlen d) -> zlen d = zlen (pt_frames s0 (frame_of (word (mem s0) parent i))) ->
  pde_copy s0 s4 (cpt :: d) parent child i ->
  pd_copied s0 s4 ((l ++ [cpt]) ++ d) parent child c (i + 1) n s' r ->
  pd_copied s0 s l parent child count i (Z.succ n) s' r.
Proof.
  intros Rn Ri G O4 Ic P W4 K4 Ec El Cp. unfold pd_copied. rewrite !concat_map_cons by done.
  assert (E1 : data_of s0 parent i = pt_frames s0 (frame_of (word (mem s0) parent i))) by (unfold data_of; by rewrite P).
  assert (E2 : demand s0 parent i = frame_of (word (mem s0) parent i) :: pt_frames s0 (frame_of (word (mem s0) parent i))) by (unfold demand; by rewrite P).
  rewrite E1, E2, !zlen_app, zlen_cons, <- El.
  assert (Ea : forall x, (l ++ [cpt]) ++ x = l ++ cpt :: x) by (intros x; by rewrite <- app_assoc).
  pose proof (ow_grew _ _ _ _ _ O4) as G4. pose proof (gr_nodup _ _ _ G4) as N4. rewrite Ea in N4.
  assert (Nc : child ∉ cpt :: d) by (apply NoDup_app in N4 as (_ & N4 & _); by apply N4). destruct r as [c'|].
  - intros (d' & O & W & K & Ec' & El' & Cp'). exists (cpt :: d ++ d').
    assert (El4 : ((l ++ [cpt]) ++ d) ++ d' = l ++ cpt :: d ++ d') by (by rewrite <- !app_assoc). rewrite El4 in O.
    assert (In4 : forall q, q ∈ cpt :: d -> q ∈ (l ++ [cpt]) ++ d) by (intros q I; rewrite Ea; apply elem_of_app; by right).
    split; [exact O |]. split; [| split; [| split; [| split]]].
    + intros q x I Nq Rx. rewrite W; [by apply W4 | | done | done]. rewrite Ea. apply elem_of_app. by left.
    + intros k Rk. rewrite K by lia. by apply K4.
    + rewrite Ec', Ec. unfold u32. rewrite Zplus_mod_idemp_l. f_equal. lia.
    + rewrite zlen_cons, zlen_app. lia.
    + intros k Rk. destruct (decide (k = i)) as [-> | Nk].
      * apply (pde_copy_mono s0 s' (cpt :: d)); [intros x I; change (cpt :: d ++ d') with ((cpt :: d) ++ d'); apply elem_of_app; by left |].
        unfold pde_copy in Cp |- *. rewrite P in Cp |- *. destruct Cp as (pt & Ep & Ip & Cp). exists pt. rewrite K by lia. split; [exact Ep |]. split; [exact Ip |].
        intros j Rj. assert (Wn : forall q x, q ∈ cpt :: d -> 0 <= x < 1024 -> word (mem s') q x = word (mem s4) q x).
        { intros q x I Rx. apply W; [by apply In4 | | done]. intros ->. by apply Nc. }
        rewrite Wn by done. apply (copy_of_words s0 s4 s'); [exact Wn |]. by apply Cp.
      * apply (pde_copy_mono s0 s' d'); [intros x I; change (cpt :: d ++ d') with ((cpt :: d) ++ d'); apply elem_of_app; by right |]. apply Cp'. lia.
  - intros (R & Nf). split; [exact R |]. rewrite (gr_free _ _ _ G4) in Nf. rewrite (gr_free _ _ _ G). rewrite Ea, zlen_app, zlen_cons in Nf. lia.
Qed.

Lemma clone_pd_spec s0 parent : cloneable s0 parent -> forall n i child count s l,
  i + Z.of_nat n = 1024 -> 8 <= i -> owning s0 s child l i -> 0 <= count < 4294967296 ->
  let '(s', r) := clone_pd n i parent child count s in pd_copied s0 s l parent child count i (Z.of_nat n) s' r.
Proof.
  intros C. induction n as [|n IH]; intros i child count s l En Ri O Rc.
  { cbn [clone_pd]. exists []. rewrite app_nil_r. replace i with 1024 in * by lia. split; [exact O |]. split; [done |]. split; [done |].
    unfold concat_map. cbn [seqZ map concat]. change (zlen []) with 0. rewrite Z.add_0_r, u32_small by lia. split; [done |]. split; [done |]. intros k Rk. lia. }
  rewrite Nat2Z.inj_succ in *. assert (Ri' : 0 <= i < 1024) by lia. cbn [clone_pd].
  pose proof (ow_grew _ _ _ _ _ O) as G. destruct (cb_parent _ _ C) as (Sp & Np).
  assert (Wp : word (mem s) parent i = word (mem s0) parent i) by (apply G; [apply Sp | done | exact (settled_new _ _ _ _ G Sp)]). rewrite Wp.
  destruct (present (word (mem s0) parent i)) eqn:P; cbn [negb].
  2:{ assert (O' : owning s0 s child l (i + 1)).
      { destruct O as [O1 O2 O3 O4 O5]. assert (E0 : word (mem s) child i = 0) by (apply O5; lia). split; [done | done | | | ].
        - rewrite concat_map_snoc by lia. unfold own_pde at 2. rewrite E0. rewrite app_nil_r. exact O3.
        - intros k Rk Pk. destruct (decide (k = i)) as [-> | N]; [rewrite E0 in Pk; discriminate Pk |]. apply O4; [lia | done].
        - intros k Rk. apply O5. lia. }
      specialize (IH (i + 1) child count s l ltac:(lia) ltac:(lia) O' Rc). destruct (clone_pd n (i + 1) parent child count s) as [s' r].
      apply pd_copied_skip; [lia | lia | exact P | apply O; lia | exact IH]. }
  pose proof (grew_alloc _ _ _ G) as Al. destruct (alloc_frame s) as [s1 cpt]. destruct Al as (M1 & Al). destruct (Z.eqb_spec cpt 0) as [-> | Nd].
  { destruct Al as (-> & Nf). split; [exact (proj1 (destroy_owning s0 s child l i parent C O ltac:(lia))) |].
    rewrite concat_map_cons by lia. unfold demand at 1. rewrite P. rewrite zlen_app, zlen_cons.
    pose proof (zlen_nonneg (pt_frames s0 (frame_of (word (mem s0) parent i)))). pose proof (zlen_nonneg (concat_map (demand s0 parent) (seqZ (i + 1) (Z.of_nat n)))). lia. }
  destruct Al as (Ni & G1).
  assert (Ict : cpt ∈ l ++ [cpt]) by (apply elem_of_app; right; by apply list_elem_of_singleton).
  destruct (grew_in _ _ _ cpt G1 Ict) as (Ap & Rp & _).
  assert (Em : exists m2, m2 = zero_page cpt (mem s1)) by (by eexists). destruct Em as (m2 & Em2). rewrite <- Em2.
  assert (W2 : forall q x, aligned q -> 0 <= x < 1024 -> word m2 q x = if cpt =? q then 0 else word (mem s) q x).
  { intros q x Aq Rx. rewrite Em2, (word_zero _ _ _ _ Ap Aq Rx), M1. reflexivity. }
  assert (G2 : grew s0 (set_mem s1 m2) (l ++ [cpt])).
  { apply grew_store; [exact G1 |]. intros q x Aq Rx Nq. rewrite M1, (W2 q x Aq Rx), (proj2 (Z.eqb_neq cpt q)); [reflexivity |]. intros <-. by apply Nq. }
  assert (Fb : fb_outside s0) by apply C. assert (Pt : pt_settled s0 (frame_of (word (mem s0) parent i))) by (exact (cb_pts _ _ C i Ri' P)).
  pose proof (clone_pt_spec s0 Fb 1024 0 (frame_of (word (mem s0) parent i)) cpt count (set_mem s1 m2) (l ++ [cpt]) eq_refl (Z.le_refl 0) G2 Pt Ict Rc) as Sp3.
  specialize (Sp3 ltac:(intros k Rk; cbn [mem set_mem]; rewrite (W2 cpt k Ap Rk), Z.eqb_refl; reflexivity)).
  destruct (clone_pt 1024 0 _ cpt count (set_mem s1 m2)) as [s3 r3]. destruct Sp3 as (d & G3 & W3 & _ & D & R3). change (Z.of_nat 1024) with 1024 in D, R3.
  assert (Efr : frame_of cpt = cpt) by (apply frame_of_id; [exact Ap | lia]). rewrite Efr. set (low := Z.land (word (mem s0) parent i) 4095).
  assert (W30 : forall q x, aligned q -> 0 <= x < 1024 -> q ∉ d -> q <> cpt -> word (mem s3) q x = word (mem s) q x).
  { intros q x Aq Rx Nq Nc. rewrite W3 by done. cbn [mem set_mem]. rewrite (W2 q x Aq Rx), (proj2 (Z.eqb_neq cpt q)) by congruence. reflexivity. }
  assert (Pl : present low = true) by (unfold low; by rewrite present_low).
  assert (O4 : owning s0 (set_mem s3 (store (mem s3) child i (Z.lor cpt low))) child ((l ++ [cpt]) ++ d) (i + 1)).
  { apply (owning_step s0 s child l i cpt d s3 low parent C O); [lia | apply land_4095_range | exact Pl | exact G3 | exact W30 | exact D]. }
  destruct r3 as [c |].
  2:{ destruct R3 as (Z3 & L3). split; [exact (proj1 (destroy_owning s0 _ child _ (i + 1) parent C O4 ltac:(lia))) |].
      rewrite concat_map_cons by lia. unfold demand at 1. rewrite P. rewrite zlen_app, zlen_cons, (pt_frames_from s0 s0) by done.
      rewrite (gr_free _ _ _ G3), !zlen_app in Z3. rewrite (gr_free _ _ _ G). change (zlen [cpt]) with 1 in Z3.
      pose proof (zlen_nonneg (concat_map (demand s0 parent) (seqZ (i + 1) (Z.of_nat n)))). lia. }
  destruct R3 as (Ec & El & Cp). specialize (IH (i + 1) child c _ _ ltac:(lia) ltac:(lia) O4 ltac:(rewrite Ec; apply u32_range)).
  destruct (clone_pd n (i + 1) parent child c _) as [s' r]. rewrite <- (pt_frames_from s0 s0) in El by done.
  destruct (grew_in _ _ _ _ G (ow_child _ _ _ _ _ O)) as (Ac & _ & _).
  assert (Nq : forall q, q ∈ l -> (q ∉ d) /\ q <> cpt).
  { intros q I. pose proof (gr_nodup _ _ _ G3) as N. apply NoDup_app in N as (N1 & N2 & _). split; [apply N2, elem_of_app; by left | congruence]. }
  assert (W4 : forall q x, aligned q -> 0 <= x < 1024 -> word (store (mem s3) child i (Z.lor cpt low)) q x = if (child =? q) && (i =? x) then Z.lor cpt low else word (mem s3) q x).
  { intros q x Aq Rx. apply word_store; done || lia. }
  destruct (Nq child (ow_child _ _ _ _ _ O)) as (Nd1 & Nc1).
  apply (pd_copied_take s0 s l parent child count c i (Z.of_nat n) cpt d (set_mem s3 (store (mem s3) child i (Z.lor cpt low))) s' r); try assumption; [lia | apply O | | |]; cbn [mem set_mem].
  - intros q x I Ne Rx. destruct (Nq q I). assert (Aq : aligned q) by (by apply (grew_in _ _ _ _ G I)).
    rewrite (W4 q x Aq Rx), (proj2 (Z.eqb_neq child q)) by congruence. cbn [andb]. apply W30; assumption.
  - intros k Rk. assert (Rk' : 0 <= k < 1024) by lia.
    rewrite (W4 child k Ac Rk'), (proj2 (Z.eqb_neq i k)), andb_false_r by lia. apply W30; assumption.
  - unfold pde_copy. rewrite P. exists cpt. cbn [mem set_mem]. rewrite (W4 child i Ac Ri'), !Z.eqb_refl. split; [reflexivity |].
    split; [apply elem_of_cons; by left |]. intros j Rj. apply (copy_of_mono s0 _ d); [intros x I; apply elem_of_cons; by right |].
    rewrite (W4 cpt j Ap Rj), (proj2 (Z.eqb_neq child cpt) Nc1). cbn [andb]. apply (copy_of_words s0 s3); [| by apply Cp].
    intros q x I Rx. cbn [mem set_mem]. assert (Aq : aligned q) by (apply (grew_in _ _ _ q G3); apply elem_of_app; by right).
    rewrite (W4 q x Aq Rx), (proj2 (Z.eqb_neq child q)); [reflexivity |]. intros E. apply Nd1. rewrite E. exact I.
Qed.

Lemma copy_low d p n : forall z m q j, z = Z.of_nat n -> aligned d -> aligned p -> d <> p -> aligned q -> 0 <= j < 1024 -> z <= 1024 ->
  word (zfor n 0 (fun i m => store m d i (word m p i)) m) q j = if (d =? q) && (j <? z) then word m p j else word m q j.
Proof.
  intros z m q j -> Ad Ap Ne Aq Rj Rz.
  rewrite (fill_words (fun _ _ => true) (fun m i => word m p i) d n 0 m); [| exact Ad | lia | lia | | exact Aq | exact Rj].
  - rewrite (proj2 (Z.leb_le 0 j)) by lia. cbn [andb]. by rewrite andb_true_r.
  - intros m' i E Ri. split; [done |]. by apply E.
Qed.

(** What a clone of an address space is, and what remains when it cannot be made. *)
Lemma clone_user_pd_spec s parent : cloneable s parent ->
  let need := 1 + zlen (concat_map (demand s parent) (seqZ 8 1016)) in
  let '(s', child, count) := paging_clone_user_pd parent s in
  if need <=? nfree (frames s) then
    child <> 0 /\ count = u32 (zlen (concat_map (data_of s parent) (seqZ 8 1016))) /\
    exists l, grew s s' (child :: l) /\ zlen (child :: l) = need /\
      (forall k, 0 <= k < 8 -> word (mem s') child k = word (mem s) parent k) /\
      (forall k, 8 <= k < 1024 -> pde_copy s s' l parent child k) /\
      restored s (paging_destroy_user_pd child s')
  else child = 0 /\ count = 0 /\ restored s s'.
Proof.
  intros C. destruct (cb_parent _ _ C) as (Sp & Np). unfold paging_clone_user_pd. rewrite (proj2 (Z.eqb_neq parent 0) Np).
  pose proof (grew_alloc _ _ _ (grew_refl s (cb_ok _ _ C))) as Al. destruct (alloc_frame s) as [s1 child]. destruct Al as (M1 & Al).
  pose proof (zlen_nonneg (concat_map (demand s parent) (seqZ 8 1016))) as Nn. cbv zeta. destruct (Z.eqb_spec child 0) as [-> | Nc].
  { destruct Al as (Es & Nf). rewrite Es, (proj2 (Z.leb_gt _ _)) by lia. split; [reflexivity |]. split; [reflexivity |].
    split; [apply C |]. split; reflexivity. }
  destruct Al as (_ & G1). cbn [app] in G1.
  assert (Ic : child ∈ [child]) by (by apply list_elem_of_singleton). destruct (grew_in _ _ _ _ G1 Ic) as (Ac & Rc & _).
  assert (Ncp : child <> parent) by (intros E; apply (settled_new _ _ _ _ G1 Sp); rewrite <- E; exact Ic).
  assert (Em : exists m2, m2 = zfor 8 0 (fun i m => store m child i (word m parent i)) (zero_page child (mem s1))) by (by eexists).
  destruct Em as (m2 & Em2). rewrite <- Em2.
  assert (W2 : forall q x, aligned q -> 0 <= x < 1024 -> word m2 q x = if child =? q then if x <? 8 then word (mem s) parent x else 0 else word (mem s) q x).
  { intros q x Aq Rx. rewrite Em2.
    rewrite (copy_low child parent 8 8 (zero_page child (mem s1)) q x eq_refl Ac (proj1 Sp) Ncp Aq Rx) by lia.
    rewrite !(word_zero child (mem s1)) by first [exact Ac | exact (proj1 Sp) | exact Aq | exact Rx]. rewrite (proj2 (Z.eqb_neq child parent) Ncp), M1.
    destruct (child =? q); [cbn [andb] | reflexivity]. destruct (x <? 8); reflexivity. }
  assert (O : owning s (set_mem s1 m2) child [child] 8).
  { split.
    - apply grew_store; [exact G1 |]. intros q x Aq Rx Nq. rewrite M1, (W2 q x Aq Rx), (proj2 (Z.eqb_neq child q)); [reflexivity |]. intros <-. by apply Nq.
    - exact Ic.
    - reflexivity.
    - intros k Rk. lia.
    - intros k Rk. cbn [mem set_mem]. rewrite W2, Z.eqb_refl, (proj2 (Z.ltb_ge k 8)) by first [exact Ac | lia]. reflexivity. }
  pose proof (clone_pd_spec s parent C 1016 8 child 0 (set_mem s1 m2) [child] eq_refl (Z.le_refl 8) O ltac:(lia)) as Sp4.
  destruct (clone_pd 1016 8 parent child 0 (set_mem s1 m2)) as [s' r]. change (Z.of_nat 1016) with 1016 in Sp4. destruct r as [c |]; cbn [pd_copied] in Sp4.
  - destruct Sp4 as (d & O' & W & K & Ec & El & Cp). pose proof (ow_grew _ _ _ _ _ O') as G. cbn [app] in G.
    pose proof (gr_free _ _ _ G) as F. rewrite zlen_cons in F.
    pose proof (countb_bounds (fun p => (0 <? p) && allocatable (frames s') p) (Z.to_nat (g_total_pages (frames s')))) as Cb. unfold nfree at 1 in F.
    rewrite (proj2 (Z.leb_le _ _)) by lia. split; [exact Nc |]. split; [exact Ec |]. exists d. split; [exact G |].
    split; [rewrite zlen_cons; lia |]. split; [| split; [exact Cp |]].
    + intros k Rk. rewrite K by exact Rk. cbn [mem set_mem]. rewrite W2, Z.eqb_refl, (proj2 (Z.ltb_lt k 8)) by first [exact Ac | lia]. reflexivity.
    + refine (proj1 (destroy_owning s s' child _ 1024 parent C O' _)). lia.
  - destruct Sp4 as (R & Nf). cbn [frames set_mem] in Nf. rewrite (gr_free _ _ _ G1) in Nf. change (zlen [child]) with 1 in Nf.
    rewrite (proj2 (Z.leb_gt _ _)) by lia. split; [reflexivity |]. split; [reflexivity | exact R].
Qed.

(** C28. A clone of an address space needs a directory, a table for each present entry
    from 8 on and a frame for each page behind them that is not of the framebuffer.  With
    that many frames free, [paging_clone_user_pd] gives a directory whose first eight
    entries are the parent's and whose other entries lead to tables of its own with the
    parent's flags; each page is copied to a frame of its own, word for word, and pages of
    the framebuffer are left out.  It writes to no frame that was in use, and destroying
    the clone gives every frame back.  With fewer frames it returns 0 and the allocator and
    the contents of memory are as they were. *)
Theorem paging_clone s parent : cloneable s parent ->
  let need := 1 + zlen (concat_map (demand s parent) (seqZ 8 1016)) in
  let '(s', child, count) := paging_clone_user_pd parent s in
  if need <=? nfree (frames s) then
    child <> 0 /\ count = u32 (zlen (concat_map (data_of s parent) (seqZ 8 1016))) /\
    exists l, grew s s' (child :: l) /\ zlen (child :: l) = need /\
      (forall k, 0 <= k < 8 -> word (mem s') child k = word (mem s) parent k) /\
      (forall k, 8 <= k < 1024 -> pde_copy s s' l parent child k) /\
      restored s (paging_destroy_user_pd child s')
  else child = 0 /\ count = 0 /\ restored s s'.
Proof. exact (clone_user_pd_spec s parent). Qed.

(** ** Witnesses: a kernel directory, and an address space with one page at 1 GiB *)

Definition in_ramb s (p : Z) : bool := (p mod 4096 =? 0) && (4096 <=? p) && (p <? total s * 4096).

Definition settledb s (p : Z) : bool := (p mod 4096 =? 0) && negb (in_ramb s p && negb (used s p)).

Definition entriesb s (pd : Z) (c : Z -> Z -> bool) : bool :=
  forallb (fun i => let e := word (mem s) pd i in if present e then c i e else true) (seqZ 0 1024).

Definition treeb s (pd : Z) : bool :=
  in_ramb s pd && used s pd &&
  entriesb s pd (fun i e => in_ramb s (frame_of e) && used s (frame_of e) && negb (frame_of e =? pd) &&
    entriesb s pd (fun j e' => negb (frame_of e =? frame_of e') || (i =? j))).

Lemma entriesb_spec s pd c : entriesb s pd c = true -> forall i, 0 <= i < 1024 -> present (word (mem s) pd i) = true -> c i (word (mem s) pd i) = true.
Proof.
  unfold entriesb. rewrite forallb_forall. intros F i Ri P. specialize (F i). cbv zeta in F. rewrite P in F. apply F.
  apply list_elem_of_In, elem_of_seqZ. lia.
Qed.

Lemma in_ramb_spec s p : in_ramb s p = true <-> in_ram s p.
Proof. unfold in_ramb, in_ram, aligned. rewrite !andb_true_iff, Z.eqb_eq, Z.leb_le, Z.ltb_lt. tauto. Qed.

Lemma settledb_spec s p : settledb s p = true -> settled s p.
Proof.
  unfold settledb, settled, aligned. rewrite andb_true_iff, Z.eqb_eq. intros (A & N). split; [done |]. intros (I & U).
  apply in_ramb_spec in I. by rewrite I, U in N.
Qed.

Lemma treeb_spec s pd : pmm_ok (frames s) -> treeb s pd = true -> tree s pd.
Proof.
  intros O. unfold treeb. rewrite !andb_true_iff, in_ramb_spec. intros ((I & U) & E). pose proof (entriesb_spec _ _ _ E) as F. cbv beta in F. split; [done | done | |].
  - intros i Ri P. specialize (F i Ri P). rewrite !andb_true_iff, in_ramb_spec in F. destruct F as (((I' & U') & N) & _). zb. done.
  - intros i j Ri Rj Pi Pj Eq. specialize (F i Ri Pi). rewrite !andb_true_iff in F. destruct F as (_ & F).
    pose proof (entriesb_spec _ _ _ F j Rj Pj) as G. cbv beta in G. rewrite Eq, Z.eqb_refl in G. cbn [negb orb] in G. by zb.
Qed.

Definition cloneableb s (parent : Z) : bool :=
  settledb s parent && negb (parent =? 0) && settledb s (g_pd s) &&
  entriesb s (g_pd s) (fun _ e => settledb s (frame_of e)) &&
  entriesb s parent (fun _ e => settledb s (frame_of e) && entriesb s (frame_of e) (fun _ e' => settledb s (frame_of e'))).

Lemma cloneableb_spec s parent : pmm_ok (frames s) -> fb_outside s -> cloneableb s parent = true -> cloneable s parent.
Proof.
  intros O Fb. unfold cloneableb. rewrite !andb_true_iff. intros ((((P & N) & M) & S) & T). split; [done | done | | | by apply settledb_spec |].
  - split; [by apply settledb_spec |]. by zb.
  - intros k Rk Pk. pose proof (entriesb_spec _ _ _ T k Rk Pk) as F. cbv beta in F. apply andb_true_iff in F as (F1 & F2).
    split; [by apply settledb_spec |]. intros j Rj Pj. apply settledb_spec. exact (entriesb_spec _ _ _ F2 j Rj Pj).
  - intros k Rk Pk. apply settledb_spec. exact (entriesb_spec _ _ _ S k Rk Pk).
Qed.

Definition demo_boot : vm := Vm ∅ demo 0 false 0 [] (Vbe true 4261412864 1048576).

Definition demo_kernel : vm := set_g_pd (fst (alloc_frame demo_boot)) (snd (alloc_frame demo_boot)).

Definition demo_pd : Z := snd (paging_create_user_pd demo_kernel).

Definition demo_user : vm := fst (paging_create_user_pd demo_kernel).

(** The page holds 42 in its word 5, and a page of the framebuffer is mapped after it. *)
Definition demo_space : vm :=
  let '(s, page) := alloc_frame demo_user in
  let s := set_mem s (store (mem s) page 5 42) in
  let s := fst (paging_map_in demo_pd 1073741824 page 6 s) in
  fst (paging_map_in demo_pd 1073745920 4261412864 6 s).

Lemma demo_user_ok : pmm_ok (frames demo_user).
Proof.
  unfold demo_user, demo_kernel, paging_create_user_pd. pose proof (alloc_frame_spec demo_boot pmm_demo_ok) as A.
  destruct (alloc_frame demo_boot) as [s1 p1]. destruct A as (_ & O1 & _). cbn [fst snd].
  pose proof (alloc_frame_spec (set_g_pd s1 p1) O1) as A. destruct (alloc_frame (set_g_pd s1 p1)) as [s2 p2]. destruct A as (_ & O2 & _).
  destruct (p2 =? 0); exact O2.
Qed.

Lemma demo_user_tree : tree demo_user demo_pd.
Proof. apply treeb_spec; [exact demo_user_ok | (vm_compute; reflexivity)]. Qed.

Lemma demo_kernel_tree : tree demo_user (g_pd demo_user).
Proof. apply treeb_spec; [exact demo_user_ok | (vm_compute; reflexivity)]. Qed.

Lemma demo_space_ok : pmm_ok (frames demo_space).
Proof.
  unfold demo_space. pose proof (alloc_frame_spec demo_user demo_user_ok) as A.
  assert (Es : exists s p, alloc_frame demo_user = (s, p)) by (by destruct (alloc_frame demo_user) as [s p]; exists s, p).
  destruct Es as (s & p & Es). rewrite Es in A |- *. destruct A as (_ & O & _).
  assert (Keep : forall t v q, pmm_ok (frames t) -> pmm_ok (frames (fst (paging_map_in demo_pd v q 6 t)))).
  { intros t v q Ot. unfold paging_map_in, do_map_pd. destruct (negb _).
    - pose proof (alloc_frame_spec t Ot) as A. destruct (alloc_frame t) as [t1 p1]. destruct A as (_ & O1 & _).
      destruct (p1 =? 0); cbn [fst]; by cases.
    - cbn [fst]. by repeat cases. }
  apply Keep, Keep. exact O.
Qed.

Lemma demo_space_cloneable : cloneable demo_space demo_pd.
Proof.
  apply cloneableb_spec; [exact demo_space_ok | | (vm_compute; reflexivity)]. intros p (_ & R). unfold in_fb.
  assert (T : total demo_space = 1024) by (vm_compute; reflexivity). rewrite T in R.
  assert (L : fb_lo demo_space = 4261412864) by (vm_compute; reflexivity). rewrite L.
  rewrite (proj2 (Z.leb_gt 4261412864 p)) by lia. done.
Qed.

Lemma paging_update_witness : tree demo_user demo_pd /\ (g_pd demo_user = demo_pd -> False) /\
  (let s' := fst (paging_map_in demo_pd 1073741824 1048576 6 demo_user) in
   snd (paging_map_in demo_pd 1073741824 1048576 6 demo_user) = 0 /\ paging_user_va_to_pa demo_pd 1073741829 s' = 1048581 /\
   nfree (frames s') = nfree (frames demo_user) - 1) /\
  snd (paging_unmap 1073741824 demo_user) = -1.
Proof.
  destruct (paging_update demo_user demo_pd 1073741824 1048576 6 demo_user_tree ltac:(lia)) as (M & _).
  split; [apply demo_user_tree |]. split; [vm_compute; discriminate |]. split; [| (vm_compute; reflexivity)].
  assert (E : snd (paging_map_in demo_pd 1073741824 1048576 6 demo_user) = 0) by (vm_compute; reflexivity).
  destruct (paging_map_in demo_pd 1073741824 1048576 6 demo_user) as [s' r] eqn:Es. cbn [fst snd] in *. split; [exact E |].
  destruct M as [(_ & _ & T & _) | (B & _)]; [| lia]. split; [rewrite T by lia; (vm_compute; reflexivity) |].
  assert (Es' : s' = fst (paging_map_in demo_pd 1073741824 1048576 6 demo_user)) by (by rewrite Es). rewrite Es'. (vm_compute; reflexivity).
Defined.

Lemma paging_init_identity_witness : pmm_ok (frames demo_boot) /\ 0 < total demo_boot /\
  g_paging_on (paging_init demo_boot) = true /\ paging_translate 12345 (paging_init demo_boot) = 12345 /\ paging_translate 5 (paging_init demo_boot) = 0.
Proof.
  assert (T : 0 < total demo_boot) by (vm_compute; reflexivity). split; [exact pmm_demo_ok |]. split; [exact T |].
  destruct (paging_init_identity demo_boot pmm_demo_ok T) as (_ & H).
  assert (E : identity_end demo_boot = 4194304) by (vm_compute; reflexivity). rewrite E in H.
  assert (F : (1 + 4194304 / 4194304 <=? nfree (frames demo_boot)) = true) by (vm_compute; reflexivity). rewrite F in H.
  destruct H as (On & _ & _ & Tr). split; [exact On |]. split; [exact (Tr 12345 ltac:(lia)) | exact (Tr 5 ltac:(lia))].
Defined.

Lemma paging_clone_witness : cloneable demo_space demo_pd /\
  let '(s', child, count) := paging_clone_user_pd demo_pd demo_space in
  child <> 0 /\ count = 1 /\ restored demo_space (paging_destroy_user_pd child s').
Proof.
  split; [exact demo_space_cloneable |]. pose proof (paging_clone demo_space demo_pd demo_space_cloneable) as H. cbv zeta in H.
  assert (F : (1 + zlen (concat_map (demand demo_space demo_pd) (seqZ 8 1016)) <=? nfree (frames demo_space)) = true) by (vm_compute; reflexivity).
  assert (D : u32 (zlen (concat_map (data_of demo_space demo_pd) (seqZ 8 1016))) = 1) by (vm_compute; reflexivity).
  destruct (paging_clone_user_pd demo_pd demo_space) as [[s' child] count]. rewrite F in H.
  destruct H as (N & C & l & _ & _ & _ & _ & R). rewrite D in C. split; [exact N |]. split; [exact C | exact R].
Defined.

End PAGING.
