(* ===== verification/Wm.v ===== *)
(** The window registry of the kernel and what it does when a task ends
    ([kernel/wm.c]), with the two other claims a task can hold on the desktop: the
    framebuffer ([g_fb_owner] of [kernel/syscall.c]) and the keyboard
    ([kernel/keyboard.c]).

    The frames of a window are mapped in the directory of its client and in that of
    the window manager; the list of the frames is an array on the kernel heap, whose
    words are words of the memory of [Paging].  Opening, closing and drawing windows
    are not modelled. *)

From stdpp Require Import base numbers list gmap.
From Stdlib Require Import ZArith Lia.
From S2P Require Import Prelude Bitmap Pmm Kmalloc Alloc Paging.

Module WM.
Import PAGING.

Definition WM_MAX_WINDOWS : Z := 4.

Inductive slot_state := WM_SLOT_EMPTY | WM_SLOT_OPEN_PENDING | WM_SLOT_LIVE | WM_SLOT_DESTROY_PENDING.

#[global] Instance slot_state_eq_dec : EqDecision slot_state.
Proof. solve_decision. Defined.

Record wm_window := Window {
  state : slot_state; id : Z; owner_pid : Z; client_va : Z; wmd_va : Z; width : Z; height : Z; title : list Z;
  n_pages : Z; pages : Z; events : Z; ev_head : Z; ev_tail : Z; ev_size : Z }.

Record wm_state := Windows { windows : list wm_window; next_id : Z }.

(** [g_state] is allocated when a window manager first binds. *)
Record desktop := Desktop {
  g_fb_owner : option Z; g_enabled : bool; g_wm_owner : option Z; g_state : option wm_state; g_kbd_grab_pid : Z }.

Definition set_state (x : slot_state) (w : wm_window) : wm_window :=
  Window x (id w) (owner_pid w) (client_va w) (wmd_va w) (width w) (height w) (title w) (n_pages w) (pages w) (events w) (ev_head w) (ev_tail w) (ev_size w).

Definition set_pages (p n : Z) (w : wm_window) : wm_window :=
  Window (state w) (id w) (owner_pid w) (client_va w) (wmd_va w) (width w) (height w) (title w) n p (events w) (ev_head w) (ev_tail w) (ev_size w).

Definition set_wm (o : option Z) (s : option wm_state) (d : desktop) : desktop := Desktop (g_fb_owner d) (g_enabled d) o s (g_kbd_grab_pid d).

Definition unmap_from_pd_keep_phys (pd va : Z) (v : vm) : vm :=
  if pd =? 0 then v else
  let e := word (mem v) pd (Z.shiftr va 22) in
  if negb (present e) then v else set_mem v (store (mem v) (frame_of e) (PT_INDEX va) 0).

Definition page_va (w : wm_window) (p : Z) : Z := u32 (wmd_va w + p * PAGE_SIZE).

Section Ops.
Context {H : Type} `{Allocator H}.

Definition free_slot_pages (w : wm_window) (v : vm) (h : H) : option (wm_window * vm * H) :=
  if pages w =? 0 then Some (w, v, h) else
  let v := zfor (Z.to_nat (n_pages w)) 0 (fun i v =>
    let p := word (mem v) (pages w) i in if negb (p =? 0) then free_frame p v else v) v in
  h ← dealloc (pages w) h;
  Some (set_pages 0 0 w, v, h).

(** The body of the loop of [wm_on_task_exit] for the window manager itself. *)
Definition drop_slot (pd : Z) (w : wm_window) (v : vm) (h : H) : option (wm_window * vm * H) :=
  if bool_decide (state w = WM_SLOT_EMPTY) then Some (w, v, h) else
  let v := zfor (Z.to_nat (n_pages w)) 0 (fun p => unmap_from_pd_keep_phys pd (page_va w p)) v in
  if bool_decide (state w = WM_SLOT_DESTROY_PENDING)
  then '(w, v, h) ← free_slot_pages w v h; Some (set_state WM_SLOT_EMPTY w, v, h)
  else Some (w, v, h).

Fixpoint drop_slots (pd : Z) (ws : list wm_window) (v : vm) (h : H) : option (list wm_window * vm * H) :=
  match ws with
  | [] => Some ([], v, h)
  | w :: ws => '(w, v, h) ← drop_slot pd w v h; '(ws, v, h) ← drop_slots pd ws v h; Some (w :: ws, v, h)
  end.

(** The body of its loop for any other task. *)
Definition close_slot (pid : Z) (w : wm_window) : wm_window :=
  if (bool_decide (state w = WM_SLOT_LIVE) || bool_decide (state w = WM_SLOT_OPEN_PENDING)) && (owner_pid w =? pid)
  then set_state WM_SLOT_DESTROY_PENDING w else w.

(** The task in slot [t], with directory [pd]. *)
Definition wm_on_task_exit (t pid pd : Z) (d : desktop) (v : vm) (h : H) : option (desktop * vm * H) :=
  match g_state d with
  | None => Some (if bool_decide (g_wm_owner d = Some t) then set_wm None None d else d, v, h)
  | Some s =>
      if bool_decide (g_wm_owner d = Some t) then
        '(ws, v, h) ← drop_slots pd (windows s) v h; Some (set_wm None (Some (Windows ws (next_id s))) d, v, h)
      else Some (set_wm (g_wm_owner d) (Some (Windows (map (close_slot pid) (windows s)) (next_id s))) d, v, h)
  end.

End Ops.

(** [task_exit_current] gives back the framebuffer, and the keyboard. *)
Definition fb_release (t : Z) (d : desktop) : desktop :=
  if bool_decide (g_fb_owner d = Some t) then Desktop None true (g_wm_owner d) (g_state d) (g_kbd_grab_pid d) else d.

Definition keyboard_release (pid : Z) (d : desktop) : desktop :=
  if g_kbd_grab_pid d =? s32 pid then Desktop (g_fb_owner d) (g_enabled d) (g_wm_owner d) (g_state d) 0 else d.

(** ** What the end of a task changes *)

(** The windows the window manager has mapped, when it is [t] that ends. *)
Definition mapped_by (t : Z) (d : desktop) : list wm_window :=
  match g_state d with
  | Some s => if bool_decide (g_wm_owner d = Some t) then List.filter (fun w => negb (bool_decide (state w = WM_SLOT_EMPTY))) (windows s) else []
  | None => []
  end.

Definition pending (w : wm_window) : bool := bool_decide (state w = WM_SLOT_DESTROY_PENDING) && negb (pages w =? 0).

(** The page-table entries of a window, its frames and its array. *)
Definition entries_of (m : gmap Z Z) (pd : Z) (w : wm_window) : list Z :=
  if pd =? 0 then [] else
  omap (fun p => let e := word m pd (Z.shiftr (page_va w p) 22) in
    if present e then Some (frame_of e + 4 * PT_INDEX (page_va w p)) else None) (seqZ 0 (n_pages w)).

Definition frames_of (m : gmap Z Z) (w : wm_window) : list Z :=
  if pending w then List.filter (fun p => negb (p =? 0)) (map (word m (pages w)) (seqZ 0 (n_pages w))) else [].

Definition array_of (w : wm_window) : list (Z * Z) := if pending w then [(pages w, 4 * n_pages w)] else [].

Definition all_of {A} (f : wm_window -> list A) (ws : list wm_window) : list A := concat (map f ws).

(** A slot once the window manager has ended. *)
Definition dropped (w : wm_window) : wm_window :=
  if bool_decide (state w = WM_SLOT_DESTROY_PENDING) then set_state WM_SLOT_EMPTY (if pages w =? 0 then w else set_pages 0 0 w) else w.

Section Exit.
Context {H : Type} `{AL : AllocatorLaws H}.

(** The task can end: the heap holds the arrays of the windows that wait to be freed,
    and the entries that go are neither in the directory nor in these arrays. *)
Record ready (t pd : Z) (d : desktop) (v : vm) (h : H) (own : list (Z * Z)) : Prop := {
  rd_heap : owns h (all_of array_of (mapped_by t d) ++ own);
  rd_apart : forall a, a ∈ all_of (entries_of (mem v) pd) (mapped_by t d) ->
    (a < pd \/ pd + 4096 <= a) /\
    forall w, w ∈ mapped_by t d -> pending w = true -> a < pages w \/ pages w + 4 * n_pages w <= a }.

(** Every entry of a window is cleared and no other word changes; the frames of the
    windows that waited to be freed are given back and no others; so are their arrays. *)
Record released (t pid pd : Z) (d : desktop) (v : vm) (own : list (Z * Z)) (d' : desktop) (v' : vm) (h' : H) : Prop := {
  rl_owner : g_wm_owner d' = if bool_decide (g_wm_owner d = Some t) then None else g_wm_owner d;
  rl_windows : g_state d' = (s ← g_state d;
    Some (Windows (map (if bool_decide (g_wm_owner d = Some t) then dropped else close_slot pid) (windows s)) (next_id s)));
  rl_rest : g_fb_owner d' = g_fb_owner d /\ g_enabled d' = g_enabled d /\ g_kbd_grab_pid d' = g_kbd_grab_pid d;
  rl_words : forall a, mem v' !! a = if bool_decide (a ∈ all_of (entries_of (mem v) pd) (mapped_by t d)) then Some 0 else mem v !! a;
  rl_frames : frames v' = frames (free_all (all_of (frames_of (mem v)) (mapped_by t d)) v);
  rl_vm : v' = set_frames (set_mem v (mem v')) (frames v');
  rl_heap : owns h' own }.

(** [l] cleared in order. *)
Definition clear (l : list Z) (m : gmap Z Z) : gmap Z Z := foldl (fun m a => <[a := 0]> m) m l.

Lemma clear_app l1 l2 m : clear (l1 ++ l2) m = clear l2 (clear l1 m).
Proof. apply foldl_app. Qed.

Lemma clear_lookup l m a : clear l m !! a = if bool_decide (a ∈ l) then Some 0 else m !! a.
Proof.
  revert m. induction l as [|x l IH]; intros m; [done |]. change (clear (x :: l) m) with (clear l (<[x := 0]> m)). rewrite IH.
  destruct (decide (a ∈ l)) as [I | I]; [rewrite !bool_decide_eq_true_2 by set_solver; done |]. rewrite (bool_decide_eq_false_2 (a ∈ l)) by done.
  destruct (decide (a = x)) as [-> | N]; [rewrite bool_decide_eq_true_2 by set_solver; by rewrite lookup_insert_eq |].
  rewrite bool_decide_eq_false_2 by set_solver. by rewrite lookup_insert_ne.
Qed.

(** Words outside what was cleared. *)
Definition same_but (l : list Z) (m m0 : gmap Z Z) : Prop := forall a, a ∉ l -> m !! a = m0 !! a.

Lemma same_but_clear cl l m m0 : same_but cl m m0 -> (forall a, a ∈ l -> a ∈ cl) -> same_but cl (clear l m) m0.
Proof. intros S I a Na. rewrite clear_lookup, bool_decide_eq_false_2 by set_solver. by apply S. Qed.

Lemma same_word cl m m0 p n i : same_but cl m m0 -> (forall a, a ∈ cl -> a < p \/ p + 4 * n <= a) -> 0 <= i < n -> word m p i = word m0 p i.
Proof. intros S A R. unfold word. rewrite S; [done |]. intros I. destruct (A _ I); lia. Qed.

Lemma page_va_dir w p : 0 <= Z.shiftr (page_va w p) 22 < 1024.
Proof. unfold page_va, u32. rewrite Z.shiftr_div_pow2 by lia. Z.div_mod_to_equations. lia. Qed.

(** The entry of one page. *)
Definition entry_of (m : gmap Z Z) (pd : Z) (w : wm_window) (p : Z) : option Z :=
  let e := word m pd (Z.shiftr (page_va w p) 22) in if present e then Some (frame_of e + 4 * PT_INDEX (page_va w p)) else None.

Lemma unmap_one m0 pd w p v : pd <> 0 -> word (mem v) pd (Z.shiftr (page_va w p) 22) = word m0 pd (Z.shiftr (page_va w p) 22) ->
  unmap_from_pd_keep_phys pd (page_va w p) v = match entry_of m0 pd w p with Some a => set_mem v (<[a := 0]> (mem v)) | None => v end.
Proof.
  intros N E. unfold unmap_from_pd_keep_phys, entry_of. rewrite (proj2 (Z.eqb_neq pd 0)) by done. cbv zeta. rewrite E. by destruct (present _).
Qed.

Lemma unmap_loop cl m0 pd w : pd <> 0 -> (forall a, a ∈ cl -> a < pd \/ pd + 4096 <= a) ->
  forall n i v, same_but cl (mem v) m0 -> (forall a, a ∈ omap (entry_of m0 pd w) (seqZ i (Z.of_nat n)) -> a ∈ cl) ->
  zfor n i (fun p => unmap_from_pd_keep_phys pd (page_va w p)) v = set_mem v (clear (omap (entry_of m0 pd w) (seqZ i (Z.of_nat n))) (mem v)).
Proof.
  intros Np A. induction n as [|n IH]; intros i v S I; [by destruct v |]. rewrite seqZ_cons in I |- * by lia.
  replace (Z.pred (Z.of_nat (Datatypes.S n))) with (Z.of_nat n) in * by lia. cbn [zfor omap list_omap] in *. fold (@list_omap Z Z) in *.
  rewrite (unmap_one m0) by (done || (apply (same_word cl _ _ _ 1024); [done | done | apply page_va_dir])).
  change (i + 1) with (Z.succ i). revert I. destruct (entry_of m0 pd w i) as [x|]; intros I; [| exact (IH _ v S I)]. rewrite IH.
  - done.
  - apply (same_but_clear cl [x] (mem v)); [done |]. intros a Ia. apply I. apply list_elem_of_singleton in Ia as ->. apply list_elem_of_here.
  - intros a Ia. apply I. by apply list_elem_of_further.
Qed.

Lemma free_loop m p : forall n i v, mem v = m ->
  zfor n i (fun i v => let q := word (mem v) p i in if negb (q =? 0) then free_frame q v else v) v =
  free_all (List.filter (fun q => negb (q =? 0)) (map (word m p) (seqZ i (Z.of_nat n)))) v.
Proof.
  induction n as [|n IH]; intros i v E; [done |]. rewrite seqZ_cons by lia. replace (Z.pred (Z.of_nat (S n))) with (Z.of_nat n) by lia.
  cbn [zfor map List.filter]. change (i + 1) with (Z.succ i). rewrite <- E in IH |- *.
  destruct (negb (word (mem v) p i =? 0)); [| exact (IH _ v eq_refl)]. exact (IH _ (free_frame _ v) eq_refl).
Qed.

(** What [drop_slot] leaves of a window that is mapped. *)
Lemma drop_slot_spec cl m0 pd w v h own : (forall a, a ∈ cl -> a < pd \/ pd + 4096 <= a) ->
  (pending w = true -> forall a, a ∈ cl -> a < pages w \/ pages w + 4 * n_pages w <= a) ->
  (forall a, a ∈ entries_of m0 pd w -> a ∈ cl) -> same_but cl (mem v) m0 -> state w <> WM_SLOT_EMPTY -> owns h (array_of w ++ own) ->
  exists h', drop_slot pd w v h = Some (dropped w, free_all (frames_of m0 w) (set_mem v (clear (entries_of m0 pd w) (mem v))), h') /\ owns h' own.
Proof.
  intros Pd Ar En S Ne Ow. unfold drop_slot. rewrite bool_decide_eq_false_2 by done. cbv zeta.
  assert (U : zfor (Z.to_nat (n_pages w)) 0 (fun p => unmap_from_pd_keep_phys pd (page_va w p)) v = set_mem v (clear (entries_of m0 pd w) (mem v))).
  { unfold entries_of in *. destruct (Z.eqb_spec pd 0) as [-> | N].
    - unfold unmap_from_pd_keep_phys. cbn [Z.eqb]. generalize (Z.to_nat (n_pages w)) 0. intros n. induction n as [|n IH]; intros i; [by destruct v | apply IH].
    - assert (Sq : seqZ 0 (Z.of_nat (Z.to_nat (n_pages w))) = seqZ 0 (n_pages w)).
      { destruct (Z.leb_spec 0 (n_pages w)); [by rewrite Z2Nat.id | rewrite Z2Nat.nonpos by lia; by rewrite !seqZ_nil by lia]. }
      rewrite (unmap_loop cl m0); [by rewrite Sq | done | done | done |]. rewrite Sq. exact En. }
  rewrite U. clear U. set (v1 := set_mem v _). assert (S1 : same_but cl (mem v1) m0) by (by apply same_but_clear).
  unfold dropped, frames_of, array_of, pending in *. destruct (bool_decide (state w = WM_SLOT_DESTROY_PENDING)) eqn:D; cbn [andb negb] in *; [| by exists h].
  unfold free_slot_pages. destruct (Z.eqb_spec (pages w) 0) as [E | N]; cbn [negb option_bind mbind] in *; [by exists h |].
  destruct (dealloc_owns h own (pages w) (4 * n_pages w) Ow) as (h' & De & _ & Ow'). rewrite De. cbn [option_bind mbind]. exists h'. split; [| done].
  rewrite (free_loop (mem v1)) by done. do 4 f_equal. apply (f_equal (List.filter _)). destruct (Z.leb_spec 0 (n_pages w)) as [Ln | Ln].
  - rewrite Z2Nat.id by done. apply map_ext_in. intros x Ix%list_elem_of_In%elem_of_seqZ. apply (same_word cl _ _ _ (n_pages w)); [done | by apply Ar | lia].
  - rewrite Z2Nat.nonpos by lia. by rewrite !seqZ_nil by lia.
Qed.

Lemma drop_empty pd w v h : state w = WM_SLOT_EMPTY -> drop_slot pd w v h = Some (dropped w, v, h).
Proof. intros E. unfold drop_slot, dropped. rewrite E. done. Qed.

Definition in_use (w : wm_window) : bool := negb (bool_decide (state w = WM_SLOT_EMPTY)).

Lemma drop_slots_spec cl m0 pd ws : forall v h own, let mapped := List.filter in_use ws in
  (forall a, a ∈ cl -> a < pd \/ pd + 4096 <= a) ->
  (forall w a, w ∈ mapped -> pending w = true -> a ∈ cl -> a < pages w \/ pages w + 4 * n_pages w <= a) ->
  (forall a, a ∈ all_of (entries_of m0 pd) mapped -> a ∈ cl) -> same_but cl (mem v) m0 -> owns h (all_of array_of mapped ++ own) ->
  exists h', drop_slots pd ws v h = Some (map dropped ws,
      free_all (all_of (frames_of m0) mapped) (set_mem v (clear (all_of (entries_of m0 pd) mapped) (mem v))), h') /\ owns h' own.
Proof.
  induction ws as [|w ws IH]; intros v h own mapped Pd Ar En S Ow; [exists h; by destruct v |]. cbn [drop_slots map].
  unfold mapped in *. cbn [List.filter] in *. destruct (in_use w) eqn:U.
  - assert (Ne : state w <> WM_SLOT_EMPTY) by (unfold in_use in U; by apply negb_true_iff, bool_decide_eq_false in U).
    unfold all_of in *. cbn [map concat] in *. rewrite <- app_assoc in Ow.
    destruct (drop_slot_spec cl m0 pd w v h (concat (map array_of (List.filter in_use ws)) ++ own) Pd) as (h1 & -> & Ow1); try done.
    { intros P a Ia. apply Ar; [apply list_elem_of_here | done | done]. }
    { intros a Ia. apply En, elem_of_app. by left. }
    set (v1 := free_all _ _). assert (M1 : mem v1 = clear (entries_of m0 pd w) (mem v)) by (unfold v1; by rewrite (proj1 (free_all_keeps _ _))).
    cbn [option_bind mbind]. destruct (IH v1 h1 own Pd) as (h2 & -> & Ow2); try done.
    { intros w' a Iw. apply Ar. by apply list_elem_of_further. }
    { intros a Ia. apply En, elem_of_app. by right. }
    { rewrite M1. apply same_but_clear; [done |]. intros a Ia. apply En, elem_of_app. by left. }
    exists h2. split; [| done]. cbn [option_bind mbind]. do 3 f_equal. rewrite M1. unfold v1.
    rewrite !free_all_set_mem, free_all_app, clear_app, free_all_frames. by rewrite (free_all_frames _ (free_all _ v)).
  - assert (E : state w = WM_SLOT_EMPTY) by (unfold in_use in U; by apply negb_false_iff, bool_decide_eq_true in U).
    rewrite drop_empty by done. cbn [option_bind mbind]. destruct (IH v h own Pd Ar En S Ow) as (h2 & -> & Ow2). by exists h2.
Qed.

(** The registry when a task ends. *)
Lemma wm_on_task_exit_spec t pid pd d v h own : ready t pd d v h own ->
  exists d' v' h', wm_on_task_exit t pid pd d v h = Some (d', v', h') /\ released t pid pd d v own d' v' h'.
Proof.
  intros [Rh Ra]. unfold wm_on_task_exit. destruct (g_state d) as [s|] eqn:Es.
  - destruct (bool_decide (g_wm_owner d = Some t)) eqn:Eo.
    + assert (Mp : mapped_by t d = List.filter in_use (windows s)) by (unfold mapped_by; by rewrite Es, Eo). rewrite Mp in *.
      destruct (drop_slots_spec (all_of (entries_of (mem v) pd) (mapped_by t d)) (mem v) pd (windows s) v h own) as (h' & -> & Ow); rewrite ?Mp.
      { intros a Ia. by apply Ra. } { intros w a Iw P Ia. by apply (Ra a Ia). } { done. } { done. } { done. }
      cbn [option_bind mbind]. eexists _, _, h'. split; [reflexivity |].
      split; rewrite ?Mp, ?Es, ?Eo; try done.
      * intros a. rewrite (proj1 (free_all_keeps _ _)). cbn [mem set_mem]. by rewrite clear_lookup.
      * by rewrite free_all_set_mem.
      * rewrite free_all_set_mem. cbn [mem set_mem frames]. by rewrite (free_all_frames _ v) at 1.
    + assert (Mp : mapped_by t d = []) by (unfold mapped_by; by rewrite Es, Eo). rewrite Mp in *.
      eexists _, v, h. split; [reflexivity |]. split; rewrite ?Mp, ?Es, ?Eo; try done. by destruct v.
  - assert (Mp : mapped_by t d = []) by (unfold mapped_by; by rewrite Es). rewrite Mp in *.
    eexists _, v, h. split; [reflexivity |]. split; rewrite ?Mp, ?Es; try done; try by destruct v. all: by case_bool_decide.
Qed.

End Exit.

End WM.
