(* ===== verification/Sched.v ===== *)
(** The task table and the scheduler ([kernel/task.c], the processor table of
    [kernel/smp.c]).

    A pointer to a task is its slot number, the null pointer is [None].  Sections under
    the scheduler lock are single operations, which any processor may perform at any
    time.  The saved registers, the open files and the other resources of a task are
    carried as [context] and [resources]; [Proc] gives them their operations. *)

From stdpp Require Import base numbers list gmap.
From Stdlib Require Import ZArith Lia.
From S2P Require Import Prelude.

Module SCHED.

Definition TASK_MAX : Z := 32.
Definition TASK_NAME_MAX : Z := 16.
Definition TASK_MAX_FDS : Z := 24.
Definition TASK_MMAP_MAX : Z := 8.
Definition TASK_CWD_ROOT : Z := 255.
Definition MAX_CPUS : Z := 8.

(** [TASK_STATE_*] *)
Inductive tstate := UNUSED | READY | RUNNING | BLOCKED | DEAD | BLOCKED_ON_CHILD | ZOMBIE | STOPPED.

#[global] Instance tstate_eq_dec : EqDecision tstate.
Proof. solve_decision. Defined.

Inductive fd_kind :=
  | FD_FREE | FD_STDIN | FD_STDOUT | FD_FS | FD_SOCK | FD_PIPE_R | FD_PIPE_W | FD_TMPFS | FD_PROCFS | FD_PTY_M | FD_PTY_S | FD_9P | FD_CDC_ACM.

#[global] Instance fd_kind_eq_dec : EqDecision fd_kind.
Proof. solve_decision. Defined.

Record task_fd := Fd { kind : fd_kind; obj_idx : Z; offset : Z; fs_data : Z; fd_flags : Z }.

#[global] Instance task_fd_inhabited : Inhabited task_fd := populate (Fd FD_FREE 0 0 0 0).

Record task_mmap := Mmap { in_use : bool; va_start : Z; va_end : Z; fs_idx : Z; file_offset : Z; file_length : Z }.

#[global] Instance task_mmap_inhabited : Inhabited task_mmap := populate (Mmap false 0 0 0 0 0).

(** What a switch to the task needs. *)
Record context := Context {
  name : list Z; esp : Z; stack_base : Z; cr3 : Z; kernel_stack_top : Z; user_eip : Z; user_esp : Z; is_user : bool }.

(** What a task inherits over fork: files, signals, memory, credentials, policy and limits. *)
Record resources := Resources {
  fds : list task_fd;
  sig_pending : Z; sig_mask : Z; sig_handlers : list Z; sig_tramp : Z;
  heap_brk : Z; mmaps : list task_mmap; mmap_brk : Z;
  cwd_dir : Z; pgid : Z; sid : Z; uid : Z; gid : Z;
  sandbox_mask : list Z; sandbox_active : bool; sandbox_denials : Z;
  max_rss_pages : Z; max_cpu_ticks : Z; max_fds : Z; wall_deadline_ticks : Z; cur_rss_pages : Z; cur_cpu_ticks : Z }.

Record task := Task {
  id : Z; state : tstate; next : option Z; switches_in : Z; cpu : Z; cpu_pin : Z; is_idle : bool;
  parent_id : Z; exit_code : Z; ctx : context; res : resources }.

Definition zero_context : context := Context (zrep TASK_NAME_MAX 0) 0 0 0 0 0 0 false.

Definition zero_resources : resources :=
  Resources (zrep TASK_MAX_FDS (Fd FD_FREE 0 0 0 0)) 0 0 (zrep 32 0) 0 0 (zrep TASK_MMAP_MAX (Mmap false 0 0 0 0 0)) 0
    0 0 0 0 0 (zrep 4 0) false 0 0 0 0 0 0 0.

(** [memset(t, 0, sizeof( *t))] *)
Definition zero_task : task := Task 0 UNUSED None 0 0 0 false 0 0 zero_context zero_resources.

#[global] Instance task_inhabited : Inhabited task := populate zero_task.

Definition set_state (x : tstate) (t : task) : task :=
  Task (id t) x (next t) (switches_in t) (cpu t) (cpu_pin t) (is_idle t) (parent_id t) (exit_code t) (ctx t) (res t).

Definition set_next (n : option Z) (t : task) : task :=
  Task (id t) (state t) n (switches_in t) (cpu t) (cpu_pin t) (is_idle t) (parent_id t) (exit_code t) (ctx t) (res t).

Definition set_cpu (c : Z) (t : task) : task :=
  Task (id t) (state t) (next t) (switches_in t) c (cpu_pin t) (is_idle t) (parent_id t) (exit_code t) (ctx t) (res t).

Definition set_switches_in (n : Z) (t : task) : task :=
  Task (id t) (state t) (next t) n (cpu t) (cpu_pin t) (is_idle t) (parent_id t) (exit_code t) (ctx t) (res t).

Definition set_cpu_pin (c : Z) (t : task) : task :=
  Task (id t) (state t) (next t) (switches_in t) (cpu t) c (is_idle t) (parent_id t) (exit_code t) (ctx t) (res t).

Definition set_parent_id (p : Z) (t : task) : task :=
  Task (id t) (state t) (next t) (switches_in t) (cpu t) (cpu_pin t) (is_idle t) p (exit_code t) (ctx t) (res t).

Definition set_exit_code (e : Z) (t : task) : task :=
  Task (id t) (state t) (next t) (switches_in t) (cpu t) (cpu_pin t) (is_idle t) (parent_id t) e (ctx t) (res t).

Definition set_ctx (x : context) (t : task) : task :=
  Task (id t) (state t) (next t) (switches_in t) (cpu t) (cpu_pin t) (is_idle t) (parent_id t) (exit_code t) x (res t).

Definition set_res (x : resources) (t : task) : task :=
  Task (id t) (state t) (next t) (switches_in t) (cpu t) (cpu_pin t) (is_idle t) (parent_id t) (exit_code t) (ctx t) x.

(** The fields of [struct cpu_local] the scheduler uses, with the page directory in CR3. *)
Record cpu_local := Cpu { current : option Z; idle : option Z; tss_esp0 : Z; cr3_reg : Z }.

#[global] Instance cpu_local_inhabited : Inhabited cpu_local := populate (Cpu None None 0 0).

Record sched := Sched {
  g_tasks : list task; g_next_id : Z; g_kernel_cr3 : Z; g_init_pid : Z; g_smp_ready : bool;
  g_cpus : list cpu_local; g_cpu_dispatch : list Z }.

Implicit Types s : sched.

Definition tk s (i : Z) : task := zget (g_tasks s) i.

Definition cp s (c : Z) : cpu_local := zget (g_cpus s) c.

Definition set_tasks s (ts : list task) : sched :=
  Sched ts (g_next_id s) (g_kernel_cr3 s) (g_init_pid s) (g_smp_ready s) (g_cpus s) (g_cpu_dispatch s).

Definition set_cpus s (cs : list cpu_local) : sched :=
  Sched (g_tasks s) (g_next_id s) (g_kernel_cr3 s) (g_init_pid s) (g_smp_ready s) cs (g_cpu_dispatch s).

Definition set_next_id s (n : Z) : sched :=
  Sched (g_tasks s) n (g_kernel_cr3 s) (g_init_pid s) (g_smp_ready s) (g_cpus s) (g_cpu_dispatch s).

Definition task_set_init_pid (pid : Z) s : sched :=
  Sched (g_tasks s) (g_next_id s) (g_kernel_cr3 s) pid (g_smp_ready s) (g_cpus s) (g_cpu_dispatch s).

Definition task_get_init_pid s : Z := g_init_pid s.

Definition task_smp_ready s : sched :=
  Sched (g_tasks s) (g_next_id s) (g_kernel_cr3 s) (g_init_pid s) true (g_cpus s) (g_cpu_dispatch s).

Definition count_dispatch (c : Z) s : sched :=
  Sched (g_tasks s) (g_next_id s) (g_kernel_cr3 s) (g_init_pid s) (g_smp_ready s) (g_cpus s)
    (zset (g_cpu_dispatch s) c (u32 (zget (g_cpu_dispatch s) c + 1))).

(** A write through a task pointer. *)
Definition upd (i : Z) (f : task -> task) s : sched := set_tasks s (zset (g_tasks s) i (f (tk s i))).

Definition updc (c : Z) (f : cpu_local -> cpu_local) s : sched := set_cpus s (zset (g_cpus s) c (f (cp s c))).

(** The task [cpu_current] sees on processor [c]. *)
Definition cpu_current (c : Z) s : Z := if g_smp_ready s then default 0 (current (cp s c)) else 0.

Definition task_current (c : Z) s : Z := cpu_current c s.

Definition task_at (slot : Z) s : option Z :=
  if TASK_MAX <=? slot then None else if bool_decide (state (tk s slot) = UNUSED) then None else Some slot.

Definition name_of (n : list Z) : list Z := let n := ztake (TASK_NAME_MAX - 1) n in n ++ zrep (TASK_NAME_MAX - zlen n) 0.

(** [task_init], with the page directory the boot code runs on. *)
Definition task_init (kernel_cr3 : Z) (s : sched) : sched :=
  let kmain := Task 0 RUNNING (Some 0) 1 0 0 false 0 0
    (Context (name_of [107; 109; 97; 105; 110]) 0 0 kernel_cr3 0 0 0 false)
    (Resources (fds zero_resources) 0 0 (zrep 32 0) 0 0 (mmaps zero_resources) 0 TASK_CWD_ROOT 0 0 0 0 (zrep 4 0) false 0 0 0 0 0 0 0) in
  let s := Sched (zset (zrep TASK_MAX zero_task) 0 kmain) (g_next_id s) kernel_cr3 (g_init_pid s) (g_smp_ready s) (g_cpus s) (g_cpu_dispatch s) in
  updc 0 (fun x => Cpu (Some 0) (idle x) (tss_esp0 x) (cr3_reg x)) s.

(** [task_init_ap_idle] and the two fields [ap_entry] sets from it. *)
Definition task_init_ap_idle (c stack_top stack : Z) s : sched * option Z :=
  match zfind (Z.to_nat (TASK_MAX - 1)) 1 (fun i => bool_decide (state (tk s i) = UNUSED)) with
  | None => (s, None)
  | Some slot =>
      let t := Task 0 RUNNING None 1 c c true 0 0
        (Context (name_of [105; 100; 108; 101; u8 (48 + c)]) 0 stack (g_kernel_cr3 s) stack_top 0 0 false)
        (Resources (fds zero_resources) 0 0 (zrep 32 0) 0 0 (mmaps zero_resources) 0 TASK_CWD_ROOT 0 0 0 0 (zrep 4 0) false 0 0 0 0 0 0 0) in
      (upd slot (fun _ => t) s, Some slot)
  end.

Definition ap_entry (c stack_top stack : Z) s : sched :=
  let '(s, t) := task_init_ap_idle c stack_top stack s in
  updc c (fun x => Cpu t t (tss_esp0 x) (cr3_reg x)) s.

Definition task_make_runnable (t : option Z) s : sched :=
  match t with None => s | Some t => upd t (set_state READY) s end.

(** The slot search of [task_create] and [task_fork]. *)
Definition find_free_slot s : option Z :=
  zfind (Z.to_nat (TASK_MAX - 1)) 1 (fun i => bool_decide (state (tk s i) = UNUSED) || bool_decide (state (tk s i) = DEAD)).

(** The first section of [task_create] under the lock. *)
Definition claim_slot s : sched * option Z :=
  match find_free_slot s with
  | None => (s, None)
  | Some i => (upd i (fun t => set_next None (set_state BLOCKED t)) s, Some i)
  end.

(** The last section of [task_create]: the new task follows the current one. *)
Definition ring_insert (cur t : Z) s : sched :=
  let s := upd t (set_next (Some (default cur (next (tk s cur))))) s in
  upd cur (set_next (Some t)) s.

(** The loop that looks for the task before [t] in the ring. *)
Fixpoint ring_prev (safety : nat) (t p : Z) s : option Z :=
  if p =? t then Some p else
  if bool_decide (next (tk s p) = Some t) then Some p else
  match safety with
  | O => Some p
  | S n => match next (tk s p) with None => None | Some p' => ring_prev n t p' s end
  end.

(** The removal of [t] by the reaper and by wait. *)
Definition ring_remove (t : Z) s : sched :=
  match next (tk s t) with
  | None => s
  | Some p =>
      match ring_prev (Z.to_nat (TASK_MAX * 2)) t p s with
      | None => s
      | Some p => if bool_decide (next (tk s p) = Some t) then upd p (set_next (next (tk s t))) s else s
      end
  end.

Definition pickable_by s (t my_cpu : Z) : bool :=
  bool_decide (state (tk s t) = READY) && ((cpu_pin (tk s t) =? -1) || (cpu_pin (tk s t) =? my_cpu)).

(** The loop of [pick_next_ready]. *)
Fixpoint pick_walk (safety : nat) (start my_cpu t : Z) s : option Z :=
  let last := if pickable_by s start my_cpu then Some start else None in
  match safety with
  | O => last
  | S n =>
      if pickable_by s t my_cpu then Some t else
      let t := default start (next (tk s t)) in
      if (Nat.eqb n 0) || (t =? start) then last else pick_walk n start my_cpu t s
  end.

Definition pick_next_ready (from : option Z) (my_cpu : Z) s : option Z :=
  match from ≫= (fun f => next (tk s f)) with
  | None => zfind (Z.to_nat TASK_MAX) 0 (fun i => pickable_by s i my_cpu)
  | Some start => pick_walk (Z.to_nat (TASK_MAX * 2)) start my_cpu start s
  end.

(** A running task may be run by others, idle tasks apart. *)
Definition demote (prev : Z) s : sched :=
  if bool_decide (state (tk s prev) = RUNNING) && negb (is_idle (tk s prev)) then upd prev (fun t => set_cpu (-1) (set_state READY t)) s else s.

(** The switch from [prev] to [next] on processor [c], up to the exchange of stacks. *)
Definition dispatch (c prev next : Z) s : sched :=
  let s := upd next (fun t => set_switches_in (u32 (switches_in t + 1)) (set_cpu c (set_state RUNNING t))) s in
  let s := updc c (fun x => Cpu (Some next) (idle x) (tss_esp0 x) (cr3_reg x)) s in
  let s := if negb (is_idle (tk s next)) && (c <? 8) then count_dispatch c s else s in
  let top := kernel_stack_top (ctx (tk s next)) in
  let s := if negb (top =? 0) then updc c (fun x => Cpu (current x) (idle x) top (cr3_reg x)) s else s in
  let pd := cr3 (ctx (tk s next)) in
  if negb (pd =? 0) && negb (pd =? cr3 (ctx (tk s prev))) then updc c (fun x => Cpu (current x) (idle x) (tss_esp0 x) pd) s else s.

Definition schedule (c : Z) s : sched :=
  let c := if g_smp_ready s then c else 0 in
  let prev := default 0 (current (cp s c)) in
  let s := demote prev s in
  let next := pick_next_ready (if is_idle (tk s prev) then None else Some prev) c s in
  let next := match next with Some n => n | None => default 0 (idle (cp s c)) end in
  if next =? prev then upd prev (fun t => set_cpu c (set_state RUNNING t)) s else dispatch c prev next s.

(** What the reaper and wait do to the slot of a dead task. *)
Definition clear_slot (t : task) : task :=
  set_next None (set_state UNUSED (set_ctx (Context (name (ctx t)) (esp (ctx t)) 0 0 0 0 0 false) t)).

(** ** Runs

    Each operation is one section of code that no other processor can see halfway. *)

Inductive op :=
  | OSchedule (c : Z)
  | OSuspend (c : Z) (st : tstate)     (* the task running on c blocks, stops or exits *)
  | OWake (t : Z)
  | OClaim
  | OSplice (c t : Z) (x : task)       (* task_create or task_fork on c fills the slot t and puts it in the ring *)
  | OReap (t : Z)
  | OApEntry (c top stack : Z)
  | OSmpReady.

Definition processorb (c : Z) : bool := (0 <=? c) && (c <? MAX_CPUS).

Definition slotb (t : Z) : bool := (0 <=? t) && (t <? TASK_MAX).

Definition off_cpub s (t : Z) : bool := forallb (fun c => negb (bool_decide (current (cp s c) = Some t))) (seqZ 0 MAX_CPUS).

Definition in_states (l : list tstate) (x : tstate) : bool := bool_decide (x ∈ l).

(** When the code performs the operation.  [OWake] is the wake-up of a waiting or a
    stopped task by another one, [OReap] the harvest of a zombie by its parent, or of
    a dead task by the reaper, which alone looks at the processors first.  [task_fork]
    makes its child READY in the section of the splice: [OSplice], then [OWake]. *)
Definition guard (o : op) s : bool :=
  match o with
  | OSchedule c => processorb c && (g_smp_ready s || (c =? 0)) && negb (bool_decide (current (cp s c) = None))
  | OSuspend c st =>
      processorb c &&
      match current (cp s c) with
      | None => false
      | Some t => bool_decide (state (tk s t) = RUNNING) && negb (is_idle (tk s t)) &&
          (in_states [BLOCKED; BLOCKED_ON_CHILD; STOPPED] st || (negb (t =? 0) && in_states [DEAD; ZOMBIE] st))
      end
  | OWake t => slotb t && in_states [BLOCKED; BLOCKED_ON_CHILD; STOPPED] (state (tk s t)) && negb (bool_decide (next (tk s t) = None))
  | OClaim => true
  | OSplice c t x =>
      processorb c && slotb t && negb (bool_decide (next (tk s (cpu_current c s)) = None)) &&
      bool_decide (state (tk s t) = BLOCKED) && bool_decide (next (tk s t) = None) &&
      negb (is_idle x) && bool_decide (next x = None) && bool_decide (state x = BLOCKED)
  | OReap t => slotb t && negb (t =? 0) && negb (bool_decide (next (tk s t) = None)) &&
      (bool_decide (state (tk s t) = ZOMBIE) || (bool_decide (state (tk s t) = DEAD) && off_cpub s t))
  | OApEntry c _ _ =>
      processorb c && negb (c =? 0) && bool_decide (current (cp s c) = None) && bool_decide (idle (cp s c) = None)
  | OSmpReady => true
  end.

Definition run (o : op) s : sched :=
  match o with
  | OSchedule c => schedule c s
  | OSuspend c st => upd (default 0 (current (cp s c))) (set_state st) s
  | OWake t => task_make_runnable (Some t) s
  | OClaim => fst (claim_slot s)
  | OSplice c t x => ring_insert (cpu_current c s) t (upd t (fun _ => x) s)
  | OReap t => upd t clear_slot (ring_remove t s)
  | OApEntry c top stack => ap_entry c top stack s
  | OSmpReady => task_smp_ready s
  end.

Fixpoint run_all (os : list op) s : option sched :=
  match os with
  | [] => Some s
  | o :: os => if guard o s then run_all os (run o s) else None
  end.

(** What the code does not exclude: to wake a task, or harvest a zombie, that a
    processor has not switched away from yet, and to take the slot of a dead task,
    which is still in the ring. *)
Definition hazard (o : op) s : bool :=
  match o with
  | OWake t | OReap t => negb (off_cpub s t)
  | OClaim => match find_free_slot s with None => false | Some i => bool_decide (state (tk s i) = DEAD) end
  | _ => false
  end.

(** Some operation of the run is one of these. *)
Fixpoint hazards (os : list op) s : bool :=
  match os with
  | [] => false
  | o :: os => hazard o s || hazards os (run o s)
  end.

(** Memory before [task_init]. *)
Definition boot : sched := Sched [] 1 0 0 false (zrep MAX_CPUS (Cpu None None 0 0)) (zrep 8 0).

(** The states of the runs without a hazard. *)
Inductive reachable : sched -> Prop :=
  | reach_boot cr3 : reachable (task_init cr3 boot)
  | reach_step s o : reachable s -> guard o s = true -> hazard o s = false -> reachable (run o s).

Lemma reachable_all os : forall s s', reachable s -> run_all os s = Some s' -> hazards os s = false -> reachable s'.
Proof.
  induction os as [|o os IH]; intros s s' H E Hz; cbn [run_all hazards] in *; [by injection E as <- |].
  apply orb_false_iff in Hz as (Ho & Hz). destruct (guard o s) eqn:G; [| done]. exact (IH _ _ (reach_step _ _ H G Ho) E Hz).
Qed.

(** ** The ring *)

(** [x] leads to [z] through [l]. *)
Fixpoint path s (x : Z) (l : list Z) (z : Z) : Prop :=
  match l with
  | [] => next (tk s x) = Some z
  | y :: l' => next (tk s x) = Some y /\ path s y l' z
  end.

(** The ring seen from [x]: [l] in this order, and back to [x]. *)
Record ring s (x : Z) (l : list Z) : Prop := {
  rg_path : path s x l x;
  rg_nodup : NoDup (x :: l);
  rg_range : Forall (fun i => 0 <= i < TASK_MAX) (x :: l) }.

Lemma path_app s x l1 y l2 z : path s x (l1 ++ y :: l2) z <-> path s x l1 y /\ path s y l2 z.
Proof. revert x. induction l1 as [|a l1 IH]; intros x; cbn [app path]; [tauto |]. rewrite IH. tauto. Qed.

Lemma path_ext s s' x l z : (forall i, i ∈ x :: l -> next (tk s' i) = next (tk s i)) -> path s x l z -> path s' x l z.
Proof.
  revert x. induction l as [|a l IH]; intros x E; cbn [path].
  - by rewrite E by apply list_elem_of_here.
  - rewrite E by apply list_elem_of_here. intros (N & P). split; [done |]. apply IH; [| done].
    intros i I. apply E. by apply list_elem_of_further.
Qed.

Lemma ring_rotate s x l1 y l2 : ring s x (l1 ++ y :: l2) -> ring s y (l2 ++ x :: l1).
Proof.
  intros [P N R]. apply path_app in P as (P1 & P2). assert (Pm : x :: l1 ++ y :: l2 ≡ₚ y :: l2 ++ x :: l1) by (rewrite <- !Permutation_middle; solve_Permutation).
  split; [apply path_app; by split | by rewrite <- Pm | by rewrite <- Pm].
Qed.

Lemma ring_at s x l y : ring s x l -> y ∈ x :: l -> exists l', ring s y l' /\ y :: l' ≡ₚ x :: l.
Proof.
  intros R I. apply elem_of_cons in I as [-> | I]; [by exists l |]. apply list_elem_of_split in I as (l1 & l2 & ->).
  exists (l2 ++ x :: l1). split; [by apply ring_rotate |]. rewrite <- !Permutation_middle. solve_Permutation.
Qed.

Lemma ring_head s x l : ring s x l -> next (tk s x) = Some (hd x l).
Proof. intros [P _ _]. by destruct l; [| destruct P]. Qed.

Lemma ring_size s x l : ring s x l -> (length (x :: l) <= 32)%nat.
Proof.
  intros [_ N R]. assert (Sub : forall i, i ∈ x :: l -> i ∈ seqZ 0 32).
  { rewrite Forall_forall in R. intros i I. apply elem_of_seqZ. specialize (R i I). unfold TASK_MAX in R. lia. }
  pose proof (submseteq_length _ _ (NoDup_submseteq _ _ N Sub)) as L. by rewrite length_seqZ in L.
Qed.

(** The first task of [l] that processor [c] may run. *)
Definition first_pick s (c : Z) (l : list Z) : option Z := find (fun i => pickable_by s i c) l.

Lemma find_app_none {A} (f : A -> bool) l1 l2 : (forall i, i ∈ l1 -> f i = false) -> find f (l1 ++ l2) = find f l2.
Proof.
  induction l1 as [|a l1 IH]; intros F; [done |]. cbn [app find]. rewrite F by apply list_elem_of_here.
  apply IH. intros i I. apply F. by apply list_elem_of_further.
Qed.

Lemma walk_step s start c n t : pick_walk (S (S n)) start c t s =
  if pickable_by s t c then Some t else
  if default start (next (tk s t)) =? start then if pickable_by s start c then Some start else None
  else pick_walk (S n) start c (default start (next (tk s t))) s.
Proof. reflexivity. Qed.

Lemma next_walk_spec s start c l : forall n t, path s t l start -> start ∉ l -> (length (t :: l) < n)%nat ->
  (pickable_by s start c = true -> t = start) ->
  pick_walk n start c t s = first_pick s c (t :: l).
Proof.
  induction l as [|y l IH]; intros n t P N L St; (destruct n as [|[|n]]; [cbn in L; lia .. |]); rewrite walk_step; unfold first_pick; cbn [find path] in *;
    destruct (pickable_by s t c) eqn:Pt; try done.
  - rewrite P. cbn [default]. rewrite Z.eqb_refl. destruct (pickable_by s start c) eqn:Ps; [| done]. rewrite St in Pt by done. congruence.
  - destruct P as (E & P). apply not_elem_of_cons in N as (Ny & N). rewrite E. change (default start (Some y)) with y. rewrite (proj2 (Z.eqb_neq y start)) by congruence.
    apply IH; [done | done | cbn in L |- *; lia |]. intros Ps. rewrite St in Pt by done. congruence.
Qed.

(** [pick_next_ready] finds the first task after [x], and [x] itself last. *)
Lemma pick_next_ready_ring s x l c : ring s x l -> pick_next_ready (Some x) c s = first_pick s c (l ++ [x]).
Proof.
  intros R. pose proof (ring_size _ _ _ R) as Sz. unfold pick_next_ready. change (Some x ≫= _) with (next (tk s x)). rewrite (ring_head _ _ _ R).
  change (Z.to_nat (TASK_MAX * 2)) with 64%nat. destruct l as [|y l]; cbn [hd app].
  - rewrite (next_walk_spec _ _ _ []); [done | apply R | by apply not_elem_of_nil | cbn; lia | done].
  - pose proof (ring_rotate s x [] y l R) as R'. cbn [app] in R'. destruct R' as [P' N' _]. apply NoDup_cons in N' as (N' & _).
    rewrite (next_walk_spec _ _ _ (l ++ [x])); [done | done | done | rewrite length_cons, length_app; cbn in Sz |- *; lia | done].
Qed.

(** ** Writes through pointers *)

Definition sized s : Prop := zlen (g_tasks s) = TASK_MAX /\ zlen (g_cpus s) = MAX_CPUS.

Definition slot (i : Z) : Prop := 0 <= i < TASK_MAX.

Definition processor (c : Z) : Prop := 0 <= c < MAX_CPUS.

Lemma tk_upd s i f j : sized s -> slot i -> slot j -> tk (upd i f s) j = if i =? j then f (tk s i) else tk s j.
Proof.
  intros (L & _) Ri Rj. unfold tk, upd, slot in *. cbn [g_tasks set_tasks]. destruct (Z.eqb_spec i j) as [<- | N].
  - apply zget_zset_eq. lia.
  - apply zget_zset_ne; lia.
Qed.

Lemma tk_upd_eq s i f : sized s -> slot i -> tk (upd i f s) i = f (tk s i).
Proof. intros. by rewrite tk_upd, Z.eqb_refl. Qed.

Lemma tk_upd_ne s i f j : sized s -> slot i -> slot j -> i <> j -> tk (upd i f s) j = tk s j.
Proof. intros. by rewrite tk_upd, (proj2 (Z.eqb_neq i j)). Qed.

Lemma cp_updc s c f d : sized s -> processor c -> processor d -> cp (updc c f s) d = if c =? d then f (cp s c) else cp s d.
Proof.
  intros (_ & L) Ri Rj. unfold cp, updc, processor in *. cbn [g_cpus set_cpus]. destruct (Z.eqb_spec c d) as [<- | N].
  - apply zget_zset_eq. lia.
  - apply zget_zset_ne; lia.
Qed.

Lemma cp_upd s i f d : cp (upd i f s) d = cp s d.
Proof. reflexivity. Qed.

Lemma tk_updc s c f i : tk (updc c f s) i = tk s i.
Proof. reflexivity. Qed.

Lemma sized_upd s i f : sized s -> sized (upd i f s).
Proof. intros (L & M). split; [cbn; by rewrite zlen_zset | done]. Qed.

Lemma sized_updc s c f : sized s -> sized (updc c f s).
Proof. intros (L & M). split; [done | cbn; by rewrite zlen_zset]. Qed.

#[local] Hint Resolve sized_upd sized_updc : advent.

(** What an insertion writes in each slot of the table. *)
Lemma ring_insert_tk s cur t i : sized s -> slot cur -> slot t -> slot i -> cur <> t ->
  tk (ring_insert cur t s) i =
    if i =? cur then set_next (Some t) (tk s cur) else
    if i =? t then set_next (Some (default cur (next (tk s cur)))) (tk s t) else tk s i.
Proof.
  intros Sz Rc Rt Ri N. unfold ring_insert. cbv zeta. rewrite tk_upd by auto with advent.
  rewrite (Z.eqb_sym cur i). destruct (Z.eqb_spec i cur) as [-> | Nc]; [by rewrite tk_upd_ne by congruence |].
  rewrite tk_upd by done. rewrite (Z.eqb_sym t i). by destruct (i =? t).
Qed.

Lemma ring_insert_ring s cur t l : sized s -> ring s cur l -> slot t -> t ∉ cur :: l -> ring (ring_insert cur t s) cur (t :: l).
Proof.
  intros Sz R Rt Ni. pose proof (ring_head _ _ _ R) as Hd. destruct R as [P N Rg]. pose proof Ni as Ni'. apply not_elem_of_cons in Ni' as (Nc & Nl).
  rewrite Forall_cons in Rg. destruct Rg as (Rc & Rl). apply NoDup_cons in N as (Ncl & N).
  assert (Tk : forall i, slot i -> tk (ring_insert cur t s) i = if i =? cur then set_next (Some t) (tk s cur) else
    if i =? t then set_next (Some (default cur (next (tk s cur)))) (tk s t) else tk s i) by (intros; apply ring_insert_tk; done || congruence).
  split.
  - cbn [path]. split; [by rewrite Tk, Z.eqb_refl by done |].
    assert (Pt : next (tk (ring_insert cur t s) t) = Some (hd cur l)).
    { rewrite Tk, (proj2 (Z.eqb_neq t cur)), Z.eqb_refl by done. cbn [next set_next]. by rewrite Hd. }
    destruct l as [|y l]; [exact Pt |]. cbn [path hd] in *. split; [exact Pt |]. destruct P as (_ & P).
    apply (path_ext s); [| exact P]. intros i I. rewrite Forall_forall in Rl. rewrite Tk by (by apply Rl).
    rewrite !(proj2 (Z.eqb_neq i _)); [done | intros -> ; done | intros ->; done].
  - apply NoDup_cons. split; [by apply not_elem_of_cons |]. apply NoDup_cons. by split.
  - rewrite !Forall_cons. done.
Qed.

(** The search for the predecessor ends at it. *)
Lemma ring_prev_spec s t l : forall n x, path s x l t -> t ∉ x :: l -> (length l <= n)%nat -> ring_prev n t x s = last (x :: l).
Proof.
  induction l as [|y l IH]; intros n x P N L; apply not_elem_of_cons in N as (Nx & N).
  - cbn [path] in P. assert (E : ring_prev n t x s = if x =? t then Some x else if bool_decide (next (tk s x) = Some t) then Some x else
      match n with O => Some x | S n => match next (tk s x) with None => None | Some p' => ring_prev n t p' s end end) by (by destruct n).
    rewrite E, bool_decide_eq_true_2 by done. by destruct (x =? t).
  - destruct n as [|n]; [cbn in L; lia |]. destruct P as (E & P). cbn [ring_prev]. rewrite (proj2 (Z.eqb_neq x t)) by congruence.
    apply not_elem_of_cons in N as (Ny & N). rewrite E, bool_decide_eq_false_2 by congruence.
    rewrite IH; [| done | by apply not_elem_of_cons | cbn in L; lia]. reflexivity.
Qed.

(** Taking [t] out of the ring seen from it: [p] was the last. *)
Lemma ring_remove_ring s t l p : sized s -> ring s t (l ++ [p]) ->
  ring_remove t s = upd p (set_next (next (tk s t))) s /\ ring (ring_remove t s) p l.
Proof.
  intros Sz R. pose proof (ring_head _ _ _ R) as Hd. pose proof (ring_size _ _ _ R) as Le. destruct R as [P N Rg].
  apply NoDup_cons in N as (Nt & N). apply NoDup_app in N as (N & Np & _). rewrite Forall_cons, Forall_app, Forall_singleton in Rg.
  destruct Rg as (Rt & Rl & Rp). assert (Npt : p <> t) by (intros ->; apply Nt, elem_of_app; right; by apply list_elem_of_singleton).
  assert (Npl : p ∉ l) by (intros I; by apply (Np p I), list_elem_of_singleton).
  apply path_app in P as (P1 & P2). cbn [path] in P2.
  assert (E : ring_prev (Z.to_nat (TASK_MAX * 2)) t (hd t (l ++ [p])) s = Some p).
  { destruct l as [|y l]; cbn [app hd] in *.
    - rewrite (ring_prev_spec _ _ []); [done | exact P2 | by apply not_elem_of_cons; split; [congruence | apply not_elem_of_nil] | cbn; lia].
    - destruct P1 as (_ & P1). rewrite (ring_prev_spec _ _ (l ++ [p])).
      + by rewrite app_comm_cons, last_snoc.
      + apply path_app. by split.
      + done.
      + change (Z.to_nat (TASK_MAX * 2)) with 64%nat. rewrite length_app. cbn [length app] in Le |- *. rewrite length_app in Le. cbn [length] in Le. lia. }
  assert (Er : ring_remove t s = upd p (set_next (next (tk s t))) s).
  { unfold ring_remove. rewrite Hd, E, bool_decide_eq_true_2 by done. by rewrite <- Hd. }
  split; [exact Er |]. rewrite Er.
  assert (Tk : forall i, slot i -> next (tk (upd p (set_next (next (tk s t))) s) i) = if p =? i then Some (hd t (l ++ [p])) else next (tk s i)).
  { intros i Ri. rewrite tk_upd by done. destruct (p =? i); [cbn [next set_next]; exact Hd | done]. }
  split; [| by apply NoDup_cons | by rewrite Forall_cons].
  rewrite Forall_forall in Rl. destruct l as [|y l]; cbn [app hd path] in *.
  - rewrite Tk, Z.eqb_refl by done. reflexivity.
  - split; [rewrite Tk, Z.eqb_refl by done; reflexivity |]. destruct P1 as (_ & P1). apply (path_ext s); [| exact P1].
    intros i I. rewrite Tk by (by apply Rl). rewrite (proj2 (Z.eqb_neq p i)); [done | intros ->; done].
Qed.

(** ** One call of [schedule] *)

(** The task that runs next on [c] after [prev]. *)
Definition choice (c prev : Z) s : Z :=
  match pick_next_ready (if is_idle (tk (demote prev s) prev) then None else Some prev) c (demote prev s) with
  | Some n => n
  | None => default 0 (idle (cp s c))
  end.

Lemma cp_demote prev s c : cp (demote prev s) c = cp s c.
Proof. unfold demote. by cases. Qed.

Lemma smp_demote prev s : g_smp_ready (demote prev s) = g_smp_ready s.
Proof. unfold demote. by cases. Qed.

Lemma sized_demote prev s : sized s -> sized (demote prev s).
Proof. unfold demote. cases; auto with advent. Qed.

#[local] Hint Resolve sized_demote : advent.

Lemma tk_demote prev s i : sized s -> slot prev -> slot i -> tk (demote prev s) i =
  if bool_decide (i = prev /\ state (tk s prev) = RUNNING /\ is_idle (tk s prev) = false) then set_cpu (-1) (set_state READY (tk s prev)) else tk s i.
Proof.
  intros Sz Rp Ri. unfold demote. destruct (bool_decide (state (tk s prev) = RUNNING)) eqn:B; cbn [andb].
  - apply bool_decide_eq_true in B. destruct (is_idle (tk s prev)); cbn [negb].
    + rewrite bool_decide_eq_false_2; [done |]. by intros (_ & _ & ?).
    + rewrite tk_upd by done. destruct (Z.eqb_spec prev i) as [<- | N]; [by rewrite bool_decide_eq_true_2 |].
      rewrite bool_decide_eq_false_2; [done |]. intros (E & _). congruence.
  - apply bool_decide_eq_false in B. rewrite bool_decide_eq_false_2; [done |]. by intros (_ & ? & _).
Qed.

(** What the call leaves: the chosen task runs on [c], the one before may be run again. *)
Record scheduled (c prev n : Z) s s' : Prop := {
  sd_sized : sized s';
  sd_smp : g_smp_ready s' = g_smp_ready s;
  sd_next : exists k, tk s' n = set_switches_in k (set_cpu c (set_state RUNNING (tk s n)));
  sd_rest : forall i, slot i -> i <> n -> tk s' i = tk (demote prev s) i;
  sd_current : forall d, processor d -> current (cp s' d) = if d =? c then Some n else current (cp s d);
  sd_idle : forall d, processor d -> idle (cp s' d) = idle (cp s d) }.

Lemma dispatch_spec s c prev n : sized s -> processor c -> slot n ->
  let s' := dispatch c prev n s in
  sized s' /\ g_smp_ready s' = g_smp_ready s /\
  (forall i, tk s' i = tk (upd n (fun t => set_switches_in (u32 (switches_in t + 1)) (set_cpu c (set_state RUNNING t))) s) i) /\
  forall d, processor d -> current (cp s' d) = (if d =? c then Some n else current (cp s d)) /\ idle (cp s' d) = idle (cp s d).
Proof.
  intros Sz Rc Rn. unfold dispatch. set (s1 := upd n _ s). assert (Z1 : sized s1) by (unfold s1; auto with advent).
  assert (T1 : forall d, cp s1 d = cp s d) by done. assert (M1 : g_smp_ready s1 = g_smp_ready s) by done. clearbody s1.
  set (s2 := updc c _ s1). assert (Z2 : sized s2) by (unfold s2; auto with advent).
  assert (C2 : forall d, processor d -> current (cp s2 d) = (if d =? c then Some n else current (cp s d)) /\ idle (cp s2 d) = idle (cp s d)).
  { intros d Rd. unfold s2. rewrite cp_updc by done. rewrite (Z.eqb_sym d c). destruct (Z.eqb_spec c d) as [<- | _]; by rewrite T1. }
  assert (E2 : g_tasks s2 = g_tasks s1 /\ g_smp_ready s2 = g_smp_ready s1) by done. clearbody s2.
  set (s3 := if negb (is_idle (tk s2 n)) && (c <? 8) then count_dispatch c s2 else s2).
  assert (E3 : g_tasks s3 = g_tasks s2 /\ g_cpus s3 = g_cpus s2 /\ g_smp_ready s3 = g_smp_ready s2) by (unfold s3; by cases). clearbody s3.
  destruct E3 as (T3 & C3 & M3). assert (Z3 : sized s3) by (destruct Z2; split; congruence).
  assert (Keep : forall (b : bool) f u, sized u -> (forall x, current (f x) = current x /\ idle (f x) = idle x) -> let v := if b then updc c f u else u in
    g_tasks v = g_tasks u /\ g_smp_ready v = g_smp_ready u /\ sized v /\
    forall d, processor d -> current (cp v d) = current (cp u d) /\ idle (cp v d) = idle (cp u d)).
  { intros b f u Zu F. destruct b; (split; [done |]; split; [done |]; split; [auto with advent |]); [| done].
    intros d Rd. rewrite cp_updc by done. destruct (Z.eqb_spec c d) as [-> | _]; [apply F | done]. }
  destruct (Keep (negb (kernel_stack_top (ctx (tk s3 n)) =? 0)) (fun x => Cpu (current x) (idle x) (kernel_stack_top (ctx (tk s3 n))) (cr3_reg x)) s3 Z3)
    as (T4 & M4 & Z4 & C4); [done |]. cbv zeta in *. set (s4 := if negb (kernel_stack_top _ =? 0) then _ else s3) in *. clearbody s4.
  destruct (Keep (negb (cr3 (ctx (tk s4 n)) =? 0) && negb (cr3 (ctx (tk s4 n)) =? cr3 (ctx (tk s4 prev))))
    (fun x => Cpu (current x) (idle x) (tss_esp0 x) (cr3 (ctx (tk s4 n)))) s4 Z4) as (T5 & M5 & Z5 & C5); [done |].
  split; [exact Z5 |]. destruct E2 as (T2 & M2). split; [congruence |]. split.
  - intros i. unfold tk at 1. by rewrite T5, T4, T3, T2.
  - intros d Rd. destruct (C5 d Rd) as (-> & ->), (C4 d Rd) as (-> & ->). unfold cp in *. rewrite C3. by apply C2.
Qed.

Lemma schedule_spec s c prev : sized s -> processor c -> (g_smp_ready s = true \/ c = 0) -> current (cp s c) = Some prev ->
  slot prev -> slot (choice c prev s) -> scheduled c prev (choice c prev s) s (schedule c s).
Proof.
  intros Sz Rc Sm Cu Rp Rn. assert (Ec : (if g_smp_ready s then c else 0) = c) by (destruct Sm as [-> | ->]; [done | by destruct (g_smp_ready s)]).
  assert (E : schedule c s = if choice c prev s =? prev then upd prev (fun t => set_cpu c (set_state RUNNING t)) (demote prev s)
    else dispatch c prev (choice c prev s) (demote prev s)).
  { unfold schedule. rewrite Ec, Cu. cbv zeta. cbn [default]. unfold choice. by rewrite cp_demote. }
  rewrite E. clear E. set (n := choice c prev s) in *. pose proof (sized_demote prev s Sz) as Sd.
  assert (Tn : set_cpu c (set_state RUNNING (tk (demote prev s) n)) = set_cpu c (set_state RUNNING (tk s n)) ).
  { rewrite tk_demote by done. case_bool_decide as B; [destruct B as (-> & _) |]; done. }
  destruct (Z.eqb_spec n prev) as [E | N].
  - split.
    + auto with advent.
    + apply smp_demote.
    + exists (switches_in (tk s n)). rewrite E in Tn |- *. rewrite tk_upd_eq by done. rewrite Tn. by destruct (tk s prev).
    + intros i Ri Ni. rewrite tk_upd_ne by (done || congruence). done.
    + intros d Rd. rewrite cp_upd, cp_demote. destruct (Z.eqb_spec d c) as [-> | _]; [congruence | done].
    + intros d Rd. by rewrite cp_upd, cp_demote.
  - destruct (dispatch_spec (demote prev s) c prev n Sd Rc Rn) as (Z5 & M5 & T5 & C5). split.
    + exact Z5.
    + rewrite M5. apply smp_demote.
    + eexists. rewrite T5, tk_upd_eq by done. by rewrite Tn.
    + intros i Ri Ni. rewrite T5, tk_upd_ne by (done || congruence). done.
    + intros d Rd. destruct (C5 d Rd) as (-> & _). by rewrite cp_demote.
    + intros d Rd. destruct (C5 d Rd) as (_ & ->). by rewrite cp_demote.
Qed.

(** ** Safety: no task runs on two processors *)

Record safe s (l : list Z) : Prop := {
  sf_sized : sized s;
  sf_ring : ring s 0 l;
  sf_on : forall i, i ∈ 0 :: l -> is_idle (tk s i) = false /\ state (tk s i) <> UNUSED;
  sf_off : forall i, slot i -> i ∉ 0 :: l -> next (tk s i) = None /\ state (tk s i) <> READY;
  sf_cur : forall c t, processor c -> current (cp s c) = Some t ->
    slot t /\ state (tk s t) <> READY /\ (cpu_pin (tk s t) = -1 \/ cpu_pin (tk s t) = c) /\ (t ∈ 0 :: l \/ idle (cp s c) = Some t);
  sf_one : forall c d t, processor c -> processor d -> current (cp s c) = Some t -> current (cp s d) = Some t -> c = d;
  sf_run : forall i, slot i -> state (tk s i) = RUNNING -> is_idle (tk s i) = false ->
    processor (cpu (tk s i)) /\ current (cp s (cpu (tk s i))) = Some i;
  sf_idle : forall c t, processor c -> idle (cp s c) = Some t ->
    slot t /\ (t ∉ 0 :: l) /\ is_idle (tk s t) = true /\ cpu_pin (tk s t) = c /\ state (tk s t) = RUNNING;
  sf_has_idle : forall c, processor c -> current (cp s c) <> None -> idle (cp s c) = None -> c = 0;
  sf_kmain : cpu_pin (tk s 0) = 0 }.

Lemma ring_slot s x l i : ring s x l -> i ∈ x :: l -> slot i.
Proof. intros [_ _ R] I. rewrite Forall_forall in R. by apply R. Qed.

Lemma ring_next s s' x l : (forall i, slot i -> next (tk s' i) = next (tk s i)) -> ring s x l -> ring s' x l.
Proof. intros E R. split; [| apply R | apply R]. apply (path_ext s); [| apply R]. intros i I. apply E. by eapply ring_slot. Qed.

Lemma next_demote s prev i : sized s -> slot prev -> slot i -> next (tk (demote prev s) i) = next (tk s i).
Proof. intros. rewrite tk_demote by done. case_bool_decide as B; [by destruct B as (-> & _) | done]. Qed.

Lemma pickable_demote s prev i c : sized s -> slot prev -> slot i -> pickable_by (demote prev s) i c = true ->
  (cpu_pin (tk s i) = -1 \/ cpu_pin (tk s i) = c) /\ (i = prev \/ state (tk s i) = READY).
Proof.
  intros Sz Rp Ri. unfold pickable_by. rewrite tk_demote by done. rewrite andb_true_iff, orb_true_iff, !Z.eqb_eq, bool_decide_eq_true.
  case_bool_decide as B; [destruct B as (-> & _); cbn; tauto | tauto].
Qed.

Lemma pick_some s x l c n : ring s x l -> pick_next_ready (Some x) c s = Some n -> n ∈ x :: l /\ pickable_by s n c = true.
Proof.
  intros R. rewrite (pick_next_ready_ring _ _ _ _ R). unfold first_pick. intros F. apply find_some in F as (I & P). split; [| done].
  apply list_elem_of_In in I. apply elem_of_app in I as [I | I]; apply elem_of_cons; [by right | left; by apply list_elem_of_singleton in I].
Qed.

Lemma safe_pick s l c prev n : safe s l -> processor c -> current (cp s c) = Some prev ->
  pick_next_ready (if is_idle (tk (demote prev s) prev) then None else Some prev) c (demote prev s) = Some n ->
  slot n /\ pickable_by (demote prev s) n c = true.
Proof.
  intros S Rc Cu. destruct (sf_cur _ _ S c prev Rc Cu) as (Rp & _ & _ & M). pose proof (sf_sized _ _ S) as Sz.
  assert (Id : is_idle (tk (demote prev s) prev) = is_idle (tk s prev)) by (rewrite tk_demote by done; by case_bool_decide). rewrite Id.
  destruct (is_idle (tk s prev)) eqn:I.
  - intros E. change (pick_next_ready None c (demote prev s)) with (zfind 32 0 (fun i => pickable_by (demote prev s) i c)) in E.
    apply zfind_Some in E as (R & P & _). split; [unfold slot, TASK_MAX; lia | done].
  - destruct M as [M | M]; [| by destruct (sf_idle _ _ S c prev Rc M) as (_ & _ & B & _); congruence].
    destruct (ring_at _ _ _ _ (sf_ring _ _ S) M) as (l' & R & Pm). intros E.
    assert (Rd : ring (demote prev s) prev l') by (apply (ring_next s); [intros; by apply next_demote | done]).
    destruct (pick_some _ _ _ _ _ Rd E) as (In & P). split; [by eapply ring_slot | done].
Qed.

(** The task chosen for [c] may run there and runs nowhere else. *)
Lemma choice_safe s l c prev : safe s l -> processor c -> current (cp s c) = Some prev ->
  let n := choice c prev s in
  slot n /\ (cpu_pin (tk s n) = -1 \/ cpu_pin (tk s n) = c) /\ (n ∈ 0 :: l \/ idle (cp s c) = Some n) /\
  forall d, processor d -> current (cp s d) = Some n -> d = c.
Proof.
  intros S Rc Cu. destruct (sf_cur _ _ S c prev Rc Cu) as (Rp & _ & _ & M). pose proof (sf_sized _ _ S) as Sz. cbv zeta. unfold choice.
  destruct (pick_next_ready _ c (demote prev s)) as [n|] eqn:E.
  - destruct (safe_pick _ _ _ _ _ S Rc Cu E) as (Rn & P). destruct (pickable_demote _ _ _ _ Sz Rp Rn P) as (Pin & [-> | St]).
    + split; [done |]. split; [done |]. split; [done |]. intros d Rd Cd. by apply (sf_one _ _ S d c prev).
    + split; [done |]. split; [done |]. split; [| intros d Rd Cd; by destruct (sf_cur _ _ S d n Rd Cd) as (_ & N & _)].
      left. destruct (decide (n ∈ 0 :: l)) as [I | I]; [done |]. by destruct (sf_off _ _ S n Rn I).
  - destruct (idle (cp s c)) as [t|] eqn:Ei; cbn [default].
    + destruct (sf_idle _ _ S c t Rc Ei) as (Rt & Nt & _ & Pin & _). split; [done |]. split; [by right |]. split; [by right |].
      intros d Rd Cd. destruct (sf_cur _ _ S d t Rd Cd) as (_ & _ & [P | P] & _); unfold processor in *; lia.
    + assert (c = 0) as -> by (apply (sf_has_idle _ _ S); [done | by rewrite Cu | done]). split; [unfold slot, TASK_MAX; lia |].
      split; [right; exact (sf_kmain _ _ S) |]. split; [left; apply list_elem_of_here |].
      intros d Rd Cd. destruct (sf_cur _ _ S d 0 Rd Cd) as (_ & _ & [P | P] & _); rewrite (sf_kmain _ _ S) in P; lia.
Qed.

Lemma safe_schedule s l c : safe s l -> processor c -> (g_smp_ready s = true \/ c = 0) -> current (cp s c) <> None -> safe (schedule c s) l.
Proof.
  intros S Rc Sm Cn. destruct (current (cp s c)) as [prev|] eqn:Cu; [clear Cn | done]. pose proof (sf_sized _ _ S) as Sz.
  destruct (sf_cur _ _ S c prev Rc Cu) as (Rp & Sp & Pp & Mp). destruct (choice_safe _ _ _ _ S Rc Cu) as (Rn & Pn & Mn & One).
  destruct (schedule_spec s c prev Sz Rc Sm Cu Rp Rn) as [Z1 M1 (k & Tn) Tr Cr Ir]. set (n := choice c prev s) in *.
  assert (Tk : forall i, slot i -> next (tk (schedule c s) i) = next (tk s i) /\ is_idle (tk (schedule c s) i) = is_idle (tk s i) /\
    cpu_pin (tk (schedule c s) i) = cpu_pin (tk s i)).
  { intros i Ri. destruct (decide (i = n)) as [-> | N]; [by rewrite Tn |]. rewrite Tr, tk_demote by done.
    case_bool_decide as B; [by destruct B as (-> & _) | done]. }
  assert (St : forall i, slot i -> state (tk (schedule c s) i) = if bool_decide (i = n) then RUNNING
    else if bool_decide (i = prev /\ state (tk s prev) = RUNNING /\ is_idle (tk s prev) = false) then READY else state (tk s i)).
  { intros i Ri. case_bool_decide as B; [by rewrite B, Tn |]. rewrite Tr, tk_demote by done. by case_bool_decide. }
  assert (Sl : forall i, i ∈ 0 :: l -> slot i) by (intros i I; eapply ring_slot; [exact (sf_ring _ _ S) | done]).
  split.
  - done.
  - apply (ring_next s); [intros i Ri; by apply Tk | exact (sf_ring _ _ S)].
  - intros i I. specialize (Sl i I). destruct (Tk i Sl) as (_ & -> & _), (sf_on _ _ S i I) as (Id & U). split; [done |].
    rewrite St by done. by repeat case_bool_decide.
  - intros i Ri I. destruct (Tk i Ri) as (-> & _), (sf_off _ _ S i Ri I) as (Nx & U). split; [done |]. rewrite St by done.
    case_bool_decide as B; [done |]. case_bool_decide as B'; [| done]. destruct B' as (-> & _ & Id).
    destruct Mp as [Mp | Mp]; [done |]. destruct (sf_idle _ _ S c prev Rc Mp) as (_ & _ & B' & _). congruence.
  - intros d t Rd. rewrite Cr, Ir by done. destruct (Z.eqb_spec d c) as [-> | Nd].
    + intros [= <-]. destruct (Tk n Rn) as (_ & _ & ->). split; [done |]. rewrite St, bool_decide_eq_true_2 by done. done.
    + intros Cd. destruct (sf_cur _ _ S d t Rd Cd) as (Rt & Ns & Pt & Mt). destruct (Tk t Rt) as (_ & _ & ->). split; [done |].
      split; [| done]. rewrite St by done. case_bool_decide as B; [done |]. case_bool_decide as B'; [| done]. destruct B' as (-> & _).
      by destruct (Nd (sf_one _ _ S d c prev Rd Rc Cd Cu)).
  - intros d d' t Rd Rd'. rewrite !Cr by done. destruct (Z.eqb_spec d c) as [-> | Nd], (Z.eqb_spec d' c) as [-> | Nd']; [done | | |].
    + intros [= <-] Cd. symmetry. by apply One.
    + intros Cd [= <-]. by apply One.
    + intros Cd Cd'. by apply (sf_one _ _ S d d' t).
  - intros i Ri. destruct (Tk i Ri) as (_ & -> & _). rewrite St by done. case_bool_decide as B.
    + intros _ Id. subst i. rewrite Tn. cbn [cpu set_switches_in set_cpu]. split; [done |]. by rewrite Cr, Z.eqb_refl.
    + case_bool_decide as B'; [done |]. intros Ru Id. rewrite Tr, tk_demote, bool_decide_eq_false_2 by done.
      destruct (sf_run _ _ S i Ri Ru Id) as (Rd & Cd). split; [done |]. rewrite Cr by done.
      destruct (Z.eqb_spec (cpu (tk s i)) c) as [E | _]; [| done]. destruct B'. rewrite E, Cu in Cd. injection Cd as ->. done.
  - intros d t Rd. rewrite Ir by done. intros Id. destruct (sf_idle _ _ S d t Rd Id) as (Rt & Nt & It & Pt & Ut).
    destruct (Tk t Rt) as (_ & -> & ->). split; [done |]. split; [done |]. split; [done |]. split; [done |]. rewrite St by done.
    case_bool_decide; [done |]. case_bool_decide as B'; [| done]. destruct B' as (<- & _ & B'). congruence.
  - intros d Rd. rewrite Cr, Ir by done. destruct (Z.eqb_spec d c) as [-> | _]; [intros _; apply (sf_has_idle _ _ S); [done | by rewrite Cu] | by apply (sf_has_idle _ _ S)].
  - destruct (Tk 0) as (_ & _ & ->); [unfold slot, TASK_MAX; lia | exact (sf_kmain _ _ S)].
Qed.

(** The task that runs on no processor. *)
Definition off_cpu s (t : Z) : Prop := forall c, processor c -> current (cp s c) <> Some t.

(** A write to one task that leaves the ring alone. *)
Lemma safe_change s l t f : safe s l -> slot t ->
  let x := tk s t in let y := f x in
  (t ∈ 0 :: l -> next y = next x /\ is_idle y = false /\ state y <> UNUSED) ->
  (t ∉ 0 :: l -> next y = None /\ state y <> READY) ->
  (off_cpu s t \/ (state y <> READY /\ cpu_pin y = cpu_pin x)) ->
  (state y = RUNNING -> is_idle y = false -> state x = RUNNING /\ is_idle x = false /\ cpu y = cpu x) ->
  ((forall c, processor c -> idle (cp s c) <> Some t) \/ (is_idle y = true /\ cpu_pin y = cpu_pin x /\ state y = RUNNING)) ->
  (t = 0 -> cpu_pin y = cpu_pin x) ->
  safe (upd t f s) l.
Proof.
  intros S Rt x y On Off Cur Run Idl Zero. pose proof (sf_sized _ _ S) as Sz.
  assert (Tk : forall i, slot i -> tk (upd t f s) i = if t =? i then y else tk s i) by (intros; by apply tk_upd).
  assert (Sl : forall i, i ∈ 0 :: l -> slot i) by (intros i I; eapply ring_slot; [exact (sf_ring _ _ S) | done]).
  split.
  - by apply sized_upd.
  - destruct (sf_ring _ _ S) as [P N R]. split; [| done | done]. apply (path_ext s); [| done]. intros i I. rewrite Tk by (by apply Sl).
    destruct (Z.eqb_spec t i) as [<- | _]; [by apply On | done].
  - intros i I. rewrite Tk by (by apply Sl). destruct (Z.eqb_spec t i) as [<- | _]; [by apply On | by apply (sf_on _ _ S)].
  - intros i Ri I. rewrite Tk by done. destruct (Z.eqb_spec t i) as [<- | _]; [by apply Off | by apply (sf_off _ _ S)].
  - intros c i Rc C. destruct (sf_cur _ _ S c i Rc C) as (Ri & Si & Pi & Mi). rewrite Tk by done.
    destruct (Z.eqb_spec t i) as [<- | _]; [| done]. destruct Cur as [O | (Y & Py)]; [by destruct (O c Rc) |]. rewrite Py. done.
  - intros c d i Rc Rd. by apply (sf_one _ _ S).
  - intros i Ri. rewrite Tk by done. destruct (Z.eqb_spec t i) as [<- | _]; [| by apply (sf_run _ _ S)].
    intros R1 R2. destruct (Run R1 R2) as (R3 & R4 & ->). by apply (sf_run _ _ S).
  - intros c i Rc I. destruct (sf_idle _ _ S c i Rc I) as (Ri & Ni & Ii & Pi & Ui). rewrite Tk by done. destruct (Z.eqb_spec t i) as [<- | _]; [| done].
    destruct Idl as [N | (Y1 & Y2 & Y3)]; [by destruct (N c Rc) |]. rewrite Y2. done.
  - by apply (sf_has_idle _ _ S).
  - rewrite Tk by (unfold slot, TASK_MAX; lia). destruct (Z.eqb_spec t 0) as [-> | _]; [rewrite Zero by done |]; exact (sf_kmain _ _ S).
Qed.

(** Pointers of the ring changed, and nothing else. *)
Lemma safe_relink s l s' l' : safe s l -> sized s' -> g_cpus s' = g_cpus s ->
  (forall i, slot i -> tk s' i = set_next (next (tk s' i)) (tk s i)) -> ring s' 0 l' ->
  (forall i, i ∈ 0 :: l' -> i ∈ 0 :: l \/ (is_idle (tk s i) = false /\ state (tk s i) <> UNUSED)) ->
  (forall i, slot i -> i ∉ 0 :: l' -> next (tk s' i) = None /\ state (tk s i) <> READY) ->
  (forall i, i ∈ 0 :: l -> i ∈ 0 :: l' \/ off_cpu s i) ->
  safe s' l'.
Proof.
  intros S Sz' Ec Tk R Inn Out Keep. assert (Cp : forall c, cp s' c = cp s c) by (intros; unfold cp; by rewrite Ec).
  assert (Sl' : forall i, i ∈ 0 :: l' -> slot i) by (intros i I; eapply ring_slot; [exact R | done]).
  assert (Ff : forall i, slot i -> state (tk s' i) = state (tk s i) /\ is_idle (tk s' i) = is_idle (tk s i) /\ cpu (tk s' i) = cpu (tk s i) /\ cpu_pin (tk s' i) = cpu_pin (tk s i)).
  { intros i Ri. by rewrite Tk. }
  split; [done | done | | | | | | | |].
  - intros i I. destruct (Ff i (Sl' i I)) as (-> & -> & _). destruct (Inn i I) as [I' | I']; [by apply (sf_on _ _ S) | done].
  - intros i Ri I. destruct (Ff i Ri) as (-> & _). by apply Out.
  - intros c i Rc. rewrite Cp. intros C. destruct (sf_cur _ _ S c i Rc C) as (Ri & Si & Pi & Mi). destruct (Ff i Ri) as (-> & _ & _ & ->).
    split; [done |]. split; [done |]. split; [done |]. destruct Mi as [Mi | Mi]; [| by right]. destruct (Keep i Mi) as [K | K]; [by left | by destruct (K c Rc)].
  - intros c d i Rc Rd. rewrite !Cp. by apply (sf_one _ _ S).
  - intros i Ri. destruct (Ff i Ri) as (-> & -> & -> & _). rewrite Cp. by apply (sf_run _ _ S).
  - intros c i Rc. rewrite Cp. intros I. destruct (sf_idle _ _ S c i Rc I) as (Ri & Ni & Ii & Pi & Ui). destruct (Ff i Ri) as (-> & -> & _ & ->).
    split; [done |]. split; [| done]. intros In. destruct (Inn i In) as [In' | (In' & _)]; [done | congruence].
  - intros c Rc. rewrite Cp. by apply (sf_has_idle _ _ S).
  - destruct (Ff 0) as (_ & _ & _ & ->); [unfold slot, TASK_MAX; lia | exact (sf_kmain _ _ S)].
Qed.

(** A task of the ring is no processor's idle task. *)
Lemma ring_not_idle s l t : safe s l -> is_idle (tk s t) = false -> forall c, processor c -> idle (cp s c) <> Some t.
Proof. intros S I c Rc E. destruct (sf_idle _ _ S c t Rc E) as (_ & _ & I' & _). congruence. Qed.

Lemma safe_suspend s l t st : safe s l -> slot t -> st <> READY -> st <> UNUSED -> st <> RUNNING -> is_idle (tk s t) = false ->
  safe (upd t (set_state st) s) l.
Proof.
  intros S Rt N1 N2 N3 I. apply safe_change; cbn [next is_idle state cpu_pin set_state]; try done.
  - intros In. by destruct (sf_off _ _ S t Rt In).
  - by right.
  - left. by eapply ring_not_idle.
Qed.

Lemma safe_wake s l t : safe s l -> slot t -> next (tk s t) <> None -> off_cpu s t -> safe (task_make_runnable (Some t) s) l.
Proof.
  intros S Rt N O. assert (In : t ∈ 0 :: l).
  { destruct (decide (t ∈ 0 :: l)) as [I | I]; [done |]. by destruct (sf_off _ _ S t Rt I). }
  destruct (sf_on _ _ S t In) as (I & U). apply safe_change; cbn [next is_idle state cpu_pin set_state]; try done.
  - by left.
  - left. by eapply ring_not_idle.
Qed.

(** A task outside the ring that is not anyone's idle task. *)
Lemma safe_reset s l t f : safe s l -> slot t -> t ∉ 0 :: l -> is_idle (tk s t) = false \/ state (tk s t) <> RUNNING -> off_cpu s t ->
  next (f (tk s t)) = None -> state (f (tk s t)) = BLOCKED \/ state (f (tk s t)) = UNUSED -> safe (upd t f s) l.
Proof.
  intros S Rt N I O Nx B. assert (B' : state (f (tk s t)) <> RUNNING /\ state (f (tk s t)) <> READY) by (by destruct B as [-> | ->]).
  destruct B'. apply safe_change; try done.
  - by left.
  - left. intros c Rc E. destruct (sf_idle _ _ S c t Rc E) as (_ & _ & I' & _ & U). destruct I; congruence.
  - intros ->. destruct N. apply list_elem_of_here.
Qed.

Lemma upd_twice s t f g : sized s -> slot t -> upd t f (upd t g s) = upd t (fun x => f (g x)) s.
Proof.
  intros Sz Rt. unfold upd at 1. rewrite tk_upd_eq by done. unfold upd, set_tasks. cbn. by rewrite zset_zset.
Qed.

Lemma off_ring_idle s l t : safe s l -> slot t -> is_idle (tk s t) = false \/ state (tk s t) <> RUNNING -> forall c, processor c -> idle (cp s c) <> Some t.
Proof. intros S Rt I c Rc E. destruct (sf_idle _ _ S c t Rc E) as (_ & _ & I' & _ & U). destruct I; congruence. Qed.

(** The ring seen from 0 when it is known from another task. *)
Lemma ring_from_zero s x l : ring s x l -> 0 ∈ x :: l -> exists l', ring s 0 l' /\ forall i, i ∈ 0 :: l' <-> i ∈ x :: l.
Proof. intros R I. destruct (ring_at _ _ _ _ R I) as (l' & R' & Pm). exists l'. split; [done |]. intros i. by rewrite Pm. Qed.

Lemma safe_insert s l cur t : safe s l -> cur ∈ 0 :: l -> slot t -> t ∉ 0 :: l -> is_idle (tk s t) = false -> state (tk s t) = BLOCKED ->
  exists l', safe (ring_insert cur t s) l' /\ forall i, i ∈ 0 :: l' <-> i = t \/ i ∈ 0 :: l.
Proof.
  intros S Ic Rt Nt It Bt. pose proof (sf_sized _ _ S) as Sz. assert (Rc : slot cur) by (eapply ring_slot; [exact (sf_ring _ _ S) | done]).
  destruct (ring_at _ _ _ _ (sf_ring _ _ S) Ic) as (l1 & R1 & Pm). assert (Nc : cur <> t) by (intros ->; done).
  assert (Nt1 : t ∉ cur :: l1) by (by rewrite Pm). pose proof (ring_insert_ring s cur t l1 Sz R1 Rt Nt1) as R2.
  assert (M2 : forall i, i ∈ cur :: t :: l1 <-> i = t \/ i ∈ 0 :: l).
  { intros i. rewrite <- Pm, !elem_of_cons. tauto. }
  destruct (ring_from_zero _ _ _ R2) as (l' & R' & M'); [apply M2; right; apply list_elem_of_here |].
  assert (M : forall i, i ∈ 0 :: l' <-> i = t \/ i ∈ 0 :: l) by (intros i; by rewrite M', M2). exists l'. split; [| exact M].
  assert (Tk : forall i, slot i -> tk (ring_insert cur t s) i = if i =? cur then set_next (Some t) (tk s cur) else
    if i =? t then set_next (Some (default cur (next (tk s cur)))) (tk s t) else tk s i) by (intros; by apply ring_insert_tk).
  apply (safe_relink s l); try done.
  - unfold ring_insert. cbv zeta. by apply sized_upd, sized_upd.
  - intros i Ri. rewrite Tk by done. destruct (Z.eqb_spec i cur) as [-> | _]; [done |]. destruct (Z.eqb_spec i t) as [-> | _]; [done |]. by destruct (tk s i).
  - intros i I. apply M in I as [-> | I]; [right; split; [done | by rewrite Bt] | by left].
  - intros i Ri I. assert (Ni : i <> t /\ i ∉ 0 :: l) by (split; intros X; apply I, M; [by left | by right]). destruct Ni as (Ni & Nl).
    rewrite Tk by done. rewrite (proj2 (Z.eqb_neq i t)) by done. destruct (Z.eqb_spec i cur) as [-> | _]; [done |]. by apply (sf_off _ _ S).
  - intros i I. left. apply M. by right.
Qed.

Lemma safe_remove s l t : safe s l -> t ∈ l -> off_cpu s t -> state (tk s t) <> READY ->
  exists l', safe (upd t (set_next None) (ring_remove t s)) l' /\ (forall i, i ∈ 0 :: l' <-> i <> t /\ i ∈ 0 :: l) /\
    sized (ring_remove t s) /\ tk (upd t (set_next None) (ring_remove t s)) t = set_next None (tk s t).
Proof.
  intros S It O Nr. pose proof (sf_sized _ _ S) as Sz. pose proof (sf_ring _ _ S) as R0. pose proof (rg_nodup _ _ _ R0) as Nd.
  assert (Nt0 : t <> 0) by (apply NoDup_cons in Nd as (N & _); intros ->; done).
  destruct (ring_at _ _ _ t R0) as (l1 & R1 & Pm); [by apply list_elem_of_further |].
  assert (Rt : slot t) by (eapply ring_slot; [exact R1 | apply list_elem_of_here]). pose proof (rg_nodup _ _ _ R1) as Nd1. apply NoDup_cons in Nd1 as (Nt1 & Nd1).
  assert (I0 : 0 ∈ l1). { assert (I : 0 ∈ t :: l1) by (rewrite Pm; apply list_elem_of_here). apply elem_of_cons in I as [I | I]; [congruence | done]. }
  destruct (exists_last (l := l1)) as (l2 & p & ->); [intros ->; by apply elem_of_nil in I0 |].
  destruct (ring_remove_ring s t l2 p Sz R1) as (E & R2). assert (Rp : slot p) by (eapply ring_slot; [exact R2 | apply list_elem_of_here]).
  assert (Npt : p <> t) by (intros ->; apply Nt1, elem_of_app; right; by apply list_elem_of_singleton).
  set (s' := upd t (set_next None) (ring_remove t s)).
  assert (Sz1 : sized (ring_remove t s)) by (rewrite E; by apply sized_upd).
  assert (Tk : forall i, slot i -> tk s' i = if i =? t then set_next None (tk s t) else if i =? p then set_next (next (tk s t)) (tk s p) else tk s i).
  { intros i Ri. unfold s'. rewrite tk_upd by done. rewrite E, !tk_upd by done. rewrite (Z.eqb_sym t i), (Z.eqb_sym p i).
    rewrite (proj2 (Z.eqb_neq p t)) by done. done. }
  assert (R2' : ring s' p l2).
  { destruct R2 as [P2 N2 F2]. split; [| done | done]. apply (path_ext (ring_remove t s)); [| done]. intros i I.
    rewrite Forall_forall in F2. unfold s'. rewrite tk_upd_ne; [done | done | done | by apply F2 |]. intros ->.
    apply Nt1. apply elem_of_cons in I as [-> | I]; [done |]. apply elem_of_app. by left. }
  assert (M2 : forall i, i ∈ p :: l2 <-> i <> t /\ i ∈ 0 :: l).
  { intros i. rewrite <- Pm, !elem_of_cons, elem_of_app, list_elem_of_singleton. split.
    - intros I. split; [| tauto]. intros ->. destruct I as [I | I]; [congruence |]. apply Nt1, elem_of_app. by left.
    - intros (N & [-> | [I | ->]]); [done | by right | by left]. }
  destruct (ring_from_zero _ _ _ R2') as (l' & R' & M'); [apply M2; split; [congruence | apply list_elem_of_here] |].
  assert (M : forall i, i ∈ 0 :: l' <-> i <> t /\ i ∈ 0 :: l) by (intros i; by rewrite M', M2). exists l'.
  split; [| split; [exact M | split; [exact Sz1 | by rewrite (Tk t Rt), Z.eqb_refl]]].
  apply (safe_relink s l); try done.
  - unfold s'. by apply sized_upd.
  - unfold s'. rewrite E. done.
  - intros i Ri. rewrite Tk by done. destruct (Z.eqb_spec i t) as [-> | _]; [done |]. destruct (Z.eqb_spec i p) as [-> | _]; [done |]. by destruct (tk s i).
  - intros i I. apply M in I as (_ & I). by left.
  - intros i Ri I. rewrite Tk by done. destruct (Z.eqb_spec i t) as [-> | N]; [done |].
    assert (Ni : i ∉ 0 :: l) by (intros X; apply I, M; done). destruct (Z.eqb_spec i p) as [-> | _]; [| by apply (sf_off _ _ S)].
    destruct Ni. apply M2, list_elem_of_here.
  - intros i I. destruct (decide (i = t)) as [-> | N]; [by right | left; by apply M].
Qed.

Lemma processorb_spec c : processorb c = true <-> processor c.
Proof. unfold processorb, processor. rewrite andb_true_iff, Z.leb_le, Z.ltb_lt. tauto. Qed.

Lemma slotb_spec t : slotb t = true <-> slot t.
Proof. unfold slotb, slot. rewrite andb_true_iff, Z.leb_le, Z.ltb_lt. tauto. Qed.

Lemma off_cpub_spec s t : off_cpub s t = true -> off_cpu s t.
Proof.
  unfold off_cpub, off_cpu. rewrite forallb_forall. intros F c Rc. specialize (F c). rewrite negb_true_iff, bool_decide_eq_false in F.
  apply F, list_elem_of_In, elem_of_seqZ. unfold processor in Rc. lia.
Qed.

Create Rewrite HintDb guards.
#[local] Hint Rewrite processorb_spec slotb_spec negb_true_iff andb_true_iff orb_true_iff bool_decide_eq_false bool_decide_eq_true Z.eqb_neq Z.eqb_eq : guards.

Lemma safe_boot k : safe (task_init k boot) [].
Proof.
  assert (Sz : sized (task_init k boot)) by (split; reflexivity).
  assert (Tk : forall i, slot i -> i <> 0 -> tk (task_init k boot) i = zero_task).
  { intros i Ri N. unfold tk, task_init. cbn [g_tasks updc set_cpus]. rewrite zget_zset_ne by (unfold slot in Ri; lia). apply zget_zrep. exact Ri. }
  assert (Cp : forall c, processor c -> cp (task_init k boot) c = if c =? 0 then Cpu (Some 0) None 0 0 else Cpu None None 0 0).
  { intros c Rc. unfold task_init. cbv zeta. rewrite cp_updc by (done || (unfold processor, MAX_CPUS in *; lia) || (split; reflexivity)).
    destruct (Z.eqb_spec 0 c) as [<- | N]; [done |]. rewrite (proj2 (Z.eqb_neq c 0)) by congruence. unfold cp. cbn. apply zget_zrep. exact Rc. }
  split.
  - done.
  - split; [reflexivity | apply NoDup_singleton | apply Forall_singleton; unfold TASK_MAX; lia].
  - intros i I. apply list_elem_of_singleton in I as ->. split; [reflexivity | discriminate].
  - intros i Ri I. rewrite Tk; [split; [reflexivity | discriminate] | done |]. intros ->. apply I. by apply list_elem_of_singleton.
  - intros c t Rc. rewrite Cp by done. destruct (Z.eqb_spec c 0) as [-> | _]; [| done]. intros [= <-].
    split; [unfold slot, TASK_MAX; lia |]. split; [discriminate |]. split; [by right |]. left. by apply list_elem_of_singleton.
  - intros c d t Rc Rd. rewrite !Cp by done. destruct (Z.eqb_spec c 0) as [-> | _]; [| done]. by destruct (Z.eqb_spec d 0) as [-> | _].
  - intros i Ri. destruct (decide (i = 0)) as [-> | N]; [| by rewrite Tk]. intros _ _. split; [split; reflexivity || discriminate | reflexivity].
  - intros c t Rc. rewrite Cp by done. by destruct (c =? 0).
  - intros c Rc. rewrite Cp by done. by destruct (Z.eqb_spec c 0) as [-> | _].
  - reflexivity.
Qed.

(** The fields that matter are the same. *)
Lemma safe_same s s' l : safe s l -> sized s' -> g_tasks s' = g_tasks s ->
  (forall d, processor d -> current (cp s' d) = current (cp s d) /\ idle (cp s' d) = idle (cp s d)) -> safe s' l.
Proof.
  intros S Sz E C. assert (Tk : forall i, tk s' i = tk s i) by (intros i; unfold tk; by rewrite E). split.
  - done.
  - apply (ring_next s); [intros; by rewrite Tk | exact (sf_ring _ _ S)].
  - intros i. rewrite Tk. exact (sf_on _ _ S i).
  - intros i. rewrite Tk. exact (sf_off _ _ S i).
  - intros c t Rc. destruct (C c Rc) as (-> & ->). rewrite Tk. exact (sf_cur _ _ S c t Rc).
  - intros c d t Rc Rd. rewrite (proj1 (C c Rc)), (proj1 (C d Rd)). by apply (sf_one _ _ S).
  - intros i Ri. rewrite Tk. intros R I. destruct (sf_run _ _ S i Ri R I) as (Rc & Cu). split; [done |]. by rewrite (proj1 (C _ Rc)).
  - intros c t Rc. rewrite (proj2 (C c Rc)), Tk. by apply (sf_idle _ _ S).
  - intros c Rc. destruct (C c Rc) as (-> & ->). by apply (sf_has_idle _ _ S).
  - rewrite Tk. exact (sf_kmain _ _ S).
Qed.

Lemma safe_ap s l c top stack : safe s l -> guard (OApEntry c top stack) s = true -> safe (ap_entry c top stack s) l.
Proof.
  intros S G. cbn [guard] in G. autorewrite with guards in G. destruct G as (((Rc & Nc) & Cu) & Id). pose proof (sf_sized _ _ S) as Sz.
  unfold ap_entry, task_init_ap_idle in *. destruct (zfind _ 1 _) as [i|] eqn:E; [| apply (safe_same s); try done; [by apply sized_updc |]].
  2: { intros d Rd. rewrite cp_updc by done. destruct (Z.eqb_spec c d) as [<- | _]; [by rewrite Cu, Id | done]. }
  apply zfind_Some in E as (Ri & U & _). apply bool_decide_eq_true in U. change (Z.of_nat (Z.to_nat (TASK_MAX - 1))) with 31 in Ri.
  assert (Si : slot i) by (unfold slot, TASK_MAX; lia). cbv iota beta. set (x := Task _ _ _ _ _ _ _ _ _ _ _).
  assert (Ni : i ∉ 0 :: l) by (intros I; by destruct (sf_on _ _ S i I)).
  assert (Oi : off_cpu s i).
  { intros d Rd C. destruct (sf_cur _ _ S d i Rd C) as (_ & _ & _ & [M | M]); [done |]. destruct (sf_idle _ _ S d i Rd M) as (_ & _ & _ & _ & B). congruence. }
  assert (Ii : forall d, processor d -> idle (cp s d) <> Some i) by (intros d Rd M; destruct (sf_idle _ _ S d i Rd M) as (_ & _ & _ & _ & B); congruence).
  assert (Tk : forall j, slot j -> tk (upd i (fun _ => x) s) j = if i =? j then x else tk s j) by (intros; by apply tk_upd).
  assert (Cp : forall d, processor d -> cp (updc c (fun y => Cpu (Some i) (Some i) (tss_esp0 y) (cr3_reg y)) (upd i (fun _ => x) s)) d =
    if c =? d then Cpu (Some i) (Some i) (tss_esp0 (cp s c)) (cr3_reg (cp s c)) else cp s d).
  { intros d Rd. rewrite cp_updc by (done || by apply sized_upd). done. }
  assert (Sl : forall j, j ∈ 0 :: l -> slot j /\ i <> j) by (intros j I; split; [eapply ring_slot; [exact (sf_ring _ _ S) | done] | by intros ->]).
  set (s' := updc c _ _) in *. assert (Tk' : forall j, slot j -> tk s' j = if i =? j then x else tk s j) by exact Tk. split.
  - by apply sized_updc, sized_upd.
  - destruct (sf_ring _ _ S) as [P N R]. split; [| done | done]. apply (path_ext s); [| done]. intros j I. destruct (Sl j I).
    by rewrite Tk', (proj2 (Z.eqb_neq i j)).
  - intros j I. destruct (Sl j I). rewrite Tk', (proj2 (Z.eqb_neq i j)) by done. by apply (sf_on _ _ S).
  - intros j Rj I. rewrite Tk' by done. destruct (i =? j); [split; [reflexivity | discriminate] | by apply (sf_off _ _ S)].
  - intros d t Rd. rewrite Cp by done. destruct (Z.eqb_spec c d) as [<- | Nd]; cbn [current idle].
    + intros [= <-]. rewrite Tk', Z.eqb_refl by done. split; [done |]. split; [discriminate |]. split; [by right | by right].
    + intros C. destruct (sf_cur _ _ S d t Rd C) as (Rt & M). rewrite Tk' by done. rewrite (proj2 (Z.eqb_neq i t)); [done |].
      intros ->. by apply (Oi d).
  - intros d d' t Rd Rd'. rewrite !Cp by done. destruct (Z.eqb_spec c d) as [<- | Nd], (Z.eqb_spec c d') as [<- | Nd']; cbn [current]; [done | | |].
    + intros [= <-] C. by destruct (Oi d' Rd').
    + intros C [= <-]. by destruct (Oi d Rd).
    + by apply (sf_one _ _ S).
  - intros j Rj. rewrite Tk' by done. destruct (Z.eqb_spec i j) as [<- | Nj]; [done |]. intros B1 B2.
    destruct (sf_run _ _ S j Rj B1 B2) as (Rd & C). split; [done |]. rewrite Cp by done.
    destruct (Z.eqb_spec c (cpu (tk s j))) as [E | _]; [congruence | done].
  - intros d t Rd. rewrite Cp by done. destruct (Z.eqb_spec c d) as [<- | Nd]; cbn [idle].
    + intros [= <-]. rewrite Tk', Z.eqb_refl by done. done.
    + intros M. destruct (sf_idle _ _ S d t Rd M) as (Rt & Mt). rewrite Tk' by done. rewrite (proj2 (Z.eqb_neq i t)); [done |].
      intros ->. by apply (Ii d).
  - intros d Rd. rewrite Cp by done. destruct (c =? d); [done | by apply (sf_has_idle _ _ S)].
  - rewrite Tk' by (unfold slot, TASK_MAX; lia). rewrite (proj2 (Z.eqb_neq i 0)) by lia. exact (sf_kmain _ _ S).
Qed.

(** Every operation keeps the table safe; the ring changes only as [OSplice] and [OReap] say. *)
Lemma safe_run s l o : safe s l -> guard o s = true -> hazard o s = false ->
  exists l', safe (run o s) l' /\ forall i, i ∈ 0 :: l' <->
    match o with OSplice c t x => i = t \/ i ∈ 0 :: l | OReap t => i <> t /\ i ∈ 0 :: l | _ => i ∈ 0 :: l end.
Proof.
  intros S G Hz. pose proof (sf_sized _ _ S) as Sz. assert (In : forall t, slot t -> next (tk s t) <> None -> t ∈ 0 :: l).
  { intros t Rt N. destruct (decide (t ∈ 0 :: l)) as [I | I]; [done |]. by destruct (sf_off _ _ S t Rt I). }
  destruct o as [c | c st | t | | c t x | t | c top stack |]; cbn [guard hazard] in G, Hz; autorewrite with guards in G.
  - destruct G as ((Rc & Sm) & Cu). exists l. split; [by apply safe_schedule | done].
  - destruct G as (Rc & G). exists l. split; [| done]. cbn [run]. destruct (current (cp s c)) as [t|] eqn:Cu; [| done]. cbn [default].
    destruct (sf_cur _ _ S c t Rc Cu) as (Rt & _). autorewrite with guards in G. destruct G as ((Ru & I) & G).
    unfold in_states in G. rewrite !bool_decide_eq_true in G.
    apply safe_suspend; try done; intros ->; destruct G as [G | (_ & G)]; repeat (apply elem_of_cons in G as [G | G]; [discriminate G |]); by apply elem_of_nil in G.
  - destruct G as ((Rt & St) & N). exists l. split; [| done]. apply safe_wake; try done. by apply off_cpub_spec, negb_false_iff.
  - exists l. split; [| done]. cbn [run]. unfold claim_slot. destruct (find_free_slot s) as [i|] eqn:F; [| done]. cbn [fst].
    unfold find_free_slot in F. apply zfind_Some in F as (Ri & F & _). apply bool_decide_eq_false in Hz. apply orb_true_iff in F as [Gu%bool_decide_eq_true | Gu%bool_decide_eq_true]; [| done]. change (Z.of_nat (Z.to_nat (TASK_MAX - 1))) with 31 in Ri.
    assert (Si : slot i) by (unfold slot, TASK_MAX; lia). assert (Ni : i ∉ 0 :: l) by (intros I; by destruct (sf_on _ _ S i I)).
    apply safe_reset; try done.
    + right. by rewrite Gu.
    + intros d Rd C. destruct (sf_cur _ _ S d i Rd C) as (_ & _ & _ & [M | M]); [done |]. destruct (sf_idle _ _ S d i Rd M) as (_ & _ & _ & _ & B). congruence.
    + by left.
  - destruct G as (((((((Rc & Rt) & Nc) & Bt) & Nt) & Ix) & Nx) & Bx).
    assert (Nt' : t ∉ 0 :: l). { intros I. destruct (ring_at _ _ _ _ (sf_ring _ _ S) I) as (l' & R & _). rewrite (ring_head _ _ _ R) in Nt. done. }
    assert (O : off_cpu s t).
    { intros d Rd C. destruct (sf_cur _ _ S d t Rd C) as (_ & _ & _ & [M | M]); [done |]. destruct (sf_idle _ _ S d t Rd M) as (_ & _ & _ & _ & B). congruence. }
    assert (Rcur : slot (cpu_current c s)).
    { unfold cpu_current. destruct (g_smp_ready s); [| unfold slot, TASK_MAX; lia]. destruct (current (cp s c)) as [u|] eqn:Cu; cbn [default]; [| unfold slot, TASK_MAX; lia].
      by destruct (sf_cur _ _ S c u Rc Cu). }
    assert (Su : safe (upd t (fun _ => x) s) l) by (apply safe_reset; try done; [right; by rewrite Bt | by left]).
    destruct (safe_insert _ _ (cpu_current c s) t Su) as (l' & S' & M); try done.
    + by apply In.
    + by rewrite tk_upd_eq.
    + by rewrite tk_upd_eq.
    + exists l'. done.
  - destruct G as (((Rt & N0) & Nt) & Dt). apply negb_false_iff, off_cpub_spec in Hz as O. assert (It : t ∈ l) by (specialize (In t Rt Nt); apply elem_of_cons in In as [-> | I]; done).
    assert (Dt' : state (tk s t) = DEAD \/ state (tk s t) = ZOMBIE).
    { destruct Dt as [E | (E & _)]; [by right | by left]. }
    destruct (safe_remove s l t S It O) as (l' & S' & M & Szr & Et); [by destruct Dt' as [-> | ->] |]. exists l'. split; [| exact M].
    assert (E : run (OReap t) s = upd t clear_slot (upd t (set_next None) (ring_remove t s))) by (cbn [run]; rewrite upd_twice by done; reflexivity).
    rewrite E. apply safe_reset; try done.
    + intros I. apply M in I as (I & _). done.
    + rewrite Et. left. by apply (sf_on _ _ S), In.
    + intros d Rd. specialize (O d Rd). rewrite cp_upd. unfold ring_remove. repeat first [rewrite cp_upd | exact O | case_match].
    + by right.
  - exists l. split; [| done]. by apply safe_ap; [| cbn [guard]; autorewrite with guards].
  - exists l. split; [| done]. cbn [run]. destruct S. split; try assumption. by apply (ring_next s).
Qed.

Lemma safe_reachable s : reachable s -> exists l, safe s l.
Proof.
  induction 1 as [k | s o H (l & S) G Hz]; [exists []; apply safe_boot |]. destruct (safe_run s l o S G Hz) as (l' & S' & _). by exists l'.
Qed.

(** C29. No task runs on two processors.  After any sequence, from the boot on, of calls
    of [schedule] on any processor, tasks that block, stop or exit, wake-ups, new tasks
    and reaping, as long as no task was woken or harvested that a processor had not yet
    switched away from and no slot of a dead task was taken (the code excludes neither,
    see [early_wake_runs_twice] and [dead_slot_breaks_ring]): a task is the current one of at most one processor, one
    its pin allows, and is not READY, so that no other processor can pick it; a RUNNING
    task is current on the processor its [cpu] field names; the tasks with a [next]
    pointer form one ring through slot 0, and every READY task is on it. *)
Theorem sched_exclusive k os s : run_all os (task_init k boot) = Some s -> hazards os (task_init k boot) = false ->
  (forall c d t, processor c -> processor d -> current (cp s c) = Some t -> current (cp s d) = Some t -> c = d) /\
  (forall c t, processor c -> current (cp s c) = Some t ->
     slot t /\ state (tk s t) <> READY /\ (cpu_pin (tk s t) = -1 \/ cpu_pin (tk s t) = c)) /\
  (forall t, slot t -> state (tk s t) = RUNNING -> is_idle (tk s t) = false ->
     processor (cpu (tk s t)) /\ current (cp s (cpu (tk s t))) = Some t) /\
  exists l, ring s 0 l /\ forall t, slot t -> (t ∈ 0 :: l <-> next (tk s t) <> None) /\ (state (tk s t) = READY -> t ∈ 0 :: l).
Proof.
  intros Run Hz. destruct (safe_reachable s (reachable_all os _ s (reach_boot k) Run Hz)) as (l & S). split; [exact (sf_one _ _ S) |]. split; [| split; [exact (sf_run _ _ S) |]].
  - intros c t Rc C. destruct (sf_cur _ _ S c t Rc C) as (Rt & N & P & _). done.
  - exists l. split; [exact (sf_ring _ _ S) |]. intros t Rt. split.
    + split.
      * intros I. destruct (ring_at _ _ _ _ (sf_ring _ _ S) I) as (l' & R & _). by rewrite (ring_head _ _ _ R).
      * intros N. destruct (decide (t ∈ 0 :: l)) as [I | I]; [done |]. by destruct (sf_off _ _ S t Rt I).
    + intros E. destruct (decide (t ∈ 0 :: l)) as [I | I]; [done |]. by destruct (sf_off _ _ S t Rt I).
Qed.

(** ** Every ready task runs within one turn of the ring *)














(** ** Witnesses and what the hazards do *)

(** A new task for any processor. *)
Definition fresh (pid : Z) : task := Task pid BLOCKED None 0 (-1) (-1) false 0 0 zero_context zero_resources.

(** One application processor, and two tasks in slots 2 and 3. *)
Definition demo_ops : list op :=
  [OApEntry 1 8192 4096; OSmpReady; OClaim; OSplice 0 2 (fresh 1); OWake 2; OClaim; OSplice 0 3 (fresh 2); OWake 3].

Definition demo_sched : sched := default boot (run_all demo_ops (task_init 65536 boot)).

Lemma demo_sched_reachable : reachable demo_sched.
Proof. apply (reachable_all demo_ops (task_init 65536 boot)); [apply reach_boot | vm_compute; reflexivity..]. Qed.

(** Both processors pick a task. *)
Definition demo_run : list op := demo_ops ++ [OSchedule 1; OSchedule 0; OSuspend 1 BLOCKED; OSchedule 1; OWake 2; OSchedule 1].

Lemma sched_exclusive_witness : exists s, run_all demo_run (task_init 65536 boot) = Some s /\ hazards demo_run (task_init 65536 boot) = false /\
  current (cp s 0) = Some 3 /\ current (cp s 1) = Some 2 /\ cpu (tk s 3) = 0 /\ state (tk s 3) <> READY.
Proof.
  exists (default boot (run_all demo_run (task_init 65536 boot))). split; [vm_compute; reflexivity |]. split; [vm_compute; reflexivity |].
  split; [vm_compute; reflexivity |]. split; [vm_compute; reflexivity |]. split; [vm_compute; reflexivity |].
  destruct (sched_exclusive 65536 demo_run (default boot (run_all demo_run (task_init 65536 boot)))) as (_ & C & _); [vm_compute; reflexivity.. |].
  apply (C 0 3); [split; [discriminate | reflexivity] | vm_compute; reflexivity].
Defined.


(** A task that announced that it waits and is woken before it calls [schedule] is
    picked by another processor while it still runs: [task_wait_current] has no lock
    between the two. *)
Lemma early_wake_runs_twice : exists s, reachable s /\ state (tk s 2) = BLOCKED_ON_CHILD /\ current (cp s 1) = Some 2 /\
  exists s', run_all [OWake 2; OSchedule 0; OSchedule 0] s = Some s' /\ current (cp s' 0) = Some 2 /\ current (cp s' 1) = Some 2.
Proof.
  exists (default boot (run_all [OSchedule 1; OSuspend 1 BLOCKED_ON_CHILD] demo_sched)). split.
  - apply (reachable_all [OSchedule 1; OSuspend 1 BLOCKED_ON_CHILD] demo_sched _ demo_sched_reachable); vm_compute; reflexivity.
  - split; [vm_compute; reflexivity |]. split; [vm_compute; reflexivity |]. eexists. split; [vm_compute; reflexivity |]. vm_compute. done.
Qed.

(** A dead task still in the ring whose slot is taken again: the task before it still
    points to it, so the ring closes behind kmain, which is never picked again. *)
Lemma dead_slot_breaks_ring : exists s, reachable s /\ state (tk s 2) = DEAD /\ state (tk s 3) = READY /\ cpu_current 0 s = 0 /\
  let s' := task_make_runnable (Some 2) (ring_insert 0 2 (fst (claim_slot s))) in
  snd (claim_slot s) = Some 2 /\ next (tk s' 2) = Some 3 /\ next (tk s' 3) = Some 2 /\
  let turn n := schedule 0 (Nat.iter n (schedule 0) s') in
  current (cp (turn 0%nat) 0) = Some 2 /\ current (cp (turn 1%nat) 0) = Some 3 /\ current (cp (turn 2%nat) 0) = Some 2 /\
  state (tk (turn 2%nat) 0) = READY.
Proof.
  set (os := [OSchedule 1; OSuspend 1 DEAD; OSchedule 1; OSuspend 1 BLOCKED; OSchedule 1; OWake 3]).
  exists (default boot (run_all os demo_sched)). split.
  - apply (reachable_all os demo_sched _ demo_sched_reachable); vm_compute; reflexivity.
  - vm_compute. done.
Qed.

(** The fallback of processor 0 ignores the state of kmain. *)
Lemma blocked_kmain_runs : exists s, reachable s /\ state (tk s 0) = BLOCKED /\ state (tk (schedule 0 s) 0) = RUNNING.
Proof.
  exists (default boot (run_all [OSuspend 0 BLOCKED] (task_init 65536 boot))). split.
  - apply (reachable_all [OSuspend 0 BLOCKED] (task_init 65536 boot)); [apply reach_boot | vm_compute; reflexivity..].
  - vm_compute. done.
Qed.

End SCHED.
