(* ===== verification/Proc.v ===== *)
(** Creating, forking, ending and reaping tasks ([kernel/task.c], [task_switch.S]).

    The state is the task table of [Sched], the memory and page tables of [Paging], a
    heap behind the allocator interface of [Alloc], the objects open descriptors
    refer to, behind the interface [Objects], which the pipes of [Pipe] implement, and
    the window registry of [Wm].
    Kernel stacks are words of the same memory as page tables.  An operation returns
    [None] when the heap is corrupt, which the laws of the allocator exclude. *)

From stdpp Require Import base numbers list gmap.
From Stdlib Require Import ZArith Lia.
From S2P Require Import Prelude Bitmap Pmm Kmalloc Memory Alloc Ring Pipe Signal Paging Wm Sched.

(** What descriptors refer to: one more or one fewer user of an object. *)
Class Objects (O : Type) := {
  obj_share : SCHED.fd_kind -> Z -> O -> O;
  obj_drop : SCHED.fd_kind -> Z -> O -> O
}.

(** A user that comes and goes leaves no trace on a live object. *)
Class ObjectsLaws (O : Type) `{Objects O} := {
  obj_live : O -> SCHED.fd_kind -> Z -> Prop;
  share_live : forall o k i, obj_live o k i -> obj_drop k i (obj_share k i o) = o;
  live_share : forall o k i k' i', obj_live o k i -> obj_live (obj_share k' i' o) k i
}.

#[global] Instance pipe_objects : Objects PIPE.pipes := {
  obj_share k i g := match k with SCHED.FD_PIPE_R => PIPE.pipe_inc_read i g | SCHED.FD_PIPE_W => PIPE.pipe_inc_write i g | _ => g end;
  obj_drop k i g := match k with SCHED.FD_PIPE_R => PIPE.pipe_close_read i g | SCHED.FD_PIPE_W => PIPE.pipe_close_write i g | _ => g end
}.

Module PROC.
Import SCHED.

Definition TASK_STACK_SZ : Z := 16384.
Definition USER_HEAP_START : Z := 1075838976.
Definition USER_MMAP_START : Z := 1342177280.

Record machine {H O : Type} := Machine { tab : sched; mm : PAGING.vm; heap : H; objs : O; desk : WM.desktop }.

Arguments machine H O : clear implicits.
Arguments Machine {H O} _ _ _ _ _.

(** ** Kernel stacks *)

(** [*--sp = v] *)
Definition push (v : Z) (x : gmap Z Z * Z) : gmap Z Z * Z := let '(m, sp) := x in (<[sp - 4 := v]> m, sp - 4).

Definition pushes (vs : list Z) (x : gmap Z Z * Z) : gmap Z Z * Z := foldl (fun x v => push v x) x vs.

Definition pop (x : gmap Z Z * Z) : Z * (gmap Z Z * Z) := let '(m, sp) := x in (default 0 (m !! sp), (m, sp + 4)).

Fixpoint pops (n : nat) (x : gmap Z Z * Z) : list Z * (gmap Z Z * Z) :=
  match n with
  | O => ([], x)
  | S n' => let '(v, x) := pop x in let '(vs, x) := pops n' x in (v :: vs, x)
  end.

(** The second half of [task_switch]: EDI, ESI, EBX, EBP, EFLAGS and the return address. *)
Record switched := Switched { s_edi : Z; s_esi : Z; s_ebx : Z; s_ebp : Z; s_eflags : Z; s_eip : Z }.

Definition task_switch_in (x : gmap Z Z * Z) : switched * (gmap Z Z * Z) :=
  let '(edi, x) := pop x in let '(esi, x) := pop x in let '(ebx, x) := pop x in
  let '(ebp, x) := pop x in let '(eflags, x) := pop x in let '(eip, x) := pop x in
  (Switched edi esi ebx ebp eflags eip, x).

(** [fork_child_return]: the data segments, [popa], [add $8] and [iret]; the registers of
    the user program.  The slots skipped read as 0. *)
Definition fork_child_return (x : gmap Z Z * Z) : SIGNAL.regs :=
  let '(ds, x) := pop x in
  let '(edi, x) := pop x in let '(esi, x) := pop x in let '(ebp, x) := pop x in let '(_, x) := pop x in
  let '(ebx, x) := pop x in let '(edx, x) := pop x in let '(ecx, x) := pop x in let '(eax, x) := pop x in
  let '(_, x) := pop x in let '(_, x) := pop x in
  let '(eip, x) := pop x in let '(cs, x) := pop x in let '(eflags, x) := pop x in let '(useresp, x) := pop x in let '(ss, x) := pop x in
  SIGNAL.Regs ds edi esi ebp 0 ebx edx ecx eax 0 0 eip cs eflags useresp ss.

Section Ops.
Context {H O : Type} `{Allocator H} `{Objects O}.
(** The addresses of the assembly routines and [g_ap_runs_user]. *)
Context (trampoline child_return user_entry : Z) (ap_runs_user : bool).
Implicit Types ms : machine H O.

Definition set_tab ms s : machine H O := Machine s (mm ms) (heap ms) (objs ms) (desk ms).

Definition set_heap ms (h : H) : machine H O := Machine (tab ms) (mm ms) h (objs ms) (desk ms).

Definition set_mm ms (v : PAGING.vm) : machine H O := Machine (tab ms) v (heap ms) (objs ms) (desk ms).

Definition set_objs ms (o : O) : machine H O := Machine (tab ms) (mm ms) (heap ms) o (desk ms).

(** The frame [task_create] builds on a new stack; the stack pointer to switch to. *)
Definition synth_task_stack (stack entry : Z) (m : gmap Z Z) : gmap Z Z * Z :=
  pushes [0; entry; trampoline; 2; 0; 0; 0; 0] (m, stack + TASK_STACK_SZ).

Definition synth_fork_child_stack (stack : Z) (r : SIGNAL.regs) (m : gmap Z Z) : gmap Z Z * Z :=
  pushes [SIGNAL.ss r; SIGNAL.useresp r; SIGNAL.eflags r; SIGNAL.cs r; SIGNAL.eip r;
    SIGNAL.err_code r; SIGNAL.int_no r;
    0; SIGNAL.ecx r; SIGNAL.edx r; SIGNAL.ebx r; SIGNAL.esp_orig r; SIGNAL.ebp r; SIGNAL.esi r; SIGNAL.edi r;
    SIGNAL.ds r; child_return; 2; 0; 0; 0; 0] (m, stack + TASK_STACK_SZ).

Definition set_kind (k : fd_kind) (e : task_fd) : task_fd := Fd k (obj_idx e) (offset e) (fs_data e) (fd_flags e).

(** What [task_create] puts in the zeroed task: descriptors 0 to 2, an empty heap, the root directory. *)
Definition new_resources : resources :=
  let fds := zrep TASK_MAX_FDS (Fd FD_FREE (-1) 0 0 0) in
  let fds := zset fds 0 (set_kind FD_STDIN (zget fds 0)) in
  let fds := zset fds 1 (set_kind FD_STDOUT (zget fds 1)) in
  let fds := zset fds 2 (set_kind FD_STDOUT (zget fds 2)) in
  Resources fds 0 0 (zrep 32 0) 0 USER_HEAP_START (mmaps zero_resources) USER_MMAP_START TASK_CWD_ROOT 0 0 0 0 (zrep 4 0) false 0 0 0 0 0 0 0.

(** [task_create] on processor [c]; [nm] is [None] for a null name. *)
Definition task_create (c entry : Z) (nm : option (list Z)) ms : option (machine H O * option Z) :=
  let '(s, idx) := claim_slot (tab ms) in
  match idx with
  | None => Some (ms, None)
  | Some i =>
      '(h, stack) ← alloc TASK_STACK_SZ (heap ms);
      if stack =? 0 then Some (set_heap (set_tab ms (upd i (set_state UNUSED) s)) h, None) else
      let '(m, sp) := synth_task_stack stack entry (PAGING.mem (mm ms)) in
      let t := Task (g_next_id s) BLOCKED None 0 (-1) (-1) false 0 0
        (Context (match nm with Some n => name_of n | None => zrep TASK_NAME_MAX 0 end) sp stack (g_kernel_cr3 s) (stack + TASK_STACK_SZ) 0 0 false)
        new_resources in
      let s := upd i (fun _ => t) (set_next_id s (u32 (g_next_id s + 1))) in
      Some (Machine (ring_insert (cpu_current c s) i s) (PAGING.set_mem (mm ms) m) h (objs ms) (desk ms), Some i)
  end.

Definition task_create_user (c user_eip user_esp cr3 : Z) (nm : option (list Z)) ms : option (machine H O * option Z) :=
  '(ms, t) ← task_create c user_entry nm ms;
  match t with
  | None => Some (ms, None)
  | Some i =>
      let s := upd i (fun x => set_cpu_pin (if ap_runs_user then -1 else 0)
        (set_ctx (Context (name (ctx x)) (esp (ctx x)) (stack_base (ctx x)) cr3 (kernel_stack_top (ctx x)) user_eip user_esp true) x)) (tab ms) in
      Some (set_tab ms (task_make_runnable (Some i) s), Some i)
  end.

(** The kinds of descriptor that count their users. *)
Definition counted (k : fd_kind) : bool :=
  match k with FD_PIPE_R | FD_PIPE_W | FD_TMPFS | FD_SOCK | FD_PTY_M | FD_PTY_S => true | _ => false end.

Definition share_fd (e : task_fd) (o : O) : O := if counted (kind e) then obj_share (kind e) (obj_idx e) o else o.

Definition drop_fd (e : task_fd) (o : O) : O := if counted (kind e) then obj_drop (kind e) (obj_idx e) o else o.

(** What the child inherits; [n] is the number of pages copied. *)
Definition fork_resources (p : resources) (n : Z) : resources :=
  Resources (fds p) 0 (sig_mask p) (sig_handlers p) (sig_tramp p) (heap_brk p) (mmaps p) (mmap_brk p)
    (cwd_dir p) (pgid p) (sid p) (uid p) (gid p) (sandbox_mask p) (sandbox_active p) 0
    (max_rss_pages p) (max_cpu_ticks p) (max_fds p) (wall_deadline_ticks p) n 0.

(** The last section of [task_fork]. *)
Definition fork_splice (parent child : Z) s : sched :=
  let s := upd child (set_next (next (tk s parent))) s in
  let s := upd parent (set_next (Some child)) s in
  upd child (set_state READY) s.

Definition task_fork (c : Z) (r : SIGNAL.regs) ms : option (machine H O * option Z) :=
  let s := tab ms in
  let parent := cpu_current c s in
  let p := tk s parent in
  if negb (is_user (ctx p)) then Some (ms, None) else
  match find_free_slot s with
  | None => Some (ms, None)
  | Some slot =>
      '(h, kstack) ← alloc TASK_STACK_SZ (heap ms);
      if kstack =? 0 then Some (set_heap ms h, None) else
      let '(v, child_pd, pages) := PAGING.paging_clone_user_pd (cr3 (ctx p)) (mm ms) in
      if child_pd =? 0 then h ← dealloc kstack h; Some (set_heap (set_mm ms v) h, None) else
      let '(m, sp) := synth_fork_child_stack kstack r (PAGING.mem v) in
      let t := Task (g_next_id s) BLOCKED None 0 (-1) (if ap_runs_user then -1 else 0) false (id p) 0
        (Context (name_of (ztake (TASK_NAME_MAX - 1) (name (ctx p)))) sp kstack child_pd (kstack + TASK_STACK_SZ) (SIGNAL.eip r) (SIGNAL.useresp r) true)
        (fork_resources (res p) pages) in
      let s := upd slot (fun _ => t) (set_next_id s (u32 (g_next_id s + 1))) in
      Some (Machine (fork_splice parent slot s) (PAGING.set_mem v m) h (foldl (fun o e => share_fd e o) (objs ms) (fds (res p))) (desk ms), Some slot)
  end.

(** [close_all_fds] *)
Definition close_all_fds (t : task) (o : O) : task * O :=
  let r := res t in
  (set_res (Resources (map (fun e => Fd FD_FREE (-1) 0 (fs_data e) (fd_flags e)) (fds r)) (sig_pending r) (sig_mask r) (sig_handlers r) (sig_tramp r)
     (heap_brk r) (mmaps r) (mmap_brk r) (cwd_dir r) (pgid r) (sid r) (uid r) (gid r) (sandbox_mask r) (sandbox_active r) (sandbox_denials r)
     (max_rss_pages r) (max_cpu_ticks r) (max_fds r) (wall_deadline_ticks r) (cur_rss_pages r) (cur_cpu_ticks r)) t,
   foldl (fun o e => drop_fd e o) o (fds r)).

Definition is_state (s : sched) (i : Z) (x : tstate) : bool := bool_decide (state (tk s i) = x).

(** Wakes the tasks with the pid of init that wait for a child. *)
Definition wake_init s : sched :=
  zfor (Z.to_nat TASK_MAX) 0 (fun j s =>
    if (id (tk s j) =? g_init_pid s) && is_state s j BLOCKED_ON_CHILD then upd j (set_state READY) s else s) s.

(** The children of the task with pid [me] go to init. *)
Definition reparent (me : Z) s : sched :=
  zfor (Z.to_nat TASK_MAX) 0 (fun i s =>
    if is_state s i UNUSED then s else
    if parent_id (tk s i) =? me then
      let s := upd i (set_parent_id (g_init_pid s)) s in
      if is_state s i ZOMBIE then wake_init s else s
    else s) s.

Definition find_parent (t : task) s : option Z :=
  if parent_id t =? 0 then None
  else zfind (Z.to_nat TASK_MAX) 0 (fun i => (id (tk s i) =? parent_id t) && negb (is_state s i UNUSED)).

(** The table when the task in slot [t] ends, its descriptors already closed: children,
    parent and state. *)
Definition leave (t : Z) s : sched :=
  let me := id (tk s t) in
  let s := if negb (g_init_pid s =? 0) && negb (me =? g_init_pid s) then reparent me s else s in
  let parent := find_parent (tk s t) s in
  let s := match parent with
           | Some p => if is_state s p BLOCKED_ON_CHILD then upd p (set_state READY) s else s
           | None => s
           end in
  upd t (set_state (match parent with Some _ => ZOMBIE | None => DEAD end)) s.

Definition task_exit_current (c exit_code : Z) ms : option (machine H O) :=
  let t := cpu_current c (tab ms) in
  let s := upd t (set_exit_code exit_code) (tab ms) in
  '(d, v, h) ← WM.wm_on_task_exit t (id (tk s t)) (cr3 (ctx (tk s t))) (WM.fb_release t (desk ms)) (mm ms) (heap ms);
  let d := WM.keyboard_release (id (tk s t)) d in
  let '(x, o) := if is_user (ctx (tk s t)) then close_all_fds (tk s t) (objs ms) else (tk s t, objs ms) in
  Some (Machine (leave t (upd t (fun _ => x) s)) v h o d).

(** What wait and the reaper do to the task in slot [i]: out of the ring, slot cleared,
    directory and stack given back. *)
Definition reap (i : Z) ms : option (machine H O) :=
  let s := ring_remove i (tab ms) in
  let x := ctx (tk s i) in
  let s := upd i clear_slot s in
  let v := if is_user x && negb (cr3 x =? 0) && negb (cr3 x =? g_kernel_cr3 s) then PAGING.paging_destroy_user_pd (cr3 x) (mm ms) else mm ms in
  h ← (if stack_base x =? 0 then Some (heap ms) else dealloc (stack_base x) (heap ms));
  Some (Machine s v h (objs ms) (desk ms)).

(** [reap_one_zombie_of]: the pid, 0 if none, and the exit code. *)
Definition reap_one_zombie_of (parent : Z) ms : option (machine H O * Z * Z) :=
  let s := tab ms in
  match zfind (Z.to_nat TASK_MAX) 0 (fun i => is_state s i ZOMBIE && (parent_id (tk s i) =? id (tk s parent))) with
  | None => Some (ms, 0, 0)
  | Some i => ms' ← reap i ms; Some (ms', id (tk s i), exit_code (tk s i))
  end.

Definition has_any_live_or_zombie_child (parent : Z) s : bool :=
  match zfind (Z.to_nat TASK_MAX) 0 (fun i =>
    (parent_id (tk s i) =? id (tk s parent)) && negb (is_state s i UNUSED || is_state s i DEAD)) with
  | Some _ => true
  | None => false
  end.

(** One turn of the loop of [task_wait_current]: it returns, or goes to sleep. *)
Inductive wait_result := Reaped (pid code : Z) | NoChild | Sleeping.

Definition task_wait_current (c : Z) ms : option (machine H O * wait_result) :=
  let t := cpu_current c (tab ms) in
  '(ms, pid, code) ← reap_one_zombie_of t ms;
  if negb (pid =? 0) then Some (ms, Reaped pid code) else
  if negb (has_any_live_or_zombie_child t (tab ms)) then Some (ms, NoChild) else
  Some (set_tab ms (schedule c (upd t (set_state BLOCKED_ON_CHILD) (tab ms))), Sleeping).

(** -1 without a child, 0 when none has ended. *)
Definition task_waitpid_nb_current (c : Z) ms : option (machine H O * Z * Z) :=
  let t := cpu_current c (tab ms) in
  '(ms, pid, code) ← reap_one_zombie_of t ms;
  if negb (pid =? 0) then Some (ms, s32 pid, code) else
  Some (ms, if has_any_live_or_zombie_child t (tab ms) then 0 else -1, 0).

(** One sweep of [task_reaper]. *)
Definition reaper_step (i : Z) ms : option (machine H O) :=
  let s := tab ms in
  if is_idle (tk s i) then Some ms else
  if negb (is_state s i DEAD) then Some ms else
  if stack_base (ctx (tk s i)) =? 0 then Some ms else
  if negb (off_cpub s i) then Some ms else reap i ms.

Definition task_reaper ms : option (machine H O) :=
  zfor (Z.to_nat (TASK_MAX - 1)) 1 (fun i r => r ≫= reaper_step i) (Some ms).

End Ops.

(** ** Frames on a kernel stack *)

Lemma pushes_snoc vs v x : pushes (vs ++ [v]) x = push v (pushes vs x).
Proof. unfold pushes. by rewrite foldl_snoc. Qed.

Lemma pushes_sp vs m sp : (pushes vs (m, sp)).2 = sp - 4 * zlen vs.
Proof.
  induction vs as [|v vs IH] using rev_ind; [change (zlen []) with 0; cbn; lia |]. rewrite pushes_snoc, zlen_app. destruct (pushes vs (m, sp)) as [m1 sp1].
  cbn [fst snd push] in *. rewrite IH. change (zlen [v]) with 1. lia.
Qed.

(** The words between the old and the new stack pointer are written, and no others. *)
Lemma pushes_other vs m sp a : a < sp - 4 * zlen vs \/ sp <= a -> (pushes vs (m, sp)).1 !! a = m !! a.
Proof.
  induction vs as [|v vs IH] using rev_ind; [done |]. rewrite pushes_snoc, zlen_app. change (zlen [v]) with 1. intros R.
  pose proof (pushes_sp vs m sp) as Sp. destruct (pushes vs (m, sp)) as [m1 sp1]. cbn [fst snd push] in *. pose proof (zlen_nonneg vs). rewrite lookup_insert_ne by lia. apply IH. lia.
Qed.

Lemma pops_ext n : forall m m' sp, (forall a, sp <= a -> m' !! a = m !! a) -> (pops n (m', sp)).1 = (pops n (m, sp)).1.
Proof.
  induction n as [|n IH]; intros m m' sp E; [done |]. cbn [pops pop]. specialize (IH m m' (sp + 4) ltac:(intros; apply E; lia)).
  destruct (pops n (m', sp + 4)) as [vs x], (pops n (m, sp + 4)) as [vs' x']. cbn [fst] in *. by rewrite IH, E by lia.
Qed.

(** What was pushed comes off in the reverse order. *)
Lemma pops_pushes vs m sp : (pops (length vs) (pushes vs (m, sp))).1 = rev vs.
Proof.
  induction vs as [|v vs IH] using rev_ind; [done |]. rewrite pushes_snoc, length_app, rev_unit, Nat.add_comm.
  pose proof (pushes_sp vs m sp) as Sp. destruct (pushes vs (m, sp)) as [m1 sp1]. cbn [Nat.add length push pops pop]. rewrite lookup_insert_eq.
  replace (sp1 - 4 + 4) with sp1 by lia. pose proof (pops_ext (length vs) m1 (<[sp1 - 4:=v]> m1) sp1 ltac:(intros; apply lookup_insert_ne; lia)) as E.
  destruct (pops (length vs) (<[sp1 - 4:=v]> m1, sp1)) as [ws x]. cbn [fst] in *. by rewrite E, IH.
Qed.

(** The registers a task starts with after the switch to [sp], and those of its user program. *)
Lemma task_switch_pops x : (task_switch_in x).1 = match (pops 6 x).1 with
  | [edi; esi; ebx; ebp; eflags; eip] => Switched edi esi ebx ebp eflags eip | _ => Switched 0 0 0 0 0 0 end.
Proof. by destruct x. Qed.

Lemma fork_return_pops m sp : fork_child_return (task_switch_in (m, sp)).2 = match (pops 22 (m, sp)).1 with
  | [_; _; _; _; _; _; ds; edi; esi; ebp; _; ebx; edx; ecx; eax; _; _; eip; cs; eflags; useresp; ss] =>
      SIGNAL.Regs ds edi esi ebp 0 ebx edx ecx eax 0 0 eip cs eflags useresp ss
  | _ => SIGNAL.Regs 0 0 0 0 0 0 0 0 0 0 0 0 0 0 0 0 end.
Proof. reflexivity. Qed.

(** The registers of the parent with EAX 0. *)
Definition child_regs (r : SIGNAL.regs) : SIGNAL.regs :=
  SIGNAL.Regs (SIGNAL.ds r) (SIGNAL.edi r) (SIGNAL.esi r) (SIGNAL.ebp r) 0 (SIGNAL.ebx r) (SIGNAL.edx r) (SIGNAL.ecx r) 0 0 0
    (SIGNAL.eip r) (SIGNAL.cs r) (SIGNAL.eflags r) (SIGNAL.useresp r) (SIGNAL.ss r).

(** A frame that leads to [fork_child_return] with interrupts off and then to user mode with [r]. *)
Definition resumes (child_return : Z) (r : SIGNAL.regs) (x : gmap Z Z * Z) : Prop :=
  s_eip (task_switch_in x).1 = child_return /\ Z.land (s_eflags (task_switch_in x).1) 512 = 0 /\ fork_child_return (task_switch_in x).2 = child_regs r.

Lemma fork_frame child_return stack r m :
  let '(m', sp) := synth_fork_child_stack child_return stack r m in
  sp = stack + 16296 /\ resumes child_return r (m', sp) /\ forall a, a < stack \/ stack + TASK_STACK_SZ <= a -> m' !! a = m !! a.
Proof.
  unfold synth_fork_child_stack. set (vs := [_; _; _; _; _; _; _; _; _; _; _; _; _; _; _; _; _; _; _; _; _; _]).
  pose proof (pushes_sp vs m (stack + TASK_STACK_SZ)) as Sp. pose proof (pushes_other vs m (stack + TASK_STACK_SZ)) as Ot.
  pose proof (pops_pushes vs m (stack + TASK_STACK_SZ)) as Pp. change (length vs) with 22%nat in Pp. change (zlen vs) with 22 in *.
  destruct (pushes vs (m, stack + TASK_STACK_SZ)) as [m' sp]. cbn [fst snd] in *. unfold TASK_STACK_SZ in *. split; [lia |]. split.
  - unfold resumes. rewrite fork_return_pops, Pp. unfold vs. cbn [rev app]. split; [| split; [| reflexivity]].
    + assert (E6 : (pops 6 (m', sp)).1 = take 6 (pops 22 (m', sp)).1) by reflexivity. rewrite task_switch_pops, E6, Pp. reflexivity.
    + assert (E6 : (pops 6 (m', sp)).1 = take 6 (pops 22 (m', sp)).1) by reflexivity. rewrite task_switch_pops, E6, Pp. reflexivity.
  - intros a R. apply Ot. lia.
Qed.

(** ** Fork *)

Lemma safe_next_id s l n : safe s l -> safe (set_next_id s n) l.
Proof. intros S. destruct S. split; try assumption. by apply (ring_next s). Qed.

Lemma unused_off s l i : safe s l -> slot i -> state (tk s i) = UNUSED -> (i ∉ 0 :: l) /\ off_cpu s i.
Proof.
  intros S Ri U. assert (Ni : i ∉ 0 :: l) by (intros I; by destruct (sf_on _ _ S i I)). split; [done |].
  intros d Rd C. destruct (sf_cur _ _ S d i Rd C) as (_ & _ & _ & [M | M]); [done |]. destruct (sf_idle _ _ S d i Rd M) as (_ & _ & _ & _ & B). congruence.
Qed.

(** The new task after the parent in the ring, and no other change. *)
Lemma fork_table s l n parent i t : safe s l -> parent ∈ 0 :: l -> slot i -> state (tk s i) = UNUSED ->
  next t = None -> state t = BLOCKED -> is_idle t = false ->
  let s' := fork_splice parent i (upd i (fun _ => t) (set_next_id s n)) in
  exists l', safe s' l' /\ (forall j, j ∈ 0 :: l' <-> j = i \/ j ∈ 0 :: l) /\
    tk s' i = set_state READY (set_next (next (tk s parent)) t) /\ tk s' parent = set_next (Some i) (tk s parent) /\
    (forall j, slot j -> j <> i -> j <> parent -> tk s' j = tk s j) /\
    g_next_id s' = n /\ g_cpus s' = g_cpus s /\ g_init_pid s' = g_init_pid s /\ g_kernel_cr3 s' = g_kernel_cr3 s.
Proof.
  intros S Ip Ri U Nt Bt It. destruct (unused_off _ _ _ S Ri U) as (Ni & Off). pose proof (safe_next_id s l n S) as S0.
  assert (Rp : slot parent) by (eapply ring_slot; [exact (sf_ring _ _ S) | done]). assert (Np : parent <> i) by (intros ->; done).
  set (s0 := set_next_id s n) in *. set (s1 := upd i (fun _ => t) s0).
  assert (S1 : safe s1 l) by (apply safe_reset; try done; [right; cbn; change (tk s0 i) with (tk s i); by rewrite U | by left]).
  pose proof (sf_sized _ _ S1) as Z1. assert (T1 : forall j, slot j -> tk s1 j = if i =? j then t else tk s j) by (intros j Rj; exact (tk_upd s0 i _ j (sf_sized _ _ S0) Ri Rj)).
  assert (P1 : tk s1 parent = tk s parent) by (by rewrite T1, (proj2 (Z.eqb_neq i parent)) by congruence).
  assert (I1 : tk s1 i = t) by (by rewrite T1, Z.eqb_refl).
  destruct (ring_at _ _ _ _ (sf_ring _ _ S) Ip) as (lp & Rgp & _). pose proof (ring_head _ _ _ Rgp) as Hd.
  destruct (safe_insert s1 l parent i S1 Ip Ri Ni) as (l' & S2 & M); [by rewrite I1 | by rewrite I1 |].
  assert (E : fork_splice parent i s1 = task_make_runnable (Some i) (ring_insert parent i s1)).
  { unfold fork_splice, ring_insert, task_make_runnable. by rewrite P1, Hd. }
  pose proof (ring_insert_tk s1 parent i) as T2. cbv zeta. rewrite E. pose proof (sf_sized _ _ S2) as Z2.
  assert (T3 : forall j, slot j -> tk (task_make_runnable (Some i) (ring_insert parent i s1)) j =
    if i =? j then set_state READY (tk (ring_insert parent i s1) i) else tk (ring_insert parent i s1) j) by (intros j Rj; by apply tk_upd).
  exists l'. split; [| split; [exact M |]].
  - apply safe_wake; [exact S2 | done | | exact Off]. rewrite T2, (proj2 (Z.eqb_neq i parent)), Z.eqb_refl by congruence || done. done.
  - split; [| split; [| split; [| done]]].
    + rewrite T3, Z.eqb_refl, T2, (proj2 (Z.eqb_neq i parent)), Z.eqb_refl, I1, P1, Hd by congruence || done. done.
    + rewrite T3, (proj2 (Z.eqb_neq i parent)), T2, Z.eqb_refl, P1 by congruence || done. done.
    + intros j Rj N1 N2. rewrite T3, (proj2 (Z.eqb_neq i j)), T2, (proj2 (Z.eqb_neq j parent)), (proj2 (Z.eqb_neq j i)), T1, (proj2 (Z.eqb_neq i j)) by congruence || done. done.
Qed.

Section Laws.
Context {H O : Type} `{AL : AllocatorLaws H} `{OB : Objects O}.
Context (child_return : Z) (ap_runs_user : bool).
Implicit Types ms : machine H O.

(** The kernel heap lies outside the frames the page allocator can give out. *)
Definition heap_apart ms : Prop := forall q, PAGING.in_ram (mm ms) q -> PAGING.used (mm ms) q = false ->
  q + 4096 <= (arena (heap ms)).1 \/ (arena (heap ms)).2 <= q.

(** The parent [p] on processor [c] can be forked: a well-formed table without dead tasks
    before the first free slot, memory that can be cloned, a heap. *)
Record forkable ms (c p : Z) (l : list Z) (own : list (Z * Z)) : Prop := {
  fk_table : safe (tab ms) l;
  fk_parent : cpu_current c (tab ms) = p /\ (p ∈ 0 :: l);
  fk_slot : forall i, find_free_slot (tab ms) = Some i -> state (tk (tab ms) i) = UNUSED;
  fk_space : PAGING.cloneable (mm ms) (cr3 (ctx (tk (tab ms) p)));
  fk_heap : owns (heap ms) own;
  fk_apart : heap_apart ms }.

(** The child in slot [i], with kernel stack [stack], as fork leaves it. *)
Record forked ms ms' (p i stack : Z) (r : SIGNAL.regs) (l : list Z) (own : list (Z * Z)) : Prop := {
  fd_table : exists l', safe (tab ms') l' /\ forall j, j ∈ 0 :: l' <-> j = i \/ j ∈ 0 :: l;
  fd_parent : tk (tab ms') p = set_next (Some i) (tk (tab ms) p);
  fd_rest : forall j, slot j -> j <> i -> j <> p -> tk (tab ms') j = tk (tab ms) j;
  fd_id : id (tk (tab ms') i) = g_next_id (tab ms) /\ parent_id (tk (tab ms') i) = id (tk (tab ms) p) /\
    g_next_id (tab ms') = u32 (g_next_id (tab ms) + 1);
  fd_ready : state (tk (tab ms') i) = READY /\ next (tk (tab ms') i) = next (tk (tab ms) p);
  fd_files : let x := res (tk (tab ms') i) in let y := res (tk (tab ms) p) in
    fds x = fds y /\ cwd_dir x = cwd_dir y /\ heap_brk x = heap_brk y /\ mmaps x = mmaps y /\ mmap_brk x = mmap_brk y;
  fd_signals : let x := res (tk (tab ms') i) in let y := res (tk (tab ms) p) in
    sig_pending x = 0 /\ sig_mask x = sig_mask y /\ sig_handlers x = sig_handlers y /\ sig_tramp x = sig_tramp y;
  fd_creds : let x := res (tk (tab ms') i) in let y := res (tk (tab ms) p) in
    pgid x = pgid y /\ sid x = sid y /\ uid x = uid y /\ gid x = gid y /\
    sandbox_mask x = sandbox_mask y /\ sandbox_active x = sandbox_active y /\ sandbox_denials x = 0;
  fd_limits : let x := res (tk (tab ms') i) in let y := res (tk (tab ms) p) in
    max_rss_pages x = max_rss_pages y /\ max_cpu_ticks x = max_cpu_ticks y /\ max_fds x = max_fds y /\
    wall_deadline_ticks x = wall_deadline_ticks y /\ cur_cpu_ticks x = 0 /\
    cur_rss_pages x = u32 (zlen (PAGING.concat_map (PAGING.data_of (mm ms) (cr3 (ctx (tk (tab ms) p)))) (seqZ 8 1016)));
  fd_stack : stack_base (ctx (tk (tab ms') i)) = stack /\ owns (heap ms') ((stack, TASK_STACK_SZ) :: own);
  fd_regs : resumes child_return r (PAGING.mem (mm ms'), esp (ctx (tk (tab ms') i)));
  fd_space : exists frames, let child := cr3 (ctx (tk (tab ms') i)) in let parent := cr3 (ctx (tk (tab ms) p)) in
    (forall k, 0 <= k < 8 -> PAGING.word (PAGING.mem (mm ms')) child k = PAGING.word (PAGING.mem (mm ms)) parent k) /\
    forall k, 8 <= k < 1024 -> PAGING.pde_copy (mm ms) (mm ms') frames parent child k;
  fd_objs : objs ms' = foldl (fun o e => share_fd e o) (objs ms) (fds (res (tk (tab ms) p))) }.

(** A page in new frames does not change when words of the heap are written. *)
Lemma word_apart ms m m' q j : heap_apart ms -> PAGING.in_ram (mm ms) q -> PAGING.used (mm ms) q = false -> 0 <= j < 1024 ->
  (forall a, a < (arena (heap ms)).1 \/ (arena (heap ms)).2 <= a -> m' !! a = m !! a) -> PAGING.word m' q j = PAGING.word m q j.
Proof. intros A R U Rj E. unfold PAGING.word. rewrite E; [done |]. destruct (A q R U); lia. Qed.

Lemma pde_copy_words s0 s s' l parent child k : (forall q j, q ∈ child :: l -> 0 <= j < 1024 -> PAGING.word (PAGING.mem s') q j = PAGING.word (PAGING.mem s) q j) ->
  0 <= k < 1024 -> PAGING.pde_copy s0 s l parent child k -> PAGING.pde_copy s0 s' l parent child k.
Proof.
  intros E Rk. unfold PAGING.pde_copy. rewrite E by (done || apply list_elem_of_here). destruct (PAGING.present _); [| done].
  intros (pt & Ept & Ipt & C). exists pt. split; [done |]. split; [done |]. intros j Rj. rewrite E by (done || by apply list_elem_of_further).
  apply (PAGING.copy_of_words s0 s s'); [intros q x I Rx; apply E; [by apply list_elem_of_further | done] | by apply C].
Qed.

Lemma restored_refl v : PMM.pmm_ok (PAGING.frames v) -> PAGING.restored v v.
Proof. intros Ok. split; [done |]. by split. Qed.

(** C31. Fork.  From a table, memory and heap in order, [task_fork] either gives a child
    or changes nothing that anyone can see.  The child takes the slot found, the next
    pid and the parent's files, credentials, limits and signal handling, with no pending
    signal and the pages that were copied to its account; it follows the parent in the
    ring, which stays well formed, and is READY; its address space is a copy of the
    parent's; its kernel stack belongs to it and leads through [task_switch] with
    interrupts off and [fork_child_return] to the parent's registers with EAX 0; every
    counted descriptor has one more user; no other task changes.  Otherwise (no user
    task, no slot, no stack, too few frames) the table and the objects are unchanged,
    the heap holds what it held, and the frames and the contents of memory are as they
    were. *)
Theorem task_fork_correct ms c p l own r : forkable ms c p l own ->
  let need := 1 + zlen (PAGING.concat_map (PAGING.demand (mm ms) (cr3 (ctx (tk (tab ms) p)))) (seqZ 8 1016)) in
  exists ms' answer, task_fork child_return ap_runs_user c r ms = Some (ms', answer) /\
  match answer with
  | Some i => find_free_slot (tab ms) = Some i /\ exists stack, forked ms ms' p i stack r l own
  | None => (is_user (ctx (tk (tab ms) p)) = false \/ find_free_slot (tab ms) = None \/
        (exists h, alloc TASK_STACK_SZ (heap ms) = Some (h, 0)) \/ PAGING.nfree (PAGING.frames (mm ms)) < need) /\
      tab ms' = tab ms /\ objs ms' = objs ms /\ owns (heap ms') own /\ PAGING.restored (mm ms) (mm ms')
  end.
Proof.
  intros [S (Ep & Ip) Fs Cl Ow Ap]. cbv zeta. unfold task_fork. cbv zeta. rewrite Ep. pose proof (PAGING.cb_ok _ _ Cl) as Ok.
  destruct (is_user (ctx (tk (tab ms) p))) eqn:Us; cbn [negb]; [| exists ms, None; split; [done |]; split; [by left | by split; [| split; [| split; [| apply restored_refl]]]]].
  destruct (find_free_slot (tab ms)) as [i|] eqn:F; [| exists ms, None; split; [done |]; split; [by right; left | by split; [| split; [| split; [| apply restored_refl]]]]].
  destruct (alloc_owns (heap ms) own TASK_STACK_SZ Ow) as (h & st & Al & Ar & D); [unfold TASK_STACK_SZ; lia |].
  rewrite Al. cbn [mbind option_bind]. destruct (Z.eqb_spec st 0) as [-> | Ns].
  { exists (set_heap ms h), None. split; [done |]. destruct D as [(_ & D) | (D & _)]; [| done].
    split; [right; right; left; by exists h |]. split; [done |]. split; [done |]. split; [done | by apply restored_refl]. }
  destruct D as [(D & _) | (_ & D)]; [done |].
  pose proof (PAGING.clone_user_pd_spec (mm ms) _ Cl) as Cp. cbv zeta in Cp.
  destruct (PAGING.paging_clone_user_pd (cr3 (ctx (tk (tab ms) p))) (mm ms)) as [[v child] pages].
  destruct (Z.leb_spec (1 + zlen (PAGING.concat_map (PAGING.demand (mm ms) (cr3 (ctx (tk (tab ms) p)))) (seqZ 8 1016))) (PAGING.nfree (PAGING.frames (mm ms)))) as [L | L].
  2:{ destruct Cp as (-> & _ & Rs). cbn [Z.eqb]. destruct (dealloc_owns h own st TASK_STACK_SZ D) as (h2 & De & _ & D2). rewrite De. cbn [mbind option_bind].
      exists (set_heap (set_mm ms v) h2), None. split; [done |]. split; [by right; right; right |]. split; [done |]. split; [done |]. split; [exact D2 | exact Rs]. }
  destruct Cp as (Nc & Ec & frames & G & _ & Low & High & _). rewrite (proj2 (Z.eqb_neq child 0) Nc).
  pose proof (fork_frame child_return st r (PAGING.mem v)) as Fr. destruct (synth_fork_child_stack child_return st r (PAGING.mem v)) as [m sp].
  destruct Fr as (_ & Rg & Wm). destruct (owns_apart _ _ D) as (_ & Bd). apply Forall_cons in Bd as ((_ & _ & B1 & B2) & _). cbn [fst snd] in B1, B2. rewrite Ar in B1, B2.
  assert (Wd : forall q j, q ∈ child :: frames -> 0 <= j < 1024 -> PAGING.word m q j = PAGING.word (PAGING.mem v) q j).
  { intros q j I Rj. destruct (PAGING.grew_in _ _ _ q G I) as (_ & _ & _ & Q1 & Q2). apply (word_apart ms _ _ _ _ Ap Q1 Q2 Rj). intros a Ra. apply Wm. lia. }
  pose proof F as F'. unfold find_free_slot in F'. apply zfind_Some in F' as (Ri & _). change (Z.of_nat (Z.to_nat (TASK_MAX - 1))) with 31 in Ri.
  assert (Si : slot i) by (unfold slot, TASK_MAX; lia). set (t := Task _ _ _ _ _ _ _ _ _ _ _).
  destruct (fork_table (tab ms) l (u32 (g_next_id (tab ms) + 1)) p i t S Ip Si (Fs i eq_refl)) as (l' & S' & M & Ti & Tp & Tr & Gn & _); [done.. |].
  eexists _, (Some i). split; [reflexivity |]. split; [done |]. exists st. split; cbn [tab mm heap objs PAGING.mem PAGING.set_mem].
  - by exists l'.
  - exact Tp.
  - exact Tr.
  - rewrite Ti. done.
  - rewrite Ti. done.
  - by rewrite Ti.
  - by rewrite Ti.
  - by rewrite Ti.
  - rewrite Ti. do 5 (split; [done |]). exact Ec.
  - rewrite Ti. split; [done | exact D].
  - rewrite Ti. exact Rg.
  - exists frames. rewrite Ti. cbn [ctx set_state set_next cr3 t]. split.
    + intros k Rk. rewrite Wd; [by apply Low | apply list_elem_of_here | lia].
    + intros k Rk. apply (pde_copy_words (mm ms) v); [exact Wd | lia | by apply High].
  - done.
Qed.

End Laws.

(** ** Exit *)














Section Exit.
Context {H O : Type} `{AL : AllocatorLaws H} `{OB : Objects O}.
Implicit Types ms : machine H O.



End Exit.

(** ** Wait *)

Definition zombie_child (p i : Z) s : bool := is_state s i ZOMBIE && (parent_id (tk s i) =? id (tk s p)).

Definition living_child (p i : Z) s : bool := (parent_id (tk s i) =? id (tk s p)) && negb (is_state s i UNUSED || is_state s i DEAD).

Section Wait.
Context {H O : Type} `{AL : AllocatorLaws H} `{OB : Objects O}.
Implicit Types ms : machine H O.

(** The task in slot [i] has ended and no processor runs it any more; its directory is
    not shared and its stack is its own. *)
Record harvestable ms (i : Z) (own : list (Z * Z)) : Prop := {
  hv_table : guard (OReap i) (tab ms) = true /\ hazard (OReap i) (tab ms) = false;
  hv_pid : id (tk (tab ms) i) <> 0;
  hv_user : is_user (ctx (tk (tab ms) i)) = true /\ cr3 (ctx (tk (tab ms) i)) <> g_kernel_cr3 (tab ms);
  hv_stack : stack_base (ctx (tk (tab ms) i)) <> 0 /\ owns (heap ms) ((stack_base (ctx (tk (tab ms) i)), TASK_STACK_SZ) :: own);
  hv_space : let v := mm ms in let pd := cr3 (ctx (tk (tab ms) i)) in
    PMM.pmm_ok (PAGING.frames v) /\ pd <> 0 /\ PAGING.aligned (PAGING.g_pd v) /\ PAGING.g_pd v <> pd /\
    (forall k, 8 <= k < 1024 -> PAGING.present (PAGING.word (PAGING.mem v) pd k) = true -> PAGING.frame_of (PAGING.word (PAGING.mem v) pd k) <> pd) /\
    Forall (fun f => PAGING.aligned f /\ 0 <= f < 4294967296) (PAGING.owned v pd) }.

(** What harvesting leaves: the slot free, the ring closed, the stack and exactly the
    frames of the address space given back. *)
Record harvested ms ms' (i : Z) (own : list (Z * Z)) : Prop := {
  hd_table : tab ms' = run (OReap i) (tab ms);
  hd_heap : owns (heap ms') own;
  hd_objs : objs ms' = objs ms;
  hd_frames : PMM.pmm_ok (PAGING.frames (mm ms')) /\ forall q, 0 <= q -> PMM.page_used (PAGING.frames (mm ms')) q =
    negb (bool_decide (q * 4096 ∈ PAGING.owned (mm ms) (cr3 (ctx (tk (tab ms) i)))) && (q <? PAGING.total (mm ms))) && PMM.page_used (PAGING.frames (mm ms)) q;
  hd_words : forall q x, PAGING.aligned q -> 0 <= x < 1024 -> q <> cr3 (ctx (tk (tab ms) i)) ->
    PAGING.word (PAGING.mem (mm ms')) q x = PAGING.word (PAGING.mem (mm ms)) q x }.

Lemma harvest_slot s i : guard (OReap i) s = true -> slot i.
Proof. cbn [guard]. rewrite !andb_true_iff. intros (((Ri & _) & _) & _). by apply slotb_spec. Qed.

Lemma reap_harvests ms i own : sized (tab ms) -> harvestable ms i own -> exists ms', reap i ms = Some ms' /\ harvested ms ms' i own.
Proof.
  intros Sz [(G & _) Id (Us & Kc) (Ns & Ow) (Ok & N0 & Ag & Ng & Nt & Fo)].
  assert (Rx : ctx (tk (ring_remove i (tab ms)) i) = ctx (tk (tab ms) i) /\ g_kernel_cr3 (ring_remove i (tab ms)) = g_kernel_cr3 (tab ms)).
  { assert (U : forall p n, ctx (tk (upd p (set_next n) (tab ms)) i) = ctx (tk (tab ms) i)).
    { intros p n. pose proof (harvest_slot _ _ G) as Ri.
      destruct (Z.eq_dec (Z.max 0 p) i) as [E | N].
      - unfold tk at 1, upd. cbn [g_tasks set_tasks].
        assert (Ep : zset (g_tasks (tab ms)) p (set_next n (tk (tab ms) p)) = zset (g_tasks (tab ms)) i (set_next n (tk (tab ms) i))).
        { unfold zset, tk, zget. replace (Z.to_nat p) with (Z.to_nat i) by lia. done. }
        rewrite Ep. destruct Sz as (L & _). unfold slot in Ri. rewrite zget_zset_eq by lia. done.
      - unfold upd, tk. cbn [g_tasks set_tasks]. unfold zget, zset. rewrite !list_lookup_total_alt, list_lookup_insert_ne by (unfold slot in Ri; lia). reflexivity. }
    unfold ring_remove. by repeat case_match. }
  destruct Rx as (Rx & Rk). unfold reap. cbv zeta. rewrite Rx, Us. cbn [andb].
  change (g_kernel_cr3 (upd i clear_slot (ring_remove i (tab ms)))) with (g_kernel_cr3 (ring_remove i (tab ms))). rewrite Rk.
  rewrite (proj2 (Z.eqb_neq _ _) N0), (proj2 (Z.eqb_neq _ _) Kc). cbn [negb andb]. rewrite (proj2 (Z.eqb_neq _ _) Ns).
  destruct (dealloc_owns (heap ms) own _ _ Ow) as (h & De & _ & Ow'). rewrite De. cbn [mbind option_bind].
  eexists. split; [reflexivity |]. set (pd := cr3 (ctx (tk (tab ms) i))) in *.
  assert (Ap : PAGING.aligned pd) by (rewrite Forall_forall in Fo; apply (Fo pd); unfold PAGING.owned; apply elem_of_app; right; by apply list_elem_of_singleton).
  destruct (PAGING.destroy_spec (mm ms) pd N0 Ap Ag Ng) as (m' & E & W); [exact Nt |].
  destruct (PAGING.free_all_used (PAGING.owned (mm ms) pd) (mm ms) Ok Fo) as (Ok' & _ & Us').
  split; cbn [tab mm heap objs]; try done; rewrite E.
  - split; [exact Ok' |]. intros q Rq. cbn [PAGING.frames PAGING.set_mem]. rewrite Us' by done. destruct (bool_decide _ && _); reflexivity.
  - intros q x Aq Rxx Nq. cbn [PAGING.mem PAGING.set_mem]. by apply W.
Qed.

(** C33. Wait.  When a child has ended, [task_wait_current] returns the pid and the exit
    code of the first one in the table and harvests it: the slot is unused again, the
    ring is closed behind it and still well formed, its stack is back in the heap, and
    of the frames exactly those of its address space are free again, with no other page
    touched.  Without any child it returns -1 and changes nothing.  Otherwise the caller
    sleeps until a child ends and another task runs. *)
Theorem task_wait_correct ms c p l own : safe (tab ms) l -> processor c -> current (cp (tab ms) c) = Some p -> g_smp_ready (tab ms) = true -> is_idle (tk (tab ms) p) = false ->
  (forall i, slot i -> zombie_child p i (tab ms) = true -> exists own', own ≡ₚ (stack_base (ctx (tk (tab ms) i)), TASK_STACK_SZ) :: own' /\ harvestable ms i own') ->
  exists ms' answer, task_wait_current c ms = Some (ms', answer) /\
  (exists l', safe (tab ms') l') /\
  match answer with
  | Reaped pid code => exists i own', zfind 32 0 (fun i => zombie_child p i (tab ms)) = Some i /\ pid = id (tk (tab ms) i) /\ code = exit_code (tk (tab ms) i) /\
      own ≡ₚ (stack_base (ctx (tk (tab ms) i)), TASK_STACK_SZ) :: own' /\ harvested ms ms' i own' /\ state (tk (tab ms') i) = UNUSED
  | NoChild => ms' = ms /\ forall i, slot i -> living_child p i (tab ms) = false
  | Sleeping => (forall i, slot i -> zombie_child p i (tab ms) = false) /\ (exists i, slot i /\ living_child p i (tab ms) = true) /\
      ms' = set_tab ms (schedule c (upd p (set_state BLOCKED_ON_CHILD) (tab ms))) /\
      (state (tk (tab ms') p) = BLOCKED_ON_CHILD \/ current (cp (tab ms') c) = Some p)
  end.
Proof.
  intros S Rc Cu Sm Ii Hz. pose proof (sf_sized _ _ S) as Sz. destruct (sf_cur _ _ S c p Rc Cu) as (Rp & Np & _).
  assert (Ec : cpu_current c (tab ms) = p) by (unfold cpu_current; by rewrite Sm, Cu).
  unfold task_wait_current. rewrite Ec. unfold reap_one_zombie_of. cbv zeta. change (Z.to_nat TASK_MAX) with 32%nat.
  change (fun i => is_state (tab ms) i ZOMBIE && (parent_id (tk (tab ms) i) =? id (tk (tab ms) p))) with (fun i => zombie_child p i (tab ms)).
  destruct (zfind 32 0 (fun i => zombie_child p i (tab ms))) as [i|] eqn:F.
  - pose proof F as F'. apply zfind_Some in F' as (Ri & Zi & _). assert (Si : slot i) by (unfold slot, TASK_MAX; lia).
    destruct (Hz i Si Zi) as (own' & Pm & Hv). destruct (reap_harvests ms i own' Sz Hv) as (ms' & E & D). rewrite E. cbn [mbind option_bind].
    rewrite (proj2 (Z.eqb_neq _ 0) (hv_pid _ _ _ Hv)). cbn [negb]. exists ms', (Reaped (id (tk (tab ms) i)) (exit_code (tk (tab ms) i))). split; [done |].
    destruct (safe_run (tab ms) l (OReap i) S (proj1 (hv_table _ _ _ Hv)) (proj2 (hv_table _ _ _ Hv))) as (l' & S' & _). rewrite (hd_table _ _ _ _ D). split; [by exists l' |].
    exists i, own'. do 5 (split; [done |]). cbn [run]. rewrite tk_upd_eq; [done | | done].
    pose proof (sf_sized _ _ S') as Z'. cbn [run] in Z'. destruct Z' as (L1 & L2). split; [| exact L2]. cbn in L1. by rewrite zlen_zset in L1.
  - rewrite zfind_None in F. cbn [mbind option_bind Z.eqb negb]. unfold has_any_live_or_zombie_child. change (Z.to_nat TASK_MAX) with 32%nat.
    change (fun i => (parent_id (tk (tab ms) i) =? id (tk (tab ms) p)) && negb (is_state (tab ms) i UNUSED || is_state (tab ms) i DEAD)) with (fun i => living_child p i (tab ms)).
    destruct (zfind 32 0 (fun i => living_child p i (tab ms))) as [i|] eqn:L; cbn [negb].
    + apply zfind_Some in L as (Ri & Li & _). eexists _, Sleeping. split; [reflexivity |]. cbn [tab set_tab].
      assert (S1 : safe (upd p (set_state BLOCKED_ON_CHILD) (tab ms)) l) by (by apply safe_suspend).
      split; [exists l; apply safe_schedule; [done | done | by left | rewrite cp_upd; by rewrite Cu] |].
      split; [intros j Rj; apply F; unfold slot, TASK_MAX in Rj; lia |]. split; [exists i; split; [unfold slot, TASK_MAX; lia | done] |]. split; [done |].
      set (s1 := upd p _ (tab ms)) in *. assert (C1 : current (cp s1 c) = Some p) by exact Cu. assert (M1 : g_smp_ready s1 = true) by exact Sm.
      destruct (choice_safe s1 l c p S1 Rc C1) as (Rn & _).
      destruct (schedule_spec s1 c p (sf_sized _ _ S1) Rc (or_introl M1) C1 Rp Rn) as [_ _ _ Tr Cr _].
      destruct (decide (choice c p s1 = p)) as [E | N]; [right; by rewrite Cr, Z.eqb_refl, E |]. left. rewrite Tr by (done || congruence).
      assert (T1 : state (tk s1 p) = BLOCKED_ON_CHILD) by (unfold s1; by rewrite tk_upd_eq).
      rewrite tk_demote, bool_decide_eq_false_2 by (done || apply S1 || (rewrite T1; by intros (_ & ? & _))). exact T1.
    + rewrite zfind_None in L. exists ms, NoChild. split; [done |]. split; [by exists l |]. split; [done |]. intros j Rj. apply L. unfold slot, TASK_MAX in Rj. lia.
Qed.

End Wait.

(** ** Witnesses: a user task and its zombie child, in the memory of [Paging] *)

Definition demo_heap : KMALLOC.heap := KMALLOC.kmalloc_init 65536 131072 ∅.

Lemma demo_heap_owns : owns demo_heap [].
Proof.
  destruct (KMALLOC.init_ok 65536 131072 ltac:(lia) ltac:(lia)) as (l & Ok & Ho). exists l. split; [exact Ok |].
  exists []. split; [unfold demo_heap; rewrite Ho; constructor | constructor].
Qed.

Definition demo_task (pid parent stack : Z) : task :=
  Task pid BLOCKED None 0 (-1) (-1) false parent 0
    (Context (zrep TASK_NAME_MAX 0) 0 stack PAGING.demo_pd (stack + TASK_STACK_SZ) 0 0 true)
    (Resources (zset (fds new_resources) 3 (Fd FD_PIPE_R 0 0 0 0)) 0 0 (zrep 32 0) 0 USER_HEAP_START (mmaps zero_resources) USER_MMAP_START TASK_CWD_ROOT
       pid pid 0 0 (zrep 4 0) false 0 0 0 0 0 0 0).

Definition demo_parent_ops : list op := [OSmpReady; OClaim; OSplice 0 1 (demo_task 1 0 0); OWake 1; OSchedule 0].

Definition demo_parent : sched := default boot (run_all demo_parent_ops (task_init 65536 boot)).

Lemma demo_parent_reachable : reachable demo_parent.
Proof. apply (reachable_all demo_parent_ops (task_init 65536 boot)); [apply reach_boot | vm_compute; reflexivity..]. Qed.

Definition demo_machine : machine KMALLOC.heap PIPE.pipes := Machine demo_parent PAGING.demo_space demo_heap (snd (PIPE.pipe_new (zrep PIPE.PIPE_MAX PIPE.pipe_zero)))
  (WM.Desktop None true None None 0).

Definition demo_regs : SIGNAL.regs := SIGNAL.Regs 35 1 2 3 4 5 6 7 8 128 0 1073741829 27 514 1077936128 35.

(** Every free frame lies outside the heap. *)
Lemma demo_apart h : arena h = (65536, 131072) -> forall q, PAGING.in_ram PAGING.demo_space q -> PAGING.used PAGING.demo_space q = false ->
  q + 4096 <= (arena h).1 \/ (arena h).2 <= q.
Proof.
  intros -> q (A & R) U. assert (T : PAGING.total PAGING.demo_space = 1024) by (vm_compute; reflexivity). rewrite T in R. cbn [fst snd].
  assert (F : forallb (fun p => PAGING.used PAGING.demo_space (p * 4096) || ((p + 1) * 4096 <=? 65536) || (131072 <=? p * 4096)) (seqZ 0 1024) = true) by (vm_compute; reflexivity).
  rewrite forallb_forall in F. unfold PAGING.aligned in A. pose proof (Z.div_mod q 4096 ltac:(lia)) as Dm. rewrite A in Dm.
  specialize (F (q / 4096)). rewrite (Z.mul_comm (q / 4096)) in F. replace (4096 * (q / 4096)) with q in F by lia. rewrite U in F.
  assert (I : In (q / 4096) (seqZ 0 1024)) by (apply list_elem_of_In, elem_of_seqZ; Z.div_mod_to_equations; lia).
  specialize (F I). cbn [orb] in F. apply orb_true_iff in F as [F | F]; zb; lia.
Qed.

Lemma demo_forkable : exists l, forkable demo_machine 0 1 l [].
Proof.
  destruct (safe_reachable demo_parent demo_parent_reachable) as (l & S). exists l. split.
  - exact S.
  - split; [vm_compute; reflexivity |]. destruct (decide (1 ∈ 0 :: l)) as [I | I]; [done |].
    destruct (sf_off _ _ S 1 ltac:(split; [discriminate | reflexivity]) I) as (N & _). vm_compute in N. discriminate N.
  - assert (F : find_free_slot demo_parent = Some 2) by (vm_compute; reflexivity). cbn [tab demo_machine]. rewrite F. intros i [= <-]. vm_compute. reflexivity.
  - assert (E : cr3 (ctx (tk demo_parent 1)) = PAGING.demo_pd) by (vm_compute; reflexivity). cbn [tab mm demo_machine]. rewrite E. exact PAGING.demo_space_cloneable.
  - exact demo_heap_owns.
  - refine (demo_apart demo_heap _). vm_compute. reflexivity.
Qed.

Lemma task_fork_correct_witness : (exists l, forkable demo_machine 0 1 l []) /\
  exists ms' i stack l, task_fork 7 false 0 demo_regs demo_machine = Some (ms', Some i) /\ forked 7 demo_machine ms' 1 i stack demo_regs l [] /\
    PIPE.read_refs (zget (objs ms') 0) = 2.
Proof.
  split; [exact demo_forkable |]. destruct demo_forkable as (l & F).
  destruct (task_fork_correct 7 false demo_machine 0 1 l [] demo_regs F) as (ms' & [i|] & E & A).
  - destruct A as (_ & stack & A). exists ms', i, stack, l. split; [exact E |]. split; [exact A |]. rewrite (fd_objs _ _ _ _ _ _ _ _ _ A). vm_compute. reflexivity.
  - exfalso. destruct A as ([A | [A | [(h & A) | A]]] & _).
    + vm_compute in A. discriminate A.
    + vm_compute in A. discriminate A.
    + assert (X : match alloc TASK_STACK_SZ (heap demo_machine) with Some (_, p) => p =? 0 | None => true end = false) by (vm_compute; reflexivity).
      rewrite A in X. discriminate X.
    + apply Z.ltb_lt in A. vm_compute in A. discriminate A.
Defined.








(** The child in slot 2 has ended and the parent runs again. *)
Definition demo_stack : Z := match alloc TASK_STACK_SZ demo_heap with Some (_, p) => p | None => 0 end.

Definition demo_wait_ops : list op := [OClaim; OSplice 0 2 (demo_task 2 1 demo_stack); OWake 2; OSchedule 0; OSuspend 0 ZOMBIE; OSchedule 0; OSchedule 0].

Definition demo_wait : machine KMALLOC.heap PIPE.pipes :=
  Machine (default boot (run_all demo_wait_ops demo_parent)) PAGING.demo_space
    (match alloc TASK_STACK_SZ demo_heap with Some (h, _) => h | None => demo_heap end) (objs demo_machine) (desk demo_machine).

Lemma demo_wait_reachable : reachable (tab demo_wait).
Proof. apply (reachable_all demo_wait_ops demo_parent); [apply demo_parent_reachable | vm_compute; reflexivity..]. Qed.

Lemma demo_wait_owns : owns (heap demo_wait) [(demo_stack, TASK_STACK_SZ)].
Proof.
  destruct (alloc_owns demo_heap [] TASK_STACK_SZ demo_heap_owns ltac:(unfold TASK_STACK_SZ; lia)) as (h & p & A & _ & D).
  assert (X : match alloc TASK_STACK_SZ demo_heap with Some (_, p) => p =? 0 | None => true end = false) by (vm_compute; reflexivity).
  cbn [heap demo_wait]. unfold demo_stack. rewrite A in *. zb. destruct D as [(D & _) | (_ & D)]; [done | exact D].
Qed.

Lemma frames_checked l : forallb (fun f => (f mod 4096 =? 0) && (0 <=? f) && (f <? 4294967296)) l = true ->
  Forall (fun f => PAGING.aligned f /\ 0 <= f < 4294967296) l.
Proof.
  rewrite forallb_forall. intros F. apply Forall_forall. intros f If%list_elem_of_In. specialize (F f If).
  rewrite !andb_true_iff, Z.eqb_eq, Z.leb_le, Z.ltb_lt in F. unfold PAGING.aligned. tauto.
Qed.

Lemma tables_checked v pd : forallb (fun k => negb (PAGING.frame_of (PAGING.word (PAGING.mem v) pd k) =? pd)) (seqZ 8 1016) = true ->
  forall k, 8 <= k < 1024 -> PAGING.present (PAGING.word (PAGING.mem v) pd k) = true -> PAGING.frame_of (PAGING.word (PAGING.mem v) pd k) <> pd.
Proof.
  rewrite forallb_forall. intros F k Rk _. assert (Ik : k ∈ seqZ 8 1016) by (apply elem_of_seqZ; lia).
  specialize (F k (proj1 (list_elem_of_In _ _) Ik)). by rewrite negb_true_iff, Z.eqb_neq in F.
Qed.

Lemma demo_wait_harvestable : harvestable demo_wait 2 [].
Proof.
  assert (E : cr3 (ctx (tk (tab demo_wait) 2)) = PAGING.demo_pd) by (vm_compute; reflexivity). split.
  - split; vm_compute; reflexivity.
  - vm_compute. discriminate.
  - split; [vm_compute; reflexivity | rewrite E; vm_compute; discriminate].
  - assert (Es : stack_base (ctx (tk (tab demo_wait) 2)) = demo_stack) by (vm_compute; reflexivity). rewrite Es.
    split; [vm_compute; discriminate | exact demo_wait_owns].
  - cbv zeta. rewrite E. cbn [mm demo_wait]. split; [exact PAGING.demo_space_ok |]. split; [vm_compute; discriminate |].
    split; [vm_compute; reflexivity |]. split; [vm_compute; discriminate |]. split.
    + apply tables_checked. vm_compute. reflexivity.
    + apply frames_checked. vm_compute. reflexivity.
Qed.

Lemma task_wait_correct_witness : reachable (tab demo_wait) /\ harvestable demo_wait 2 [] /\
  exists ms', task_wait_current 0 demo_wait = Some (ms', Reaped 2 0) /\ harvested demo_wait ms' 2 [].
Proof.
  split; [exact demo_wait_reachable |]. split; [exact demo_wait_harvestable |]. destruct (safe_reachable _ demo_wait_reachable) as (l & S).
  assert (Fz : zfind 32 0 (fun i => zombie_child 1 i (tab demo_wait)) = Some 2) by (vm_compute; reflexivity).
  assert (Es : stack_base (ctx (tk (tab demo_wait) 2)) = demo_stack) by (vm_compute; reflexivity).
  assert (Only : forallb (fun i => negb (zombie_child 1 i (tab demo_wait)) || (i =? 2)) (seqZ 0 32) = true) by (vm_compute; reflexivity).
  destruct (task_wait_correct demo_wait 0 1 l [(demo_stack, TASK_STACK_SZ)]) as (ms' & a & E & _ & A).
  - exact S.
  - split; [discriminate | reflexivity].
  - vm_compute. reflexivity.
  - vm_compute. reflexivity.
  - vm_compute. reflexivity.
  - intros i Ri Zi. rewrite forallb_forall in Only. specialize (Only i). rewrite Zi in Only. cbn [negb orb] in Only.
    assert (I : i ∈ seqZ 0 32) by (clear -Ri; apply elem_of_seqZ; unfold slot, TASK_MAX in Ri; lia).
    assert (E : i = 2) by (apply Z.eqb_eq, Only, list_elem_of_In; exact I). subst i.
    exists []. split; [by rewrite Es | exact demo_wait_harvestable].
  - destruct a as [pid code | |].
    + destruct A as (i & own' & F & -> & -> & Pm & D & _). rewrite Fz in F. injection F as <-. exists ms'. split.
      * rewrite E. assert (Ei : id (tk (tab demo_wait) 2) = 2) by (vm_compute; reflexivity). assert (Ex : exit_code (tk (tab demo_wait) 2) = 0) by (vm_compute; reflexivity). rewrite Ei, Ex. reflexivity.
      * rewrite Es in Pm. apply (Permutation_cons_inv) in Pm. apply Permutation_nil in Pm. by subst own'.
    + destruct A as (-> & A). exfalso. specialize (A 2 ltac:(split; [discriminate | reflexivity])). vm_compute in A. discriminate A.
    + destruct A as (A & _). exfalso. specialize (A 2 ltac:(split; [discriminate | reflexivity])). vm_compute in A. discriminate A.
Defined.

(** The wake-up that is lost: [task_wait_current] found a living child and no zombie, and
    the timer takes the processor before it stores BLOCKED_ON_CHILD.  The child ends
    and wakes nobody, since its parent is READY; then the parent goes to sleep with a
    zombie child, and nothing is left that would wake it. *)
Lemma wait_loses_wakeup : exists ms : machine KMALLOC.heap PIPE.pipes, reachable (tab ms) /\ cpu_current 0 (tab ms) = 1 /\
  zfind 32 0 (fun i => zombie_child 1 i (tab ms)) = None /\ has_any_live_or_zombie_child 1 (tab ms) = true /\
  let preempted := set_tab ms (schedule 0 (tab ms)) in
  (match task_exit_current 0 7 preempted with Some _ => true | None => false end) = true /\ let ended := default preempted (task_exit_current 0 7 preempted) in
  let resumed := schedule 0 (schedule 0 (tab ended)) in
  cpu_current 0 (tab preempted) = 2 /\ cpu_current 0 resumed = 1 /\
  let asleep := schedule 0 (upd 1 (set_state BLOCKED_ON_CHILD) resumed) in
  state (tk asleep 1) = BLOCKED_ON_CHILD /\ zombie_child 1 2 asleep = true /\ cpu_current 0 asleep = 0.
Proof.
  set (os := [OClaim; OSplice 0 2 (demo_task 2 1 0); OWake 2]).
  exists (set_tab demo_machine (default boot (run_all os demo_parent))). split.
  - apply (reachable_all os demo_parent); [apply demo_parent_reachable | vm_compute; reflexivity..].
  - vm_compute. repeat (split; [reflexivity |]). reflexivity.
Qed.

End PROC.
