(* ===== verification/Bignum.v ===== *)
(** Multi-precision integers ([libcrypto/bignum.c], [libcrypto/bignum.h]).

    A [bignum] is the struct of 144 32-bit limbs, least significant first, and
    the count of significant limbs. Every function of the file is one
    Definition over it. A function that writes through its result pointer
    returns the struct it leaves there; the functions overwrite every limb of
    the result, so its former contents do not matter, and each limb is read
    before the limb of the same index is written, so that the calls of the
    file that pass one struct twice mean the same.

    [val] is the number a struct stands for and [wf] the two invariants of
    bignum.h. The theorems say that each function keeps [wf] and computes the
    arithmetic operation on [val], with the capacity of 4608 bits written out. *)

From stdpp Require Import base numbers list option.
From Stdlib Require Import ZArith Znumtheory Lia.
From S2P Require Import Prelude.

Module BIGNUM.

(** ** The struct *)

Definition BN_MAX_LIMBS : Z := 144.

Record bignum := mk_bignum { bv : list Z; bn : Z }.

(** A loop [for (i = n - 1; i >= 0; i--) s = f(i, s);]. *)
Fixpoint zdown {St} (n : nat) (f : Z -> St -> St) (s : St) : St :=
  match n with
  | O => s
  | S n' => zdown n' f (f (Z.of_nat n') s)
  end.

(** [while (b->n > 0 && b->v[b->n - 1] == 0) b->n--;] *)
Fixpoint trim (v : list Z) (n : nat) : Z :=
  match n with
  | O => 0
  | S n' => if zget v (Z.of_nat n') =? 0 then trim v n' else Z.of_nat n
  end.

Definition bn_trim (b : bignum) : bignum := mk_bignum (bv b) (trim (bv b) (Z.to_nat (bn b))).

(** [for (int i = n; i < BN_MAX_LIMBS; i++) v[i] = 0;] *)
Definition clear_from (n : Z) (v : list Z) : list Z :=
  zfor (Z.to_nat (BN_MAX_LIMBS - n)) n (fun i v => zset v i 0) v.

Definition bn_clear_high (b : bignum) : bignum := mk_bignum (clear_from (bn b) (bv b)) (bn b).

Definition bn_zero : bignum := mk_bignum (zrep BN_MAX_LIMBS 0) 0.

Definition bn_set_u32 (value : Z) : bignum :=
  if value =? 0 then bn_zero else mk_bignum (zset (bv bn_zero) 0 value) 1.

Definition bn_copy (a : bignum) : bignum := mk_bignum (bv a) (bn a).

(** ** Bytes *)

(** One round of the reading loop: shift left by a byte, then OR the byte in. *)
Definition shl8 (v : list Z) : list Z :=
  fst (zfor (Z.to_nat BN_MAX_LIMBS) 0 (fun j '(v, carry) =>
         let cur := Z.lor (Z.shiftl (zget v j) 8) carry in
         (zset v j (u32 cur), u32 (Z.shiftr cur 32))) (v, 0)).

Definition bn_from_bytes_be (buf : list Z) (n : Z) : bignum :=
  let v := zfor (Z.to_nat n) 0 (fun i v =>
             let v := shl8 v in zset v 0 (Z.lor (zget v 0) (zget buf i))) (bv bn_zero) in
  bn_trim (mk_bignum v BN_MAX_LIMBS).

Definition shr8 (v : list Z) : list Z :=
  fst (zdown (Z.to_nat BN_MAX_LIMBS) (fun j '(v, carry) =>
         let lo := zget v j in
         (zset v j (Z.lor (Z.shiftr lo 8) (u32 (Z.shiftl carry 24))), Z.land lo 255)) (v, 0)).

Definition bn_to_bytes_be (b : bignum) (buf : list Z) (n : Z) : list Z :=
  snd (zdown (Z.to_nat n) (fun i '(v, buf) =>
         (shr8 v, zset buf i (u8 (Z.land (zget v 0) 255)))) (bv (bn_copy b), buf)).

(** [while (bits > 0 && !(top & (1u << (bits - 1)))) bits--;] *)
Fixpoint top_bits (top : Z) (bits : nat) : Z :=
  match bits with
  | O => 0
  | S n => if Z.land top (u32 (Z.shiftl 1 (Z.of_nat n))) =? 0 then top_bits top n else Z.of_nat bits
  end.

Definition bn_bit_length (b : bignum) : Z :=
  if bn b =? 0 then 0 else (bn b - 1) * 32 + top_bits (zget (bv b) (bn b - 1)) 32.

Definition bn_byte_length (b : bignum) : Z := (bn_bit_length b + 7) / 8.

(** ** Comparison and bits *)

Fixpoint cmp_down (a b : list Z) (n : nat) : Z :=
  match n with
  | O => 0
  | S n' =>
      let i := Z.of_nat n' in
      if zget a i =? zget b i then cmp_down a b n'
      else if zget a i >? zget b i then 1 else -1
  end.

Definition bn_cmp (a b : bignum) : Z :=
  if bn a =? bn b then cmp_down (bv a) (bv b) (Z.to_nat (bn a))
  else if bn a >? bn b then 1 else -1.

Definition bn_is_zero (b : bignum) : bool := bn b =? 0.

Definition bn_is_odd (b : bignum) : bool := (bn b >? 0) && negb (Z.land (zget (bv b) 0) 1 =? 0).

Definition bn_bit_at (b : bignum) (bit : Z) : Z :=
  let limb := Z.shiftr bit 5 in
  let shift := Z.land bit 31 in
  if limb >=? bn b then 0 else Z.land (Z.shiftr (zget (bv b) limb) shift) 1.

(** ** Addition, subtraction, shifts *)

Definition bn_add (a b : bignum) : bignum :=
  let n := if bn a >? bn b then bn a else bn b in
  let '(v, carry) := zfor (Z.to_nat n) 0 (fun i '(v, carry) =>
        let s := u64 (zget (bv a) i + zget (bv b) i + carry) in
        (zset v i (u32 s), Z.shiftr s 32)) (zrep BN_MAX_LIMBS 0, 0) in
  let '(v, n) := if carry =? 0 then (v, n) else (zset v n (u32 carry), n + 1) in
  bn_trim (mk_bignum (clear_from n v) n).

(** [None] is the return value -1: nothing is written. *)
Definition bn_sub (a b : bignum) : option bignum :=
  if bn_cmp a b <? 0 then None else
  let n := bn a in
  let '(v, _) := zfor (Z.to_nat n) 0 (fun i '(v, borrow) =>
        let diff := zget (bv a) i - zget (bv b) i - borrow in
        let '(diff, borrow) := if diff <? 0 then (diff + 4294967296, 1) else (diff, 0) in
        (zset v i (u32 diff), borrow)) (zrep BN_MAX_LIMBS 0, 0) in
  Some (bn_trim (mk_bignum (clear_from n v) n)).

(** A call [bn_sub(&r, a, b)] whose return value is ignored. *)
Definition bn_sub_into (r a b : bignum) : bignum := default r (bn_sub a b).

Definition bn_lshift1 (b : bignum) : bignum :=
  let '(v, _) := zfor (Z.to_nat BN_MAX_LIMBS) 0 (fun i '(v, carry) =>
        let lo := zget v i in
        (zset v i (Z.lor (u32 (Z.shiftl lo 1)) carry), Z.shiftr lo 31)) (bv b, 0) in
  let n :=
    if negb (zget v (BN_MAX_LIMBS - 1) =? 0) then BN_MAX_LIMBS
    else if (bn b <? BN_MAX_LIMBS) && negb (zget v (bn b) =? 0) then bn b + 1 else bn b in
  bn_trim (mk_bignum v n).

Definition bn_rshift1 (b : bignum) : bignum :=
  let '(v, _) := zdown (Z.to_nat BN_MAX_LIMBS) (fun i '(v, carry) =>
        let lo := zget v i in
        (zset v i (Z.lor (Z.shiftr lo 1) (u32 (Z.shiftl carry 31))), Z.land lo 1)) (bv b, 0) in
  bn_trim (mk_bignum v (bn b)).

(** ** Multiplication and remainder *)

(** Row [i] of the schoolbook product. *)
Definition mul_row (a b : bignum) (i : Z) (r : list Z) : list Z :=
  let '(r, carry) := zfor (Z.to_nat (Z.min (bn b) (BN_MAX_LIMBS - i))) 0 (fun j '(r, carry) =>
        let prod := u64 (zget (bv a) i * zget (bv b) j + zget r (i + j) + carry) in
        (zset r (i + j) (u32 prod), Z.shiftr prod 32)) (r, 0) in
  if i + bn b <? BN_MAX_LIMBS then
    let s := u64 (zget r (i + bn b) + carry) in zset r (i + bn b) (u32 s)
  else r.

Definition bn_mul (a b : bignum) : bignum :=
  let rn := bn a + bn b in
  let rn := if rn >? BN_MAX_LIMBS then BN_MAX_LIMBS else rn in
  bn_trim (mk_bignum (zfor (Z.to_nat (bn a)) 0 (mul_row a b) (zrep BN_MAX_LIMBS 0)) rn).

(** [bn_lshift1(&rem); if (bn_bit_at(a, i)) { rem.v[0] |= 1u; if (rem.n == 0) rem.n = 1; }] *)
Definition shift_in (a : bignum) (i : Z) (rem : bignum) : bignum :=
  let rem := bn_lshift1 rem in
  if bn_bit_at a i =? 0 then rem
  else mk_bignum (zset (bv rem) 0 (Z.lor (zget (bv rem) 0) 1)) (if bn rem =? 0 then 1 else bn rem).

Definition bn_mod (a m : bignum) : bignum :=
  if bn_cmp a m <? 0 then bn_copy a else
  let rem := zdown (Z.to_nat (bn_bit_length a)) (fun i rem =>
        let rem := shift_in a i rem in
        if bn_cmp rem m >=? 0 then bn_sub_into rem rem m else rem) bn_zero in
  bn_clear_high (bn_copy rem).

Definition bn_modmul (a b m : bignum) : bignum := bn_mod (bn_mul a b) m.

Definition bn_modpow (base exp m : bignum) : bignum :=
  let ebits := bn_bit_length exp in
  fst (zfor (Z.to_nat ebits) 0 (fun i '(acc, b) =>
         let acc := if bn_bit_at exp i =? 0 then acc else bn_copy (bn_modmul acc b m) in
         let b := if i + 1 <? ebits then bn_copy (bn_modmul b b m) else b in
         (acc, b)) (bn_set_u32 1, bn_mod base m)).

(** ** Greatest common divisor *)

(** [while (!bn_is_odd(&x)) bn_rshift1(&x);] with fuel. *)
Fixpoint make_odd (fuel : nat) (x : bignum) : option bignum :=
  match fuel with
  | O => None
  | S k => if bn_is_odd x then Some x else make_odd k (bn_rshift1 x)
  end.

(** [while (!bn_is_odd(&x) && !bn_is_odd(&y)) { shift both; shift++; }] *)
Fixpoint halve_both (fuel : nat) (x y : bignum) (shift : nat) : option (bignum * bignum * nat) :=
  match fuel with
  | O => None
  | S k => if bn_is_odd x || bn_is_odd y then Some (x, y, shift)
           else halve_both k (bn_rshift1 x) (bn_rshift1 y) (S shift)
  end.

(** The reduction of two odd numbers. *)
Fixpoint stein (fuel inner : nat) (x y : bignum) : option bignum :=
  match fuel with
  | O => None
  | S k =>
      if bn_cmp x y =? 0 then Some x
      else if bn_cmp x y >? 0 then
        x ← make_odd inner (bn_sub_into x x y); stein k inner x y
      else
        y ← make_odd inner (bn_sub_into y y x); stein k inner x y
  end.

Definition bn_gcd (fuel : nat) (a b : bignum) : option bignum :=
  let x := bn_copy a in
  let y := bn_copy b in
  if bn_is_zero x then Some (bn_copy y) else
  if bn_is_zero y then Some (bn_copy x) else
  '(x, y, shift) ← halve_both fuel x y 0%nat;
  x ← make_odd fuel x;
  y ← make_odd fuel y;
  r ← stein fuel fuel x y;
  Some (zfor shift 0 (fun _ => bn_lshift1) (bn_copy r)).

(** ** Modular inverse *)

(** A signed magnitude: the struct and its [neg] flag. *)
Definition bn_signed_add (a : bignum) (a_neg : bool) (b : bignum) (b_neg : bool) : bignum * bool :=
  if eqb a_neg b_neg then (bn_add a b, a_neg) else
  let c := bn_cmp a b in
  if c =? 0 then (bn_zero, false)
  else if c >? 0 then (bn_sub_into a a b, a_neg)
  else (bn_sub_into a b a, b_neg).

(** The division inside the loop of bn_modinv: quotient and remainder. *)
Definition bn_divide (a m : bignum) : bignum * bignum :=
  zdown (Z.to_nat (bn_bit_length a)) (fun i '(quot, rem) =>
    let rem := shift_in a i rem in
    if bn_cmp rem m >=? 0 then
      let qlimb := Z.shiftr i 5 in
      let qshift := Z.land i 31 in
      (mk_bignum (zset (bv quot) qlimb (Z.lor (zget (bv quot) qlimb) (u32 (Z.shiftl 1 qshift))))
                 (if bn quot <=? qlimb then qlimb + 1 else bn quot),
       bn_sub_into rem rem m)
    else (quot, rem)) (bn_zero, bn_zero).

Record euclid := mk_euclid
  { old_r : bignum; rr : bignum; old_s : bignum; old_s_neg : bool; s_ : bignum; s_neg : bool }.

Definition euclid_step (e : euclid) : euclid :=
  let q := bn_copy (fst (bn_divide (old_r e) (rr e))) in
  let new_r := bn_sub_into bn_zero (old_r e) (bn_mul q (rr e)) in
  let '(new_s, new_s_neg) := bn_signed_add (bn_mul q (s_ e)) (negb (s_neg e)) (old_s e) (old_s_neg e) in
  mk_euclid (bn_copy (rr e)) (bn_copy new_r) (bn_copy (s_ e)) (s_neg e) (bn_copy new_s) new_s_neg.

(** [while (!bn_is_zero(&rr)) ...] with fuel. *)
Fixpoint euclid_loop (fuel : nat) (e : euclid) : option euclid :=
  match fuel with
  | O => None
  | S k => if bn_is_zero (rr e) then Some e else euclid_loop k (euclid_step e)
  end.

(** [Some None] is the return value -1, [None] is the end of the fuel. *)
Definition bn_modinv (fuel : nat) (a m : bignum) : option (option bignum) :=
  e ← euclid_loop fuel (mk_euclid (bn_copy a) (bn_copy m) (bn_set_u32 1) false (bn_set_u32 0) false);
  Some (if negb (bn_cmp (old_r e) (bn_set_u32 1) =? 0) then None else
        if old_s_neg e then Some (bn_sub_into bn_zero m (bn_mod (old_s e) m))
        else Some (bn_mod (old_s e) m)).

(** ** Sums of limbs *)

Abbreviation W := 4294967296.

(** The number the first [k] limbs stand for. *)
Fixpoint lsum (f : Z -> Z) (k : nat) : Z :=
  match k with
  | O => 0
  | S k' => lsum f k' + f (Z.of_nat k') * W ^ Z.of_nat k'
  end.

Definition psum (v : list Z) (k : Z) : Z := lsum (zget v) (Z.to_nat k).

Definition val (b : bignum) : Z := psum (bv b) BN_MAX_LIMBS.

Definition limbs_ok (v : list Z) : Prop :=
  zlen v = BN_MAX_LIMBS /\ forall i, 0 <= i < BN_MAX_LIMBS -> 0 <= zget v i < W.

(** The invariants of bignum.h: limbs above [n] are zero and [n] is the least such count. *)
Definition wf (b : bignum) : Prop :=
  limbs_ok (bv b) /\ 0 <= bn b <= BN_MAX_LIMBS /\
  (forall i, bn b <= i < BN_MAX_LIMBS -> zget (bv b) i = 0) /\
  (0 < bn b -> zget (bv b) (bn b - 1) <> 0).

(** The capacity: 2^4608. *)
Definition CAP : Z := W ^ BN_MAX_LIMBS.

Lemma Wpow_pos i : 0 <= i -> 0 < W ^ i.
Proof. intros. apply Z.pow_pos_nonneg; lia. Qed.

Lemma CAP_pos : 0 < CAP.
Proof. by apply Wpow_pos. Qed.

Lemma Wpow_S i : 0 <= i -> W ^ (i + 1) = W * W ^ i.
Proof. intros. by rewrite Z.pow_add_r, Z.mul_comm by lia. Qed.

Lemma Wpow_le i j : 0 <= i <= j -> W ^ i <= W ^ j.
Proof. intros. apply Z.pow_le_mono_r; lia. Qed.

#[local] Hint Resolve Wpow_pos : advent.

Lemma lsum_ext f g k : (forall i, 0 <= i < Z.of_nat k -> f i = g i) -> lsum f k = lsum g k.
Proof. induction k as [|k IH]; intros E; simpl; [done |]. rewrite IH, E by (try intros; try apply E; lia). done. Qed.

Lemma psum_0 v : psum v 0 = 0.
Proof. done. Qed.

Lemma psum_S v k : 0 <= k -> psum v (k + 1) = psum v k + zget v k * W ^ k.
Proof.
  intros. unfold psum. replace (Z.to_nat (k + 1)) with (S (Z.to_nat k)) by lia. simpl.
  by rewrite Z2Nat.id by lia.
Qed.

Lemma psum_ext v w k : (forall i, 0 <= i < k -> zget v i = zget w i) -> psum v k = psum w k.
Proof. intros E. apply lsum_ext. intros. apply E. lia. Qed.

(** Induction on the number of limbs. *)
Lemma z_nat_ind (P : Z -> Prop) k : 0 <= k -> P 0 -> (forall i, 0 <= i < k -> P i -> P (i + 1)) -> P k.
Proof.
  intros K P0 PS. cut (forall n, (n <= Z.to_nat k)%nat -> P (Z.of_nat n)).
  { intros F. specialize (F (Z.to_nat k)). rewrite Z2Nat.id in F by done. by apply F. }
  induction n as [|n IH]; intros; [done |]. rewrite Nat2Z.inj_succ, <- Z.add_1_r. apply PS; [lia |]. apply IH. lia.
Qed.

Lemma psum_bound v k : 0 <= k -> (forall i, 0 <= i < k -> 0 <= zget v i < W) -> 0 <= psum v k < W ^ k.
Proof.
  intros K. apply (z_nat_ind (fun k => (forall i, 0 <= i < k -> 0 <= zget v i < W) -> 0 <= psum v k < W ^ k) k K).
  - intros _. rewrite psum_0. lia.
  - intros i Ri IH R. rewrite psum_S, Wpow_S by lia. pose proof (Wpow_pos i). pose proof (R i ltac:(lia)).
    destruct (IH ltac:(intros; apply R; lia)). nia.
Qed.

Lemma psum_zset v i x k : 0 <= i < zlen v -> 0 <= k ->
  psum (zset v i x) k = psum v k + (if i <? k then (x - zget v i) * W ^ i else 0).
Proof.
  intros I K. apply (z_nat_ind (fun k => psum (zset v i x) k = psum v k + (if i <? k then (x - zget v i) * W ^ i else 0)) k K).
  - rewrite !psum_0. cases; lia.
  - intros j Rj IH. rewrite !psum_S, IH by lia. destruct (decide (j = i)) as [-> | N].
    + rewrite zget_zset_eq by done. repeat cases; lia.
    + rewrite zget_zset_ne by lia. repeat cases; lia.
Qed.

Lemma psum_zset_ge v i x k : 0 <= k <= i -> psum (zset v i x) k = psum v k.
Proof. intros. apply psum_ext. intros. rewrite zget_zset_ne; lia. Qed.

(** Zero limbs add nothing. *)
Lemma psum_zeros v k n : 0 <= k <= n -> (forall i, k <= i < n -> zget v i = 0) -> psum v n = psum v k.
Proof.
  intros K. replace n with (k + (n - k)) by lia.
  apply (z_nat_ind (fun d => (forall i, k <= i < k + d -> zget v i = 0) -> psum v (k + d) = psum v k) (n - k)); [lia | |].
  - intros. by rewrite Z.add_0_r.
  - intros d Rd IH F. rewrite Z.add_assoc, psum_S, F by lia. rewrite IH by (intros; apply F; lia). lia.
Qed.

(** Up to a multiple of [W^k] only the first [k] limbs count. *)
Lemma psum_split v k n : 0 <= k <= n -> exists q, psum v n = psum v k + q * W ^ k.
Proof.
  intros K. replace n with (k + (n - k)) by lia.
  apply (z_nat_ind (fun d => exists q, psum v (k + d) = psum v k + q * W ^ k) (n - k)); [lia | exists 0; rewrite Z.add_0_r; lia |].
  intros d Rd (q & E). exists (q + zget v (k + d) * W ^ d).
  rewrite Z.add_assoc, psum_S, E, Z.pow_add_r by lia. lia.
Qed.

(** A limb is no more than the number. *)
Lemma psum_limb v i n : (forall i, 0 <= i < n -> 0 <= zget v i < W) -> 0 <= i < n -> zget v i * W ^ i <= psum v n.
Proof.
  intros R I. replace n with (i + 1 + (n - i - 1)) by lia.
  apply (z_nat_ind (fun d => zget v i * W ^ i <= psum v (i + 1 + d)) (n - i - 1)); [lia | |].
  - rewrite Z.add_0_r, psum_S by lia. destruct (psum_bound v i); [lia | intros; apply R; lia | lia].
  - intros d Rd IH. rewrite Z.add_assoc, psum_S by lia. pose proof (R (i + 1 + d) ltac:(lia)).
    pose proof (Wpow_pos (i + 1 + d) ltac:(lia)). nia.
Qed.

(** The limbs from [k] on are zero in a number below [W^k]. *)
Lemma limb_zero v k i : limbs_ok v -> psum v BN_MAX_LIMBS < W ^ k -> 0 <= k <= i -> i < BN_MAX_LIMBS -> zget v i = 0.
Proof.
  intros (_ & R) L K I. pose proof (psum_limb v i BN_MAX_LIMBS R ltac:(lia)). pose proof (R i ltac:(lia)).
  pose proof (Wpow_le k i ltac:(lia)). pose proof (Wpow_pos k ltac:(lia)). nia.
Qed.

(** Modulo a divisor of the limb size only the lowest limb counts. *)
Lemma psum_low v d n : 0 < d -> (d | W) -> 1 <= n -> psum v n mod d = zget v 0 mod d.
Proof.
  intros P (k & E) N. destruct (psum_split v (0 + 1) n) as (q & ->); [lia |].
  rewrite psum_S, psum_0, Z.pow_0_r, Z.pow_1_r by lia. rewrite E.
  replace (0 + zget v 0 * 1 + q * (k * d)) with (zget v 0 + q * k * d) by ring. by apply Z.mod_add; lia.
Qed.

(** OR-ing into clear low bits. *)
Lemma lor_clear n x c : 0 <= n -> x mod 2 ^ n = 0 -> 0 <= c < 2 ^ n -> Z.lor x c = x + c.
Proof.
  intros N M C. rewrite (Z.div_mod x (2 ^ n)) at 1 by lia. rewrite M, Z.add_0_r, Z.lor_comm, Z.mul_comm, lor_add by lia.
  pose proof (Z.div_mod x (2 ^ n) ltac:(lia)). lia.
Qed.

Lemma zget_zero i : 0 <= i < BN_MAX_LIMBS -> zget (zrep BN_MAX_LIMBS 0) i = 0.
Proof. apply zget_zrep. Qed.

Lemma limbs_zero : limbs_ok (zrep BN_MAX_LIMBS 0).
Proof. split; [by apply zlen_zrep |]. intros. rewrite zget_zero; lia. Qed.

Lemma limbs_zset v i x : limbs_ok v -> 0 <= x < W -> limbs_ok (zset v i x).
Proof.
  intros (L & R) X. split; [by rewrite zlen_zset |]. intros j Rj.
  destruct (decide (0 <= i)).
  - destruct (decide (i = j)) as [-> | N]; [rewrite zget_zset_eq; lia | rewrite zget_zset_ne by lia; by apply R].
  - unfold zset. replace (Z.to_nat i) with 0%nat by lia. change 0%nat with (Z.to_nat 0). fold (zset v 0 x).
    destruct (decide (j = 0)) as [-> | N]; [rewrite zget_zset_eq; lia | rewrite zget_zset_ne by lia; by apply R].
Qed.

Lemma psum_zero k : 0 <= k <= BN_MAX_LIMBS -> psum (zrep BN_MAX_LIMBS 0) k = 0.
Proof. intros. rewrite (psum_zeros _ 0) by (lia || intros; apply zget_zero; lia). done. Qed.

#[local] Hint Resolve limbs_zero limbs_zset : advent.

(** ** Well-formed numbers *)

Lemma trim_spec v n : 
  let k := trim v n in
  0 <= k <= Z.of_nat n /\ (forall i, k <= i < Z.of_nat n -> zget v i = 0) /\ (0 < k -> zget v (k - 1) <> 0).
Proof.
  induction n as [|n IH]; cbn [trim]; [split; [lia | split; intros; lia] |]. cases.
  - destruct IH as (R & Z0 & N). split; [lia |]. split; [| done]. intros i Ri.
    destruct (decide (i = Z.of_nat n)) as [-> | Ne]; [done | apply Z0; lia].
  - split; [lia |]. split; [intros; lia |]. intros _. by replace (Z.of_nat (S n) - 1) with (Z.of_nat n) by lia.
Qed.

(** bn_trim makes the count right and does not touch the limbs. *)
Lemma wf_trim v n : limbs_ok v -> 0 <= n <= BN_MAX_LIMBS -> (forall i, n <= i < BN_MAX_LIMBS -> zget v i = 0) ->
  wf (bn_trim (mk_bignum v n)).
Proof.
  intros L N Z0. pose proof (trim_spec v (Z.to_nat n)) as (R & Z1 & Ne). cbv zeta in *.
  rewrite Z2Nat.id in * by lia. split; [done |]. cbn [bn bv bn_trim]. split; [lia |]. split; [| done].
  intros i Ri. destruct (decide (i < n)); [apply Z1 | apply Z0]; lia.
Qed.

Lemma val_trim b : val (bn_trim b) = val b.
Proof. unfold val, bn_trim. cbn [bv]. reflexivity. Qed.

Lemma clear_from_spec n v : limbs_ok v -> 0 <= n ->
  limbs_ok (clear_from n v) /\ (forall i, 0 <= i < n -> zget (clear_from n v) i = zget v i) /\
  (forall i, n <= i < BN_MAX_LIMBS -> zget (clear_from n v) i = 0).
Proof.
  intros L N. unfold clear_from.
  pose proof (zfor_ind (fun k w => limbs_ok w /\ (forall i, 0 <= i < n -> zget w i = zget v i) /\
                                  (forall i, n <= i < Z.min k BN_MAX_LIMBS -> zget w i = 0))
                (Z.to_nat (BN_MAX_LIMBS - n)) n (fun i w => zset w i 0) v) as H.
  destruct H as (L' & E & Z0).
  - split; [done |]. split; [done | intros; lia].
  - intros k w Rk (Lw & Ew & Zw). split; [by apply limbs_zset |]. split; intros i Ri.
    + rewrite zget_zset_ne by lia. by apply Ew.
    + destruct Lw as (Len & _). destruct (decide (i = k)) as [-> | Ne].
      * apply zget_zset_eq. lia.
      * rewrite zget_zset_ne by lia. apply Zw. lia.
  - split; [done |]. split; [done |]. intros i Ri. apply Z0. lia.
Qed.

(** The common end of bn_add and bn_sub. *)
Lemma clear_trim n v : limbs_ok v -> 0 <= n <= BN_MAX_LIMBS ->
  wf (bn_trim (mk_bignum (clear_from n v) n)) /\ val (bn_trim (mk_bignum (clear_from n v) n)) = psum v n.
Proof.
  intros L N. destruct (clear_from_spec n v L) as (L' & E & Z0); [lia |]. split; [by apply wf_trim; [| lia |] |].
  unfold val. cbn [bv bn_trim]. rewrite (psum_zeros _ n) by (try done; lia). by apply psum_ext.
Qed.

Section Wf.
Context (b : bignum) (WF : wf b).

Lemma wf_limb i : 0 <= i < BN_MAX_LIMBS -> 0 <= zget (bv b) i < W.
Proof. apply WF. Qed.

Lemma wf_n : 0 <= bn b <= BN_MAX_LIMBS.
Proof. apply WF. Qed.

Lemma wf_len : zlen (bv b) = BN_MAX_LIMBS.
Proof. apply WF. Qed.

Lemma wf_high i : bn b <= i < BN_MAX_LIMBS -> zget (bv b) i = 0.
Proof. apply WF. Qed.

Lemma val_psum n : bn b <= n <= BN_MAX_LIMBS -> psum (bv b) n = val b.
Proof.
  intros N. pose proof wf_n. unfold val.
  rewrite (psum_zeros _ (bn b) n), (psum_zeros _ (bn b) BN_MAX_LIMBS) by (try lia; intros; apply wf_high; lia).
  reflexivity.
Qed.

Lemma val_range : 0 <= val b < CAP.
Proof. apply psum_bound; [done | apply wf_limb]. Qed.

Lemma val_below : val b < W ^ bn b.
Proof. pose proof wf_n. rewrite <- (val_psum (bn b)) by lia. apply psum_bound; [lia |]. intros. apply wf_limb. lia. Qed.

Lemma val_above : 0 < bn b -> W ^ (bn b - 1) <= val b.
Proof.
  intros P. pose proof wf_n. rewrite <- (val_psum (bn b)) by lia. replace (bn b) with (bn b - 1 + 1) at 2 by lia.
  rewrite psum_S by lia. destruct (psum_bound (bv b) (bn b - 1)) as (Lo & _); [lia | intros; apply wf_limb; lia |].
  assert (zget (bv b) (bn b - 1) <> 0) by (by apply WF). pose proof (wf_limb (bn b - 1) ltac:(lia)).
  pose proof (Wpow_pos (bn b - 1) ltac:(lia)). nia.
Qed.

Lemma val_zero : bn b = 0 <-> val b = 0.
Proof.
  pose proof wf_n. split; intros E.
  - rewrite <- (val_psum 0) by lia. done.
  - destruct (decide (0 < bn b)) as [P | N]; [| lia]. pose proof (val_above P). pose proof (Wpow_pos (bn b - 1)). lia.
Qed.

End Wf.

#[local] Hint Resolve wf_n wf_limb val_range : advent.

#[global] Opaque lsum.

(** A rule for loops that count down. *)
Lemma zdown_ind {St} (P : Z -> St -> Prop) n (f : Z -> St -> St) s :
  P (Z.of_nat n) s -> (forall k s, 0 <= k < Z.of_nat n -> P (k + 1) s -> P k (f k s)) -> P 0 (zdown n f s).
Proof.
  revert s. induction n as [|n IH]; intros s H0 Hs; cbn [zdown]; [done |].
  apply IH; [| intros; apply Hs; [lia | done]].
  apply Hs; [lia |]. by replace (Z.of_nat n + 1) with (Z.of_nat (S n)) by lia.
Qed.

(** The invariant rule for the loops over an array and a carry. *)
Lemma zfor_pair_ind {A B} (P : Z -> A -> B -> Prop) n i (f : Z -> A * B -> A * B) a b :
  P i a b -> (forall k a b, i <= k < i + Z.of_nat n -> P k a b -> P (k + 1) (fst (f k (a, b))) (snd (f k (a, b)))) ->
  P (i + Z.of_nat n) (fst (zfor n i f (a, b))) (snd (zfor n i f (a, b))).
Proof.
  intros H0 Hs. apply (zfor_ind (fun i s => P i (fst s) (snd s))); [done |].
  intros k [a' b'] Rk. by apply Hs.
Qed.

Lemma zdown_pair_ind {A B} (P : Z -> A -> B -> Prop) n (f : Z -> A * B -> A * B) a b :
  P (Z.of_nat n) a b -> (forall k a b, 0 <= k < Z.of_nat n -> P (k + 1) a b -> P k (fst (f k (a, b))) (snd (f k (a, b)))) ->
  P 0 (fst (zdown n f (a, b))) (snd (zdown n f (a, b))).
Proof.
  intros H0 Hs. apply (zdown_ind (fun i s => P i (fst s) (snd s))); [done |].
  intros k [a' b'] Rk. by apply Hs.
Qed.

(** ** Comparison *)

(** The sign of a comparison, as the code returns it. *)
Definition zcmp (x y : Z) : Z := if x <? y then -1 else if x =? y then 0 else 1.

Lemma cmp_down_spec a b n : (forall i, 0 <= i < Z.of_nat n -> 0 <= zget a i < W /\ 0 <= zget b i < W) ->
  cmp_down a b n = zcmp (psum a (Z.of_nat n)) (psum b (Z.of_nat n)).
Proof.
  induction n as [|n IH]; intros R; cbn [cmp_down]; [by rewrite !psum_0 |].
  rewrite Nat2Z.inj_succ, <- Z.add_1_r, !psum_S by lia.
  pose proof (R (Z.of_nat n) ltac:(lia)) as (Ra & Rb).
  destruct (psum_bound a (Z.of_nat n)) as (A1 & A2); [lia | intros; apply R; lia |].
  destruct (psum_bound b (Z.of_nat n)) as (B1 & B2); [lia | intros; apply R; lia |].
  pose proof (Wpow_pos (Z.of_nat n) ltac:(lia)).
  destruct (Z.eqb_spec (zget a (Z.of_nat n)) (zget b (Z.of_nat n))) as [E | E].
  - rewrite IH by (intros; apply R; lia). rewrite E. unfold zcmp. repeat cases; lia.
  - unfold zcmp. destruct (zget a (Z.of_nat n) >? zget b (Z.of_nat n)) eqn:G.
    + apply Z.gtb_lt in G. assert (psum b (Z.of_nat n) + zget b (Z.of_nat n) * W ^ Z.of_nat n < psum a (Z.of_nat n) + zget a (Z.of_nat n) * W ^ Z.of_nat n) by nia.
      repeat cases; lia.
    + assert (zget a (Z.of_nat n) < zget b (Z.of_nat n)) by (rewrite Z.gtb_ltb in G; zb; lia).
      assert (psum a (Z.of_nat n) + zget a (Z.of_nat n) * W ^ Z.of_nat n < psum b (Z.of_nat n) + zget b (Z.of_nat n) * W ^ Z.of_nat n) by nia.
      repeat cases; lia.
Qed.

Lemma bn_lt a b : wf a -> wf b -> bn a < bn b -> val a < val b.
Proof.
  intros A B L. pose proof (wf_n a A). pose proof (val_below a A). pose proof (val_above b B ltac:(lia)).
  pose proof (Wpow_le (bn a) (bn b - 1)). lia.
Qed.

Lemma bn_cmp_spec a b : wf a -> wf b -> bn_cmp a b = zcmp (val a) (val b).
Proof.
  intros A B. unfold bn_cmp. destruct (Z.eqb_spec (bn a) (bn b)) as [E | E].
  - pose proof (wf_n a A). rewrite cmp_down_spec by (intros; split; apply wf_limb; lia || done).
    rewrite Z2Nat.id by lia. rewrite !val_psum by lia || done. done.
  - unfold zcmp. destruct (bn a >? bn b) eqn:G.
    + apply Z.gtb_lt in G. pose proof (bn_lt b a B A G). repeat cases; lia.
    + rewrite Z.gtb_ltb in G. zb. pose proof (bn_lt a b A B ltac:(lia)). repeat cases; lia.
Qed.

(** ** Shifts *)

(** The body of a left shift by [s] bits: limb and carry from [t = lo * 2^s + carry]. *)
Lemma shl_loop s v f : 0 <= s < 32 -> limbs_ok v ->
  (forall i v c, 0 <= zget v i < W -> 0 <= c < 2 ^ s ->
     f i (v, c) = (zset v i ((zget v i * 2 ^ s + c) mod W), (zget v i * 2 ^ s + c) / W)) ->
  let r := fst (zfor (Z.to_nat BN_MAX_LIMBS) 0 f (v, 0)) in
  limbs_ok r /\ psum r BN_MAX_LIMBS = (2 ^ s * psum v BN_MAX_LIMBS) mod CAP.
Proof.
  intros Rs L Ff. assert (P2 : 0 < 2 ^ s <= 2 ^ 31) by (split; [apply Z.pow_pos_nonneg | apply Z.pow_le_mono_r]; lia).
  pose proof (zfor_pair_ind (fun i r c => limbs_ok r /\ 0 <= c < 2 ^ s /\
      (forall j, i <= j < BN_MAX_LIMBS -> zget r j = zget v j) /\ psum r i + c * W ^ i = 2 ^ s * psum v i)
      (Z.to_nat BN_MAX_LIMBS) 0 f v 0) as (L' & Rc & _ & E).
  - split; [done |]. split; [lia |]. split; [done |]. rewrite !psum_0. lia.
  - intros k r c Rk (Lr & Rc & Same & E). rewrite Z2Nat.id in Rk by done.
    pose proof (proj2 Lr k Rk) as Rl. rewrite Ff by done. cbn [fst snd].
    set (t := zget r k * 2 ^ s + c) in *.
    assert (Rt : 0 <= t < W * 2 ^ s) by (unfold t; nia).
    pose proof (Z.mod_pos_bound t W ltac:(lia)). pose proof (Z.div_mod t W ltac:(lia)) as D.
    split; [apply limbs_zset; [done | lia] |].
    split. { split; [apply Z.div_pos; lia | apply Z.div_lt_upper_bound; lia]. }
    split. { intros j Rj. rewrite zget_zset_ne by lia. apply Same. lia. }
    rewrite !psum_S, psum_zset_ge, zget_zset_eq, Wpow_S, <- (Same k) by (destruct Lr; lia).
    assert (X : t mod W * W ^ k + t / W * (W * W ^ k) = t * W ^ k) by (rewrite D at 3; ring).
    assert (Y : t * W ^ k = 2 ^ s * (zget r k * W ^ k) + c * W ^ k) by (unfold t; ring). lia.
  - cbv zeta. rewrite Z2Nat.id in * by done. rewrite Z.add_0_l in *. split; [done |].
    set (r := fst _) in *. set (c := snd _) in *.
    rewrite <- E. fold CAP. rewrite Z.mod_add by (pose proof CAP_pos; lia).
    symmetry. apply Z.mod_small. apply psum_bound; [done | apply L'].
Qed.

Lemma shr_loop s v f : 0 <= s <= 32 -> limbs_ok v ->
  (forall i v c, 0 <= zget v i < W -> 0 <= c < 2 ^ s ->
     f i (v, c) = (zset v i ((zget v i + c * W) / 2 ^ s), (zget v i + c * W) mod 2 ^ s)) ->
  let r := fst (zdown (Z.to_nat BN_MAX_LIMBS) f (v, 0)) in
  limbs_ok r /\ psum r BN_MAX_LIMBS = psum v BN_MAX_LIMBS / 2 ^ s.
Proof.
  intros Rs L Ff. assert (P2 : 0 < 2 ^ s) by (apply Z.pow_pos_nonneg; lia).
  pose proof (zdown_pair_ind (fun i r c => limbs_ok r /\ 0 <= c < 2 ^ s /\
      (forall j, 0 <= j < i -> zget r j = zget v j) /\
      2 ^ s * (psum r BN_MAX_LIMBS - psum r i) + c * W ^ i = psum v BN_MAX_LIMBS - psum v i)
      (Z.to_nat BN_MAX_LIMBS) f v 0) as (L' & Rc & _ & E).
  - split; [done |]. split; [lia |]. split; [done |]. rewrite Z2Nat.id by done. lia.
  - intros k r c Rk (Lr & Rc & Same & E). rewrite Z2Nat.id in Rk by done.
    pose proof (proj2 Lr k Rk) as Rl. rewrite Ff by done. cbn [fst snd].
    set (t := zget r k + c * W) in *.
    assert (Rt : 0 <= t < W * 2 ^ s) by (unfold t; nia).
    pose proof (Z.mod_pos_bound t (2 ^ s) ltac:(lia)). pose proof (Z.div_mod t (2 ^ s) ltac:(lia)) as D.
    split; [apply limbs_zset; [done |]; split; [apply Z.div_pos; lia | apply Z.div_lt_upper_bound; lia] |].
    split; [done |].
    split. { intros j Rj. rewrite zget_zset_ne by lia. apply Same. lia. }
    rewrite psum_zset, psum_zset_ge by (destruct Lr; lia). rewrite (proj2 (Z.ltb_lt k BN_MAX_LIMBS)) by lia.
    rewrite !psum_S, Wpow_S in E by lia. rewrite <- (Same k) in E by lia.
    assert (X : 2 ^ s * (t / 2 ^ s * W ^ k) + t mod 2 ^ s * W ^ k = t * W ^ k) by (rewrite D at 3; ring).
    assert (Y : t * W ^ k = zget r k * W ^ k + c * (W * W ^ k)) by (unfold t; ring). lia.
  - cbv zeta. split; [done |]. set (r := fst _) in *. set (c := snd _) in *.
    rewrite !psum_0, Z.pow_0_r in E. apply Z.div_unique with c; lia.
Qed.

Lemma shiftr32 t : Z.shiftr t 32 = t / W.
Proof. by rewrite Z.shiftr_div_pow2. Qed.

(** OR-ing a small carry into a shifted limb. *)
Lemma lor_carry s x c : 0 <= s -> 0 <= c < 2 ^ s -> Z.lor (Z.shiftl x s) c = x * 2 ^ s + c.
Proof. intros. rewrite Z.shiftl_mul_pow2, Z.lor_comm, lor_add by lia. lia. Qed.

(** The step of a right shift: the carry comes in at the top. *)
Lemma shr_step s lo c : 0 <= s <= 32 -> 0 <= lo < W -> 0 <= c < 2 ^ s ->
  Z.lor (Z.shiftr lo s) (u32 (Z.shiftl c (32 - s))) = (lo + c * W) / 2 ^ s /\
  Z.land lo (2 ^ s - 1) = (lo + c * W) mod 2 ^ s.
Proof.
  intros Rs L C. assert (E : W = 2 ^ (32 - s) * 2 ^ s) by (rewrite <- Z.pow_add_r by lia; by replace (32 - s + s) with 32 by lia).
  assert (P : 0 < 2 ^ s) by (apply Z.pow_pos_nonneg; lia). assert (Q : 0 < 2 ^ (32 - s)) by (apply Z.pow_pos_nonneg; lia).
  split.
  - rewrite Z.shiftr_div_pow2, Z.shiftl_mul_pow2, u32_small by (try lia; rewrite E; nia).
    rewrite lor_add by first [lia | split; [apply Z.div_pos; lia | apply Z.div_lt_upper_bound; lia]].
    rewrite E at 1. rewrite Z.mul_assoc, Z.div_add by lia. done.
  - replace (2 ^ s - 1) with (Z.ones s) by (rewrite Z.ones_equiv; lia). rewrite Z.land_ones by lia.
    rewrite E at 1. by rewrite Z.mul_assoc, Z.mod_add by lia.
Qed.

Lemma shl8_spec v : limbs_ok v ->
  limbs_ok (shl8 v) /\ psum (shl8 v) BN_MAX_LIMBS = (256 * psum v BN_MAX_LIMBS) mod CAP.
Proof.
  intros L. apply (shl_loop 8); [lia | done |]. intros i w c Rl Rc. cbv zeta.
  rewrite lor_carry by lia. rewrite shiftr32, (u32_small (_ / _)); [reflexivity |].
  change (2 ^ 8) with 256 in *. split; [apply Z.div_pos; lia | apply Z.div_lt_upper_bound; lia].
Qed.

Lemma shl1_step lo c : 0 <= lo < W -> 0 <= c < 2 ->
  Z.lor (u32 (Z.shiftl lo 1)) c = (lo * 2 + c) mod W /\ Z.shiftr lo 31 = (lo * 2 + c) / W.
Proof.
  intros L C. rewrite Z.shiftl_mul_pow2, Z.shiftr_div_pow2 by lia. change (2 ^ 1) with 2. change (2 ^ 31) with 2147483648. split.
  - unfold u32. replace (lo * 2) with (2 * lo) by lia. change W with (2 * 2147483648). rewrite Z.mul_mod_distr_l by lia.
    replace (2 * (lo mod 2147483648)) with (Z.shiftl (lo mod 2147483648) 1) by (rewrite Z.shiftl_mul_pow2; lia).
    rewrite lor_carry by lia. change (2 ^ 1) with 2. apply Z.mod_unique with (lo / 2147483648); zdm.
  - apply Z.div_unique with (2 * (lo mod 2147483648) + c); zdm.
Qed.

Lemma bn_lshift1_spec b : wf b -> wf (bn_lshift1 b) /\ val (bn_lshift1 b) = (2 * val b) mod CAP.
Proof.
  intros WF. unfold bn_lshift1.
  pose proof (shl_loop 1 (bv b) (fun i '(v, carry) =>
        let lo := zget v i in (zset v i (Z.lor (u32 (Z.shiftl lo 1)) carry), Z.shiftr lo 31))) as H.
  destruct H as (L & E); [lia | apply WF | |].
  { intros i v c Rl Rc. cbv zeta. destruct (shl1_step (zget v i) c) as (-> & ->); done. }
  destruct (zfor _ _ _ _) as (v, c). cbn [fst] in *. rewrite val_trim.
  split; [| exact E]. pose proof (wf_n b WF) as N. pose proof (val_below b WF) as Lt.
  change (2 ^ 1) with 2 in E. fold (val b) in E.
  assert (High : forall i, bn b < i < BN_MAX_LIMBS -> zget v i = 0).
  { intros i Ri. apply (limb_zero v (bn b + 1)); [done | | lia | lia]. rewrite E, Wpow_S by lia.
    pose proof (Z.mod_le (2 * val b) CAP ltac:(pose proof (val_range b WF); lia) CAP_pos). lia. }
  apply wf_trim; [done | repeat cases; unfold BN_MAX_LIMBS in *; lia |].
  intros i Ri. repeat cases_in Ri; try lia; try (apply High; lia).
  destruct (decide (i = bn b)) as [-> | Ne]; [| apply High; lia].
  destruct (bn b <? BN_MAX_LIMBS) eqn:G; zb; [| lia]. cbn [andb] in *. zb. done.
Qed.

Lemma shr8_spec v : limbs_ok v -> limbs_ok (shr8 v) /\ psum (shr8 v) BN_MAX_LIMBS = psum v BN_MAX_LIMBS / 256.
Proof.
  intros L. apply (shr_loop 8); [lia | done |]. intros i w c Rl Rc. cbv zeta.
  destruct (shr_step 8 (zget w i) c) as (<- & <-); [lia | done | done |]. done.
Qed.

Lemma bn_rshift1_spec b : wf b -> wf (bn_rshift1 b) /\ val (bn_rshift1 b) = val b / 2.
Proof.
  intros WF. unfold bn_rshift1.
  pose proof (shr_loop 1 (bv b) (fun i '(v, carry) =>
        let lo := zget v i in
        (zset v i (Z.lor (Z.shiftr lo 1) (u32 (Z.shiftl carry 31))), Z.land lo 1))) as H.
  destruct H as (L & E); [lia | apply WF | |].
  { intros i v c Rl Rc. cbv zeta. by destruct (shr_step 1 (zget v i) c) as (<- & <-). }
  destruct (zdown _ _ _) as (v, c). cbn [fst] in *. rewrite val_trim. split; [| exact E].
  pose proof (wf_n b WF). apply wf_trim; [done | done |]. intros i Ri.
  apply (limb_zero v (bn b)); [done | | lia | lia].
  rewrite E. change (2 ^ 1) with 2. fold (val b). pose proof (val_below b WF). pose proof (val_range b WF).
  pose proof (Z.div_le_upper_bound (val b) 2 (val b) ltac:(lia) ltac:(lia)). lia.
Qed.

(** ** Addition and subtraction *)

Lemma bn_add_spec a b : wf a -> wf b -> val a + val b < CAP -> wf (bn_add a b) /\ val (bn_add a b) = val a + val b.
Proof.
  intros A B Fit. unfold bn_add. set (n := if bn a >? bn b then bn a else bn b).
  assert (N : 0 <= n <= BN_MAX_LIMBS /\ bn a <= n /\ bn b <= n).
  { pose proof (wf_n a A). pose proof (wf_n b B). unfold n. destruct (bn a >? bn b) eqn:G; rewrite Z.gtb_ltb in G; zb; lia. }
  clearbody n. destruct N as (N & Na & Nb).
  pose proof (zfor_pair_ind (fun i v c => limbs_ok v /\ 0 <= c < 2 /\
      psum v i + c * W ^ i = psum (bv a) i + psum (bv b) i) (Z.to_nat n) 0
      (fun i '(v, carry) => let s := u64 (zget (bv a) i + zget (bv b) i + carry) in (zset v i (u32 s), Z.shiftr s 32))
      (zrep BN_MAX_LIMBS 0) 0) as (L & C & E).
  - split; [apply limbs_zero |]. split; [lia |]. rewrite !psum_0. lia.
  - intros k v c Rk (L & C & E). rewrite Z2Nat.id in Rk by lia. cbn [fst snd].
    pose proof (wf_limb a A k ltac:(lia)). pose proof (wf_limb b B k ltac:(lia)).
    set (t := zget (bv a) k + zget (bv b) k + c) in *. unfold u64. rewrite Z.mod_small, shiftr32 by lia.
    pose proof (Z.div_mod t W ltac:(lia)) as D. unfold u32. pose proof (Z.mod_pos_bound t W ltac:(lia)).
    split; [by apply limbs_zset |]. split. { split; [apply Z.div_pos; lia | apply Z.div_lt_upper_bound; lia]. }
    rewrite !psum_S, psum_zset_ge, zget_zset_eq, Wpow_S by (destruct L; lia).
    assert (X : t mod W * W ^ k + t / W * (W * W ^ k) = t * W ^ k) by (rewrite D at 3; ring).
    assert (Y : t * W ^ k = zget (bv a) k * W ^ k + zget (bv b) k * W ^ k + c * W ^ k) by (unfold t; ring). lia.
  - destruct (zfor _ _ _ _) as (v, c). cbn [fst snd] in *. rewrite Z2Nat.id in E by lia. rewrite Z.add_0_l in E.
    rewrite !val_psum in E by (lia || done). destruct (Z.eqb_spec c 0) as [-> | Nz].
    + destruct (clear_trim n v L N) as (WF & ->). split; [done | lia].
    + assert (c = 1) as -> by lia. destruct (decide (n = BN_MAX_LIMBS)) as [-> | Ne].
      { fold CAP in E. destruct (psum_bound v BN_MAX_LIMBS) as (P & _); [done | apply L | lia]. }
      destruct (clear_trim (n + 1) (zset v n (u32 1))) as (WF & ->); [apply limbs_zset; [done | apply u32_range] | lia |].
      split; [done |]. rewrite psum_S, psum_zset_ge, zget_zset_eq by (destruct L; lia). rewrite u32_small by lia. lia.
Qed.

Lemma bn_sub_spec a b : wf a -> wf b -> val b <= val a ->
  exists r, bn_sub a b = Some r /\ wf r /\ val r = val a - val b.
Proof.
  intros A B Le. unfold bn_sub. rewrite bn_cmp_spec by done. rewrite (proj2 (Z.ltb_ge _ 0)) by (unfold zcmp; repeat cases; lia).
  pose proof (wf_n a A) as N. assert (Nb : bn b <= bn a). { destruct (decide (bn b <= bn a)); [done |]. pose proof (bn_lt a b A B). lia. }
  pose proof (zfor_pair_ind (fun i v c => limbs_ok v /\ 0 <= c < 2 /\
      psum v i - c * W ^ i = psum (bv a) i - psum (bv b) i) (Z.to_nat (bn a)) 0
      (fun i '(v, borrow) =>
        let diff := zget (bv a) i - zget (bv b) i - borrow in
        let '(diff, borrow) := if diff <? 0 then (diff + 4294967296, 1) else (diff, 0) in
        (zset v i (u32 diff), borrow)) (zrep BN_MAX_LIMBS 0) 0) as (L & C & E).
  - split; [apply limbs_zero |]. split; [lia |]. rewrite !psum_0. lia.
  - intros k v c Rk (L & C & E). rewrite Z2Nat.id in Rk by lia. cbv zeta.
    pose proof (wf_limb a A k ltac:(lia)). pose proof (wf_limb b B k ltac:(lia)).
    destruct (zget (bv a) k - zget (bv b) k - c <? 0) eqn:S; cbn [fst snd]; zb;
      (split; [apply limbs_zset; [done | apply u32_range] |]; split; [lia |];
       rewrite u32_small, !psum_S, psum_zset_ge, zget_zset_eq, Wpow_S by (destruct L; lia); lia).
  - destruct (zfor _ _ _ _) as (v, c). cbn [fst snd] in *. rewrite Z2Nat.id, Z.add_0_l in E by lia.
    rewrite !val_psum in E by (lia || done). eexists. split; [done |].
    destruct (clear_trim (bn a) v L N) as (WF & ->). split; [done |].
    destruct (psum_bound v (bn a)) as (P & Q); [lia | intros; apply L; lia |]. pose proof (Wpow_pos (bn a) ltac:(lia)).
    assert (c = 0) as -> by nia. lia.
Qed.

Lemma bn_sub_None a b : wf a -> wf b -> (bn_sub a b = None <-> val a < val b).
Proof.
  intros A B. split.
  - intros E. destruct (decide (val a < val b)); [done |]. destruct (bn_sub_spec a b A B) as (r & E' & _); [lia |]. congruence.
  - intros L. unfold bn_sub. rewrite bn_cmp_spec by done. unfold zcmp. by rewrite (proj2 (Z.ltb_lt _ _) L).
Qed.

Lemma bn_sub_into_spec r a b : wf a -> wf b -> val b <= val a -> wf (bn_sub_into r a b) /\ val (bn_sub_into r a b) = val a - val b.
Proof. intros A B L. unfold bn_sub_into. by destruct (bn_sub_spec a b A B L) as (r' & -> & ?). Qed.

(** ** Multiplication *)

Section Mul.
Context (a b : bignum) (A : wf a) (B : wf b).

(** One row adds [a_i * W^i * b], up to a multiple of the capacity. *)
Lemma mul_row_spec i r : 0 <= i < bn a -> limbs_ok r -> (forall k, i + bn b <= k < BN_MAX_LIMBS -> zget r k = 0) ->
  limbs_ok (mul_row a b i r) /\ (forall k, i + bn b < k < BN_MAX_LIMBS -> zget (mul_row a b i r) k = 0) /\
  exists q, psum (mul_row a b i r) BN_MAX_LIMBS + q * CAP = psum r BN_MAX_LIMBS + zget (bv a) i * W ^ i * val b.
Proof.
  intros I L0 Z0. pose proof (wf_n a A) as Na. pose proof (wf_n b B) as Nb. unfold mul_row.
  set (cnt := Z.min (bn b) (BN_MAX_LIMBS - i)). assert (C0 : 0 <= cnt) by lia.
  pose proof (zfor_pair_ind (fun j v c => limbs_ok v /\ 0 <= c < W /\
      (forall k, i + j <= k < BN_MAX_LIMBS -> zget v k = zget r k) /\
      psum v BN_MAX_LIMBS + c * W ^ (i + j) = psum r BN_MAX_LIMBS + zget (bv a) i * W ^ i * psum (bv b) j) (Z.to_nat cnt) 0
      (fun j '(r, carry) =>
        let prod := u64 (zget (bv a) i * zget (bv b) j + zget r (i + j) + carry) in
        (zset r (i + j) (u32 prod), Z.shiftr prod 32)) r 0) as (L & C & Same & E).
  - split; [done |]. split; [lia |]. split; [done |]. rewrite psum_0. lia.
  - intros j v c Rj (L & C & Same & E). rewrite Z2Nat.id in Rj by done. cbn [fst snd].
    pose proof (wf_limb a A i ltac:(lia)) as Ra. pose proof (wf_limb b B j ltac:(lia)) as Rb.
    pose proof (proj2 L (i + j) ltac:(lia)) as Rv.
    set (t := zget (bv a) i * zget (bv b) j + zget v (i + j) + c) in *.
    assert (Rt : 0 <= t < W * W) by (unfold t; nia). unfold u64. rewrite Z.mod_small, shiftr32 by lia.
    pose proof (Z.div_mod t W ltac:(lia)) as D. unfold u32. pose proof (Z.mod_pos_bound t W ltac:(lia)).
    split; [by apply limbs_zset |]. split. { split; [apply Z.div_pos; lia | apply Z.div_lt_upper_bound; lia]. }
    split. { intros k Rk. rewrite zget_zset_ne by lia. apply Same. lia. }
    rewrite psum_zset, (proj2 (Z.ltb_lt (i + j) BN_MAX_LIMBS)), psum_S, Z.add_assoc, Wpow_S by (destruct L; lia).
    assert (X : t mod W * W ^ (i + j) + t / W * (W * W ^ (i + j)) = t * W ^ (i + j)) by (rewrite D at 3; ring).
    assert (Y : t * W ^ (i + j) = zget (bv a) i * W ^ i * (zget (bv b) j * W ^ j) + zget v (i + j) * W ^ (i + j) + c * W ^ (i + j))
      by (unfold t; rewrite Z.pow_add_r by lia; ring). lia.
  - destruct (zfor _ _ _ _) as (v, c). cbn [fst snd] in *. rewrite Z2Nat.id, Z.add_0_l in * by done.
    destruct (i + bn b <? BN_MAX_LIMBS) eqn:G; zb.
    + assert (cnt = bn b) as Ec by lia. rewrite Ec in *. rewrite (val_psum b B) in E by lia.
      assert (Zn : zget v (i + bn b) = 0) by (rewrite Same by lia; apply Z0; lia).
      assert (Es : u32 (u64 (zget v (i + bn b) + c)) = c) by (rewrite Zn; unfold u32, u64; rewrite !Z.mod_small; rewrite ?Z.mod_small; lia).
      rewrite Es. split; [by apply limbs_zset |]. split.
      { intros k Rk. rewrite zget_zset_ne by lia. rewrite Same by lia. apply Z0. lia. }
      exists 0. rewrite psum_zset, (proj2 (Z.ltb_lt (i + bn b) BN_MAX_LIMBS)), Zn by (destruct L; lia). lia.
    + assert (Ec : cnt = BN_MAX_LIMBS - i) by lia. split; [done |]. split; [intros; lia |].
      destruct (psum_split (bv b) cnt BN_MAX_LIMBS) as (q & Eq); [lia |].
      exists (c + zget (bv a) i * q). fold (val b) in Eq. rewrite Eq. replace (i + cnt) with BN_MAX_LIMBS in E by lia.
      fold CAP in E. assert (X : W ^ i * W ^ cnt = CAP) by (rewrite <- Z.pow_add_r by lia; unfold CAP; f_equal; lia).
      rewrite <- X in *. lia.
Qed.

Lemma bn_mul_spec : wf (bn_mul a b) /\ val (bn_mul a b) = (val a * val b) mod CAP.
Proof.
  pose proof (wf_n a A) as Na. pose proof (wf_n b B) as Nb. unfold bn_mul.
  pose proof (zfor_ind (fun i r => limbs_ok r /\ (forall k, i + bn b <= k < BN_MAX_LIMBS -> zget r k = 0) /\
      exists q, psum r BN_MAX_LIMBS + q * CAP = psum (bv a) i * val b) (Z.to_nat (bn a)) 0 (mul_row a b) (zrep BN_MAX_LIMBS 0)) as H.
  destruct H as (L & Z0 & q & E).
  - split; [apply limbs_zero |]. split; [intros; apply zget_zero; lia |]. exists 0. rewrite psum_zero, psum_0 by done. lia.
  - intros i r Ri (L & Z0 & q & E). rewrite Z2Nat.id in Ri by lia.
    destruct (mul_row_spec i r) as (L' & Z0' & q' & E'); [lia | done | done |].
    split; [done |]. split; [intros; apply Z0'; lia |]. exists (q + q'). rewrite psum_S by lia. lia.
  - rewrite Z2Nat.id, Z.add_0_l in * by lia. rewrite (val_psum a A) in E by lia. split.
    + apply wf_trim; [done | destruct (_ >? _) eqn:G; rewrite Z.gtb_ltb in G; zb; lia |].
      intros i Ri. apply Z0. destruct (_ >? _) eqn:G; rewrite Z.gtb_ltb in G; zb; lia.
    + rewrite val_trim. unfold val at 1. cbn [bv]. rewrite <- E, Z.mod_add by (pose proof CAP_pos; lia).
      symmetry. apply Z.mod_small. apply psum_bound; [done | apply L].
Qed.

Lemma bn_mul_exact : val a * val b < CAP -> wf (bn_mul a b) /\ val (bn_mul a b) = val a * val b.
Proof.
  intros F. destruct bn_mul_spec as (WF & E). split; [done |]. rewrite E. apply Z.mod_small.
  pose proof (val_range a A). pose proof (val_range b B). lia.
Qed.

End Mul.

(** ** Bits *)

Lemma bn_bit_at_spec b i : wf b -> 0 <= i -> bn_bit_at b i = val b / 2 ^ i mod 2.
Proof.
  intros WF I. unfold bn_bit_at. pose proof (wf_n b WF) as N. pose proof (val_range b WF) as R.
  rewrite Z.shiftr_div_pow2 by lia. change 31 with (Z.ones 5). rewrite Z.land_ones by lia. change (2 ^ 5) with 32.
  assert (D : i = 32 * (i / 32) + i mod 32) by (apply Z.div_mod; lia).
  pose proof (Z.mod_pos_bound i 32 ltac:(lia)) as S. assert (Q0 : 0 <= i / 32) by (apply Z.div_pos; lia).
  set (q := i / 32) in *. set (t := i mod 32) in *. clearbody q t.
  assert (P : 2 ^ i = W ^ q * 2 ^ t). { rewrite D, Z.pow_add_r, Z.pow_mul_r by lia. done. }
  pose proof (Wpow_pos q Q0) as Wq. assert (Pt : 0 < 2 ^ t) by (apply Z.pow_pos_nonneg; lia).
  rewrite Z.geb_leb. destruct (bn b <=? q) eqn:G; zb.
  - rewrite Z.div_small; [done |]. split; [lia |]. pose proof (val_below b WF). pose proof (Wpow_le (bn b) q ltac:(lia)). nia.
  - change 1 with (Z.ones 1). rewrite Z.land_ones, Z.shiftr_div_pow2 by lia. change (2 ^ 1) with 2.
    destruct (psum_split (bv b) (q + 1) BN_MAX_LIMBS) as (h & E); [lia |]. fold (val b) in E.
    rewrite psum_S, Wpow_S in E by lia. destruct (psum_bound (bv b) q) as (L1 & L2); [lia | intros; apply wf_limb; [done | lia] |].
    rewrite P, <- Z.div_div by lia.
    assert (E1 : val b / W ^ q = zget (bv b) q + h * W) by (symmetry; apply Z.div_unique with (psum (bv b) q); [lia | rewrite E; ring]).
    rewrite E1. replace (h * W) with (h * 2 ^ (32 - t) * 2 ^ t).
    2: { rewrite <- Z.mul_assoc, <- Z.pow_add_r by lia. by replace (32 - t + t) with 32 by lia. }
    rewrite Z.div_add by lia. replace (32 - t) with (1 + (31 - t)) by lia. rewrite Z.pow_add_r by lia.
    replace (h * (2 ^ 1 * 2 ^ (31 - t))) with (h * 2 ^ (31 - t) * 2) by (change (2 ^ 1) with 2; ring).
    by rewrite Z.mod_add by lia.
Qed.

Lemma bn_is_odd_spec b : wf b -> bn_is_odd b = Z.odd (val b).
Proof.
  intros WF. unfold bn_is_odd. pose proof (wf_n b WF) as N. rewrite Z.gtb_ltb.
  destruct (0 <? bn b) eqn:G; zb.
  - pose proof (bn_bit_at_spec b 0 WF ltac:(lia)) as E. unfold bn_bit_at in E.
    change (Z.shiftr 0 5) with 0 in E. change (Z.land 0 31) with 0 in E. rewrite Z.geb_leb in E.
    destruct (bn b <=? 0) eqn:G'; zb; [lia |]. rewrite Z.shiftr_0_r in E. rewrite E.
    change (2 ^ 0) with 1. rewrite Z.div_1_r, Zmod_odd. by destruct (Z.odd (val b)).
  - assert (val b = 0) as -> by (apply val_zero; [done | lia]). done.
Qed.

Lemma bn_is_zero_spec b : wf b -> bn_is_zero b = (val b =? 0).
Proof. intros WF. unfold bn_is_zero. apply Bool.eq_iff_eq_true. rewrite !Z.eqb_eq. by apply val_zero. Qed.

Lemma top_bits_spec top n : (n <= 32)%nat -> 0 <= top < 2 ^ Z.of_nat n ->
  0 <= top_bits top n <= Z.of_nat n /\ top < 2 ^ top_bits top n /\ (0 < top -> 0 < top_bits top n /\ 2 ^ (top_bits top n - 1) <= top).
Proof.
  induction n as [|n IH]; intros N R; cbn [top_bits].
  { split; [lia |]. change (2 ^ Z.of_nat 0) with 1 in *. change (2 ^ 0) with 1. lia. }
  assert (P : 2 ^ Z.of_nat (S n) = 2 * 2 ^ Z.of_nat n) by (rewrite Nat2Z.inj_succ, Z.pow_succ_r by lia; done).
  assert (Pos : 0 < 2 ^ Z.of_nat n) by (apply Z.pow_pos_nonneg; lia).
  assert (E : Z.land top (u32 (Z.shiftl 1 (Z.of_nat n))) = top / 2 ^ Z.of_nat n mod 2 * 2 ^ Z.of_nat n).
  { rewrite Z.shiftl_mul_pow2, Z.mul_1_l, u32_small by first [lia | change W with (2 ^ 32); split; [lia | apply Z.pow_lt_mono_r; lia]].
    replace (2 ^ Z.of_nat n) with (Z.ones 1 * 2 ^ Z.of_nat n) at 1 by (change (Z.ones 1) with 1; lia).
    by rewrite land_ones_shift by lia. }
  rewrite E. destruct (decide (top < 2 ^ Z.of_nat n)) as [L | G].
  - rewrite Z.div_small by lia. change (0 mod 2 * 2 ^ Z.of_nat n =? 0) with true. cbv iota.
    destruct (IH ltac:(lia) ltac:(lia)) as (T1 & T2 & T3). split; [lia | done].
  - assert (top / 2 ^ Z.of_nat n = 1) as -> by (symmetry; apply Z.div_unique with (top - 2 ^ Z.of_nat n); lia).
    change (1 mod 2) with 1. destruct (Z.eqb_spec (1 * 2 ^ Z.of_nat n) 0); [lia |]. split; [lia |]. split; [lia |].
    intros _. split; [lia |]. replace (Z.of_nat (S n) - 1) with (Z.of_nat n) by lia. lia.
Qed.

Lemma bn_bit_length_spec b : wf b ->
  0 <= bn_bit_length b <= 4608 /\ val b < 2 ^ bn_bit_length b /\
  (0 < val b -> 0 < bn_bit_length b /\ 2 ^ (bn_bit_length b - 1) <= val b).
Proof.
  intros WF. unfold bn_bit_length. pose proof (wf_n b WF) as N. unfold BN_MAX_LIMBS in N. destruct (Z.eqb_spec (bn b) 0) as [Z0 | Nz].
  - apply val_zero in Z0; [| done]. rewrite Z0. split; [lia |]. split; [by change (2 ^ 0) with 1 | lia].
  - destruct (top_bits_spec (zget (bv b) (bn b - 1)) 32) as (T1 & T2 & T3); [lia | apply wf_limb; [done | unfold BN_MAX_LIMBS; lia] |].
    assert (Top : zget (bv b) (bn b - 1) <> 0) by (apply WF; lia).
    pose proof (wf_limb b WF (bn b - 1) ltac:(unfold BN_MAX_LIMBS; lia)) as Rt.
    destruct (T3 ltac:(lia)) as (T4 & T5). set (t := top_bits _ 32) in *. clearbody t. change (Z.of_nat 32) with 32 in T1.
    split; [lia |]. assert (Ev : val b = psum (bv b) (bn b - 1) + zget (bv b) (bn b - 1) * W ^ (bn b - 1)).
    { rewrite <- psum_S, <- (val_psum b WF (bn b)) by (unfold BN_MAX_LIMBS; lia). f_equal. lia. }
    destruct (psum_bound (bv b) (bn b - 1)) as (P1 & P2); [lia | intros; apply wf_limb; [done | unfold BN_MAX_LIMBS; lia] |].
    assert (Ew : forall x, 0 <= x -> 2 ^ ((bn b - 1) * 32 + x) = 2 ^ x * W ^ (bn b - 1)).
    { intros x X. rewrite Z.pow_add_r, (Z.mul_comm (bn b - 1)), Z.pow_mul_r by lia. change (2 ^ 32) with W. lia. }
    pose proof (Wpow_pos (bn b - 1) ltac:(lia)). rewrite Ev, Ew by lia.
    replace ((bn b - 1) * 32 + t - 1) with ((bn b - 1) * 32 + (t - 1)) by lia. rewrite Ew by lia.
    split; [nia |]. intros _. split; [lia | nia].
Qed.

(** ** Remainder *)

(** Raising one limb, with the count grown to reach it. *)
Lemma set_limb_spec b i x : wf b -> 0 <= i < BN_MAX_LIMBS -> 0 < x < W ->
  let b' := mk_bignum (zset (bv b) i x) (if bn b <=? i then i + 1 else bn b) in
  wf b' /\ val b' = val b + (x - zget (bv b) i) * W ^ i.
Proof.
  intros WF I X. pose proof (wf_n b WF) as N. pose proof (wf_len b WF) as Len. cbv zeta. split.
  - split; [apply limbs_zset; [apply WF | lia] |]. cbn [bn bv]. split; [cases; lia |]. split.
    + intros k Rk. destruct (bn b <=? i) eqn:G; zb; rewrite zget_zset_ne by lia; apply wf_high; done || lia.
    + intros _. destruct (bn b <=? i) eqn:G; zb.
      * replace (i + 1 - 1) with i by lia. rewrite zget_zset_eq by lia. lia.
      * destruct (decide (bn b - 1 = i)) as [<- | Ne]; [rewrite zget_zset_eq by lia; lia |].
        rewrite zget_zset_ne by lia. apply WF. lia.
  - unfold val at 1. cbn [bv]. rewrite psum_zset by (try lia; done). fold (val b).
    destruct (Z.ltb_spec i BN_MAX_LIMBS); [reflexivity | lia].
Qed.

Lemma shift_in_spec a i rem : wf a -> wf rem -> 0 <= i -> 2 * val rem < CAP ->
  wf (shift_in a i rem) /\ val (shift_in a i rem) = 2 * val rem + val a / 2 ^ i mod 2.
Proof.
  intros A R I F. destruct (bn_lshift1_spec rem R) as (WF & E). pose proof (val_range rem R) as Rr.
  rewrite Z.mod_small in E by lia. unfold shift_in. rewrite bn_bit_at_spec by done.
  pose proof (Z.mod_pos_bound (val a / 2 ^ i) 2 ltac:(lia)). set (bit := val a / 2 ^ i mod 2) in *. clearbody bit.
  set (r := bn_lshift1 rem) in *. clearbody r. destruct (Z.eqb_spec bit 0) as [-> | Nz]; [split; [exact WF | lia] |].
  assert (bit = 1) as -> by lia.
  assert (Even : zget (bv r) 0 mod 2 = 0).
  { rewrite <- (psum_low (bv r) 2 BN_MAX_LIMBS) by (done || by exists 2147483648). fold (val r). rewrite E, Z.mul_comm. by apply Z.mod_mul. }
  pose proof (wf_limb r WF 0 ltac:(done)) as R0. pose proof (wf_n r WF) as N.
  assert (El : Z.lor (zget (bv r) 0) 1 = zget (bv r) 0 + 1) by (apply (lor_clear 1); lia || done).
  destruct (set_limb_spec r 0 (zget (bv r) 0 + 1) WF) as (W1 & W2); [done | zdm |]. cbv zeta in *.
  replace (if bn r =? 0 then 1 else bn r) with (if bn r <=? 0 then 0 + 1 else bn r) by (repeat cases; lia).
  rewrite El. split; [exact W1 |]. rewrite W2. change (W ^ 0) with 1. lia.
Qed.

(** Shifting in the next bit of [x] on top of [x / 2^(i+1)]. *)
Lemma bit_step x i : 0 <= i -> x / 2 ^ i = 2 * (x / 2 ^ (i + 1)) + x / 2 ^ i mod 2.
Proof.
  intros I. rewrite Z.pow_add_r, <- Z.div_div by (try apply Z.pow_pos_nonneg; try apply Z.pow_nonzero; lia).
  change (2 ^ 1) with 2. apply Z.div_mod. lia.
Qed.

(** One step of the long division by [m], shared by bn_mod and bn_modinv. *)
Lemma divide_step x m i q r : 0 < m -> 0 <= i -> x / 2 ^ (i + 1) = q * m + r -> 0 <= r < m ->
  let r' := 2 * r + x / 2 ^ i mod 2 in
  0 <= r' < 2 * m /\
  x / 2 ^ i = (if r' <? m then 2 * q else 2 * q + 1) * m + (if r' <? m then r' else r' - m).
Proof.
  intros M I E R r'. pose proof (Z.mod_pos_bound (x / 2 ^ i) 2 ltac:(lia)).
  pose proof (bit_step x i I) as S. split; [unfold r'; lia |]. rewrite S, E. fold r'. cases; unfold r'; lia.
Qed.

(** The remainder of the long division never outgrows the capacity. *)
Lemma step_fits a i r m : wf a -> 0 <= i -> 0 < val m -> val r = (val a / 2 ^ (i + 1)) mod val m -> 2 * val r < CAP.
Proof.
  intros A I Pm E. pose proof (val_range a A) as Ra. pose proof (Z.pow_pos_nonneg 2 (i + 1) ltac:(lia) ltac:(lia)).
  assert (Q0 : 0 <= val a / 2 ^ (i + 1)) by (apply Z.div_pos; lia). pose proof (Z.mod_le _ _ Q0 Pm) as Le. rewrite <- E in Le.
  assert (2 * (val a / 2 ^ (i + 1)) <= val a).
  { pose proof (Z.mul_div_le (val a) (2 ^ (i + 1)) ltac:(lia)). pose proof (Z.pow_le_mono_r 2 1 (i + 1) ltac:(lia) ltac:(lia)).
    change (2 ^ 1) with 2 in *. nia. }
  lia.
Qed.

Lemma bn_mod_spec a m : wf a -> wf m -> 0 < val m -> wf (bn_mod a m) /\ val (bn_mod a m) = val a mod val m.
Proof.
  intros A M Pm. unfold bn_mod. rewrite bn_cmp_spec by done. pose proof (val_range a A) as Ra. pose proof (val_range m M) as Rm.
  destruct (zcmp (val a) (val m) <? 0) eqn:C.
  { assert (val a < val m) by (revert C; unfold zcmp; repeat cases; done || lia).
    destruct a as [va na]. split; [done |]. unfold bn_copy, val in *. cbn [bv bn] in *. symmetry. apply Z.mod_small. lia. }
  clear C. destruct (bn_bit_length_spec a A) as (L1 & L2 & _).
  pose proof (zdown_ind (fun i rem => wf rem /\ val rem = (val a / 2 ^ i) mod val m) (Z.to_nat (bn_bit_length a))
    (fun i rem => let rem := shift_in a i rem in if bn_cmp rem m >=? 0 then bn_sub_into rem rem m else rem) bn_zero) as (WF & E).
  - rewrite Z2Nat.id by lia. rewrite Z.div_small, Z.mod_0_l by lia. split; [| apply psum_zero; done].
    split; [apply limbs_zero |]. cbn [bn bv bn_zero]. split; [done |]. split; [| lia]. intros. by apply zget_zero.
  - intros i r Ri (WF & E). cbv zeta. pose proof (Z.mod_pos_bound (val a / 2 ^ (i + 1)) (val m) Pm) as Rr.
    pose proof (Z.div_mod (val a / 2 ^ (i + 1)) (val m) ltac:(lia)) as D. rewrite Z.mul_comm in D. rewrite <- E in D, Rr.
    destruct (divide_step _ _ _ _ _ Pm (proj1 Ri) D Rr) as (R' & S).
    destruct (shift_in_spec a i r A WF) as (WF' & E'); [lia | exact (step_fits a i r m A (proj1 Ri) Pm E) |].
    set (r' := shift_in a i r) in *. rewrite bn_cmp_spec, <- E' in * by done. unfold zcmp.
    destruct (val r' <? val m) eqn:G; zb.
    + change (-1 >=? 0) with false. cbv iota. split; [done |]. rewrite S.
      apply Z.mod_unique with (2 * (val a / 2 ^ (i + 1) / val m)); lia.
    + destruct (bn_sub_into_spec r' r' m WF' M ltac:(lia)) as (W1 & W2).
      replace ((if val r' =? val m then 0 else 1) >=? 0) with true by (by cases). split; [done |]. rewrite W2.
      apply Z.mod_unique with (2 * (val a / 2 ^ (i + 1) / val m) + 1); lia.
  - set (rem := zdown _ _ _) in *. change (2 ^ 0) with 1 in E. rewrite Z.div_1_r in E.
    unfold bn_clear_high, bn_copy. cbn [bv bn]. pose proof (wf_n rem WF) as N.
    destruct (clear_from_spec (bn rem) (bv rem)) as (L & Same & Z0); [apply WF | lia |]. split.
    + split; [done |]. cbn [bv bn]. split; [lia |]. split; [done |]. intros P. rewrite Same by lia. by apply WF.
    + unfold val at 1. cbn [bv]. rewrite (psum_zeros _ (bn rem)) by (lia || done).
      rewrite (psum_ext _ (bv rem)) by done. rewrite val_psum by (lia || done). done.
Qed.

Lemma bn_modmul_spec a b m : wf a -> wf b -> wf m -> 0 < val m -> val a * val b < CAP ->
  wf (bn_modmul a b m) /\ val (bn_modmul a b m) = (val a * val b) mod val m.
Proof.
  intros A B M P F. destruct (bn_mul_exact a b A B F) as (WF & <-). by apply bn_mod_spec.
Qed.

(** ** Constants and canonicity *)

(** A limb of a sum. *)
Lemma limb_of_psum v i n : (forall j, 0 <= j < n -> 0 <= zget v j < W) -> 0 <= i < n -> zget v i = psum v n / W ^ i mod W.
Proof.
  intros R I. destruct (psum_split v (i + 1) n) as (q & E); [lia |]. rewrite psum_S, Wpow_S in E by lia.
  pose proof (Wpow_pos i ltac:(lia)). destruct (psum_bound v i) as (P1 & P2); [lia | intros; apply R; lia |].
  assert (E1 : psum v n / W ^ i = zget v i + q * W) by (symmetry; apply Z.div_unique with (psum v i); [lia | rewrite E; ring]).
  rewrite E1, Z.mod_add by lia. symmetry. apply Z.mod_small, R. lia.
Qed.

(** Two well-formed structs with one value are the same struct. *)
Lemma val_inj a b : wf a -> wf b -> val a = val b -> a = b.
Proof.
  intros A B E. assert (Ev : bv a = bv b).
  { apply zlist_eq; [by rewrite !wf_len |]. rewrite wf_len by done. intros i I.
    rewrite (limb_of_psum (bv a) i BN_MAX_LIMBS), (limb_of_psum (bv b) i BN_MAX_LIMBS) by (try apply wf_limb; done).
    fold (val a) (val b). by rewrite E. }
  assert (En : bn a = bn b).
  { destruct (Z.lt_trichotomy (bn a) (bn b)) as [L | [? | L]]; [| done |];
      [pose proof (bn_lt a b A B L) | pose proof (bn_lt b a B A L)]; lia. }
  destruct a, b. cbn in *. by subst.
Qed.

(** The struct of a number, for examples and for the comparison with a reference. *)
Fixpoint limbs_of (n : nat) (z : Z) : list Z :=
  match n with O => [] | S n' => z mod W :: limbs_of n' (z / W) end.

Definition of_Z (z : Z) : bignum := bn_trim (mk_bignum (limbs_of (Z.to_nat BN_MAX_LIMBS) z) BN_MAX_LIMBS).

Lemma limbs_of_spec n z : zlen (limbs_of n z) = Z.of_nat n /\ forall i, 0 <= i < Z.of_nat n -> zget (limbs_of n z) i = z / W ^ i mod W.
Proof.
  revert z. induction n as [|n IH]; intros z; cbn [limbs_of]; [split; [done | lia] |].
  destruct (IH (z / W)) as (L & G). split; [rewrite zlen_cons; lia |]. intros i Ri.
  destruct (decide (i = 0)) as [-> | Ne]; [change (W ^ 0) with 1; by rewrite Z.div_1_r |].
  replace (zget (z mod W :: limbs_of n (z / W)) i) with (zget (limbs_of n (z / W)) (i - 1)).
  - rewrite G by lia. replace i with (i - 1 + 1) at 2 by lia. rewrite Wpow_S, Z.div_div by first [lia | apply Wpow_pos; lia]. done.
  - unfold zget. by replace (Z.to_nat i) with (S (Z.to_nat (i - 1))) by lia.
Qed.

Lemma psum_of_Z v z k : 0 <= k -> 0 <= z -> (forall i, 0 <= i < k -> zget v i = z / W ^ i mod W) -> psum v k = z mod W ^ k.
Proof.
  intros K Z0. apply (z_nat_ind (fun k => (forall i, 0 <= i < k -> zget v i = z / W ^ i mod W) -> psum v k = z mod W ^ k) k K).
  - intros _. rewrite psum_0. change (W ^ 0) with 1. by rewrite Z.mod_1_r.
  - intros i Ri IH G. rewrite psum_S, IH, G by (lia || (intros; apply G; lia)). rewrite Wpow_S, (Z.mul_comm W) by lia.
    pose proof (Wpow_pos i ltac:(lia)). rewrite Z.rem_mul_r by lia. lia.
Qed.

Lemma of_Z_spec z : 0 <= z < CAP -> wf (of_Z z) /\ val (of_Z z) = z.
Proof.
  intros R. destruct (limbs_of_spec (Z.to_nat BN_MAX_LIMBS) z) as (L & G). rewrite Z2Nat.id in * by done.
  unfold of_Z. split.
  - apply wf_trim; [| done | lia]. split; [done |]. intros i I. rewrite G by done. apply Z.mod_pos_bound. lia.
  - rewrite val_trim. unfold val. cbn [bv]. rewrite (psum_of_Z _ z) by (try done; lia). by apply Z.mod_small.
Qed.

Lemma bn_zero_spec : wf bn_zero /\ val bn_zero = 0.
Proof.
  split; [| by apply psum_zero]. split; [apply limbs_zero |]. cbn [bn bv bn_zero]. split; [done |].
  split; [| lia]. intros. by apply zget_zero.
Qed.

Lemma bn_set_u32_spec x : 0 <= x < W -> wf (bn_set_u32 x) /\ val (bn_set_u32 x) = x.
Proof.
  intros R. unfold bn_set_u32. destruct (Z.eqb_spec x 0) as [-> | Nz]; [apply bn_zero_spec |].
  assert (Len : 0 <= 0 < zlen (bv bn_zero)) by (cbn [bv bn_zero]; by rewrite zlen_zrep). split.
  - split; [apply limbs_zset; [apply limbs_zero | done] |]. cbn [bn bv]. split; [done |]. split.
    + intros i Ri. rewrite zget_zset_ne by lia. apply zget_zero. lia.
    + intros _. change (1 - 1) with 0. by rewrite zget_zset_eq.
  - unfold val. cbn [bv]. rewrite psum_zset by done. change (0 <? BN_MAX_LIMBS) with true. cbv iota.
    change (W ^ 0) with 1. unfold bn_zero. cbn [bv]. rewrite psum_zero, zget_zero by done. lia.
Qed.

Lemma bn_copy_id a : bn_copy a = a.
Proof. by destruct a. Qed.

Lemma val_psum_all b : val b = psum (bv b) BN_MAX_LIMBS.
Proof. reflexivity. Qed.

#[global] Opaque val bn_add bn_sub bn_sub_into bn_lshift1 bn_rshift1 bn_mul bn_cmp bn_bit_length bn_bit_at bn_zero bn_set_u32.

(** ** Modular powers *)

Lemma mod_bit e i : 0 <= i -> e mod 2 ^ (i + 1) = e mod 2 ^ i + e / 2 ^ i mod 2 * 2 ^ i.
Proof.
  intros I. rewrite Z.pow_add_r by lia. change (2 ^ 1) with 2.
  rewrite Z.rem_mul_r by (try apply Z.pow_nonzero; lia). lia.
Qed.

Lemma pow_mod_pow a e m : 0 <= e -> m <> 0 -> ((a mod m) ^ e) mod m = (a ^ e) mod m.
Proof.
  intros E M. apply (z_nat_ind (fun e => ((a mod m) ^ e) mod m = (a ^ e) mod m) e E); [done |].
  intros i Ri IH. rewrite !Z.pow_add_r, !Z.pow_1_r by lia. rewrite Z.mul_mod, IH, Z.mod_mod, <- Z.mul_mod by done. done.
Qed.

Lemma bn_modpow_spec base exp m : wf base -> wf exp -> wf m -> 1 < val m -> val m * val m <= CAP ->
  wf (bn_modpow base exp m) /\ val (bn_modpow base exp m) = (val base ^ val exp) mod val m.
Proof.
  intros Bs E M P1 Fit. unfold bn_modpow. destruct (bn_bit_length_spec exp E) as (L1 & L2 & _).
  pose proof (val_range exp E) as Re. destruct (bn_mod_spec base m Bs M ltac:(lia)) as (B1 & B2).
  destruct (bn_set_u32_spec 1 ltac:(lia)) as (S1 & S2). set (len := bn_bit_length exp) in *.
  pose proof (zfor_pair_ind (fun i acc b =>
      (wf acc /\ val acc = (val base ^ (val exp mod 2 ^ i)) mod val m) /\
      (i < len -> wf b /\ val b = (val base ^ (2 ^ i)) mod val m))
    (Z.to_nat len) 0 (fun i '(acc, b) =>
         let acc := if bn_bit_at exp i =? 0 then acc else bn_copy (bn_modmul acc b m) in
         let b := if i + 1 <? len then bn_copy (bn_modmul b b m) else b in (acc, b)) (bn_set_u32 1) (bn_mod base m)) as H.
  destruct H as ((R1 & R2) & _).
  - change (2 ^ 0) with 1. rewrite Z.mod_1_r, Z.pow_1_r, Z.pow_0_r. split; [| intros _; exact (conj B1 B2)].
    split; [exact S1 |]. rewrite S2. symmetry. apply Z.mod_small. lia.
  - intros i acc b Ri ((A1 & A2) & Hb). rewrite Z2Nat.id in Ri by lia. destruct (Hb ltac:(lia)) as (W1 & W2).
    pose proof (Z.mod_pos_bound (val base ^ (val exp mod 2 ^ i)) (val m) ltac:(lia)).
    pose proof (Z.mod_pos_bound (val base ^ (2 ^ i)) (val m) ltac:(lia)).
    assert (Pi : 0 < 2 ^ i) by (apply Z.pow_pos_nonneg; lia). pose proof (Z.mod_pos_bound (val exp) (2 ^ i) Pi).
    cbn [fst snd]. rewrite bn_bit_at_spec, !bn_copy_id by (lia || done). split.
    + rewrite mod_bit by lia. pose proof (Z.mod_pos_bound (val exp / 2 ^ i) 2 ltac:(lia)).
      destruct (Z.eqb_spec (val exp / 2 ^ i mod 2) 0) as [-> | N1]; [rewrite Z.mul_0_l, Z.add_0_r; exact (conj A1 A2) |].
      replace (val exp / 2 ^ i mod 2) with 1 by lia. destruct (bn_modmul_spec acc b m) as (V1 & V2); [done | done | done | lia | nia |].
      split; [exact V1 |]. rewrite V2, A2, W2, <- Z.mul_mod, <- Z.pow_add_r by lia. rewrite Z.mul_1_l. reflexivity.
    + intros L. rewrite (proj2 (Z.ltb_lt _ _) L). destruct (bn_modmul_spec b b m) as (V1 & V2); [done | done | done | lia | nia |].
      split; [exact V1 |]. rewrite V2, W2, <- Z.mul_mod, <- Z.pow_add_r by lia.
      assert (2 ^ (i + 1) = 2 ^ i + 2 ^ i) as -> by (rewrite Z.pow_add_r by lia; change (2 ^ 1) with 2; lia). reflexivity.
  - rewrite Z2Nat.id, Z.add_0_l in R2 by lia. split; [exact R1 |]. etransitivity; [exact R2 |].
    rewrite (Z.mod_small (val exp)) by lia. reflexivity.
Qed.

(** ** Greatest common divisor *)

Lemma gcd_double_l x y : Z.odd y = true -> Z.gcd (2 * x) y = Z.gcd x y.
Proof.
  intros O. apply Z.gcd_unique; [apply Z.gcd_nonneg | | |].
  - apply Z.divide_mul_r, Z.gcd_divide_l.
  - apply Z.gcd_divide_r.
  - intros d D1 D2. apply Z.gcd_greatest; [| done]. apply Z.gauss with 2; [done |].
    pose proof (Z.gcd_nonneg d 2). destruct (Z.gcd_divide_l d 2) as (p & P).
    assert (Z.gcd d 2 <= 2) by (apply Z.divide_pos_le; [lia | apply Z.gcd_divide_r]).
    destruct (decide (Z.gcd d 2 = 1)); [done |]. destruct (Z.gcd_divide_r d 2) as (q & Q).
    destruct (decide (Z.gcd d 2 = 0)) as [E | N]; [rewrite E in Q; lia |].
    assert (E : Z.gcd d 2 = 2) by lia. destruct D2 as (t & ->). rewrite P, E in O.
    rewrite !Z.odd_mul, !andb_false_r in O. done.
Qed.

Lemma gcd_half_l x y : Z.odd x = false -> Z.odd y = true -> Z.gcd (x / 2) y = Z.gcd x y.
Proof.
  intros E O. rewrite <- (gcd_double_l (x / 2) y O). f_equal.
  pose proof (Z.div_mod x 2 ltac:(lia)). rewrite Zmod_odd, E in *. lia.
Qed.

Lemma gcd_sub_l x y : Z.gcd (x - y) y = Z.gcd x y.
Proof. replace (x - y) with (x + (-1) * y) by lia. by rewrite Z.gcd_comm, Z.gcd_add_mult_diag_r, Z.gcd_comm. Qed.

Lemma even_half x : 0 < x -> Z.odd x = false -> x = 2 * (x / 2) /\ 0 < x / 2.
Proof. intros P E. pose proof (Z.div_mod x 2 ltac:(lia)) as D. rewrite Zmod_odd, E in D. lia. Qed.

(** Stripping the factors of two of [x] leaves the divisors it shares with an odd [y]. *)
Lemma make_odd_spec fuel x : wf x -> 0 < val x < 2 ^ Z.of_nat fuel ->
  exists x', make_odd fuel x = Some x' /\ wf x' /\ Z.odd (val x') = true /\ 0 < val x' <= val x /\
    (Z.odd (val x) = false -> 2 * val x' <= val x) /\ forall y, Z.odd y = true -> Z.gcd (val x') y = Z.gcd (val x) y.
Proof.
  revert x. induction fuel as [|k IH]; intros x WF R; [change (2 ^ Z.of_nat 0) with 1 in R; lia |].
  cbn [make_odd]. rewrite bn_is_odd_spec by done. destruct (Z.odd (val x)) eqn:O.
  - exists x. split; [done |]. split; [done |]. split; [done |]. split; [lia |]. by split.
  - destruct (bn_rshift1_spec x WF) as (WF' & E). destruct (even_half (val x)) as (H1 & H2); [lia | done |].
    rewrite Nat2Z.inj_succ, Z.pow_succ_r in R by lia.
    destruct (IH (bn_rshift1 x) WF') as (x' & -> & W1 & W2 & W3 & W4 & W5); [lia |].
    exists x'. split; [done |]. split; [done |]. split; [done |]. rewrite E in *. split; [lia |]. split; [lia |].
    intros y Oy. rewrite W5 by done. by apply gcd_half_l.
Qed.

Lemma halve_both_spec fuel x y s : wf x -> wf y -> 0 < val x < 2 ^ Z.of_nat fuel -> 0 < val y ->
  exists x' y' d, halve_both fuel x y s = Some (x', y', (s + d)%nat) /\ wf x' /\ wf y' /\ 
    Z.odd (val x') || Z.odd (val y') = true /\
    0 < val x' /\ 0 < val y' /\ val x = val x' * 2 ^ Z.of_nat d /\ val y = val y' * 2 ^ Z.of_nat d.
Proof.
  revert x y s. induction fuel as [|k IH]; intros x y s X Y R P; [change (2 ^ Z.of_nat 0) with 1 in R; lia |].
  cbn [halve_both]. rewrite !bn_is_odd_spec by done. destruct (Z.odd (val x) || Z.odd (val y)) eqn:O.
  - exists x, y, 0%nat. rewrite Nat.add_0_r. change (2 ^ Z.of_nat 0) with 1. rewrite !Z.mul_1_r. do 6 (split; [assumption || reflexivity || lia |]). split; reflexivity.
  - apply orb_false_iff in O as (Ox & Oy). destruct (bn_rshift1_spec x X) as (X' & Ex), (bn_rshift1_spec y Y) as (Y' & Ey).
    destruct (even_half (val x)) as (H1 & H2); [lia | done |]. destruct (even_half (val y)) as (H3 & H4); [lia | done |].
    rewrite Nat2Z.inj_succ, Z.pow_succ_r in R by lia.
    destruct (IH (bn_rshift1 x) (bn_rshift1 y) (S s) X' Y') as (x' & y' & d & -> & W1 & W2 & W3 & W4 & W5 & W6 & W7); [lia | lia |].
    exists x', y', (S d). rewrite <- Nat.add_succ_comm. rewrite Nat2Z.inj_succ, Z.pow_succ_r by lia.
    do 6 (split; [assumption || reflexivity |]). lia.
Qed.

(** The reduction halves the product of the two numbers at every turn. *)
Lemma stein_spec fuel inner x y : wf x -> wf y -> Z.odd (val x) = true -> Z.odd (val y) = true ->
  0 < val x -> 0 < val y -> val x * val y < 2 ^ Z.of_nat fuel -> CAP <= 2 ^ Z.of_nat inner ->
  exists r, stein fuel inner x y = Some r /\ wf r /\ val r = Z.gcd (val x) (val y).
Proof.
  revert x y. induction fuel as [|k IH]; intros x y X Y Ox Oy Px Py R I; [change (2 ^ Z.of_nat 0) with 1 in R; nia |].
  cbn [stein]. rewrite bn_cmp_spec by done. rewrite Nat2Z.inj_succ, Z.pow_succ_r in R by lia.
  pose proof (val_range x X). pose proof (val_range y Y). unfold zcmp.
  destruct (Z.ltb_spec (val x) (val y)) as [L | G]; [| destruct (Z.eqb_spec (val x) (val y)) as [E | N]].
  - change (-1 =? 0) with false. change (-1 >? 0) with false. cbv iota.
    destruct (bn_sub_into_spec y y x Y X ltac:(lia)) as (S1 & S2).
    destruct (make_odd_spec inner _ S1) as (y' & -> & W1 & W2 & W3 & W4 & W5); [lia |]. cbn [mbind option_bind].
    rewrite S2 in *. rewrite Z.odd_sub, Ox, Oy in W4. specialize (W4 eq_refl).
    destruct (IH x y' X W1 Ox W2 Px) as (r & -> & V1 & V2); [lia | nia | done |]. exists r. split; [done |]. split; [done |].
    rewrite V2, Z.gcd_comm, W5, gcd_sub_l by done. apply Z.gcd_comm.
  - change (0 =? 0) with true. cbv iota. exists x. split; [done |]. split; [done |]. rewrite <- E, Z.gcd_diag. lia.
  - change (1 =? 0) with false. change (1 >? 0) with true. cbv iota.
    destruct (bn_sub_into_spec x x y X Y ltac:(lia)) as (S1 & S2).
    destruct (make_odd_spec inner _ S1) as (x' & -> & W1 & W2 & W3 & W4 & W5); [lia |]. cbn [mbind option_bind].
    rewrite S2 in *. rewrite Z.odd_sub, Ox, Oy in W4. specialize (W4 eq_refl).
    destruct (IH x' y W1 Y W2 Oy) as (r & -> & V1 & V2); [lia | lia | nia | done |]. exists r. split; [done |]. split; [done |].
    by rewrite V2, W5, gcd_sub_l.
Qed.

Lemma zfor_S {St} n i (f : Z -> St -> St) s : zfor (S n) i f s = zfor n (i + 1) f (f i s).
Proof. reflexivity. Qed.

Lemma lshift_times r n : wf r -> val r * 2 ^ Z.of_nat n < CAP -> forall i,
  wf (zfor n i (fun _ => bn_lshift1) r) /\ val (zfor n i (fun _ => bn_lshift1) r) = val r * 2 ^ Z.of_nat n.
Proof.
  revert r. induction n as [|n IH]; intros r WF F i.
  { change (2 ^ Z.of_nat 0) with 1. rewrite Z.mul_1_r. exact (conj WF eq_refl). }
  rewrite Nat2Z.inj_succ, Z.pow_succ_r in F |- * by lia. destruct (bn_lshift1_spec r WF) as (W1 & W2).
  assert (P : 0 < 2 ^ Z.of_nat n) by (apply Z.pow_pos_nonneg; lia). pose proof (val_range r WF) as R.
  assert (L : 0 <= 2 * val r < CAP) by (clear W2; nia). rewrite Z.mod_small in W2 by exact L.
  assert (F' : val (bn_lshift1 r) * 2 ^ Z.of_nat n < CAP) by (rewrite W2; lia).
  rewrite zfor_S. destruct (IH (bn_lshift1 r) W1 F' (i + 1)) as (V1 & V2).
  split; [exact V1 |]. rewrite V2, W2. lia.
Qed.

Lemma CAP_pow2 : CAP = 2 ^ 4608.
Proof. unfold CAP, BN_MAX_LIMBS. change W with (2 ^ 32). rewrite <- Z.pow_mul_r by done. reflexivity. Qed.

(** gcd of numbers one of which is odd. *)
Lemma gcd_scale x y d : 0 <= d -> Z.gcd (x * d) (y * d) = Z.gcd x y * d.
Proof. intros. rewrite Z.gcd_mul_mono_r. by rewrite Z.abs_eq. Qed.

Lemma bn_gcd_spec fuel a b : 9216 <= Z.of_nat fuel -> wf a -> wf b ->
  exists r, bn_gcd fuel a b = Some r /\ wf r /\ val r = Z.gcd (val a) (val b).
Proof.
  intros F A B. unfold bn_gcd. rewrite !bn_copy_id, !bn_is_zero_spec by done.
  pose proof (val_range a A) as Ra. pose proof (val_range b B) as Rb.
  destruct (Z.eqb_spec (val a) 0) as [-> | Na]; [exists b; rewrite Z.gcd_0_l, Z.abs_eq by lia; auto |].
  destruct (Z.eqb_spec (val b) 0) as [-> | Nb]; [exists a; rewrite Z.gcd_0_r, Z.abs_eq by lia; auto |].
  assert (C1 : CAP * CAP <= 2 ^ Z.of_nat fuel).
  { rewrite CAP_pow2, <- Z.pow_add_r by done. apply Z.pow_le_mono_r; lia. }
  assert (C2 : CAP <= 2 ^ Z.of_nat fuel) by (pose proof CAP_pos; nia).
  destruct (halve_both_spec fuel a b 0 A B) as (x & y & d & -> & X & Y & O & Px & Py & Ea & Eb); [lia | lia |].
  cbn [mbind option_bind]. rewrite Nat.add_0_l. pose proof (val_range x X). pose proof (val_range y Y).
  destruct (make_odd_spec fuel x X) as (x' & -> & X1 & X2 & X3 & _ & X5); [lia |].
  destruct (make_odd_spec fuel y Y) as (y' & -> & Y1 & Y2 & Y3 & _ & Y5); [lia |]. cbn [mbind option_bind].
  destruct (stein_spec fuel fuel x' y' X1 Y1 X2 Y2) as (r & -> & R1 & R2); [lia | lia | nia | done |]. cbn [mbind option_bind].
  rewrite bn_copy_id.
  assert (G : val r = Z.gcd (val x) (val y)).
  { rewrite R2. apply orb_true_iff in O as [Ox | Oy].
    - rewrite X5, Z.gcd_comm, Y5 by done. apply Z.gcd_comm.
    - rewrite Z.gcd_comm, Y5, Z.gcd_comm, X5 by done. reflexivity. }
  assert (S : val r * 2 ^ Z.of_nat d = Z.gcd (val a) (val b)) by (rewrite G, Ea, Eb, gcd_scale; lia).
  eexists. split; [reflexivity |]. rewrite <- S. apply lshift_times; [done |]. rewrite S.
  assert (Z.gcd (val a) (val b) <= val a) by (apply Z.divide_pos_le; [lia | apply Z.gcd_divide_l]). lia.
Qed.

(** ** Division with quotient *)

Lemma bit_clear_lor x i : 0 <= i -> 0 <= x -> let l := i / 32 in let s := i mod 32 in
  (x * 2 ^ (i + 1)) / W ^ l mod W = x mod 2 ^ (31 - s) * 2 ^ (s + 1) /\ 2 ^ i = 2 ^ s * W ^ l.
Proof.
  intros I X l s. assert (D : i = 32 * l + s) by (apply Z.div_mod; lia). pose proof (Z.mod_pos_bound i 32 ltac:(lia)) as S. fold s in S.
  assert (L : 0 <= l) by (apply Z.div_pos; lia). clearbody l s. pose proof (Wpow_pos l L) as P.
  assert (E : 2 ^ i = 2 ^ s * W ^ l) by (rewrite D, Z.pow_add_r, Z.pow_mul_r by lia; change (2 ^ 32) with W; lia).
  split; [| exact E]. replace (x * 2 ^ (i + 1)) with (x * 2 ^ (s + 1) * W ^ l).
  2: { rewrite !Z.pow_add_r, E by lia. ring. }
  rewrite Z.div_mul by lia. assert (EW : W = 2 ^ (31 - s) * 2 ^ (s + 1)).
  { rewrite <- Z.pow_add_r by lia. by replace (31 - s + (s + 1)) with 32 by lia. }
  rewrite EW. apply Z.mul_mod_distr_r; apply Z.pow_nonzero; lia.
Qed.

(** Setting bit [i] of a multiple of [2^(i+1)], as bn_modinv does. *)
Lemma set_bit_spec quot i x : wf quot -> 0 <= i < 4608 -> 0 <= x -> val quot = x * 2 ^ (i + 1) ->
  let l := Z.shiftr i 5 in
  let b := mk_bignum (zset (bv quot) l (Z.lor (zget (bv quot) l) (u32 (Z.shiftl 1 (Z.land i 31)))))
                     (if bn quot <=? l then l + 1 else bn quot) in
  wf b /\ val b = val quot + 2 ^ i.
Proof.
  intros WF I X E. cbv zeta. rewrite Z.shiftr_div_pow2 by lia. change 31 with (Z.ones 5).
  rewrite Z.land_ones, Z.shiftl_mul_pow2, Z.mul_1_l by first [lia | apply Z.mod_pos_bound; lia].
  change (2 ^ 5) with 32. destruct (bit_clear_lor x i) as (Cl & Ei); [lia | lia |]. cbv zeta in *.
  assert (L : 0 <= i / 32 < BN_MAX_LIMBS) by (unfold BN_MAX_LIMBS; split; [apply Z.div_pos; lia | apply Z.div_lt_upper_bound; lia]).
  pose proof (Z.mod_pos_bound i 32 ltac:(lia)) as S.
  assert (P : 0 < 2 ^ (i mod 32) < W) by (split; [apply Z.pow_pos_nonneg; lia | change W with (2 ^ 32); apply Z.pow_lt_mono_r; lia]).
  rewrite u32_small by lia.
  assert (G : zget (bv quot) (i / 32) = x mod 2 ^ (31 - i mod 32) * 2 ^ (i mod 32 + 1)).
  { rewrite <- Cl, <- E, val_psum_all. apply limb_of_psum; [apply WF | exact L]. }
  assert (Lor : Z.lor (zget (bv quot) (i / 32)) (2 ^ (i mod 32)) = zget (bv quot) (i / 32) + 2 ^ (i mod 32)).
  { rewrite G, Z.lor_comm, lor_add by first [lia | split; [lia | apply Z.pow_lt_mono_r; lia]]. lia. }
  assert (Lb : 0 <= Z.lor (zget (bv quot) (i / 32)) (2 ^ (i mod 32)) < W).
  { change W with (2 ^ 32). apply lor_bound; [lia | apply (wf_limb quot WF _ L) | lia]. }
  pose proof (wf_limb quot WF _ L).
  assert (Lp : 0 < Z.lor (zget (bv quot) (i / 32)) (2 ^ (i mod 32))) by (rewrite Lor; lia).
  destruct (set_limb_spec quot (i / 32) _ WF L (conj Lp (proj2 Lb))) as (W1 & W2). cbv zeta in *.
  split; [exact W1 |]. rewrite W2, Lor, Ei. ring.
Qed.

Lemma bn_divide_spec a m : wf a -> wf m -> 0 < val m ->
  let q := fst (bn_divide a m) in let r := snd (bn_divide a m) in
  (wf q /\ val q = val a / val m) /\ wf r /\ val r = val a mod val m.
Proof.
  intros A M Pm. cbv zeta. pose proof (val_range a A) as Ra. destruct (bn_bit_length_spec a A) as (L1 & L2 & _).
  destruct bn_zero_spec as (Z1 & Z2). unfold bn_divide.
  match goal with |- context [zdown ?n ?f (?a0, ?b0)] => pose proof (zdown_pair_ind (fun i q r =>
      (wf q /\ val q = val a / 2 ^ i / val m * 2 ^ i) /\ wf r /\ val r = (val a / 2 ^ i) mod val m) n f a0 b0) as H end.
  destruct H as ((Q1 & Q2) & R1 & R2).
  - rewrite Z2Nat.id, (Z.div_small (val a) (2 ^ _)) by lia. rewrite Z.div_0_l, Z.mod_0_l, Z.mul_0_l by lia. split; split; assumption.
  - intros i q r Ri ((Q1 & Q2) & R1 & R2). rewrite Z2Nat.id in Ri by lia.
    pose proof (Z.mod_pos_bound (val a / 2 ^ (i + 1)) (val m) Pm) as Rr.
    pose proof (Z.div_mod (val a / 2 ^ (i + 1)) (val m) ltac:(lia)) as D. rewrite Z.mul_comm in D. rewrite <- R2 in D, Rr.
    destruct (divide_step _ _ _ _ _ Pm (proj1 Ri) D Rr) as (R' & S).
    assert (X0 : 0 <= val a / 2 ^ (i + 1)) by (apply Z.div_pos; [lia | apply Z.pow_pos_nonneg; lia]).
    assert (Q0 : 0 <= val a / 2 ^ (i + 1) / val m) by (apply Z.div_pos; lia).
    destruct (shift_in_spec a i r A R1) as (WF' & E'); [lia | exact (step_fits a i r m A (proj1 Ri) Pm R2) |].
    set (r' := shift_in a i r) in *. set (k := val a / 2 ^ (i + 1) / val m) in *. rewrite <- E' in *.
    cbn [fst snd]. rewrite bn_cmp_spec by assumption. unfold zcmp.
    assert (Dbl : 2 ^ (i + 1) = 2 * 2 ^ i) by (rewrite Z.pow_add_r by lia; change (2 ^ 1) with 2; lia).
    destruct (val r' <? val m) eqn:G; zb.
    + change (-1 >=? 0) with false. cbn [fst snd]. rewrite S.
      assert (Eq : (2 * k * val m + val r') / val m = 2 * k) by (symmetry; apply Z.div_unique with (val r'); lia).
      assert (Em : (2 * k * val m + val r') mod val m = val r') by (symmetry; apply Z.mod_unique with (2 * k); lia).
      rewrite Eq, Em. split; [split; [assumption | rewrite Q2, Dbl; ring] | split; [assumption | reflexivity]].
    + destruct (bn_sub_into_spec r' r' m WF' M ltac:(lia)) as (W1 & W2).
      replace ((if val r' =? val m then 0 else 1) >=? 0) with true by (by cases). cbn [fst snd]. rewrite S, W2.
      assert (Eq : ((2 * k + 1) * val m + (val r' - val m)) / val m = 2 * k + 1) by (symmetry; apply Z.div_unique with (val r' - val m); lia).
      assert (Em : ((2 * k + 1) * val m + (val r' - val m)) mod val m = val r' - val m) by (symmetry; apply Z.mod_unique with (2 * k + 1); lia).
      rewrite Eq, Em. destruct (set_bit_spec q i k Q1) as (V1 & V2); [lia | exact Q0 | exact Q2 |]. cbv zeta in *.
      split; [split; [exact V1 | rewrite V2, Q2, Dbl; ring] | split; [exact W1 | reflexivity]].
  - change (2 ^ 0) with 1 in *. rewrite Z.div_1_r, ?Z.mul_1_r in *. split; split; assumption.
Qed.

(** ** Modular inverse *)

(** The number a signed magnitude stands for. *)
Definition sval (b : bignum) (neg : bool) : Z := if neg then - val b else val b.

Lemma bn_signed_add_spec a an b bneg : wf a -> wf b -> val a + val b < CAP ->
  let r := bn_signed_add a an b bneg in
  wf (fst r) /\ sval (fst r) (snd r) = sval a an + sval b bneg.
Proof.
  intros A B F. unfold bn_signed_add. destruct (eqb an bneg) eqn:S.
  { apply eqb_prop in S as ->. destruct (bn_add_spec a b A B F) as (W1 & W2). cbn [fst snd]. split; [exact W1 |].
    unfold sval. rewrite W2. destruct bneg; lia. }
  apply eqb_false_iff in S. rewrite bn_cmp_spec by assumption. unfold zcmp.
  destruct (Z.ltb_spec (val a) (val b)); [| destruct (Z.eqb_spec (val a) (val b))]; cbn [fst snd Z.eqb Z.gtb Z.compare].
  - destruct (bn_sub_into_spec a b a B A ltac:(lia)) as (W1 & W2). split; [exact W1 |].
    unfold sval. rewrite W2. destruct an, bneg; congruence || lia.
  - destruct bn_zero_spec as (Z1 & Z2). split; [exact Z1 |]. unfold sval. rewrite Z2. destruct an, bneg; congruence || lia.
  - destruct (bn_sub_into_spec a a b A B ltac:(lia)) as (W1 & W2). split; [exact W1 |].
    unfold sval. rewrite W2. destruct an, bneg; congruence || lia.
Qed.

Lemma sval_abs b neg : wf b -> val b = Z.abs (sval b neg).
Proof. intros WF. pose proof (val_range b WF). unfold sval. destruct neg; lia. Qed.

#[global] Opaque bn_signed_add bn_divide bn_mod.

Section Inverse.
Context (A M : Z).

(** What the loop of bn_modinv keeps: Bezout for both remainders, opposite signs and
    the identity that bounds the coefficients by the modulus. *)
Record euclid_ok (e : euclid) : Prop := mk_euclid_ok
  { ok_wf : wf (old_r e) /\ wf (rr e) /\ wf (old_s e) /\ wf (s_ e);
    ok_old : (M | val (old_r e) - sval (old_s e) (old_s_neg e) * A);
    ok_new : (M | val (rr e) - sval (s_ e) (s_neg e) * A);
    ok_sum : val (old_s e) * val (rr e) + val (s_ e) * val (old_r e) = M;
    ok_sign : sval (old_s e) (old_s_neg e) * sval (s_ e) (s_neg e) <= 0;
    ok_gcd : Z.gcd (val (old_r e)) (val (rr e)) = Z.gcd A M }.

Lemma opposite_abs o s q : 0 <= q -> o * s <= 0 -> Z.abs (o - q * s) = Z.abs o + q * Z.abs s /\ s * (o - q * s) <= 0.
Proof. intros Q S. assert (0 <= o /\ s <= 0 \/ o <= 0 /\ 0 <= s) as [? | ?] by nia; split; nia. Qed.

Lemma euclid_step_ok e : euclid_ok e -> M < CAP -> val (rr e) <> 0 ->
  euclid_ok (euclid_step e) /\ val (rr (euclid_step e)) < val (old_r (euclid_step e)) /\
  old_r (euclid_step e) = rr e /\ val (rr (euclid_step e)) = val (old_r e) mod val (rr e).
Proof.
  intros [(W1 & W2 & W3 & W4) Bo Bn Sum Sign Gcd] FM Nz.
  pose proof (val_range (rr e) W2) as R2. pose proof (val_range (old_r e) W1) as R1.
  pose proof (val_range (old_s e) W3) as R3. pose proof (val_range (s_ e) W4) as R4.
  destruct (bn_divide_spec (old_r e) (rr e) W1 W2 ltac:(lia)) as ((Q1 & Q2) & _). cbv zeta in *.
  unfold euclid_step. rewrite !bn_copy_id. set (q := fst (bn_divide (old_r e) (rr e))) in *.
  pose proof (Z.div_mod (val (old_r e)) (val (rr e)) Nz) as D. pose proof (Z.mod_pos_bound (val (old_r e)) (val (rr e)) ltac:(lia)) as Rm.
  assert (Q0 : 0 <= val q) by apply (val_range q Q1). rewrite <- Q2 in D.
  destruct (bn_mul_exact q (rr e) Q1 W2) as (P1 & P2); [nia |].
  destruct (bn_sub_into_spec bn_zero (old_r e) (bn_mul q (rr e)) W1 P1) as (N1 & N2); [rewrite P2; nia |].
  assert (En : val (old_r e) - val (bn_mul q (rr e)) = val (old_r e) mod val (rr e)) by (rewrite P2; lia). rewrite En in N2.
  assert (Bd : val q * val (s_ e) + val (old_s e) <= M).
  { assert (val q * val (s_ e) * val (rr e) <= val (s_ e) * val (old_r e)) by (rewrite D; nia). nia. }
  destruct (bn_mul_exact q (s_ e) Q1 W4) as (T1 & T2); [lia |].
  destruct (bn_signed_add_spec (bn_mul q (s_ e)) (negb (s_neg e)) (old_s e) (old_s_neg e) T1 W3) as (S1 & S2); [rewrite T2; lia |].
  cbv zeta in *. destruct (bn_signed_add _ _ _ _) as (ns, nn). cbn [fst snd] in *.
  assert (Es : sval ns nn = sval (old_s e) (old_s_neg e) - val q * sval (s_ e) (s_neg e)).
  { rewrite S2. unfold sval. rewrite T2. destruct (s_neg e); cbn [negb]; destruct (old_s_neg e); lia. }
  destruct (opposite_abs _ _ (val q) Q0 Sign) as (Ab & Sg). rewrite <- Es in Ab, Sg.
  rewrite <- !sval_abs in Ab by assumption. cbn [old_r rr old_s s_ old_s_neg s_neg].
  split; [| rewrite ?bn_copy_id; split; [lia | split; [reflexivity | exact N2]]].
  split; cbn [old_r rr old_s s_ old_s_neg s_neg]; rewrite ?bn_copy_id.
  - split; [exact W2 | split; [exact N1 | split; [exact W4 | exact S1]]].
  - exact Bn.
  - destruct Bo as (x & Ex), Bn as (y & Ey). exists (x - val q * y). rewrite N2, Es. nia.
  - rewrite N2, Ab. nia.
  - exact Sg.
  - rewrite N2, Z.gcd_comm, Z.gcd_mod by exact Nz. rewrite Z.gcd_comm. exact Gcd.
Qed.

(** The product of the two remainders halves at every turn. *)
Lemma euclid_loop_ok fuel e : euclid_ok e -> M < CAP -> val (rr e) < val (old_r e) ->
  val (old_r e) * val (rr e) < 2 ^ Z.of_nat fuel ->
  exists e', euclid_loop (S fuel) e = Some e' /\ euclid_ok e' /\ val (rr e') = 0.
Proof.
  revert e. induction fuel as [|k IH]; intros e Ok FM Lt P.
  - destruct Ok as [W Ok']. pose proof (val_range (rr e) (proj1 (proj2 W))).
    assert (Z0 : val (rr e) = 0) by (change (2 ^ Z.of_nat 0) with 1 in P; nia). cbn [euclid_loop].
    rewrite bn_is_zero_spec, Z0 by apply W. exists e. split; [reflexivity |]. split; [by split | exact Z0].
  - cbn [euclid_loop]. rewrite bn_is_zero_spec by apply Ok. destruct (Z.eqb_spec (val (rr e)) 0) as [Z0 | Nz].
    + exists e. split; [reflexivity | split; [exact Ok | exact Z0]].
    + destruct (euclid_step_ok e Ok FM Nz) as (Ok' & Lt' & Eo & Er). apply (IH _ Ok' FM Lt').
      pose proof (val_range (rr e) (proj1 (proj2 (ok_wf e Ok)))).
      rewrite Eo, Er in *. rewrite Nat2Z.inj_succ, Z.pow_succ_r in P by lia.
      pose proof (Z.div_mod (val (old_r e)) (val (rr e)) Nz). pose proof (Z.mod_pos_bound (val (old_r e)) (val (rr e)) ltac:(lia)).
      assert (1 <= val (old_r e) / val (rr e)) by (apply Z.div_le_lower_bound; lia). nia.
Qed.

End Inverse.

(** bn_modinv ends; it finds the inverse in [1, m) exactly when there is one. *)
Lemma bn_modinv_spec fuel a m : 9218 <= Z.of_nat fuel -> wf a -> wf m -> 1 < val m ->
  (Z.gcd (val a) (val m) = 1 /\ exists r, bn_modinv fuel a m = Some (Some r) /\ wf r /\ 0 < val r < val m /\
                                          (val r * val a) mod val m = 1) \/
  (Z.gcd (val a) (val m) <> 1 /\ bn_modinv fuel a m = Some None).
Proof.
  intros F A M P1. destruct fuel as [|[|fuel]]; [lia | lia |]. pose proof (val_range m M) as Rm. pose proof (val_range a A) as Ra.
  destruct (bn_set_u32_spec 1) as (O1 & O2); [lia |]. destruct (bn_set_u32_spec 0) as (Z1 & Z2); [lia |].
  set (e0 := mk_euclid (bn_copy a) (bn_copy m) (bn_set_u32 1) false (bn_set_u32 0) false).
  assert (Ok0 : euclid_ok (val a) (val m) e0).
  { unfold e0. rewrite !bn_copy_id. split; cbn [old_r rr old_s s_ old_s_neg s_neg]; unfold sval; rewrite ?O2, ?Z2.
    - split; [exact A | split; [exact M | split; [exact O1 | exact Z1]]].
    - exists 0. lia.
    - exists 1. lia.
    - lia.
    - lia.
    - reflexivity. }
  assert (Em : rr e0 = m) by apply bn_copy_id. assert (Ea : old_r e0 = a) by apply bn_copy_id.
  destruct (euclid_step_ok _ _ e0 Ok0 (proj2 Rm) ltac:(rewrite Em; lia)) as (Ok1 & Lt & Eo & Er). rewrite Em, Ea in *.
  destruct (euclid_loop_ok _ _ fuel (euclid_step e0) Ok1 (proj2 Rm) Lt) as (e & El & Ok & Z0).
  { rewrite Eo, Er. assert (C : CAP * CAP <= 2 ^ Z.of_nat fuel) by (rewrite CAP_pow2, <- Z.pow_add_r by done; apply Z.pow_le_mono_r; lia).
    pose proof (Z.mod_pos_bound (val a) (val m) ltac:(lia)). nia. }
  unfold bn_modinv. fold e0. remember (S fuel) as k eqn:Ek. cbn [euclid_loop]. rewrite bn_is_zero_spec by (rewrite Em; exact M).
  rewrite Em, (proj2 (Z.eqb_neq (val m) 0)), El by lia. cbn [mbind option_bind].
  destruct Ok as [(W1 & W2 & W3 & W4) (x & Bo) _ Sum _ Gcd]. rewrite Z0 in *. rewrite Z.gcd_0_r in Gcd.
  pose proof (val_range (old_r e) W1). rewrite Z.abs_eq in Gcd by lia.
  rewrite bn_cmp_spec, O2, Gcd by assumption. unfold zcmp.
  destruct (decide (Z.gcd (val a) (val m) = 1)) as [G1 | G1].
  2: { right. split; [exact G1 |]. destruct (Z.ltb_spec (Z.gcd (val a) (val m)) 1); [reflexivity |].
       destruct (Z.eqb_spec (Z.gcd (val a) (val m)) 1); [contradiction | reflexivity]. }
  left. split; [exact G1 |]. rewrite G1. change (negb ((if 1 <? 1 then -1 else if 1 =? 1 then 0 else 1) =? 0)) with false. cbv iota.
  destruct (bn_mod_spec (old_s e) m W3 M ltac:(lia)) as (V1 & V2). rewrite Gcd, G1 in Bo.
  pose proof (Z.div_mod (val (old_s e)) (val m) ltac:(lia)) as D. pose proof (Z.mod_pos_bound (val (old_s e)) (val m) ltac:(lia)) as Rt.
  rewrite <- V2 in D, Rt. set (t := bn_mod (old_s e) m) in *. set (k' := val (old_s e) / val m) in *.
  assert (Inv : forall r, 0 <= r < val m -> (val m | r - sval (old_s e) (old_s_neg e)) -> 0 < r /\ (r * val a) mod val m = 1).
  { intros r Rr (y & Ey). assert (E1 : (r * val a) mod val m = 1).
    { symmetry. apply Z.mod_unique with (y * val a - x); [lia |]. nia. }
    split; [| exact E1]. destruct (decide (r = 0)) as [-> | Ne]; [| lia]. rewrite Z.mul_0_l, Z.mod_0_l in E1 by lia. lia. }
  unfold sval in Inv. destruct (old_s_neg e).
  - destruct (bn_sub_into_spec bn_zero m t M V1 ltac:(lia)) as (U1 & U2). eexists. split; [reflexivity |]. split; [exact U1 |].
    assert (Nz : val t <> 0).
    { intros E. unfold sval in Bo. cbv iota in Bo. rewrite D, E in Bo. assert (Em1 : val m * (x - k' * val a) = 1) by lia.
      pose proof (Z.mod_mul (x - k' * val a) (val m) ltac:(lia)) as Mm. rewrite Z.mul_comm, Em1, Z.mod_small in Mm by lia. lia. }
    rewrite U2. destruct (Inv (val m - val t)) as (I1 & I2); [lia | exists (1 + k'); lia |]. split; [lia | exact I2].
  - eexists. split; [reflexivity |]. split; [exact V1 |].
    destruct (Inv (val t)) as (I1 & I2); [lia | exists (- k'); lia |]. split; [lia | exact I2].
Qed.

(** ** Bytes *)

(** The number the first [n] bytes of a buffer stand for, most significant first. *)
Definition be_val (buf : list Z) (n : Z) : Z := zfor (Z.to_nat n) 0 (fun i acc => 256 * acc + zget buf i) 0.

Lemma be_val_S buf n : 0 <= n -> be_val buf (n + 1) = 256 * be_val buf n + zget buf n.
Proof.
  intros N. unfold be_val. replace (Z.to_nat (n + 1)) with (S (Z.to_nat n)) by lia. rewrite zfor_S_last.
  by rewrite Z.add_0_l, Z2Nat.id by lia.
Qed.

Lemma be_val_ext b1 b2 n : 0 <= n -> (forall i, 0 <= i < n -> zget b1 i = zget b2 i) -> be_val b1 n = be_val b2 n.
Proof.
  intros N. apply (z_nat_ind (fun n => (forall i, 0 <= i < n -> zget b1 i = zget b2 i) -> be_val b1 n = be_val b2 n) n N); [done |].
  intros i Ri IH E. rewrite !be_val_S, IH, E by (lia || (intros; apply E; lia)). done.
Qed.

Lemma be_val_bound buf n : 0 <= n -> (forall i, 0 <= i < n -> 0 <= zget buf i < 256) -> 0 <= be_val buf n < 256 ^ n.
Proof.
  intros N. apply (z_nat_ind (fun n => (forall i, 0 <= i < n -> 0 <= zget buf i < 256) -> 0 <= be_val buf n < 256 ^ n) n N).
  - intros _. change (be_val buf 0) with 0. change (256 ^ 0) with 1. lia.
  - intros i Ri IH R. rewrite be_val_S, Z.pow_add_r by lia. change (256 ^ 1) with 256.
    pose proof (R i ltac:(lia)). specialize (IH ltac:(intros; apply R; lia)). lia.
Qed.

(** Reading the digits of [x] gives [x] back, and the digits of a buffer's number are its bytes. *)
Lemma be_val_digits buf n x : 0 <= n -> (forall j, 0 <= j < n -> zget buf j = x / 256 ^ (n - 1 - j) mod 256) ->
  be_val buf n = x mod 256 ^ n.
Proof.
  intros N G. cut (forall i, 0 <= i <= n -> be_val buf i = x / 256 ^ (n - i) mod 256 ^ i).
  { intros C. rewrite C by lia. by rewrite Z.sub_diag, Z.div_1_r. }
  intros i Ri. apply (z_nat_ind (fun i => i <= n -> be_val buf i = x / 256 ^ (n - i) mod 256 ^ i) i); [lia | | | lia].
  - intros _. by rewrite Z.mod_1_r.
  - intros k Rk IH Le. rewrite be_val_S, G, IH by lia. replace (n - 1 - k) with (n - (k + 1)) by lia.
    replace (n - k) with (n - (k + 1) + 1) by lia. rewrite !Z.pow_add_r, <- Z.div_div by (try apply Z.pow_pos_nonneg; try apply Z.pow_nonzero; lia).
    change (256 ^ 1) with 256. rewrite (Z.mul_comm (256 ^ k)), Z.rem_mul_r by (try apply Z.pow_nonzero; lia). lia.
Qed.

Lemma be_val_digit buf n j : (forall i, 0 <= i < n -> 0 <= zget buf i < 256) -> 0 <= j < n ->
  be_val buf n / 256 ^ (n - 1 - j) mod 256 = zget buf j.
Proof.
  intros R J. cut (forall d, 0 <= d -> j + 1 + d <= n -> be_val buf (j + 1 + d) / 256 ^ d mod 256 = zget buf j).
  { intros C. specialize (C (n - 1 - j)). replace (j + 1 + (n - 1 - j)) with n in C by lia. apply C; lia. }
  intros d D. apply (z_nat_ind (fun d => j + 1 + d <= n -> be_val buf (j + 1 + d) / 256 ^ d mod 256 = zget buf j) d D).
  - intros L. rewrite Z.add_0_r, Z.div_1_r, be_val_S, Z.mul_comm, Z.add_comm, Z.mod_add by lia. apply Z.mod_small, R. lia.
  - intros k Rk IH L. rewrite Z.add_assoc, be_val_S by lia. rewrite Z.pow_add_r, (Z.mul_comm (256 ^ k)) by lia. change (256 ^ 1) with 256.
    rewrite <- Z.div_div by (try apply Z.pow_pos_nonneg; lia). rewrite (Z.mul_comm 256 (be_val _ _)), Z.div_add_l by lia.
    rewrite (Z.div_small (zget _ _)) by (apply R; lia). rewrite Z.add_0_r. apply IH. lia.
Qed.

Lemma psum_all v n : val (mk_bignum v n) = psum v BN_MAX_LIMBS.
Proof. apply val_psum_all. Qed.

Lemma CAP_256 : exists q, 0 < q /\ CAP = 256 * q.
Proof. exists (2 ^ 4600). split; [by apply Z.pow_pos_nonneg |]. rewrite CAP_pow2. change 256 with (2 ^ 8). by rewrite <- Z.pow_add_r. Qed.

(** One turn of the reading loop. *)
Lemma or_byte w x y : limbs_ok w -> 0 <= x < 256 -> psum w BN_MAX_LIMBS = (256 * y) mod CAP ->
  limbs_ok (zset w 0 (Z.lor (zget w 0) x)) /\
  psum (zset w 0 (Z.lor (zget w 0) x)) BN_MAX_LIMBS = (256 * y + x) mod CAP.
Proof.
  intros L X E. destruct CAP_256 as (q & Pq & Eq). rewrite Eq, Z.mul_mod_distr_l in E by lia.
  assert (R0 : 0 <= zget w 0 < W) by (apply L; done).
  assert (M0 : zget w 0 mod 256 = 0).
  { rewrite <- (psum_low w 256 BN_MAX_LIMBS) by (done || by exists 16777216). rewrite E, Z.mul_comm. by apply Z.mod_mul. }
  rewrite (lor_clear 8) by (lia || exact M0 || exact X).
  assert (Le : zget w 0 + x < W) by (clear - R0 M0 X; zdm).
  split; [apply limbs_zset; [exact L | lia] |]. rewrite psum_zset by (rewrite ?(proj1 L); done).
  replace (if 0 <? BN_MAX_LIMBS then (zget w 0 + x - zget w 0) * W ^ 0 else 0) with x.
  2: { change (0 <? BN_MAX_LIMBS) with true. rewrite Z.pow_0_r. lia. }
  rewrite E, Eq. clear - Pq X. pose proof (Z.mod_pos_bound y q Pq). pose proof (Z.div_mod y q ltac:(lia)).
  apply Z.mod_unique with (y / q); lia.
Qed.

Lemma read_byte v x : limbs_ok v -> 0 <= x < 256 ->
  limbs_ok (zset (shl8 v) 0 (Z.lor (zget (shl8 v) 0) x)) /\
  psum (zset (shl8 v) 0 (Z.lor (zget (shl8 v) 0) x)) BN_MAX_LIMBS = (256 * psum v BN_MAX_LIMBS + x) mod CAP.
Proof. intros L X. destruct (shl8_spec v L) as (L' & E). by apply or_byte. Qed.

Lemma bn_from_bytes_be_spec buf n : 0 <= n -> (forall i, 0 <= i < n -> 0 <= zget buf i < 256) ->
  wf (bn_from_bytes_be buf n) /\ val (bn_from_bytes_be buf n) = be_val buf n mod CAP.
Proof.
  intros N R. unfold bn_from_bytes_be. set (v := zfor _ _ _ _).
  assert (H : limbs_ok v /\ psum v BN_MAX_LIMBS = be_val buf (0 + Z.of_nat (Z.to_nat n)) mod CAP).
  { apply (zfor_ind (fun i v => limbs_ok v /\ psum v BN_MAX_LIMBS = be_val buf i mod CAP)).
    - split; [apply limbs_zero | by apply psum_zero].
    - intros k w Rk (L & E). destruct (read_byte w (zget buf k) L) as (L' & E'); [apply R; lia |]. cbv zeta in *.
      split; [exact L' |]. rewrite E', E, be_val_S by lia. pose proof CAP_pos.
      by rewrite Z.add_mod, Z.mul_mod_idemp_r, <- Z.add_mod by lia. }
  destruct H as (L & E). rewrite Z2Nat.id, Z.add_0_l in E by lia. clearbody v. split; [apply wf_trim; [exact L | done | lia] |].
  rewrite val_trim, psum_all. exact E.
Qed.

Lemma bn_to_bytes_be_spec b buf n : wf b -> 0 <= n <= zlen buf -> let r := bn_to_bytes_be b buf n in
  zlen r = zlen buf /\ (forall j, 0 <= j < n -> zget r j = val b / 256 ^ (n - 1 - j) mod 256) /\
  (forall j, n <= j -> zget r j = zget buf j).
Proof.
  intros WF N. cbv zeta. unfold bn_to_bytes_be. rewrite bn_copy_id.
  pose proof (zdown_pair_ind (fun i v r => (limbs_ok v /\ psum v BN_MAX_LIMBS = val b / 256 ^ (n - i)) /\ zlen r = zlen buf /\
      (forall j, i <= j < n -> zget r j = val b / 256 ^ (n - 1 - j) mod 256) /\ (forall j, n <= j -> zget r j = zget buf j))
    (Z.to_nat n) (fun i '(v, buf) => (shr8 v, zset buf i (u8 (Z.land (zget v 0) 255)))) (bv b) buf) as H.
  apply H; clear H.
  - rewrite Z2Nat.id, Z.sub_diag, Z.div_1_r by lia. split; [split; [apply WF | symmetry; apply val_psum_all] |].
    split; [done |]. split; [lia | done].
  - intros k v r Rk ((L & E) & Len & G & Hi). rewrite Z2Nat.id in Rk by lia. cbn [fst snd].
    destruct (shr8_spec v L) as (L' & E'). split.
    { split; [exact L' |]. rewrite E', E. replace (n - k) with (n - (k + 1) + 1) by lia. rewrite Z.pow_add_r by lia.
      apply Z.div_div; [apply Z.pow_nonzero; lia | done]. }
    split; [by rewrite zlen_zset |]. split.
    + intros j Rj. destruct (decide (j = k)) as [-> | Ne]; [| rewrite zget_zset_ne by lia; apply G; lia].
      rewrite zget_zset_eq by lia. change 255 with (Z.ones 8). rewrite Z.land_ones by lia. change (2 ^ 8) with 256.
      unfold u8. rewrite Z.mod_mod by lia. replace (n - 1 - k) with (n - (k + 1)) by lia. rewrite <- E.
      symmetry. apply psum_low; [lia | by exists 16777216 | done].
    + intros j Rj. rewrite zget_zset_ne by lia. by apply Hi.
Qed.

(** Writing a number and reading it back gives the same struct. *)
Lemma bytes_of_number b buf n : wf b -> 0 <= n <= zlen buf -> val b < 256 ^ n -> bn_from_bytes_be (bn_to_bytes_be b buf n) n = b.
Proof.
  intros WF N F. destruct (bn_to_bytes_be_spec b buf n WF N) as (_ & G & _). cbv zeta in *.
  pose proof (val_range b WF) as R.
  destruct (bn_from_bytes_be_spec (bn_to_bytes_be b buf n) n) as (W1 & W2); [lia | intros i Ri; rewrite G by lia; apply Z.mod_pos_bound; lia |].
  apply val_inj; [exact W1 | exact WF |]. rewrite W2, (be_val_digits _ _ (val b)) by (lia || exact G).
  rewrite (Z.mod_small (val b)) by lia. apply Z.mod_small. exact R.
Qed.

(** Reading bytes and writing them back gives the same bytes, up to the capacity. *)
Lemma number_of_bytes buf out n : 0 <= n <= 576 -> n <= zlen out -> (forall i, 0 <= i < n -> 0 <= zget buf i < 256) ->
  forall j, 0 <= j < n -> zget (bn_to_bytes_be (bn_from_bytes_be buf n) out n) j = zget buf j.
Proof.
  intros N Eo R. destruct (bn_from_bytes_be_spec buf n) as (W1 & W2); [lia | exact R |].
  pose proof (be_val_bound buf n ltac:(lia) R) as B. rewrite Z.mod_small in W2.
  2: { split; [lia |]. apply Z.lt_le_trans with (256 ^ n); [lia |]. rewrite CAP_pow2. change 256 with (2 ^ 8). rewrite <- Z.pow_mul_r by lia.
       apply Z.pow_le_mono_r; lia. }
  destruct (bn_to_bytes_be_spec (bn_from_bytes_be buf n) out n W1) as (_ & G & _); [lia |]. cbv zeta in *.
  intros j Rj. rewrite G, W2 by lia. apply be_val_digit; [exact R | lia].
Qed.

(** ** Beyond the capacity *)

Lemma bn_modmul_gen a b m : wf a -> wf b -> wf m -> 0 < val m ->
  wf (bn_modmul a b m) /\ val (bn_modmul a b m) = (val a * val b) mod CAP mod val m.
Proof. intros A B M P. destruct (bn_mul_spec a b A B) as (W1 & <-). by apply bn_mod_spec. Qed.

(** A modulus of 4096 bits, the largest rsa.h accepts, leaves no room for the square of a residue: (m - 1)^2 comes out
    as 2^512 instead of 1. *)
Lemma modpow_too_wide base m : wf base -> wf m -> val m = 2 ^ 4096 - 1 -> val base = val m - 1 ->
  val (bn_modpow base (of_Z 2) m) = 2 ^ 512 /\ (val base ^ 2) mod val m = 1.
Proof.
  intros B M Em Eb. assert (L : bn_bit_length (of_Z 2) = 2) by (vm_compute; reflexivity).
  assert (B0 : bn_bit_at (of_Z 2) 0 = 0) by (vm_compute; reflexivity). assert (B1 : bn_bit_at (of_Z 2) 1 = 1) by (vm_compute; reflexivity).
  assert (Pm : 0 < val m) by (rewrite Em; vm_compute; reflexivity). unfold bn_modpow. rewrite L. change (Z.to_nat 2) with 2%nat. cbn [zfor].
  rewrite B0. change (0 =? 0) with true. change (0 + 1 <? 2) with true. change (0 + 1) with 1. cbv zeta iota.
  rewrite B1. change (1 =? 0) with false. change (1 + 1 <? 2) with false. cbv zeta iota. cbn [fst]. rewrite !bn_copy_id.
  destruct (bn_mod_spec base m B M Pm) as (W1 & V1). destruct (bn_modmul_gen _ _ m W1 W1 M Pm) as (W2 & V2).
  destruct (bn_set_u32_spec 1 ltac:(lia)) as (O1 & O2). destruct (bn_modmul_gen _ _ m O1 W2 M Pm) as (_ & V3).
  rewrite V3, O2, V2, V1, Eb, Em, CAP_pow2. split; vm_compute; reflexivity.
Qed.

(** ** Properties *)

(** C34. bn_modpow gives the canonical struct of base^exp mod m, for any base and exponent, when the modulus is above 1 and
    its square fits in the 4608 bits of a bignum. *)
Theorem bn_modpow_correct (base exp m : bignum) :
  wf base -> wf exp -> wf m -> 1 < val m -> val m * val m <= CAP ->
  bn_modpow base exp m = of_Z ((val base ^ val exp) mod val m).
Proof.
  intros B E M P F. destruct (bn_modpow_spec base exp m B E M P F) as (W1 & V1).
  pose proof (Z.mod_pos_bound (val base ^ val exp) (val m) ltac:(lia)) as R. pose proof (val_range m M).
  destruct (of_Z_spec ((val base ^ val exp) mod val m)) as (W2 & V2); [lia |].
  apply val_inj; [exact W1 | exact W2 |]. rewrite V1, V2. reflexivity.
Qed.

Lemma bn_modpow_correct_witness : bn_modpow (of_Z 7) (of_Z 1000003) (of_Z (2 ^ 2300 + 1)) = of_Z ((val (of_Z 7) ^ val (of_Z 1000003)) mod val (of_Z (2 ^ 2300 + 1))).
Proof.
  assert (F : forall z, (0 <=? z) && (z <? 2 ^ 4608) = true -> wf (of_Z z) /\ val (of_Z z) = z).
  { intros z E. apply of_Z_spec. zb. rewrite CAP_pow2. lia. }
  destruct (F 7 ltac:(vm_compute; reflexivity)) as (A1 & A2). destruct (F 1000003 ltac:(vm_compute; reflexivity)) as (B1 & B2).
  destruct (F (2 ^ 2300 + 1) ltac:(vm_compute; reflexivity)) as (C1 & C2).
  apply (bn_modpow_correct (of_Z 7) (of_Z 1000003) (of_Z (2 ^ 2300 + 1)) A1 B1 C1); rewrite C2.
  - vm_compute. reflexivity.
  - rewrite CAP_pow2. vm_compute. discriminate.
Defined.

(** bn_modinv ends within 9218 turns of Euclid's loop; it returns the inverse in (0, m) when gcd(a, m) = 1 and -1
    otherwise. *)
Theorem bn_modinv_correct (fuel : nat) (a m : bignum) : 9218 <= Z.of_nat fuel -> wf a -> wf m -> 1 < val m ->
  if Z.gcd (val a) (val m) =? 1 then
    exists r, bn_modinv fuel a m = Some (Some r) /\ wf r /\ 0 < val r < val m /\ (val r * val a) mod val m = 1
  else bn_modinv fuel a m = Some None.
Proof.
  intros F A M P. destruct (bn_modinv_spec fuel a m F A M P) as [(E & H) | (Ne & H)].
  - rewrite E. exact H.
  - destruct (Z.eqb_spec (Z.gcd (val a) (val m)) 1); [contradiction | exact H].
Qed.

Lemma bn_modinv_correct_witness : exists r, bn_modinv (Z.to_nat 9218) (of_Z 3) (of_Z 11) = Some (Some r) /\ wf r /\
  0 < val r < val (of_Z 11) /\ (val r * val (of_Z 3)) mod val (of_Z 11) = 1.
Proof.
  destruct (of_Z_spec 3) as (A1 & A2); [pose proof CAP_pow2; split; [lia | rewrite CAP_pow2; reflexivity] |].
  destruct (of_Z_spec 11) as (B1 & B2); [split; [lia | rewrite CAP_pow2; reflexivity] |].
  pose proof (bn_modinv_correct (Z.to_nat 9218) (of_Z 3) (of_Z 11)) as H. rewrite B2, A2 in H |- *.
  change (Z.gcd 3 11 =? 1) with true in H. cbv iota in H. apply H; [rewrite Z2Nat.id; lia | exact A1 | exact B1 | lia].
Defined.

End BIGNUM.
