(* ===== verification/X25519.v ===== *)
(** Curve25519 ([libcrypto/x25519.c]).

    A field element is a list of 16 limbs of 64-bit signed integers, with weights
    2^0, 2^16, ..., 2^240; [gval] is the number it stands for, and the code works
    modulo [p25519] = 2^255 - 19.  Every 64-bit operation is written with its
    wrap-around ([i64]); the bounds carried by [rep] (17-bit limbs after M, 18-bit ones
    after A and Z, 46-bit products) show that none of them wraps.  The reference is
    the ladder of RFC 7748 on integers modulo p. *)

From stdpp Require Import base numbers list.
From Stdlib Require Import ZArith Lia Zdiv Zpow_facts.
From S2P Require Import Prelude Bitmap Bignum.

Module X25519.
Import BIGNUM (zdown, zdown_ind).

(** A [long long] obtained by truncation. *)
Definition i64 (x : Z) : Z := u64 (x + 9223372036854775808) - 9223372036854775808.

(** [for (i = 0; i < n; i++) o[i] = f(i);] into an array whose old contents are not read. *)
Definition tab (n : Z) (f : Z -> Z) : list Z := f <$> seqZ 0 n.

Definition x25519_basepoint : list Z := 9 :: zrep 31 0.

Definition _121665 : list Z := [0xDB41; 1] ++ zrep 14 0.

(** One turn of the loop of car25519. *)
Definition carry_step (i : Z) (o : list Z) : list Z :=
  let o := zset o i (i64 (zget o i + Z.shiftl 1 16)) in
  let c := Z.shiftr (zget o i) 16 in
  let j := (i + 1) * (if i <? 15 then 1 else 0) in
  let o := zset o j (i64 (zget o j + (c - 1 + 37 * (c - 1) * (if i =? 15 then 1 else 0)))) in
  zset o i (i64 (zget o i - Z.shiftl c 16)).

Definition car25519 (o : list Z) : list Z := zfor 16 0 carry_step o.

Definition sel25519 (p q : list Z) (b : Z) : list Z * list Z :=
  let c := Z.lnot (b - 1) in
  zfor 16 0 (fun i '(p, q) =>
    let t := Z.land c (Z.lxor (zget p i) (zget q i)) in
    (zset p i (Z.lxor (zget p i) t), zset q i (Z.lxor (zget q i) t))) (p, q).

(** [m = t - p], limb by limb with a borrow, and the selection: the body of the loop over [j]. *)
Definition pack_round (t : list Z) : list Z :=
  let m := zset (zrep 16 0) 0 (i64 (zget t 0 - 0xFFED)) in
  let m := zfor 14 1 (fun i m =>
    let m := zset m i (i64 (zget t i - 0xFFFF - Z.land (Z.shiftr (zget m (i - 1)) 16) 1)) in
    zset m (i - 1) (Z.land (zget m (i - 1)) 0xFFFF)) m in
  let m := zset m 15 (i64 (zget t 15 - 0x7FFF - Z.land (Z.shiftr (zget m 14) 16) 1)) in
  let b := Z.land (Z.shiftr (zget m 15) 16) 1 in
  let m := zset m 14 (Z.land (zget m 14) 0xFFFF) in
  fst (sel25519 t m (1 - b)).

Definition limb_bytes (x : Z) : list Z := [u8 (Z.land x 255); u8 (Z.land (Z.shiftr x 8) 255)].

Definition pack25519 (n : list Z) : list Z :=
  let t := tab 16 (zget n) in
  let t := car25519 (car25519 (car25519 t)) in
  let t := zfor 2 0 (fun _ => pack_round) t in
  concat (limb_bytes <$> t).

Definition unpack25519 (n : list Z) : list Z :=
  let o := tab 16 (fun i => zget n (2 * i) + i64 (Z.shiftl (zget n (2 * i + 1)) 8)) in
  zset o 15 (Z.land (zget o 15) 0x7FFF).

Definition gf_A (a b : list Z) : list Z := tab 16 (fun i => i64 (zget a i + zget b i)).

Definition gf_Z (a b : list Z) : list Z := tab 16 (fun i => i64 (zget a i - zget b i)).

(** The products: [for (i) for (j) t[i+j] += a[i] * b[j];]. *)
Definition products (a b : list Z) : list Z :=
  zfor 16 0 (fun i t => zfor 16 0 (fun j t =>
    zset t (i + j) (i64 (zget t (i + j) + i64 (zget a i * zget b j)))) t) (zrep 31 0).

Definition gf_M (a b : list Z) : list Z :=
  let t := products a b in
  let t := zfor 15 0 (fun i t => zset t i (i64 (zget t i + i64 (38 * zget t (i + 16))))) t in
  let o := tab 16 (zget t) in
  car25519 (car25519 o).

Definition gf_S (a : list Z) : list Z := gf_M a a.

Definition inv25519 (i : list Z) : list Z :=
  zdown 254 (fun a c =>
    let c := gf_S c in
    if negb (a =? 2) && negb (a =? 4) then gf_M c i else c) (tab 16 (zget i)).

(** The four variables of the ladder that live from turn to turn. *)
Record ladder := mk_ladder { la : list Z; lb : list Z; lc : list Z; ld : list Z }.

(** One turn of the ladder for the bit [r]; [x] is the unpacked point. *)
Definition ladder_step (x : list Z) (r : Z) (s : ladder) : ladder :=
  let '(a, b) := sel25519 (la s) (lb s) r in
  let '(c, d) := sel25519 (lc s) (ld s) r in
  let e := gf_A a c in
  let a := gf_Z a c in
  let c := gf_A b d in
  let b := gf_Z b d in
  let d := gf_S e in
  let f := gf_S a in
  let a := gf_M c a in
  let c := gf_M b e in
  let e := gf_A a c in
  let a := gf_Z a c in
  let b := gf_S a in
  let c := gf_Z d f in
  let a := gf_M c _121665 in
  let a := gf_A a d in
  let c := gf_M c a in
  let a := gf_M d f in
  let d := gf_M b x in
  let b := gf_S e in
  let '(a, b) := sel25519 a b r in
  let '(c, d) := sel25519 c d r in
  mk_ladder a b c d.

(** The scalar with its bits set and cleared as RFC 7748 asks. *)
Definition clamp (scalar : list Z) : list Z :=
  let z := zset (ztake 31 scalar ++ [0]) 31 (u8 (Z.lor (Z.land (zget scalar 31) 0x7F) 0x40)) in
  zset z 0 (Z.land (zget z 0) 0xF8).

Definition x25519 (scalar point : list Z) : list Z :=
  let z := clamp scalar in
  let x := unpack25519 point in
  let one := zset (zrep 16 0) 0 1 in
  let s := zdown 255 (fun i s =>
    let r := Z.land (Z.shiftr (zget z (Z.shiftr i 3)) (Z.land i 7)) 1 in
    ladder_step x r s) (mk_ladder one (tab 16 (zget x)) (zrep 16 0) one) in
  pack25519 (gf_M (la s) (inv25519 (lc s))).

(** ** The reference: RFC 7748, section 5 *)

Definition p25519 : Z := 2 ^ 255 - 19.

(** The number with digits [l] in base [r], the least significant first: bytes in base 256, limbs in base 2^16. *)
Fixpoint dval (r : Z) (l : list Z) : Z := match l with [] => 0 | x :: l => x + r * dval r l end.

Abbreviation le_val := (dval 256).
Abbreviation gval := (dval 65536).

Record rfc_state := mk_rfc { x_2 : Z; z_2 : Z; x_3 : Z; z_3 : Z; swap : Z }.

Definition cswap {A} (swap : Z) (a b : A) : A * A := if swap =? 0 then (a, b) else (b, a).

Definition rfc_step (u k : Z) (t : Z) (s : rfc_state) : rfc_state :=
  let k_t := Z.land (Z.shiftr k t) 1 in
  let swap := Z.lxor (swap s) k_t in
  let '(x_2, x_3) := cswap swap (x_2 s) (x_3 s) in
  let '(z_2, z_3) := cswap swap (z_2 s) (z_3 s) in
  let A := (x_2 + z_2) mod p25519 in
  let AA := A * A mod p25519 in
  let B := (x_2 - z_2) mod p25519 in
  let BB := B * B mod p25519 in
  let E := (AA - BB) mod p25519 in
  let C := (x_3 + z_3) mod p25519 in
  let D := (x_3 - z_3) mod p25519 in
  let DA := D * A mod p25519 in
  let CB := C * B mod p25519 in
  mk_rfc (AA * BB mod p25519) (E * ((AA + 121665 * E) mod p25519) mod p25519)
    ((DA + CB) ^ 2 mod p25519) (u * ((DA - CB) ^ 2 mod p25519) mod p25519) k_t.

Definition rfc_ladder (k u : Z) : Z :=
  let s := zdown 255 (rfc_step u k) (mk_rfc 1 0 u 1 0) in
  let '(x_2, _) := cswap (swap s) (x_2 s) (x_3 s) in
  let '(z_2, _) := cswap (swap s) (z_2 s) (z_3 s) in
  x_2 * Zpow_mod z_2 (p25519 - 2) p25519 mod p25519.

(** decodeScalar25519: bits 0, 1, 2 and 255 are cleared and bit 254 is set. *)
Definition decode_scalar (k : Z) : Z := k mod 2 ^ 254 - k mod 8 + 2 ^ 254.

(** decodeUCoordinate: the unused top bit is ignored. *)
Definition decode_u (u : Z) : Z := u mod 2 ^ 255.

(** ** Limbs and their number *)

Definition limbs_in (lo hi : Z) (l : list Z) : Prop := forall i, 0 <= i < zlen l -> lo <= zget l i <= hi.

Lemma zget_0 (x : Z) l : zget (x :: l) 0 = x.
Proof. done. Qed.

Lemma zget_S (x : Z) l i : 0 < i -> zget (x :: l) i = zget l (i - 1).
Proof.
  intros I. unfold zget. replace (Z.to_nat i) with (S (Z.to_nat (i - 1))) by lia. done.
Qed.

Lemma dval_zset r l i x : 0 <= i < zlen l -> dval r (zset l i x) = dval r l + (x - zget l i) * r ^ i.
Proof.
  revert i. induction l as [| y l IH]; intros i I; [change (zlen []) with 0 in I; lia |]. rewrite zlen_cons in I.
  destruct (decide (i = 0)) as [-> | N]; [unfold zset; simpl; rewrite zget_0; lia |].
  assert (E : zset (y :: l) i x = y :: zset l (i - 1) x).
  { unfold zset. replace (Z.to_nat i) with (S (Z.to_nat (i - 1))) by lia. done. }
  rewrite E, zget_S by lia. cbn [dval]. rewrite IH by lia.
  assert (P : r ^ i = r * r ^ (i - 1)) by (rewrite <- Z.pow_succ_r by lia; f_equal; lia). rewrite P. ring.
Qed.

Lemma dval_app r l1 l2 : dval r (l1 ++ l2) = dval r l1 + r ^ zlen l1 * dval r l2.
Proof.
  induction l1 as [| x l1 IH]; [change (zlen []) with 0; simpl; lia |].
  rewrite zlen_cons, Z.pow_add_r, Z.pow_1_r by (pose proof (zlen_nonneg l1); lia). cbn [dval app]. rewrite IH. ring.
Qed.

Lemma limbs_in_cons lo hi x l : limbs_in lo hi (x :: l) -> lo <= x <= hi /\ limbs_in lo hi l.
Proof.
  intros H. split; [apply (H 0); rewrite zlen_cons; pose proof (zlen_nonneg l); lia |].
  intros i I. specialize (H (i + 1)). rewrite zget_S in H by lia. replace (i + 1 - 1) with i in H by lia. apply H. rewrite zlen_cons. lia.
Qed.

Lemma dval_bound r l : 0 < r -> limbs_in 0 (r - 1) l -> 0 <= dval r l < r ^ zlen l.
Proof.
  intros R. induction l as [| x l IH]; intros B; [simpl; change (zlen []) with 0; lia |].
  apply limbs_in_cons in B as [Bx Bl]. specialize (IH Bl).
  rewrite zlen_cons, Z.pow_add_r, Z.pow_1_r by (pose proof (zlen_nonneg l); lia). cbn [dval]. nia.
Qed.

(** Crude bound on the number of limbs within +-B. *)
Lemma gval_abs l B : limbs_in (- B) B l -> 0 <= B -> 65535 * Z.abs (gval l) <= B * (65536 ^ zlen l - 1).
Proof.
  intros H NB. induction l as [| x l IH]; [simpl; change (zlen []) with 0; lia |].
  apply limbs_in_cons in H as [Bx Bl]. specialize (IH Bl). pose proof (zlen_nonneg l). assert (0 < 65536 ^ zlen l) by (apply Z.pow_pos_nonneg; lia).
  rewrite zlen_cons, Z.pow_add_r, Z.pow_1_r by lia. cbn [dval]. nia.
Qed.

Lemma zlen_tab n f : 0 <= n -> zlen (tab n f) = n.
Proof. intros N. unfold zlen, tab. rewrite length_fmap, length_seqZ. lia. Qed.

Lemma zget_tab n f i : 0 <= i < n -> zget (tab n f) i = f i.
Proof. intros I. apply zget_lookup. unfold tab. rewrite list_lookup_fmap, lookup_seqZ_lt by lia. simpl. do 2 f_equal. lia. Qed.

(** Lists of 16 limbs are equal when their limbs are. *)
Lemma tab_id l : zlen l = 16 -> tab 16 (zget l) = l.
Proof. intros L. apply zlist_eq; [by rewrite zlen_tab | rewrite zlen_tab by lia; intros; by apply zget_tab]. Qed.

Lemma dval_step r f n : 0 <= n -> dval r (tab (n + 1) f) = dval r (tab n f) + r ^ n * f n.
Proof.
  intros N. unfold tab. rewrite seqZ_app by lia. rewrite fmap_app, dval_app. f_equal.
  replace (zlen (f <$> seqZ 0 n)) with n by (unfold zlen; rewrite length_fmap, length_seqZ; lia).
  rewrite Z.add_0_l. change (seqZ n 1) with [n]. simpl. lia.
Qed.

Lemma dval_nil r f : dval r (tab 0 f) = 0.
Proof. done. Qed.

Lemma dval_lin r n f g c : 0 <= n -> dval r (tab n (fun i => f i + c * g i)) = dval r (tab n f) + c * dval r (tab n g).
Proof.
  revert n. apply natlike_ind; [rewrite !dval_nil; lia |]. intros n N IH. unfold Z.succ. rewrite !dval_step, IH by lia. ring.
Qed.

Lemma tab_ext n f g : (forall i, 0 <= i < n -> f i = g i) -> tab n f = tab n g.
Proof. intros E. unfold tab. apply list_fmap_ext. intros i x L. apply lookup_seqZ in L as [-> L]. apply E. lia. Qed.

Lemma i64_small x : - 2 ^ 63 <= x < 2 ^ 63 -> i64 x = x.
Proof. intros R. change (2 ^ 63) with 9223372036854775808 in R. unfold i64, u64. rewrite Z.mod_small; lia. Qed.

(** ** Carries *)

Definition target (i : Z) : Z := if i =? 15 then 0 else i + 1.
Definition factor (i : Z) : Z := if i =? 15 then 38 else 1.

Lemma carry_step_spec i o : 0 <= i < 16 -> zlen o = 16 ->
  Z.abs (zget o i) <= 2 ^ 61 -> Z.abs (zget o (target i)) <= 2 ^ 61 ->
  zlen (carry_step i o) = 16 /\ forall k, 0 <= k < 16 -> zget (carry_step i o) k =
    if k =? i then zget o i mod 65536 else if k =? target i then zget o (target i) + factor i * (zget o i / 65536) else zget o k.
Proof.
  intros I L B1 B2. change (2 ^ 61) with 2305843009213693952 in *. unfold carry_step. change (Z.shiftl 1 16) with 65536.
  rewrite (i64_small (zget o i + 65536)) by (change (2 ^ 63) with 9223372036854775808; lia).
  rewrite (zget_zset_eq o i) by lia. rewrite Z.shiftr_div_pow2 by lia. change (2 ^ 16) with 65536.
  assert (C : (zget o i + 65536) / 65536 = zget o i / 65536 + 1) by (Z.div_mod_to_equations; lia). rewrite C.
  set (c := zget o i / 65536) in *. assert (Bc : Z.abs c <= 35184372088833) by (unfold c; Z.div_mod_to_equations; lia).
  assert (J : (i + 1) * (if i <? 15 then 1 else 0) = target i) by (unfold target; destruct (i <? 15) eqn:?, (i =? 15) eqn:?; zb; lia).
  assert (Fc : c + 1 - 1 + 37 * (c + 1 - 1) * (if i =? 15 then 1 else 0) = factor i * c) by (unfold factor; destruct (i =? 15); lia).
  rewrite J, Fc. assert (Tj : 0 <= target i < 16 /\ target i <> i) by (unfold target; destruct (i =? 15) eqn:?; zb; lia).
  rewrite (zget_zset_ne o i (target i)) by lia. set (j := target i) in *.
  assert (Ff : 0 <= factor i <= 38) by (unfold factor; destruct (i =? 15); lia).
  rewrite (i64_small (zget o j + _)) by (change (2 ^ 63) with 9223372036854775808; nia).
  rewrite (zget_zset_ne _ j i) by lia. rewrite zget_zset_eq by lia. rewrite Z.shiftl_mul_pow2 by lia. change (2 ^ 16) with 65536.
  rewrite i64_small by (change (2 ^ 63) with 9223372036854775808; unfold c; Z.div_mod_to_equations; lia).
  split; [by rewrite !zlen_zset |]. intros k K. destruct (k =? i) eqn:Ki; zb.
  - subst k. rewrite zget_zset_eq by (rewrite !zlen_zset; lia). unfold c. Z.div_mod_to_equations; lia.
  - rewrite zget_zset_ne by lia. destruct (k =? j) eqn:Kj; zb; [subst k; rewrite zget_zset_eq by (rewrite zlen_zset; lia); lia |].
    by rewrite !zget_zset_ne by lia.
Qed.

(** A list that differs from another in two places. *)
Lemma gval_two o r i j x y : zlen o = 16 -> zlen r = 16 -> 0 <= i < 16 -> 0 <= j < 16 -> i <> j ->
  (forall k, 0 <= k < 16 -> zget r k = if k =? i then x else if k =? j then y else zget o k) ->
  gval r = gval o + (x - zget o i) * 65536 ^ i + (y - zget o j) * 65536 ^ j.
Proof.
  intros L R I J N E. assert (Q : r = zset (zset o j y) i x).
  { apply zlist_eq; [by rewrite !zlen_zset, R |]. intros k K. rewrite E by lia. destruct (k =? i) eqn:Ki; zb.
    - subst. by rewrite zget_zset_eq by (rewrite zlen_zset; lia).
    - rewrite zget_zset_ne by lia. destruct (k =? j) eqn:Kj; zb; [subst; by rewrite zget_zset_eq by lia | by rewrite zget_zset_ne by lia]. }
  rewrite Q, !dval_zset by (rewrite ?zlen_zset; lia). rewrite zget_zset_ne by lia. lia.
Qed.

Lemma carry_chain B o : zlen o = 16 -> limbs_in (- B) B o -> 65536 <= B <= 2 ^ 60 ->
  let r := zfor 15 0 carry_step o in
  zlen r = 16 /\ (forall k, 0 <= k < 15 -> 0 <= zget r k < 65536) /\ Z.abs (zget r 15) <= 2 * B /\ gval r = gval o.
Proof.
  intros L H HB r. change (2 ^ 60) with 1152921504606846976 in HB.
  assert (I : zlen r = 16 /\ (forall k, 0 <= k < 15 -> 0 <= zget r k < 65536) /\ (forall k, 15 < k < 16 -> zget r k = zget o k) /\
    Z.abs (zget r 15) <= 2 * B /\ gval r = gval o); [| tauto].
  apply (zfor_ind (fun i r => zlen r = 16 /\ (forall k, 0 <= k < i -> 0 <= zget r k < 65536) /\ (forall k, i < k < 16 -> zget r k = zget o k) /\
    Z.abs (zget r i) <= 2 * B /\ gval r = gval o) 15 0).
  - split; [done | split; [intros; lia | split; [done | split; [specialize (H 0); lia | done]]]].
  - intros i q I (Lq & D & S & Bi & V). assert (T : target i = i + 1 /\ factor i = 1) by (unfold target, factor; rewrite (proj2 (Z.eqb_neq i 15)) by lia; done).
    destruct T as [T F]. assert (Bn : - B <= zget q (i + 1) <= B) by (rewrite S by lia; apply H; lia).
    destruct (carry_step_spec i q) as [L' E]; [lia | done | change (2 ^ 61) with 2305843009213693952; lia | rewrite T; change (2 ^ 61) with 2305843009213693952; lia |].
    rewrite T, F in E. split; [done | split; [| split; [| split]]].
    + intros k K. rewrite E by lia. destruct (k =? i) eqn:Ki; zb; [apply Z.mod_pos_bound; lia |]. rewrite (proj2 (Z.eqb_neq k (i + 1))) by lia. apply D. lia.
    + intros k K. rewrite E by lia. rewrite (proj2 (Z.eqb_neq k i)), (proj2 (Z.eqb_neq k (i + 1))) by lia. apply S. lia.
    + rewrite E by lia. rewrite (proj2 (Z.eqb_neq (i + 1) i)), Z.eqb_refl by lia. Z.div_mod_to_equations; lia.
    + rewrite (gval_two q _ i (i + 1) _ _ Lq L' ltac:(lia) ltac:(lia) ltac:(lia) E), V, Z.pow_add_r by lia.
      change (65536 ^ 1) with 65536. Z.div_mod_to_equations; nia.
Qed.

(** 2^256, kept folded: 38 is its value modulo the prime. *)
Definition W : Z := 2 ^ 256.

Lemma W_15 : 65536 * 65536 ^ 15 = W.
Proof. vm_compute. exact eq_refl. Qed.

Lemma W_16 : 65536 ^ 16 = W.
Proof. vm_compute. exact eq_refl. Qed.

#[global] Opaque W.

(** The limbs of an element whose number fits 256 bits are its digits. *)
Lemma gval_digits l : zlen l = 16 -> (forall k, 0 <= k < 16 -> 0 <= zget l k < 65536) -> 0 <= gval l < W.
Proof.
  intros L D. rewrite <- W_16, <- L. apply dval_bound; [lia |]. intros k K. specialize (D k). lia.
Qed.

Lemma euclid_shift x P G : G = G + (x mod 65536 - x) * P + x / 65536 * (65536 * P).
Proof. pose proof (Z_div_mod_eq_full x 65536) as M. set (c := x / 65536) in *. set (m := x mod 65536) in *. clearbody c m. subst x. ring. Qed.

(** What the turns of car25519 leave, with [c] the overflow of the top limb. *)
Lemma car_split B o : zlen o = 16 -> limbs_in (- B) B o -> 65536 <= B <= 2 ^ 60 ->
  exists c d, car25519 o = zset d 0 (zget d 0 + 38 * c) /\ zlen d = 16 /\ (forall k, 0 <= k < 16 -> 0 <= zget d k < 65536) /\ gval o = gval d + c * W.
Proof.
  intros L H HB. destruct (carry_chain B o L H HB) as (Lq & D & Bq & V). unfold car25519. rewrite zfor_S_last. change (0 + Z.of_nat 15) with 15.
  set (q := zfor 15 0 carry_step o) in *. clearbody q. change (2 ^ 60) with 1152921504606846976 in HB. rewrite <- V. clear V H.
  destruct (carry_step_spec 15 q) as [L' E]; [lia | done | change (2 ^ 61) with 2305843009213693952; lia | change (target 15) with 0; specialize (D 0); change (2 ^ 61) with 2305843009213693952; lia |].
  change (target 15) with 0 in E. change (factor 15) with 38 in E. exists (zget q 15 / 65536), (zset q 15 (zget q 15 mod 65536)).
  split; [| split; [| split]].
  - apply zlist_eq; [by rewrite !zlen_zset, L' |]. intros k K. rewrite E by lia. rewrite (zget_zset_ne q 15 0) by lia. destruct (decide (k = 0)) as [-> | N].
    + rewrite zget_zset_eq by (rewrite zlen_zset; lia). done.
    + rewrite zget_zset_ne by lia. rewrite (proj2 (Z.eqb_neq k 0)) by done. destruct (k =? 15) eqn:K15; zb; [subst; by rewrite zget_zset_eq by lia | by rewrite zget_zset_ne by lia].
  - by rewrite zlen_zset.
  - intros k K. destruct (decide (k = 15)) as [-> | N]; [rewrite zget_zset_eq by lia; apply Z.mod_pos_bound; lia | rewrite zget_zset_ne by lia; apply D; lia].
  - rewrite dval_zset by lia. rewrite <- W_15. apply euclid_shift.
Qed.

(** car25519 turns the number of [o] into its 16 digits in base 2^16 and adds 38 times the overflow to the first limb. *)
Lemma car_spec B o : zlen o = 16 -> limbs_in (- B) B o -> 65536 <= B <= 2 ^ 60 ->
  let r := car25519 o in
  zlen r = 16 /\ (forall k, 1 <= k < 16 -> 0 <= zget r k < 65536) /\
  0 <= zget r 0 - 38 * (gval o / W) < 65536 /\ gval r = gval o mod W + 38 * (gval o / W).
Proof.
  intros L H HB r. destruct (car_split B o L H HB) as (c & d & E & Ld & D & V). unfold r. rewrite E. clear E r.
  pose proof (gval_digits d Ld D) as Bd.
  assert (Ec : gval o / W = c) by (symmetry; apply (Z.div_unique _ _ _ (gval d)); [by left | rewrite V; ring]).
  assert (Em : gval o mod W = gval d) by (symmetry; apply (Z.mod_unique _ _ c); [by left | rewrite V; ring]).
  rewrite Ec, Em. clear Ec Em V H. split; [by rewrite zlen_zset | split; [| split]].
  - intros k K. rewrite zget_zset_ne by lia. apply D. lia.
  - rewrite zget_zset_eq by lia. specialize (D 0). lia.
  - rewrite dval_zset by lia. change (65536 ^ 0) with 1. lia.
Qed.

(** ** Equality modulo the prime *)

Record eqp (x y : Z) : Prop := mk_eqp { eqp_mods : x mod p25519 = y mod p25519 }.

Lemma W_p : W = 2 * p25519 + 38.
Proof. vm_compute. exact eq_refl. Qed.

Lemma p_big : 2 ^ 62 < p25519.
Proof. vm_compute. exact eq_refl. Qed.

#[global] Opaque p25519.

#[export] Instance eqp_equiv : Equivalence eqp.
Proof. split; repeat intros []; constructor; congruence. Qed.

#[export] Instance eqp_add : Proper (eqp ==> eqp ==> eqp) Z.add.
Proof. intros a b [H] c d [K]. constructor. by rewrite Zplus_mod, H, K, <- Zplus_mod. Qed.

#[export] Instance eqp_sub : Proper (eqp ==> eqp ==> eqp) Z.sub.
Proof. intros a b [H] c d [K]. constructor. by rewrite Zminus_mod, H, K, <- Zminus_mod. Qed.

#[export] Instance eqp_mul : Proper (eqp ==> eqp ==> eqp) Z.mul.
Proof. intros a b [H] c d [K]. constructor. by rewrite Zmult_mod, H, K, <- Zmult_mod. Qed.

Lemma eqp_mod x : eqp (x mod p25519) x.
Proof. constructor. apply Zmod_mod. Qed.

Lemma eqp_W : eqp W 38.
Proof. constructor. rewrite W_p, Z.add_comm. apply Z_mod_plus_full. Qed.

Lemma eqp_fold m c : eqp (m + W * c) (m + 38 * c).
Proof. rewrite eqp_W. reflexivity. Qed.

Lemma eqp_sub_p x : eqp (x - p25519) x.
Proof. constructor. replace (x - p25519) with (x + -1 * p25519) by lia. apply Z_mod_plus_full. Qed.

Lemma eqp_sub_p_if (b : bool) x : eqp (if b then x else x - p25519) x.
Proof. destruct b; [reflexivity | apply eqp_sub_p]. Qed.

Lemma eqp_canonical x y : eqp x y -> 0 <= x < p25519 -> x = y mod p25519.
Proof. intros [E] R. rewrite <- E. symmetry. by apply Z.mod_small. Qed.

(** ** Field elements: 16 limbs within +-B *)

Definition fe (B : Z) (l : list Z) : Prop := zlen l = 16 /\ limbs_in (- B) B l.

(** The element [l] with limbs within +-B stands for the residue [v]. *)
Definition rep (B : Z) (l : list Z) (v : Z) : Prop := fe B l /\ eqp (gval l) v.

Lemma fe_get B l i : fe B l -> 0 <= i < 16 -> - B <= zget l i <= B.
Proof. intros [L H] I. apply H. lia. Qed.

Lemma fe_make B l : zlen l = 16 -> (forall i, 0 <= i < 16 -> - B <= zget l i <= B) -> fe B l.
Proof. intros L H. split; [exact L |]. intros i I. apply H. lia. Qed.

Lemma fe_weaken B C l : fe B l -> B <= C -> fe C l.
Proof. intros F N. apply fe_make; [apply F |]. intros i I. pose proof (fe_get B l i F I). lia. Qed.

Lemma rep_len B l v : rep B l v -> zlen l = 16.
Proof. intros [[L _] _]. exact L. Qed.

Lemma rep_weaken B C l v : rep B l v -> B <= C -> rep C l v.
Proof. intros [F V] N. split; [by eapply fe_weaken | exact V]. Qed.

Lemma rep_eqp B l v w : rep B l v -> eqp v w -> rep B l w.
Proof. intros [F V] E. split; [exact F | by transitivity v]. Qed.

(** The sixteen limbs of the low part are [lo], and each of the rest adds to the limb 16 places below. *)
Lemma fe_abs B l : fe B l -> 0 <= B -> 65535 * Z.abs (gval l) <= B * (W - 1).
Proof. intros [L H] N. rewrite <- W_16, <- L. by apply gval_abs. Qed.

Lemma car_eqp B o : fe B o -> 65536 <= B <= 2 ^ 60 -> eqp (gval (car25519 o)) (gval o).
Proof.
  intros [L H] HB. destruct (car_spec B o L H HB) as (_ & _ & _ & ->).
  rewrite <- eqp_fold. rewrite Z.add_comm, <- Z_div_mod_eq_full. reflexivity.
Qed.

(** The overflow of an element whose limbs are within +-B. *)
Lemma fe_overflow B o C : fe B o -> 0 <= B -> B <= 65535 * C -> - C <= gval o / W <= C.
Proof.
  intros F N HC. pose proof (fe_abs B o F N) as A. pose proof W_p. pose proof p_big. change (2 ^ 62) with 4611686018427387904 in *.
  assert (U : Z.abs (gval o) <= C * W) by nia. split.
  - apply Z.div_le_lower_bound; nia.
  - apply Z.lt_succ_r. apply Z.div_lt_upper_bound; nia.
Qed.

(** After one pass the number overflows by at most one; [C] bounds the overflow before it. *)
Lemma car_fe B C o : fe B o -> 65536 <= B <= 2 ^ 60 -> B <= 65535 * C -> 38 * C + 65536 <= 2 ^ 60 ->
  fe (38 * C + 65536) (car25519 o) /\ (0 <= gval (car25519 o) + 38 * C /\ gval (car25519 o) < W + 38 * C).
Proof.
  intros F HB HC HW. pose proof (fe_overflow B o C F ltac:(lia) HC) as Q. destruct F as [L H]. destruct (car_spec B o L H HB) as (L' & D & D0 & V).
  pose proof W_p. pose proof p_big. change (2 ^ 62) with 4611686018427387904 in *. pose proof (Z.mod_pos_bound (gval o) W ltac:(lia)) as M.
  set (c := gval o / W) in *. clearbody c. split; [| rewrite V; lia]. apply fe_make; [exact L' |]. intros i I.
  destruct (decide (i = 0)) as [-> |]; [lia |]. specialize (D i). lia.
Qed.

(** Two passes over limbs of up to 46 bits leave an element of 17-bit limbs: the end of M. *)
Lemma car_twice o : fe (2 ^ 46) o -> fe (2 ^ 17) (car25519 (car25519 o)) /\ eqp (gval (car25519 (car25519 o))) (gval o).
Proof.
  intros F. change (2 ^ 46) with 70368744177664 in F. change (2 ^ 17) with 131072.
  destruct (car_fe _ 2147483648 o F) as [F1 V1]; [change (2 ^ 60) with 1152921504606846976; lia | lia | change (2 ^ 60) with 1152921504606846976; lia |].
  pose proof (car_eqp _ o F ltac:(change (2 ^ 60) with 1152921504606846976; lia)) as E1. set (o1 := car25519 o) in *. clearbody o1.
  pose proof (car_eqp _ o1 F1 ltac:(change (2 ^ 60) with 1152921504606846976; lia)) as E2. destruct F1 as [L1 H1].
  destruct (car_spec _ o1 L1 H1) as (L2 & D & D0 & V2); [change (2 ^ 60) with 1152921504606846976; lia |].
  pose proof W_p. pose proof p_big. change (2 ^ 62) with 4611686018427387904 in *.
  assert (Q : -1 <= gval o1 / W <= 1).
  { split; [apply Z.div_le_lower_bound; lia |]. apply Z.lt_succ_r. apply Z.div_lt_upper_bound; lia. }
  set (c := gval o1 / W) in *. clearbody c. split; [| by transitivity (gval o1)]. apply fe_make; [exact L2 |]. intros i I.
  destruct (decide (i = 0)) as [-> |]; [lia |]. specialize (D i). lia.
Qed.

(** Three passes give the 16 digits of a number below 2^256: the start of pack25519. *)
Lemma car_thrice o : fe (2 ^ 17) o -> let r := car25519 (car25519 (car25519 o)) in
  zlen r = 16 /\ (forall k, 0 <= k < 16 -> 0 <= zget r k < 65536) /\ eqp (gval r) (gval o).
Proof.
  intros F. cbv zeta. change (2 ^ 17) with 131072 in F.
  destruct (car_fe _ 3 o F) as [F1 V1]; [change (2 ^ 60) with 1152921504606846976; lia | lia | change (2 ^ 60) with 1152921504606846976; lia |].
  pose proof (car_eqp _ o F ltac:(change (2 ^ 60) with 1152921504606846976; lia)) as E1. set (o1 := car25519 o) in *. clearbody o1.
  pose proof (car_eqp _ o1 F1 ltac:(change (2 ^ 60) with 1152921504606846976; lia)) as E2.
  destruct (car_fe _ 2 o1 F1) as [F2 _]; [change (2 ^ 60) with 1152921504606846976; lia | lia | change (2 ^ 60) with 1152921504606846976; lia |].
  pose proof F1 as [L1 H1]. destruct (car_spec _ o1 L1 H1) as (_ & _ & _ & V2); [change (2 ^ 60) with 1152921504606846976; lia |].
  pose proof W_p. pose proof p_big. change (2 ^ 62) with 4611686018427387904 in *.
  assert (R : 0 <= gval (car25519 o1) < W).
  { rewrite V2. pose proof (Z.mod_pos_bound (gval o1) W ltac:(lia)) as M. pose proof (Z_div_mod_eq_full (gval o1) W) as Q.
    set (c := gval o1 / W) in *. set (m := gval o1 mod W) in *. clearbody c m. assert (c = -1 \/ c = 0 \/ c = 1) as [-> | [-> | ->]] by nia; lia. }
  pose proof (car_eqp _ _ F2 ltac:(change (2 ^ 60) with 1152921504606846976; lia)) as E3. set (o2 := car25519 o1) in *. clearbody o2.
  destruct F2 as [L2 H2]. destruct (car_spec _ o2 L2 H2) as (L3 & D & D0 & _); [change (2 ^ 60) with 1152921504606846976; lia |].
  rewrite Z.div_small in D0 by exact R. split; [exact L3 | split; [| by rewrite E3, E2]]. intros k K.
  destruct (decide (k = 0)) as [-> |]; [lia |]. apply D. lia.
Qed.

(** ** Addition, subtraction, selection *)

Lemma tab_add a b : zlen a = 16 -> zlen b = 16 -> gval (tab 16 (fun i => zget a i + zget b i)) = gval a + gval b.
Proof.
  intros La Lb. rewrite (tab_ext 16 _ (fun i => zget a i + 1 * zget b i)) by (intros; lia). rewrite dval_lin, !tab_id by first [done | lia]. lia.
Qed.

Lemma tab_sub a b : zlen a = 16 -> zlen b = 16 -> gval (tab 16 (fun i => zget a i - zget b i)) = gval a - gval b.
Proof.
  intros La Lb. rewrite (tab_ext 16 _ (fun i => zget a i + -1 * zget b i)) by (intros; lia). rewrite dval_lin, !tab_id by first [done | lia]. lia.
Qed.

Lemma rep_A a b u v : rep (2 ^ 17) a u -> rep (2 ^ 17) b v -> rep (2 ^ 18) (gf_A a b) (u + v).
Proof.
  change (2 ^ 17) with 131072. change (2 ^ 18) with 262144. intros [Fa Ea] [Fb Eb]. unfold gf_A.
  rewrite (tab_ext 16 _ (fun i => zget a i + zget b i)).
  2: { intros i I. pose proof (fe_get _ a i Fa I). pose proof (fe_get _ b i Fb I). apply i64_small. change (2 ^ 63) with 9223372036854775808. lia. }
  split; [| rewrite tab_add by first [apply Fa | apply Fb]; by rewrite Ea, Eb].
  apply fe_make; [by rewrite zlen_tab |]. intros i I. rewrite zget_tab by exact I. pose proof (fe_get _ a i Fa I). pose proof (fe_get _ b i Fb I). lia.
Qed.

Lemma rep_Z a b u v : rep (2 ^ 17) a u -> rep (2 ^ 17) b v -> rep (2 ^ 18) (gf_Z a b) (u - v).
Proof.
  change (2 ^ 17) with 131072. change (2 ^ 18) with 262144. intros [Fa Ea] [Fb Eb]. unfold gf_Z.
  rewrite (tab_ext 16 _ (fun i => zget a i - zget b i)).
  2: { intros i I. pose proof (fe_get _ a i Fa I). pose proof (fe_get _ b i Fb I). apply i64_small. change (2 ^ 63) with 9223372036854775808. lia. }
  split; [| rewrite tab_sub by first [apply Fa | apply Fb]; by rewrite Ea, Eb].
  apply fe_make; [by rewrite zlen_tab |]. intros i I. rewrite zget_tab by exact I. pose proof (fe_get _ a i Fa I). pose proof (fe_get _ b i Fb I). lia.
Qed.

(** The conditional swap, whatever the limbs hold. *)
Lemma sel25519_swap p q b : zlen p = 16 -> zlen q = 16 -> b = 0 \/ b = 1 -> sel25519 p q b = cswap b p q.
Proof.
  intros Lp Lq Hb. set (w := cswap b p q). unfold sel25519.
  set (P := fun (i : Z) (s : list Z * list Z) => (zlen (fst s) = 16 /\ zlen (snd s) = 16) /\
    (forall k, 0 <= k < i -> zget (fst s) k = zget (fst w) k /\ zget (snd s) k = zget (snd w) k) /\
    (forall k, i <= k < 16 -> zget (fst s) k = zget p k /\ zget (snd s) k = zget q k)).
  assert (Lw : zlen (fst w) = 16 /\ zlen (snd w) = 16) by (unfold w, cswap; destruct (b =? 0); done).
  match goal with |- zfor 16 0 ?f ?s = _ => assert (I : P (0 + Z.of_nat 16) (zfor 16 0 f s)); [| set (r := zfor 16 0 f s) in *] end.
  - apply zfor_ind; [split; [done | split; [intros; lia | done]] |]. intros i [p' q'] I ((L1 & L2) & D & R). unfold P. cbv beta iota zeta. cbn [fst snd] in *.
    destruct (R i ltac:(lia)) as [Rp Rq]. rewrite Rp, Rq.
    assert (X : Z.lxor (zget p i) (Z.land (Z.lnot (b - 1)) (Z.lxor (zget p i) (zget q i))) = zget (fst w) i /\
      Z.lxor (zget q i) (Z.land (Z.lnot (b - 1)) (Z.lxor (zget p i) (zget q i))) = zget (snd w) i).
    { unfold w, cswap. destruct Hb as [-> | ->]; cbn [Z.eqb Z.sub Z.lnot].
      - change (Z.lnot (0 - 1)) with 0. rewrite Z.land_0_l, !Z.lxor_0_r. done.
      - change (Z.lnot (1 - 1)) with (-1). rewrite Z.land_m1_l. split; [by rewrite <- Z.lxor_assoc, Z.lxor_nilpotent, Z.lxor_0_l |].
        by rewrite (Z.lxor_comm (zget p i)), <- Z.lxor_assoc, Z.lxor_nilpotent, Z.lxor_0_l. }
    destruct X as [-> ->]. split; [by rewrite !zlen_zset | split].
    + intros k K. destruct (decide (k = i)) as [-> | N]; [by rewrite !zget_zset_eq by lia |]. rewrite !zget_zset_ne by lia. apply D. lia.
    + intros k K. rewrite !zget_zset_ne by lia. apply R. lia.
  - destruct I as ((L1 & L2) & D & _). change (0 + Z.of_nat 16) with 16 in D. destruct r as [p' q'], w as [wp wq]. cbn [fst snd] in *. destruct Lw as [Lw1 Lw2].
    f_equal; apply zlist_eq; try congruence; intros k K; apply D; lia.
Qed.

(** ** The product *)

(** One row of the products: [t[i+j] += x * b[j]] for all [j]. *)
Lemma row_spec x b B t0 i : zlen t0 = 31 -> fe B b -> 0 <= i < 16 -> Z.abs x <= B -> 0 <= B <= 2 ^ 18 ->
  (forall k, 0 <= k < 31 -> Z.abs (zget t0 k) <= i * (B * B)) ->
  let t := zfor 16 0 (fun j t => zset t (i + j) (i64 (zget t (i + j) + i64 (x * zget b j)))) t0 in
  zlen t = 31 /\ (forall k, 0 <= k < 31 -> Z.abs (zget t k) <= (i + 1) * (B * B)) /\ gval t = gval t0 + x * 65536 ^ i * gval b.
Proof.
  intros L Fb I Hx HB H t. change (2 ^ 18) with 262144 in HB.
  assert (Q : zlen t = 31 /\ (forall k, 0 <= k < 31 -> Z.abs (zget t k) <= (i + 1) * (B * B)) /\ (forall k, i + 16 <= k < 31 -> Z.abs (zget t k) <= i * (B * B)) /\
    gval t = gval t0 + x * 65536 ^ i * gval (tab 16 (zget b))); [| rewrite tab_id in Q by apply Fb; tauto].
  apply (zfor_ind (fun j t => zlen t = 31 /\ (forall k, 0 <= k < 31 -> Z.abs (zget t k) <= (i + 1) * (B * B)) /\
    (forall k, i + j <= k < 31 -> Z.abs (zget t k) <= i * (B * B)) /\ gval t = gval t0 + x * 65536 ^ i * gval (tab j (zget b))) 16 0).
  - split; [exact L | split; [| split]]; [intros k K; specialize (H k K); nia | intros k K; apply H; lia | rewrite dval_nil; lia].
  - intros j q J (Lq & Hq & Rq & V). pose proof (fe_get _ b j Fb J) as Bj. pose proof (Rq (i + j) ltac:(lia)) as Bq.
    assert (PB : Z.abs (x * zget b j) <= B * B) by (rewrite Z.abs_mul; nia).
    assert (BB : i * (B * B) + B * B <= 1099511627776) by nia.
    rewrite (i64_small (x * zget b j)) by (change (2 ^ 63) with 9223372036854775808; nia).
    rewrite i64_small by (change (2 ^ 63) with 9223372036854775808; nia).
    split; [by rewrite zlen_zset | split; [| split]].
    + intros k K. destruct (decide (k = i + j)) as [-> | N]; [rewrite zget_zset_eq by lia; lia | rewrite zget_zset_ne by lia; by apply Hq].
    + intros k K. rewrite zget_zset_ne by lia. apply Rq. lia.
    + rewrite dval_zset, V, dval_step, Z.pow_add_r by lia. ring.
Qed.

Lemma products_spec a b B : fe B a -> fe B b -> 0 <= B <= 2 ^ 18 ->
  zlen (products a b) = 31 /\ (forall k, 0 <= k < 31 -> Z.abs (zget (products a b) k) <= 16 * (B * B)) /\ gval (products a b) = gval a * gval b.
Proof.
  intros Fa Fb HB. unfold products. replace (gval a * gval b) with (gval (tab 16 (zget a)) * gval b) by (by rewrite tab_id by apply Fa).
  apply (zfor_ind (fun i t => zlen t = 31 /\ (forall k, 0 <= k < 31 -> Z.abs (zget t k) <= i * (B * B)) /\ gval t = gval (tab i (zget a)) * gval b) 16 0).
  - split; [done | split; [intros k K; rewrite zget_zrep by lia; lia | done]].
  - intros i t I (L & H & V). pose proof (fe_get _ a i Fa I) as Ba. assert (Ax : Z.abs (zget a i) <= B) by lia. destruct (row_spec (zget a i) b B t i L Fb I Ax HB H) as (L' & H' & V').
    split; [exact L' | split; [exact H' |]]. rewrite V', V, dval_step by lia. ring.
Qed.

(** The upper 15 products, each 2^256 times a lower place, come down with weight 38. *)
Lemma fold_spec t : zlen t = 31 -> (forall k, 0 <= k < 31 -> Z.abs (zget t k) <= 2 ^ 40) ->
  forall k, 0 <= k < 16 ->
    zget (zfor 15 0 (fun i t => zset t i (i64 (zget t i + i64 (38 * zget t (i + 16))))) t) k = zget t k + 38 * (if k <? 15 then zget t (k + 16) else 0).
Proof.
  intros L H. change (2 ^ 40) with 1099511627776 in H. set (f := fun i t => _).
  assert (I : zlen (zfor 15 0 f t) = 31 /\ (forall k, 0 <= k < 15 -> zget (zfor 15 0 f t) k = zget t k + 38 * zget t (k + 16)) /\
    (forall k, 15 <= k < 31 -> zget (zfor 15 0 f t) k = zget t k)).
  { apply (zfor_ind (fun i q => zlen q = 31 /\ (forall k, 0 <= k < i -> zget q k = zget t k + 38 * zget t (k + 16)) /\
      (forall k, i <= k < 31 -> zget q k = zget t k)) 15 0); [split; [exact L | split; [intros; lia | done]] |].
    intros i q I (Lq & D & R). unfold f. rewrite (R i), (R (i + 16)) by lia. pose proof (H i ltac:(lia)). pose proof (H (i + 16) ltac:(lia)).
    rewrite (i64_small (38 * _)) by (change (2 ^ 63) with 9223372036854775808; lia). rewrite i64_small by (change (2 ^ 63) with 9223372036854775808; lia).
    split; [by rewrite zlen_zset | split].
    - intros k K. destruct (decide (k = i)) as [-> | N]; [by rewrite zget_zset_eq by lia | rewrite zget_zset_ne by lia; apply D; lia].
    - intros k K. rewrite zget_zset_ne by lia. apply R. lia. }
  destruct I as (_ & D & R). intros k K. destruct (k <? 15) eqn:Q; zb; [apply D; lia | rewrite R by lia; lia].
Qed.

(** The number of 31 limbs in its two parts. *)
Lemma gval_31 t : zlen t = 31 -> gval t = gval (tab 16 (zget t)) + W * gval (tab 16 (fun k => if k <? 15 then zget t (k + 16) else 0)).
Proof.
  intros L. replace t with (tab 16 (zget t) ++ tab 15 (fun k => zget t (k + 16))) at 1.
  - rewrite dval_app, zlen_tab by lia. rewrite W_16.
    assert (E : gval (tab (15 + 1) (fun k => if k <? 15 then zget t (k + 16) else 0)) = gval (tab 15 (fun k => zget t (k + 16)))).
    { rewrite dval_step by lia. change (15 <? 15) with false. cbv iota. rewrite Z.mul_0_r, Z.add_0_r. apply f_equal, tab_ext.
      intros i I. by rewrite (proj2 (Z.ltb_lt i 15)) by lia. }
    change (15 + 1) with 16 in E. by rewrite E.
  - apply zlist_eq; rewrite zlen_app, !zlen_tab by lia; [lia |]. intros i I. destruct (decide (i < 16)) as [N | N].
    + rewrite zget_app_l by (rewrite zlen_tab; lia). apply zget_tab. lia.
    + rewrite zget_app_r by (rewrite zlen_tab; lia). rewrite zlen_tab by lia. rewrite zget_tab by lia. f_equal. lia.
Qed.

Lemma rep_M a b u v : rep (2 ^ 18) a u -> rep (2 ^ 18) b v -> rep (2 ^ 17) (gf_M a b) (u * v).
Proof.
  intros [Fa Ea] [Fb Eb]. destruct (products_spec a b _ Fa Fb ltac:(lia)) as (L & H & V). change (16 * (2 ^ 18 * 2 ^ 18)) with 1099511627776 in H.
  unfold gf_M. set (t := products a b) in *. clearbody t. change 1099511627776 with (2 ^ 40) in H. pose proof (fold_spec t L H) as F.
  match goal with |- rep _ (car25519 (car25519 (tab 16 (zget ?q)))) _ => set (r := q) in *; clearbody r end.
  rewrite (tab_ext 16 (zget r) _ F). change (2 ^ 40) with 1099511627776 in H.
  destruct (car_twice (tab 16 (fun i => zget t i + 38 * (if i <? 15 then zget t (i + 16) else 0)))) as [Fm Em].
  - apply fe_make; [by rewrite zlen_tab |]. intros i I. rewrite zget_tab by exact I. change (2 ^ 46) with 70368744177664.
    pose proof (H i ltac:(lia)). destruct (i <? 15) eqn:Q; zb; [pose proof (H (i + 16) ltac:(lia)); lia | lia].
  - split; [exact Fm |]. rewrite Em, dval_lin by lia. rewrite <- eqp_fold, <- gval_31 by exact L. by rewrite V, Ea, Eb.
Qed.

Lemma rep_S a u : rep (2 ^ 18) a u -> rep (2 ^ 17) (gf_S a) (u * u).
Proof. intros R. exact (rep_M a a u u R R). Qed.

(** ** The inverse *)

(** Two counted loops that start and step in step. *)
Lemma zdown_rel {S T} (R : S -> T -> Prop) n (f : Z -> S -> S) (g : Z -> T -> T) s t :
  R s t -> (forall k s t, 0 <= k < Z.of_nat n -> R s t -> R (f k s) (g k t)) -> R (zdown n f s) (zdown n g t).
Proof.
  revert s t. induction n as [| n IH]; intros s t H0 Hs; cbn [zdown]; [exact H0 |]. apply IH; [apply Hs; [lia | exact H0] | intros k s' t' K; apply Hs; lia].
Qed.

(** The exponent the square-and-multiply chain of inv25519 builds. *)
Definition inv_exponent : Z := zdown 254 (fun a e => if negb (a =? 2) && negb (a =? 4) then 2 * e + 1 else 2 * e) 1.

Lemma inv_exponent_value : inv_exponent = p25519 - 2.
Proof. vm_compute. exact eq_refl. Qed.

Lemma tab_rep B l v : rep B l v -> rep B (tab 16 (zget l)) v.
Proof. intros R. by rewrite tab_id by apply R. Qed.

Lemma rep_inv l v : rep (2 ^ 17) l v -> rep (2 ^ 17) (inv25519 l) (v ^ (p25519 - 2)).
Proof.
  intros R. assert (R18 : rep (2 ^ 18) l v) by (eapply rep_weaken; [exact R | done]).
  assert (I : rep (2 ^ 17) (inv25519 l) (v ^ inv_exponent) /\ 0 <= inv_exponent); [| destruct I as [I _]; by rewrite inv_exponent_value in I].
  unfold inv25519, inv_exponent. apply (zdown_rel (fun c e => rep (2 ^ 17) c (v ^ e) /\ 0 <= e)); [rewrite Z.pow_1_r; split; [by apply tab_rep | lia] |].
  intros k c e K [C E]. pose proof (rep_S _ _ (rep_weaken _ (2 ^ 18) _ _ C ltac:(done))) as Q.
  replace (v ^ e * v ^ e) with (v ^ (2 * e)) in Q by (rewrite <- Z.pow_add_r by lia; f_equal; lia). cbv zeta.
  destruct (negb (k =? 2) && negb (k =? 4)); split; try lia; [| exact Q].
  rewrite Z.pow_add_r, Z.pow_1_r by lia. apply rep_M; [eapply rep_weaken; [exact Q | done] | exact R18].
Qed.

(** ** The ladder *)

Lemma rep_121665 : rep (2 ^ 18) _121665 121665.
Proof.
  split; [| reflexivity]. apply fe_make; [done |]. intros i I. change (2 ^ 18) with 262144.
  destruct (decide (i = 0)) as [-> |]; [change (zget _121665 0) with 56129; lia |].
  destruct (decide (i = 1)) as [-> |]; [change (zget _121665 1) with 1; lia |].
  unfold _121665. rewrite zget_app_r by (change (zlen [56129; 1]) with 2; lia). change (zlen [56129; 1]) with 2. rewrite zget_zrep by lia. lia.
Qed.

Lemma eqp_of_eq x y : x = y -> eqp x y.
Proof. intros ->. reflexivity. Qed.

(** A residue computed with reductions on the way equals the one computed without. *)
Lemma eqp_drop_mod x y : eqp x y -> eqp (x mod p25519) y.
Proof. intros H. transitivity x; [apply eqp_mod | exact H]. Qed.

Ltac eqp_push :=
  match goal with
  | |- eqp (_ mod p25519) _ => apply eqp_drop_mod; eqp_push
  | |- eqp (_ + _) _ => apply eqp_add; eqp_push
  | |- eqp (_ - _) _ => apply eqp_sub; eqp_push
  | |- eqp (_ * _) _ => apply eqp_mul; eqp_push
  | |- _ => reflexivity
  end.

Ltac eqp_ring := rewrite ?Z.pow_2_r; symmetry; etransitivity; [eqp_push | apply eqp_of_eq; ring].

(** The lines of the ladder between the swaps. *)
Lemma ladder_core x a b c d u x_2 x_3 z_2 z_3 :
  rep (2 ^ 18) x u -> rep (2 ^ 17) a x_2 -> rep (2 ^ 17) b x_3 -> rep (2 ^ 17) c z_2 -> rep (2 ^ 17) d z_3 ->
  let e := gf_A a c in
  let a := gf_Z a c in
  let c := gf_A b d in
  let b := gf_Z b d in
  let d := gf_S e in
  let f := gf_S a in
  let a := gf_M c a in
  let c := gf_M b e in
  let e := gf_A a c in
  let a := gf_Z a c in
  let b := gf_S a in
  let c := gf_Z d f in
  let a := gf_M c _121665 in
  let a := gf_A a d in
  let AA := (x_2 + z_2) * (x_2 + z_2) in
  let BB := (x_2 - z_2) * (x_2 - z_2) in
  let DA := (x_3 - z_3) * (x_2 + z_2) in
  let CB := (x_3 + z_3) * (x_2 - z_2) in
  rep (2 ^ 17) (gf_M d f) (AA * BB) /\ rep (2 ^ 17) (gf_S e) ((CB + DA) * (CB + DA)) /\
  rep (2 ^ 17) (gf_M c a) ((AA - BB) * ((AA - BB) * 121665 + AA)) /\ rep (2 ^ 17) (gf_M b x) ((CB - DA) * (CB - DA) * u).
Proof.
  intros Rx Ra Rb Rc Rd. cbv zeta. assert (U : 2 ^ 17 <= 2 ^ 18) by done.
  pose proof (rep_A _ _ _ _ Ra Rc) as Re. pose proof (rep_Z _ _ _ _ Ra Rc) as Ra1. pose proof (rep_A _ _ _ _ Rb Rd) as Rc1. pose proof (rep_Z _ _ _ _ Rb Rd) as Rb1.
  pose proof (rep_S _ _ Re) as Rd1. pose proof (rep_S _ _ Ra1) as Rf. pose proof (rep_M _ _ _ _ Rc1 Ra1) as Ra2. pose proof (rep_M _ _ _ _ Rb1 Re) as Rc2.
  pose proof (rep_A _ _ _ _ Ra2 Rc2) as Re2. pose proof (rep_Z _ _ _ _ Ra2 Rc2) as Ra3. pose proof (rep_S _ _ Ra3) as Rb2. pose proof (rep_Z _ _ _ _ Rd1 Rf) as Rc3.
  pose proof (rep_M _ _ _ _ Rc3 rep_121665) as Ra4. pose proof (rep_A _ _ _ _ Ra4 Rd1) as Ra5. pose proof (rep_weaken _ (2 ^ 18) _ _ Rd1 U) as Rd18.
  pose proof (rep_weaken _ (2 ^ 18) _ _ Rf U) as Rf18. pose proof (rep_weaken _ (2 ^ 18) _ _ Rb2 U) as Rb18.
  split; [exact (rep_M _ _ _ _ Rd18 Rf18) | split; [exact (rep_S _ _ Re2) | split; [exact (rep_M _ _ _ _ Rc3 Ra5) | exact (rep_M _ _ _ _ Rb18 Rx)]]].
Qed.

(** The code's variables hold the residues of the RFC's variables once these are swapped by the pending [swap]. *)
Record ladder_rel (s : ladder) (t : rfc_state) : Prop := mk_ladder_rel {
  lr_swap : swap t = 0 \/ swap t = 1;
  lr_a : rep (2 ^ 17) (la s) (fst (cswap (swap t) (x_2 t) (x_3 t)));
  lr_b : rep (2 ^ 17) (lb s) (snd (cswap (swap t) (x_2 t) (x_3 t)));
  lr_c : rep (2 ^ 17) (lc s) (fst (cswap (swap t) (z_2 t) (z_3 t)));
  lr_d : rep (2 ^ 17) (ld s) (snd (cswap (swap t) (z_2 t) (z_3 t))) }.

Lemma cswap_lxor {A} s r (a b : A) : (s = 0 \/ s = 1) -> (r = 0 \/ r = 1) ->
  cswap (Z.lxor s r) a b = cswap r (fst (cswap s a b)) (snd (cswap s a b)).
Proof. by intros [-> | ->] [-> | ->]. Qed.

Lemma cswap_rep B r a b u v : (r = 0 \/ r = 1) -> rep B a u -> rep B b v ->
  rep B (fst (cswap r a b)) (fst (cswap r u v)) /\ rep B (snd (cswap r a b)) (snd (cswap r u v)).
Proof. intros [-> | ->]; done. Qed.

Lemma land_1 x : Z.land x 1 = 0 \/ Z.land x 1 = 1.
Proof. assert (E : Z.land x 1 = x mod 2) by (apply (Z.land_ones x 1); lia). rewrite E. pose proof (Z.mod_pos_bound x 2 ltac:(lia)). lia. Qed.

Lemma ladder_rel_swapped r a b c d x2 x3 z2 z3 : (r = 0 \/ r = 1) ->
  rep (2 ^ 17) a x2 -> rep (2 ^ 17) b x3 -> rep (2 ^ 17) c z2 -> rep (2 ^ 17) d z3 ->
  ladder_rel (let '(a, b) := cswap r a b in let '(c, d) := cswap r c d in mk_ladder a b c d) (mk_rfc x2 z2 x3 z3 r).
Proof. intros Hr Ra Rb Rc Rd. constructor; [exact Hr | | | |]; destruct Hr as [-> | ->]; assumption. Qed.

Lemma ladder_step_rel x u k i s t : rep (2 ^ 18) x u -> ladder_rel s t ->
  ladder_rel (ladder_step x (Z.land (Z.shiftr k i) 1) s) (rfc_step u k i t).
Proof.
  intros Rx [Sw Ra Rb Rc Rd]. pose proof (land_1 (Z.shiftr k i)) as Hr. unfold ladder_step, rfc_step. set (r := Z.land _ 1) in *. clearbody r. cbv zeta.
  rewrite !(cswap_lxor (swap t) r) by assumption. rewrite (sel25519_swap _ _ r (rep_len _ _ _ Ra) (rep_len _ _ _ Rb) Hr), (sel25519_swap _ _ r (rep_len _ _ _ Rc) (rep_len _ _ _ Rd) Hr).
  set (X2 := fst (cswap (swap t) (x_2 t) (x_3 t))) in *. set (X3 := snd (cswap (swap t) (x_2 t) (x_3 t))) in *.
  set (Z2 := fst (cswap (swap t) (z_2 t) (z_3 t))) in *. set (Z3 := snd (cswap (swap t) (z_2 t) (z_3 t))) in *.
  destruct (cswap_rep _ r _ _ _ _ Hr Ra Rb) as [Ra' Rb']. destruct (cswap_rep _ r _ _ _ _ Hr Rc Rd) as [Rc' Rd'].
  destruct (cswap r (la s) (lb s)) as [a b], (cswap r (lc s) (ld s)) as [c d], (cswap r X2 X3) as [x2 x3], (cswap r Z2 Z3) as [z2 z3]. cbn [fst snd] in *.
  destruct (ladder_core x a b c d u x2 x3 z2 z3 Rx Ra' Rb' Rc' Rd') as (Qa & Qb & Qc & Qd). cbv zeta in Qa, Qb, Qc, Qd.
  rewrite (sel25519_swap _ _ r (rep_len _ _ _ Qa) (rep_len _ _ _ Qb) Hr), (sel25519_swap _ _ r (rep_len _ _ _ Qc) (rep_len _ _ _ Qd) Hr).
  apply ladder_rel_swapped; [exact Hr | apply (rep_eqp _ _ _ _ Qa) | apply (rep_eqp _ _ _ _ Qb) | apply (rep_eqp _ _ _ _ Qc) | apply (rep_eqp _ _ _ _ Qd)]; eqp_ring.
Qed.

Lemma zrep_rep : rep (2 ^ 17) (zrep 16 0) 0.
Proof. split; [| reflexivity]. apply fe_make; [done |]. intros i I. rewrite zget_zrep by exact I. change (2 ^ 17) with 131072. lia. Qed.

Lemma one_rep : rep (2 ^ 17) (zset (zrep 16 0) 0 1) 1.
Proof.
  split; [| reflexivity]. apply fe_make; [done |]. intros i I. change (2 ^ 17) with 131072. destruct (decide (i = 0)) as [-> | N]; [rewrite zget_zset_eq by done; lia |].
  rewrite zget_zset_ne, zget_zrep by lia. lia.
Qed.

(** ** Packing *)

(** The limbs of the prime. *)
Definition p_limb (k : Z) : Z := if k =? 0 then 0xFFED else if k <? 15 then 0xFFFF else 0x7FFF.

Lemma p_limbs : gval (tab 16 p_limb) = p25519.
Proof. vm_compute. exact eq_refl. Qed.

(** The borrow out of a limb. *)
Definition borrow (m : Z) : Z := Z.land (Z.shiftr m 16) 1.

Lemma borrow_spec m : - 65536 <= m < 65536 -> borrow m = (if m <? 0 then 1 else 0) /\ Z.land m 0xFFFF = m + 65536 * borrow m.
Proof.
  intros R. assert (E1 : borrow m = (m / 65536) mod 2).
  { unfold borrow. rewrite Z.shiftr_div_pow2 by lia. apply (Z.land_ones _ 1). lia. }
  assert (E2 : Z.land m 0xFFFF = m mod 65536) by (apply (Z.land_ones m 16); lia). rewrite E1, E2.
  destruct (m <? 0) eqn:S; zb; Z.div_mod_to_equations; lia.
Qed.

(** Limbs below [i - 1] are settled, limb [i - 1] may be negative, and the whole is the difference so far. *)
Definition packing (t : list Z) (i : Z) (m : list Z) : Prop :=
  zlen m = 16 /\ (forall k, 0 <= k < i - 1 -> 0 <= zget m k < 65536) /\ - 65536 <= zget m (i - 1) < 65536 /\
  gval (tab i (zget m)) = gval (tab i (fun k => zget t k - p_limb k)).

Lemma packing_step t i m v : (forall k, 0 <= k < 16 -> 0 <= zget t k < 65536) -> 1 <= i < 16 -> packing t i m ->
  v = i64 (zget t i - p_limb i - borrow (zget m (i - 1))) ->
  let m' := zset (zset m i v) (i - 1) (Z.land (zget m (i - 1)) 0xFFFF) in packing t (i + 1) m' /\ zget m' i = v.
Proof.
  intros T I (L & D & Bm & V) Ev m'. destruct (borrow_spec _ Bm) as [B M]. specialize (T i ltac:(lia)).
  assert (Bl : 0x7FFF <= p_limb i <= 0xFFFF) by (unfold p_limb; destruct (i =? 0), (i <? 15); lia).
  assert (Bb : 0 <= borrow (zget m (i - 1)) <= 1) by (rewrite B; destruct (_ <? _); lia).
  rewrite i64_small in Ev by (change (2 ^ 63) with 9223372036854775808; lia).
  assert (G : zget m' i = v) by (unfold m'; rewrite zget_zset_ne by lia; by rewrite zget_zset_eq by lia).
  assert (G1 : zget m' (i - 1) = zget m (i - 1) + 65536 * borrow (zget m (i - 1))) by (unfold m'; rewrite zget_zset_eq by (rewrite zlen_zset; lia); exact M).
  assert (G2 : forall k, 0 <= k < i - 1 -> zget m' k = zget m k) by (intros k K; unfold m'; by rewrite !zget_zset_ne by lia).
  split; [| exact G]. split; [unfold m'; by rewrite !zlen_zset | split; [| split]].
  - intros k K. destruct (decide (k = i - 1)) as [-> | N]; [rewrite G1, B; destruct (zget m (i - 1) <? 0) eqn:S; zb; lia | rewrite G2 by lia; apply D; lia].
  - replace (i + 1 - 1) with i by lia. rewrite G. lia.
  - rewrite dval_step, G, (dval_step _ _ i), <- V, Ev by lia. clear - I G1 G2. clearbody m'. set (j := i - 1) in *. assert (J : i = j + 1) by lia. clearbody j. subst i.
    rewrite !dval_step, G1, (tab_ext j _ _ G2) by lia. rewrite Z.pow_add_r, Z.pow_1_r by lia. ring.
Qed.

(** The sign of the top limb is the sign of the number. *)
Lemma gval_sign m : zlen m = 16 -> (forall k, 0 <= k < 15 -> 0 <= zget m k < 65536) -> (zget m 15 <? 0) = (gval m <? 0).
Proof.
  intros L D. rewrite <- (tab_id m) at 2 by exact L. change 16 with (15 + 1). rewrite dval_step by lia.
  assert (B : 0 <= gval (tab 15 (zget m)) < 65536 ^ zlen (tab 15 (zget m))).
  { apply dval_bound; [lia |]. intros k K. rewrite zlen_tab in K by lia. rewrite zget_tab by exact K. specialize (D k K). lia. }
  rewrite zlen_tab in B by lia. revert B. generalize (65536 ^ 15), (gval (tab 15 (zget m))), (zget m 15). intros P g x B.
  destruct (x <? 0) eqn:E1, (g + P * x <? 0) eqn:E2; zb; try done; exfalso; nia.
Qed.

Lemma pack_select t m : zlen t = 16 -> (forall k, 0 <= k < 16 -> 0 <= zget t k < 65536) -> packing t 16 m ->
  let r := fst (sel25519 t m (1 - borrow (zget m 15))) in
  zlen r = 16 /\ (forall k, 0 <= k < 16 -> 0 <= zget r k < 65536) /\ gval r = (if gval t <? p25519 then gval t else gval t - p25519).
Proof.
  intros L T (L3 & D & B15 & V). cbv zeta. change (16 - 1) with 15 in *. destruct (borrow_spec _ B15) as [Eb _].
  assert (Bt : dval 65536 (tab 16 (fun k => zget t k - p_limb k)) = gval t - p25519).
  { rewrite (tab_ext 16 _ (fun k => zget t k + -1 * p_limb k)) by (intros; lia). rewrite dval_lin, tab_id, p_limbs by first [exact L | lia]. lia. }
  rewrite tab_id in V by exact L3. rewrite Bt in V. pose proof (gval_sign m L3 D) as Sg. rewrite V in Sg.
  rewrite Sg in Eb. rewrite sel25519_swap by first [exact L | exact L3 | rewrite Eb; destruct (_ <? _); auto]. rewrite Eb.
  destruct (gval t - p25519 <? 0) eqn:N, (gval t <? p25519) eqn:N'; zb; try lia.
  - change (cswap (1 - 1) t m) with (t, m). cbn [fst]. split; [exact L | split; [exact T | done]].
  - change (cswap (1 - 0) t m) with (m, t). cbn [fst]. split; [exact L3 | split; [| exact V]]. intros k K. destruct (decide (k = 15)) as [-> | Nk]; [lia | apply D; lia].
Qed.

Lemma packing_start t : 0 <= zget t 0 < 65536 -> packing t 1 (zset (zrep 16 0) 0 (i64 (zget t 0 - 0xFFED))).
Proof.
  intros T0. rewrite i64_small by (change (2 ^ 63) with 9223372036854775808; lia). split; [done | split; [intros; lia | split]].
  - change (1 - 1) with 0. rewrite zget_zset_eq by done. lia.
  - change 1 with (0 + 1). rewrite !dval_step, !dval_nil by lia. rewrite zget_zset_eq by done. done.
Qed.

Lemma packing_loop t m : (forall k, 0 <= k < 16 -> 0 <= zget t k < 65536) -> packing t 1 m ->
  packing t 15 (zfor 14 1 (fun i m =>
    let m := zset m i (i64 (zget t i - 0xFFFF - Z.land (Z.shiftr (zget m (i - 1)) 16) 1)) in
    zset m (i - 1) (Z.land (zget m (i - 1)) 0xFFFF)) m).
Proof.
  intros T P0. change 15 with (1 + Z.of_nat 14) at 1. apply zfor_ind; [exact P0 |]. intros i q I P. cbv zeta.
  assert (Pi : p_limb i = 0xFFFF) by (unfold p_limb; rewrite (proj2 (Z.eqb_neq i 0)), (proj2 (Z.ltb_lt i 15)) by lia; done).
  rewrite (zget_zset_ne q i (i - 1)) by lia. apply (packing_step t i q _ T ltac:(lia) P). rewrite Pi. done.
Qed.

Lemma packing_end t m : (forall k, 0 <= k < 16 -> 0 <= zget t k < 65536) -> packing t 15 m ->
  let m' := zset m 15 (i64 (zget t 15 - 0x7FFF - Z.land (Z.shiftr (zget m 14) 16) 1)) in
  let m3 := zset m' 14 (Z.land (zget m' 14) 0xFFFF) in
  packing t 16 m3 /\ zget m' 15 = zget m3 15.
Proof.
  intros T P m' m3. unfold m3. rewrite (zget_zset_ne m' 14 15) by lia. split; [| done]. unfold m'. rewrite (zget_zset_ne m 15 14) by lia.
  destruct (packing_step t 15 m _ T ltac:(lia) P eq_refl) as [Q _]. exact Q.
Qed.

(** One round subtracts the prime when the number is not below it. *)
Lemma pack_round_spec t : zlen t = 16 -> (forall k, 0 <= k < 16 -> 0 <= zget t k < 65536) ->
  let r := pack_round t in
  zlen r = 16 /\ (forall k, 0 <= k < 16 -> 0 <= zget r k < 65536) /\ gval r = (if gval t <? p25519 then gval t else gval t - p25519).
Proof.
  intros L T. cbv zeta. unfold pack_round. pose proof (packing_start t (T 0 ltac:(lia))) as P0. pose proof (packing_loop t _ T P0) as P1.
  destruct (packing_end t _ T P1) as [P2 E]. cbv zeta in *. rewrite E. exact (pack_select t _ L T P2).
Qed.

(** ** Bytes *)

Lemma le_val_limb_bytes l : limbs_in 0 65535 l ->
  le_val (concat (limb_bytes <$> l)) = gval l /\ zlen (concat (limb_bytes <$> l)) = 2 * zlen l /\ bytes_ok (concat (limb_bytes <$> l)).
Proof.
  induction l as [| x l IH]; intros H; [split; [done | split; [done | constructor]] |]. apply limbs_in_cons in H as [Hx Hl]. destruct (IH Hl) as (V & L & O).
  assert (E : limb_bytes x = [x mod 256; x / 256]).
  { unfold limb_bytes. rewrite !(Z.land_ones _ 8) by lia. rewrite Z.shiftr_div_pow2 by lia. unfold u8. change (2 ^ 8) with 256.
    f_equal; [| f_equal]; Z.div_mod_to_equations; lia. }
  cbn [fmap list_fmap concat]. rewrite E. cbn [app dval]. split; [| split].
  - rewrite V. Z.div_mod_to_equations; lia.
  - rewrite !zlen_cons, L. lia.
  - constructor; [Z.div_mod_to_equations; lia |]. constructor; [Z.div_mod_to_equations; lia | exact O].
Qed.

Lemma pack25519_spec l v : rep (2 ^ 17) l v ->
  le_val (pack25519 l) = v mod p25519 /\ zlen (pack25519 l) = 32 /\ bytes_ok (pack25519 l).
Proof.
  intros [F E]. unfold pack25519. rewrite tab_id by apply F. destruct (car_thrice l F) as (L & D & V).
  set (t := car25519 (car25519 (car25519 l))) in *. clearbody t. cbn [zfor]. pose proof (gval_digits t L D) as B.
  destruct (pack_round_spec t L D) as (L1 & D1 & V1). set (t1 := pack_round t) in *. clearbody t1.
  destruct (pack_round_spec t1 L1 D1) as (L2 & D2 & V2). set (t2 := pack_round t1) in *. clearbody t2.
  destruct (le_val_limb_bytes t2) as (Q & Lq & O); [intros k K; specialize (D2 k); lia |]. rewrite Q, Lq, L2. split; [| done].
  pose proof W_p. pose proof p_big. change (2 ^ 62) with 4611686018427387904 in *. apply eqp_canonical.
  - rewrite <- E, <- V, V2. transitivity (gval t1); [apply eqp_sub_p_if |]. rewrite V1. apply eqp_sub_p_if.
  - rewrite V2. clear V2. destruct (gval t <? p25519) eqn:N1, (gval t1 <? p25519) eqn:N2; zb; lia.
Qed.

(** Two rounds are needed: from 2p, a number the three passes leave as it is, one round gives p, which is not canonical. *)
Lemma pack_one_round_short : let t := 65498 :: zrep 15 65535 in
  car25519 (car25519 (car25519 t)) = t /\ gval (pack_round t) = p25519 /\ gval (pack_round (pack_round t)) = 0.
Proof. vm_compute. split; [| split]; exact eq_refl. Qed.

(** Bytes in pairs are limbs. *)
Lemma gval_pairs n f : 0 <= n -> gval (tab n (fun i => f (2 * i) + 256 * f (2 * i + 1))) = le_val (tab (2 * n) f).
Proof.
  revert n. apply natlike_ind; [done |]. intros n N IH. unfold Z.succ. rewrite dval_step, IH by lia.
  replace (2 * (n + 1)) with (2 * n + 1 + 1) by lia. rewrite !dval_step by lia. rewrite Z.pow_add_r, Z.pow_1_r, Z.pow_mul_r by lia. change (256 ^ 2) with 65536. ring.
Qed.

Lemma two_255 : 2 ^ 255 = 65536 ^ 15 * 32768.
Proof. vm_compute. exact eq_refl. Qed.

Lemma mod_top P x g k : 0 < k -> 0 <= g < P -> (g + P * x) mod (P * k) = g + P * (x mod k).
Proof.
  intros K G. symmetry. apply (Z.mod_unique _ _ (x / k)); pose proof (Z.mod_pos_bound x k K); [left; nia |].
  rewrite (Z_div_mod_eq_full x k) at 1. ring.
Qed.

Lemma unpack25519_spec n : bytes_ok n -> zlen n = 32 -> rep (2 ^ 17) (unpack25519 n) (decode_u (le_val n)).
Proof.
  intros O L. unfold unpack25519. pose proof (fun i => bytes_ok_zget n i O) as G. rewrite L in G.
  rewrite (tab_ext 16 _ (fun i => zget n (2 * i) + 256 * zget n (2 * i + 1))).
  2: { intros i I. pose proof (G (2 * i + 1) ltac:(lia)). rewrite Z.shiftl_mul_pow2 by lia. change (2 ^ 8) with 256. rewrite i64_small by (change (2 ^ 63) with 9223372036854775808; lia). lia. }
  set (o := tab 16 _). assert (Lo : zlen o = 16) by (by apply zlen_tab).
  assert (Go : forall i, 0 <= i < 16 -> 0 <= zget o i < 65536).
  { intros i I. unfold o. rewrite zget_tab by exact I. pose proof (G (2 * i) ltac:(lia)). pose proof (G (2 * i + 1) ltac:(lia)). lia. }
  assert (Vo : gval o = le_val n).
  { unfold o. rewrite gval_pairs by lia. f_equal. apply zlist_eq; [by rewrite zlen_tab |]. rewrite zlen_tab by lia. intros i I. apply zget_tab. lia. }
  clearbody o. assert (M : Z.land (zget o 15) 0x7FFF = zget o 15 mod 32768) by (apply (Z.land_ones _ 15); lia). rewrite M. split.
  - apply fe_make; [by rewrite zlen_zset |]. intros i I. change (2 ^ 17) with 131072. destruct (decide (i = 15)) as [-> | N].
    + rewrite zget_zset_eq by lia. pose proof (Z.mod_pos_bound (zget o 15) 32768 ltac:(lia)). lia.
    + rewrite zget_zset_ne by lia. specialize (Go i I). lia.
  - apply eqp_of_eq. unfold decode_u. rewrite <- Vo, two_255, dval_zset by lia. replace (gval o) with (gval (tab 15 (zget o)) + 65536 ^ 15 * zget o 15).
    2: { rewrite <- dval_step, tab_id by first [exact Lo | lia]. done. }
    rewrite mod_top; [ring | lia |]. pose proof (dval_bound 65536 (tab 15 (zget o)) ltac:(lia)) as B. rewrite zlen_tab in B by lia. apply B.
    intros k K. rewrite zlen_tab in K by lia. rewrite zget_tab by exact K. specialize (Go k ltac:(lia)). lia.
Qed.

(** ** The scalar *)

(** The bytes of a number in little-endian order. *)
Definition encode_u (v : Z) : list Z := tab 32 (fun i => Z.land (Z.shiftr v (8 * i)) 255).

Lemma le_val_byte l i : bytes_ok l -> 0 <= i < zlen l -> zget l i = (le_val l / 256 ^ i) mod 256.
Proof.
  revert i. induction l as [| b l IH]; intros i O I; [change (zlen []) with 0 in I; lia |]. inversion O as [| ? ? Ob Ol]; subst. rewrite zlen_cons in I. cbn [dval].
  destruct (decide (i = 0)) as [-> | N].
  - rewrite zget_0, Z.pow_0_r, Z.div_1_r. Z.div_mod_to_equations; lia.
  - rewrite zget_S, IH by first [exact Ol | lia]. replace (256 ^ i) with (256 * 256 ^ (i - 1)) by (rewrite <- Z.pow_succ_r by lia; f_equal; lia).
    rewrite <- Z.div_div by lia. do 2 f_equal. Z.div_mod_to_equations; lia.
Qed.

Lemma encode_le_val l : bytes_ok l -> zlen l = 32 -> l = encode_u (le_val l).
Proof.
  intros O L. apply zlist_eq; unfold encode_u; [by rewrite zlen_tab |]. intros i I. rewrite zget_tab by lia. rewrite (le_val_byte l i O I), (Z.land_ones _ 8) by lia.
  rewrite Z.shiftr_div_pow2, Z.pow_mul_r by lia. done.
Qed.

(** The bit the code reads from the bytes is the bit of the number. *)
Lemma scalar_bit z i : bytes_ok z -> 0 <= i < 8 * zlen z ->
  Z.land (Z.shiftr (zget z (Z.shiftr i 3)) (Z.land i 7)) 1 = Z.land (Z.shiftr (le_val z) i) 1.
Proof.
  intros O I. assert (E1 : forall x, Z.land x 1 = x mod 2) by (intros x; apply (Z.land_ones x 1); lia). assert (E3 : Z.land i 7 = i mod 8) by (apply (Z.land_ones i 3); lia).
  rewrite !E1, E3, (Z.shiftr_div_pow2 i) by lia. change (2 ^ 3) with 8.
  rewrite le_val_byte by first [exact O | Z.div_mod_to_equations; lia]. pose proof (Z.mod_pos_bound i 8 ltac:(lia)). assert (0 <= i / 8) by (apply Z.div_pos; lia).
  generalize (le_val z). intros V. change 256 with (2 ^ 8). rewrite !Z.shiftr_div_pow2 by lia. rewrite <- !Z.testbit_spec' by lia. rewrite Z.mod_pow2_bits_low by lia.
  rewrite <- Z.pow_mul_r, Z.div_pow2_bits by lia. do 2 f_equal. pose proof (Z_div_mod_eq_full i 8). lia.
Qed.

(** The two changes to the bytes of the scalar, checked on all bytes. *)
Lemma clamp_bytes b : 0 <= b < 256 -> Z.land b 0xF8 = b - b mod 8 /\ u8 (Z.lor (Z.land b 0x7F) 0x40) = b mod 64 + 64.
Proof.
  intros B. assert (T : forallb (fun b => (Z.land b 0xF8 =? b - b mod 8) && (u8 (Z.lor (Z.land b 0x7F) 0x40) =? b mod 64 + 64)) (seqZ 0 256) = true) by (vm_compute; exact eq_refl).
  rewrite forallb_forall in T. assert (I : In b (seqZ 0 256)) by (apply list_elem_of_In, elem_of_seqZ; lia). specialize (T b I). zb. lia.
Qed.

Lemma two_254 : 2 ^ 254 = 256 ^ 31 * 64.
Proof. vm_compute. exact eq_refl. Qed.

Lemma clamp_spec s : bytes_ok s -> zlen s = 32 -> bytes_ok (clamp s) /\ zlen (clamp s) = 32 /\ le_val (clamp s) = decode_scalar (le_val s).
Proof.
  intros O L. pose proof (fun i => bytes_ok_zget s i O) as G. rewrite L in G. destruct (clamp_bytes _ (G 0 ltac:(lia))) as [C0 _].
  destruct (clamp_bytes _ (G 31 ltac:(lia))) as [_ C31]. unfold clamp. rewrite C31. set (v := zget s 31 mod 64 + 64).
  assert (E : zset (ztake 31 s ++ [0]) 31 v = zset s 31 v).
  { apply zlist_eq; rewrite !zlen_zset, zlen_app, zlen_ztake by lia; change (zlen [0]) with 1; [lia |]. intros i I. rewrite L in I. destruct (decide (i = 31)) as [-> | N].
    - rewrite !zget_zset_eq by (rewrite ?zlen_app, ?zlen_ztake by lia; change (zlen [0]) with 1; lia). done.
    - rewrite !zget_zset_ne by lia. rewrite zget_app_l by (rewrite zlen_ztake by lia; lia). apply zget_ztake. lia. }
  rewrite E. rewrite (zget_zset_ne s 31 0), C0 by lia. pose proof (Z.mod_pos_bound (zget s 31) 64 ltac:(lia)). pose proof (G 0 ltac:(lia)). pose proof (Z.mod_pos_bound (zget s 0) 8 ltac:(lia)).
  assert (D8 : zget s 0 mod 8 <= zget s 0) by (apply Z.mod_le; lia). split; [| split; [by rewrite !zlen_zset |]].
  - apply bytes_ok_zset; [apply bytes_ok_zset; [exact O | unfold v; lia] | lia].
  - rewrite !dval_zset by (rewrite ?zlen_zset; lia). rewrite (zget_zset_ne s 31 0) by lia. unfold decode_scalar. rewrite two_254. change (256 ^ 0) with 1.
    assert (M8 : le_val s mod 8 = zget s 0 mod 8).
    { destruct s as [| b s]; [done |]. cbn [dval]. rewrite zget_0. Z.div_mod_to_equations; lia. }
    assert (V : le_val s = le_val (tab 31 (zget s)) + 256 ^ 31 * zget s 31).
    { rewrite <- dval_step by lia. f_equal. apply zlist_eq; [by rewrite zlen_tab |]. intros i I. symmetry. apply zget_tab. lia. }
    rewrite M8, V. rewrite mod_top; [unfold v; ring | lia |]. pose proof (dval_bound 256 (tab 31 (zget s)) ltac:(lia)) as B. rewrite zlen_tab in B by lia. apply B.
    intros k K. rewrite zlen_tab in K by lia. rewrite zget_tab by exact K. specialize (G k ltac:(lia)). lia.
Qed.

(** The ladder of the code and the ladder of the RFC, turn by turn. *)
Lemma ladder_loop x u z : rep (2 ^ 17) x u -> bytes_ok z -> zlen z = 32 ->
  let one := zset (zrep 16 0) 0 1 in
  ladder_rel (zdown 255 (fun i s => ladder_step x (Z.land (Z.shiftr (zget z (Z.shiftr i 3)) (Z.land i 7)) 1) s) (mk_ladder one (tab 16 (zget x)) (zrep 16 0) one))
    (zdown 255 (rfc_step u (le_val z)) (mk_rfc 1 0 u 1 0)).
Proof.
  intros Rx O L one. apply zdown_rel.
  - constructor; [by left | apply one_rep | by apply tab_rep | apply zrep_rep | apply one_rep].
  - intros i s t I R. rewrite scalar_bit by first [exact O | lia]. apply ladder_step_rel; [eapply rep_weaken; [exact Rx | done] | exact R].
Qed.

Lemma eqp_pow_mod z m : 0 <= m -> eqp (z ^ m) (Zpow_mod z m p25519).
Proof. intros M. rewrite Zpow_mod_correct by (pose proof p_big; change (2 ^ 62) with 4611686018427387904 in *; lia). symmetry. apply eqp_mod. Qed.

(** C2. x25519 computes the function of RFC 7748.  For 32-byte inputs, what the code computes on 16 limbs of 64-bit integers, each
    operation with its wrap-around, its lazy carries and its two final conditional subtractions, is the little-endian form of
    the residue that the RFC's Montgomery ladder gives on integers modulo 2^255 - 19, for the scalar and the coordinate
    the RFC decodes from these bytes. *)
Theorem x25519_rfc7748 (scalar point : list Z) (Os : bytes_ok scalar) (Ls : zlen scalar = 32) (Op : bytes_ok point) (Lp : zlen point = 32) :
  x25519 scalar point = encode_u (rfc_ladder (decode_scalar (le_val scalar)) (decode_u (le_val point))).
Proof.
  destruct (clamp_spec scalar Os Ls) as (Oz & Lz & Vz). pose proof (unpack25519_spec point Op Lp) as Rx. set (u := decode_u (le_val point)) in *.
  pose proof (ladder_loop (unpack25519 point) u (clamp scalar) Rx Oz Lz) as R. cbv zeta in R. rewrite Vz in R.
  unfold x25519, rfc_ladder. set (t := zdown 255 (rfc_step _ _) _) in *. set (s := zdown 255 (fun i s => ladder_step _ _ s) _) in *. clearbody s t u. destruct R as [_ Ra _ Rc _].
  destruct (cswap (swap t) (x_2 t) (x_3 t)) as [X2 X3], (cswap (swap t) (z_2 t) (z_3 t)) as [Z2 Z3]. cbn [fst snd] in *.
  assert (U : 2 ^ 17 <= 2 ^ 18) by done. pose proof (rep_inv _ _ Rc) as Ri.
  pose proof (rep_M _ _ _ _ (rep_weaken _ _ _ _ Ra U) (rep_weaken _ _ _ _ Ri U)) as Rm.
  destruct (pack25519_spec _ _ Rm) as (V & L & O). rewrite (encode_le_val _ O L), V. apply f_equal.
  apply eqp_mods. apply eqp_mul; [reflexivity |]. apply eqp_pow_mod. pose proof p_big. change (2 ^ 62) with 4611686018427387904 in *. lia.
Qed.

Theorem x25519_rfc7748_witness :
  x25519 (zrep 32 7) x25519_basepoint = encode_u (rfc_ladder (decode_scalar (le_val (zrep 32 7))) (decode_u (le_val x25519_basepoint))).
Proof.
  apply x25519_rfc7748; [apply bytes_ok_rep; lia | reflexivity | constructor; [lia | apply bytes_ok_rep; lia] | reflexivity].
Defined.

End X25519.
