(* ===== verification/Fips.v ===== *)
(** FIPS 180-4: the secure hash SHA-256, from the standard and apart from the code.

    Words are numbers below 2^32, rotations and shifts are divisions, and the constants
    are computed: the first 32 bits of the fractional parts of the cube roots of the
    first 64 primes, and of the square roots of the first 8.  [Sha256] proves that
    [libcrypto/sha256.c] computes [FIPS.sha256]. *)

From stdpp Require Import base numbers list.
From Stdlib Require Import ZArith Lia.
From S2P Require Import Prelude.

Module FIPS.

Definition W32 : Z := 4294967296.

(** ** Functions on words (2.2.2, 4.1.2) *)

Definition rotr (n x : Z) : Z := (x / 2 ^ n + x * 2 ^ (32 - n)) mod W32.

Definition shr (n x : Z) : Z := x / 2 ^ n.

Definition neg (x : Z) : Z := W32 - 1 - x.

Definition Ch (x y z : Z) : Z := Z.lxor (Z.land x y) (Z.land (neg x) z).

Definition Maj (x y z : Z) : Z := Z.lxor (Z.lxor (Z.land x y) (Z.land x z)) (Z.land y z).

Definition Sigma0 (x : Z) : Z := Z.lxor (Z.lxor (rotr 2 x) (rotr 13 x)) (rotr 22 x).

Definition Sigma1 (x : Z) : Z := Z.lxor (Z.lxor (rotr 6 x) (rotr 11 x)) (rotr 25 x).

Definition sigma0 (x : Z) : Z := Z.lxor (Z.lxor (rotr 7 x) (rotr 18 x)) (shr 3 x).

Definition sigma1 (x : Z) : Z := Z.lxor (Z.lxor (rotr 17 x) (rotr 19 x)) (shr 10 x).

(** ** Constants (4.2.2, 5.3.3) *)

Definition prime (n : Z) : bool := forallb (fun d => negb (n mod d =? 0)) (seqZ 2 (n - 2)).

Definition primes (k : nat) : list Z := take k (List.filter prime (seqZ 2 310)).

(** The integer cube root, bit by bit from bit [k]. *)
Fixpoint root3 (k : nat) (r n : Z) : Z :=
  let r := if (r + 2 ^ Z.of_nat k) ^ 3 <=? n then r + 2 ^ Z.of_nat k else r in
  match k with O => r | S k => root3 k r n end.

Definition K : list Z := (fun p => root3 35 0 (p * 2 ^ 96) mod W32) <$> primes 64.

Definition H0 : list Z := (fun p => Z.sqrt (p * 2 ^ 64) mod W32) <$> primes 8.

Lemma root3_spec k r n : 0 <= r -> r ^ 3 <= n < (r + 2 ^ Z.of_nat (S k)) ^ 3 ->
  root3 k r n ^ 3 <= n < (root3 k r n + 1) ^ 3.
Proof.
  revert r. induction k as [|k IH]; intros r P (L & U); cbn [root3].
  - change (2 ^ Z.of_nat 0) with 1. change (2 ^ Z.of_nat 1) with 2 in U. destruct (Z.leb_spec ((r + 1) ^ 3) n).
    + by replace (r + 1 + 1) with (r + 2) by lia.
    + lia.
  - assert (E : 2 ^ Z.of_nat (S (S k)) = 2 ^ Z.of_nat (S k) + 2 ^ Z.of_nat (S k)).
    { replace (Z.of_nat (S (S k))) with (Z.succ (Z.of_nat (S k))) by lia. rewrite Z.pow_succ_r by lia. lia. }
    assert (0 < 2 ^ Z.of_nat (S k)) by (apply Z.pow_pos_nonneg; lia).
    destruct (Z.leb_spec ((r + 2 ^ Z.of_nat (S k)) ^ 3) n) as [B | B]; apply IH; [lia | | done | done].
    rewrite E in U. rewrite <- Z.add_assoc. done.
Qed.

(** [root3] gives the cube roots [K] takes its digits from. *)
Lemma root3_correct p : 0 <= p < 4096 -> let r := root3 35 0 (p * 2 ^ 96) in r ^ 3 <= p * 2 ^ 96 < (r + 1) ^ 3.
Proof.
  intros P. apply root3_spec; [done |]. change (2 ^ Z.of_nat 36) with 68719476736. rewrite Z.pow_0_l, Z.add_0_l by done.
  change (68719476736 ^ 3) with (4096 * 2 ^ 96). generalize (2 ^ 96) (eq_refl : 0 < 2 ^ 96). intros q Q. nia.
Qed.

(** ** Padding and parsing (5.1.1, 5.2.1) *)

(** [x] in [n] bytes, the most significant one first. *)
Fixpoint big_endian (n : nat) (x : Z) : list Z :=
  match n with O => [] | S k => (x / 256 ^ Z.of_nat k) mod 256 :: big_endian k x end.

Definition number (l : list Z) : Z := fold_left (fun a b => a * 256 + b) l 0.

Definition pad (m : list Z) : list Z :=
  m ++ [128] ++ zrep ((55 - zlen m) mod 64) 0 ++ big_endian 8 (8 * zlen m).

(** The first [n] pieces of [k] elements. *)
Fixpoint pieces (k n : nat) (l : list Z) : list (list Z) :=
  match n with O => [] | S n => take k l :: pieces k n (drop k l) end.

(** ** The hash computation (6.2.2) *)

(** The schedule, of 16 words and then [n] more. *)
Fixpoint extend (n : nat) (w : list Z) : list Z :=
  match n with
  | O => w
  | S n =>
      let t := zlen w in
      extend n (w ++ [(sigma1 (zget w (t - 2)) + zget w (t - 7) + sigma0 (zget w (t - 15)) + zget w (t - 16)) mod W32])
  end.

Definition schedule (block : list Z) : list Z := extend 48 (number <$> pieces 4 16 block).

Record working := Working { a : Z; b : Z; c : Z; d : Z; e : Z; f : Z; g : Z; h : Z }.

Definition round (Kt Wt : Z) (v : working) : working :=
  let T1 := (h v + Sigma1 (e v) + Ch (e v) (f v) (g v) + Kt + Wt) mod W32 in
  let T2 := (Sigma0 (a v) + Maj (a v) (b v) (c v)) mod W32 in
  Working ((T1 + T2) mod W32) (a v) (b v) (c v) ((d v + T1) mod W32) (e v) (f v) (g v).

(** Rounds 0 to [n - 1]. *)
Fixpoint rounds (n : nat) (w : list Z) (v : working) : working :=
  match n with O => v | S k => round (zget K (Z.of_nat k)) (zget w (Z.of_nat k)) (rounds k w v) end.

Definition compress (H block : list Z) : list Z :=
  match H with
  | [H0; H1; H2; H3; H4; H5; H6; H7] =>
      let v := rounds 64 (schedule block) (Working H0 H1 H2 H3 H4 H5 H6 H7) in
      [(a v + H0) mod W32; (b v + H1) mod W32; (c v + H2) mod W32; (d v + H3) mod W32;
       (e v + H4) mod W32; (f v + H5) mod W32; (g v + H6) mod W32; (h v + H7) mod W32]
  | _ => []
  end.

Definition sha256 (m : list Z) : list Z :=
  let p := pad m in
  concat (big_endian 4 <$> fold_left compress (pieces 64 (Nat.div (length p) 64) p) H0).

End FIPS.
