(* ===== verification/Sha256.v ===== *)
(** SHA-256, HMAC, HKDF and the random generator ([libcrypto/sha256.c],
    [libcrypto/hkdf.c], [libcrypto/random.c]).

    A context is the struct of [crypto.h]: eight state words, the count of bytes, the
    partial block and its length.  [one_shot] pads the whole message, cuts it in blocks
    and folds the compression function; [one_shot_fips] says that it is [FIPS.sha256],
    the digest of the standard defined apart from the code.  The theorems say that every
    way of feeding a message to [sha256_update] gives that digest, and that the
    functions built on it are those of RFC 2104 and RFC 5869. *)

From stdpp Require Import base numbers list.
From Stdlib Require Import ZArith Lia.
From S2P Require Import Prelude Fips.

Module SHA256.

(** ** The compression function *)

(** The two halves of each constant. *)
Definition K : list Z := (fun '(hi, lo) => hi * 65536 + lo) <$>
  [(0x428a, 0x2f98); (0x7137, 0x4491); (0xb5c0, 0xfbcf); (0xe9b5, 0xdba5);
   (0x3956, 0xc25b); (0x59f1, 0x11f1); (0x923f, 0x82a4); (0xab1c, 0x5ed5);
   (0xd807, 0xaa98); (0x1283, 0x5b01); (0x2431, 0x85be); (0x550c, 0x7dc3);
   (0x72be, 0x5d74); (0x80de, 0xb1fe); (0x9bdc, 0x06a7); (0xc19b, 0xf174);
   (0xe49b, 0x69c1); (0xefbe, 0x4786); (0x0fc1, 0x9dc6); (0x240c, 0xa1cc);
   (0x2de9, 0x2c6f); (0x4a74, 0x84aa); (0x5cb0, 0xa9dc); (0x76f9, 0x88da);
   (0x983e, 0x5152); (0xa831, 0xc66d); (0xb003, 0x27c8); (0xbf59, 0x7fc7);
   (0xc6e0, 0x0bf3); (0xd5a7, 0x9147); (0x06ca, 0x6351); (0x1429, 0x2967);
   (0x27b7, 0x0a85); (0x2e1b, 0x2138); (0x4d2c, 0x6dfc); (0x5338, 0x0d13);
   (0x650a, 0x7354); (0x766a, 0x0abb); (0x81c2, 0xc92e); (0x9272, 0x2c85);
   (0xa2bf, 0xe8a1); (0xa81a, 0x664b); (0xc24b, 0x8b70); (0xc76c, 0x51a3);
   (0xd192, 0xe819); (0xd699, 0x0624); (0xf40e, 0x3585); (0x106a, 0xa070);
   (0x19a4, 0xc116); (0x1e37, 0x6c08); (0x2748, 0x774c); (0x34b0, 0xbcb5);
   (0x391c, 0x0cb3); (0x4ed8, 0xaa4a); (0x5b9c, 0xca4f); (0x682e, 0x6ff3);
   (0x748f, 0x82ee); (0x78a5, 0x636f); (0x84c8, 0x7814); (0x8cc7, 0x0208);
   (0x90be, 0xfffa); (0xa450, 0x6ceb); (0xbef9, 0xa3f7); (0xc671, 0x78f2)].

Definition ROTR (x n : Z) : Z := Z.lor (Z.shiftr x n) (u32 (Z.shiftl x (32 - n))).
Definition SHR (x n : Z) : Z := Z.shiftr x n.

Notation "x ^^ y" := (Z.lxor x y) (at level 45, left associativity).

(** The message schedule. *)
Definition schedule (block : list Z) : list Z :=
  let w := zfor 16 0 (fun i w =>
    zset w i (Z.lor (Z.lor (Z.lor (u32 (Z.shiftl (zget block (4 * i)) 24)) (u32 (Z.shiftl (zget block (4 * i + 1)) 16)))
                           (u32 (Z.shiftl (zget block (4 * i + 2)) 8))) (zget block (4 * i + 3)))) (zrep 64 0) in
  zfor 48 16 (fun i w =>
    let s0 := ROTR (zget w (i - 15)) 7 ^^ ROTR (zget w (i - 15)) 18 ^^ SHR (zget w (i - 15)) 3 in
    let s1 := ROTR (zget w (i - 2)) 17 ^^ ROTR (zget w (i - 2)) 19 ^^ SHR (zget w (i - 2)) 10 in
    zset w i (u32 (zget w (i - 16) + s0 + zget w (i - 7) + s1))) w.

(** The eight working variables. *)
Record vars := mk_vars { va : Z; vb : Z; vc : Z; vd : Z; ve : Z; vf : Z; vg : Z; vh : Z }.

Definition round (w : list Z) (i : Z) (v : vars) : vars :=
  let S1 := ROTR (ve v) 6 ^^ ROTR (ve v) 11 ^^ ROTR (ve v) 25 in
  let ch := Z.land (ve v) (vf v) ^^ Z.land (u32 (Z.lnot (ve v))) (vg v) in
  let t1 := u32 (vh v + S1 + ch + zget K i + zget w i) in
  let S0 := ROTR (va v) 2 ^^ ROTR (va v) 13 ^^ ROTR (va v) 22 in
  let mj := Z.land (va v) (vb v) ^^ Z.land (va v) (vc v) ^^ Z.land (vb v) (vc v) in
  let t2 := u32 (S0 + mj) in
  mk_vars (u32 (t1 + t2)) (va v) (vb v) (vc v) (u32 (vd v + t1)) (ve v) (vf v) (vg v).

Definition sha256_compress (state block : list Z) : list Z :=
  let w := schedule block in
  let v := zfor 64 0 (round w) (mk_vars (zget state 0) (zget state 1) (zget state 2) (zget state 3)
                                        (zget state 4) (zget state 5) (zget state 6) (zget state 7)) in
  [u32 (zget state 0 + va v); u32 (zget state 1 + vb v); u32 (zget state 2 + vc v); u32 (zget state 3 + vd v);
   u32 (zget state 4 + ve v); u32 (zget state 5 + vf v); u32 (zget state 6 + vg v); u32 (zget state 7 + vh v)].

(** ** Contexts *)

Record sha256_ctx := mk_ctx { state : list Z; count : Z; buf : list Z; buf_len : Z }.

Definition IV : list Z :=
  [0x6a09e667; 0xbb67ae85; 0x3c6ef372; 0xa54ff53a; 0x510e527f; 0x9b05688c; 0x1f83d9ab; 0x5be0cd19].

(** sha256_init leaves the bytes of [buf] as they were. *)
Definition sha256_init (s : sha256_ctx) : sha256_ctx := mk_ctx IV 0 (buf s) 0.

(** [for (i = 0; i < n; i++) dst[at + i] = src[i];] *)
Definition copy_to (dst : list Z) (at_ : Z) (src : list Z) (n : Z) : list Z :=
  zfor (Z.to_nat n) 0 (fun i d => zset d (at_ + i) (zget src i)) dst.

(** [while (n >= 64) { compress(state, p); p += 64; n -= 64; }], with fuel. *)
Fixpoint absorb (fuel : nat) (st p : list Z) : list Z * list Z :=
  match fuel with
  | O => (st, p)
  | S k => if zlen p >=? 64 then absorb k (sha256_compress st p) (zdrop 64 p) else (st, p)
  end.

Definition sha256_update (s : sha256_ctx) (data : list Z) : sha256_ctx :=
  let n := zlen data in
  let s := mk_ctx (state s) (u64 (count s + n)) (buf s) (buf_len s) in
  let direct (s : sha256_ctx) (p : list Z) :=
    let '(st, p) := absorb (length p) (state s) p in
    mk_ctx st (count s) (copy_to (buf s) 0 p (zlen p)) (zlen p) in
  if buf_len s =? 0 then direct s data else
  let take := if 64 - buf_len s >? n then n else 64 - buf_len s in
  let s := mk_ctx (state s) (count s) (copy_to (buf s) (buf_len s) data take) (buf_len s + take) in
  if buf_len s <? 64 then s
  else direct (mk_ctx (sha256_compress (state s) (buf s)) (count s) (buf s) 0) (zdrop take data).

(** [while (s->buf_len < upto) s->buf[s->buf_len++] = 0;] *)
Definition zero_to (b : list Z) (len upto : Z) : list Z :=
  zfor (Z.to_nat (upto - len)) len (fun i b => zset b i 0) b.

Definition sha256_final (s : sha256_ctx) : list Z :=
  let bits := u64 (count s * 8) in
  let b := zset (buf s) (buf_len s) 128 in
  let len := buf_len s + 1 in
  let '(st, b, len) :=
    if len >? 56 then let b := zero_to b len 64 in (sha256_compress (state s) b, b, 0) else (state s, b, len) in
  let b := zero_to b len 56 in
  let b := zfor 8 0 (fun i b => zset b (56 + i) (u8 (Z.shiftr bits (56 - i * 8)))) b in
  let st := sha256_compress st b in
  zfor 8 0 (fun i out =>
    zset (zset (zset (zset out (4 * i) (u8 (Z.shiftr (zget st i) 24))) (4 * i + 1) (u8 (Z.shiftr (zget st i) 16)))
               (4 * i + 2) (u8 (Z.shiftr (zget st i) 8))) (4 * i + 3) (u8 (zget st i))) (zrep 32 0).

(** A context on the stack, before sha256_init: any bytes. *)
Definition blank : sha256_ctx := mk_ctx (zrep 8 0) 0 (zrep 64 0) 0.

Definition sha256 (data : list Z) : list Z := sha256_final (sha256_update (sha256_init blank) data).

(** "abc" and the empty message. *)
Example sha256_abc : sha256 [97; 98; 99] =
  [0xba; 0x78; 0x16; 0xbf; 0x8f; 0x01; 0xcf; 0xea; 0x41; 0x41; 0x40; 0xde; 0x5d; 0xae; 0x22; 0x23;
   0xb0; 0x03; 0x61; 0xa3; 0x96; 0x17; 0x7a; 0x9c; 0xb4; 0x10; 0xff; 0x61; 0xf2; 0x00; 0x15; 0xad].
Proof. vm_compute. reflexivity. Qed.

(** ** HMAC and HKDF *)

Definition SHA256_BLOCK_SIZE : Z := 64.

(** [for (i = 0; i < 64; i++) pad[i] = k[i] ^ x;] *)
Definition xor_pad (k : list Z) (x : Z) : list Z :=
  zfor 64 0 (fun i p => zset p i (Z.lxor (zget k i) x)) (zrep SHA256_BLOCK_SIZE 0).

Definition hmac_sha256 (key msg : list Z) : list Z :=
  let k := zrep SHA256_BLOCK_SIZE 0 in
  let k := if zlen key >? SHA256_BLOCK_SIZE then copy_to k 0 (sha256 key) 32 else copy_to k 0 key (zlen key) in
  let ipad := xor_pad k 0x36 in
  let opad := xor_pad k 0x5c in
  let s := sha256_update (sha256_update (sha256_init blank) ipad) msg in
  let inner := sha256_final s in
  let s := sha256_update (sha256_update (sha256_init s) opad) inner in
  sha256_final s.

(** The null pointer is [None]. *)
Definition hkdf_extract (salt : option (list Z)) (ikm : list Z) : list Z :=
  let zero_salt := zrep 32 0 in
  let salt := match salt with Some s => if zlen s =? 0 then zero_salt else s | None => zero_salt end in
  hmac_sha256 salt ikm.

(** [while (done < okm_len) ...] with fuel; [t] holds [t_len] bytes. *)
Fixpoint expand_loop (fuel : nat) (prk info : list Z) (okm_len : Z) (t : list Z) (ctr done : Z) (okm : list Z) : list Z :=
  match fuel with
  | O => okm
  | S f =>
      if done <? okm_len then
        let msg := t ++ ztake (Z.min (zlen info) 320) info ++ [ctr] in
        let t := hmac_sha256 prk msg in
        let take := if okm_len - done <? 32 then okm_len - done else 32 in
        expand_loop f prk info okm_len t (u8 (ctr + 1)) (done + take) (copy_to okm done t take)
      else okm
  end.

Definition hkdf_expand (prk info : list Z) (okm : list Z) (okm_len : Z) : list Z :=
  expand_loop (S (Z.to_nat okm_len)) prk info okm_len [] 1 0 okm.

Definition tls13_hkdf_expand_label (prk label context out : list Z) (out_len : Z) : list Z :=
  let label_n := if zlen label >? 64 then 64 else zlen label in
  let prefixed := [116; 108; 115; 49; 51; 32] ++ ztake label_n label in
  let plen := 6 + label_n in
  let context_len := if zlen context >? 255 then 255 else zlen context in
  let info := [u8 (Z.shiftr out_len 8); u8 out_len; u8 plen] ++ prefixed ++ [u8 context_len] ++ ztake context_len context in
  hkdf_expand prk info out out_len.

Definition tls13_derive_secret (prk label transcript_hash : list Z) : list Z :=
  tls13_hkdf_expand_label prk label transcript_hash (zrep 32 0) 32.

(** ** The random generator *)

Record rng := mk_rng { s0 : Z; s1 : Z; s2 : Z; s3 : Z; seeded : bool }.

Definition rng_boot : rng := mk_rng 0x12345678 0x9abcdef0 0xdeadbeef 0xcafebabe false.

(** [sys_time] and [sys_getpid] are the answers of the system calls. *)
Definition seed_once (sys_time sys_getpid : Z) (r : rng) : rng :=
  if seeded r then r else
  let a := Z.lxor (s0 r) (u32 (sys_time * 0x9E3779B1)) in
  let b := Z.lxor (s1 r) (u32 (u32 sys_getpid * 0xBB67AE85)) in
  let c := Z.lxor (s2 r) (u32 (a * 0x3C6EF372)) in
  let d := Z.lxor (s3 r) (u32 (b * 0xA54FF53A)) in
  mk_rng a b c d true.

Definition xoshiro_next (r : rng) : Z * rng :=
  let m := u32 (s1 r * 5) in
  let result := u32 (Z.lor (u32 (Z.shiftl m 7)) (Z.shiftr m 25) * 9) in
  let t := u32 (Z.shiftl (s1 r) 9) in
  let c := Z.lxor (s2 r) (s0 r) in
  let d := Z.lxor (s3 r) (s1 r) in
  let b := Z.lxor (s1 r) c in
  let a := Z.lxor (s0 r) d in
  let c := Z.lxor c t in
  let d := Z.lor (u32 (Z.shiftl d 11)) (Z.shiftr d 21) in
  (result, mk_rng a b c d (seeded r)).

Definition word_le (w : Z) : list Z := [u8 w; u8 (Z.shiftr w 8); u8 (Z.shiftr w 16); u8 (Z.shiftr w 24)].

(** [while (n > 0) ...] with fuel; the bytes written and the state. *)
Fixpoint rand_loop (fuel : nat) (n : Z) (r : rng) : list Z * rng :=
  match fuel with
  | O => ([], r)
  | S f =>
      if n >? 0 then
        let hash := sha256 (word_le (s0 r) ++ word_le (s1 r) ++ word_le (s2 r) ++ word_le (s3 r)) in
        let take := if n <? 32 then n else 32 in
        let r := snd (xoshiro_next (snd (xoshiro_next (snd (xoshiro_next (snd (xoshiro_next r))))))) in
        let '(out, r) := rand_loop f (n - take) r in
        (ztake take hash ++ out, r)
      else ([], r)
  end.

Definition rand_bytes (sys_time sys_getpid : Z) (n : Z) (r : rng) : list Z * rng :=
  rand_loop (S (Z.to_nat n)) n (seed_once sys_time sys_getpid r).

(** ** The digest of a whole message

    The message is padded at once and cut in blocks; [one_shot_fips] below says that
    this is the digest of the standard. *)

(** The big-endian bytes of a 64-bit number and of a word. *)
Definition be64 (x : Z) : list Z := (fun i => u8 (Z.shiftr x (56 - i * 8))) <$> [0; 1; 2; 3; 4; 5; 6; 7].

Definition word_bytes (w : Z) : list Z := [u8 (Z.shiftr w 24); u8 (Z.shiftr w 16); u8 (Z.shiftr w 8); u8 w].

(** The message, a one bit, zeros up to 56 modulo 64 and the length in bits. *)
Definition pad (m : list Z) : list Z :=
  m ++ 128 :: zrep ((55 - zlen m) mod 64) 0 ++ be64 (u64 (8 * zlen m)).

Fixpoint blocks (n : nat) (l : list Z) : list (list Z) :=
  match n with O => [] | S k => ztake 64 l :: blocks k (zdrop 64 l) end.

Definition digest (st : list Z) : list Z :=
  concat ((fun i => word_bytes (zget st i)) <$> [0; 1; 2; 3; 4; 5; 6; 7]).

Definition one_shot (m : list Z) : list Z :=
  digest (fold_left sha256_compress (blocks (Nat.div (length (pad m)) 64) (pad m)) IV).

(** ** Loops that fill an array *)

Lemma zfor_ext {St} n i (f g : Z -> St -> St) s :
  (forall k s, i <= k < i + Z.of_nat n -> f k s = g k s) -> zfor n i f s = zfor n i g s.
Proof.
  revert i s. induction n as [|n IH]; intros i s E; cbn [zfor]; [done |].
  rewrite E by lia. apply IH. intros. apply E. lia.
Qed.

Lemma zget_app (l1 l2 : list Z) j : 0 <= j -> zget (l1 ++ l2) j = if j <? zlen l1 then zget l1 j else zget l2 (j - zlen l1).
Proof. intros J. cases; [apply zget_app_l | apply zget_app_r]; lia. Qed.

Lemma zget_next (x : Z) l j : 0 <= j -> zget (x :: l) j = if j =? 0 then x else zget l (j - 1).
Proof.
  intros J. change (x :: l) with ([x] ++ l). rewrite zget_app by done. change (zlen [x]) with 1.
  destruct (Z.eqb_spec j 0) as [-> | N]; [done |]. cases; [lia | done].
Qed.

Lemma fill_spec n i0 at_ (g : Z -> Z) b : 0 <= at_ + i0 -> at_ + i0 + Z.of_nat n <= zlen b ->
  let r := zfor n i0 (fun i b => zset b (at_ + i) (g i)) b in
  zlen r = zlen b /\
  forall j, 0 <= j -> zget r j = if (at_ + i0 <=? j) && (j <? at_ + i0 + Z.of_nat n) then g (j - at_) else zget b j.
Proof.
  intros A L. cbv zeta.
  pose proof (zfor_ind (fun i r => zlen r = zlen b /\
     forall j, 0 <= j -> zget r j = if (at_ + i0 <=? j) && (j <? at_ + i) then g (j - at_) else zget b j)
     n i0 (fun i b => zset b (at_ + i) (g i)) b) as H.
  rewrite <- Z.add_assoc. apply H; clear H.
  - split; [done |]. intros j J. destruct (Z.leb_spec (at_ + i0) j), (Z.ltb_spec j (at_ + i0)); done || lia.
  - intros k r Rk (Len & G). split; [by rewrite zlen_zset |]. intros j J.
    destruct (decide (j = at_ + k)) as [-> | N].
    + rewrite zget_zset_eq by lia. replace (at_ + k - at_) with k by lia.
      rewrite (proj2 (Z.leb_le _ _)), (proj2 (Z.ltb_lt _ _)) by lia. done.
    + rewrite zget_zset_ne, G by lia. destruct (Z.leb_spec (at_ + i0) j), (Z.ltb_spec j (at_ + k)), (Z.ltb_spec j (at_ + (k + 1))); done || lia.
Qed.

Lemma copy_to_spec dst at_ src n : 0 <= at_ -> 0 <= n -> at_ + n <= zlen dst ->
  zlen (copy_to dst at_ src n) = zlen dst /\
  forall j, 0 <= j -> zget (copy_to dst at_ src n) j = if (at_ <=? j) && (j <? at_ + n) then zget src (j - at_) else zget dst j.
Proof.
  intros A N L. destruct (fill_spec (Z.to_nat n) 0 at_ (zget src) dst) as (Len & G); [lia | lia |].
  split; [exact Len |]. intros j J. specialize (G j J). rewrite Z2Nat.id, Z.add_0_r in G by lia. exact G.
Qed.

Lemma zero_to_spec b len upto : 0 <= len -> upto <= zlen b ->
  zlen (zero_to b len upto) = zlen b /\
  forall j, 0 <= j -> zget (zero_to b len upto) j = if (len <=? j) && (j <? upto) then 0 else zget b j.
Proof.
  intros A L. destruct (decide (len <= upto)) as [Le | Gt].
  - destruct (fill_spec (Z.to_nat (upto - len)) len 0 (fun _ => 0) b) as (Len & G); [lia | lia |].
    split; [exact Len |]. intros j J. specialize (G j J). rewrite Z2Nat.id in G by lia.
    replace (0 + len + (upto - len)) with upto in G by lia. exact G.
  - unfold zero_to. replace (Z.to_nat (upto - len)) with 0%nat by lia. split; [done |]. intros j J.
    destruct (Z.leb_spec len j), (Z.ltb_spec j upto); done || lia.
Qed.

(** ** Absorbing *)

Definition block_ok (b : list Z) : Prop := zlen b = 64.

(** Only the first 64 bytes of a buffer matter to the compression. *)
Lemma compress_take st b : 64 <= zlen b -> sha256_compress st (ztake 64 b) = sha256_compress st b.
Proof.
  intros L. unfold sha256_compress. replace (schedule (ztake 64 b)) with (schedule b); [done |].
  unfold schedule. f_equal. apply zfor_ext. intros k w Rk. rewrite !zget_ztake by lia. done.
Qed.

Lemma lxor_u32 x y : 0 <= x < 4294967296 -> 0 <= y < 4294967296 -> 0 <= Z.lxor x y < 4294967296.
Proof.
  intros X Y. apply (bits_bound 32); [lia | apply Z.lxor_nonneg; lia |]. intros k L.
  by rewrite Z.lxor_spec, !(bits_above 32) by lia.
Qed.

(** ** The compression function is that of FIPS 180-4 *)

Definition is_word (x : Z) : Prop := 0 <= x < 4294967296.

Lemma ROTR_rotr n x : 0 < n < 32 -> is_word x -> ROTR x n = FIPS.rotr n x.
Proof.
  intros N X. unfold ROTR, FIPS.rotr. rewrite Z.shiftr_div_pow2, Z.shiftl_mul_pow2 by lia. unfold u32, FIPS.W32, is_word in *.
  assert (E : 4294967296 = 2 ^ n * 2 ^ (32 - n)) by (rewrite <- Z.pow_add_r by lia; by replace (n + (32 - n)) with 32 by lia).
  assert (P : 0 < 2 ^ n) by (apply Z.pow_pos_nonneg; lia). assert (Q : 0 < 2 ^ (32 - n)) by (apply Z.pow_pos_nonneg; lia).
  assert (M : x * 2 ^ (32 - n) mod 4294967296 = (x mod 2 ^ n) * 2 ^ (32 - n)) by (rewrite E; apply Zmult_mod_distr_r).
  assert (D : 0 <= x / 2 ^ n < 2 ^ (32 - n)) by (split; [apply Z.div_pos; lia | apply Z.div_lt_upper_bound; lia]).
  pose proof (Z.mod_pos_bound x (2 ^ n) P) as B. rewrite M, lor_add by lia. rewrite <- Zplus_mod_idemp_r, M. symmetry. apply Z.mod_small. nia.
Qed.

Lemma lnot_neg x : is_word x -> u32 (Z.lnot x) = FIPS.neg x.
Proof.
  intros X. unfold u32, FIPS.neg, FIPS.W32, is_word, Z.lnot in *. symmetry. apply (Z.mod_unique _ _ (-1)); lia.
Qed.

(** Four bytes as a word. *)
Lemma word_number x0 x1 x2 x3 : bytes_ok [x0; x1; x2; x3] ->
  Z.lor (Z.lor (Z.lor (u32 (Z.shiftl x0 24)) (u32 (Z.shiftl x1 16))) (u32 (Z.shiftl x2 8))) x3 = FIPS.number [x0; x1; x2; x3] /\
  is_word (FIPS.number [x0; x1; x2; x3]).
Proof.
  intros B. do 4 (apply Forall_cons in B as (? & B)). unfold FIPS.number, is_word. cbn [fold_left]. rewrite !Z.shiftl_mul_pow2 by lia. change (2 ^ 24) with 16777216. change (2 ^ 16) with 65536. change (2 ^ 8) with 256.
  rewrite !u32_small by lia. rewrite (Z.lor_comm _ x3), (Z.lor_comm _ (x2 * 256)), (Z.lor_comm (x0 * 16777216)), !Z.lor_assoc.
  change 256 with (2 ^ 8). rewrite (lor_add 8) by lia. change 65536 with (2 ^ 16). rewrite (lor_add 16) by lia.
  change 16777216 with (2 ^ 24). rewrite (lor_add 24) by lia. lia.
Qed.

Definition next_word (w : list Z) : Z :=
  let t := zlen w in (FIPS.sigma1 (zget w (t - 2)) + zget w (t - 7) + FIPS.sigma0 (zget w (t - 15)) + zget w (t - 16)) mod FIPS.W32.

Lemma extend_S n w : FIPS.extend (S n) w = FIPS.extend n w ++ [next_word (FIPS.extend n w)].
Proof. revert w. induction n as [|n IH]; intros w; [done |]. cbn [FIPS.extend] in *. apply IH. Qed.

Lemma zlen_extend n w : zlen (FIPS.extend n w) = zlen w + Z.of_nat n.
Proof. induction n as [|n IH]; [cbn; lia |]. rewrite extend_S, zlen_app, IH. change (zlen [_]) with 1. lia. Qed.

Lemma zlen_pieces4 n l : zlen (FIPS.number <$> FIPS.pieces 4 n l) = Z.of_nat n.
Proof. unfold zlen. rewrite length_fmap. revert l. induction n as [|n IH]; intros l; [done |]. cbn [FIPS.pieces length]. specialize (IH (drop 4 l)). lia. Qed.

(** The words a block starts with. *)
Lemma first_words n l j : bytes_ok l -> 0 <= j < Z.of_nat n -> 4 * Z.of_nat n <= zlen l ->
  zget (FIPS.number <$> FIPS.pieces 4 n l) j = FIPS.number [zget l (4 * j); zget l (4 * j + 1); zget l (4 * j + 2); zget l (4 * j + 3)].
Proof.
  revert l j. induction n as [|n IH]; intros l j B J L; [lia |]. cbn [FIPS.pieces fmap list_fmap]. rewrite zget_next by lia.
  assert (E4 : exists x0 x1 x2 x3 l', l = x0 :: x1 :: x2 :: x3 :: l').
  { destruct l as [|x0 [|x1 [|x2 [|x3 l']]]]; unfold zlen in L; cbn [length] in L; try lia. by exists x0, x1, x2, x3, l'. }
  destruct E4 as (x0 & x1 & x2 & x3 & l' & ->). cbn [take drop]. rewrite ?drop_0, ?take_0. destruct (Z.eqb_spec j 0) as [-> | N]; [done |].
  rewrite IH; [| by do 4 (apply Forall_cons in B as (_ & B)) | lia | unfold zlen in *; cbn [length] in L; lia].
  assert (G : forall k, 0 <= k -> zget l' (4 * (j - 1) + k) = zget (x0 :: x1 :: x2 :: x3 :: l') (4 * j + k)).
  { intros k Rk. rewrite !zget_next by lia. rewrite !(proj2 (Z.eqb_neq _ 0)) by lia. f_equal. lia. }
  pose proof (G 0 ltac:(lia)) as G0. rewrite !Z.add_0_r in G0. by rewrite G0, !G by lia.
Qed.

Lemma schedule_fips block t : zlen block = 64 -> bytes_ok block -> 0 <= t < 64 ->
  zget (schedule block) t = zget (FIPS.schedule block) t /\ is_word (zget (schedule block) t).
Proof.
  intros L B T. unfold schedule, FIPS.schedule. cbv zeta. set (w0 := FIPS.number <$> FIPS.pieces 4 16 block).
  assert (L0 : zlen w0 = 16) by exact (zlen_pieces4 16 block). set (w1 := zfor 16 0 _ (zrep 64 0)).
  assert (W1 : zlen w1 = 64 /\ forall j, 0 <= j < 16 -> zget w1 j = zget w0 j /\ is_word (zget w1 j)).
  { destruct (fill_spec 16 0 0 (fun i => Z.lor (Z.lor (Z.lor (u32 (Z.shiftl (zget block (4 * i)) 24)) (u32 (Z.shiftl (zget block (4 * i + 1)) 16)))
      (u32 (Z.shiftl (zget block (4 * i + 2)) 8))) (zget block (4 * i + 3))) (zrep 64 0)) as (Len & G); [lia | by rewrite zlen_zrep |].
    split; [exact Len |]. intros j J. specialize (G j ltac:(lia)). rewrite (proj2 (Z.leb_le (0 + 0) j)), (proj2 (Z.ltb_lt j _)) in G by lia. cbn [andb] in G. rewrite Z.sub_0_r in G.
    assert (By : bytes_ok [zget block (4 * j); zget block (4 * j + 1); zget block (4 * j + 2); zget block (4 * j + 3)]).
    { unfold bytes_ok in *. assert (Z : forall k, 0 <= k < 64 -> 0 <= zget block k < 256) by (intros k Rk; rewrite <- L in Rk; exact (proj1 (Forall_lookup _ _) B _ _ (lookup_zget block k Rk))).
      repeat constructor; apply Z; lia. }
    destruct (word_number _ _ _ _ By) as (E & W). assert (G' : zget w1 j = FIPS.number [zget block (4 * j); zget block (4 * j + 1); zget block (4 * j + 2); zget block (4 * j + 3)]) by (etransitivity; [exact G | exact E]).
    unfold w0. rewrite G', first_words by (done || lia). done. }
  destruct W1 as (L1 & W1). clearbody w1.
  pose proof (zfor_ind (fun i w => zlen w = 64 /\ forall j, 0 <= j < i -> zget w j = zget (FIPS.extend (Z.to_nat (i - 16)) w0) j /\ is_word (zget w j))
    48 16 (fun i w => let s0 := ROTR (zget w (i - 15)) 7 ^^ ROTR (zget w (i - 15)) 18 ^^ SHR (zget w (i - 15)) 3 in
      let s1 := ROTR (zget w (i - 2)) 17 ^^ ROTR (zget w (i - 2)) 19 ^^ SHR (zget w (i - 2)) 10 in
      zset w i (u32 (zget w (i - 16) + s0 + zget w (i - 7) + s1))) w1) as Q.
  destruct Q as (_ & Q); [by split | | by apply Q; lia].
  intros i w Ri (Lw & Iw). cbv zeta. split; [by rewrite zlen_zset |]. intros j J.
  replace (Z.to_nat (i + 1 - 16)) with (S (Z.to_nat (i - 16))) by lia. rewrite extend_S. set (u := FIPS.extend _ w0) in *.
  assert (Lu : zlen u = i) by (unfold u; rewrite zlen_extend, L0; lia). rewrite zget_app, Lu by lia.
  destruct (Z.ltb_spec j i) as [Lt | Ge]; [rewrite zget_zset_ne by lia; apply Iw; lia |]. assert (j = i) as -> by lia.
  rewrite zget_zset_eq, Z.sub_diag by lia. change (zget [next_word u] 0) with (next_word u). split; [| apply u32_range].
  unfold next_word. rewrite Lu. destruct (Iw (i - 2)) as (E2 & R2); [lia |]. destruct (Iw (i - 7)) as (E7 & _); [lia |].
  destruct (Iw (i - 15)) as (E15 & R15); [lia |]. destruct (Iw (i - 16)) as (E16 & _); [lia |]. rewrite <- E2, <- E7, <- E15, <- E16.
  rewrite !ROTR_rotr by (done || lia). unfold SHR, FIPS.sigma0, FIPS.sigma1, FIPS.shr. rewrite !Z.shiftr_div_pow2 by lia.
  unfold u32, FIPS.W32. f_equal. ring.
Qed.

Definition vars_of (v : FIPS.working) : vars :=
  mk_vars (FIPS.a v) (FIPS.b v) (FIPS.c v) (FIPS.d v) (FIPS.e v) (FIPS.f v) (FIPS.g v) (FIPS.h v).

Record words_of (v : FIPS.working) : Prop := {
  wo_a : is_word (FIPS.a v); wo_b : is_word (FIPS.b v); wo_c : is_word (FIPS.c v); wo_d : is_word (FIPS.d v);
  wo_e : is_word (FIPS.e v); wo_f : is_word (FIPS.f v); wo_g : is_word (FIPS.g v); wo_h : is_word (FIPS.h v) }.

Lemma K_fips : FIPS.K = K.
Proof. vm_compute. reflexivity. Qed.

Lemma round_fips w i v k x : words_of v -> zget K i = k -> zget w i = x -> round w i (vars_of v) = vars_of (FIPS.round k x v) /\ words_of (FIPS.round k x v).
Proof.
  intros [A B C D E F G H] <- <-. split; [| split; try done; apply u32_range].
  unfold round, FIPS.round, vars_of, FIPS.Sigma0, FIPS.Sigma1, FIPS.Ch, FIPS.Maj. cbn [va vb vc vd ve vf vg vh FIPS.a FIPS.b FIPS.c FIPS.d FIPS.e FIPS.f FIPS.g FIPS.h].
  rewrite !ROTR_rotr, lnot_neg by (done || lia). reflexivity.
Qed.

Lemma rounds_fips n w u v : Z.of_nat n <= 64 -> (forall t, 0 <= t < 64 -> zget w t = zget u t) -> words_of v ->
  zfor n 0 (round w) (vars_of v) = vars_of (FIPS.rounds n u v) /\ words_of (FIPS.rounds n u v).
Proof.
  intros L E O. induction n as [|n IH]; [done |]. rewrite zfor_S_last, Z.add_0_l. cbn [FIPS.rounds]. destruct IH as (-> & O'); [lia |].
  apply round_fips; [done | by rewrite K_fips | apply E; lia].
Qed.

Definition words_ok (st : list Z) : Prop := zlen st = 8 /\ Forall is_word st.

(** The state plus the working variables. *)
Definition add_vars (st : list Z) (v : vars) : list Z :=
  [u32 (zget st 0 + va v); u32 (zget st 1 + vb v); u32 (zget st 2 + vc v); u32 (zget st 3 + vd v);
   u32 (zget st 4 + ve v); u32 (zget st 5 + vf v); u32 (zget st 6 + vg v); u32 (zget st 7 + vh v)].

Lemma add_vars_fips h0 h1 h2 h3 h4 h5 h6 h7 (v : FIPS.working) : add_vars [h0; h1; h2; h3; h4; h5; h6; h7] (vars_of v) =
  [(FIPS.a v + h0) mod FIPS.W32; (FIPS.b v + h1) mod FIPS.W32; (FIPS.c v + h2) mod FIPS.W32; (FIPS.d v + h3) mod FIPS.W32;
   (FIPS.e v + h4) mod FIPS.W32; (FIPS.f v + h5) mod FIPS.W32; (FIPS.g v + h6) mod FIPS.W32; (FIPS.h v + h7) mod FIPS.W32].
Proof.
  rewrite (Z.add_comm (FIPS.a v)), (Z.add_comm (FIPS.b v)), (Z.add_comm (FIPS.c v)), (Z.add_comm (FIPS.d v)),
    (Z.add_comm (FIPS.e v)), (Z.add_comm (FIPS.f v)), (Z.add_comm (FIPS.g v)), (Z.add_comm (FIPS.h v)). reflexivity.
Qed.

Lemma add_vars_ok st v : words_ok (add_vars st v).
Proof. split; [done |]. unfold add_vars. repeat constructor; apply u32_range. Qed.

Lemma compress_vars h0 h1 h2 h3 h4 h5 h6 h7 block : let st := [h0; h1; h2; h3; h4; h5; h6; h7] in
  sha256_compress st block = add_vars st (zfor 64 0 (round (schedule block)) (vars_of (FIPS.Working h0 h1 h2 h3 h4 h5 h6 h7))).
Proof. reflexivity. Qed.

Lemma compress_fips st block : words_ok st -> zlen block = 64 -> bytes_ok block ->
  sha256_compress st block = FIPS.compress st block /\ words_ok (FIPS.compress st block).
Proof.
  intros (L & W) Lb B.
  assert (E8 : exists h0 h1 h2 h3 h4 h5 h6 h7, st = [h0; h1; h2; h3; h4; h5; h6; h7]).
  { destruct st as [|h0 [|h1 [|h2 [|h3 [|h4 [|h5 [|h6 [|h7 [|]]]]]]]]]; unfold zlen in L; cbn [length] in L; try lia. by eexists _, _, _, _, _, _, _, _. }
  destruct E8 as (h0 & h1 & h2 & h3 & h4 & h5 & h6 & h7 & ->).
  assert (O : words_of (FIPS.Working h0 h1 h2 h3 h4 h5 h6 h7)) by (repeat (apply Forall_cons in W as (? & W)); by split).
  destruct (rounds_fips 64 (schedule block) (FIPS.schedule block) _ ltac:(lia) (fun t T => proj1 (schedule_fips block t Lb B T)) O) as (E & _).
  pose proof (add_vars_fips h0 h1 h2 h3 h4 h5 h6 h7 (FIPS.rounds 64 (FIPS.schedule block) (FIPS.Working h0 h1 h2 h3 h4 h5 h6 h7))) as A.
  rewrite compress_vars, E. cbv zeta. unfold FIPS.compress. cbv zeta. rewrite <- A. split; [reflexivity | apply add_vars_ok].
Qed.

#[global] Opaque sha256_compress.

Lemma absorb_spec fuel st p : (length p <= fuel)%nat -> exists bs rest,
  p = concat bs ++ rest /\ Forall block_ok bs /\ zlen rest < 64 /\
  absorb fuel st p = (fold_left sha256_compress bs st, rest).
Proof.
  revert st p. induction fuel as [|k IH]; intros st p L.
  - exists [], []. destruct p; [| cbn in L; lia]. by repeat split.
  - cbn [absorb]. destruct (zlen p >=? 64) eqn:G; rewrite Z.geb_leb in G; zb.
    + assert (Lt : (length (zdrop 64 p) <= k)%nat).
      { pose proof (zlen_zdrop 64 p ltac:(lia)). unfold zlen in *. lia. }
      destruct (IH (sha256_compress st p) _ Lt) as (bs & rest & E & F & R & A).
      exists (ztake 64 p :: bs), rest. cbn [concat fold_left]. rewrite <- app_assoc, <- E, ztake_zdrop, compress_take by done.
      split; [done |]. split; [| by split]. constructor; [| done]. unfold block_ok. rewrite zlen_ztake; lia.
    + exists [], p. repeat split; [by constructor | lia].
Qed.

(** What a context knows of the message it was fed. *)
Definition absorbed (s : sha256_ctx) (m : list Z) : Prop := exists bs rest,
  m = concat bs ++ rest /\ Forall block_ok bs /\ state s = fold_left sha256_compress bs IV /\
  zlen (buf s) = 64 /\ buf_len s = zlen rest /\ zlen rest < 64 /\
  (forall j, 0 <= j < zlen rest -> zget (buf s) j = zget rest j) /\ count s = u64 (zlen m).

Lemma init_absorbed s : zlen (buf s) = 64 -> absorbed (sha256_init s) [].
Proof. intros L. exists [], []. repeat split; try done. intros j Rj. change (zlen []) with 0 in Rj. lia. Qed.

Lemma u64_add x y : u64 (u64 x + y) = u64 (x + y).
Proof. unfold u64. by rewrite Z.add_mod_idemp_l. Qed.

Lemma fold_left_snoc st bs b : fold_left sha256_compress (bs ++ [b]) st = sha256_compress (fold_left sha256_compress bs st) b.
Proof. by rewrite fold_left_app. Qed.

Lemma concat_snoc {A} (bs : list (list A)) b : concat (bs ++ [b]) = concat bs ++ b.
Proof. rewrite concat_app. cbn. by rewrite app_nil_r. Qed.

(** The tail of sha256_update from an empty buffer. *)
Lemma direct_absorbed st c b p bs m : Forall block_ok bs -> st = fold_left sha256_compress bs IV -> zlen b = 64 ->
  m = concat bs ++ p -> c = u64 (zlen m) ->
  absorbed (let '(st, p) := absorb (length p) st p in mk_ctx st c (copy_to b 0 p (zlen p)) (zlen p)) m.
Proof.
  intros F Es Lb Em Ec. destruct (absorb_spec (length p) st p ltac:(lia)) as (bs' & rest & Ep & F' & R & ->).
  pose proof (zlen_nonneg rest). destruct (copy_to_spec b 0 rest (zlen rest)) as (Len & G); [lia | lia | lia |].
  exists (bs ++ bs'), rest. cbn [state buf buf_len count]. rewrite concat_app, <- app_assoc, <- Ep, fold_left_app, <- Es.
  split; [exact Em |]. split; [by apply Forall_app |]. split; [done |]. split; [lia |]. split; [done |]. split; [done |].
  split; [| exact Ec]. intros j Rj. rewrite G by lia. rewrite Z.sub_0_r.
  destruct (Z.leb_spec 0 j), (Z.ltb_spec j (0 + zlen rest)); done || lia.
Qed.

Lemma update_absorbed s m data : absorbed s m -> absorbed (sha256_update s data) (m ++ data).
Proof.
  intros (bs & rest & Em & F & Es & Lb & El & R & G & Ec). unfold sha256_update. cbn [state count buf buf_len].
  pose proof (zlen_nonneg rest) as R0. pose proof (zlen_nonneg data) as D0.
  assert (Ec' : u64 (count s + zlen data) = u64 (zlen (m ++ data))) by (rewrite Ec, u64_add, zlen_app; done).
  destruct (Z.eqb_spec (buf_len s) 0) as [Z0 | Nz].
  - apply direct_absorbed with bs; [done | done | done | | exact Ec'].
    assert (rest = []) as ->; [| by rewrite Em, app_nil_r]. destruct rest; [done |]. rewrite zlen_cons in El. pose proof (zlen_nonneg rest). lia.
  - set (take := if 64 - buf_len s >? zlen data then zlen data else 64 - buf_len s).
    assert (T : take = Z.min (zlen data) (64 - zlen rest)).
    { unfold take. rewrite El, Z.gtb_ltb. cases; lia. }
    clearbody take. destruct (copy_to_spec (buf s) (buf_len s) data take) as (Len & Gc); [lia | lia | lia |].
    rewrite El in *.
    assert (Gr : forall j, 0 <= j < zlen rest + take -> zget (copy_to (buf s) (zlen rest) data take) j = zget (rest ++ ztake take data) j).
    { intros j Rj. rewrite Gc, zget_app by lia.
      destruct (Z.leb_spec (zlen rest) j), (Z.ltb_spec j (zlen rest + take)), (Z.ltb_spec j (zlen rest)); try lia; cbn [andb].
      - rewrite zget_ztake by lia. done.
      - apply G. lia. }
    destruct (Z.ltb_spec (zlen rest + take) 64) as [Lt | Ge].
    + exists bs, (rest ++ data). cbn [state buf buf_len count]. assert (take = zlen data) as Et by lia. rewrite Et in *.
      assert (Ed : ztake (zlen data) data = data) by (unfold ztake, zlen; rewrite Nat2Z.id; apply firstn_all).
      rewrite Ed in Gr. rewrite zlen_app. rewrite app_assoc, <- Em. repeat (split; [first [done | lia] |]). exact Ec'.
    + set (b := copy_to (buf s) (zlen rest) data take) in *.
      assert (Eb : b = rest ++ ztake take data).
      { apply zlist_eq; [rewrite zlen_app, zlen_ztake by lia; lia |]. intros i Ri. apply Gr. lia. }
      apply direct_absorbed with (bs ++ [b]).
      * apply Forall_app. split; [done |]. constructor; [| constructor]. unfold block_ok. lia.
      * by rewrite fold_left_snoc, <- Es.
      * lia.
      * rewrite Em, concat_snoc, Eb, <- !app_assoc. by rewrite ztake_zdrop.
      * exact Ec'.
Qed.

(** ** The final block *)

Lemma zget_be64 x j : 0 <= j < 8 -> zget (be64 x) j = u8 (Z.shiftr x (56 - j * 8)).
Proof.
  intros J. assert (j = 0 \/ j = 1 \/ j = 2 \/ j = 3 \/ j = 4 \/ j = 5 \/ j = 6 \/ j = 7) as C by lia.
  by destruct C as [-> | [-> | [-> | [-> | [-> | [-> | [-> | ->]]]]]]].
Qed.

Lemma zlen_be64 x : zlen (be64 x) = 8.
Proof. done. Qed.

Lemma digest_out st : zfor 8 0 (fun i out =>
    zset (zset (zset (zset out (4 * i) (u8 (Z.shiftr (zget st i) 24))) (4 * i + 1) (u8 (Z.shiftr (zget st i) 16)))
               (4 * i + 2) (u8 (Z.shiftr (zget st i) 8))) (4 * i + 3) (u8 (zget st i))) (zrep 32 0) = digest st.
Proof. reflexivity. Qed.

Lemma blocks_concat bs l : Forall block_ok bs -> blocks (length bs) (concat bs ++ l) = bs.
Proof.
  induction 1 as [| b bs B F IH]; cbn [length blocks concat]; [done |].
  assert (Lb : length b = 64%nat) by (unfold block_ok, zlen in B; lia).
  unfold ztake, zdrop in *. change (Z.to_nat 64) with 64%nat in *. rewrite <- app_assoc.
  rewrite take_app_length', drop_app_length' by done. by rewrite IH.
Qed.

Lemma concat_blocks_len bs : Forall block_ok bs -> length (concat bs) = (64 * length bs)%nat.
Proof.
  induction 1 as [| b bs B F IH]; cbn [length concat]; [done |]. rewrite length_app, IH. unfold block_ok, zlen in B. lia.
Qed.

(** The reference of a message that is cut in blocks up to its last bytes. *)
Lemma one_shot_blocks m bs rest tail : m = concat bs ++ rest -> Forall block_ok bs -> Forall block_ok tail ->
  rest ++ 128 :: zrep ((55 - zlen rest) mod 64) 0 ++ be64 (u64 (8 * zlen m)) = concat tail ->
  one_shot m = digest (fold_left sha256_compress tail (fold_left sha256_compress bs IV)).
Proof.
  intros Em F Ft Et. unfold one_shot.
  assert (Ep : pad m = concat (bs ++ tail)).
  { unfold pad. rewrite concat_app, <- Et. rewrite Em at 1. rewrite <- app_assoc. do 4 f_equal.
    rewrite Em, zlen_app. unfold zlen at 1. rewrite (concat_blocks_len bs F).
    replace (55 - (Z.of_nat (64 * length bs) + zlen rest)) with (55 - zlen rest + - Z.of_nat (length bs) * 64) by lia.
    f_equal. by apply Z.mod_add. }
  assert (Fa : Forall block_ok (bs ++ tail)) by by apply Forall_app.
  rewrite Ep, concat_blocks_len by done. rewrite Nat.mul_comm, Nat.div_mul by lia.
  rewrite <- (app_nil_r (concat (bs ++ tail))), blocks_concat by done. by rewrite fold_left_app.
Qed.

(** The last block, by position. *)
Lemma last_block b rest x : zlen b = 64 -> zlen rest < 56 ->
  (forall j, 0 <= j < 64 -> zget b j = if j <? zlen rest then zget rest j else if j =? zlen rest then 128 else
                                      if j <? 56 then 0 else u8 (Z.shiftr x (56 - (j - 56) * 8))) ->
  rest ++ 128 :: zrep (55 - zlen rest) 0 ++ be64 x = b.
Proof.
  intros L R G. pose proof (zlen_nonneg rest).
  apply zlist_eq.
  { rewrite zlen_app, zlen_cons, zlen_app, zlen_zrep, zlen_be64 by lia. lia. }
  intros i Ri. rewrite zlen_app, zlen_cons, zlen_app, zlen_zrep, zlen_be64 in Ri by lia.
  rewrite G, zget_app by lia. destruct (Z.ltb_spec i (zlen rest)); [done |].
  rewrite zget_next by lia. destruct (Z.eqb_spec (i - zlen rest) 0), (Z.eqb_spec i (zlen rest)); try lia.
  rewrite zget_app, zlen_zrep by lia.
  destruct (Z.ltb_spec (i - zlen rest - 1) (55 - zlen rest)), (Z.ltb_spec i 56); try lia.
  - by rewrite zget_zrep by lia.
  - rewrite zget_be64 by lia. do 2 f_equal. lia.
Qed.

Lemma u64_times8 x : u64 (u64 x * 8) = u64 (8 * x).
Proof. unfold u64. rewrite Z.mul_mod_idemp_l by lia. f_equal. lia. Qed.

Lemma final_absorbed s m : absorbed s m -> sha256_final s = one_shot m.
Proof.
  intros (bs & rest & Em & F & Es & Lb & El & R & G & Ec). pose proof (zlen_nonneg rest) as R0.
  unfold sha256_final. rewrite Ec, u64_times8. set (bits := u64 (8 * zlen m)). rewrite El.
  set (b := zset (buf s) (zlen rest) 128).
  assert (Lb' : zlen b = 64) by (unfold b; by rewrite zlen_zset).
  assert (Gb : forall j, 0 <= j <= zlen rest -> zget b j = if j =? zlen rest then 128 else zget rest j).
  { intros j Rj. unfold b. destruct (Z.eqb_spec j (zlen rest)) as [-> | N]; [apply zget_zset_eq; lia |].
    rewrite zget_zset_ne by lia. apply G. lia. }
  assert (Fin : forall b len, zlen b = 64 -> 0 <= len <= 56 ->
    let b2 := zfor 8 0 (fun i b => zset b (56 + i) (u8 (Z.shiftr bits (56 - i * 8)))) (zero_to b len 56) in
    zlen b2 = 64 /\ forall j, 0 <= j < 64 -> zget b2 j = if j <? len then zget b j else if j <? 56 then 0 else u8 (Z.shiftr bits (56 - (j - 56) * 8))).
  { intros c len Lc Rl. cbv zeta. destruct (zero_to_spec c len 56) as (L1 & G1); [lia | lia |].
    destruct (fill_spec 8 0 56 (fun i => u8 (Z.shiftr bits (56 - i * 8))) (zero_to c len 56)) as (L2 & G2); [lia | lia |].
    split; [lia |]. intros j Rj. rewrite G2, G1 by lia.
    destruct (Z.leb_spec (56 + 0) j), (Z.ltb_spec j (56 + 0 + Z.of_nat 8)), (Z.leb_spec len j), (Z.ltb_spec j 56), (Z.ltb_spec j len); done || lia. }
  destruct (zlen rest + 1 >? 56) eqn:Two; rewrite Z.gtb_ltb in Two; zb.
  - destruct (zero_to_spec b (zlen rest + 1) 64) as (L1 & G1); [lia | lia |].
    set (b1 := zero_to b (zlen rest + 1) 64) in *. destruct (Fin b1 0) as (L2 & G2); [lia | lia |]. cbv zeta in *.
    set (b2 := zfor 8 0 _ _) in *. rewrite (digest_out (sha256_compress (sha256_compress (state s) b1) b2)).
    rewrite (one_shot_blocks m bs rest [b1; b2] Em F); [by rewrite Es | repeat constructor; unfold block_ok; lia |].
    cbn [concat]. rewrite app_nil_r. rewrite <- (Z.mod_unique (55 - zlen rest) 64 (-1) (119 - zlen rest)) by lia.
    apply zlist_eq; rewrite !zlen_app, zlen_cons, zlen_app, zlen_zrep, zlen_be64 by lia; [lia |].
    intros i Ri. rewrite !zget_app by lia. rewrite L1.
    destruct (Z.ltb_spec i (zlen rest)), (Z.ltb_spec i (zlen b)); try lia.
    + rewrite G1, Gb by lia. destruct (Z.leb_spec (zlen rest + 1) i), (Z.eqb_spec i (zlen rest)); done || lia.
    + rewrite zget_next, G1 by lia.
      destruct (Z.eqb_spec (i - zlen rest) 0), (Z.leb_spec (zlen rest + 1) i), (Z.ltb_spec i 64); try lia; cbn [andb].
      * rewrite Gb by lia. destruct (Z.eqb_spec i (zlen rest)); done || lia.
      * rewrite zget_app, zlen_zrep by lia. destruct (Z.ltb_spec (i - zlen rest - 1) (119 - zlen rest)); [by rewrite zget_zrep by lia | lia].
    + rewrite zget_next, G2 by lia.
      destruct (Z.eqb_spec (i - zlen rest) 0), (Z.ltb_spec (i - zlen b) 0); try lia.
      rewrite zget_app, zlen_zrep by lia. destruct (Z.ltb_spec (i - zlen rest - 1) (119 - zlen rest)), (Z.ltb_spec (i - zlen b) 56); try lia.
      * by rewrite zget_zrep by lia.
      * rewrite zget_be64 by lia. do 2 f_equal. lia.
  - destruct (Fin b (zlen rest + 1)) as (L2 & G2); [lia | lia |]. cbv zeta in *.
    set (b2 := zfor 8 0 _ _) in *. rewrite (digest_out (sha256_compress (state s) b2)).
    rewrite (one_shot_blocks m bs rest [b2] Em F); [by rewrite Es | repeat constructor; unfold block_ok; lia |].
    cbn [concat]. rewrite app_nil_r, Z.mod_small by lia. apply last_block; [exact L2 | lia |].
    intros j Rj. rewrite G2 by lia. 
    destruct (Z.ltb_spec j (zlen rest + 1)), (Z.ltb_spec j (zlen rest)), (Z.eqb_spec j (zlen rest)); try lia; try done;
      rewrite Gb by lia; destruct (Z.eqb_spec j (zlen rest)); done || lia.
Qed.

(** ** Feeding a message in pieces *)

(** The calls of one hash: init, any number of updates, final. *)
Definition hash_pieces (s : sha256_ctx) (pieces : list (list Z)) : list Z :=
  sha256_final (fold_left sha256_update pieces (sha256_init s)).

Lemma updates_absorbed pieces s m : absorbed s m -> absorbed (fold_left sha256_update pieces s) (m ++ concat pieces).
Proof.
  revert s m. induction pieces as [| p l IH]; intros s m A; cbn [fold_left concat]; [by rewrite app_nil_r |].
  rewrite app_assoc. by apply IH, update_absorbed.
Qed.

Lemma hash_pieces_one_shot s pieces : zlen (buf s) = 64 -> hash_pieces s pieces = one_shot (concat pieces).
Proof. intros L. apply final_absorbed. by apply (updates_absorbed pieces (sha256_init s) []), init_absorbed. Qed.

Lemma sha256_one_shot m : sha256 m = one_shot m.
Proof. rewrite <- (app_nil_r m) at 2. by apply (hash_pieces_one_shot blank [m]). Qed.

Lemma one_shot_len m : zlen (one_shot m) = 32.
Proof. done. Qed.

Lemma one_shot_bytes m : bytes_ok (one_shot m).
Proof. unfold one_shot, digest, word_bytes. cbn. repeat constructor; apply u8_range. Qed.

(** ** HMAC is that of RFC 2104 *)

Definition hmac_key (key : list Z) : list Z :=
  let k := if zlen key >? SHA256_BLOCK_SIZE then one_shot key else key in k ++ zrep (SHA256_BLOCK_SIZE - zlen k) 0.

Definition rfc2104 (key msg : list Z) : list Z :=
  one_shot ((Z.lxor 0x5c <$> hmac_key key) ++ one_shot ((Z.lxor 0x36 <$> hmac_key key) ++ msg)).

Lemma copy_key k : zlen k <= SHA256_BLOCK_SIZE ->
  copy_to (zrep SHA256_BLOCK_SIZE 0) 0 k (zlen k) = k ++ zrep (SHA256_BLOCK_SIZE - zlen k) 0.
Proof.
  intros L. pose proof (zlen_nonneg k). destruct (copy_to_spec (zrep SHA256_BLOCK_SIZE 0) 0 k (zlen k)) as (Len & G);
    [lia | lia | rewrite zlen_zrep; lia || done |]. rewrite zlen_zrep in Len by done.
  apply zlist_eq; [rewrite zlen_app, zlen_zrep by lia; lia |]. intros i Ri. rewrite G, zget_app, Z.sub_0_r by lia.
  destruct (Z.leb_spec 0 i), (Z.ltb_spec i (0 + zlen k)), (Z.ltb_spec i (zlen k)); try lia; cbn [andb]; [done |].
  by rewrite !zget_zrep by lia.
Qed.

Lemma xor_pad_map k x : zlen k = SHA256_BLOCK_SIZE -> xor_pad k x = Z.lxor x <$> k.
Proof.
  intros L.
  assert (H : zlen (xor_pad k x) = 64 /\ forall j, 0 <= j < 64 -> zget (xor_pad k x) j = Z.lxor (zget k j) x).
  { destruct (fill_spec 64 0 0 (fun i => Z.lxor (zget k i) x) (zrep SHA256_BLOCK_SIZE 0)) as (Len & G);
      [lia | by rewrite zlen_zrep |]. split; [exact Len |]. intros j Rj. etransitivity; [apply G; lia |].
    destruct (Z.leb_spec (0 + 0) j), (Z.ltb_spec j (0 + 0 + Z.of_nat 64)); try lia. cbn [andb]. by rewrite Z.sub_0_r. }
  destruct H as (Len & G). unfold SHA256_BLOCK_SIZE in L. apply zlist_eq.
  { rewrite Len. unfold zlen in *. rewrite length_fmap. lia. }
  intros i Ri. rewrite G, Z.lxor_comm by lia. symmetry. apply zget_lookup. by rewrite list_lookup_fmap, lookup_zget by lia.
Qed.

Lemma hmac_rfc2104 key msg : hmac_sha256 key msg = rfc2104 key msg.
Proof.
  unfold hmac_sha256, rfc2104. set (k := if zlen key >? SHA256_BLOCK_SIZE then copy_to _ _ _ _ else _).
  assert (Ek : k = hmac_key key).
  { unfold k, hmac_key. destruct (zlen key >? SHA256_BLOCK_SIZE) eqn:G; rewrite Z.gtb_ltb in G; zb; [| apply copy_key; lia].
    rewrite sha256_one_shot, <- copy_key by (by rewrite one_shot_len). by rewrite one_shot_len. }
  assert (Lk : zlen k = SHA256_BLOCK_SIZE).
  { rewrite Ek. unfold hmac_key. destruct (zlen key >? SHA256_BLOCK_SIZE) eqn:G; rewrite Z.gtb_ltb in G; zb.
    - by rewrite zlen_app, one_shot_len, zlen_zrep. 
    - pose proof (zlen_nonneg key). rewrite zlen_app, zlen_zrep by lia. lia. }
  rewrite !xor_pad_map by done. rewrite Ek. clearbody k.
  set (ip := Z.lxor 0x36 <$> hmac_key key). set (op := Z.lxor 0x5c <$> hmac_key key).
  pose proof (init_absorbed blank ltac:(done)) as A. apply (update_absorbed _ _ ip) in A. apply (update_absorbed _ _ msg) in A.
  pose proof A as (bs & rest & _ & _ & _ & Lb & _). rewrite (final_absorbed _ _ A). cbn [app] in *.
  apply final_absorbed. apply (update_absorbed _ op). apply (update_absorbed _ []). by apply init_absorbed.
Qed.

(** ** HKDF-Expand is that of RFC 5869 *)

(** [T(0)] is empty and [T(i + 1) = HMAC(prk, T(i) || info || i + 1)]. *)
Fixpoint rfc5869_T (prk info : list Z) (i : nat) : list Z :=
  match i with
  | O => []
  | S j => rfc2104 prk (rfc5869_T prk info j ++ info ++ [Z.of_nat i])
  end.

(** [T(1) || ... || T(n)]. *)
Definition rfc5869_okm (prk info : list Z) (n : nat) : list Z := concat (rfc5869_T prk info <$> seq 1 n).

Lemma T_len prk info i : zlen (rfc5869_T prk info (S i)) = 32.
Proof. apply one_shot_len. Qed.

Lemma okm_S prk info n : rfc5869_okm prk info (S n) = rfc5869_okm prk info n ++ rfc5869_T prk info (S n).
Proof. unfold rfc5869_okm. rewrite seq_S, fmap_app, concat_app. cbn [fmap list_fmap concat Nat.add]. by rewrite app_nil_r. Qed.

Lemma okm_len prk info n : zlen (rfc5869_okm prk info n) = 32 * Z.of_nat n.
Proof. induction n as [|n IH]; [done |]. rewrite okm_S, zlen_app, IH, T_len. lia. Qed.

(** After [j] turns the first [min(L, 32 j)] bytes are those of the output of RFC 5869. *)
Lemma expand_loop_spec fuel prk info okm L j : zlen info <= 320 -> L <= zlen okm -> 0 <= L <= 255 * 32 ->
  L - 32 * Z.of_nat j < Z.of_nat fuel -> 32 * Z.of_nat j < L + 32 ->
  (forall i, 0 <= i < Z.min L (32 * Z.of_nat j) -> zget okm i = zget (rfc5869_okm prk info j) i) ->
  let r := expand_loop fuel prk info L (rfc5869_T prk info j) (u8 (Z.of_nat j + 1)) (Z.min L (32 * Z.of_nat j)) okm in
  exists n, L <= 32 * Z.of_nat n < L + 32 /\ zlen r = zlen okm /\ forall i, 0 <= i -> zget r i = if i <? L then zget (rfc5869_okm prk info n) i else zget okm i.
Proof.
  intros In Ro RL. revert j okm Ro. induction fuel as [|f IH]; intros j okm Ro Fu Lo Pre; cbn [expand_loop].
  { exists j. split; [lia |]. split; [done |]. intros i Ri. destruct (Z.ltb_spec i L); [apply Pre; lia | done]. }
  destruct (Z.ltb_spec (Z.min L (32 * Z.of_nat j)) L) as [Lt | Ge].
  2: { exists j. split; [lia |]. split; [done |]. intros i Ri. destruct (Z.ltb_spec i L); [apply Pre; lia | done]. }
  assert (Em : Z.min L (32 * Z.of_nat j) = 32 * Z.of_nat j) by lia. rewrite Em in *.
  set (t := rfc5869_T prk info j) in *. assert (Rj : Z.of_nat j < 255) by lia.
  assert (Et : hmac_sha256 prk (t ++ ztake (Z.min (zlen info) 320) info ++ [u8 (Z.of_nat j + 1)]) = rfc5869_T prk info (S j)).
  { rewrite hmac_rfc2104, Z.min_l, u8_small by lia. unfold ztake, zlen. rewrite Nat2Z.id, firstn_all.
    cbn [rfc5869_T]. fold t. by replace (Z.of_nat (S j)) with (Z.of_nat j + 1) by lia. }
  rewrite Et. set (take := if L - 32 * Z.of_nat j <? 32 then L - 32 * Z.of_nat j else 32).
  assert (Tk : take = Z.min (L - 32 * Z.of_nat j) 32) by (unfold take; cases; lia). clearbody take.
  destruct (copy_to_spec okm (32 * Z.of_nat j) (rfc5869_T prk info (S j)) take) as (Len & G); [lia | lia | lia |].
  replace (u8 (u8 (Z.of_nat j + 1) + 1)) with (u8 (Z.of_nat (S j) + 1)) by (rewrite (u8_small (Z.of_nat j + 1)) by lia; f_equal; lia).
  replace (32 * Z.of_nat j + take) with (Z.min L (32 * Z.of_nat (S j))) by lia.
  destruct (IH (S j) (copy_to okm (32 * Z.of_nat j) (rfc5869_T prk info (S j)) take)) as (n & Rn & Ln & Gn); [lia | lia | lia | |].
  { intros i Ri. rewrite G, okm_S, zget_app, okm_len by lia.
    destruct (Z.leb_spec (32 * Z.of_nat j) i), (Z.ltb_spec i (32 * Z.of_nat j + take)), (Z.ltb_spec i (32 * Z.of_nat j)); try lia; cbn [andb]; [done |].
    apply Pre. lia. }
  exists n. split; [done |]. split; [lia |]. intros i Ri. rewrite Gn by lia. destruct (Z.ltb_spec i L); [done |].
  rewrite G by lia. destruct (Z.leb_spec (32 * Z.of_nat j) i), (Z.ltb_spec i (32 * Z.of_nat j + take)); done || lia.
Qed.

Lemma hkdf_expand_spec prk info okm L : zlen info <= 320 -> 0 <= L <= 255 * 32 -> zlen okm = L ->
  exists n, L <= 32 * Z.of_nat n < L + 32 /\ hkdf_expand prk info okm L = ztake L (rfc5869_okm prk info n).
Proof.
  intros In RL Lo. unfold hkdf_expand.
  destruct (expand_loop_spec (S (Z.to_nat L)) prk info okm L 0) as (n & Rn & Len & G); [lia | lia | lia | lia | lia | intros; lia |].
  cbn [rfc5869_T] in *. change (u8 (Z.of_nat 0 + 1)) with 1 in *. rewrite Z.min_r in * by lia. change (32 * Z.of_nat 0) with 0 in *.
  exists n. split; [done |]. apply zlist_eq; [rewrite zlen_ztake, okm_len by lia; lia |]. intros i Ri. rewrite G, zget_ztake by lia.
  destruct (Z.ltb_spec i L); [done | lia].
Qed.

(** ** Random bytes *)

Definition rng_ok (r : rng) : Prop :=
  0 <= s0 r < 4294967296 /\ 0 <= s1 r < 4294967296 /\ 0 <= s2 r < 4294967296 /\ 0 <= s3 r < 4294967296.

Lemma xoshiro_ok r : rng_ok r -> rng_ok (snd (xoshiro_next r)).
Proof.
  intros (A & B & C & D). unfold xoshiro_next. cbn [snd]. unfold rng_ok. cbn [s0 s1 s2 s3].
  pose proof (lxor_u32 _ _ C A). pose proof (lxor_u32 _ _ D B). pose proof (u32_range (Z.shiftl (s1 r) 9)).
  split; [by apply lxor_u32 |]. split; [by apply lxor_u32 |]. split; [by apply lxor_u32 |].
  apply (lor_bound 32); [lia | apply u32_range |]. rewrite Z.shiftr_div_pow2 by lia. change (2 ^ 21) with 2097152. change (2 ^ 32) with 4294967296.
  split; [apply Z.div_pos; lia | apply Z.div_lt_upper_bound; lia].
Qed.

Lemma seed_ok t p r : rng_ok r -> rng_ok (seed_once t p r).
Proof.
  intros (A & B & C & D). unfold seed_once. destruct (seeded r); [done |]. unfold rng_ok. cbn [s0 s1 s2 s3].
  repeat split; apply lxor_u32; assumption || apply u32_range.
Qed.

Lemma rand_loop_spec fuel n r : 0 <= n < Z.of_nat fuel -> rng_ok r ->
  zlen (fst (rand_loop fuel n r)) = n /\ bytes_ok (fst (rand_loop fuel n r)) /\ rng_ok (snd (rand_loop fuel n r)).
Proof.
  revert n r. induction fuel as [|f IH]; intros n r R Ok; cbn [rand_loop]; [lia |].
  rewrite Z.gtb_ltb. destruct (Z.ltb_spec 0 n) as [Pn | Z0]; [| cbn [fst snd]; split; [change (zlen []) with 0; lia | split; [constructor | done]]].
  set (take := if n <? 32 then n else 32). assert (T : 0 < take <= n /\ take <= 32) by (unfold take; cases; lia). clearbody take.
  set (r' := snd (xoshiro_next _)). assert (Ok' : rng_ok r') by (do 4 apply xoshiro_ok; done). clearbody r'.
  destruct (IH (n - take) r') as (L & B & O); [lia | done |]. destruct (rand_loop f (n - take) r') as (out, r''). cbn [fst snd] in *.
  rewrite sha256_one_shot. set (h := one_shot _). split; [| split; [| done]].
  - rewrite zlen_app, zlen_ztake, L by lia. unfold h. rewrite one_shot_len. lia.
  - apply Forall_app. split; [| done]. unfold ztake. apply Forall_take, one_shot_bytes.
Qed.

Lemma rand_bytes_spec t p n r : 0 <= n -> rng_ok r ->
  zlen (fst (rand_bytes t p n r)) = n /\ bytes_ok (fst (rand_bytes t p n r)) /\ rng_ok (snd (rand_bytes t p n r)).
Proof. intros N Ok. apply rand_loop_spec; [lia | by apply seed_ok]. Qed.

(** ** The digest of a whole message is that of FIPS 180-4 *)

Lemma IV_fips : FIPS.H0 = IV.
Proof. vm_compute. reflexivity. Qed.

(** A byte of a 64-bit number, or of a word. *)
Lemma byte_of x n k : 0 <= k -> k + 8 <= n -> u8 (Z.shiftr (x mod 2 ^ n) k) = (x / 2 ^ k) mod 256.
Proof.
  intros K N. rewrite <- Z.shiftr_div_pow2 by lia. unfold u8. change 256 with (2 ^ 8). apply Z.bits_inj'. intros j J.
  destruct (decide (j < 8)); [| by rewrite !Z.mod_pow2_bits_high by lia].
  by rewrite !Z.mod_pow2_bits_low, !Z.shiftr_spec, Z.mod_pow2_bits_low by lia.
Qed.

Lemma be64_fips x : be64 (u64 x) = FIPS.big_endian 8 x.
Proof.
  unfold be64, u64. change 18446744073709551616 with (2 ^ 64). cbn [fmap list_fmap]. rewrite !byte_of by lia. reflexivity.
Qed.

Lemma word_bytes_fips w : is_word w -> word_bytes w = FIPS.big_endian 4 w.
Proof.
  intros W. assert (B : forall k, 0 <= k -> k + 8 <= 32 -> u8 (Z.shiftr w k) = (w / 2 ^ k) mod 256).
  { intros k K1 K2. pose proof (byte_of w 32 k K1 K2) as E. by rewrite (Z.mod_small w) in E. }
  unfold word_bytes. rewrite <- (Z.shiftr_0_r w) at 4. rewrite !B by lia. reflexivity.
Qed.

Lemma digest_fips st : words_ok st -> digest st = concat (FIPS.big_endian 4 <$> st).
Proof.
  intros (L & W).
  assert (E8 : exists h0 h1 h2 h3 h4 h5 h6 h7, st = [h0; h1; h2; h3; h4; h5; h6; h7]).
  { destruct st as [|h0 [|h1 [|h2 [|h3 [|h4 [|h5 [|h6 [|h7 [|]]]]]]]]]; unfold zlen in L; cbn [length] in L; try lia. by eexists _, _, _, _, _, _, _, _. }
  destruct E8 as (h0 & h1 & h2 & h3 & h4 & h5 & h6 & h7 & ->). repeat (apply Forall_cons in W as (? & W)).
  unfold digest. cbn [fmap list_fmap]. rewrite <- !word_bytes_fips by done. reflexivity.
Qed.

Lemma pad_fips m : pad m = FIPS.pad m.
Proof. unfold pad, FIPS.pad. by rewrite be64_fips. Qed.

Lemma blocks_fips n l : blocks n l = FIPS.pieces 64 n l.
Proof. revert l. induction n as [|n IH]; intros l; [done |]. cbn [blocks FIPS.pieces]. by rewrite IH. Qed.

Lemma pad_bytes m : bytes_ok m -> bytes_ok (pad m).
Proof.
  intros B. unfold pad. apply Forall_app. split; [exact B |]. constructor; [lia |]. apply Forall_app. split.
  - unfold zrep. apply Forall_replicate. lia.
  - unfold be64. repeat constructor; apply u8_range.
Qed.

Lemma blocks_ok n l : bytes_ok l -> (64 * n <= length l)%nat -> Forall (fun b => zlen b = 64 /\ bytes_ok b) (blocks n l).
Proof.
  revert l. induction n as [|n IH]; intros l B L; [constructor |]. cbn [blocks]. unfold ztake, zdrop. change (Z.to_nat 64) with 64%nat. constructor.
  - split; [unfold zlen; rewrite length_take; lia | by apply Forall_take].
  - apply IH; [by apply Forall_drop | rewrite length_drop; lia].
Qed.

Lemma fold_fips bs st : words_ok st -> Forall (fun b => zlen b = 64 /\ bytes_ok b) bs ->
  fold_left sha256_compress bs st = fold_left FIPS.compress bs st /\ words_ok (fold_left FIPS.compress bs st).
Proof.
  intros W F. revert st W. induction F as [| b bs (L & B) _ IH]; intros st W; [done |]. cbn [fold_left].
  destruct (compress_fips st b W L B) as (-> & W'). by apply IH.
Qed.

Lemma one_shot_fips m : bytes_ok m -> one_shot m = FIPS.sha256 m.
Proof.
  intros B. unfold one_shot, FIPS.sha256. cbv zeta. rewrite pad_fips, IV_fips, <- blocks_fips, <- pad_fips.
  destruct (fold_fips (blocks (Nat.div (length (pad m)) 64) (pad m)) IV) as (-> & W).
  - split; [reflexivity | repeat constructor; lia].
  - apply blocks_ok; [by apply pad_bytes | apply Nat.Div0.mul_div_le].
  - by apply digest_fips.
Qed.

(** ** Properties *)

(** C37. However the bytes of a message are cut into calls of sha256_update, sha256_final gives the digest FIPS 180-4
    defines for the whole message: the constants, the functions on words, the message schedule and the rounds are
    those of the standard ([FIPS.sha256]), and the padding, the block boundaries and the empty pieces are handled. *)
Theorem sha256_streaming (s : sha256_ctx) (pieces : list (list Z)) :
  zlen (buf s) = 64 -> bytes_ok (concat pieces) -> hash_pieces s pieces = FIPS.sha256 (concat pieces).
Proof. intros L B. rewrite hash_pieces_one_shot by done. by apply one_shot_fips. Qed.

Lemma sha256_streaming_witness :
  hash_pieces blank [[97]; []; zrep 70 1; [98; 99]] = FIPS.sha256 ([97] ++ zrep 70 1 ++ [98; 99]).
Proof.
  apply (sha256_streaming blank [[97]; []; zrep 70 1; [98; 99]]); [reflexivity |].
  apply Forall_app. split; [repeat constructor; lia |]. apply Forall_app. split; [constructor |]. apply Forall_app.
  split; [unfold zrep; apply Forall_replicate; lia | repeat constructor; lia].
Defined.

(** hkdf_expand writes the first L bytes of T(1) || ... || T(n) of RFC 5869, with HMAC as in RFC 2104, for an info
    of at most 320 bytes and an output of at most 255 blocks. *)
Theorem hkdf_expand_rfc5869 (prk info okm : list Z) (L : Z) :
  zlen info <= 320 -> 0 <= L <= 255 * 32 -> zlen okm = L ->
  exists n, L <= 32 * Z.of_nat n < L + 32 /\ hkdf_expand prk info okm L = ztake L (rfc5869_okm prk info n).
Proof. apply hkdf_expand_spec. Qed.

Lemma hkdf_expand_rfc5869_witness :
  exists n, 42 <= 32 * Z.of_nat n < 42 + 32 /\
    hkdf_expand (zrep 32 7) [240; 241] (zrep 42 0) 42 = ztake 42 (rfc5869_okm (zrep 32 7) [240; 241] n).
Proof. apply (hkdf_expand_rfc5869 (zrep 32 7) [240; 241] (zrep 42 0) 42); [vm_compute; discriminate | lia | reflexivity]. Defined.

(** Beyond 320 bytes the info is cut without an error: two infos that differ only there give one output. *)
Lemma hkdf_info_cut prk info1 info2 okm L : ztake 320 info1 = ztake 320 info2 -> 320 <= zlen info1 -> 320 <= zlen info2 ->
  hkdf_expand prk info1 okm L = hkdf_expand prk info2 okm L.
Proof.
  intros E L1 L2. unfold hkdf_expand. generalize (S (Z.to_nat L)). intros fuel. generalize (@nil Z) as t. intros t.
  generalize 1 as c. generalize 0 as d. revert t okm.
  induction fuel as [|f IH]; intros t okm d c; cbn [expand_loop]; [done |]. destruct (d <? L); [| done].
  rewrite !Z.min_r by lia. rewrite E. apply IH.
Qed.

End SHA256.
