(* ===== verification/Rsa.v ===== *)
(** RSA signatures, key generation and the primality test ([libcrypto/rsa.c], the
    number-theoretic end of [libcrypto/bignum.c]).

    The random generator is threaded through every call that draws from it; the two
    system calls that seed it answer [t] and [pid].  Loops that retry take fuel and
    return [None] when it ends. *)

From stdpp Require Import base numbers list option.
From Stdlib Require Import ZArith Znumtheory Zpow_facts Lia.
From Stdlib Require Import Zmod.ZmodInv.
From S2P Require Import Prelude Bignum Sha256.

Module RSA.
Import BIGNUM.

Section Random.
Context (t pid : Z).

(** ** Random numbers and primality *)

Definition bn_rand_bits (bits : Z) (r : SHA256.rng) : bignum * SHA256.rng :=
  let bytes := (bits + 7) / 8 in
  let '(buf, r) := SHA256.rand_bytes t pid bytes r in
  let b := bn_from_bytes_be buf bytes in
  let top_bit := bits - 1 in
  let top_limb := Z.shiftr top_bit 5 in
  let top_shift := Z.land top_bit 31 in
  let v :=
    if top_limb <? BN_MAX_LIMBS then
      let mask := if top_shift =? 31 then 4294967295 else u32 (Z.shiftl 1 (top_shift + 1)) - 1 in
      clear_from (top_limb + 1) (zset (bv b) top_limb (Z.land (zget (bv b) top_limb) mask))
    else bv b in
  let v :=
    if top_limb <? BN_MAX_LIMBS then zset v top_limb (Z.lor (zget v top_limb) (u32 (Z.shiftl 1 top_shift))) else v in
  let v := zset v 0 (Z.lor (zget v 0) 1) in
  (bn_trim (mk_bignum v (top_limb + 1)), r).

Definition small_primes : list Z :=
  [3; 5; 7; 11; 13; 17; 19; 23; 29; 31; 37; 41; 43; 47; 53;
   59; 61; 67; 71; 73; 79; 83; 89; 97; 101; 103; 107; 109; 113;
   127; 131; 137; 139; 149; 151; 157; 163; 167; 173; 179; 181;
   191; 193; 197; 199; 211; 223; 227; 229; 233; 239; 241; 251].

(** 1 for a small prime, 0 for a multiple of one, -1 otherwise. *)
Fixpoint small_prime_filter (small : list Z) (n : bignum) : Z :=
  match small with
  | [] => -1
  | p :: l =>
      if bn_cmp n (bn_set_u32 p) =? 0 then 1
      else if bn_is_zero (bn_mod n (bn_set_u32 p)) then 0
      else small_prime_filter l n
  end.

(** [while (!bn_is_odd(&d)) { bn_rshift1(&d); s++; }] *)
Fixpoint strip_twos (fuel : nat) (d : bignum) (s : nat) : option (bignum * nat) :=
  match fuel with
  | O => None
  | S k => if bn_is_odd d then Some (d, s) else strip_twos k (bn_rshift1 d) (S s)
  end.

(** [for (j = 0; j < s - 1; j++)]: is n - 1 reached by squaring? *)
Fixpoint square_loop (k : nat) (x n1 n : bignum) : bool :=
  match k with
  | O => false
  | S k' => let x := bn_copy (bn_modmul x x n) in if bn_cmp x n1 =? 0 then true else square_loop k' x n1 n
  end.

(** One witness: does it prove [n] composite? *)
Definition composite_by (a d : bignum) (s : nat) (n1 n : bignum) : bool :=
  let x := bn_modpow a d n in
  if (bn_cmp x (bn_set_u32 1) =? 0) || (bn_cmp x n1 =? 0) then false
  else negb (square_loop (s - 1) x n1 n).

Definition pick_witness (n n1 : bignum) (r : SHA256.rng) : bignum * SHA256.rng :=
  let two := bn_set_u32 2 in
  let '(a, r) := bn_rand_bits (bn_bit_length n - 1) r in
  let a := if bn_is_zero a then two else a in
  let a := if bn_cmp a two <? 0 then two else a in
  let a := if bn_cmp a n1 >=? 0 then two else a in
  (a, r).

Fixpoint rounds_loop (rounds : nat) (d : bignum) (s : nat) (n1 n : bignum) (r : SHA256.rng) : bool * SHA256.rng :=
  match rounds with
  | O => (true, r)
  | S k =>
      let '(a, r) := pick_witness n n1 r in
      if composite_by a d s n1 n then (false, r) else rounds_loop k d s n1 n r
  end.

Definition bn_is_prime (fuel : nat) (n : bignum) (rounds : nat) (r : SHA256.rng) : option (bool * SHA256.rng) :=
  let two := bn_set_u32 2 in
  let three := bn_set_u32 3 in
  if bn_cmp n two <? 0 then Some (false, r) else
  if bn_cmp n two =? 0 then Some (true, r) else
  if bn_cmp n three =? 0 then Some (true, r) else
  if negb (bn_is_odd n) then Some (false, r) else
  let filt := small_prime_filter small_primes n in
  if filt >=? 0 then Some (negb (filt =? 0), r) else
  let n1 := bn_sub_into bn_zero n (bn_set_u32 1) in
  '(d, s) ← strip_twos fuel (bn_copy n1) 0;
  Some (rounds_loop rounds d s n1 n r).

(** ** Keys *)

Record rsa_keypair := mk_key
  { kn : bignum; ke : bignum; kd : bignum; kp : bignum; kq : bignum; kdp : bignum; kdq : bignum; kqinv : bignum }.

Fixpoint gen_prime (tries fuel : nat) (bits : Z) (r : SHA256.rng) : option (bignum * SHA256.rng) :=
  match tries with
  | O => None
  | S k =>
      let '(out, r) := bn_rand_bits bits r in
      '(ok, r) ← bn_is_prime fuel out 8 r;
      if (ok : bool) then Some (out, r) else gen_prime k fuel bits r
  end.

(** One turn of the loop of rsa_keygen after the primes are drawn: [Some None] is [continue]. *)
Definition keygen_turn (fuel : nat) (bits : Z) (p q : bignum) : option (option rsa_keypair) :=
  let one := bn_set_u32 1 in
  if bn_cmp p q =? 0 then Some None else
  let '(p, q) := if bn_cmp p q <? 0 then (bn_copy q, bn_copy p) else (p, q) in
  let n := bn_mul p q in
  if bn_bit_length n <? bits then Some None else
  let p1 := bn_sub_into bn_zero p one in
  let q1 := bn_sub_into bn_zero q one in
  let phi := bn_mul p1 q1 in
  let e := bn_set_u32 65537 in
  if bn_is_zero (bn_mod phi e) then Some None else
  d ← bn_modinv fuel e phi;
  match d with
  | None => Some None
  | Some d =>
      let dp := bn_mod d p1 in
      let dq := bn_mod d q1 in
      qinv ← bn_modinv fuel q p;
      match qinv with
      | None => Some None
      | Some qinv => Some (Some (mk_key n e d p q dp dq qinv))
      end
  end.

Fixpoint keygen_loop (turns tries fuel : nat) (bits : Z) (r : SHA256.rng) : option (rsa_keypair * SHA256.rng) :=
  match turns with
  | O => None
  | S k =>
      '(p, r) ← gen_prime tries fuel (bits / 2) r;
      '(q, r) ← gen_prime tries fuel (bits / 2) r;
      res ← keygen_turn fuel bits p q;
      match res with Some key => Some (key, r) | None => keygen_loop k tries fuel bits r end
  end.

(** [Some None] is the return value -1. *)
Definition rsa_keygen (turns tries fuel : nat) (bits : Z) (r : SHA256.rng) : option (option (rsa_keypair * SHA256.rng)) :=
  if (bits <? 64) || (bits >? 4096) || negb (Z.land bits 1 =? 0) then Some None else
  key ← keygen_loop turns tries fuel bits r; Some (Some key).

End Random.

(** ** Signing and verifying *)

Definition RSA_MAX_BYTES : Z := 512.

Definition SHA256_DIGEST_INFO_PREFIX : list Z :=
  [0x30; 0x31; 0x30; 0x0d; 0x06; 0x09; 0x60; 0x86; 0x48; 0x01; 0x65; 0x03; 0x04; 0x02; 0x01; 0x05; 0x00; 0x04; 0x20].

Definition T_LEN : Z := 51.

(** The [k] bytes written to [em], in order; [None] is -1. *)
Definition em_encode (k : Z) (msg : list Z) : option (list Z) :=
  if k <? T_LEN + 11 then None else
  Some ([0; 1] ++ zrep (k - T_LEN - 3) 255 ++ [0] ++ SHA256_DIGEST_INFO_PREFIX ++ SHA256.sha256 msg).

Definition rsa_priv_op_crt (m : bignum) (key : rsa_keypair) : bignum :=
  let m1 := bn_modpow m (kdp key) (kp key) in
  let m2 := bn_modpow m (kdq key) (kq key) in
  let diff :=
    if bn_cmp m1 m2 >=? 0 then bn_sub_into bn_zero m1 m2
    else bn_sub_into bn_zero (kp key) (bn_sub_into bn_zero m2 m1) in
  let h := bn_modmul (kqinv key) diff (kp key) in
  let prod := bn_mul h (kq key) in
  bn_add m2 prod.

Definition rsa_priv_op_d (m : bignum) (key : rsa_keypair) : bignum := bn_modpow m (kd key) (kn key).

(** The signature buffer and its length; [None] is -1. *)
Definition rsa_sign_pkcs1_sha256 (sig : list Z) (sig_cap : Z) (msg : list Z) (key : rsa_keypair) : option (list Z * Z) :=
  let k := bn_byte_length (kn key) in
  if (k <=? 0) || (k >? sig_cap) then None else
  em ← em_encode k msg;
  let m := bn_from_bytes_be em k in
  let s := if (bn (kp key) >? 0) && (bn (kq key) >? 0) then rsa_priv_op_crt m key else rsa_priv_op_d m key in
  Some (bn_to_bytes_be s sig k, k).

(** [true] is the return value 0. *)
Definition rsa_verify_pkcs1_sha256 (msg sig : list Z) (sig_len : Z) (n e : bignum) : bool :=
  let k := bn_byte_length n in
  if (k <=? 0) || negb (sig_len =? k) then false else
  let s := bn_from_bytes_be sig sig_len in
  if bn_cmp s n >=? 0 then false else
  let m := bn_modpow s e n in
  let em_prime := bn_to_bytes_be m (zrep RSA_MAX_BYTES 0) k in
  match em_encode k msg with
  | None => false
  | Some em => match zfind (Z.to_nat k) 0 (fun i => negb (zget em i =? zget em_prime i)) with Some _ => false | None => true end
  end.

(** ** Number theory *)

(** Modulo a prime only 1 and -1 are square roots of 1. *)
Lemma sqrt_one p x : Z.prime p -> 0 <= x < p -> (x * x) mod p = 1 -> x = 1 \/ x = p - 1.
Proof.
  intros P R E. pose proof (Z.prime_ge_2 _ P). assert (D : (p | (x - 1) * (x + 1))).
  { exists (x * x / p). pose proof (Z.div_mod (x * x) p ltac:(lia)). lia. }
  apply Z.divide_prime_mul in D; [| exact P]. destruct D as [(k & Ek) | (k & Ek)].
  - assert (k = 0) as -> by nia. left. lia.
  - destruct (decide (k = 0)) as [-> | N]; [lia |]. right. assert (k = 1) as -> by nia. lia.
Qed.

(** a^(1 + k (p - 1)) = a modulo a prime. *)
Lemma fermat_exp p a e : Z.prime p -> 0 < e -> e mod (p - 1) = 1 mod (p - 1) -> (a ^ e) mod p = a mod p.
Proof.
  intros P E M. pose proof (Z.prime_ge_2 _ P) as G.
  destruct (decide (a mod p = 0)) as [Z0 | Nz].
  - rewrite Z0, <- pow_mod_pow, Z0, Z.pow_0_l by lia. by apply Z.mod_0_l; lia.
  - pose proof (Z.fermat_nz p a P Nz) as F. assert (D : exists k, 0 <= k /\ e = 1 + k * (p - 1)).
    { destruct (decide (p = 2)) as [-> | N2]; [exists (e - 1); lia |]. rewrite (Z.mod_small 1) in M by lia.
      exists (e / (p - 1)). split; [apply Z.div_pos; lia |]. pose proof (Z.div_mod e (p - 1) ltac:(lia)). lia. }
    destruct D as (k & K & ->). rewrite Z.pow_add_r, Z.pow_1_r, (Z.mul_comm k), Z.pow_mul_r by nia.
    rewrite Z.mul_mod, <- (pow_mod_pow (a ^ (p - 1)) k), F, Z.pow_1_l, (Z.mod_small 1), Z.mul_1_r, Z.mod_mod by lia. done.
Qed.

(** Equal modulo two primes, hence modulo their product. *)
Lemma crt_eq p q x y : Z.prime p -> Z.prime q -> p <> q -> x mod p = y mod p -> x mod q = y mod q -> x mod (p * q) = y mod (p * q).
Proof.
  intros P Q N Ep Eq. pose proof (Z.prime_ge_2 _ P). pose proof (Z.prime_ge_2 _ Q).
  assert (Dp : (p | x - y)) by (apply Z.mod_divide; [lia | rewrite Zminus_mod, Ep, Z.sub_diag; by apply Z.mod_0_l; lia]).
  assert (Dq : (q | x - y)) by (apply Z.mod_divide; [lia | rewrite Zminus_mod, Eq, Z.sub_diag; by apply Z.mod_0_l; lia]).
  destruct Dp as (k & Ek). rewrite Ek in Dq.
  assert (C : Z.gcd q p = 1).
  { apply Z.coprime_prime_l; [exact Q |]. intros D. apply Z.divide_prime_prime in D; [congruence | done | done]. }
  rewrite Z.mul_comm in Dq. apply Z.gauss in Dq; [| exact C]. destruct Dq as (j & Ej).
  replace x with (y + j * (p * q)) by (rewrite Ej in Ek; lia). apply Z.mod_add. nia.
Qed.

(** Proth's criterion: it makes the primality of concrete moduli checkable by computation. *)
Lemma two_adic n : 0 < n -> exists j o, 0 <= j /\ n = 2 ^ j * o /\ Z.odd o = true /\ 0 < o.
Proof.
  intros P. pattern n. apply (Z_lt_induction (fun n => 0 < n -> exists j o, 0 <= j /\ n = 2 ^ j * o /\ Z.odd o = true /\ 0 < o)); [| lia | done].
  intros x IH X. destruct (Z.odd x) eqn:O; [exists 0, x; change (2 ^ 0) with 1; repeat split; done || lia |].
  destruct (even_half x X O) as (E & H). destruct (IH (x / 2)) as (j & o & J & Ej & Oo & Po); [lia | lia |].
  exists (j + 1), o. split; [lia |]. split; [| done]. rewrite Z.pow_add_r by lia. change (2 ^ 1) with 2. lia.
Qed.

Lemma pow_m1_odd q o : 1 < q -> 0 <= o -> Z.odd o = true -> ((q - 1) ^ o) mod q = q - 1.
Proof.
  intros Q O Od. assert (E : o = 1 + 2 * (o / 2)) by (pose proof (Z.div_mod o 2 ltac:(lia)); rewrite Zmod_odd, Od in *; lia).
  rewrite E, Z.pow_add_r, Z.pow_1_r, Z.pow_mul_r by (try lia; apply Z.mul_nonneg_nonneg; lia || (apply Z.div_pos; lia)).
  assert (Sq : ((q - 1) ^ 2) mod q = 1).
  { replace ((q - 1) ^ 2) with (1 + (q - 2) * q) by ring. rewrite Z.mod_add by lia. apply Z.mod_small. lia. }
  rewrite Z.mul_mod, <- (pow_mod_pow ((q - 1) ^ 2)), Sq, Z.pow_1_l by (try lia; apply Z.div_pos; lia).
  rewrite (Z.mod_small 1), Z.mul_1_r, Z.mod_mod by lia. apply Z.mod_small. lia.
Qed.

Lemma proth_factor k b q : Z.prime q -> q <> 2 -> 0 < k -> (b ^ (2 ^ (k - 1))) mod q = q - 1 -> (2 ^ k | q - 1).
Proof.
  intros Q N K H. pose proof (Z.prime_ge_2 _ Q). destruct (two_adic (q - 1)) as (j & o & J & E & O & Po); [lia |].
  destruct (decide (k <= j)) as [Le | Gt].
  { rewrite E. exists (2 ^ (j - k) * o). replace (2 ^ j) with (2 ^ (j - k) * 2 ^ k) by (rewrite <- Z.pow_add_r by lia; f_equal; lia). ring. }
  exfalso. pose proof (Z.pow_pos_nonneg 2 (k - 1) ltac:(lia) ltac:(lia)). pose proof (Z.pow_pos_nonneg 2 j ltac:(lia) ltac:(lia)).
  assert (Nz : b mod q <> 0).
  { intros Z0. rewrite <- pow_mod_pow, Z0, Z.pow_0_l, Z.mod_0_l in H by lia. lia. }
  pose proof (Z.fermat_nz q b Q Nz) as F. rewrite E in F.
  assert (A : (b ^ (2 ^ (k - 1) * o)) mod q = q - 1) by (rewrite Z.pow_mul_r, <- pow_mod_pow, H by lia; apply pow_m1_odd; done || lia).
  replace (2 ^ (k - 1) * o) with (2 ^ j * o * 2 ^ (k - 1 - j)) in A.
  2: { replace (2 ^ (k - 1)) with (2 ^ j * 2 ^ (k - 1 - j)) by (rewrite <- Z.pow_add_r by lia; f_equal; lia). ring. }
  rewrite Z.pow_mul_r, <- pow_mod_pow, F, Z.pow_1_l, Z.mod_small in A by (try lia; try apply Z.pow_nonneg; nia || lia). lia.
Qed.

Lemma prime_factor n : 1 < n -> exists q, Z.prime q /\ (q | n) /\ (q = n \/ q * q <= n).
Proof.
  intros N. pattern n. apply (Z_lt_induction (fun n => 1 < n -> exists q, Z.prime q /\ (q | n) /\ (q = n \/ q * q <= n))); [| lia | done].
  intros x IH X. destruct (prime_dec x) as [P | Np]; [exists x; split; [by apply prime_alt |]; split; [reflexivity | by left] |].
  destruct (not_prime_divide x X Np) as (d & Rd & (c & Ec)).
  assert (Small : exists e, 1 < e < x /\ (e | x) /\ e * e <= x).
  { destruct (Z.le_gt_cases c d); [exists c | exists d]; (split; [nia |]; split; [|nia]); [exists d; lia | exists c; lia]. }
  destruct Small as (e & Re & De & Se). destruct (IH e) as (q & Q & Dq & Bq); [lia | lia |].
  exists q. split; [exact Q |]. split; [by transitivity e |]. right. pose proof (Z.prime_ge_2 _ Q). nia.
Qed.

Lemma proth h k a : 0 < h < 2 ^ k -> 0 < k -> (a ^ (h * 2 ^ (k - 1))) mod (h * 2 ^ k + 1) = h * 2 ^ k -> Z.prime (h * 2 ^ k + 1).
Proof.
  intros H K E. set (p := h * 2 ^ k + 1) in *. destruct (prime_factor p) as (q & Q & D & [-> | B]); [nia | exact Q |]. exfalso.
  pose proof (Z.prime_ge_2 _ Q). destruct D as (c & Ec).
  assert (Ne : q <> 2).
  { intros ->. assert (Ev : 2 ^ k = 2 * 2 ^ (k - 1)) by (rewrite <- Z.pow_succ_r by lia; f_equal; lia). unfold p in Ec. rewrite Ev in Ec. nia. }
  assert (Eq : ((a ^ h) ^ (2 ^ (k - 1))) mod q = q - 1).
  { pose proof (Z.pow_nonneg 2 (k - 1)). rewrite <- Z.pow_mul_r by lia. replace (h * 2 ^ k) with (-1 + c * q) in E by (unfold p in Ec; lia).
    pose proof (Z.div_mod (a ^ (h * 2 ^ (k - 1))) p ltac:(nia)) as Dm. rewrite E, Ec in Dm. rewrite Dm.
    replace (c * q * (a ^ (h * 2 ^ (k - 1)) / (c * q)) + (-1 + c * q)) with (q - 1 + (c * (a ^ (h * 2 ^ (k - 1)) / (c * q)) + c - 1) * q) by ring.
    rewrite Z.mod_add by lia. apply Z.mod_small. lia. }
  pose proof (proth_factor k _ q Q Ne K Eq) as Dk. apply Z.divide_pos_le in Dk; [| lia]. unfold p in B. nia.
Qed.

(** ** Signing and verifying *)

(** A key pair with its CRT helpers, as rsa_keygen makes them. *)
Record key_ok (key : rsa_keypair) : Prop := mk_key_ok
  { key_wf : wf (kn key) /\ wf (ke key) /\ wf (kd key) /\ wf (kp key) /\ wf (kq key) /\ wf (kdp key) /\ wf (kdq key) /\ wf (kqinv key);
    key_p : Z.prime (val (kp key));
    key_q : Z.prime (val (kq key));
    key_pq : 2 < val (kq key) < val (kp key);
    key_n : val (kn key) = val (kp key) * val (kq key);
    key_e : 0 < val (ke key);
    key_d : (val (ke key) * val (kd key)) mod ((val (kp key) - 1) * (val (kq key) - 1)) = 1;
    key_dp : val (kdp key) = val (kd key) mod (val (kp key) - 1);
    key_dq : val (kdq key) = val (kd key) mod (val (kq key) - 1);
    key_qinv : 0 < val (kqinv key) < val (kp key) /\ (val (kqinv key) * val (kq key)) mod val (kp key) = 1;
    key_fit : val (kn key) * val (kn key) <= CAP }.

(** The exponents of the two halves invert [e]. *)
Lemma exp_inverse p a e d m : Z.prime p -> 2 < p -> 0 < e -> (p - 1 | m) -> 1 < m -> (e * d) mod m = 1 ->
  ((a ^ (d mod (p - 1))) ^ e) mod p = a mod p.
Proof.
  intros P G E (c & Ec) M1 D.
  assert (Ed : (e * (d mod (p - 1))) mod (p - 1) = 1).
  { rewrite Z.mul_mod_idemp_r by lia. pose proof (Z.div_mod (e * d) m ltac:(lia)) as Dm. rewrite D, Ec in Dm.
    rewrite Dm. replace (c * (p - 1) * (e * d / (c * (p - 1))) + 1) with (1 + c * (e * d / (c * (p - 1))) * (p - 1)) by ring.
    rewrite Z.mod_add by lia. apply Z.mod_small. lia. }
  pose proof (Z.mod_pos_bound d (p - 1) ltac:(lia)) as Rd.
  assert (0 < d mod (p - 1)). { destruct (decide (d mod (p - 1) = 0)) as [Z0 | N]; [rewrite Z0, Z.mul_0_r, Z.mod_0_l in Ed by lia; lia | lia]. }
  rewrite <- Z.pow_mul_r by lia. apply fermat_exp; [done | nia |]. rewrite Z.mul_comm, Ed. symmetry. apply Z.mod_small. lia.
Qed.

Section Sign.
Context (key : rsa_keypair) (Ok : key_ok key).

Abbreviation n := (val (kn key)).
Abbreviation p := (val (kp key)).
Abbreviation q := (val (kq key)).

Lemma key_bounds : 2 < q /\ 2 < p /\ n = p * q /\ p * p <= CAP /\ q * q <= CAP /\ 1 < n.
Proof.
  destruct Ok. pose proof (Z.prime_ge_2 _ key_p0). pose proof (Z.prime_ge_2 _ key_q0).
  assert (p <= n /\ q <= n) by (rewrite key_n0; nia). pose proof (Z.mul_le_mono_nonneg p n p n). pose proof (Z.mul_le_mono_nonneg q n q n).
  repeat split; lia || nia.
Qed.

(** The CRT computation is below [n] and has the right residues. *)
Lemma crt_spec m : wf m -> let s := rsa_priv_op_crt m key in
  wf s /\ val s < n /\ val s mod p = (val m ^ val (kdp key)) mod p /\ val s mod q = (val m ^ val (kdq key)) mod q.
Proof.
  intros M. cbv zeta. destruct key_bounds as (Q2 & P2 & En & Fp & Fq & N1). destruct Ok as [(Wn & We & Wd & Wp & Wq & Wdp & Wdq & Wqi)].
  unfold rsa_priv_op_crt. destruct key_qinv0 as (Ri & Ei).
  destruct (bn_modpow_spec m (kdp key) (kp key) M Wdp Wp ltac:(lia) Fp) as (A1 & A2).
  destruct (bn_modpow_spec m (kdq key) (kq key) M Wdq Wq ltac:(lia) Fq) as (B1 & B2).
  set (m1 := bn_modpow m (kdp key) (kp key)) in *. set (m2 := bn_modpow m (kdq key) (kq key)) in *.
  pose proof (Z.mod_pos_bound (val m ^ val (kdp key)) p ltac:(lia)) as R1. rewrite <- A2 in R1.
  pose proof (Z.mod_pos_bound (val m ^ val (kdq key)) q ltac:(lia)) as R2. rewrite <- B2 in R2. clearbody m1 m2.
  rewrite bn_cmp_spec by assumption.
  set (diff := if zcmp (val m1) (val m2) >=? 0 then _ else _).
  assert (Df : wf diff /\ 0 <= val diff < p /\ (val diff) mod p = (val m1 - val m2) mod p).
  { unfold diff, zcmp. destruct (Z.ltb_spec (val m1) (val m2)) as [L | G].
    - change (-1 >=? 0) with false. cbv iota. destruct (bn_sub_into_spec bn_zero m2 m1 B1 A1 ltac:(lia)) as (T1 & T2).
      destruct (bn_sub_into_spec bn_zero (kp key) _ Wp T1 ltac:(lia)) as (U1 & U2). rewrite U2, T2. split; [exact U1 |]. split; [lia |].
      replace (p - (val m2 - val m1)) with (val m1 - val m2 + 1 * p) by lia. by apply Z.mod_add; lia.
    - replace ((if val m1 =? val m2 then 0 else 1) >=? 0) with true by (by cases). cbv iota.
      destruct (bn_sub_into_spec bn_zero m1 m2 A1 B1 ltac:(lia)) as (T1 & T2). rewrite T2. split; [exact T1 |]. split; [lia | done]. }
  clearbody diff. destruct Df as (D1 & D2 & D3).
  destruct (bn_modmul_spec (kqinv key) diff (kp key) Wqi D1 Wp ltac:(lia) ltac:(nia)) as (H1 & H2).
  set (h := bn_modmul _ _ _) in *. clearbody h. pose proof (Z.mod_pos_bound (val (kqinv key) * val diff) p ltac:(lia)) as Rh. rewrite <- H2 in Rh.
  destruct (bn_mul_exact h (kq key) H1 Wq ltac:(nia)) as (P1 & P3).
  assert (Lt : val m2 + val h * q < n) by (rewrite En; nia).
  destruct (bn_add_spec m2 (bn_mul h (kq key)) B1 P1) as (S1 & S2); [rewrite P3; pose proof (val_range _ Wn); lia |].
  split; [exact S1 |]. rewrite S2, P3. split; [lia |]. split.
  - rewrite <- A2. rewrite <- (Z.mod_small (val m1) p) by lia. rewrite Z.add_mod, Z.mul_mod, H2, Z.mod_mod, <- Z.mul_mod by lia.
    replace (val (kqinv key) * val diff * q) with (val diff * (val (kqinv key) * q)) by ring.
    rewrite Z.mul_mod, Ei, D3, Z.mul_1_r, Z.mod_mod, <- Z.add_mod by lia. f_equal. lia.
  - rewrite Z.mod_add, B2, Z.mod_mod by lia. done.
Qed.

Lemma crt_inverse m : wf m -> val m < n -> (val (rsa_priv_op_crt m key) ^ val (ke key)) mod n = val m.
Proof.
  intros M L. destruct (crt_spec m M) as (_ & _ & Sp & Sq). cbv zeta in *. set (s := val (rsa_priv_op_crt m key)) in *. clearbody s.
  destruct key_bounds as (Q2 & P2 & En & _). destruct Ok as [_ P Q PQ _ E0 D Dp Dq _ _]. pose proof (val_range m M).
  rewrite <- (Z.mod_small (val m) n) by lia. rewrite En.
  assert (Phi : 1 < (p - 1) * (q - 1)) by nia. apply crt_eq; [done | done | lia | |].
  - rewrite <- pow_mod_pow, Sp, pow_mod_pow, Dp by lia. eapply exp_inverse; [done | lia | lia | | exact Phi | exact D]. exists (q - 1). lia.
  - rewrite <- pow_mod_pow, Sq, pow_mod_pow, Dq by lia. eapply exp_inverse; [done | lia | lia | | exact Phi | exact D]. exists (p - 1). lia.
Qed.

(** The encoded message: [k] bytes, the first of them zero. *)
Lemma em_spec k msg em : em_encode k msg = Some em ->
  62 <= k /\ zlen em = k /\ (forall i, 0 <= i < k -> 0 <= zget em i < 256) /\ zget em 0 = 0.
Proof.
  unfold em_encode. destruct (k <? T_LEN + 11) eqn:G; [done |]. zb. unfold T_LEN in *.
  assert (L : forall hash, zlen hash = 32 -> zlen ([0; 1] ++ zrep (k - 51 - 3) 255 ++ [0] ++ SHA256_DIGEST_INFO_PREFIX ++ hash) = k).
  { intros hash Lh. rewrite !zlen_app, zlen_zrep, Lh by lia.
    change (zlen [0; 1]) with 2. change (zlen [0]) with 1. change (zlen SHA256_DIGEST_INFO_PREFIX) with 19. lia. }
  assert (B : forall hash, bytes_ok hash -> bytes_ok ([0; 1] ++ zrep (k - 51 - 3) 255 ++ [0] ++ SHA256_DIGEST_INFO_PREFIX ++ hash)).
  { intros hash Bh. unfold bytes_ok. rewrite !Forall_app. split; [repeat constructor; lia |]. split; [apply Forall_replicate; lia |].
    split; [repeat constructor; lia |]. split; [unfold SHA256_DIGEST_INFO_PREFIX; repeat constructor; lia | exact Bh]. }
  assert (Z0 : forall l : list Z, zget ([0; 1] ++ l) 0 = 0) by done.
  rewrite SHA256.sha256_one_shot. specialize (L _ (SHA256.one_shot_len msg)). specialize (B _ (SHA256.one_shot_bytes msg)).
  specialize (Z0 (zrep (k - 51 - 3) 255 ++ [0] ++ SHA256_DIGEST_INFO_PREFIX ++ SHA256.one_shot msg)).
  intros E. assert (Ee : em = [0; 1] ++ zrep (k - 51 - 3) 255 ++ [0] ++ SHA256_DIGEST_INFO_PREFIX ++ SHA256.one_shot msg) by congruence.
  rewrite <- Ee in *. clear E Ee. split; [lia |]. split; [exact L |]. split; [| exact Z0]. intros i Ri.
  unfold bytes_ok in B. rewrite Forall_lookup in B. apply (B (Z.to_nat i)). apply lookup_zget. lia.
Qed.

(** The first byte of a buffer bounds its number. *)
Lemma be_val_top buf k : 1 <= k -> (forall i, 0 <= i < k -> 0 <= zget buf i < 256) -> zget buf 0 = 0 -> be_val buf k < 256 ^ (k - 1).
Proof.
  intros K R Z0. pose proof (be_val_digit buf k 0 R ltac:(lia)) as D. rewrite Z0, Z.sub_0_r in D.
  pose proof (be_val_bound buf k ltac:(lia) R) as B. pose proof (Z.pow_pos_nonneg 256 (k - 1) ltac:(lia) ltac:(lia)) as P.
  assert (E : 256 ^ k = 256 ^ (k - 1) * 256) by (replace k with (k - 1 + 1) at 1 by lia; by rewrite Z.pow_add_r by lia). rewrite E in B.
  assert (Q : 0 <= be_val buf k / 256 ^ (k - 1) < 256) by (split; [apply Z.div_pos; lia | apply Z.div_lt_upper_bound; lia]).
  rewrite Z.mod_small in D by exact Q. apply Z.div_small_iff in D; lia.
Qed.

Lemma byte_length_spec b : wf b -> 0 < val b -> let k := bn_byte_length b in 0 < k <= 576 /\ 256 ^ (k - 1) <= val b < 256 ^ k.
Proof.
  intros WF P. cbv zeta. destruct (bn_bit_length_spec b WF) as (L1 & L2 & L3). destruct (L3 P) as (L4 & L5).
  unfold bn_byte_length. set (l := bn_bit_length b) in *. clearbody l.
  pose proof (Z.div_mod (l + 7) 8 ltac:(lia)) as D. pose proof (Z.mod_pos_bound (l + 7) 8 ltac:(lia)) as M.
  split; [lia |]. change 256 with (2 ^ 8). rewrite <- !Z.pow_mul_r by lia. split.
  - etransitivity; [| exact L5]. apply Z.pow_le_mono_r; lia.
  - eapply Z.lt_le_trans; [exact L2 |]. apply Z.pow_le_mono_r; lia.
Qed.

(** What the signer writes the verifier accepts. *)
Lemma sign_verify sig sig_cap msg : let k := bn_byte_length (kn key) in 62 <= k <= sig_cap -> k <= zlen sig ->
  exists out, rsa_sign_pkcs1_sha256 sig sig_cap msg key = Some (out, k) /\
              rsa_verify_pkcs1_sha256 msg out k (kn key) (ke key) = true.
Proof.
  cbv zeta. intros K Ls. destruct key_bounds as (Q2 & P2 & En & _ & _ & N1). pose proof Ok as [(Wn & We & Wd & Wp & Wq & _) _ _ _ _ _ _ _ _ _ Fit].
  destruct (byte_length_spec (kn key) Wn ltac:(lia)) as (K1 & K2). cbv zeta in *. set (k := bn_byte_length (kn key)) in *.
  assert (K512 : k <= 512).
  { destruct (decide (k <= 512)); [done | exfalso]. assert (C : 2 ^ 4096 <= 256 ^ (k - 1)).
    { change 256 with (2 ^ 8). rewrite <- Z.pow_mul_r by lia. apply Z.pow_le_mono_r; lia. }
    assert (C2 : forall X, 0 <= X -> X <= 256 ^ (k - 1) -> X * X <= CAP) by (intros X X0 X1; clear - X0 X1 K2 Fit; nia).
    specialize (C2 (2 ^ 4096) ltac:(by apply Z.pow_nonneg) C). rewrite CAP_pow2, <- Z.pow_add_r in C2 by done.
    pose proof (proj2 (Z.pow_le_mono_r_iff 2 (4096 + 4096) 4608 eq_refl ltac:(done)) C2) as C3. done. }
  destruct (em_encode k msg) as [em |] eqn:Em.
  2: { unfold em_encode, T_LEN in Em. destruct (k <? 51 + 11) eqn:G; zb; [lia | done]. }
  destruct (em_spec _ _ _ Em) as (_ & Le & Be & Z0). destruct (bn_from_bytes_be_spec em k ltac:(lia) Be) as (M1 & M2).
  set (m := bn_from_bytes_be em k) in *. pose proof (be_val_top em k ltac:(lia) Be Z0) as Top. pose proof (val_range _ Wn) as Rn.
  pose proof (be_val_bound em k ltac:(lia) Be). rewrite Z.mod_small in M2 by lia.
  destruct (crt_spec m M1) as (S1 & S2 & _). cbv zeta in *. set (s := rsa_priv_op_crt m key) in *.
  exists (bn_to_bytes_be s sig k). split.
  - unfold rsa_sign_pkcs1_sha256. fold k. rewrite (proj2 (Z.leb_gt k 0)), Z.gtb_ltb, (proj2 (Z.ltb_ge sig_cap k)) by lia. cbn [orb].
    rewrite Em. cbn [mbind option_bind]. fold m s.
    rewrite !Z.gtb_ltb, (proj2 (Z.ltb_lt 0 (bn (kp key)))), (proj2 (Z.ltb_lt 0 (bn (kq key)))); [done | |].
    + pose proof (wf_n _ Wq). pose proof (proj1 (val_zero _ Wq)). lia.
    + pose proof (wf_n _ Wp). pose proof (proj1 (val_zero _ Wp)). lia.
  - unfold rsa_verify_pkcs1_sha256. fold k. rewrite (proj2 (Z.leb_gt k 0)), Z.eqb_refl by lia. cbn [orb negb].
    pose proof (val_range s S1). rewrite bytes_of_number by (assumption || lia). rewrite bn_cmp_spec by assumption.
    unfold zcmp. rewrite (proj2 (Z.ltb_lt _ _) S2). change (-1 >=? 0) with false. cbv iota.
    destruct (bn_modpow_spec s (ke key) (kn key) S1 We Wn N1 Fit) as (V1 & V2).
    assert (Inv : bn_modpow s (ke key) (kn key) = m).
    { apply val_inj; [exact V1 | exact M1 |]. rewrite V2. apply crt_inverse; [exact M1 | lia]. }
    rewrite Inv, Em. destruct (zfind _ _ _) as [i |] eqn:F; [exfalso | done].
    apply zfind_Some in F as (Ri & Ne & _). rewrite Z2Nat.id in Ri by lia. apply negb_true_iff, Z.eqb_neq in Ne. apply Ne.
    symmetry. apply number_of_bytes; [lia | unfold RSA_MAX_BYTES; rewrite zlen_zrep by done; lia | exact Be | lia].
Qed.

End Sign.

(** ** Random numbers *)

Lemma bit_ge x s : 0 <= s -> 0 <= x -> Z.testbit x s = true -> 2 ^ s <= x.
Proof.
  intros S X B. destruct (Z.le_gt_cases (2 ^ s) x); [done |]. rewrite (bits_above s x s) in B by lia. done.
Qed.

(** Limbs up to [l], the top one with bit [s] as its highest: the number has exactly [32 l + s + 1] bits. *)
Lemma exact_bits v l s : limbs_ok v -> 0 <= l < BN_MAX_LIMBS -> 0 <= s < 32 -> 2 ^ s <= zget v l < 2 ^ (s + 1) ->
  (forall i, l < i < BN_MAX_LIMBS -> zget v i = 0) ->
  wf (bn_trim (mk_bignum v (l + 1))) /\
  2 ^ (32 * l + s) <= val (bn_trim (mk_bignum v (l + 1))) < 2 ^ (32 * l + s + 1).
Proof.
  intros L Rl Rs T Hi. split; [apply wf_trim; [done | lia | intros; apply Hi; lia] |].
  rewrite val_trim, psum_all, (psum_zeros v (l + 1)) by (lia || (intros; apply Hi; lia)). rewrite psum_S by lia.
  destruct (psum_bound v l) as (P0 & P1); [lia | intros; apply L; lia |].
  rewrite <- Z.add_assoc, !Z.pow_add_r, Z.pow_mul_r by lia. change (2 ^ 32) with 4294967296. rewrite Z.pow_add_r in T by lia.
  pose proof (Wpow_pos l ltac:(lia)). nia.
Qed.

Section RandomSpecs.
Context (t pid : Z).

Lemma bn_rand_bits_spec bits r : 1 <= bits <= 4608 -> SHA256.rng_ok r ->
  let b := fst (bn_rand_bits t pid bits r) in
  wf b /\ 2 ^ (bits - 1) <= val b < 2 ^ bits /\ Z.odd (val b) = true /\ SHA256.rng_ok (snd (bn_rand_bits t pid bits r)).
Proof.
  intros B Ok. cbv zeta. unfold bn_rand_bits.
  assert (N0 : 0 <= (bits + 7) / 8) by (apply Z.div_pos; lia).
  destruct (SHA256.rand_bytes_spec t pid ((bits + 7) / 8) r N0 Ok) as (Lb & Bb & Ok').
  destruct (SHA256.rand_bytes t pid ((bits + 7) / 8) r) as (buf, r'). cbn [fst snd] in *. clear r Ok.
  destruct (bn_from_bytes_be_spec buf ((bits + 7) / 8)) as (W1 & _); [lia | |].
  { intros i Ri. unfold bytes_ok in Bb. rewrite Forall_lookup in Bb. apply (Bb (Z.to_nat i)), lookup_zget. lia. }
  set (b := bn_from_bytes_be buf ((bits + 7) / 8)) in *. clearbody b.
  rewrite Z.shiftr_div_pow2 by lia. change 31 with (Z.ones 5). rewrite Z.land_ones by lia. change (2 ^ 5) with 32.
  pose proof (Z.div_mod (bits - 1) 32 ltac:(lia)) as D. pose proof (Z.mod_pos_bound (bits - 1) 32 ltac:(lia)) as M.
  set (l := (bits - 1) / 32) in *. set (s := (bits - 1) mod 32) in *. clearbody l s.
  assert (Rl : 0 <= l < BN_MAX_LIMBS) by (unfold BN_MAX_LIMBS; lia). rewrite (proj2 (Z.ltb_lt l BN_MAX_LIMBS)) by lia.
  set (mask := if s =? Z.ones 5 then _ else _).
  assert (Em : mask = Z.ones (s + 1)).
  { unfold mask. change (Z.ones 5) with 31. rewrite Z.ones_equiv. destruct (Z.eqb_spec s 31) as [-> | Ne]; [done |].
    rewrite Z.shiftl_mul_pow2, Z.mul_1_l, u32_small by first [lia | split; [apply Z.pow_nonneg; lia | change 4294967296 with (2 ^ 32); apply Z.pow_lt_mono_r; lia]]. lia. }
  rewrite Em. clear mask Em. rewrite Z.land_ones, Z.shiftl_mul_pow2, Z.mul_1_l by lia.
  assert (Ps : 0 < 2 ^ s) by (apply Z.pow_pos_nonneg; lia). assert (Ps1 : 2 ^ (s + 1) = 2 * 2 ^ s) by (rewrite Z.pow_add_r by lia; change (2 ^ 1) with 2; lia).
  assert (Ws : 2 ^ (s + 1) <= 4294967296) by (change 4294967296 with (2 ^ 32); apply Z.pow_le_mono_r; lia).
  rewrite u32_small by lia. pose proof (Z.mod_pos_bound (zget (bv b) l) (2 ^ (s + 1)) ltac:(lia)) as Rx.
  set (x := zget (bv b) l mod 2 ^ (s + 1)) in *. clearbody x.
  destruct (clear_from_spec (l + 1) (zset (bv b) l x)) as (C1 & C2 & C3); [apply limbs_zset; [apply W1 | lia] | lia |].
  set (v1 := clear_from (l + 1) (zset (bv b) l x)) in *. clearbody v1.
  rewrite (C2 l), zget_zset_eq by (rewrite ?(wf_len b W1); lia).
  assert (Y : 2 ^ s <= Z.lor x (2 ^ s) < 2 ^ (s + 1)).
  { destruct (lor_bound (s + 1) x (2 ^ s)) as (Y0 & Y1); [lia | lia | lia |]. split; [| lia]. apply bit_ge; [lia | lia |].
    rewrite Z.lor_spec, Z.pow2_bits_true by lia. apply orb_true_r. }
  set (y := Z.lor x (2 ^ s)) in *. clearbody y. set (v2 := zset v1 l y).
  assert (L2 : limbs_ok v2) by (apply limbs_zset; [exact C1 | lia]).
  assert (G2 : zget v2 l = y) by (apply zget_zset_eq; destruct C1; lia).
  assert (Z2 : forall i, l < i < BN_MAX_LIMBS -> zget v2 i = 0) by (intros i Ri; unfold v2; rewrite zget_zset_ne by lia; apply C3; lia).
  clearbody v2. assert (R0 : 0 <= zget v2 0 < 4294967296) by (apply L2; done).
  assert (B0 : 0 <= Z.lor (zget v2 0) 1 < 4294967296) by (apply (lor_bound 32); lia || exact R0).
  assert (L3 : limbs_ok (zset v2 0 (Z.lor (zget v2 0) 1))) by (apply limbs_zset; [exact L2 | exact B0]).
  destruct (exact_bits (zset v2 0 (Z.lor (zget v2 0) 1)) l s L3 Rl M) as (V1 & V2).
  { destruct (decide (l = 0)) as [-> | Nl].
    - rewrite zget_zset_eq by (rewrite (proj1 L2); done). rewrite G2. split.
      + apply bit_ge; [lia | apply Z.lor_nonneg; lia |]. rewrite Z.lor_spec. apply orb_true_iff. left.
        rewrite <- (Z.mod_small y (2 ^ (s + 1))) by lia. rewrite Z.mod_pow2_bits_low by lia.
        apply Z.testbit_true; [lia |]. replace (y / 2 ^ s) with 1; [done |]. apply Z.div_unique with (y - 2 ^ s); lia.
      + apply (lor_bound (s + 1)); [lia | lia |]. change 1 with (2 ^ 0) at 2. split; [done |]. apply Z.pow_lt_mono_r; lia.
    - rewrite zget_zset_ne by lia. lia. }
  { intros i Ri. rewrite zget_zset_ne by lia. by apply Z2. }
  replace (32 * l + s) with (bits - 1) in V2 by lia. replace (bits - 1 + 1) with bits in V2 by lia.
  split; [exact V1 |]. split; [exact V2 |]. split; [| exact Ok'].
  rewrite val_trim, psum_all. set (v3 := zset v2 0 (Z.lor (zget v2 0) 1)) in *.
  assert (E : psum v3 BN_MAX_LIMBS mod 2 = zget v3 0 mod 2) by (apply psum_low; [lia | by exists 2147483648 | done]).
  assert (Od : Z.odd (zget v3 0) = true).
  { unfold v3. rewrite zget_zset_eq by (rewrite (proj1 L2); done). rewrite <- Z.bit0_odd, Z.lor_spec. apply orb_true_r. }
  rewrite !Zmod_odd, Od in E. by destruct (Z.odd (psum v3 BN_MAX_LIMBS)).
Qed.


(** ** The primality test *)

Lemma bn_small x : 0 <= x < 4294967296 -> wf (bn_set_u32 x) /\ val (bn_set_u32 x) = x.
Proof. apply bn_set_u32_spec. Qed.

Lemma cmp_eq a b : wf a -> wf b -> (bn_cmp a b =? 0) = (val a =? val b).
Proof. intros A B. rewrite bn_cmp_spec by assumption. unfold zcmp. destruct (Z.ltb_spec (val a) (val b)), (Z.eqb_spec (val a) (val b)); lia || done. Qed.

Lemma cmp_lt a b : wf a -> wf b -> (bn_cmp a b <? 0) = (val a <? val b).
Proof. intros A B. rewrite bn_cmp_spec by assumption. unfold zcmp. destruct (Z.ltb_spec (val a) (val b)), (Z.eqb_spec (val a) (val b)); lia || done. Qed.

Lemma cmp_ge a b : wf a -> wf b -> (bn_cmp a b >=? 0) = (val b <=? val a).
Proof. intros A B. rewrite bn_cmp_spec by assumption. unfold zcmp. destruct (Z.ltb_spec (val a) (val b)), (Z.eqb_spec (val a) (val b)), (Z.leb_spec (val b) (val a)); lia || done. Qed.

(** A prime is never taken for a multiple of a smaller one. *)
Lemma filter_prime small n : wf n -> Z.prime (val n) -> Forall (fun p => 2 <= p < 4294967296) small ->
  small_prime_filter small n <> 0.
Proof.
  intros N P. induction 1 as [| p l Rp F IH]; cbn [small_prime_filter]; [done |].
  destruct (bn_small p ltac:(lia)) as (S1 & S2). rewrite cmp_eq, S2 by assumption.
  destruct (Z.eqb_spec (val n) p) as [| Ne]; [done |].
  destruct (bn_mod_spec n (bn_set_u32 p) N S1) as (M1 & M2); [rewrite S2; lia |].
  rewrite bn_is_zero_spec, M2, S2 by assumption. destruct (Z.eqb_spec (val n mod p) 0) as [Z0 | Nz]; [| exact IH]. exfalso.
  apply Z.mod_divide in Z0; [| lia]. destruct P as (G & P). assert (p <= val n) by (apply Z.divide_pos_le; [lia | exact Z0]).
  apply (P p); [lia | exact Z0].
Qed.

Section Prime.
Context (n n1 : bignum) (N : wf n) (N1 : wf n1) (P : Z.prime (val n)) (E1 : val n1 = val n - 1) (Fit : val n * val n <= CAP).

(** Squaring from a number that is neither 1 nor -1 and whose power is 1 meets -1. *)
Lemma square_loop_prime k x : wf x -> 0 <= val x < val n -> val x <> 1 -> val x <> val n - 1 ->
  (val x ^ (2 ^ (Z.of_nat k + 1))) mod val n = 1 -> square_loop k x n1 n = true.
Proof.
  pose proof (Z.prime_ge_2 _ P) as G. revert x. induction k as [|k IH]; intros x X R N1x N2x E; cbn [square_loop].
  - change (2 ^ (Z.of_nat 0 + 1)) with 2 in E. rewrite Z.pow_2_r in E. destruct (sqrt_one _ _ P R E); contradiction.
  - rewrite bn_copy_id. destruct (bn_modmul_spec x x n X X N ltac:(lia) ltac:(nia)) as (Y1 & Y2).
    set (y := bn_modmul x x n) in *. clearbody y. pose proof (Z.mod_pos_bound (val x * val x) (val n) ltac:(lia)) as Ry. rewrite <- Y2 in Ry.
    rewrite cmp_eq by assumption. destruct (Z.eqb_spec (val y) (val n1)) as [| Ne]; [done |].
    apply IH; [exact Y1 | exact Ry | | lia |].
    + intros Y. rewrite Y in Y2. destruct (sqrt_one _ _ P R (eq_sym Y2)); contradiction.
    + rewrite Y2, pow_mod_pow by (lia || apply Z.pow_nonneg; lia). rewrite <- Z.pow_2_r, <- Z.pow_mul_r by (lia || apply Z.pow_nonneg; lia).
      rewrite <- Z.pow_succ_r by lia. rewrite <- E. do 2 f_equal. f_equal. lia.
Qed.

Lemma composite_prime a d s : wf a -> wf d -> 0 < val a < val n -> (0 < s)%nat -> val n - 1 = val d * 2 ^ Z.of_nat s ->
  composite_by a d s n1 n = false.
Proof.
  intros A D Ra S Ed. pose proof (Z.prime_ge_2 _ P) as G. unfold composite_by. destruct (bn_small 1 ltac:(lia)) as (O1 & O2).
  destruct (bn_modpow_spec a d n A D N ltac:(lia) Fit) as (X1 & X2). set (x := bn_modpow a d n) in *. clearbody x.
  pose proof (Z.mod_pos_bound (val a ^ val d) (val n) ltac:(lia)) as Rx. rewrite <- X2 in Rx.
  rewrite !cmp_eq, O2 by assumption. destruct (Z.eqb_spec (val x) 1) as [| Nx1]; [done |]. destruct (Z.eqb_spec (val x) (val n1)) as [| Nx2]; [done |].
  cbn [orb]. rewrite square_loop_prime; [done | exact X1 | exact Rx | exact Nx1 | lia |].
  replace (Z.of_nat (s - 1) + 1) with (Z.of_nat s) by lia. pose proof (val_range d D).
  rewrite X2, pow_mod_pow by (lia || apply Z.pow_nonneg; lia). rewrite <- Z.pow_mul_r, <- Ed by (lia || apply Z.pow_nonneg; lia).
  apply Z.fermat_nz; [exact P |]. rewrite Z.mod_small; lia.
Qed.

Lemma pick_witness_spec r : 4 < val n -> SHA256.rng_ok r ->
  let a := fst (pick_witness t pid n n1 r) in wf a /\ 1 < val a < val n - 1 /\ SHA256.rng_ok (snd (pick_witness t pid n n1 r)).
Proof.
  intros G Ok. cbv zeta. unfold pick_witness. destruct (bn_bit_length_spec n N) as (L1 & L2 & L3). destruct (L3 ltac:(lia)) as (L4 & L5).
  assert (2 < bn_bit_length n). { apply (Z.pow_lt_mono_r_iff 2); [lia | lia |]. change (2 ^ 2) with 4. lia. }
  destruct (bn_rand_bits_spec (bn_bit_length n - 1) r ltac:(lia) Ok) as (A1 & A2 & _ & Ok'). cbv zeta in *.
  destruct (bn_rand_bits t pid (bn_bit_length n - 1) r) as (a, r'). cbn [fst snd] in *.
  destruct (bn_small 2 ltac:(lia)) as (T1 & T2).
  set (a1 := if bn_is_zero a then bn_set_u32 2 else a).
  assert (W1 : wf a1) by (unfold a1; by destruct (bn_is_zero a)). clearbody a1.
  set (a2 := if bn_cmp a1 (bn_set_u32 2) <? 0 then bn_set_u32 2 else a1).
  assert (W2 : wf a2 /\ 2 <= val a2). { unfold a2. rewrite cmp_lt, T2 by assumption. destruct (Z.ltb_spec (val a1) 2); split; assumption || lia. }
  clearbody a2. rewrite cmp_ge by apply W2 || assumption. destruct (Z.leb_spec (val n1) (val a2)).
  - split; [exact T1 |]. split; [lia | exact Ok'].
  - split; [apply W2 |]. split; [lia | exact Ok'].
Qed.

Lemma rounds_prime k d s r : 4 < val n -> wf d -> (0 < s)%nat -> val n - 1 = val d * 2 ^ Z.of_nat s -> SHA256.rng_ok r ->
  fst (rounds_loop t pid k d s n1 n r) = true /\ SHA256.rng_ok (snd (rounds_loop t pid k d s n1 n r)).
Proof.
  intros G D S Ed. revert r. induction k as [|k IH]; intros r Ok; cbn [rounds_loop]; [by split |].
  destruct (pick_witness_spec r G Ok) as (A1 & A2 & Ok'). cbv zeta in *. destruct (pick_witness t pid n n1 r) as (a, r'). cbn [fst snd] in *.
  rewrite (composite_prime a d s) by (assumption || lia). by apply IH.
Qed.

End Prime.

Lemma strip_twos_spec fuel d s : wf d -> 0 < val d < 2 ^ Z.of_nat fuel ->
  exists d' i, strip_twos fuel d s = Some (d', (s + i)%nat) /\ wf d' /\ val d = val d' * 2 ^ Z.of_nat i /\ (Z.odd (val d) = false -> (0 < i)%nat).
Proof.
  revert d s. induction fuel as [|k IH]; intros d s D R; [change (2 ^ Z.of_nat 0) with 1 in R; lia |].
  cbn [strip_twos]. rewrite bn_is_odd_spec by done. destruct (Z.odd (val d)) eqn:O.
  - exists d, 0%nat. rewrite Nat.add_0_r. change (2 ^ Z.of_nat 0) with 1. rewrite Z.mul_1_r.
    split; [reflexivity |]. split; [assumption |]. split; [reflexivity | discriminate].
  - destruct (bn_rshift1_spec d D) as (D' & E). destruct (even_half (val d)) as (H1 & H2); [lia | done |].
    rewrite Nat2Z.inj_succ, Z.pow_succ_r in R by lia. destruct (IH (bn_rshift1 d) (S s) D') as (d' & i & -> & V1 & V2 & _); [lia |].
    exists d', (S i). rewrite <- Nat.add_succ_comm. split; [done |]. split; [done |]. split; [| lia].
    rewrite Nat2Z.inj_succ, Z.pow_succ_r by lia. rewrite E in V2. lia.
Qed.

(** A prime is always accepted. *)
Lemma bn_is_prime_complete fuel n rounds r : 4608 <= Z.of_nat fuel -> wf n -> Z.prime (val n) -> val n * val n <= CAP -> SHA256.rng_ok r ->
  exists r', bn_is_prime t pid fuel n rounds r = Some (true, r') /\ SHA256.rng_ok r'.
Proof.
  intros F N P Fit Ok. pose proof (Z.prime_ge_2 _ P) as G. unfold bn_is_prime.
  destruct (bn_small 2 ltac:(lia)) as (T1 & T2). destruct (bn_small 3 ltac:(lia)) as (H1 & H2). destruct (bn_small 1 ltac:(lia)) as (O1 & O2).
  rewrite cmp_lt, !cmp_eq, T2, H2 by assumption. rewrite (proj2 (Z.ltb_ge (val n) 2)) by lia.
  destruct (Z.eqb_spec (val n) 2) as [| N2]; [exists r; split; [reflexivity | exact Ok] |]. destruct (Z.eqb_spec (val n) 3) as [| N3]; [exists r; split; [reflexivity | exact Ok] |].
  assert (Od : Z.odd (val n) = true).
  { destruct (Z.odd (val n)) eqn:O; [done |]. exfalso. destruct (even_half (val n) ltac:(lia) O) as (E & _).
    apply (proj2 P 2); [lia | exists (val n / 2); lia]. }
  rewrite bn_is_odd_spec, Od by assumption. cbn [negb].
  pose proof (filter_prime small_primes n N P) as Fp.
  destruct (small_prime_filter small_primes n >=? 0) eqn:Fl.
  { rewrite (proj2 (Z.eqb_neq _ 0)); [exists r; split; [reflexivity | exact Ok] |]. apply Fp. unfold small_primes. repeat constructor; lia. }
  destruct (bn_sub_into_spec bn_zero n (bn_set_u32 1) N O1 ltac:(lia)) as (S1 & S2). rewrite O2 in S2.
  set (n1 := bn_sub_into bn_zero n (bn_set_u32 1)) in *. clearbody n1. rewrite bn_copy_id. pose proof (val_range n1 S1) as R1.
  assert (Cf : CAP <= 2 ^ Z.of_nat fuel) by (rewrite CAP_pow2; apply Z.pow_le_mono_r; lia).
  destruct (strip_twos_spec fuel n1 0 S1 ltac:(lia)) as (d & i & -> & D1 & D2 & D3). cbn [mbind option_bind]. rewrite Nat.add_0_l.
  assert (Pi : (0 < i)%nat) by (apply D3; rewrite S2, Z.odd_sub, Od; reflexivity).
  assert (Ne : val n <> 4) by (intros E; rewrite E in Od; done).
  destruct (rounds_prime n n1 N S1 P S2 Fit rounds d i r) as (V1 & V2); [lia | exact D1 | exact Pi | lia | exact Ok |].
  destruct (rounds_loop t pid rounds d i n1 n r) as (res, r'). cbn [fst snd] in *. exists r'. rewrite V1. split; [reflexivity | exact V2].
Qed.

End RandomSpecs.

(** ** Key generation *)

(** The public exponent 65537 is a Fermat prime. *)
Lemma prime_65537 : Z.prime 65537.
Proof.
  change 65537 with (1 * 2 ^ 16 + 1). apply (proth 1 16 3); [lia | lia |].
  rewrite <- (Zpow_mod_correct 3 _ (1 * 2 ^ 16 + 1)) by lia. vm_compute. reflexivity.
Qed.

Section Turn.
Context (fuel : nat) (bits : Z) (p q : bignum).
Context (Fuel : 9218 <= Z.of_nat fuel) (Wp : wf p) (Wq : wf q) (P : Z.prime (val p)) (Q : Z.prime (val q)).
Context (G : 2 < val q) (PQ : val q < val p) (Fit : val p * val q < 2 ^ 4096).

(** The part of a turn after the primes are ordered. *)
Lemma turn_ordered : bits <= bn_bit_length (bn_mul p q) -> ((val p - 1) * (val q - 1)) mod 65537 <> 0 ->
  exists key, keygen_turn fuel bits p q = Some (Some key) /\ kn key = bn_mul p q /\ val (kn key) = val p * val q /\
    (val (kn key) * val (kn key) <= CAP -> key_ok key).
Proof.
  intros Bits Ne. assert (C : 2 ^ 4096 < CAP) by (rewrite CAP_pow2; by apply Z.pow_lt_mono_r).
  destruct (bn_mul_exact p q Wp Wq ltac:(lia)) as (N1 & N2). destruct (bn_small 1 ltac:(lia)) as (O1 & O2). destruct (bn_small 65537 ltac:(lia)) as (E1 & E2).
  destruct (bn_sub_into_spec bn_zero p (bn_set_u32 1) Wp O1 ltac:(lia)) as (P1 & P2). destruct (bn_sub_into_spec bn_zero q (bn_set_u32 1) Wq O1 ltac:(lia)) as (Q1 & Q2).
  rewrite O2 in P2, Q2. set (p1 := bn_sub_into bn_zero p (bn_set_u32 1)) in *. set (q1 := bn_sub_into bn_zero q (bn_set_u32 1)) in *.
  destruct (bn_mul_exact p1 q1 P1 Q1) as (F1 & F2); [rewrite P2, Q2; nia |].
  destruct (bn_mod_spec (bn_mul p1 q1) (bn_set_u32 65537) F1 E1) as (M1 & M2); [rewrite E2; lia |].
  assert (Phi : 1 < val (bn_mul p1 q1)) by (rewrite F2, P2, Q2; nia).
  assert (Cop : Z.gcd 65537 (val (bn_mul p1 q1)) = 1).
  { apply (Z.coprime_prime_l 65537 _ prime_65537). intros D. apply Ne. rewrite <- P2, <- Q2, <- F2. apply Z.mod_divide; [lia | exact D]. }
  destruct (bn_modinv_spec fuel (bn_set_u32 65537) (bn_mul p1 q1) Fuel E1 F1 Phi) as [(_ & d & Ed & D1 & D2 & D3) | (Bad & _)]; [| rewrite E2 in Bad; contradiction].
  assert (Cpq : Z.gcd (val q) (val p) = 1).
  { apply (Z.coprime_prime_l (val q) _ Q). intros D. apply Z.divide_prime_prime in D; [lia | exact Q | exact P]. }
  destruct (bn_modinv_spec fuel q p Fuel Wq Wp ltac:(lia)) as [(_ & qi & Ei & I1 & I2 & I3) | (Bad & _)]; [| contradiction].
  destruct (bn_mod_spec d p1 D1 P1 ltac:(lia)) as (U1 & U2). destruct (bn_mod_spec d q1 D1 Q1 ltac:(lia)) as (V1 & V2).
  exists (mk_key (bn_mul p q) (bn_set_u32 65537) d p q (bn_mod d p1) (bn_mod d q1) qi). split.
  - unfold keygen_turn. rewrite cmp_eq, cmp_lt by assumption. rewrite (proj2 (Z.eqb_neq (val p) (val q))), (proj2 (Z.ltb_ge (val p) (val q))) by lia.
    rewrite (proj2 (Z.ltb_ge _ bits)) by lia. fold p1 q1. rewrite bn_is_zero_spec, M2, E2 by assumption.
    rewrite (proj2 (Z.eqb_neq _ 0)) by (rewrite F2, P2, Q2; exact Ne). rewrite Ed. cbn [mbind option_bind]. rewrite Ei. reflexivity.
  - cbn [kn]. split; [reflexivity |]. split; [exact N2 |]. intros Sq.
    split; cbn [kn ke kd kp kq kdp kdq kqinv].
    + do 7 (split; [assumption |]). assumption.
    + exact P.
    + exact Q.
    + lia.
    + exact N2.
    + rewrite E2. lia.
    + rewrite E2, F2, P2, Q2, (Z.mul_comm (val d)) in D3. rewrite E2. exact D3.
    + rewrite U2, P2. reflexivity.
    + rewrite V2, Q2. reflexivity.
    + split; [exact I2 | exact I3].
    + exact Sq.
Qed.

End Turn.

(** ** Properties *)

(** Primes whose primality is computed: h * 2^k + 1 with an [a] of order 2^k (Proth). *)
Definition proth_check (h k a : Z) : bool :=
  (0 <? h) && (h <? 2 ^ k) && (0 <? k) && (Zpow_mod a (h * 2 ^ (k - 1)) (h * 2 ^ k + 1) =? h * 2 ^ k).

Lemma proth_ok h k a : proth_check h k a = true -> Z.prime (h * 2 ^ k + 1).
Proof.
  unfold proth_check. intros C. zb. apply (proth h k a); [lia | lia |]. rewrite <- Zpow_mod_correct by nia. assumption.
Qed.

Definition demo_p : Z := (2 ^ 116 - 225) * 2 ^ 140 + 1.
Definition demo_q : Z := (2 ^ 116 - 403) * 2 ^ 140 + 1.

Lemma demo_p_prime : Z.prime demo_p.
Proof. apply (proth_ok (2 ^ 116 - 225) 140 3). vm_compute. reflexivity. Qed.

Lemma demo_q_prime : Z.prime demo_q.
Proof. apply (proth_ok (2 ^ 116 - 403) 140 17). vm_compute. reflexivity. Qed.

Lemma of_Z_fits z : (0 <=? z) && (z <? 2 ^ 4096) = true -> wf (of_Z z) /\ val (of_Z z) = z.
Proof.
  intros E. zb. apply of_Z_spec. split; [lia |]. rewrite CAP_pow2. transitivity (2 ^ 4096); [lia | by apply Z.pow_lt_mono_r].
Qed.

(** C35. bn_is_prime accepts every prime whose square fits in the 4608 bits of a bignum, that is any prime of up to 2304
    bits: neither the division by the small primes nor any of the random rounds of Miller and Rabin rejects it, whatever
    the random generator gives. Above that size bn_mul truncates and nothing is said. *)
Theorem bn_is_prime_accepts (t pid : Z) (fuel : nat) (n : bignum) (rounds : nat) (r : SHA256.rng) :
  4608 <= Z.of_nat fuel -> wf n -> Z.prime (val n) -> val n * val n <= CAP -> SHA256.rng_ok r ->
  exists r', bn_is_prime t pid fuel n rounds r = Some (true, r') /\ SHA256.rng_ok r'.
Proof. apply bn_is_prime_complete. Qed.

Lemma bn_is_prime_accepts_witness : exists r', bn_is_prime 5 7 (Z.to_nat 4608) (of_Z demo_p) 8 SHA256.rng_boot = Some (true, r') /\ SHA256.rng_ok r'.
Proof.
  destruct (of_Z_fits demo_p ltac:(vm_compute; reflexivity)) as (W1 & V1).
  apply (bn_is_prime_accepts 5 7 (Z.to_nat 4608) (of_Z demo_p) 8 SHA256.rng_boot).
  - rewrite Z2Nat.id; lia.
  - exact W1.
  - rewrite V1. exact demo_p_prime.
  - rewrite V1, CAP_pow2. vm_compute. discriminate.
  - repeat split; vm_compute; discriminate || reflexivity.
Defined.

(** C36. Once the primes p > q are drawn, a turn of rsa_keygen makes a key whenever n has the wanted bits and 65537 does
    not divide phi, and every message signed with that key by the CRT path verifies against (n, e). *)
Theorem rsa_sign_verify (fuel : nat) (bits : Z) (p q : bignum) (sig msg : list Z) (sig_cap : Z) :
  9218 <= Z.of_nat fuel -> wf p -> wf q -> Z.prime (val p) -> Z.prime (val q) -> 2 < val q < val p ->
  val p * val q * (val p * val q) <= CAP -> bits <= bn_bit_length (bn_mul p q) -> ((val p - 1) * (val q - 1)) mod 65537 <> 0 ->
  let k := bn_byte_length (bn_mul p q) in
  62 <= k <= sig_cap -> k <= zlen sig ->
  exists key out, keygen_turn fuel bits p q = Some (Some key) /\
    rsa_sign_pkcs1_sha256 sig sig_cap msg key = Some (out, k) /\
    rsa_verify_pkcs1_sha256 msg out k (kn key) (ke key) = true.
Proof.
  intros F Wp Wq P Q (Q2 & PQ) Fit Bits Ne k K L.
  assert (Small : val p * val q < 2 ^ 4096).
  { rewrite CAP_pow2 in Fit. destruct (Z.lt_ge_cases (val p * val q) (2 ^ 4096)); [done | exfalso].
    assert (Sq : 2 ^ 4096 * 2 ^ 4096 <= val p * val q * (val p * val q)) by (apply Z.mul_le_mono_nonneg; try apply Z.pow_nonneg; done).
    rewrite <- Z.pow_add_r in Sq by done. assert (Sq2 : 2 ^ (4096 + 4096) <= 2 ^ 4608) by (etransitivity; [exact Sq | exact Fit]).
    by apply (proj2 (Z.pow_le_mono_r_iff 2 (4096 + 4096) 4608 eq_refl ltac:(done))) in Sq2. }
  destruct (turn_ordered fuel bits p q F Wp Wq P Q Q2 PQ Small Bits Ne) as (key & E & Ek & En & Ok).
  assert (Ok' : key_ok key) by (apply Ok; rewrite En; exact Fit). unfold k in *. rewrite <- Ek in *.
  destruct (sign_verify key Ok' sig sig_cap msg K L) as (out & S & V). exists key, out. split; [exact E | split; [exact S | exact V]].
Qed.

Lemma rsa_sign_verify_witness : let k := bn_byte_length (bn_mul (of_Z demo_p) (of_Z demo_q)) in
  exists key out, keygen_turn (Z.to_nat 9218) 512 (of_Z demo_p) (of_Z demo_q) = Some (Some key) /\
    rsa_sign_pkcs1_sha256 (zrep 512 0) 512 [104; 105] key = Some (out, k) /\
    rsa_verify_pkcs1_sha256 [104; 105] out k (kn key) (ke key) = true.
Proof.
  destruct (of_Z_fits demo_p ltac:(vm_compute; reflexivity)) as (W1 & V1). destruct (of_Z_fits demo_q ltac:(vm_compute; reflexivity)) as (W2 & V2).
  apply (rsa_sign_verify (Z.to_nat 9218) 512 (of_Z demo_p) (of_Z demo_q) (zrep 512 0) [104; 105] 512); rewrite ?V1, ?V2.
  - rewrite Z2Nat.id; lia.
  - exact W1.
  - exact W2.
  - exact demo_p_prime.
  - exact demo_q_prime.
  - split; vm_compute; reflexivity.
  - rewrite CAP_pow2. vm_compute. discriminate.
  - vm_compute. discriminate.
  - vm_compute. discriminate.
  - split; vm_compute; discriminate.
  - vm_compute. discriminate.
Defined.

End RSA.
