(* ===== verification/Json.v ===== *)
(** The JSON encoder of src/libjson/libjson.c.

    [JSON] holds the writer state (struct json_w), the builder calls, JSON
    values and the client that walks a value with the builder, and the text of
    a value.  A byte is a [Z] in [0, 256); a C string is the list of its bytes
    before the terminator.  JsonParse.v holds the parser. *)
From Stdlib Require Import ZArith Lia String Ascii.
From stdpp Require Import base numbers list.
From S2P Require Import Prelude.

#[local] Set Warnings "-register-all".

Module JSON.

(** The bytes of a literal. *)
Definition codes (s : string) : list Z := (fun a => Z.of_N (N_of_ascii a)) <$> list_ascii_of_string s.

Definition JSON_W_MAX_DEPTH : Z := 32.

(** struct json_w; [first] holds 0 or 1 per level, [ok] and [expect_value] are the flags. *)
Record json_w := mk_w
  { buf : list Z; cap : Z; len : Z; ok : bool; depth : Z; first : list Z; expect_value : bool }.

Definition set_ok (w : json_w) (b : bool) : json_w :=
  mk_w (buf w) (cap w) (len w) b (depth w) (first w) (expect_value w).
Definition set_expect (w : json_w) (b : bool) : json_w :=
  mk_w (buf w) (cap w) (len w) (ok w) (depth w) (first w) b.
Definition set_first (w : json_w) (d x : Z) : json_w :=
  mk_w (buf w) (cap w) (len w) (ok w) (depth w) (zset (first w) d x) (expect_value w).
Definition set_depth (w : json_w) (d : Z) : json_w :=
  mk_w (buf w) (cap w) (len w) (ok w) d (first w) (expect_value w).

Definition put_char (w : json_w) (c : Z) : json_w :=
  if negb (ok w) then w else
  if len w + 1 >? cap w then set_ok w false else
  mk_w (zset (buf w) (len w) c) (cap w) (len w + 1) (ok w) (depth w) (first w) (expect_value w).

(** The copy loop of put_n. *)
Definition copy_in (b : list Z) (at_ : Z) (s : list Z) : list Z :=
  zfor (length s) 0 (fun i b => zset b (at_ + i) (zget s i)) b.

Definition put_n (w : json_w) (s : list Z) : json_w :=
  if negb (ok w) then w else
  if len w + zlen s >? cap w then set_ok w false else
  mk_w (copy_in (buf w) (len w) s) (cap w) (len w + zlen s) (ok w) (depth w) (first w) (expect_value w).

Fixpoint my_strlen (s : list Z) : Z :=
  match s with [] => 0 | c :: r => if c =? 0 then 0 else 1 + my_strlen r end.

Definition hex_digit (c : Z) : Z :=
  if (48 <=? c) && (c <=? 57) then c - 48
  else if (97 <=? c) && (c <=? 102) then 10 + c - 97
  else if (65 <=? c) && (c <=? 70) then 10 + c - 65
  else -1.

Definition pre_emit (w : json_w) : json_w :=
  if negb (ok w) then w else
  if depth w =? 0 then w else
  let d := depth w - 1 in
  if expect_value w then set_expect w false
  else if negb (zget (first w) d =? 0) then set_first w d 0
  else put_char w 44.

Definition hex : list Z := codes "0123456789abcdef".

(** One turn of the loop of put_escaped_str: the switch on the byte. *)
Definition put_escaped_char (w : json_w) (c : Z) : json_w :=
  if c =? 34 then put_n w [92; 34]
  else if c =? 92 then put_n w [92; 92]
  else if c =? 8 then put_n w [92; 98]
  else if c =? 12 then put_n w [92; 102]
  else if c =? 10 then put_n w [92; 110]
  else if c =? 13 then put_n w [92; 114]
  else if c =? 9 then put_n w [92; 116]
  else if c <? 32 then
    put_n w [92; 117; 48; 48; zget hex (Z.land (Z.shiftr c 4) 15); zget hex (Z.land c 15)]
  else put_char w c.

(** The [n] bytes at [s] are the list. *)
Definition put_escaped_str (w : json_w) (s : list Z) : json_w :=
  put_char (foldl put_escaped_char (put_char w 34) s) 34.

Definition json_w_init (b : list Z) (cap : Z) : json_w :=
  mk_w b cap 0 true 0 (zrep JSON_W_MAX_DEPTH 0) false.

Definition json_w_finish (w : json_w) : json_w :=
  if negb (ok w) then w else
  if len w <? cap w then mk_w (zset (buf w) (len w) 0) (cap w) (len w) (ok w) (depth w) (first w) (expect_value w)
  else set_ok (mk_w (zset (buf w) (cap w - 1) 0) (cap w) (len w) (ok w) (depth w) (first w) (expect_value w)) false.

Definition json_obj_begin (w : json_w) : json_w :=
  if depth w >=? JSON_W_MAX_DEPTH then set_ok w false else
  let w := put_char (pre_emit w) 123 in
  let w := set_first w (depth w) 1 in
  set_depth w (depth w + 1).

Definition json_obj_end (w : json_w) : json_w :=
  if depth w =? 0 then set_ok w false else put_char (set_depth w (depth w - 1)) 125.

Definition json_arr_begin (w : json_w) : json_w :=
  if depth w >=? JSON_W_MAX_DEPTH then set_ok w false else
  let w := put_char (pre_emit w) 91 in
  let w := set_first w (depth w) 1 in
  set_depth w (depth w + 1).

Definition json_arr_end (w : json_w) : json_w :=
  if depth w =? 0 then set_ok w false else put_char (set_depth w (depth w - 1)) 93.

Definition json_key (w : json_w) (key : list Z) : json_w :=
  let w := put_escaped_str (pre_emit w) (ztake (my_strlen key) key) in
  set_expect (put_char w 58) true.

Definition json_str_n (w : json_w) (s : list Z) : json_w := put_escaped_str (pre_emit w) s.

Definition json_str (w : json_w) (s : list Z) : json_w := json_str_n w (ztake (my_strlen s) s).

(** [while (u) { tmp[ti++] = '0' + u % 10; u /= 10; }] *)
Fixpoint dec_rev (fuel : nat) (u : Z) : list Z :=
  match fuel with
  | O => []
  | S k => if u =? 0 then [] else (48 + u mod 10) :: dec_rev k (u / 10)
  end.

(** The digits in [tmp], which has room for 12. *)
Definition dec_tmp (u : Z) : list Z := if u =? 0 then [48] else dec_rev 12 u.

Definition put_dec (w : json_w) (u : Z) (neg : bool) : json_w :=
  let w := if neg then put_char w 45 else w in
  foldl put_char w (reverse (dec_tmp u)).

Definition json_int (w : json_w) (v : Z) : json_w :=
  let w := pre_emit w in
  if v <? 0 then put_dec w (u32 (- v)) true else put_dec w (u32 v) false.

Definition json_uint (w : json_w) (v : Z) : json_w := put_dec (pre_emit w) v false.

Definition json_bool (w : json_w) (b : bool) : json_w :=
  let w := pre_emit w in if b then put_n w (codes "true") else put_n w (codes "false").

Definition json_null (w : json_w) : json_w := put_n (pre_emit w) (codes "null").

Definition json_raw (w : json_w) (s : list Z) : json_w := put_n (pre_emit w) s.

(** ** Values and their text *)

Inductive json :=
  | JNull
  | JBool (b : bool)
  | JNum (z : Z)
  | JStr (s : list Z)
  | JArr (l : list json)
  | JObj (l : list (list Z * json)).

(** A client that writes a value with the builder calls. *)
Fixpoint emit (v : json) (w : json_w) : json_w :=
  match v with
  | JNull => json_null w
  | JBool b => json_bool w b
  | JNum z => json_int w z
  | JStr s => json_str_n w s
  | JArr l => json_arr_end (foldl (fun w x => emit x w) (json_arr_begin w) l)
  | JObj l => json_obj_end (foldl (fun w kv => emit (snd kv) (json_key w (fst kv))) (json_obj_begin w) l)
  end.

Definition esc (c : Z) : list Z :=
  if c =? 34 then [92; 34]
  else if c =? 92 then [92; 92]
  else if c =? 8 then [92; 98]
  else if c =? 12 then [92; 102]
  else if c =? 10 then [92; 110]
  else if c =? 13 then [92; 114]
  else if c =? 9 then [92; 116]
  else if c <? 32 then [92; 117; 48; 48; zget hex (c / 16); zget hex (c mod 16)]
  else [c].

Definition quote (s : list Z) : list Z := 34 :: concat (esc <$> s) ++ [34].

Definition digits (u : Z) : list Z := reverse (dec_tmp u).

Definition num (z : Z) : list Z := if z <? 0 then 45 :: digits (- z) else digits z.

(** The items of a container from the second one on. *)
Definition more (items : list (list Z)) : list Z := concat (cons 44 <$> items).

Definition commas (items : list (list Z)) : list Z :=
  match items with [] => [] | x :: r => x ++ more r end.

Fixpoint text (v : json) : list Z :=
  match v with
  | JNull => codes "null"
  | JBool b => if b then codes "true" else codes "false"
  | JNum z => num z
  | JStr s => quote s
  | JArr l => 91 :: commas (text <$> l) ++ [93]
  | JObj l => 123 :: commas ((fun kv => quote (fst kv) ++ 58 :: text (snd kv)) <$> l) ++ [125]
  end.

(** Levels of containers. *)
Fixpoint height (v : json) : Z :=
  match v with
  | JArr l => 1 + foldr (fun x m => Z.max (height x) m) 0 l
  | JObj l => 1 + foldr (fun kv m => Z.max (height (snd kv)) m) 0 l
  | _ => 0
  end.

Definition is_byte (c : Z) : bool := (0 <=? c) && (c <? 256).

(** Values a C caller can hand to the encoder: int numbers, byte strings, keys without a NUL byte. *)
Fixpoint encodable (v : json) : bool :=
  match v with
  | JNum z => (-2147483648 <? z) && (z <? 2147483648)
  | JStr s => forallb is_byte s
  | JArr l => forallb encodable l
  | JObj l => forallb (fun kv => forallb (fun c => is_byte c && negb (c =? 0)) (fst kv) && encodable (snd kv)) l
  | _ => true
  end.

Section Induction.
Variable P : json -> Prop.
Hypotheses (HN : P JNull) (HB : forall b, P (JBool b)) (HZ : forall z, P (JNum z)) (HS : forall s, P (JStr s))
  (HA : forall l, Forall P l -> P (JArr l)) (HO : forall l, Forall (fun kv => P (snd kv)) l -> P (JObj l)).

Lemma json_ind' v : P v.
Proof.
  revert v. fix IH 1. intros [| b | z | s | l | l]; [exact HN | apply HB | apply HZ | apply HS | |].
  - apply HA. induction l as [| x l IHl]; constructor; [apply IH | exact IHl].
  - apply HO. induction l as [| x l IHl]; constructor; [apply IH | exact IHl].
Qed.
End Induction.

Example encode_small :
  let v := JObj [(codes "id", JNum (-7)); (codes "tags", JArr [JStr (codes "a\b"); JNull; JBool true])] in
  let w := emit v (json_w_init (zrep 64 0) 64) in
  (ok w, ztake (len w) (buf w)) = (true, text v).
Proof. vm_compute. reflexivity. Qed.

(** ** What a writer operation does *)

(** What has been written. *)
Definition out (w : json_w) : list Z := ztake (len w) (buf w).

(** The buffer has its size and the length stays within it. *)
Definition buf_ok (w : json_w) : Prop := 0 <= len w <= cap w /\ zlen (buf w) = cap w.

(** Going from [w] to [w'] appends [s] when it fits, and clears [ok] for good otherwise. *)
Definition puts (w w' : json_w) (s : list Z) : Prop :=
  buf_ok w' /\ cap w' = cap w /\
  if ok w && (len w + zlen s <=? cap w) then ok w' = true /\ out w' = out w ++ s else ok w' = false.

(** The nesting state is the same. *)
Definition same_nest (w w' : json_w) : Prop :=
  depth w' = depth w /\ first w' = first w /\ expect_value w' = expect_value w.

Definition nest_ok (w : json_w) : Prop := 0 <= depth w <= JSON_W_MAX_DEPTH /\ zlen (first w) = JSON_W_MAX_DEPTH.

Lemma out_len w : buf_ok w -> zlen (out w) = len w.
Proof. intros [L B]. unfold out. rewrite zlen_ztake; lia. Qed.

Lemma puts_len w w' s : buf_ok w -> puts w w' s -> ok w' = true -> len w' = len w + zlen s.
Proof.
  intros B (B' & C & P) O. destruct (_ && _) eqn:E; [| congruence].
  destruct P as [_ P]. apply (f_equal zlen) in P. rewrite zlen_app, !out_len in P by done. lia.
Qed.

Lemma puts_sticky w w' s : puts w w' s -> ok w' = true -> ok w = true.
Proof. intros (_ & _ & P) O. destruct (ok w); [done |]. simpl in P. congruence. Qed.

Lemma puts_nil w : buf_ok w -> puts w w [].
Proof.
  intros B. split; [done | split; [done |]]. destruct (ok w) eqn:O; [| done]. simpl.
  rewrite (proj2 (Z.leb_le _ _)) by (unfold zlen; simpl; destruct B; lia). by rewrite app_nil_r.
Qed.

(** Composition: once the first part does not fit, the rest only has to keep [ok] cleared. *)
Lemma puts_app w w1 w2 s1 s2 : buf_ok w -> puts w w1 s1 ->
  buf_ok w2 -> cap w2 = cap w1 -> (ok w1 = true -> puts w1 w2 s2) -> (ok w1 = false -> ok w2 = false) ->
  puts w w2 (s1 ++ s2).
Proof.
  intros B P1 B2 C2 P2 F. split; [done |]. split; [destruct P1 as (_ & ? & _); congruence |].
  rewrite zlen_app. pose proof (zlen_nonneg s2). destruct (ok w1) eqn:O1.
  - specialize (P2 eq_refl). pose proof (puts_len _ _ _ B P1 O1) as L1. pose proof (puts_sticky _ _ _ P1 O1) as O.
    destruct P1 as (B1 & C1 & P1), P2 as (_ & _ & P2). rewrite O in *. simpl in *.
    rewrite O1 in P2. simpl in P2. rewrite L1, C1 in P2. rewrite Z.add_assoc.
    destruct (len w + zlen s1 <=? cap w) eqn:E1; [| congruence]. destruct P1 as [_ P1].
    destruct (len w + zlen s1 + zlen s2 <=? cap w); [| done]. destruct P2 as [-> ->]. by rewrite P1, app_assoc.
  - rewrite (F eq_refl). destruct P1 as (_ & _ & P1). destruct (ok w); [| done]. simpl in *.
    destruct (len w + zlen s1 <=? cap w) eqn:E1; [destruct P1; congruence |]. zb.
    by rewrite (proj2 (Z.leb_gt _ _)) by lia.
Qed.

(** The same for two operations that always append. *)
Lemma puts_trans w w1 w2 s1 s2 : buf_ok w -> puts w w1 s1 -> puts w1 w2 s2 -> puts w w2 (s1 ++ s2).
Proof.
  intros B P1 P2. eapply puts_app; [done | done | apply P2 | apply P2 | done |].
  intros F. destruct P2 as (_ & _ & P2). by rewrite F in P2.
Qed.

Lemma same_nest_trans w w1 w2 : same_nest w w1 -> same_nest w1 w2 -> same_nest w w2.
Proof. unfold same_nest. intuition congruence. Qed.

Lemma copy_in_spec b at_ s : 0 <= at_ -> at_ + zlen s <= zlen b ->
  zlen (copy_in b at_ s) = zlen b /\ ztake (at_ + zlen s) (copy_in b at_ s) = ztake at_ b ++ s.
Proof.
  intros A L. pose proof (zlen_nonneg s) as NS.
  assert (I : zlen (copy_in b at_ s) = zlen b /\ forall j, 0 <= j ->
    zget (copy_in b at_ s) j = if (at_ <=? j) && (j <? at_ + zlen s) then zget s (j - at_) else zget b j).
  { unfold copy_in. apply (zfor_ind (fun i c => zlen c = zlen b /\ forall j, 0 <= j ->
      zget c j = if (at_ <=? j) && (j <? at_ + i) then zget s (j - at_) else zget b j)).
    - split; [done |]. intros j J. destruct (_ && _) eqn:E; [zb; lia | done].
    - intros k c K [Lc G]. fold (zlen s) in K. split; [by rewrite zlen_zset |]. intros j J.
      destruct (decide (j = at_ + k)) as [-> | Ne].
      + rewrite zget_zset_eq by lia. rewrite (proj2 (Z.leb_le _ _)), (proj2 (Z.ltb_lt _ _)) by lia. simpl. f_equal. lia.
      + rewrite zget_zset_ne, G by lia. destruct (decide (at_ <= j < at_ + k)).
        * rewrite !(proj2 (Z.leb_le at_ j)), !(proj2 (Z.ltb_lt j _)) by lia. done.
        * destruct ((at_ <=? j) && (j <? at_ + k)) eqn:E1; [zb; lia |].
          destruct ((at_ <=? j) && (j <? at_ + (k + 1))) eqn:E2; [zb; lia | done]. }
  destruct I as [Lc G]. split; [done |]. apply zlist_eq.
  - rewrite zlen_app, !zlen_ztake by lia. lia.
  - intros i I. rewrite zlen_ztake in I by lia. rewrite zget_ztake, G by lia. destruct (decide (i < at_)).
    + rewrite zget_app_l, zget_ztake by (rewrite ?zlen_ztake; lia). by rewrite (proj2 (Z.leb_gt _ _)) by lia.
    + rewrite zget_app_r by (rewrite zlen_ztake; lia). rewrite zlen_ztake, Z.min_l by lia.
      by rewrite (proj2 (Z.leb_le _ _)), (proj2 (Z.ltb_lt _ _)) by lia.
Qed.

Lemma put_n_puts w s : buf_ok w -> puts w (put_n w s) s /\ same_nest w (put_n w s).
Proof.
  intros B. pose proof B as [L Lb]. unfold put_n, puts, same_nest, buf_ok, out. pose proof (zlen_nonneg s).
  destruct (ok w) eqn:O; simpl; [| tauto].
  destruct (len w + zlen s >? cap w) eqn:E; [rewrite (proj2 (Z.leb_gt _ _)) by lia; simpl; tauto |].
  rewrite (proj2 (Z.leb_le _ _)) by lia. simpl. destruct (copy_in_spec (buf w) (len w) s) as [? ?]; [lia | lia |].
  repeat split; try done; lia.
Qed.

Lemma put_char_put_n w c : put_char w c = put_n w [c].
Proof.
  unfold put_char, put_n. change (zlen [c]) with 1. destruct (ok w); [| done]. simpl.
  destruct (_ >? _); [done |]. unfold copy_in. simpl. by rewrite Z.add_0_r.
Qed.

Lemma put_char_puts w c : buf_ok w -> puts w (put_char w c) [c] /\ same_nest w (put_char w c).
Proof. intros B. rewrite put_char_put_n. by apply put_n_puts. Qed.

(** A loop of operations that append. *)
Lemma puts_foldl {A} (f : json_w -> A -> json_w) (g : A -> list Z) l w :
  (forall w x, buf_ok w -> puts w (f w x) (g x) /\ same_nest w (f w x)) ->
  buf_ok w -> puts w (foldl f w l) (concat (g <$> l)) /\ same_nest w (foldl f w l).
Proof.
  intros F. revert w. induction l as [| x l IH]; intros w B; simpl; [split; [by apply puts_nil | done] |].
  destruct (F w x B) as [P S]. destruct (IH (f w x)) as [P' S']; [apply P |].
  split; [by eapply puts_trans | by eapply same_nest_trans].
Qed.

(** ** Strings and numbers *)

Lemma esc_puts w c : 0 <= c < 256 -> buf_ok w -> puts w (put_escaped_char w c) (esc c) /\ same_nest w (put_escaped_char w c).
Proof.
  intros R B. unfold put_escaped_char, esc. repeat (case_match; [by apply put_n_puts |]).
  case_match; [| by apply put_char_puts]. rewrite Z.shiftr_div_pow2 by lia.
  change 15 with (Z.ones 4). rewrite !Z.land_ones by lia. change (2 ^ 4) with 16.
  rewrite (Z.mod_small (c / 16)) by (Z.div_mod_to_equations; lia). by apply put_n_puts.
Qed.

Lemma quote_puts w s : bytes_ok s -> buf_ok w -> puts w (put_escaped_str w s) (quote s) /\ same_nest w (put_escaped_str w s).
Proof.
  intros S B. unfold put_escaped_str, quote. destruct (put_char_puts w 34 B) as [P1 N1].
  assert (L : forall w, buf_ok w -> puts w (foldl put_escaped_char w s) (concat (esc <$> s)) /\ same_nest w (foldl put_escaped_char w s)).
  { clear -S. induction s as [| c s IH]; intros w B; simpl; [split; [by apply puts_nil | done] |].
    inversion_clear S. destruct (esc_puts w c) as [P N]; [done | done |]. destruct (IH H0 (put_escaped_char w c)) as [P' N']; [apply P |].
    split; [by eapply puts_trans | by eapply same_nest_trans]. }
  destruct (L (put_char w 34)) as [P2 N2]; [apply P1 |].
  destruct (put_char_puts (foldl put_escaped_char (put_char w 34) s) 34) as [P3 N3]; [apply P2 |].
  split; [| by eapply same_nest_trans; [| eapply same_nest_trans]].
  change (34 :: concat (esc <$> s) ++ [34]) with ([34] ++ (concat (esc <$> s) ++ [34])).
  eapply puts_trans; [done | done |]. eapply puts_trans; [apply P1 | done | done].
Qed.

Lemma dec_puts w u (neg : bool) : buf_ok w ->
  puts w (put_dec w u neg) ((if neg then [45] else []) ++ digits u) /\ same_nest w (put_dec w u neg).
Proof.
  intros B. unfold put_dec, digits. assert (L : forall w, buf_ok w ->
    puts w (foldl put_char w (reverse (dec_tmp u))) (reverse (dec_tmp u)) /\ same_nest w (foldl put_char w (reverse (dec_tmp u)))).
  { intros w' B'. destruct (puts_foldl put_char (fun c => [c]) (reverse (dec_tmp u)) w') as [P N]; [by intros; apply put_char_puts | done |].
    split; [| done]. replace (concat ((fun c => [c]) <$> reverse (dec_tmp u))) with (reverse (dec_tmp u)) in P; [done |].
    clear. induction (reverse (dec_tmp u)) as [| x l IH]; [done |]. simpl. by f_equal. }
  destruct neg; [| by apply L]. destruct (put_char_puts w 45 B) as [P N]. destruct (L (put_char w 45)) as [P' N']; [apply P |].
  split; [by eapply puts_trans | by eapply same_nest_trans].
Qed.

(** ** Separators *)

Definition sep (w : json_w) : list Z :=
  if depth w =? 0 then [] else if expect_value w then [] else if zget (first w) (depth w - 1) =? 0 then [44] else [].

(** No key is pending at the top level. *)
Definition clean (w : json_w) : Prop := depth w = 0 -> expect_value w = false.

(** [w'] is [w] after one item with text [s] at the current level: the separator and [s] are appended, the pending key is
    consumed and the level is no longer empty. *)
Definition item (w w' : json_w) (s : list Z) : Prop :=
  puts w w' (sep w ++ s) /\ depth w' = depth w /\ nest_ok w' /\
  (ok w' = true -> expect_value w' = false /\ forall i, 0 <= i < depth w ->
     zget (first w') i = if (i =? depth w - 1) && negb (expect_value w) then 0 else zget (first w) i).

Lemma pre_emit_item w : buf_ok w -> nest_ok w -> clean w -> item w (pre_emit w) [].
Proof.
  intros B N C. unfold item, sep, pre_emit, clean in *. pose proof N as [D F].
  destruct (ok w) eqn:O; simpl.
  2: { rewrite O. split; [| split; [done | split; [done | done]]].
       split; [done | split; [done |]]. by rewrite O. }
  destruct (depth w =? 0) eqn:D0; zb.
  { split; [by apply puts_nil | split; [done | split; [done |]]]. intros _. split; [by apply C |]. intros; lia. }
  destruct (expect_value w) eqn:E.
  { split; [| split; [done | split; [done |]]].
    - rewrite app_nil_r. pose proof (puts_nil w B) as (? & ? & P). split; [done | split; [done |]].
      destruct (_ && _); [| done]. by destruct P.
    - intros _. split; [done |]. intros i I. by rewrite andb_false_r. }
  destruct (zget (first w) (depth w - 1) =? 0) eqn:Z0; zb; simpl.
  - destruct (put_char_puts w 44 B) as [P (N1 & N2 & N3)]. split; [done | split; [done | split]].
    + unfold nest_ok. by rewrite N1, N2.
    + intros _. rewrite N2, N3. split; [done |]. intros i I. destruct (i =? depth w - 1) eqn:I0; zb; [subst; simpl; congruence | done].
  - split; [| split; [done | split]].
    + pose proof (puts_nil w B) as (? & ? & P). split; [done | split; [done |]].
      destruct (_ && _); [| done]. by destruct P.
    + split; [done |]. simpl. by rewrite zlen_zset.
    + intros _. split; [done |]. simpl. intros i I. destruct (i =? depth w - 1) eqn:I0; zb.
      * subst. rewrite zget_zset_eq; [done | unfold JSON_W_MAX_DEPTH in *; lia].
      * rewrite zget_zset_ne; [done | lia | lia | lia].
Qed.

Lemma item_puts w w1 w2 s1 s2 : buf_ok w -> item w w1 s1 -> puts w1 w2 s2 -> same_nest w1 w2 -> item w w2 (s1 ++ s2).
Proof.
  intros B (P1 & D1 & N1 & F1) P2 (D2 & E2 & X2). unfold item. rewrite app_assoc. split; [by eapply puts_trans |].
  split; [congruence |]. split; [unfold nest_ok in *; rewrite D2, E2; done |].
  intros O. rewrite E2, X2. apply F1. by eapply puts_sticky.
Qed.

(** ** Containers *)

Definition opens (w : json_w) (c : Z) : json_w :=
  let w := put_char (pre_emit w) c in set_depth (set_first w (depth w) 1) (depth w + 1).

(** [w'] is [w] after [s], one level deeper or at the same level, with the levels below [n] untouched but for the current one. *)
Definition below (w w' : json_w) (n : Z) : Prop := forall i, 0 <= i < n ->
  zget (first w') i = if (i =? depth w - 1) && negb (expect_value w) then 0 else zget (first w) i.

Lemma opens_spec w c : buf_ok w -> nest_ok w -> clean w -> depth w < JSON_W_MAX_DEPTH ->
  puts w (opens w c) (sep w ++ [c]) /\ depth (opens w c) = depth w + 1 /\ nest_ok (opens w c) /\
  (ok (opens w c) = true ->
     expect_value (opens w c) = false /\ zget (first (opens w c)) (depth w) = 1 /\ below w (opens w c) (depth w)).
Proof.
  intros B N C D. pose proof (pre_emit_item w B N C) as I0.
  assert (B0 : buf_ok (pre_emit w)) by apply I0. destruct (put_char_puts (pre_emit w) c B0) as [P1 S1].
  pose proof (item_puts _ _ _ _ _ B I0 P1 S1) as (P & E & (NW & FW) & K). unfold opens.
  set (w1 := put_char (pre_emit w) c) in *. simpl. rewrite E. split; [| split; [done | split]].
  - destruct P as ((? & ?) & ? & P). split; [done | split; [done |]]. exact P.
  - split; simpl; [destruct N; unfold JSON_W_MAX_DEPTH in *; lia | by rewrite zlen_zset].
  - intros O. destruct (K O) as [X F]. destruct N as [N _]. unfold JSON_W_MAX_DEPTH in *. split; [done | split].
    + apply zget_zset_eq. lia.
    + intros i Ri. simpl. rewrite zget_zset_ne by lia. by apply F.
Qed.

Definition ends (w : json_w) (c : Z) : json_w := if depth w =? 0 then set_ok w false else put_char (set_depth w (depth w - 1)) c.

Lemma ends_spec w c : buf_ok w -> nest_ok w -> 0 < depth w ->
  puts w (ends w c) [c] /\ depth (ends w c) = depth w - 1 /\ nest_ok (ends w c) /\
  first (ends w c) = first w /\ expect_value (ends w c) = expect_value w.
Proof.
  intros B [N F] D. unfold ends. rewrite (proj2 (Z.eqb_neq _ _)) by lia.
  destruct (put_char_puts (set_depth w (depth w - 1)) c B) as [P (E1 & E2 & E3)].
  split; [exact P | split; [done | split; [| done]]]. unfold nest_ok. rewrite E1, E2. simpl. split; [lia | done].
Qed.

(** The items of a container at level [D], the first of them without a comma when the level is fresh. *)
Lemma items_spec {A} (f : json_w -> A -> json_w) (g : A -> list Z) D l :
  0 < D ->
  Forall (fun x => forall w, buf_ok w -> nest_ok w -> depth w = D -> item w (f w x) (g x)) l ->
  forall w, buf_ok w -> nest_ok w -> depth w = D -> (ok w = true -> expect_value w = false) ->
  let w' := foldl f w l in
  puts w w' (if zget (first w) (D - 1) =? 0 then more (g <$> l) else commas (g <$> l)) /\
  depth w' = D /\ nest_ok w' /\
  (ok w' = true -> expect_value w' = false /\ forall i, 0 <= i < D - 1 -> zget (first w') i = zget (first w) i).
Proof.
  intros D0 F. induction F as [| x l H _ IH]; intros w B N E X; simpl.
  { replace (if zget (first w) (D - 1) =? 0 then more [] else []) with (@nil Z) by (by destruct (_ =? _)).
    split; [by apply puts_nil | split; [done | split; [done |]]]. intros O. split; [by apply X | done]. }
  destruct (H w B N E) as (P & E1 & N1 & K). set (w1 := f w x) in *.
  assert (B1 : buf_ok w1) by apply P.
  destruct (IH w1) as (P' & E' & N' & K'); [done | done | congruence | intros O; by apply K |].
  assert (O1 : ok (foldl f w1 l) = true -> ok w1 = true) by (intros; by eapply puts_sticky).
  assert (Ow : ok w1 = true -> ok w = true) by (intros; by eapply puts_sticky).
  split; [| split; [done | split; [done |]]].
  - destruct (ok w) eqn:O.
    + specialize (X eq_refl). unfold sep in P. rewrite E, X in P. rewrite (proj2 (Z.eqb_neq _ _)) in P by lia.
      match goal with |- puts _ _ ?s =>
        replace s with (((if zget (first w) (D - 1) =? 0 then [44] else []) ++ g x) ++ more (g <$> l)) end.
      2: { unfold more. simpl. by destruct (zget (first w) (D - 1) =? 0). }
      apply (puts_app _ w1); [done | exact P | apply P' | apply P' | |].
      * intros Ok. destruct (K Ok) as [_ K0]. rewrite (K0 (D - 1)) in P' by lia.
        rewrite E, X, Z.eqb_refl in P'. exact P'.
      * intros Ok. destruct P' as (_ & _ & P'). by rewrite Ok in P'.
    + pose proof P as (_ & C1 & PP). rewrite O in PP. simpl in PP. destruct P' as (B2 & C2 & P'). rewrite PP in P'.
      split; [done | split; [congruence |]]. by rewrite O.
  - intros O. destruct (K' O) as [X' F']. split; [done |]. intros i I. rewrite F' by done.
    destruct (K (O1 O)) as [_ K0]. rewrite K0 by lia. rewrite E. destruct (i =? D - 1) eqn:Q; [zb; lia | done].
Qed.

Lemma container_item {A} (f : json_w -> A -> json_w) (g : A -> list Z) l w c c' :
  buf_ok w -> nest_ok w -> clean w -> depth w < JSON_W_MAX_DEPTH ->
  Forall (fun x => forall w', buf_ok w' -> nest_ok w' -> depth w' = depth w + 1 -> item w' (f w' x) (g x)) l ->
  item w (ends (foldl f (opens w c) l) c') (c :: commas (g <$> l) ++ [c']).
Proof.
  intros B N C D F. destruct (opens_spec w c B N C D) as (P1 & E1 & N1 & K1). set (w1 := opens w c) in *.
  assert (B1 : buf_ok w1) by apply P1. pose proof N as [Dp _].
  destruct (items_spec f g (depth w + 1) l ltac:(lia) F w1 B1 N1 E1) as (P2 & E2 & N2 & K2); [intros O; by apply K1 |].
  set (w2 := foldl f w1 l) in *. destruct (ends_spec w2 c') as (P3 & E3 & N3 & F3 & X3); [apply P2 | done | lia |].
  unfold item. split; [| split; [lia | split; [done |]]].
  - replace (sep w ++ c :: commas (g <$> l) ++ [c']) with ((sep w ++ [c]) ++ (commas (g <$> l) ++ [c'])) by by rewrite <- app_assoc.
    apply (puts_app _ w1); [done | done | apply P3 | destruct P3 as (_ & -> & _); apply P2 | |].
    + intros O. destruct (K1 O) as (_ & Z1 & _). replace (depth w + 1 - 1) with (depth w) in P2 by lia.
      rewrite Z1 in P2. simpl in P2. by eapply puts_trans.
    + intros O. destruct P3 as (_ & _ & P3), P2 as (_ & _ & P2). rewrite O in P2. simpl in P2. rewrite P2 in P3. done.
  - intros O3. assert (O2 : ok w2 = true) by (by eapply puts_sticky). assert (O1 : ok w1 = true) by (by eapply puts_sticky).
    destruct (K1 O1) as (_ & _ & B'), (K2 O2) as [X2 F2]. rewrite F3, X3. split; [done |].
    intros i I. rewrite F2 by lia. by apply B'.
Qed.

(** ** The encoder writes the text of the value *)

Lemma forallb_bytes s : forallb is_byte s = true -> bytes_ok s.
Proof. intros F. apply Forall_forall. intros c I%list_elem_of_In. rewrite forallb_forall in F. specialize (F c I). unfold is_byte in F. zb. lia. Qed.

Lemma key_strlen s : forallb (fun c => is_byte c && negb (c =? 0)) s = true -> bytes_ok s /\ ztake (my_strlen s) s = s.
Proof.
  intros F. split.
  - apply forallb_bytes. rewrite forallb_forall in *. intros c I. specialize (F c I). by apply andb_true_iff in F as [? _].
  - assert (L : my_strlen s = zlen s).
    { induction s as [| c s IH]; [done |]. simpl in *. zb. rewrite IH, zlen_cons by done. rewrite (proj2 (Z.eqb_neq _ _)) by done. lia. }
    rewrite L. unfold ztake, zlen. rewrite Nat2Z.id. apply firstn_all.
Qed.

Lemma key_item w k : buf_ok w -> nest_ok w -> 0 < depth w -> bytes_ok k -> ztake (my_strlen k) k = k ->
  puts w (json_key w k) (sep w ++ quote k ++ [58]) /\ depth (json_key w k) = depth w /\ nest_ok (json_key w k) /\
  (ok (json_key w k) = true -> below w (json_key w k) (depth w)) /\ expect_value (json_key w k) = true.
Proof.
  intros B N D K T. unfold json_key. rewrite T.
  pose proof (pre_emit_item w B N ltac:(intros ?; lia)) as I0. assert (B0 : buf_ok (pre_emit w)) by apply I0.
  destruct (quote_puts (pre_emit w) k K B0) as [P1 S1]. destruct (put_char_puts (put_escaped_str (pre_emit w) k) 58) as [P2 S2]; [apply P1 |].
  pose proof (item_puts _ _ _ _ _ B I0 (puts_trans _ _ _ _ _ B0 P1 P2) (same_nest_trans _ _ _ S1 S2)) as (P & E & N' & F).
  simpl in P. split; [exact P | split; [exact E | split; [exact N' | split; [| done]]]]. intros O. exact (proj2 (F O)).
Qed.

(** A value emitted after its key. *)
Lemma keyed_item w w1 w2 s1 s2 : buf_ok w -> 0 < depth w ->
  puts w w1 (sep w ++ s1) -> depth w1 = depth w -> (ok w1 = true -> below w w1 (depth w)) -> expect_value w1 = true ->
  item w1 w2 s2 -> item w w2 (s1 ++ s2).
Proof.
  intros B D P1 D1 F1 X1 (P2 & D2 & N2 & F2). split; [| split; [congruence | split; [done |]]].
  - unfold sep in P2 at 1. rewrite D1, X1 in P2. rewrite (proj2 (Z.eqb_neq _ _)) in P2 by lia.
    rewrite app_assoc. by eapply puts_trans.
  - intros O. destruct (F2 O) as [X F]. split; [done |]. intros i I. rewrite F by lia. rewrite X1, andb_false_r.
    apply F1; [by eapply puts_sticky | done].
Qed.

Lemma height_bound l x d : In x l -> foldr (fun x m => Z.max (height x) m) 0 l <= d -> height x <= d.
Proof. induction l as [| y l IH]; simpl; [done |]. intros [-> | I] L; [lia | apply IH; [done | lia]]. Qed.

Lemma height_bound_obj (l : list (list Z * json)) x d :
  In x l -> foldr (fun kv m => Z.max (height (snd kv)) m) 0 l <= d -> height (snd x) <= d.
Proof. induction l as [| y l IH]; simpl; [done |]. intros [-> | I] L; [lia | apply IH; [done | lia]]. Qed.

Lemma emit_item v : encodable v = true -> forall w, buf_ok w -> nest_ok w -> clean w ->
  depth w + height v <= JSON_W_MAX_DEPTH -> item w (emit v w) (text v).
Proof.
  induction v as [| b | z | s | l IH | l IH] using json_ind'; intros En w B N C H;
    pose proof (pre_emit_item w B N C) as I0; assert (B0 : buf_ok (pre_emit w)) by apply I0; simpl.
  - destruct (put_n_puts (pre_emit w) (codes "null") B0). by apply (item_puts _ _ _ _ _ B I0).
  - unfold json_bool. destruct b; edestruct (put_n_puts (pre_emit w)) as [P S]; [exact B0 | | exact B0 |]; exact (item_puts _ _ _ _ _ B I0 P S).
  - simpl in En. zb. unfold json_int, num. destruct (z <? 0) eqn:E; zb.
    + destruct (dec_puts (pre_emit w) (u32 (- z)) true B0) as [P S]. rewrite (u32_small (- z)) in * by lia.
      exact (item_puts _ _ _ _ _ B I0 P S).
    + destruct (dec_puts (pre_emit w) (u32 z) false B0) as [P S]. rewrite (u32_small z) in * by lia.
      exact (item_puts _ _ _ _ _ B I0 P S).
  - destruct (quote_puts (pre_emit w) s (forallb_bytes _ En) B0) as [P S]. exact (item_puts _ _ _ _ _ B I0 P S).
  - simpl in H, En. unfold json_arr_begin. rewrite forallb_forall in En.
    assert (Hh : 0 <= foldr (fun x m => Z.max (height x) m) 0 l) by (clear; induction l; simpl; lia).
    replace (depth w >=? JSON_W_MAX_DEPTH) with false by (symmetry; unfold JSON_W_MAX_DEPTH in *; lia).
    apply (container_item (fun w x => emit x w) text l w 91 93); [done | done | done | unfold JSON_W_MAX_DEPTH in *; lia |].
    rewrite Forall_forall in *. intros x I w' B' N' E'. apply list_elem_of_In in I. apply IH; [by apply list_elem_of_In | by apply En | done | done | |].
    + intros D'. destruct N. lia.
    + pose proof (height_bound l x (JSON_W_MAX_DEPTH - depth w - 1) I ltac:(lia)). lia.
  - simpl in H, En. unfold json_obj_begin. rewrite forallb_forall in En.
    assert (Hh : 0 <= foldr (fun kv m => Z.max (height (snd kv)) m) 0 l) by (clear; induction l; simpl; lia).
    replace (depth w >=? JSON_W_MAX_DEPTH) with false by (symmetry; unfold JSON_W_MAX_DEPTH in *; lia).
    apply (container_item (fun w kv => emit (snd kv) (json_key w (fst kv))) (fun kv => quote (fst kv) ++ 58 :: text (snd kv)) l w 123 125);
      [done | done | done | unfold JSON_W_MAX_DEPTH in *; lia |].
    rewrite Forall_forall in *. intros [k x] I w' B' N' E'. apply list_elem_of_In in I. simpl.
    pose proof (En _ I) as Ei. simpl in Ei. apply andb_true_iff in Ei as [Ek Ex]. destruct (key_strlen k Ek) as [Kb Kl].
    pose proof N as [Nd _]. destruct (key_item w' k B' N' ltac:(lia) Kb Kl) as (P1 & D1 & N1 & F1 & X1).
    change (item w' (emit x (json_key w' k)) (quote k ++ 58 :: text x)).
    replace (quote k ++ 58 :: text x) with ((quote k ++ [58]) ++ text x) by by rewrite <- app_assoc.
    apply (keyed_item w' (json_key w' k) (emit x (json_key w' k)) (quote k ++ [58]) (text x)); [exact B' | lia | exact P1 | exact D1 | exact F1 | exact X1 |].
    apply (IH (k, x)); [by apply list_elem_of_In | done | apply P1 | done | intros ?; lia |].
    pose proof (height_bound_obj l (k, x) (JSON_W_MAX_DEPTH - depth w - 1) I ltac:(lia)). simpl in *. lia.
Qed.

End JSON.
