(* ===== verification/JsonParse.v ===== *)
(** The JSON parser of src/libjson/libjson.c, its accessors and the JSONL
    helpers.

    The scratch arena is the byte list [arena] and, for the structs the code
    lays over it, the map [nodes] from their offsets; [arena_used] keeps both
    apart.  A pointer is an offset, 0 is [None].  A function that fails
    returns [Null]; the recursion of p_value and its loops take fuel, and
    [Stuck] is running out of it, which never happens to [json_parse]. *)
From Stdlib Require Import ZArith Lia String.
From stdpp Require Import base numbers list gmap.
From S2P Require Import Prelude Json.

Module JSONP.
Import JSON.

Inductive json_type := JSON_NULL | JSON_BOOL | JSON_NUM | JSON_STR | JSON_ARR | JSON_OBJ.

(** struct json_v: 24 bytes with 4-byte pointers, ints and longs. *)
Record json_v := mk_v { vtype : json_type; vnum : Z; str : option Z; str_len : Z; child : option Z; next : option Z }.

Definition sizeof_json_v : Z := 24.

#[export] Instance json_v_inhabited : Inhabited json_v := populate (mk_v JSON_NULL 0 None 0 None None).

Record parser := mk_p
  { src : list Z; plen : Z; pos : Z; arena : list Z; arena_cap : Z; arena_used : Z; nodes : gmap Z json_v }.

Definition set_pos (p : parser) (i : Z) : parser :=
  mk_p (src p) (plen p) i (arena p) (arena_cap p) (arena_used p) (nodes p).
Definition adv (p : parser) : parser := set_pos p (pos p + 1).
Definition set_used (p : parser) (u : Z) : parser :=
  mk_p (src p) (plen p) (pos p) (arena p) (arena_cap p) u (nodes p).
Definition poke (p : parser) (a x : Z) : parser :=
  mk_p (src p) (plen p) (pos p) (zset (arena p) a x) (arena_cap p) (arena_used p) (nodes p).
Definition set_node (p : parser) (a : Z) (v : json_v) : parser :=
  mk_p (src p) (plen p) (pos p) (arena p) (arena_cap p) (arena_used p) (<[a := v]> (nodes p)).
Definition node (p : parser) (a : Z) : json_v := nodes p !!! a.

Inductive res (A : Type) := Stuck | Null | Ret (a : A) (p : parser).
Arguments Stuck {A}.
Arguments Null {A}.
Arguments Ret {A} _ _.

Definition bind {A B} (m : res A) (k : A -> parser -> res B) : res B :=
  match m with Stuck => Stuck | Null => Null | Ret a p => k a p end.

Notation "'do' a p <- m ; k" := (bind m (fun a p => k)) (at level 10, a name, p name, k at level 200).

Definition arena_alloc_bytes (p : parser) (n : Z) : res Z :=
  if arena_used p + n >? arena_cap p then Null else Ret (arena_used p) (set_used p (arena_used p + n)).

Definition arena_alloc_aligned (p : parser) (n : Z) : res Z :=
  let aligned := Z.land (arena_used p + 3) (Z.lnot 3) in
  if aligned + n >? arena_cap p then Null else Ret aligned (set_used p (aligned + n)).

Definition node_alloc (p : parser) (type : json_type) : res Z :=
  do v p <- arena_alloc_aligned p sizeof_json_v;
  Ret v (set_node p v (mk_v type 0 None 0 None None)).

Definition p_peek (p : parser) : Z := if pos p >=? plen p then -1 else zget (src p) (pos p).

Definition p_next (p : parser) : Z * parser :=
  let c := p_peek p in (c, if c >=? 0 then adv p else p).

Definition is_ws (c : Z) : bool := (c =? 32) || (c =? 9) || (c =? 10) || (c =? 13).

(** Turns of a loop that consumes a byte each time. *)
Definition turns (p : parser) : nat := S (Z.to_nat (plen p - pos p)).

Fixpoint skip_loop (fuel : nat) (p : parser) : parser :=
  match fuel with
  | O => p
  | S k => if pos p <? plen p then (if is_ws (zget (src p) (pos p)) then skip_loop k (adv p) else p) else p
  end.

Definition p_skip_ws (p : parser) : parser := skip_loop (turns p) p.

Definition arena_putc_utf8 (p : parser) (cp : Z) : res unit :=
  if cp <? 128 then
    do b p <- arena_alloc_bytes p 1;
    Ret tt (poke p b (u8 cp))
  else if cp <? 2048 then
    do b p <- arena_alloc_bytes p 2;
    let p := poke p b (u8 (Z.lor 192 (Z.shiftr cp 6))) in
    Ret tt (poke p (b + 1) (u8 (Z.lor 128 (Z.land cp 63))))
  else
    do b p <- arena_alloc_bytes p 3;
    let p := poke p b (u8 (Z.lor 224 (Z.shiftr cp 12))) in
    let p := poke p (b + 1) (u8 (Z.lor 128 (Z.land (Z.shiftr cp 6) 63))) in
    Ret tt (poke p (b + 2) (u8 (Z.lor 128 (Z.land cp 63)))).

(** The loop that reads [h[i]]. *)
Fixpoint hex_loop (n : nat) (p : parser) : res (list Z) :=
  match n with
  | O => Ret [] p
  | S k =>
      let '(ch, p) := p_next p in
      let h := hex_digit ch in
      if h <? 0 then Null else do l p <- hex_loop k p; Ret (h :: l) p
  end.

(** The switch on the byte after a backslash. *)
Definition p_escape (p : parser) : res unit :=
  let '(e, p) := p_next p in
  if (e =? 34) || (e =? 92) || (e =? 47) then arena_putc_utf8 p e
  else if e =? 98 then arena_putc_utf8 p 8
  else if e =? 102 then arena_putc_utf8 p 12
  else if e =? 110 then arena_putc_utf8 p 10
  else if e =? 114 then arena_putc_utf8 p 13
  else if e =? 116 then arena_putc_utf8 p 9
  else if e =? 117 then
    do h p <- hex_loop 4 p;
    let cp := Z.lor (Z.lor (Z.lor (Z.shiftl (zget h 0) 12) (Z.shiftl (zget h 1) 8)) (Z.shiftl (zget h 2) 4)) (zget h 3) in
    if (cp >=? 55296) && (cp <=? 57343) then arena_putc_utf8 p 65533 else arena_putc_utf8 p cp
  else Null.

Fixpoint string_loop (fuel : nat) (p : parser) : res unit :=
  match fuel with
  | O => Stuck
  | S k =>
      let c := p_peek p in
      if c <? 0 then Null
      else if c =? 34 then Ret tt (adv p)
      else if c =? 92 then do _u p <- p_escape (adv p); string_loop k p
      else if c <? 32 then Null
      else do _u p <- arena_putc_utf8 (adv p) c; string_loop k p
  end.

(** The body and its length. *)
Definition p_string (p : parser) : res (Z * Z) :=
  let '(c, p) := p_next p in
  if negb (c =? 34) then Null else
  let start := arena_used p in
  do _u p <- string_loop (turns p) p;
  let length := arena_used p - start in
  do nul p <- arena_alloc_bytes p 1;
  Ret (start, length) (poke p nul 0).

Definition is_digit (c : Z) : bool := (48 <=? c) && (c <=? 57).

Fixpoint number_loop (fuel : nat) (n : Z) (p : parser) : res Z :=
  match fuel with
  | O => Stuck
  | S k =>
      if pos p <? plen p then
        let c := zget (src p) (pos p) in
        if negb (is_digit c) then Ret n p
        else if n >? 214748364 then Null
        else number_loop k (s32 (n * 10 + (c - 48))) (adv p)
      else Ret n p
  end.

Definition p_number (p : parser) : res Z :=
  let neg := p_peek p =? 45 in
  let p := if neg then adv p else p in
  if negb (is_digit (p_peek p)) then Null else
  do n p <- number_loop (turns p) 0 p;
  if (pos p <? plen p) &&
     (let c := zget (src p) (pos p) in (c =? 46) || (c =? 101) || (c =? 69)) then Null
  else Ret (if neg then s32 (- n) else n) p.

Definition p_match (p : parser) (kw : list Z) : res unit :=
  let n := my_strlen kw in
  if pos p + n >? plen p then Null else
  match zfind (Z.to_nat n) 0 (fun i => negb (zget (src p) (pos p + i) =? zget kw i)) with
  | Some _ => Null
  | None => Ret tt (set_pos p (pos p + n))
  end.

Definition set_child (v : json_v) (c : option Z) : json_v := mk_v (vtype v) (vnum v) (str v) (str_len v) c (next v).
Definition set_next (v : json_v) (c : option Z) : json_v := mk_v (vtype v) (vnum v) (str v) (str_len v) (child v) c.
Definition set_num (v : json_v) (n : Z) : json_v := mk_v (vtype v) n (str v) (str_len v) (child v) (next v).
Definition set_str (v : json_v) (s n : Z) : json_v := mk_v (vtype v) (vnum v) (Some s) n (child v) (next v).

Definition upd_node (p : parser) (a : Z) (f : json_v -> json_v) : parser := set_node p a (f (node p a)).

(** [if (!arr->child) arr->child = c; else tail->next = c;] *)
Definition link (p : parser) (arr : Z) (tail : Z) (c : Z) : parser :=
  if decide (child (node p arr) = None) then upd_node p arr (fun v => set_child v (Some c))
  else upd_node p tail (fun v => set_next v (Some c)).

Section Containers.
Variable p_value : parser -> res Z.

Fixpoint array_loop (fuel : nat) (arr tail : Z) (p : parser) : res Z :=
  match fuel with
  | O => Stuck
  | S k =>
      do c p <- p_value (p_skip_ws p);
      let p := p_skip_ws (link p arr tail c) in
      let '(ch, p) := p_next p in
      if ch =? 44 then array_loop k arr c p
      else if ch =? 93 then Ret arr p
      else Null
  end.

Definition p_array (p : parser) : res Z :=
  let '(ch, p) := p_next p in
  if negb (ch =? 91) then Null else
  do arr p <- node_alloc p JSON_ARR;
  let p := p_skip_ws p in
  if p_peek p =? 93 then Ret arr (adv p) else array_loop (turns p) arr 0 p.

(** One key, its colon and its value: the addresses of both. *)
Definition p_pair (p : parser) : res (Z * Z) :=
  let p := p_skip_ws p in
  if negb (p_peek p =? 34) then Null else
  do k p <- node_alloc p JSON_STR;
  do s p <- p_string p;
  let p := p_skip_ws (upd_node p k (fun v => set_str v (fst s) (snd s))) in
  let '(ch, p) := p_next p in
  if negb (ch =? 58) then Null else
  do v p <- p_value (p_skip_ws p);
  Ret (k, v) (upd_node p k (fun n => set_next n (Some v))).

Fixpoint object_loop (fuel : nat) (obj tail : Z) (p : parser) : res Z :=
  match fuel with
  | O => Stuck
  | S f =>
      do kv p <- p_pair p;
      let p := p_skip_ws (link p obj tail (fst kv)) in
      let '(ch, p) := p_next p in
      if ch =? 44 then object_loop f obj (snd kv) p
      else if ch =? 125 then Ret obj p
      else Null
  end.

Definition p_object (p : parser) : res Z :=
  let '(ch, p) := p_next p in
  if negb (ch =? 123) then Null else
  do obj p <- node_alloc p JSON_OBJ;
  let p := p_skip_ws p in
  if p_peek p =? 125 then Ret obj (adv p) else object_loop (turns p) obj 0 p.

End Containers.

Definition p_scalar (p : parser) : res Z :=
  let c := p_peek p in
  if c =? 34 then
    do v p <- node_alloc p JSON_STR;
    do s p <- p_string p;
    Ret v (upd_node p v (fun n => set_str n (fst s) (snd s)))
  else if c =? 116 then
    do _u p <- p_match p (codes "true");
    do v p <- node_alloc p JSON_BOOL;
    Ret v (upd_node p v (fun n => set_num n 1))
  else if c =? 102 then
    do _u p <- p_match p (codes "false");
    do v p <- node_alloc p JSON_BOOL;
    Ret v (upd_node p v (fun n => set_num n 0))
  else if c =? 110 then
    do _u p <- p_match p (codes "null");
    node_alloc p JSON_NULL
  else if (c =? 45) || is_digit c then
    do n p <- p_number p;
    do v p <- node_alloc p JSON_NUM;
    Ret v (upd_node p v (fun x => set_num x n))
  else Null.

Fixpoint p_value (depth : nat) (p : parser) : res Z :=
  match depth with
  | O => Stuck
  | S d =>
      let p := p_skip_ws p in
      let c := p_peek p in
      if c <? 0 then Null
      else if c =? 123 then p_object (p_value d) p
      else if c =? 91 then p_array (p_value d) p
      else p_scalar p
  end.

(** [Ret] holds the root and the final scratch; the pointers may be 0. *)
Definition json_parse (s : option (list Z)) (len : Z) (scratch : option (list Z)) (scratch_sz : Z) : res Z :=
  match s, scratch with
  | Some s, Some scratch =>
      if scratch_sz <? sizeof_json_v then Null else
      let p := p_skip_ws (mk_p s len 0 scratch (s32 scratch_sz) 0 ∅) in
      do root p <- p_value (turns p) p;
      let p := p_skip_ws p in
      if negb (pos p =? plen p) then Null else Ret root p
  | _, _ => Null
  end.

Example parse_small :
  let v := JObj [(codes "id", JNum (-7)); (codes "tags", JArr [JStr (codes "a\b"); JNull; JBool true])] in
  match json_parse (Some (text v)) (zlen (text v)) (Some (zrep 400 255)) 400 with
  | Ret r p => (r, node p 0, arena_used p) = (0, mk_v JSON_OBJ 0 None 0 (Some 24) None, 208)
  | _ => False
  end.
Proof. vm_compute. reflexivity. Qed.

(** ** The grammar, on the bytes that are left *)

Fixpoint skip (s : list Z) : list Z :=
  match s with c :: r => if is_ws c then skip r else s | [] => [] end.

Definition utf8 (cp : Z) : list Z :=
  if cp <? 128 then [cp]
  else if cp <? 2048 then [192 + cp / 64; 128 + cp mod 64]
  else [224 + cp / 4096; 128 + cp / 64 mod 64; 128 + cp mod 64].

Definition prepend (b : list Z) (r : option (list Z * list Z)) : option (list Z * list Z) :=
  match r with Some (s, rest) => Some (b ++ s, rest) | None => None end.

(** The byte a short escape stands for. *)
Definition short_escape (e : Z) : option Z :=
  if (e =? 34) || (e =? 92) || (e =? 47) then Some e
  else if e =? 98 then Some 8 else if e =? 102 then Some 12 else if e =? 110 then Some 10
  else if e =? 114 then Some 13 else if e =? 116 then Some 9 else None.

Definition unit_of (h1 h2 h3 h4 : Z) : Z := ((hex_digit h1 * 16 + hex_digit h2) * 16 + hex_digit h3) * 16 + hex_digit h4.

Definition all_hex (l : list Z) : bool := forallb (fun c => negb (hex_digit c <? 0)) l.

(** Surrogates become U+FFFD. *)
Definition no_surrogate (cp : Z) : Z := if (cp >=? 55296) && (cp <=? 57343) then 65533 else cp.

(** A string body after its opening quote: the decoded bytes and what follows the closing quote. *)
Fixpoint r_string (s : list Z) : option (list Z * list Z) :=
  match s with
  | [] => None
  | c :: r =>
      if c =? 34 then Some ([], r)
      else if c =? 92 then
        match r with
        | e :: r1 =>
            match short_escape e with
            | Some b => prepend (utf8 b) (r_string r1)
            | None =>
                if e =? 117 then
                  match r1 with
                  | h1 :: h2 :: h3 :: h4 :: r2 =>
                      if all_hex [h1; h2; h3; h4] then prepend (utf8 (no_surrogate (unit_of h1 h2 h3 h4))) (r_string r2)
                      else None
                  | _ => None
                  end
                else None
            end
        | [] => None
        end
      else if c <? 32 then None
      else prepend (utf8 c) (r_string r)
  end.

Fixpoint r_digits (n : Z) (s : list Z) : option (Z * list Z) :=
  match s with
  | c :: r => if negb (is_digit c) then Some (n, s)
              else if n >? 214748364 then None else r_digits (s32 (n * 10 + (c - 48))) r
  | [] => Some (n, [])
  end.

Definition head (s : list Z) : Z := match s with c :: _ => c | [] => -1 end.

Definition r_number (s : list Z) : option (Z * list Z) :=
  let neg := head s =? 45 in
  let s := if neg then tail s else s in
  if negb (is_digit (head s)) then None else
  '(n, s) ← r_digits 0 s;
  if (head s =? 46) || (head s =? 101) || (head s =? 69) then None
  else Some (if neg then s32 (- n) else n, s).

Fixpoint r_match (kw s : list Z) : option (list Z) :=
  match kw, s with
  | [], _ => Some s
  | k :: kw, c :: s => if c =? k then r_match kw s else None
  | _, [] => None
  end.

Section Grammar.
Variable r_value : list Z -> option (json * list Z).

Fixpoint r_items (fuel : nat) (s : list Z) : option (list json * list Z) :=
  match fuel with
  | O => None
  | S k =>
      '(v, s) ← r_value (skip s);
      let s := skip s in
      if head s =? 44 then '(l, s) ← r_items k (tail s); Some (v :: l, s)
      else if head s =? 93 then Some ([v], tail s)
      else None
  end.

Definition r_array (s : list Z) : option (json * list Z) :=
  let s := skip (tail s) in
  if head s =? 93 then Some (JArr [], tail s) else '(l, s) ← r_items (S (length s)) s; Some (JArr l, s).

Definition r_pair (s : list Z) : option (list Z * json * list Z) :=
  let s := skip s in
  if negb (head s =? 34) then None else
  '(k, s) ← r_string (tail s);
  let s := skip s in
  if negb (head s =? 58) then None else
  '(v, s) ← r_value (skip (tail s)); Some (k, v, s).

Fixpoint r_pairs (fuel : nat) (s : list Z) : option (list (list Z * json) * list Z) :=
  match fuel with
  | O => None
  | S f =>
      '(k, v, s) ← r_pair s;
      let s := skip s in
      if head s =? 44 then '(l, s) ← r_pairs f (tail s); Some ((k, v) :: l, s)
      else if head s =? 125 then Some ([(k, v)], tail s)
      else None
  end.

Definition r_object (s : list Z) : option (json * list Z) :=
  let s := skip (tail s) in
  if head s =? 125 then Some (JObj [], tail s) else '(l, s) ← r_pairs (S (length s)) s; Some (JObj l, s).
End Grammar.

Definition r_scalar (s : list Z) : option (json * list Z) :=
  let c := head s in
  if c =? 34 then '(b, s) ← r_string (tail s); Some (JStr b, s)
  else if c =? 116 then s ← r_match (codes "true") s; Some (JBool true, s)
  else if c =? 102 then s ← r_match (codes "false") s; Some (JBool false, s)
  else if c =? 110 then s ← r_match (codes "null") s; Some (JNull, s)
  else if (c =? 45) || is_digit c then '(n, s) ← r_number s; Some (JNum n, s)
  else None.

Fixpoint r_value (depth : nat) (s : list Z) : option (json * list Z) :=
  match depth with
  | O => None
  | S d =>
      let s := skip s in
      if head s <? 0 then None
      else if head s =? 123 then r_object (r_value d) s
      else if head s =? 91 then r_array (r_value d) s
      else r_scalar s
  end.

(** A whole document: one value between white space. *)
Definition grammar (s : list Z) : option json :=
  let s := skip s in
  '(v, r) ← r_value (S (length s)) s;
  match skip r with [] => Some v | _ => None end.

(** The arena offset after a value that starts at offset [u]. *)
Definition align4 (u : Z) : Z := Z.land (u + 3) (Z.lnot 3).

Definition after_str (u : Z) (s : list Z) : Z := align4 u + sizeof_json_v + zlen s + 1.

Fixpoint after (u : Z) (v : json) : Z :=
  match v with
  | JStr s => after_str u s
  | JArr l => foldl after (align4 u + sizeof_json_v) l
  | JObj l => foldl (fun u kv => after (after_str u (fst kv)) (snd kv)) (align4 u + sizeof_json_v) l
  | _ => align4 u + sizeof_json_v
  end.

(** ** Reading *)

Definition wfp (p : parser) : Prop :=
  0 <= pos p <= plen p /\ plen p <= zlen (src p) /\ bytes_ok (ztake (plen p) (src p)) /\
  0 <= arena_used p <= arena_cap p /\ arena_cap p <= zlen (arena p).

(** The bytes not read yet. *)
Definition rest (p : parser) : list Z := ztake (plen p - pos p) (zdrop (pos p) (src p)).

(** [p'] is [p] further in the input. *)
Definition moved (p p' : parser) : Prop := p' = set_pos p (pos p') /\ pos p <= pos p' /\ wfp p'.

Lemma moved_refl p : wfp p -> moved p p.
Proof. intros W. split; [by destruct p | split; [lia | done]]. Qed.

Lemma moved_trans p1 p2 p3 : moved p1 p2 -> moved p2 p3 -> moved p1 p3.
Proof. intros (E1 & L1 & _) (E2 & L2 & W). split; [rewrite E2, E1; done | split; [lia | done]]. Qed.

Lemma rest_len p : wfp p -> zlen (rest p) = plen p - pos p.
Proof. intros (A & B & _). unfold rest. rewrite zlen_ztake, zlen_zdrop by lia. lia. Qed.

Lemma rest_empty p : wfp p -> pos p = plen p -> rest p = [].
Proof. intros W E. pose proof (rest_len p W) as L. destruct (rest p); [done |]. rewrite zlen_cons in L. pose proof (zlen_nonneg l). lia. Qed.

Lemma src_byte p i : wfp p -> 0 <= i < plen p -> 0 <= zget (src p) i < 256.
Proof.
  intros (_ & L & B & _) R. unfold bytes_ok in B. rewrite Forall_lookup in B. rewrite <- (zget_ztake _ (plen p)) by lia.
  apply (B (Z.to_nat i)), lookup_zget. rewrite zlen_ztake; lia.
Qed.

Lemma rest_adv p : wfp p -> pos p < plen p ->
  p_peek p = zget (src p) (pos p) /\ 0 <= p_peek p < 256 /\ rest p = p_peek p :: rest (adv p) /\ moved p (adv p).
Proof.
  intros W L. pose proof W as (A & B & C). assert (E : p_peek p = zget (src p) (pos p)).
  { unfold p_peek. destruct (pos p >=? plen p) eqn:G; [lia | done]. }
  split; [done |]. split; [rewrite E; by apply src_byte; [| lia] |]. split.
  - rewrite E. apply zlist_eq.
    + assert (W' : wfp (adv p)) by (unfold wfp; simpl; destruct W as (? & ? & ? & ? & ?); repeat split; try done; lia).
      rewrite zlen_cons, !rest_len by done. simpl. lia.
    + rewrite rest_len by done. intros i I. unfold rest at 1. rewrite zget_ztake, zget_zdrop by lia.
      destruct (decide (i = 0)) as [-> | N]; [by rewrite Z.add_0_r |].
      change (?x :: ?l) with ([x] ++ l). rewrite zget_app_r by (change (zlen [_]) with 1; lia). change (zlen [_]) with 1.
      unfold rest. simpl. rewrite zget_ztake, zget_zdrop by lia. f_equal. lia.
  - split; [done | split; [simpl; lia |]]. unfold wfp. simpl. destruct W as (? & ? & ? & ? & ?). repeat split; try done; lia.
Qed.

(** Either the input is at its end or the next byte is the head of the rest. *)
Lemma peek_cases p : wfp p ->
  (pos p = plen p /\ rest p = [] /\ p_peek p = -1) \/
  (pos p < plen p /\ rest p = p_peek p :: rest (adv p) /\ 0 <= p_peek p < 256 /\ moved p (adv p)).
Proof.
  intros W. pose proof W as (A & _). destruct (decide (pos p = plen p)) as [E | N].
  - left. split; [done | split; [by apply rest_empty |]]. unfold p_peek. destruct (pos p >=? plen p) eqn:G; [done | lia].
  - right. destruct (rest_adv p W ltac:(lia)) as (_ & ? & ? & ?). split; [lia | done].
Qed.

Lemma head_rest p : wfp p -> head (rest p) = p_peek p.
Proof. intros W. destruct (peek_cases p W) as [(_ & -> & ->) | (_ & -> & _)]; done. Qed.

Lemma next_spec p : wfp p -> exists p', p_next p = (head (rest p), p') /\ moved p p' /\ rest p' = tail (rest p) /\
  (0 <= head (rest p) -> p' = adv p /\ pos p < plen p).
Proof.
  intros W. unfold p_next. rewrite head_rest by done. destruct (peek_cases p W) as [(E & R & P) | (L & R & B & M)].
  - exists p. rewrite P, R. simpl. split; [done | split; [by apply moved_refl | split; [done | lia]]].
  - exists (adv p). destruct (p_peek p >=? 0) eqn:G; [| lia]. rewrite R. done.
Qed.

Lemma skip_loop_spec k p : wfp p -> (Z.to_nat (plen p - pos p) < k)%nat ->
  moved p (skip_loop k p) /\ rest (skip_loop k p) = skip (rest p).
Proof.
  revert p. induction k as [| k IH]; intros p W L; [lia |]. simpl. destruct (pos p <? plen p) eqn:E; zb.
  - destruct (rest_adv p W E) as (P & _ & R & M). rewrite R. simpl. rewrite P. destruct (is_ws (zget (src p) (pos p))) eqn:S.
    + destruct (IH (adv p)) as [M' R']; [apply M | simpl; lia |]. split; [by eapply moved_trans | done].
    + split; [by apply moved_refl |]. by rewrite R, P.
  - split; [by apply moved_refl |]. pose proof W as (A & _). by rewrite (rest_empty p) by (try done; lia).
Qed.

Lemma skip_spec p : wfp p -> moved p (p_skip_ws p) /\ rest (p_skip_ws p) = skip (rest p).
Proof. intros W. apply skip_loop_spec; [done | unfold turns; lia]. Qed.

Lemma turns_rest p : wfp p -> turns p = S (length (rest p)).
Proof. intros W. unfold turns. pose proof (rest_len p W) as L. unfold zlen in L. f_equal. lia. Qed.

(** ** String bodies *)

(** [p'] is [p] with the bytes [b] appended to the used part of the arena. *)
Definition wrote (p p' : parser) (b : list Z) : Prop :=
  src p' = src p /\ plen p' = plen p /\ arena_cap p' = arena_cap p /\ nodes p' = nodes p /\ wfp p' /\ pos p <= pos p' /\
  arena_used p' = arena_used p + zlen b /\ ztake (arena_used p') (arena p') = ztake (arena_used p) (arena p) ++ b.

Lemma moved_wrote p p' : moved p p' -> wrote p p' [].
Proof.
  intros (E & L & W). rewrite E in W |- *. unfold wrote. simpl. rewrite app_nil_r. change (zlen []) with 0.
  repeat split; try done; try lia; apply W.
Qed.

Lemma wrote_trans p1 p2 p3 b1 b2 : wrote p1 p2 b1 -> wrote p2 p3 b2 -> wrote p1 p3 (b1 ++ b2).
Proof.
  intros (A1 & B1 & C1 & D1 & W1 & P1 & U1 & T1) (A2 & B2 & C2 & D2 & W2 & P2 & U2 & T2). unfold wrote.
  rewrite zlen_app, T2, T1, <- app_assoc. repeat split; try congruence; try lia; apply W2.
Qed.

Lemma ztake_zset_last (l : list Z) a x : 0 <= a < zlen l -> ztake (a + 1) (zset l a x) = ztake a l ++ [x].
Proof.
  intros R. apply zlist_eq.
  - rewrite zlen_app, !zlen_ztake, zlen_zset by lia. change (zlen [x]) with 1. lia.
  - rewrite zlen_ztake, zlen_zset by lia. intros i I. rewrite zget_ztake by lia. destruct (decide (i = a)) as [-> | N].
    + rewrite zget_zset_eq by lia. rewrite zget_app_r by (rewrite zlen_ztake; lia). rewrite zlen_ztake, Z.min_l, Z.sub_diag by lia. done.
    + rewrite zget_zset_ne by lia. rewrite zget_app_l by (rewrite zlen_ztake; lia). by rewrite zget_ztake by lia.
Qed.

(** Storing the bytes [b] one by one after an allocation of their number. *)
Lemma alloc_wrote p b : wfp p -> b <> [] ->
  match arena_alloc_bytes p (zlen b) with
  | Stuck => False
  | Null => arena_cap p < arena_used p + zlen b
  | Ret a p1 => a = arena_used p /\ forall p2, src p2 = src p -> plen p2 = plen p -> pos p2 = pos p -> arena_cap p2 = arena_cap p ->
      nodes p2 = nodes p -> arena_used p2 = arena_used p1 -> zlen (arena p2) = zlen (arena p) ->
      ztake (arena_used p + zlen b) (arena p2) = ztake (arena_used p) (arena p) ++ b -> wrote p p2 b
  end.
Proof.
  intros (A & B & C & U & L) N. unfold arena_alloc_bytes. destruct (_ >? _) eqn:E; [lia |]. split; [done |].
  intros p2 E1 E2 E3 E4 E5 E6 E7 E8. simpl in E6. pose proof (zlen_nonneg b). unfold wrote, wfp. rewrite E1, E2, E3, E4, E6, E7, E8.
  repeat split; try done; lia.
Qed.

Lemma utf8_bytes cp : 0 <= cp < 65536 ->
  u8 cp = cp mod 256 /\ (cp < 2048 -> u8 (Z.lor 192 (Z.shiftr cp 6)) = 192 + cp / 64) /\
  u8 (Z.lor 128 (Z.land cp 63)) = 128 + cp mod 64 /\ u8 (Z.lor 224 (Z.shiftr cp 12)) = 224 + cp / 4096 /\
  u8 (Z.lor 128 (Z.land (Z.shiftr cp 6) 63)) = 128 + cp / 64 mod 64.
Proof.
  intros R. change 63 with (Z.ones 6). rewrite !Z.land_ones, !Z.shiftr_div_pow2 by lia.
  change (2 ^ 6) with 64. change (2 ^ 12) with 4096.
  assert (G : forall x, 0 <= x < 64 -> u8 (Z.lor 128 x) = 128 + x).
  { intros x X. rewrite Z.lor_comm. change 128 with (2 * 2 ^ 6) at 1. rewrite lor_add by (change (2 ^ 6) with 64; lia).
    rewrite u8_small; change (2 ^ 6) with 64; lia. }
  split; [done | split; [| split; [apply G; Z.div_mod_to_equations; lia | split; [| apply G; Z.div_mod_to_equations; lia]]]].
  - intros L. assert (0 <= cp / 64 < 32) by (Z.div_mod_to_equations; lia).
    rewrite Z.lor_comm. change 192 with (3 * 2 ^ 6) at 1. rewrite lor_add by (change (2 ^ 6) with 64; lia).
    rewrite u8_small; change (2 ^ 6) with 64; lia.
  - assert (0 <= cp / 4096 < 16) by (Z.div_mod_to_equations; lia).
    rewrite Z.lor_comm. change 224 with (14 * 2 ^ 4) at 1. rewrite lor_add by (change (2 ^ 4) with 16; lia).
    rewrite u8_small; change (2 ^ 4) with 16; lia.
Qed.

Lemma putc_spec p cp : wfp p -> 0 <= cp < 65536 ->
  match arena_putc_utf8 p cp with
  | Stuck => False
  | Null => arena_cap p < arena_used p + zlen (utf8 cp)
  | Ret _ p' => wrote p p' (utf8 cp) /\ pos p' = pos p
  end.
Proof.
  intros W R. destruct (utf8_bytes cp R) as (U1 & U2 & U3 & U4 & U5). unfold arena_putc_utf8, utf8, bind.
  pose proof W as (_ & _ & _ & U & L).
  destruct (cp <? 128) eqn:E1; [| destruct (cp <? 2048) eqn:E2]; zb; rewrite ?U3, ?U4, ?U5, ?U2 by lia.
  - rewrite U1, Z.mod_small by lia. pose proof (alloc_wrote p [cp] W ltac:(done)) as A. change (zlen [cp]) with 1 in *.
    destruct (arena_alloc_bytes p 1) eqn:E; [done | done |]. destruct A as [-> A]. unfold arena_alloc_bytes in E.
    destruct (_ >? _) eqn:G; [done |]. injection E as <-. split; [| done]. apply A; simpl; rewrite ?zlen_zset; try done.
    apply ztake_zset_last. lia.
  - set (b0 := 192 + cp / 64). set (b1 := 128 + cp mod 64).
    pose proof (alloc_wrote p [b0; b1] W ltac:(done)) as A. change (zlen [b0; b1]) with 2 in *.
    destruct (arena_alloc_bytes p 2) eqn:E; [done | done |]. destruct A as [-> A]. unfold arena_alloc_bytes in E.
    destruct (_ >? _) eqn:G; [done |]. injection E as <-. split; [| done]. apply A; simpl; rewrite ?zlen_zset; try done.
    replace (arena_used p + 2) with (arena_used p + 1 + 1) by lia.
    rewrite !ztake_zset_last by (rewrite ?zlen_zset; lia). by rewrite <- app_assoc.
  - set (b0 := 224 + cp / 4096). set (b1 := 128 + cp / 64 mod 64). set (b2 := 128 + cp mod 64).
    pose proof (alloc_wrote p [b0; b1; b2] W ltac:(done)) as A. change (zlen [b0; b1; b2]) with 3 in *.
    destruct (arena_alloc_bytes p 3) eqn:E; [done | done |]. destruct A as [-> A]. unfold arena_alloc_bytes in E.
    destruct (_ >? _) eqn:G; [done |]. injection E as <-. split; [| done]. apply A; simpl; rewrite ?zlen_zset; try done.
    replace (arena_used p + 3) with (arena_used p + 2 + 1) by lia. rewrite ztake_zset_last by (rewrite ?zlen_zset; lia).
    replace (arena_used p + 2) with (arena_used p + 1 + 1) by lia.
    rewrite !ztake_zset_last by (rewrite ?zlen_zset; lia). by rewrite <- !app_assoc.
Qed.

(** [f] does on the arena what [r] does on the rest of the input: it appends the bytes [r] decodes, or fails when [r] fails
    or when they do not fit. *)
Definition writes (p : parser) (m : res unit) (r : option (list Z * list Z)) : Prop :=
  match m with
  | Stuck => False
  | Null => forall b s, r = Some (b, s) -> arena_cap p < arena_used p + zlen b
  | Ret _ p' => exists b, r = Some (b, rest p') /\ wrote p p' b
  end.

Lemma moved_same p p' : moved p p' -> arena_used p' = arena_used p /\ arena_cap p' = arena_cap p /\ wfp p'.
Proof. intros (E & _ & W). rewrite E. simpl. split; [done | split; [done |]]. by rewrite <- E. Qed.

Lemma putc_writes p p1 cp : wfp p -> moved p p1 -> 0 <= cp < 65536 ->
  writes p (arena_putc_utf8 p1 cp) (Some (utf8 cp, rest p1)).
Proof.
  intros W M R. destruct (moved_same _ _ M) as (U & C & W1). pose proof (putc_spec p1 cp W1 R) as P.
  unfold writes. destruct (arena_putc_utf8 p1 cp) as [| | u p2]; [done | |].
  - intros b s [= <- <-]. lia.
  - destruct P as [Wr Ep]. exists (utf8 cp). split; [| exact (wrote_trans _ _ _ _ _ (moved_wrote _ _ M) Wr)].
    do 2 f_equal. unfold rest. destruct Wr as (E1 & E2 & _). by rewrite E1, E2, Ep.
Qed.

Lemma hex_digit_range c : -1 <= hex_digit c < 16.
Proof. unfold hex_digit. repeat cases; lia. Qed.

Lemma hex_spec n p : wfp p ->
  match hex_loop n p with
  | Stuck => False
  | Null => forall cs r, rest p = cs ++ r -> length cs = n -> all_hex cs = false
  | Ret l p' => exists cs, rest p = cs ++ rest p' /\ length cs = n /\ all_hex cs = true /\ l = hex_digit <$> cs /\ moved p p'
  end.
Proof.
  revert p. induction n as [| n IH]; intros p W; cbn [hex_loop]; [exists []; split; [done | repeat split; try done; by apply moved_refl] |].
  destruct (next_spec p W) as (p1 & -> & M & R & K). destruct (hex_digit (head (rest p)) <? 0) eqn:H.
  - intros [| c cs] r E L; [done |]. simpl. rewrite E in H. simpl in H. by rewrite H.
  - assert (H0 : 0 <= head (rest p)).
    { destruct (rest p) as [| c l]; [done |]. simpl in *. unfold hex_digit in H. repeat (destruct (_ && _) eqn:? in H); zb; lia. }
    destruct (K H0) as [-> L]. destruct (rest_adv p W L) as (_ & _ & E & _).
    specialize (IH (adv p) ltac:(apply M)). destruct (hex_loop n (adv p)) as [| | l p2]; simpl; [done | |].
    + intros [| c cs] r E' L'; [done |]. simpl. rewrite E in E', H. injection E' as <- E'. injection L' as L'.
      rewrite (IH cs r E' L'). apply andb_false_r.
    + destruct IH as (cs & E2 & L2 & A2 & -> & M2). exists (p_peek p :: cs). rewrite E, E2. simpl.
      rewrite E in H. simpl in H. rewrite H, A2. split; [done | split; [by f_equal | split; [done | split; [done |]]]].
      by eapply moved_trans.
Qed.

Definition r_escape (r : list Z) : option (list Z * list Z) :=
  match r with
  | e :: r1 =>
      match short_escape e with
      | Some b => Some (utf8 b, r1)
      | None =>
          if e =? 117 then
            match r1 with
            | h1 :: h2 :: h3 :: h4 :: r2 =>
                if all_hex [h1; h2; h3; h4] then Some (utf8 (no_surrogate (unit_of h1 h2 h3 h4)), r2) else None
            | _ => None
            end
          else None
      end
  | [] => None
  end.

Lemma r_string_escape r : r_string (92 :: r) = match r_escape r with Some (b, r') => prepend b (r_string r') | None => None end.
Proof.
  destruct r as [| e r1]; [done |]. cbn [r_string r_escape]. change (92 =? 34) with false. change (92 =? 92) with true. cbv iota.
  destruct (short_escape e); [done |]. destruct (e =? 117); [| done].
  destruct r1 as [| h1 [| h2 [| h3 [| h4 r2]]]]; try done. by destruct (all_hex _).
Qed.

Lemma unit_bits h1 h2 h3 h4 (d := hex_digit) : all_hex [h1; h2; h3; h4] = true ->
  Z.lor (Z.lor (Z.lor (Z.shiftl (d h1) 12) (Z.shiftl (d h2) 8)) (Z.shiftl (d h3) 4)) (d h4) = unit_of h1 h2 h3 h4 /\
  0 <= unit_of h1 h2 h3 h4 < 65536.
Proof.
  intros H. unfold all_hex, unit_of in *. simpl in H. subst d.
  pose proof (hex_digit_range h1). pose proof (hex_digit_range h2). pose proof (hex_digit_range h3). pose proof (hex_digit_range h4).
  zb. set (d := hex_digit) in *. clearbody d. rewrite !Z.shiftl_mul_pow2 by lia. change (2 ^ 12) with 4096. change (2 ^ 8) with 256. change (2 ^ 4) with 16.
  rewrite (Z.lor_comm (d h1 * 4096)). replace (d h1 * 4096) with (d h1 * 2 ^ 12) by (change (2 ^ 12) with 4096; lia).
  rewrite (lor_add 12) by (change (2 ^ 12) with 4096; lia). change (2 ^ 12) with 4096.
  replace (d h2 * 256 + d h1 * 4096) with ((d h2 + d h1 * 16) * 2 ^ 8) by (change (2 ^ 8) with 256; lia).
  rewrite (Z.lor_comm _ (d h3 * 16)), (lor_add 8) by (change (2 ^ 8) with 256; lia). change (2 ^ 8) with 256.
  replace (d h3 * 16 + (d h2 + d h1 * 16) * 256) with ((d h3 + (d h2 + d h1 * 16) * 16) * 2 ^ 4) by (change (2 ^ 4) with 16; lia).
  rewrite (Z.lor_comm _ (d h4)), (lor_add 4) by (change (2 ^ 4) with 16; lia). change (2 ^ 4) with 16. lia.
Qed.

Lemma escape_spec p : wfp p -> writes p (p_escape p) (r_escape (rest p)).
Proof.
  intros W. unfold p_escape. destruct (next_spec p W) as (p1 & -> & M & R & K). set (e := head (rest p)) in *.
  assert (S : forall b, 0 <= e -> short_escape e = Some b -> r_escape (rest p) = Some (utf8 b, rest p1)).
  { intros b E0 S. destruct (K E0) as [-> L]. destruct (rest_adv p W L) as (_ & _ & E & _).
    unfold e in S. rewrite E in S |- *. simpl in *. by rewrite S. }
  unfold short_escape in S.
  destruct ((e =? 34) || (e =? 92) || (e =? 47)) eqn:E1.
  { assert (0 <= e < 256) by lia. rewrite (S e) by (done || lia). apply putc_writes; [done | done | lia]. }
  destruct (e =? 98) eqn:E2; [rewrite (S 8) by (done || lia); by apply putc_writes |].
  destruct (e =? 102) eqn:E3; [rewrite (S 12) by (done || lia); by apply putc_writes |].
  destruct (e =? 110) eqn:E4; [rewrite (S 10) by (done || lia); by apply putc_writes |].
  destruct (e =? 114) eqn:E5; [rewrite (S 13) by (done || lia); by apply putc_writes |].
  destruct (e =? 116) eqn:E6; [rewrite (S 9) by (done || lia); by apply putc_writes |].
  assert (Sn : short_escape e = None) by (unfold short_escape; by rewrite E1, E2, E3, E4, E5, E6).
  destruct (e =? 117) eqn:E7.
  2: { intros b s. unfold r_escape, e in *. destruct (rest p) as [| c l]; [done |]. simpl in *. by rewrite Sn, E7. }
  destruct (K ltac:(lia)) as [-> L]. destruct (rest_adv p W L) as (_ & _ & E & _). assert (E' : p_peek p = e) by (by rewrite <- head_rest).
  rewrite E' in E. assert (W1 : wfp (adv p)) by apply M. pose proof (hex_spec 4 (adv p) W1) as H.
  rewrite E. unfold r_escape. rewrite Sn, E7. destruct (hex_loop 4 (adv p)) as [| | l p2]; cbn [bind]; [done | |].
  - intros b s. destruct (rest (adv p)) as [| h1 [| h2 [| h3 [| h4 r2]]]]; try done.
    rewrite (H [h1; h2; h3; h4] r2) by done. done.
  - destruct H as (cs & E2' & L2 & A2 & -> & M2). destruct cs as [| h1 [| h2 [| h3 [| h4 [|]]]]]; try done. rewrite E2'. cbn [app]. rewrite A2.
    destruct (unit_bits h1 h2 h3 h4 A2) as [U B]. cbv zeta in U.
    change (zget _ 0) with (hex_digit h1). change (zget _ 1) with (hex_digit h2). change (zget _ 2) with (hex_digit h3). change (zget _ 3) with (hex_digit h4).
    rewrite U. pose proof (moved_trans _ _ _ M M2) as M3. unfold no_surrogate. destruct (_ && _); by apply putc_writes.
Qed.

Lemma rest_wrote p p' b : wfp p -> wrote p p' b -> (length (rest p') + Z.to_nat (pos p' - pos p) <= length (rest p))%nat.
Proof.
  intros W (_ & E & _ & _ & W' & L & _). pose proof (rest_len p W). pose proof (rest_len p' W'). unfold zlen in *. lia.
Qed.

(** Continuing after a part of the body. *)
Lemma writes_then p (m : res unit) (k : parser -> res unit) r0 r :
  wfp p -> writes p m r0 ->
  (forall b s, r0 = Some (b, s) -> r = prepend b (r_string s)) -> (r0 = None -> r = None) ->
  (forall p2 b, wrote p p2 b -> m = Ret tt p2 -> writes p2 (k p2) (r_string (rest p2))) ->
  writes p (do _u p <- m; k p) r.
Proof.
  intros W M S N K. unfold writes in M. destruct m as [| | [] p2]; simpl; [done | |].
  - intros b s E. destruct r0 as [[b' s'] |]; [| by rewrite N in E]. rewrite (S b' s') in E by done.
    specialize (M b' s' eq_refl). destruct (r_string s') as [[b2 s2] |]; [| done]. injection E as <- <-.
    rewrite zlen_app. pose proof (zlen_nonneg b2). lia.
  - destruct M as (b & E & Wr). rewrite (S _ _ E). specialize (K p2 b Wr eq_refl). unfold writes in K |- *.
    destruct (k p2) as [| | u p3]; [done | |].
    + intros b' s' E'. destruct (r_string (rest p2)) as [[b2 s2] |]; [| done]. injection E' as <- <-.
      specialize (K b2 s2 eq_refl). destruct Wr as (_ & _ & C & _ & _ & _ & U & _). rewrite zlen_app. lia.
    + destruct K as (b2 & -> & Wr2). exists (b ++ b2). split; [done | by eapply wrote_trans].
Qed.

Lemma string_loop_spec k p : wfp p -> (length (rest p) < k)%nat -> writes p (string_loop k p) (r_string (rest p)).
Proof.
  revert p. induction k as [| k IH]; intros p W L; [lia |]. cbn [string_loop].
  destruct (peek_cases p W) as [(E & R & P) | (L0 & R & B & M)]; [rewrite P, R; by intros b s |].
  set (c := p_peek p) in *. rewrite (proj2 (Z.ltb_ge _ _)) by lia. rewrite R in L. simpl in L.
  assert (Wa : wfp (adv p)) by apply M.
  destruct (c =? 34) eqn:E1.
  { rewrite R. simpl. rewrite E1. exists []. split; [done | by apply moved_wrote]. }
  assert (G : forall (m : res unit) r0 r, writes (adv p) m r0 ->
    (forall b s, r0 = Some (b, s) -> r = prepend b (r_string s)) -> (r0 = None -> r = None) ->
    writes p (do _u p <- m; string_loop k p) r).
  { intros m r0 r Mw S N. pose proof (writes_then (adv p) m (string_loop k) r0 r Wa Mw S N) as T.
    assert (T' : writes (adv p) (do _u p <- m; string_loop k p) r).
    { apply T. intros p2 b Wr _. apply IH; [apply Wr |]. pose proof (rest_wrote _ _ _ Wa Wr). lia. }
    unfold writes in T' |- *. destruct (bind m _) as [| | u p3]; [done | exact T' |].
    destruct T' as (b & -> & Wr). exists b. split; [done |]. exact (wrote_trans _ _ _ _ _ (moved_wrote _ _ M) Wr). }
  destruct (c =? 92) eqn:E2.
  { zb. rewrite R, E2, r_string_escape. apply (G _ (r_escape (rest (adv p)))); [by apply escape_spec | |].
    - by intros b s ->.
    - by intros ->. }
  destruct (c <? 32) eqn:E3; [rewrite R; simpl; rewrite E1, E2, E3; by intros b s |].
  apply (G _ (Some (utf8 c, rest (adv p)))); [apply putc_writes; [done | by apply moved_refl | lia] | | done].
  intros b s [= <- <-]. rewrite R. simpl. by rewrite E1, E2, E3.
Qed.

Lemma string_spec p : wfp p -> head (rest p) = 34 ->
  match p_string p with
  | Stuck => False
  | Null => forall s r, r_string (tail (rest p)) = Some (s, r) -> arena_cap p < arena_used p + zlen s + 1
  | Ret ol p' => exists s, r_string (tail (rest p)) = Some (s, rest p') /\ ol = (arena_used p, zlen s) /\
      wrote p p' (s ++ [0]) /\ pos p < pos p'
  end.
Proof.
  intros W H. unfold p_string. destruct (next_spec p W) as (p1 & -> & M & R & K). rewrite H. simpl negb. cbv iota.
  destruct (K ltac:(lia)) as [-> L]. assert (Wa : wfp (adv p)) by apply M. rewrite <- R.
  pose proof (string_loop_spec (turns (adv p)) (adv p) Wa ltac:(rewrite turns_rest by done; lia)) as S.
  destruct (string_loop _ _) as [| | u p2]; simpl; [done | intros s r E; specialize (S s r E); simpl in S; lia |].
  destruct S as (s & E & Wr). pose proof Wr as (_ & _ & C & _ & W2 & P2 & U & _). simpl in C, U, P2.
  pose proof (alloc_wrote p2 [0] W2 ltac:(done)) as A. change (zlen [0]) with 1 in A.
  destruct (arena_alloc_bytes p2 1) as [| | a p3] eqn:Q; simpl; [done | intros s' r'; rewrite E; intros [= <- <-]; lia |].
  destruct A as [-> A]. unfold arena_alloc_bytes in Q. destruct (_ >? _) eqn:G; [done |]. injection Q as <-.
  pose proof W2 as (_ & _ & _ & U2 & L2).
  assert (W3 : wrote p2 (poke (set_used p2 (arena_used p2 + 1)) (arena_used p2) 0) [0]).
  { apply A; simpl; rewrite ?zlen_zset; try done. apply ztake_zset_last. lia. }
  exists s. split; [exact E |]. split; [f_equal; lia |]. split; [| simpl; lia].
  exact (wrote_trans _ _ _ _ _ (wrote_trans _ _ _ _ _ (moved_wrote _ _ M) Wr) W3).
Qed.

(** ** Numbers and keywords *)

Lemma number_loop_spec k n p : wfp p -> (length (rest p) < k)%nat ->
  match number_loop k n p with
  | Stuck => False
  | Null => r_digits n (rest p) = None
  | Ret m p' => r_digits n (rest p) = Some (m, rest p') /\ moved p p'
  end.
Proof.
  revert n p. induction k as [| k IH]; intros n p W L; [lia |]. cbn [number_loop].
  destruct (pos p <? plen p) eqn:E; zb.
  - destruct (rest_adv p W E) as (P & B & R & M). rewrite R in L |- *. simpl in L. cbn [r_digits]. rewrite <- P.
    destruct (is_digit (p_peek p)); simpl; [| split; [by rewrite <- R | by apply moved_refl]].
    destruct (n >? 214748364); [done |].
    specialize (IH (s32 (n * 10 + (p_peek p - 48))) (adv p) ltac:(apply M) ltac:(lia)).
    destruct (number_loop _ _ _) as [| | m p']; [done | done |]. destruct IH as [-> M']. split; [done | by eapply moved_trans].
  - pose proof W as (A & _). rewrite (rest_empty p) by (done || lia). split; [done | by apply moved_refl].
Qed.

Lemma number_spec p : wfp p ->
  match p_number p with
  | Stuck => False
  | Null => r_number (rest p) = None
  | Ret n p' => r_number (rest p) = Some (n, rest p') /\ moved p p'
  end.
Proof.
  intros W. unfold p_number, r_number. rewrite head_rest by done.
  set (p1 := if p_peek p =? 45 then adv p else p).
  assert (M1 : moved p p1 /\ rest p1 = if p_peek p =? 45 then tail (rest p) else rest p).
  { unfold p1. destruct (p_peek p =? 45) eqn:E; [| split; [by apply moved_refl | done]].
    destruct (peek_cases p W) as [(_ & _ & P) | (L & -> & _ & M)]; [lia | done]. }
  destruct M1 as [M1 R1]. rewrite <- R1. assert (W1 : wfp p1) by apply M1. rewrite head_rest by done.
  destruct (is_digit (p_peek p1)); cbn [negb]; [| done].
  pose proof (number_loop_spec (turns p1) 0 p1 W1 ltac:(rewrite turns_rest by done; lia)) as N.
  destruct (number_loop _ _ _) as [| | n p2]; cbn [bind]; [done | by rewrite N |]. destruct N as [-> M2]. simpl.
  assert (W2 : wfp p2) by apply M2. rewrite head_rest by done.
  assert (C : (pos p2 <? plen p2) && ((zget (src p2) (pos p2) =? 46) || (zget (src p2) (pos p2) =? 101) || (zget (src p2) (pos p2) =? 69))
    = ((p_peek p2 =? 46) || (p_peek p2 =? 101) || (p_peek p2 =? 69))).
  { destruct (peek_cases p2 W2) as [(E & _ & ->) | (L & _)].
    - by rewrite (proj2 (Z.ltb_ge _ _)) by lia.
    - rewrite (proj2 (Z.ltb_lt _ _)) by lia. destruct (rest_adv p2 W2 L) as (-> & _). done. }
  rewrite C. destruct ((p_peek p2 =? 46) || (p_peek p2 =? 101) || (p_peek p2 =? 69)); [done |]. split; [done | by eapply moved_trans].
Qed.

Lemma r_digits_len n s m r : r_digits n s = Some (m, r) -> (length r <= length s)%nat.
Proof.
  revert n. induction s as [| c s IH]; intros n; simpl; [by intros [= <- <-] |].
  destruct (is_digit c); simpl; [| by intros [= <- <-]]. destruct (n >? 214748364); [done |]. intros E. apply IH in E. lia.
Qed.

(** A number is never empty. *)
Lemma r_number_shorter s n : r_number s <> Some (n, s).
Proof.
  unfold r_number. intros E. destruct (is_digit (head (if head s =? 45 then tail s else s))) eqn:D; simpl in E; [| done].
  destruct (r_digits 0 _) as [[m r] |] eqn:R; [| done]. cbn [mbind option_bind] in E.
  assert (L : (S (length r) <= length s)%nat).
  { destruct (head s =? 45) eqn:H.
    - apply r_digits_len in R. destruct s; [done |]. simpl in *. lia.
    - destruct s as [| c s]; [done |]. simpl in D, R. rewrite D in R. simpl in R. apply r_digits_len in R. simpl. lia. }
  destruct (_ || _) in E; [done |]. injection E as _ ->. lia.
Qed.

Lemma r_match_iff kw s r : r_match kw s = Some r <-> s = kw ++ r.
Proof.
  revert s. induction kw as [| k kw IH]; intros s; simpl; [split; [by intros [= ->] | by intros ->] |].
  destruct s as [| c s]; [done |]. destruct (c =? k) eqn:E; zb.
  - rewrite IH. subst. split; [by intros -> | by intros [= ->]].
  - split; [done | intros [= -> _]; done].
Qed.

Lemma match_spec p kw : wfp p -> my_strlen kw = zlen kw ->
  match p_match p kw with
  | Stuck => False
  | Null => r_match kw (rest p) = None
  | Ret _ p' => r_match kw (rest p) = Some (rest p') /\ moved p p' /\ pos p' = pos p + zlen kw
  end.
Proof.
  intros W E. unfold p_match. rewrite E. pose proof (zlen_nonneg kw) as N. pose proof (rest_len p W) as L.
  destruct (pos p + zlen kw >? plen p) eqn:G.
  { destruct (r_match kw (rest p)) as [r |] eqn:R; [| done]. apply r_match_iff in R. rewrite R, zlen_app in L. pose proof (zlen_nonneg r). lia. }
  destruct (zfind _ _ _) as [j |] eqn:F.
  - apply zfind_Some in F as (Rj & Pj & _). zb. destruct (r_match kw (rest p)) as [r |] eqn:R; [| done]. apply r_match_iff in R.
    exfalso. apply Pj. replace (zget (src p) (pos p + j)) with (zget (rest p) j).
    2: { unfold rest. destruct W as (? & _). by rewrite zget_ztake, zget_zdrop by lia. }
    rewrite R. apply zget_app_l. lia.
  - pose proof W as (A & B & C). rewrite zfind_None in F. set (p' := set_pos p (pos p + zlen kw)).
    assert (W' : wfp p') by (unfold wfp; simpl; destruct C as (? & ? & ?); repeat split; try done; lia).
    split; [| split; [split; [done | split; [simpl; lia | done]] | done]].
    apply r_match_iff. apply zlist_eq.
    + rewrite zlen_app, !rest_len by done. simpl. lia.
    + intros i I. rewrite L in I. unfold rest at 1. rewrite zget_ztake, zget_zdrop by lia. destruct (decide (i < zlen kw)).
      * rewrite zget_app_l by lia. specialize (F i ltac:(lia)). zb. done.
      * rewrite zget_app_r by lia. unfold rest. simpl. rewrite zget_ztake, zget_zdrop by lia. f_equal. lia.
Qed.

(** ** Values in the arena *)

(** [s] and a NUL lie at [o]. *)
Definition string_at (ar : list Z) (o : Z) (s : list Z) : Prop := forall i, 0 <= i <= zlen s -> zget ar (o + i) = zget (s ++ [0]) i.

(** The node [n] holds the string [s], whose body lies in [lo, hi). *)
Definition holds_str (ar : list Z) (lo hi : Z) (n : json_v) (s : list Z) : Prop :=
  vtype n = JSON_STR /\ str_len n = zlen s /\ exists o, str n = Some o /\ lo <= o /\ o + zlen s + 1 <= hi /\ string_at ar o s.

(** The chain of siblings that starts at the pointer [o] holds the elements [l], one after the other from [lo] on; an
    element takes the nodes from its first [a] to its last [b]. *)
Section Chains.
Context {E : Type} (N : gmap Z json_v) (hi : Z) (elem : Z -> Z -> Z -> Z -> E -> Prop).

Fixpoint chain (lo : Z) (o : option Z) (l : list E) : Prop :=
  match l with
  | [] => o = None
  | e :: l => exists a b m n, o = Some a /\ lo <= m <= hi /\ elem lo m a b e /\ N !! b = Some n /\ chain m (next n) l
  end.
End Chains.

(** A key and the value that follows it. *)
Definition pair_at (N : gmap Z json_v) (ar : list Z) (shape : Z -> Z -> Z -> json -> Prop) (lo hi a b : Z) (kv : list Z * json) : Prop :=
  exists m nk, lo <= a /\ a + sizeof_json_v <= m /\ m <= b /\ N !! a = Some nk /\ holds_str ar (a + sizeof_json_v) m nk (fst kv) /\
    next nk = Some b /\ shape m hi b (snd kv).

(** The node at [a] is the root of a tree that denotes [v] and lies in [lo, hi). *)
Fixpoint shape (N : gmap Z json_v) (ar : list Z) (lo hi a : Z) (v : json) : Prop :=
  lo <= a /\ a + sizeof_json_v <= hi /\ exists n, N !! a = Some n /\
  match v with
  | JNull => vtype n = JSON_NULL
  | JBool b => vtype n = JSON_BOOL /\ vnum n = if b then 1 else 0
  | JNum z => vtype n = JSON_NUM /\ vnum n = z
  | JStr s => holds_str ar (a + sizeof_json_v) hi n s
  | JArr l => vtype n = JSON_ARR /\ chain N hi (fun lo hi a b v => a = b /\ shape N ar lo hi a v) (a + sizeof_json_v) (child n) l
  | JObj l => vtype n = JSON_OBJ /\ chain N hi (fun lo hi a b kv => pair_at N ar (shape N ar) lo hi a b kv) (a + sizeof_json_v) (child n) l
  end.

(** Equal up to the sibling pointer. *)
Definition same_node (n n' : json_v) : Prop :=
  vtype n' = vtype n /\ vnum n' = vnum n /\ str n' = str n /\ str_len n' = str_len n /\ child n' = child n.

Lemma holds_str_frame ar ar' lo hi n n' s : (forall i, lo <= i < hi -> zget ar' i = zget ar i) -> same_node n n' ->
  holds_str ar lo hi n s -> holds_str ar' lo hi n' s.
Proof.
  intros A (E1 & _ & E3 & E4 & _) (T & L & o & O & Lo & Hi & S). unfold holds_str. rewrite E1, E3, E4.
  split; [done | split; [done |]]. exists o. split; [done | split; [done | split; [done |]]].
  intros i I. rewrite A by lia. by apply S.
Qed.

(** On [lo, hi) the second scratch agrees with the first, up to the sibling pointer of [a]. *)
Definition agree (N N' : gmap Z json_v) (ar ar' : list Z) (lo hi a : Z) : Prop :=
  (forall x, lo <= x < hi -> x <> a -> N' !! x = N !! x) /\ (forall i, lo <= i < hi -> zget ar' i = zget ar i) /\
  (forall n, N !! a = Some n -> exists n', N' !! a = Some n' /\ same_node n n').

Lemma agree_in N N' ar ar' lo hi a lo' hi' b : agree N N' ar ar' lo hi a -> lo <= lo' -> hi' <= hi -> lo' <= b < hi' -> a < lo' ->
  agree N N' ar ar' lo' hi' b.
Proof.
  intros (FN & FA & _) L H B A. split; [intros; apply FN; lia | split; [intros; apply FA; lia |]].
  intros n E. exists n. split; [rewrite FN by lia; done | done].
Qed.

Lemma shape_root N ar lo hi a v : shape N ar lo hi a v -> lo <= a /\ a + sizeof_json_v <= hi /\ exists n, N !! a = Some n.
Proof. destruct v; intros (? & ? & n & ? & _); eauto. Qed.

(** A chain is kept when its elements are. *)
Lemma chain_frame {E} N N' hi (elem elem' : Z -> Z -> Z -> Z -> E -> Prop) l lo o :
  Forall (fun e => forall lo' m a b, lo <= lo' -> m <= hi -> elem lo' m a b e -> elem' lo' m a b e /\ N' !! b = N !! b) l ->
  chain N hi elem lo o l -> chain N' hi elem' lo o l.
Proof.
  intros F. assert (G : forall lo', lo <= lo' -> chain N hi elem lo' o l -> chain N' hi elem' lo' o l); [| apply G; lia].
  revert o. induction F as [| e l He _ IH]; intros o lo' L; simpl; [done |]. intros (a & b & m & n & -> & Hm & El & Eb & C).
  destruct (He lo' m a b L ltac:(lia) El) as [El' Eb']. exists a, b, m, n. rewrite Eb'.
  split; [done | split; [done | split; [done | split; [done | apply IH; [lia | done]]]]].
Qed.

(** A tree only depends on its own region, and not on the sibling pointer of its root. *)
Lemma shape_frame v : forall N N' ar ar' lo hi a, shape N ar lo hi a v -> agree N N' ar ar' lo hi a -> shape N' ar' lo hi a v.
Proof.
  induction v as [| b | z | s | l IH | l IH] using json_ind'; intros N N' ar ar' lo hi a (La & Ha & n & En & Sh) Ag;
    (split; [done | split; [done |]]; destruct (proj2 (proj2 Ag) n En) as (n' & En' & Sn); exists n'; split; [done |]);
    pose proof Sn as (E1 & E2 & E3 & E4 & E5); unfold sizeof_json_v in *.
  1, 2, 3: congruence.
  - destruct Ag as (_ & FA & _). apply (holds_str_frame ar ar' _ _ n n'); [intros; apply FA; lia | done | done].
  - destruct Sh as [T I]. split; [congruence |]. rewrite E5. eapply chain_frame; [| exact I].
    apply (Forall_impl _ _ _ IH). intros x Hx lo' m c b L Hm [<- S]. destruct (shape_root _ _ _ _ _ _ S) as (L1 & L2 & _).
    unfold sizeof_json_v in L2. split; [split; [done |] | apply (proj1 Ag); lia].
    apply (Hx N N' ar ar'); [done |]. eapply agree_in; [exact Ag | lia | lia | lia | lia].
  - destruct Sh as [T I]. split; [congruence |]. rewrite E5. eapply chain_frame; [| exact I].
    apply (Forall_impl _ _ _ IH). intros [k x] Hx lo' m c b L Hm (m1 & nk & L1 & L2 & L3 & Ec & Hk & Enx & S). simpl in Hx, S.
    destruct (shape_root _ _ _ _ _ _ S) as (L4 & L5 & _). unfold sizeof_json_v in *. split; [| apply (proj1 Ag); lia].
    exists m1, nk. split; [done | split; [done | split; [done | split; [rewrite (proj1 Ag) by lia; done | split; [| split; [done |]]]]]].
    + destruct Ag as (_ & FA & _). apply (holds_str_frame ar ar' _ _ nk nk); [intros; apply FA; unfold sizeof_json_v in *; lia | done | done].
    + apply (Hx N N' ar ar'); [done |]. eapply agree_in; [exact Ag | lia | lia | lia | lia].
Qed.

(** ** Growth of the scratch *)

(** [p'] comes after [p]: below the used part of [p], nodes only change at [T] and bytes not at all. *)
Record grows (T : Z -> Prop) (p p' : parser) : Prop := mk_grows
  { g_src : src p' = src p; g_plen : plen p' = plen p; g_cap : arena_cap p' = arena_cap p; g_wf : wfp p';
    g_pos : pos p <= pos p'; g_used : arena_used p <= arena_used p';
    g_nodes : forall x, x < arena_used p -> ~ T x -> nodes p' !! x = nodes p !! x;
    g_bytes : forall i, 0 <= i < arena_used p -> zget (arena p') i = zget (arena p) i }.

Definition nowhere (x : Z) : Prop := False.

Lemma moved_grows T p p' : moved p p' -> grows T p p'.
Proof. intros (E & L & W). rewrite E in W |- *. by split. Qed.

Lemma wrote_grows T p p' b : wrote p p' b -> grows T p p'.
Proof.
  intros (A & B & C & D & W & P & U & Tk). pose proof (zlen_nonneg b). split; try done; [lia | by rewrite D |].
  intros i I. destruct W as (_ & _ & _ & Ru & La). assert (L' : zlen (ztake (arena_used p) (arena p)) = arena_used p).
  { apply (f_equal zlen) in Tk. rewrite zlen_app, zlen_ztake in Tk by lia. lia. }
  rewrite <- (zget_ztake (arena p') (arena_used p')), Tk, zget_app_l, zget_ztake by lia. done.
Qed.

Lemma grows_trans (T1 T2 T : Z -> Prop) p1 p2 p3 : grows T1 p1 p2 -> grows T2 p2 p3 ->
  (forall x, x < arena_used p1 -> T1 x \/ T2 x -> T x) -> grows T p1 p3.
Proof.
  intros [] [] S. split; try congruence; try lia; try done.
  - intros x L N. rewrite g_nodes1, g_nodes0; [done | done | | lia |]; intros ?; apply N, S; auto.
  - intros i I. rewrite g_bytes1, g_bytes0 by lia. done.
Qed.

Lemma rest_eq p p' : src p' = src p -> plen p' = plen p -> pos p' = pos p -> rest p' = rest p.
Proof. intros A B C. unfold rest. by rewrite A, B, C. Qed.

Lemma set_node_wf p a v : wfp p -> wfp (set_node p a v).
Proof. done. Qed.

Lemma set_node_grows (T : Z -> Prop) p a v : wfp p -> (T a \/ arena_used p <= a) -> grows T p (set_node p a v).
Proof.
  intros W A. split; try done; simpl; try lia. intros x L N. apply lookup_insert_ne. intros ->. destruct A as [A | A]; [auto | lia].
Qed.

Lemma align4_div u : align4 u = (u + 3) / 4 * 4.
Proof.
  unfold align4. rewrite <- Z.ldiff_land. change 3 with (Z.ones 2) at 2.
  by rewrite Z.ldiff_ones_r, Z.shiftr_div_pow2, Z.shiftl_mul_pow2 by lia.
Qed.

Lemma align4_range u : u <= align4 u < u + 4.
Proof. rewrite align4_div. Z.div_mod_to_equations; lia. Qed.

Definition blank_node (t : json_type) : json_v := mk_v t 0 None 0 None None.

Lemma node_alloc_spec p t : wfp p ->
  match node_alloc p t with
  | Stuck => False
  | Null => arena_cap p < align4 (arena_used p) + sizeof_json_v
  | Ret a p' => a = align4 (arena_used p) /\ arena_used p' = a + sizeof_json_v /\ grows nowhere p p' /\ rest p' = rest p /\ pos p' = pos p /\
      nodes p' = <[a := blank_node t]> (nodes p) /\ arena p' = arena p
  end.
Proof.
  intros W. unfold node_alloc, arena_alloc_aligned. fold (align4 (arena_used p)). pose proof (align4_range (arena_used p)) as A.
  destruct (_ >? _) eqn:E; simpl; [lia |]. split; [done | split; [done | split; [| done]]]. unfold sizeof_json_v in *.
  destruct W as (W1 & W2 & W3 & W4 & W5). split; try done; simpl; try lia.
  - repeat split; try done; simpl; lia.
  - intros x L _. apply lookup_insert_ne. lia.
Qed.

Lemma after_mono v : forall u, u <= after u v.
Proof.
  induction v as [| b | z | s | l IH | l IH] using json_ind'; intros u; simpl; unfold after_str, sizeof_json_v;
    pose proof (align4_range u).
  1, 2, 3: lia.
  - pose proof (zlen_nonneg s). lia.
  - assert (G : forall w, w <= foldl after w l); [| specialize (G (align4 u + 24)); lia].
    induction IH as [| x l Hx _ IHl]; intros w; simpl; [lia |]. specialize (Hx w). specialize (IHl (after w x)). lia.
  - assert (G : forall w, w <= foldl (fun u kv => after (align4 u + 24 + zlen (fst kv) + 1) (snd kv)) w l); [| specialize (G (align4 u + 24)); lia].
    induction IH as [| [k x] l Hx _ IHl]; intros w; simpl; [lia |]. pose proof (zlen_nonneg k). pose proof (align4_range w).
    specialize (Hx (align4 w + 24 + zlen k + 1)). simpl in Hx. specialize (IHl (after (align4 w + 24 + zlen k + 1) x)). lia.
Qed.

Lemma after_items_mono l u : u <= foldl after u l.
Proof. revert u. induction l as [| x l IH]; intros u; simpl; [lia |]. pose proof (after_mono x u). specialize (IH (after u x)). lia. Qed.

Definition after_pair (u : Z) (kv : list Z * json) : Z := after (after_str u (fst kv)) (snd kv).

Lemma after_pair_mono kv u : u <= after_pair u kv.
Proof.
  unfold after_pair, after_str, sizeof_json_v. pose proof (after_mono (snd kv) (align4 u + 24 + zlen (fst kv) + 1)).
  pose proof (align4_range u). pose proof (zlen_nonneg (fst kv)). lia.
Qed.

Lemma after_pairs_mono l u : u <= foldl after_pair u l.
Proof. revert u. induction l as [| x l IH]; intros u; simpl; [lia |]. pose proof (after_pair_mono x u). specialize (IH (after_pair u x)). lia. Qed.

(** What a call [m] on [p] promises when the grammar gives [g] for the rest of the input: it returns; when it returns 0 the
    grammar rejects or the value does not fit in the arena; otherwise the tree denotes the value. *)
Definition reads (p : parser) (m : res Z) (g : option (json * list Z)) : Prop :=
  match m with
  | Stuck => False
  | Null => forall v s, g = Some (v, s) -> arena_cap p < after (arena_used p) v
  | Ret a p' => exists v, g = Some (v, rest p') /\ grows nowhere p p' /\ pos p < pos p' /\
      arena_used p' = after (arena_used p) v /\ arena_used p <= a /\ shape (nodes p') (arena p') (arena_used p) (arena_used p') a v /\
      next (node p' a) = None
  end.

(** A value parser that follows the grammar [r] on inputs of at most [n] bytes. *)
Definition value_ok (f : parser -> res Z) (r : list Z -> option (json * list Z)) (n : nat) : Prop :=
  forall p, wfp p -> (length (rest p) <= n)%nat -> reads p (f p) (r (rest p)).

(** ** Containers *)

(** The node whose pointer [link] sets, and the node it becomes. *)
Definition slot (p : parser) (arr tail : Z) : Z := if decide (child (node p arr) = None) then arr else tail.

Definition linked (p : parser) (arr : Z) (n : json_v) (c : Z) : json_v :=
  if decide (child (node p arr) = None) then set_child n (Some c) else set_next n (Some c).

Lemma node_lookup p a n : nodes p !! a = Some n -> node p a = n.
Proof. intros E. unfold node. by apply lookup_total_correct. Qed.

Lemma link_spec p arr tail c n : nodes p !! slot p arr tail = Some n ->
  link p arr tail c = set_node p (slot p arr tail) (linked p arr n c).
Proof.
  unfold slot, link, linked, upd_node. intros E. destruct (decide _); by rewrite (node_lookup _ _ _ E).
Qed.

(** After a link the list of [arr] is not empty. *)
Lemma link_child p arr tail c n n0 : nodes p !! slot p arr tail = Some n -> nodes p !! arr = Some n0 ->
  child (node (link p arr tail c) arr) <> None.
Proof.
  intros E E0. rewrite (link_spec _ _ _ _ _ E). unfold linked, slot in *. rewrite (node_lookup _ _ _ E0) in *.
  destruct (decide (child n0 = None)) as [D | D].
  - erewrite node_lookup; [| simpl; apply lookup_insert_eq]. done.
  - destruct (decide (tail = arr)) as [-> | Ne].
    + erewrite node_lookup; [| simpl; apply lookup_insert_eq]. rewrite E0 in E. by injection E as <-.
    + erewrite node_lookup; [exact D |]. simpl. by rewrite lookup_insert_ne.
Qed.

Lemma slot_next p arr tail : child (node p arr) <> None -> slot p arr tail = tail.
Proof. intros C. unfold slot. by destruct (decide _). Qed.

Lemma same_node_next n c : same_node n (set_next n c).
Proof. done. Qed.

Lemma skip_moved p : wfp p -> exists p', p_skip_ws p = p' /\ moved p p' /\ rest p' = skip (rest p) /\ (length (rest p') <= length (rest p))%nat.
Proof.
  intros W. destruct (skip_spec p W) as [M R]. eexists. split; [done | split; [done | split; [done |]]].
  pose proof (rest_wrote _ _ _ W (moved_wrote _ _ M)). lia.
Qed.

Lemma grows_rest T p p' : wfp p -> grows T p p' -> (length (rest p') + Z.to_nat (pos p' - pos p) <= length (rest p))%nat.
Proof. intros W G. pose proof (rest_len p W). pose proof (rest_len p' (g_wf _ _ _ G)). rewrite (g_plen _ _ _ G) in *. unfold zlen in *. pose proof (g_pos _ _ _ G). lia. Qed.

(** Reading on after a step that grew the scratch. *)
Lemma grows_moved T p1 p2 p3 : grows T p1 p2 -> moved p2 p3 -> grows T p1 p3.
Proof. intros G M. eapply grows_trans; [done | apply (moved_grows nowhere), M |]. intros x _ [H | []]; done. Qed.

Lemma moved_nodes p p' : moved p p' -> nodes p' = nodes p /\ arena p' = arena p /\ arena_used p' = arena_used p /\ arena_cap p' = arena_cap p.
Proof. intros (E & _). by rewrite E. Qed.

(** A container's next byte: the common end of both loops. *)
Lemma separator p : wfp p -> exists p1, p_next (p_skip_ws p) = (head (skip (rest p)), p1) /\ moved p p1 /\
  rest p1 = tail (skip (rest p)) /\ (0 <= head (skip (rest p)) -> pos p < pos p1).
Proof.
  intros W. destruct (skip_moved p W) as (p' & -> & M & R & _). destruct (next_spec p' ltac:(apply M)) as (p1 & -> & M1 & R1 & K).
  rewrite R in *. exists p1. split; [done | split; [by eapply moved_trans | split; [done |]]].
  intros H. destruct (K H) as [-> _]. simpl. destruct M as (_ & L & _). lia.
Qed.

(** Both loops of containers: a step reads an element and gives its first and its last node. *)
Fixpoint cont_loop (step : parser -> res (Z * Z)) (close : Z) (fuel : nat) (c last : Z) (p : parser) : res Z :=
  match fuel with
  | O => Stuck
  | S k =>
      do ab p <- step p;
      let p := p_skip_ws (link p c last (fst ab)) in
      let '(ch, p) := p_next p in
      if ch =? 44 then cont_loop step close k c (snd ab) p
      else if ch =? close then Ret c p
      else Null
  end.

Fixpoint r_loop {E} (r : list Z -> option (E * list Z)) (close : Z) (fuel : nat) (s : list Z) : option (list E * list Z) :=
  match fuel with
  | O => None
  | S k =>
      '(e, s) ← r s;
      let s := skip s in
      if head s =? 44 then '(l, s) ← r_loop r close k (tail s); Some (e :: l, s)
      else if head s =? close then Some ([e], tail s)
      else None
  end.

Section Loop.
Context {E : Type} (step : parser -> res (Z * Z)) (r : list Z -> option (E * list Z)) (close : Z) (n : nat).
Context (aft : Z -> E -> Z) (elem : gmap Z json_v -> list Z -> Z -> Z -> Z -> Z -> E -> Prop).
Hypothesis aft_mono : forall u e, u <= aft u e.
Hypothesis elem_frame : forall N N' ar ar' lo hi a b e, elem N ar lo hi a b e ->
  (forall x, lo <= x < hi -> x <> b -> N' !! x = N !! x) -> (forall i, lo <= i < hi -> zget ar' i = zget ar i) ->
  (forall n, N !! b = Some n -> exists n', N' !! b = Some n' /\ same_node n n') -> elem N' ar' lo hi a b e.
Hypothesis step_ok : forall p, wfp p -> (length (rest p) <= n)%nat ->
  match step p with
  | Stuck => False
  | Null => forall e s, r (rest p) = Some (e, s) -> arena_cap p < aft (arena_used p) e
  | Ret (a, b) p' => exists e nb, r (rest p) = Some (e, rest p') /\ grows nowhere p p' /\ pos p < pos p' /\
      arena_used p' = aft (arena_used p) e /\ arena_used p <= a /\ arena_used p <= b < arena_used p' /\
      elem (nodes p') (arena p') (arena_used p) (arena_used p') a b e /\ nodes p' !! b = Some nb /\ next nb = None
  end.

Lemma aft_all_mono l u : u <= foldl aft u l.
Proof using aft_mono. revert u. induction l as [| e l IH]; intros u; simpl; [lia |]. specialize (IH (aft u e)). specialize (aft_mono u e). lia. Qed.

(** The link, the white space and the next byte after an element. *)
Lemma after_elem p p1 arr last a nt n0 : wfp p -> grows nowhere p p1 -> pos p < pos p1 ->
  arr < arena_used p -> last < arena_used p -> nodes p !! arr = Some n0 -> nodes p !! slot p arr last = Some nt ->
  exists p3, p_next (p_skip_ws (link p1 arr last a)) = (head (skip (rest p1)), p3) /\ rest p3 = tail (skip (rest p1)) /\ wfp p3 /\
    pos p < pos p3 /\ grows (eq (slot p arr last)) p p3 /\ arena_used p3 = arena_used p1 /\ arena_cap p3 = arena_cap p /\
    nodes p3 = <[slot p arr last := linked p arr nt a]> (nodes p1) /\ arena p3 = arena p1 /\
    exists n3, nodes p3 !! arr = Some n3 /\ child n3 <> None.
Proof.
  intros W G1 P1 La Lt Ea Es. set (t := slot p arr last) in *.
  assert (Ht : t < arena_used p) by (unfold t, slot; destruct (decide _); done).
  assert (Eq : forall x, x < arena_used p -> nodes p1 !! x = nodes p !! x) by (intros; apply (g_nodes _ _ _ G1); auto).
  assert (Sl : slot p1 arr last = t) by (unfold t, slot; by rewrite !(node_lookup _ _ n0) by (rewrite ?Eq; done)).
  assert (Lk : linked p1 arr nt a = linked p arr nt a) by (unfold linked; by rewrite !(node_lookup _ _ n0) by (rewrite ?Eq; done)).
  assert (Et : nodes p1 !! slot p1 arr last = Some nt) by (rewrite Sl, Eq; done).
  pose proof (link_child p1 arr last a nt n0 Et ltac:(by rewrite Eq)) as Ch.
  rewrite (link_spec _ _ _ _ _ Et), Sl, Lk in Ch |- *. set (p2 := set_node p1 t (linked p arr nt a)) in *.
  assert (W2 : wfp p2) by apply G1. destruct (separator p2 W2) as (p3 & -> & M3 & R3 & _). change (rest p2) with (rest p1) in *.
  destruct (moved_nodes _ _ M3) as (N3 & A3 & U3 & C3). exists p3. split; [done | split; [done | split; [apply M3 |]]].
  split; [destruct M3 as (_ & ? & _); simpl in *; lia |]. split.
  { apply (grows_moved _ _ p2); [| done]. apply (grows_trans nowhere (eq t) _ p p1); [done | | by intros x _ [[] |]].
    apply set_node_grows; [apply G1 | by left]. }
  split; [done | split; [rewrite C3; apply G1 | split; [done | split; [done |]]]].
  exists (node p2 arr). rewrite N3. split; [| done]. unfold node. rewrite lookup_total_alt. unfold p2. simpl.
  destruct (decide (t = arr)) as [-> | Ne]; [by rewrite lookup_insert_eq | by rewrite lookup_insert_ne, Eq, Ea by done].
Qed.

Lemma cont_loop_spec k : forall arr last p nt n0, wfp p -> (length (rest p) < k)%nat -> (length (rest p) <= n)%nat ->
  arr < arena_used p -> last < arena_used p -> nodes p !! arr = Some n0 -> nodes p !! slot p arr last = Some nt ->
  match cont_loop step close k arr last p with
  | Stuck => False
  | Null => forall l s, r_loop r close k (rest p) = Some (l, s) -> arena_cap p < foldl aft (arena_used p) l
  | Ret a p' => a = arr /\ exists l c, r_loop r close k (rest p) = Some (l, rest p') /\ grows (eq (slot p arr last)) p p' /\
      pos p < pos p' /\ arena_used p' = foldl aft (arena_used p) l /\ nodes p' !! slot p arr last = Some (linked p arr nt c) /\
      chain (nodes p') (arena_used p') (elem (nodes p') (arena p')) (arena_used p) (Some c) l
  end.
Proof using aft_mono elem_frame step_ok.
  induction k as [| k IH]; intros arr last p nt n0 W Lk Ln La Lt Ea Es; [lia |]. cbn [cont_loop r_loop].
  pose proof (step_ok p W Ln) as V. pose proof aft_all_mono as Mono. destruct (step p) as [| | [a b] p1]; cbn [bind fst snd]; [done | |].
  { intros l s Er. destruct (r (rest p)) as [[e s'] |] eqn:R; [| done]. specialize (V e s' eq_refl). cbn [mbind option_bind] in Er.
    destruct (head (skip s') =? 44); [| destruct (head (skip s') =? close); [injection Er as <- <-; simpl; lia | done]].
    destruct (r_loop r close k (tail (skip s'))) as [[l' s2] |]; [| done]. injection Er as <- <-. simpl. specialize (Mono l' (aft (arena_used p) e)). lia. }
  destruct V as (e & nb & Er & G1 & P1 & U1 & Lo & Lb & El & Eb & Nx). rewrite Er. cbn [mbind option_bind].
  destruct (after_elem p p1 arr last a nt n0 W G1 P1 La Lt Ea Es) as (p3 & -> & R3 & W3 & P3 & G3 & U3 & C3 & N3 & A3 & n3 & Ea3 & Ch3).
  set (t := slot p arr last) in *. assert (Ht : t < arena_used p) by (unfold t, slot; destruct (decide _); done).
  assert (Eb3 : nodes p3 !! b = Some nb) by (rewrite N3, lookup_insert_ne by lia; done).
  assert (Et3 : nodes p3 !! t = Some (linked p arr nt a)) by (rewrite N3; apply lookup_insert_eq).
  pose proof (grows_rest _ _ _ W G3) as Lr. pose proof W as (_ & _ & _ & Wu & _).
  assert (K : forall p4 nb', grows (eq b) p3 p4 -> nodes p4 !! b = Some nb' -> same_node nb nb' ->
    elem (nodes p4) (arena p4) (arena_used p) (arena_used p1) a b e).
  { intros p4 nb' G4 Eb4 Sn. eapply elem_frame; [exact El | | |].
    - intros x X Ne. rewrite (g_nodes _ _ _ G4) by (lia || congruence). rewrite N3, lookup_insert_ne by lia. done.
    - intros i I. rewrite (g_bytes _ _ _ G4) by lia. by rewrite A3.
    - intros n1 E1. rewrite Eb in E1. injection E1 as <-. eauto. }
  destruct (head (skip (rest p1)) =? 44); [| destruct (head (skip (rest p1)) =? close); [| done]].
  - rewrite <- R3. assert (Sl : slot p3 arr b = b) by (unfold slot; rewrite (node_lookup _ _ _ Ea3); by destruct (decide _)).
    pose proof (IH arr b p3 nb n3 W3 ltac:(lia) ltac:(lia) ltac:(lia) ltac:(lia) Ea3 ltac:(by rewrite Sl)) as IH'. rewrite Sl in IH'.
    destruct (cont_loop step close k arr b p3) as [| | a' p4]; [done | |].
    + intros l s E'. destruct (r_loop r close k (rest p3)) as [[l' s'] |]; [| done]. injection E' as <- <-.
      specialize (IH' l' s' eq_refl). simpl. congruence.
    + destruct IH' as (-> & l & c' & -> & G4 & P4 & U4 & Eb4 & It). split; [done |]. exists (e :: l), a. split; [done |].
      split; [eapply grows_trans; [exact G3 | exact G4 |]; intros x Lx [-> | <-]; [done | lia] |].
      split; [lia | split; [simpl; congruence | split; [rewrite (g_nodes _ _ _ G4) by lia; done |]]].
      assert (Hl : same_node nb (linked p3 arr nb c') /\ next (linked p3 arr nb c') = Some c').
      { unfold linked. rewrite (node_lookup _ _ _ Ea3). by destruct (decide _). }
      cbn [chain]. exists a, b, (arena_used p1), (linked p3 arr nb c'). pose proof (g_used _ _ _ G4).
      split; [done | split; [lia | split; [apply (K p4 (linked p3 arr nb c')); [exact G4 | exact Eb4 | apply Hl] | split; [done |]]]]. destruct Hl as [_ ->]. by rewrite <- U3.
  - split; [done |]. exists [e], a. rewrite R3. split; [done | split; [done | split; [lia | split; [simpl; congruence | split; [done |]]]]].
    cbn [chain]. exists a, b, (arena_used p1), nb. split; [done | split; [lia | split; [| split; [done | done]]]].
    apply (K p3 nb); [apply (moved_grows _ p3), moved_refl, W3 | done | done].
Qed.
(** A container: its node, the empty case and the loop. *)
Definition p_cont (open : Z) (ty : json_type) (p : parser) : res Z :=
  let '(ch, p) := p_next p in
  if negb (ch =? open) then Null else
  do c p <- node_alloc p ty;
  let p := p_skip_ws p in
  if p_peek p =? close then Ret c (adv p) else cont_loop step close (turns p) c 0 p.

Definition r_cont (mk : list E -> json) (s : list Z) : option (json * list Z) :=
  let s := skip (tail s) in
  if head s =? close then Some (mk [], tail s) else '(l, s) ← r_loop r close (S (length s)) s; Some (mk l, s).

Context (mk : list E -> json) (open : Z) (ty : json_type).
Hypothesis open_byte : 0 <= open.
Hypothesis close_byte : 0 <= close.
Hypothesis mk_after : forall u l, after u (mk l) = foldl aft (align4 u + sizeof_json_v) l.
Hypothesis mk_shape : forall N ar lo hi a l nd, lo <= a -> a + sizeof_json_v <= hi -> N !! a = Some nd -> vtype nd = ty ->
  chain N hi (elem N ar) (a + sizeof_json_v) (child nd) l -> shape N ar lo hi a (mk l).

Lemma cont_spec p : wfp p -> head (rest p) = open -> (length (tail (rest p)) <= n)%nat -> reads p (p_cont open ty p) (r_cont mk (rest p)).
Proof using aft_mono close_byte elem_frame mk_after mk_shape open_byte step_ok.
  intros W H Ln. unfold p_cont, r_cont, reads. destruct (next_spec p W) as (p1 & -> & M & R & K). rewrite H in *.
  destruct (K open_byte) as [-> L]. rewrite Z.eqb_refl. simpl negb. cbv iota. assert (Wa : wfp (adv p)) by apply M. rewrite <- R in *.
  pose proof (align4_range (arena_used p)) as Al. pose proof W as (_ & _ & _ & Wu & _).
  pose proof (node_alloc_spec (adv p) ty Wa) as Na. destruct (node_alloc (adv p) ty) as [| | a p2]; cbn [bind]; [done | |].
  { intros v s E'. simpl in Na. assert (X : exists l, v = mk l) by (destruct (_ =? close); [injection E' as <- _; by exists [] |]; destruct (r_loop _ _ _ _) as [[l s'] |]; [injection E' as <- _; by exists l | done]).
    destruct X as [l ->]. rewrite mk_after. pose proof (aft_all_mono l (align4 (arena_used p) + sizeof_json_v)). lia. }
  destruct Na as (Ea & U2 & G2 & R2 & P2 & N2 & A2). simpl in Ea, P2.
  destruct (skip_moved p2 ltac:(apply G2)) as (p3 & -> & M3 & R3 & L3). destruct (moved_nodes _ _ M3) as (N3 & A3 & U3 & C3).
  assert (W3 : wfp p3) by apply M3. rewrite <- R2, <- R3, head_rest by done.
  assert (G3 : grows nowhere p p3).
  { eapply grows_moved; [| exact M3]. eapply grows_trans; [apply (moved_grows nowhere), M | exact G2 | by intros x _ [[] | []]]. }
  assert (Ea3 : nodes p3 !! a = Some (blank_node ty)) by (rewrite N3, N2; apply lookup_insert_eq).
  assert (P3 : pos p < pos p3) by (destruct M3 as (_ & ? & _); lia). unfold sizeof_json_v in *.
  destruct (p_peek p3 =? close) eqn:E3; zb.
  - exists (mk []). destruct (peek_cases p3 W3) as [(_ & _ & Q) | (L4 & R4 & _ & M4)]; [lia |]. rewrite R4. simpl tail.
    split; [done | split; [by eapply grows_moved | split; [simpl; lia |]]]. rewrite mk_after. cbn [foldl].
    split; [simpl; unfold sizeof_json_v; lia | split; [lia |]]. split; [| unfold node, adv; simpl; by rewrite (lookup_total_correct _ _ _ Ea3)].
    eapply mk_shape; [simpl; lia | simpl; unfold sizeof_json_v; lia | exact Ea3 | done | done].
  - assert (Sl : slot p3 a 0 = a) by (unfold slot; rewrite (node_lookup _ _ _ Ea3); done).
    pose proof (grows_rest _ _ _ W G3). pose proof (rest_len p W). assert (Ll : (length (rest p3) <= n)%nat) by (rewrite R2 in L3; lia).
    pose proof (cont_loop_spec (turns p3) a 0 p3 (blank_node ty) (blank_node ty) W3 ltac:(rewrite turns_rest by done; lia) Ll ltac:(lia) ltac:(lia) Ea3 ltac:(by rewrite Sl)) as C.
    rewrite turns_rest, Sl in C by done. rewrite turns_rest by done. destruct (cont_loop _ _ _ _ _ _) as [| | a' p4]; [done | |].
    + intros v s E'. destruct (r_loop _ _ _ _) as [[l s'] |]; [| done]. injection E' as <- <-. specialize (C l s' eq_refl).
      rewrite mk_after. unfold sizeof_json_v. replace (align4 (arena_used p) + 24) with (arena_used p3) by (simpl in Ea; lia). rewrite (g_cap _ _ _ G3) in C. done.
    + destruct C as (-> & l & c & -> & G4 & P4 & U4 & Ea4 & Ch). exists (mk l). split; [done |].
      split; [eapply grows_trans; [exact G3 | exact G4 |]; intros x Lx [[] | <-]; lia |].
      rewrite mk_after. unfold sizeof_json_v. replace (align4 (arena_used p) + 24) with (arena_used p3) by (simpl in Ea; lia).
      split; [lia | split; [done | split; [lia |]]]. unfold linked in Ea4. rewrite (node_lookup _ _ _ Ea3) in Ea4. simpl in Ea4.
      split; [| by rewrite (node_lookup _ _ _ Ea4)]. pose proof (g_used _ _ _ G4).
      eapply mk_shape; [lia | unfold sizeof_json_v; lia | exact Ea4 | done |]. unfold sizeof_json_v. simpl child.
      replace (a + 24) with (arena_used p3) by lia. exact Ch.
Qed.
End Loop.

(** ** Strings as nodes *)

Lemma wrote_string p p' s : wrote p p' (s ++ [0]) -> wfp p -> string_at (arena p') (arena_used p) s.
Proof.
  intros (_ & _ & _ & _ & W' & _ & U & T) W i I. destruct W as (_ & _ & _ & Ru & L), W' as (_ & _ & _ & Ru' & L').
  rewrite zlen_app in U. change (zlen [0]) with 1 in U.
  rewrite <- (zget_ztake (arena p') (arena_used p')), T by lia. rewrite zget_app_r by (rewrite zlen_ztake; lia).
  rewrite zlen_ztake by lia. f_equal. lia.
Qed.

(** The first branch of p_scalar, and the key of a pair. *)
Definition p_strnode (p : parser) : res Z :=
  do v p <- node_alloc p JSON_STR;
  do s p <- p_string p;
  Ret v (upd_node p v (fun n => set_str n (fst s) (snd s))).

Lemma strnode_spec p : wfp p -> head (rest p) = 34 ->
  match p_strnode p with
  | Stuck => False
  | Null => forall s r, r_string (tail (rest p)) = Some (s, r) -> arena_cap p < after_str (arena_used p) s
  | Ret a p' => exists s nd, r_string (tail (rest p)) = Some (s, rest p') /\ grows nowhere p p' /\ pos p < pos p' /\
      arena_used p' = after_str (arena_used p) s /\ a = align4 (arena_used p) /\ nodes p' !! a = Some nd /\ next nd = None /\
      holds_str (arena p') (a + sizeof_json_v) (arena_used p') nd s
  end.
Proof.
  intros W H. unfold p_strnode, after_str. pose proof (align4_range (arena_used p)) as Al.
  pose proof (node_alloc_spec p JSON_STR W) as Na. destruct (node_alloc p JSON_STR) as [| | a p1]; cbn [bind]; [done | |].
  { intros s r _. pose proof (zlen_nonneg s). lia. }
  destruct Na as (Ea & U1 & G1 & R1 & P1 & N1 & A1). assert (W1 : wfp p1) by apply G1. rewrite <- R1 in *.
  pose proof (string_spec p1 W1 H) as S. destruct (p_string p1) as [| | [o n] p2]; cbn [bind]; [done | |].
  { intros s r E. specialize (S s r E). rewrite (g_cap _ _ _ G1) in S. lia. }
  destruct S as (s & E & [= -> ->] & Wr & P2). pose proof Wr as (_ & _ & _ & N2 & W2 & _ & U2 & _).
  rewrite zlen_app in U2. change (zlen [0]) with 1 in U2.
  assert (Ea2 : nodes p2 !! a = Some (blank_node JSON_STR)) by (rewrite N2, N1; apply lookup_insert_eq).
  unfold upd_node. rewrite (node_lookup _ _ _ Ea2). simpl fst. simpl snd.
  exists s, (set_str (blank_node JSON_STR) (arena_used p1) (zlen s)). split; [done |].
  split; [| split; [simpl; lia | split; [simpl; unfold sizeof_json_v in *; lia | split; [done | split; [apply lookup_insert_eq | split; [done |]]]]]].
  - eapply (grows_trans nowhere (eq a) _ _ p2); [| by apply set_node_grows; [done | left] | intros x L [[] | <-]; lia].
    eapply grows_trans; [exact G1 | apply (wrote_grows nowhere _ _ _ Wr) | by intros x _ [[] | []]].
  - split; [done | split; [done |]]. exists (arena_used p1). split; [done | split; [lia | split; [simpl; lia |]]].
    simpl. by apply (wrote_string p1).
Qed.

(** ** The steps of both loops *)

Definition array_step (f : parser -> res Z) (p : parser) : res (Z * Z) := do c p <- f (p_skip_ws p); Ret (c, c) p.

Lemma array_loop_eq f k arr last p : array_loop f k arr last p = cont_loop (array_step f) 93 k arr last p.
Proof.
  revert last p. induction k as [| k IH]; intros last p; cbn [array_loop cont_loop]; [done |]. unfold array_step at 1.
  destruct (f (p_skip_ws p)) as [| | c p1]; cbn [bind fst snd]; [done | done |]. destruct (p_next _) as [ch p2].
  destruct (ch =? 44); [apply IH | done].
Qed.

Lemma object_loop_eq f k obj last p : object_loop f k obj last p = cont_loop (p_pair f) 125 k obj last p.
Proof.
  revert last p. induction k as [| k IH]; intros last p; cbn [object_loop cont_loop]; [done |].
  destruct (p_pair f p) as [| | c p1]; cbn [bind fst snd]; [done | done |]. destruct (p_next _) as [ch p2].
  destruct (ch =? 44); [apply IH | done].
Qed.

Lemma array_eq f p : p_array f p = p_cont (array_step f) 93 91 JSON_ARR p.
Proof.
  unfold p_array, p_cont. destruct (p_next p) as [ch p1]. destruct (negb _); [done |].
  destruct (node_alloc p1 JSON_ARR); cbn [bind]; [done | done |]. destruct (_ =? 93); [done | apply array_loop_eq].
Qed.

Lemma object_eq f p : p_object f p = p_cont (p_pair f) 125 123 JSON_OBJ p.
Proof.
  unfold p_object, p_cont. destruct (p_next p) as [ch p1]. destruct (negb _); [done |].
  destruct (node_alloc p1 JSON_OBJ); cbn [bind]; [done | done |]. destruct (_ =? 125); [done | apply object_loop_eq].
Qed.

Lemma r_items_eq r k s : r_items r k s = r_loop (fun s => r (skip s)) 93 k s.
Proof.
  revert s. induction k as [| k IH]; intros s; cbn [r_items r_loop]; [done |]. destruct (r (skip s)) as [[v s'] |]; [| done].
  cbn [mbind option_bind]. destruct (head (skip s') =? 44); [by rewrite IH | done].
Qed.

Lemma r_pairs_eq r k s : r_pairs r k s = r_loop (r_pair r) 125 k s.
Proof.
  revert s. induction k as [| k IH]; intros s; cbn [r_pairs r_loop]; [done |]. destruct (r_pair r s) as [[[kk v] s'] |]; [| done].
  cbn [mbind option_bind]. destruct (head (skip s') =? 44); [by rewrite IH | done].
Qed.

Lemma r_array_eq r s : r_array r s = r_cont (fun s => r (skip s)) 93 JArr s.
Proof. unfold r_array, r_cont. by rewrite r_items_eq. Qed.

Lemma r_object_eq r s : r_object r s = r_cont (r_pair r) 125 JObj s.
Proof. unfold r_object, r_cont. by rewrite r_pairs_eq. Qed.

Definition item_at (N : gmap Z json_v) (ar : list Z) (lo hi a b : Z) (v : json) : Prop := a = b /\ shape N ar lo hi a v.

Definition entry_at (N : gmap Z json_v) (ar : list Z) := pair_at N ar (shape N ar).

Lemma entry_frame N N' ar ar' lo hi a b e : entry_at N ar lo hi a b e ->
  (forall x, lo <= x < hi -> x <> b -> N' !! x = N !! x) -> (forall i, lo <= i < hi -> zget ar' i = zget ar i) ->
  (forall n, N !! b = Some n -> exists n', N' !! b = Some n' /\ same_node n n') -> entry_at N' ar' lo hi a b e.
Proof.
  intros (m & nk & L1 & L2 & L3 & Ea & Hk & Enx & S) FN FA FR. destruct (shape_root _ _ _ _ _ _ S) as (L4 & L5 & _).
  unfold sizeof_json_v in *. exists m, nk. split; [done | split; [done | split; [done | split; [rewrite FN by lia; done | split; [| split; [done |]]]]]].
  - apply (holds_str_frame ar ar' _ _ nk nk); [intros; apply FA; unfold sizeof_json_v in *; lia | done | done].
  - eapply shape_frame; [exact S |]. split; [intros; apply FN; lia | split; [intros; apply FA; lia | done]].
Qed.

Lemma reads_moved p p0 m g : moved p p0 -> reads p0 m g -> reads p m g.
Proof.
  intros M R. destruct (moved_nodes _ _ M) as (_ & _ & U & C). unfold reads in *. rewrite U, C in R. destruct m as [| | a p']; [done | done |].
  destruct R as (v & E & G & P & Rest). exists v. split; [done | split; [| split; [| done]]].
  - eapply grows_trans; [apply (moved_grows nowhere), M | exact G | by intros x _ [[] | []]].
  - destruct M as (_ & ? & _). lia.
Qed.

Lemma node_some p a n : nodes p !! a = Some n -> next (node p a) = next n.
Proof. intros E. by rewrite (node_lookup _ _ _ E). Qed.

Section Recursion.
Context (f : parser -> res Z) (r : list Z -> option (json * list Z)) (n : nat) (F : value_ok f r n).

Lemma array_step_ok p : wfp p -> (length (rest p) <= n)%nat ->
  match array_step f p with
  | Stuck => False
  | Null => forall e s, r (skip (rest p)) = Some (e, s) -> arena_cap p < after (arena_used p) e
  | Ret (a, b) p' => exists e nb, r (skip (rest p)) = Some (e, rest p') /\ grows nowhere p p' /\ pos p < pos p' /\
      arena_used p' = after (arena_used p) e /\ arena_used p <= a /\ arena_used p <= b < arena_used p' /\
      item_at (nodes p') (arena p') (arena_used p) (arena_used p') a b e /\ nodes p' !! b = Some nb /\ next nb = None
  end.
Proof using F.
  intros W L. unfold array_step. destruct (skip_moved p W) as (p0 & -> & M & R & Lr). rewrite <- R.
  pose proof (reads_moved _ _ _ _ M (F p0 ltac:(apply M) ltac:(lia))) as V. unfold reads in V.
  destruct (f p0) as [| | c p1]; cbn [bind]; [done | done |]. destruct V as (v & E & G & P & U & Lc & S & Nx).
  destruct (shape_root _ _ _ _ _ _ S) as (_ & Hc & nd & En). rewrite (node_some _ _ _ En) in Nx.
  exists v, nd. split; [done | split; [done | split; [done | split; [done | split; [done | split; [| done]]]]]].
  unfold sizeof_json_v in Hc. lia.
Qed.

Lemma pair_eq p : p_pair f p =
  let p := p_skip_ws p in
  if negb (p_peek p =? 34) then Null else
  do k p <- p_strnode p;
  let p := p_skip_ws p in
  let '(ch, p) := p_next p in
  if negb (ch =? 58) then Null else
  do v p <- f (p_skip_ws p);
  Ret (k, v) (upd_node p k (fun n => set_next n (Some v))).
Proof.
  unfold p_pair, p_strnode. cbv zeta. destruct (negb _); [done |]. destruct (node_alloc _ _) as [| | k p1]; cbn [bind]; [done | done |].
  by destruct (p_string p1).
Qed.

Lemma pair_step_ok p : wfp p -> (length (rest p) <= n)%nat ->
  match p_pair f p with
  | Stuck => False
  | Null => forall e s, r_pair r (rest p) = Some (e, s) -> arena_cap p < after_pair (arena_used p) e
  | Ret (a, b) p' => exists e nb, r_pair r (rest p) = Some (e, rest p') /\ grows nowhere p p' /\ pos p < pos p' /\
      arena_used p' = after_pair (arena_used p) e /\ arena_used p <= a /\ arena_used p <= b < arena_used p' /\
      entry_at (nodes p') (arena p') (arena_used p) (arena_used p') a b e /\ nodes p' !! b = Some nb /\ next nb = None
  end.
Proof using F.
  intros W L. rewrite pair_eq. unfold r_pair, after_pair. cbv zeta. destruct (skip_moved p W) as (p0 & -> & M & R & Lr). rewrite <- R.
  destruct (moved_nodes _ _ M) as (N0 & A0 & U0 & C0). assert (W0 : wfp p0) by apply M. rewrite head_rest by done.
  destruct (p_peek p0 =? 34) eqn:Q; cbn [negb]; [| done]. zb.
  pose proof (strnode_spec p0 W0 ltac:(by rewrite head_rest)) as S. destruct (p_strnode p0) as [| | k p1]; cbn [bind]; [done | |].
  { intros e s. destruct (r_string (tail (rest p0))) as [[kk s1] |]; [| done]. specialize (S kk s1 eq_refl). cbn [mbind option_bind].
    destruct (head (skip s1) =? 58); cbn [negb]; [| done]. destruct (r (skip (tail (skip s1)))) as [[v s2] |]; [| done]. intros [= <- <-]. simpl.
    pose proof (after_mono v (after_str (arena_used p) kk)). rewrite U0, C0 in S. lia. }
  destruct S as (kk & nk & E & G1 & P1 & U1 & Ek & Enk & Nxk & Hk). rewrite E. cbn [mbind option_bind].
  assert (W1 : wfp p1) by apply G1. destruct (separator p1 W1) as (p2 & -> & M2 & R2 & _). destruct (moved_nodes _ _ M2) as (N2 & A2 & U2 & C2).
  destruct (head (skip (rest p1)) =? 58); cbn [negb]; [| done]. rewrite <- R2. assert (W2 : wfp p2) by apply M2.
  destruct (skip_moved p2 W2) as (p3 & -> & M3 & R3 & Lr3). rewrite <- R3. destruct (moved_nodes _ _ M3) as (N3 & A3 & U3 & C3).
  assert (G3 : grows nowhere p p3).
  { eapply grows_moved; [| exact M3]. eapply grows_moved; [| exact M2].
    eapply grows_trans; [apply (moved_grows nowhere), M | exact G1 | by intros x _ [[] | []]]. }
  pose proof (grows_rest _ _ _ W G3) as Lr'. pose proof (F p3 ltac:(apply M3) ltac:(lia)) as V. unfold reads in V.
  pose proof (align4_range (arena_used p0)) as Al. pose proof (zlen_nonneg kk).
  destruct (f p3) as [| | c p4]; cbn [bind]; [done | |].
  { intros e s. destruct (r (rest p3)) as [[v s2] |]; [| done]. specialize (V v s2 eq_refl). intros [= <- <-]. simpl. rewrite (g_cap _ _ _ G3) in V. congruence. }
  destruct V as (v & Ev & G4 & P4 & U4 & Lc & Sh & Nx). rewrite Ev. cbn [mbind option_bind].
  destruct (shape_root _ _ _ _ _ _ Sh) as (_ & Hc & nd & En). rewrite (node_some _ _ _ En) in Nx. unfold after_str in *. unfold sizeof_json_v in *.
  assert (Ek4 : nodes p4 !! k = Some nk) by (rewrite (g_nodes _ _ _ G4), N3, N2; [done | lia | by intros []]).
  unfold upd_node. rewrite (node_lookup _ _ _ Ek4). exists (kk, v), nd. split; [done |].
  assert (Gf : grows nowhere p (set_node p4 k (set_next nk (Some c)))).
  { eapply (grows_trans nowhere (eq k) _ _ p4); [| by apply set_node_grows; [apply G4 | left] | intros x X [[] | <-]; lia].
    eapply grows_trans; [exact G3 | exact G4 | by intros x _ [[] | []]]. }
  split; [exact Gf | split; [simpl; pose proof (g_pos _ _ _ G3); lia | split]]. { simpl. unfold after_str, sizeof_json_v. rewrite U4. f_equal. congruence. }
  split; [lia | split; [simpl; lia | split; [| split; [simpl; rewrite lookup_insert_ne by lia; done | done]]]].
  exists (arena_used p3), (set_next nk (Some c)). unfold sizeof_json_v. split; [lia | split; [lia | split; [lia | split; [apply lookup_insert_eq | split; [| split; [done |]]]]]].
  - apply (holds_str_frame (arena p1) _ _ _ nk); [| done | rewrite U3, U2; exact Hk]. intros i I. simpl. rewrite (g_bytes _ _ _ G4) by (destruct W as (_ & _ & _ & ? & _); lia). congruence.
  - apply (shape_frame v (nodes p4) _ (arena p4)); [exact Sh |]. split; [| split; [done |]].
    + intros x X Ne. simpl. rewrite lookup_insert_ne by lia. done.
    + intros n0 E0. exists n0. simpl. rewrite lookup_insert_ne by lia. done.
Qed.

Lemma containers_ok p : wfp p -> (length (tail (rest p)) <= n)%nat ->
  (head (rest p) = 91 -> reads p (p_array f p) (r_array r (rest p))) /\
  (head (rest p) = 123 -> reads p (p_object f p) (r_object r (rest p))).
Proof using F.
  intros W L. rewrite array_eq, object_eq, r_array_eq, r_object_eq. split; intros H.
  - apply (cont_spec (array_step f) (fun s => r (skip s)) 93 n after item_at); try done.
    + intros u e. apply after_mono.
    + intros N N' ar ar' lo hi a b e [<- S] FN FA FR. split; [done |]. by apply (shape_frame e N _ ar).
    + apply array_step_ok.
    + intros N ar lo hi a l nd La Ha E T C. simpl. eauto 6.
  - apply (cont_spec (p_pair f) (r_pair r) 125 n after_pair entry_at); try done.
    + intros u e. apply after_pair_mono.
    + apply entry_frame.
    + apply pair_step_ok.
    + intros N ar lo hi a l nd La Ha E T C. simpl. eauto 6.
Qed.
End Recursion.

(** ** Scalars and values *)

(** A leaf: something read without the arena, then one node. *)
Lemma leaf_reads p p1 v t (g : json_v -> json_v) rr : wfp p -> moved p p1 -> pos p < pos p1 ->
  rr = Some (v, rest p1) -> after (arena_used p) v = align4 (arena_used p) + sizeof_json_v ->
  (forall N ar hi a, N !! a = Some (g (blank_node t)) -> arena_used p <= a -> a + sizeof_json_v <= hi -> shape N ar (arena_used p) hi a v) ->
  next (g (blank_node t)) = None ->
  reads p (do a p2 <- node_alloc p1 t; Ret a (upd_node p2 a g)) rr.
Proof.
  intros W M P -> A S Nx. destruct (moved_nodes _ _ M) as (N1 & A1 & U1 & C1). pose proof (align4_range (arena_used p)) as Al.
  pose proof (node_alloc_spec p1 t ltac:(apply M)) as Na. destruct (node_alloc p1 t) as [| | a p2]; cbn [bind reads]; [done | |].
  { intros v' s [= <- <-]. rewrite A, <- U1, <- C1. done. }
  destruct Na as (Ea & U2 & G2 & R2 & P2 & N2 & A2). rewrite U1 in Ea.
  assert (E2 : nodes p2 !! a = Some (blank_node t)) by (rewrite N2; apply lookup_insert_eq).
  unfold upd_node. rewrite (node_lookup _ _ _ E2). exists v. change (rest (set_node p2 a (g (blank_node t)))) with (rest p2). rewrite R2.
  split; [done | split].
  { eapply (grows_trans nowhere (eq a) _ _ p2); [| by apply set_node_grows; [apply G2 | left] | intros x X [[] | <-]; lia].
    eapply grows_trans; [apply (moved_grows nowhere), M | exact G2 | by intros x _ [[] | []]]. }
  rewrite A. simpl arena_used. simpl pos. split; [lia | split; [lia | split; [lia | split]]].
  - apply S; [apply lookup_insert_eq | lia | lia].
  - erewrite node_lookup; [exact Nx | apply lookup_insert_eq].
Qed.

Lemma leaf_null (m : res unit) :
  (do _u p <- m; node_alloc p JSON_NULL) = do _u p <- m; do a p2 <- node_alloc p JSON_NULL; Ret a (upd_node p2 a (fun n => n)).
Proof.
  destruct m as [| | u p1]; cbn [bind]; [done | done |]. unfold node_alloc. destruct (arena_alloc_aligned p1 sizeof_json_v) as [| | a p2]; cbn [bind]; [done | done |].
  unfold upd_node. erewrite node_lookup; [| apply lookup_insert_eq]. unfold set_node. simpl. by rewrite insert_insert_eq.
Qed.

Lemma keyword_reads p kw v t g : wfp p -> my_strlen kw = zlen kw -> 0 < zlen kw ->
  after (arena_used p) v = align4 (arena_used p) + sizeof_json_v ->
  (forall N ar hi a, N !! a = Some (g (blank_node t)) -> arena_used p <= a -> a + sizeof_json_v <= hi -> shape N ar (arena_used p) hi a v) ->
  next (g (blank_node t)) = None ->
  reads p (do _u p1 <- p_match p kw; do a p2 <- node_alloc p1 t; Ret a (upd_node p2 a g)) (s ← r_match kw (rest p); Some (v, s)).
Proof.
  intros W K L A S Nx. pose proof (match_spec p kw W K) as Ms. destruct (p_match p kw) as [| | u p1]; cbn [bind]; [done | |].
  - by rewrite Ms.
  - destruct Ms as (E & M & P). rewrite E. cbn [mbind option_bind]. apply (leaf_reads p p1 v t g); try done. lia.
Qed.

Lemma scalar_ok p : wfp p -> reads p (p_scalar p) (r_scalar (rest p)).
Proof.
  intros W. unfold p_scalar, r_scalar. rewrite head_rest by done. pose proof (align4_range (arena_used p)) as Al.
  destruct (p_peek p =? 34) eqn:E1; zb.
  { pose proof (strnode_spec p W ltac:(by rewrite head_rest)) as S. unfold p_strnode in S. unfold reads.
    destruct (bind (node_alloc p JSON_STR) _) as [| | a p']; [done | |].
    - intros v s E. destruct (r_string _) as [[b s'] |]; [| done]. injection E as <- <-. by apply (S b s').
    - destruct S as (s & nd & E & G & P & U & Ea & En & Nx & H). rewrite E. exists (JStr s). split; [done | split; [done | split; [done | split; [done | split; [lia | split]]]]].
      + simpl. destruct H as (T & L & o & O & Lo & Hi & St). split; [lia | split; [pose proof (zlen_nonneg s); lia |]].
        exists nd. split; [done |]. split; [done | split; [done |]]. by exists o.
      + by rewrite (node_some _ _ _ En). }
  destruct (p_peek p =? 116); [apply keyword_reads; try done; intros N ar hi a E La Ha; simpl; eauto 6 |].
  destruct (p_peek p =? 102); [apply keyword_reads; try done; intros N ar hi a E La Ha; simpl; eauto 6 |].
  destruct (p_peek p =? 110).
  { rewrite leaf_null. apply keyword_reads; try done. intros N ar hi a E La Ha. simpl. eauto 6. }
  destruct ((p_peek p =? 45) || is_digit (p_peek p)) eqn:E5; [| done].
  pose proof (number_spec p W) as Nm. destruct (p_number p) as [| | z p1] eqn:Q; cbn [bind]; [done | by rewrite Nm |]. destruct Nm as [E M].
  rewrite E. cbn [mbind option_bind]. apply (leaf_reads p p1 (JNum z)); try done.
  - destruct (decide (pos p = pos p1)) as [Ep |]; [| destruct M as (_ & ? & _); lia]. exfalso.
    assert (R : rest p1 = rest p) by (destruct M as (-> & _); apply rest_eq; simpl; congruence). rewrite R in E.
    by apply r_number_shorter in E.
  - intros N ar hi a En La Ha. simpl. eauto 6.
Qed.

Lemma value_spec d : forall n, (n < d)%nat -> value_ok (p_value d) (r_value d) n.
Proof.
  induction d as [| d IH]; intros n L p W Ln; [lia |]. cbn [p_value r_value].
  destruct (skip_moved p W) as (p0 & -> & M & R & Lr). rewrite <- R. assert (W0 : wfp p0) by apply M. apply (reads_moved p p0); [done |].
  rewrite head_rest by done. destruct (peek_cases p0 W0) as [(_ & _ & ->) | (L0 & R0 & B & _)]; [done |].
  rewrite (proj2 (Z.ltb_ge _ _)) by lia. assert (Lt : (length (tail (rest p0)) <= pred n)%nat) by (rewrite R0 in *; simpl in *; lia).
  assert (Lp : (pred n < d)%nat) by (rewrite R0 in *; simpl in *; lia).
  destruct (containers_ok (p_value d) (r_value d) (pred n) (IH (pred n) Lp) p0 W0 Lt) as [Ca Co]. rewrite head_rest in Ca, Co by done.
  destruct (p_peek p0 =? 123) eqn:E1; zb; [by apply Co |]. destruct (p_peek p0 =? 91) eqn:E2; zb; [by apply Ca |]. by apply scalar_ok.
Qed.

(** A scratch of 2 GiB is a negative capacity: nothing is ever allocated. *)
Definition no_room (p : parser) : Prop := arena_cap p < 0 /\ arena_used p = 0.

Lemma skip_no_room k p : no_room p -> no_room (skip_loop k p).
Proof. revert p. induction k as [|k IH]; intros p R; [done |]. cbn [skip_loop]. cases; [| done]. cases; [| done]. by apply IH. Qed.

Lemma node_no_room {A} p ty (k : Z -> parser -> res A) : no_room p -> bind (node_alloc p ty) k = Null.
Proof.
  intros (C & U). unfold node_alloc, arena_alloc_aligned, sizeof_json_v. rewrite U. change (Z.land (0 + 3) (Z.lnot 3)) with 0.
  rewrite Z.gtb_ltb, (proj2 (Z.ltb_lt _ _)) by lia. done.
Qed.

Lemma number_no_room k : forall n p, no_room p -> Z.max 0 (plen p - pos p) < Z.of_nat k ->
  match number_loop k n p with Stuck => False | Null => True | Ret _ p' => no_room p' end.
Proof.
  induction k as [|k IH]; intros n p R L; cbn [number_loop].
  - lia.
  - destruct (Z.ltb_spec (pos p) (plen p)); [| done]. cases; [done |]. cases; [done |]. apply IH; [done |]. cbn [adv set_pos plen pos]. lia.
Qed.

Lemma value_no_room d p : no_room p -> p_value (S d) p = Null.
Proof.
  intros R. cbn [p_value]. cbv zeta. pose proof (skip_no_room (turns p) p R) as R0. fold (p_skip_ws p) in R0. set (q := p_skip_ws p) in *. clearbody q.
  assert (Rn : no_room (snd (p_next q))) by (unfold p_next; cbn [snd]; by destruct (_ >=? _)).
  destruct (p_peek q <? 0); [done |]. unfold p_object, p_array. destruct (p_next q) as [ch q0]. cbn [snd] in Rn.
  destruct (p_peek q =? 123); [destruct (negb _); [done |]; by apply node_no_room |].
  destruct (p_peek q =? 91); [destruct (negb _); [done |]; by apply node_no_room |]. unfold p_scalar. cbv zeta.
  cases; [by apply node_no_room |].
  assert (M : forall kw (k : unit -> parser -> res Z), (forall q', no_room q' -> k tt q' = Null) -> bind (p_match q kw) k = Null).
  { intros kw k K. unfold p_match. cbv zeta. cases; [done |]. destruct (zfind _ _ _); [done |]. by apply K. }
  cases; [apply M; intros; by apply node_no_room |]. cases; [apply M; intros; by apply node_no_room |].
  cases; [apply M; intros q' R'; pose proof (node_no_room q' JSON_NULL Ret R') as E; by destruct (node_alloc q' JSON_NULL) |].
  cases; [| done]. unfold p_number. cbv zeta. set (q1 := if p_peek q =? 45 then adv q else q). assert (R1 : no_room q1) by (unfold q1; by cases).
  cases; [done |]. pose proof (number_no_room (turns q1) 0 q1 R1 ltac:(unfold turns; lia)) as N.
  destruct (number_loop (turns q1) 0 q1) as [| | n q2]; cbn [bind]; [done | done |]. cases; [done |]. by apply node_no_room.
Qed.

Lemma parse_spec s scratch sz len : bytes_ok (ztake len s) -> 0 <= len <= zlen s -> zlen scratch = sz ->
  match json_parse (Some s) len (Some scratch) sz with
  | Stuck => False
  | Null => forall v, grammar (ztake len s) = Some v -> s32 sz < after 0 v
  | Ret a p => exists v, grammar (ztake len s) = Some v /\ shape (nodes p) (arena p) 0 (after 0 v) a v /\ after 0 v <= s32 sz
  end.
Proof.
  intros B L Z. unfold json_parse, grammar. destruct (sz <? sizeof_json_v) eqn:E; zb.
  { intros v _. assert (Sz : s32 sz <= sz).
    { unfold sizeof_json_v in E. pose proof (zlen_nonneg scratch). rewrite s32_small; lia. }
    assert (sizeof_json_v <= after 0 v); [| lia]. destruct v; simpl; unfold after_str; change (align4 0) with 0.
    1, 2, 3: unfold sizeof_json_v; lia.
    - pose proof (zlen_nonneg s0). unfold sizeof_json_v. lia.
    - apply (after_items_mono l).
    - apply (after_pairs_mono l). }
  set (p := mk_p s len 0 scratch (s32 sz) 0 ∅). unfold sizeof_json_v in E.
  assert (Av : forall v, 0 <= after 0 v) by (intros v; pose proof (after_mono v 0); lia).
  destruct (Z.ltb_spec (s32 sz) 0) as [Ng | Ng].
  { assert (R0 : no_room (p_skip_ws p)) by (by apply skip_no_room). unfold turns at 1. rewrite value_no_room by done. cbn [bind]. intros v _. specialize (Av v). lia. }
  assert (Sc : s32 sz <= sz).
  { unfold s32, u32. pose proof (Z.mod_le (sz + 2147483648) 4294967296 ltac:(lia) ltac:(lia)). lia. }
  assert (W : wfp p) by (unfold wfp; simpl; repeat split; try done; lia).
  assert (R : rest p = ztake len s) by (unfold rest; simpl; by rewrite Z.sub_0_r).
  destruct (skip_moved p W) as (p0 & -> & M & R0 & _). destruct (moved_nodes _ _ M) as (N0 & A0 & U0 & C0). assert (W0 : wfp p0) by apply M.
  rewrite R in R0. rewrite <- R0, <- turns_rest by done.
  pose proof (value_spec (turns p0) (length (rest p0)) ltac:(rewrite turns_rest by done; lia) p0 W0 (le_n _)) as V.
  apply (reads_moved p p0) in V; [| done]. unfold reads in V. change (arena_cap p) with (s32 sz) in V. change (arena_used p) with 0 in V.
  destruct (p_value (turns p0) p0) as [| | a p1]; cbn [bind]; [done | |].
  { intros v. destruct (r_value _ _) as [[v' r] |]; [| done]. cbn [mbind option_bind]. destruct (skip r); [| done]. intros [= ->]. by eapply V. }
  destruct V as (v & Ev & G & P & U & La & S & Nx). rewrite Ev. cbn [mbind option_bind]. assert (W1 : wfp p1) by apply G.
  destruct (skip_moved p1 W1) as (p2 & -> & M2 & R2 & _). destruct (moved_nodes _ _ M2) as (N2 & A2 & U2 & C2). rewrite <- R2.
  assert (W2 : wfp p2) by apply M2. destruct (peek_cases p2 W2) as [(E2 & R2' & _) | (L2 & R2' & _)]; rewrite R2'.
  - rewrite (proj2 (Z.eqb_eq _ _)) by done. simpl. exists v. split; [done |]. rewrite N2, A2. rewrite <- U. split; [done |].
    destruct W1 as (_ & _ & _ & ? & _). rewrite (g_cap _ _ _ G) in *. simpl in *. lia.
  - rewrite (proj2 (Z.eqb_neq _ _)) by lia. simpl. done.
Qed.

(** ** The text of a value is in the grammar *)

Definition is_ascii (c : Z) : bool := (0 <=? c) && (c <? 128).

(** ASCII strings, keys without NUL, int numbers. *)
Fixpoint plain (v : json) : bool :=
  match v with
  | JNum z => (-2147483648 <? z) && (z <? 2147483648)
  | JStr s => forallb is_ascii s
  | JArr l => forallb plain l
  | JObj l => forallb (fun kv => forallb (fun c => is_ascii c && negb (c =? 0)) (fst kv) && plain (snd kv)) l
  | _ => true
  end.

Lemma plain_encodable v : plain v = true -> encodable v = true.
Proof.
  induction v as [| b | z | s | l IH | l IH] using json_ind'; simpl; try done.
  - rewrite !forallb_forall. intros H c I. specialize (H c I). unfold is_ascii in H. unfold is_byte. zb. lia.
  - rewrite !forallb_forall. rewrite Forall_forall in IH. intros H x I. apply IH; [by apply list_elem_of_In | by apply H].
  - rewrite !forallb_forall. rewrite Forall_forall in IH. intros H x I. specialize (H x I). zb. apply andb_true_iff. split.
    + rewrite forallb_forall in *. intros c Ic. specialize (H c Ic). unfold is_ascii in H. unfold is_byte. zb. lia.
    + apply IH; [by apply list_elem_of_In | done].
Qed.

Lemma hex_round d : 0 <= d < 16 -> hex_digit (zget hex d) = d.
Proof.
  intros R. assert (H : Forall (fun d => hex_digit (zget hex d) = d) (seqZ 0 16)) by (apply Forall_forall; intros x X; repeat (apply elem_of_cons in X as [-> | X]; [done |]); by apply elem_of_nil in X).
  rewrite Forall_forall in H. apply H. apply elem_of_seqZ. lia.
Qed.

Lemma r_string_esc c t : is_ascii c = true -> r_string (esc c ++ t) = prepend [c] (r_string t).
Proof.
  unfold is_ascii, esc. intros A. zb.
  destruct (c =? 34) eqn:E1; zb; [by subst |]. destruct (c =? 92) eqn:E2; zb; [by subst |]. destruct (c =? 8) eqn:E3; zb; [by subst |].
  destruct (c =? 12) eqn:E4; zb; [by subst |]. destruct (c =? 10) eqn:E5; zb; [by subst |]. destruct (c =? 13) eqn:E6; zb; [by subst |].
  destruct (c =? 9) eqn:E7; zb; [by subst |]. assert (U : utf8 c = [c]) by (unfold utf8; rewrite (proj2 (Z.ltb_lt _ _)) by lia; done).
  destruct (c <? 32) eqn:E8; zb.
  - assert (H1 : hex_digit (zget hex (c / 16)) = c / 16) by (apply hex_round; Z.div_mod_to_equations; lia).
    assert (H2 : hex_digit (zget hex (c mod 16)) = c mod 16) by (apply hex_round; Z.div_mod_to_equations; lia).
    cbn [app r_string]. change (92 =? 34) with false. change (92 =? 92) with true. cbv iota. change (short_escape 117) with (@None Z). cbv iota.
    change (117 =? 117) with true. cbv iota. unfold all_hex, unit_of. cbn [forallb]. rewrite H1, H2. change (hex_digit 48) with 0.
    rewrite !(proj2 (Z.ltb_ge _ 0)) by (Z.div_mod_to_equations; lia). simpl negb. simpl andb. cbv iota.
    replace ((_ * 16 + c / 16) * 16 + c mod 16) with c by (Z.div_mod_to_equations; lia). unfold no_surrogate.
    replace (c >=? 55296) with false by lia. simpl. by rewrite U.
  - cbn [app r_string]. rewrite (proj2 (Z.eqb_neq c 34)), (proj2 (Z.eqb_neq c 92)), (proj2 (Z.ltb_ge c 32)) by lia. by rewrite U.
Qed.

Lemma r_string_body b s : forallb is_ascii b = true -> r_string (concat (esc <$> b) ++ 34 :: s) = Some (b, s).
Proof.
  induction b as [| c b IH]; intros A; [done |]. simpl in A. apply andb_true_iff in A as [Ac Ab]. cbn [fmap list_fmap concat]. rewrite <- app_assoc.
  rewrite r_string_esc by done. by rewrite IH.
Qed.

Lemma dec_rev_digits k u : 0 <= u -> Forall (fun c => is_digit c = true) (dec_rev k u).
Proof.
  revert u. induction k as [| k IH]; intros u U; simpl; [done |]. destruct (u =? 0); [done |].
  constructor; [unfold is_digit; Z.div_mod_to_equations; lia | apply IH; Z.div_mod_to_equations; lia].
Qed.

Lemma r_digits_rev k u t : 0 <= u < 10 ^ Z.of_nat k -> u < 2147483648 ->
  r_digits 0 (reverse (dec_rev k u) ++ t) = r_digits u t.
Proof.
  revert u t. induction k as [| k IH]; intros u t R B.
  { change (10 ^ Z.of_nat 0) with 1 in R. replace u with 0 by lia. done. }
  cbn [dec_rev]. destruct (u =? 0) eqn:E; zb; [by subst |]. rewrite reverse_cons, <- app_assoc. simpl app.
  rewrite Nat2Z.inj_succ, Z.pow_succ_r in R by lia.
  rewrite IH by (Z.div_mod_to_equations; lia). cbn [r_digits].
  assert (D : is_digit (48 + u mod 10) = true) by (unfold is_digit; Z.div_mod_to_equations; lia). rewrite D. simpl negb. cbv iota.
  replace (u / 10 >? 214748364) with false by (symmetry; rewrite Z.gtb_ltb; apply Z.ltb_ge; Z.div_mod_to_equations; lia).
  f_equal. rewrite s32_small; Z.div_mod_to_equations; lia.
Qed.

Lemma height_nonneg v : 0 <= height v.
Proof. destruct v as [| | | | l | l]; simpl; try lia; induction l; simpl; lia. Qed.

(** What may follow a value inside a text. *)
Definition stops (t : list Z) : Prop := t = [] \/ head t = 44 \/ head t = 93 \/ head t = 125.

Lemma stops_digits t u : stops t -> r_digits u t = Some (u, t).
Proof. intros [-> | S]; [done |]. destruct t as [| c t]; [done |]. simpl in *. unfold is_digit. by replace (_ && _) with false by lia. Qed.

Lemma digits_head u t : 0 <= u < 2147483648 -> is_digit (head (digits u ++ t)) = true /\ exists c r, digits u = c :: r.
Proof.
  intros R. unfold digits, dec_tmp. destruct (u =? 0) eqn:E; zb; [split; [done | by exists 48, []] |].
  assert (F : Forall (fun c => is_digit c = true) (reverse (dec_rev 12 u))) by (apply Forall_reverse, dec_rev_digits; lia).
  destruct (reverse (dec_rev 12 u)) as [| c r] eqn:Q.
  - apply (f_equal reverse) in Q. rewrite reverse_involutive in Q. cbn [dec_rev] in Q. by rewrite (proj2 (Z.eqb_neq _ _)) in Q.
  - inversion_clear F. split; [done | by exists c, r].
Qed.

Lemma r_digits_digits u t : 0 <= u < 2147483648 -> r_digits 0 (digits u ++ t) = r_digits u t.
Proof.
  intros R. unfold digits, dec_tmp. destruct (u =? 0) eqn:E; zb; [by subst |]. apply r_digits_rev; [change (10 ^ Z.of_nat 12) with 1000000000000; lia | lia].
Qed.

Lemma stops_head t : stops t -> (head t =? 46) || (head t =? 101) || (head t =? 69) = false.
Proof. intros [-> | S]; [done | lia]. Qed.

Lemma r_number_num z t : -2147483648 < z < 2147483648 -> stops t -> r_number (num z ++ t) = Some (z, t).
Proof.
  intros R S. unfold r_number, num. destruct (z <? 0) eqn:E; zb.
  - cbn [app head]. change (45 =? 45) with true. cbv iota. cbn [tail]. destruct (digits_head (- z) t ltac:(lia)) as [-> _]. cbn [negb].
    rewrite r_digits_digits, stops_digits by (done || lia). cbn [mbind option_bind]. rewrite stops_head by done. rewrite Z.opp_involutive, s32_small by lia. done.
  - destruct (digits_head z t ltac:(lia)) as [D _]. replace (head (digits z ++ t) =? 45) with false by (unfold is_digit in D; lia).
    rewrite D. cbn [negb]. rewrite r_digits_digits, stops_digits by (done || lia). cbn [mbind option_bind]. by rewrite stops_head.
Qed.

(** The first byte of a text. *)
Lemma text_head v t : plain v = true -> exists c r, text v ++ t = c :: r /\ is_ws c = false /\ 32 < c /\ c <> 93 /\ c <> 125.
Proof.
  assert (G : forall c r, is_ws c = false /\ 32 < c /\ c <> 93 /\ c <> 125 ->
    exists c' r', c :: r = c' :: r' /\ is_ws c' = false /\ 32 < c' /\ c' <> 93 /\ c' <> 125) by (intros c r H; by exists c, r).
  intros P. destruct v as [| b | z | s | l | l]; [by apply G | destruct b; by apply G | | by apply G | by apply G | by apply G].
  simpl in P. zb. unfold text, num. destruct (z <? 0) eqn:E; zb; [by apply G |].
  destruct (digits_head z t ltac:(lia)) as [D (c & r & Q)]. rewrite Q in *. simpl in D. apply G. unfold is_digit, is_ws in *. lia.
Qed.

Lemma skip_text v t : plain v = true -> skip (text v ++ t) = text v ++ t.
Proof. intros P. destruct (text_head v t P) as (c & r & -> & W & _). simpl. by rewrite W. Qed.

Lemma more_stops l t : head t = 93 \/ head t = 125 -> stops (more l ++ t) /\ 32 < head (more l ++ t).
Proof. intros H. unfold more, stops. destruct l as [| x l]; simpl; lia. Qed.

Lemma skip_head t : 32 < head t -> skip t = t.
Proof. destruct t as [| c t]; [done |]. simpl. intros H. unfold is_ws. by replace (_ || _) with false by lia. Qed.

(** The loop over the items of a container. *)
Lemma r_loop_items {E} (r : list Z -> option (E * list Z)) (g : E -> list Z) close k l e t :
  close = 93 \/ close = 125 -> (length l < k)%nat ->
  (forall x t, In x (e :: l) -> stops t -> r (g x ++ t) = Some (x, t)) ->
  r_loop r close k (g e ++ more (g <$> l) ++ close :: t) = Some (e :: l, t).
Proof.
  intros C. revert k e. induction l as [| x l IH]; intros k e L H; (destruct k as [| k]; [simpl in L; lia |]); cbn [r_loop].
  - simpl more. simpl app. rewrite H by (simpl; auto; unfold stops; simpl; lia). cbn [mbind option_bind].
    rewrite skip_head by (simpl; lia). cbn [head tail]. rewrite (proj2 (Z.eqb_neq close 44)), Z.eqb_refl by lia. done.
  - destruct (more_stops (g <$> x :: l) (close :: t) ltac:(simpl; lia)) as [S N]. rewrite H by (simpl; auto). cbn [mbind option_bind].
    rewrite skip_head by (simpl; lia). unfold more. cbn [fmap list_fmap concat head tail app]. change (44 =? 44) with true. cbv iota.
    rewrite <- app_assoc. cbn [tail app]. fold (more (g <$> l)). rewrite IH; [done | simpl in L; lia |]. intros y u I. apply H. simpl in *. tauto.
Qed.

Lemma r_cont_items {E} (r : list Z -> option (E * list Z)) (g : E -> list Z) close mk open l t :
  close = 93 \/ close = 125 ->
  (forall x, In x l -> exists c s, g x = c :: s /\ is_ws c = false /\ c <> close) ->
  (forall x t, In x l -> stops t -> r (g x ++ t) = Some (x, t)) ->
  r_cont r close mk (open :: commas (g <$> l) ++ close :: t) = Some (mk l, t).
Proof.
  intros C Hd H. unfold r_cont. cbn [tail]. destruct l as [| e l].
  - cbn [fmap list_fmap commas app]. rewrite skip_head by (simpl; lia). cbn [head tail]. by rewrite Z.eqb_refl.
  - destruct (Hd e) as (c & s & G & W & N); [by left |]. cbn [fmap list_fmap commas]. rewrite <- app_assoc.
    assert (Sk : skip (g e ++ more (g <$> l) ++ close :: t) = g e ++ more (g <$> l) ++ close :: t) by (rewrite G; simpl; by rewrite W).
    rewrite Sk. replace (head (g e ++ _) =? close) with false by (rewrite G; simpl; lia).
    rewrite r_loop_items; [done | done | | done].
    rewrite !length_app. simpl. assert (L : (length l <= length (more (g <$> l)))%nat); [| lia].
    clear. unfold more. induction l as [| x l IH]; [simpl; lia |]. rewrite !fmap_cons. cbn [concat app length]. rewrite length_app. lia.
Qed.

Lemma value_at_head d t : 32 < head t ->
  r_value (S d) t = if head t =? 123 then r_object (r_value d) t else if head t =? 91 then r_array (r_value d) t else r_scalar t.
Proof. intros H. cbn [r_value]. rewrite skip_head by done. by replace (head t <? 0) with false by lia. Qed.

Lemma value_reads v : plain v = true -> forall d t, height v < Z.of_nat d -> stops t -> r_value d (text v ++ t) = Some (v, t).
Proof.
  induction v as [| b | z | s | l IH | l IH] using json_ind'; intros P d t L S;
    (destruct d as [| d]; [exfalso; match type of L with height ?v < _ => pose proof (height_nonneg v); cbn in L, H; clear - L H; lia end |]);
    (rewrite value_at_head; [| match goal with |- 32 < head (text ?v ++ _) => destruct (text_head v t P) as (c & r & -> & _ & ? & _); done end]).
  - done.
  - by destruct b.
  - cbn [text]. unfold r_scalar. simpl in P. pose proof (r_number_num z t ltac:(zb; lia) S) as R.
    assert (H : head (num z ++ t) = 45 \/ is_digit (head (num z ++ t)) = true).
    { unfold num. destruct (z <? 0) eqn:E; [by left |]. zb. right. apply digits_head. lia. }
    rewrite R. set (h := head (num z ++ t)) in *. assert (G : (h =? 123) = false /\ (h =? 91) = false /\ (h =? 34) = false /\ (h =? 116) = false /\ (h =? 102) = false /\ (h =? 110) = false /\ (h =? 45) || is_digit h = true) by (unfold is_digit in *; lia).
    destruct G as (-> & -> & -> & -> & -> & -> & ->). done.
  - simpl in P. cbn [text quote app head]. change (34 =? 123) with false. change (34 =? 91) with false. cbv iota. unfold r_scalar. cbn [head tail].
    change (34 =? 34) with true. cbv iota. rewrite <- app_assoc. cbn [app]. by rewrite r_string_body.
  - cbn [text app head]. change (91 =? 123) with false. change (91 =? 91) with true. cbv iota. rewrite r_array_eq, <- app_assoc.
    simpl in P, L. rewrite forallb_forall in P. rewrite Forall_forall in IH.
    apply (r_cont_items _ text); [lia | |].
    + intros x I. destruct (text_head x [] (P x I)) as (c & r & E & W & _ & N & _). rewrite app_nil_r in E. by exists c, r.
    + intros x u I Su. rewrite skip_text by by apply P. apply IH; [by apply list_elem_of_In | by apply P | | done].
      pose proof (height_bound l x _ I (Z.le_refl _)). lia.
  - cbn [text app head]. change (123 =? 123) with true. cbv iota. rewrite r_object_eq, <- app_assoc.
    simpl in P, L. rewrite forallb_forall in P. rewrite Forall_forall in IH.
    apply (r_cont_items _ (fun kv => quote (fst kv) ++ 58 :: text (snd kv))); [lia | |].
    + intros x I. by eexists _, _.
    + intros [k x] u I Su. specialize (P _ I). simpl in P. apply andb_true_iff in P as [Pk Px]. unfold r_pair. cbn [fst snd].
      unfold quote. cbn [app]. rewrite (skip_head (34 :: _)) by done. cbn [head tail]. change (negb (34 =? 34)) with false. cbv iota.
      rewrite <- !app_assoc. cbn [app]. rewrite r_string_body. 2: { rewrite forallb_forall in *. intros c Ic. specialize (Pk c Ic). by apply andb_true_iff in Pk as [? _]. }
      cbn [mbind option_bind]. rewrite (skip_head (58 :: _)) by done. cbn [head tail]. change (negb (58 =? 58)) with false. cbv iota.
      rewrite skip_text by done. pose proof (height_bound_obj l (k, x) _ I (Z.le_refl _)). simpl in *.
      rewrite (IH (k, x)); [done | by apply list_elem_of_In | done | simpl; lia | done].
Qed.

Lemma height_items {E} (h : E -> Z) (g : E -> list Z) l : Forall (fun x => h x <= zlen (g x)) l ->
  foldr (fun x m => Z.max (h x) m) 0 l <= zlen (more (g <$> l)) /\ foldr (fun x m => Z.max (h x) m) 0 l <= zlen (commas (g <$> l)).
Proof.
  intros F. assert (G : foldr (fun x m => Z.max (h x) m) 0 l <= zlen (more (g <$> l))).
  { unfold more. induction F as [| x l Hx _ IH]; [done |]. rewrite !fmap_cons. cbn [concat foldr app]. rewrite zlen_cons, zlen_app.
    pose proof (zlen_nonneg (concat (cons 44 <$> (g <$> l)))). pose proof (zlen_nonneg (g x)). lia. }
  split; [done |]. destruct F as [| x l Hx F]; [done |]. unfold commas. rewrite fmap_cons. unfold more in *. rewrite !fmap_cons in G. cbn [concat foldr app] in *.
  rewrite zlen_cons, zlen_app in G. rewrite zlen_app.
  assert (G' : foldr (fun x m => Z.max (h x) m) 0 l <= zlen (concat (cons 44 <$> (g <$> l)))).
  { clear -F. induction F as [| y l Hy _ IH]; [done |]. rewrite !fmap_cons. cbn [concat foldr app]. rewrite zlen_cons, zlen_app.
    pose proof (zlen_nonneg (concat (cons 44 <$> (g <$> l)))). pose proof (zlen_nonneg (g y)). lia. }
  pose proof (zlen_nonneg (concat (cons 44 <$> (g <$> l)))). pose proof (zlen_nonneg (g x)). lia.
Qed.

Lemma height_text v : height v <= zlen (text v).
Proof.
  induction v as [| b | z | s | l IH | l IH] using json_ind'; cbn [height]; try apply zlen_nonneg; cbn [text]; rewrite zlen_cons, zlen_app; change (zlen [_]) with 1.
  - pose proof (proj2 (height_items height text l IH)). lia.
  - assert (F : Forall (fun kv => height (snd kv) <= zlen (quote (fst kv) ++ 58 :: text (snd kv))) l).
    { apply (Forall_impl _ _ _ IH). intros kv H. rewrite zlen_app, zlen_cons. pose proof (zlen_nonneg (quote (fst kv))). lia. }
    destruct (height_items (fun kv => height (snd kv)) (fun kv => quote (fst kv) ++ 58 :: text (snd kv)) l F) as [_ H]. cbv beta in H. lia.
Qed.

Lemma grammar_text v : plain v = true -> grammar (text v) = Some v.
Proof.
  intros P. unfold grammar. pose proof (skip_text v [] P) as Sk. rewrite app_nil_r in Sk. rewrite Sk.
  pose proof (value_reads v P (S (length (text v))) []) as R. rewrite app_nil_r in R. rewrite R; [done | | by left].
  pose proof (height_text v). unfold zlen in *. lia.
Qed.

(** The bytes of a text are printable: none is a control character. *)
Lemma text_bytes v : plain v = true -> Forall (fun c => 32 <= c < 128) (text v).
Proof.
  assert (Q : forall s, forallb is_ascii s = true -> Forall (fun c => 32 <= c < 128) (quote s)).
  { intros s A. unfold quote. constructor; [lia |]. apply Forall_app. split; [| by repeat constructor].
    induction s as [| c s IH]; [done |]. simpl in A. apply andb_true_iff in A as [Ac As]. rewrite fmap_cons. cbn [concat]. apply Forall_app. split; [| by apply IH].
    unfold esc. repeat (case_match; [by repeat constructor |]). unfold is_ascii in Ac.
    case_match; [| constructor; [zb; lia | constructor]]. assert (X : forall d, 0 <= d < 16 -> 32 <= zget hex d < 128); [| zb; repeat (constructor; [lia || apply X; Z.div_mod_to_equations; lia |]); constructor].
    intros d D. assert (X : Forall (fun d => 32 <= zget hex d < 128) (seqZ 0 16)) by (apply Forall_forall; intros x X; repeat (apply elem_of_cons in X as [-> | X]; [done |]); by apply elem_of_nil in X).
    rewrite Forall_forall in X. apply X, elem_of_seqZ. lia. }
  assert (C : forall l, Forall (Forall (fun c => 32 <= c < 128)) l -> Forall (fun c => 32 <= c < 128) (commas l)).
  { intros l F. destruct F as [| x l Hx F]; [done |]. simpl. apply Forall_app. split; [done |]. unfold more.
    induction F as [| y l Hy _ IH]; [done |]. rewrite fmap_cons. cbn [concat]. apply Forall_app. split; [by constructor | done]. }
  assert (D : forall u, 0 <= u -> Forall (fun c => 32 <= c < 128) (digits u)).
  { intros u U. unfold digits, dec_tmp. destruct (u =? 0); [by repeat constructor |]. apply Forall_reverse.
    apply (Forall_impl _ _ _ (dec_rev_digits 12 u U)). intros c. unfold is_digit. lia. }
  induction v as [| b | z | s | l IH | l IH] using json_ind'; intros P; cbn [text].
  - by repeat constructor.
  - destruct b; by repeat constructor.
  - unfold num. destruct (z <? 0) eqn:E; zb; [constructor; [lia | apply D; lia] | apply D; lia].
  - by apply Q.
  - constructor; [lia |]. apply Forall_app. split; [| by repeat constructor]. apply C, Forall_fmap. simpl in P. rewrite forallb_forall in P.
    rewrite Forall_forall in *. intros x I. apply IH; [done |]. by apply P, list_elem_of_In.
  - constructor; [lia |]. apply Forall_app. split; [| by repeat constructor]. apply C, Forall_fmap. simpl in P. rewrite forallb_forall in P.
    rewrite Forall_forall in *. intros [k x] I. specialize (P (k, x) ltac:(by apply list_elem_of_In)). simpl in *. apply andb_true_iff in P as [Pk Px].
    change (Forall (fun c => 32 <= c < 128) (quote k ++ 58 :: text x)). apply Forall_app. split; [| constructor; [lia | by apply (IH (k, x))]]. apply Q. rewrite forallb_forall in *. intros c Ic. specialize (Pk c Ic). by apply andb_true_iff in Pk as [? _].
Qed.

Lemma text_bytes_ok v : plain v = true -> bytes_ok (text v).
Proof. intros P. apply (Forall_impl _ _ _ (text_bytes v P)). intros; lia. Qed.

(** Parsing a buffer that starts with a text. *)
Lemma parse_text v b n scratch sz : plain v = true -> n = zlen (text v) -> ztake n b = text v -> n <= zlen b -> zlen scratch = sz ->
  after 0 v <= s32 sz -> exists a p, json_parse (Some b) n (Some scratch) sz = Ret a p /\ shape (nodes p) (arena p) 0 (after 0 v) a v.
Proof.
  intros P N T L Z A. pose proof (zlen_nonneg (text v)). pose proof (parse_spec b scratch sz n ltac:(rewrite T; by apply text_bytes_ok) ltac:(lia) Z) as S.
  rewrite T, grammar_text in S by done. destruct (json_parse _ _ _ _) as [| | a p]; [done | by specialize (S v eq_refl); lia |].
  destruct S as (v' & [= <-] & S & _). by exists a, p.
Qed.

End JSONP.
