(* ===== verification/Jsonl.v ===== *)
(** The accessors and the JSONL helpers of src/libjson/libjson.c, and the
    properties of the library: round trip, agreement of the parser with the
    grammar, lookup of keys, and framing of records by lines.

    sys_read and sys_write are arguments; the laws of a byte stream are stated
    by the class [Stream]. *)
From Stdlib Require Import ZArith Lia String.
From stdpp Require Import base numbers list gmap.
From S2P Require Import Prelude Json JsonParse.

Module JSONL.
Import JSON JSONP.

(** ** Accessors *)

Definition str_eq_n (ar : list Z) (a : option Z) (an : Z) (b : list Z) : bool :=
  let bn := my_strlen b in
  if negb (an =? bn) then false else
  match a with
  | None => an =? 0
  | Some a => match zfind (Z.to_nat an) 0 (fun i => negb (zget ar (a + i) =? zget b i)) with Some _ => false | None => true end
  end.

(** The loop over the keys; running out of fuel is [None]. *)
Fixpoint get_loop (fuel : nat) (p : parser) (k : option Z) (key : list Z) : option (option Z) :=
  match fuel with
  | O => None
  | S f =>
      match k with
      | None => Some None
      | Some k =>
          let n := node p k in
          match next n with
          | None => Some None
          | Some v =>
              if (match vtype n with JSON_STR => true | _ => false end) && str_eq_n (arena p) (str n) (str_len n) key then Some (Some v)
              else get_loop f p (next (node p v)) key
          end
      end
  end.

Definition json_obj_get (fuel : nat) (p : parser) (v : option Z) (key : list Z) : option (option Z) :=
  match v with
  | None => Some None
  | Some v => match vtype (node p v) with JSON_OBJ => get_loop fuel p (child (node p v)) key | _ => Some None end
  end.

(** [while (c && i > 0) { c = c->next; i--; }] *)
Fixpoint walk (i : nat) (p : parser) (c : option Z) : option Z :=
  match i, c with
  | S i, Some a => walk i p (next (node p a))
  | _, _ => c
  end.

Definition json_arr_at (p : parser) (v : option Z) (i : Z) : option Z :=
  match v with
  | None => None
  | Some v => match vtype (node p v) with JSON_ARR => walk (Z.to_nat i) p (child (node p v)) | _ => None end
  end.

Fixpoint count_loop (fuel : nat) (p : parser) (c : option Z) (n : Z) : option Z :=
  match fuel with
  | O => None
  | S f => match c with None => Some n | Some a => count_loop f p (next (node p a)) (n + 1) end
  end.

Definition json_arr_len (fuel : nat) (p : parser) (v : option Z) : option Z :=
  match v with
  | None => Some (-1)
  | Some v => match vtype (node p v) with JSON_ARR => count_loop fuel p (child (node p v)) 0 | _ => Some (-1) end
  end.

Definition json_to_int (p : parser) (v : option Z) : Z :=
  match v with
  | None => 0
  | Some v => match vtype (node p v) with JSON_NUM | JSON_BOOL => vnum (node p v) | _ => 0 end
  end.

Definition json_to_int_or (p : parser) (v : option Z) (fallback : Z) : Z :=
  match v with
  | None => fallback
  | Some v => match vtype (node p v) with JSON_NUM | JSON_BOOL => vnum (node p v) | _ => fallback end
  end.

Definition json_to_bool (p : parser) (v : option Z) : Z :=
  match v with
  | None => 0
  | Some v =>
      match vtype (node p v) with
      | JSON_BOOL => vnum (node p v)
      | JSON_NUM => if negb (vnum (node p v) =? 0) then 1 else 0
      | _ => 0
      end
  end.

(** The pointer and the length written through [out_len]. *)
Definition json_to_str (p : parser) (v : option Z) : option Z * Z :=
  match v with
  | None => (None, 0)
  | Some v => match vtype (node p v) with JSON_STR => (str (node p v), str_len (node p v)) | _ => (None, 0) end
  end.

(** ** Lines *)

Section Calls.
Context {S : Type} (sys_write : Z -> list Z -> S -> Z * S) (sys_read : Z -> S -> Z * Z * S).

(** [while (written < n)]; [false] is the return value -1. *)
Fixpoint write_loop (fuel : nat) (fd : Z) (b : list Z) (n written : Z) (s : S) : option (bool * S) :=
  match fuel with
  | O => None
  | Datatypes.S f =>
      if written <? n then
        let '(r, s) := sys_write fd (ztake (n - written) (zdrop written b)) s in
        if r <=? 0 then Some (false, s) else write_loop f fd b n (written + r) s
      else Some (true, s)
  end.

(** The state of the encoder for the next record. *)
Definition rewind (w : json_w) : json_w := mk_w (buf w) (cap w) 0 true 0 (zrep JSON_W_MAX_DEPTH 0) false.

(** The return value, the encoder and the state; the outer [None] is the end of the fuel. *)
Definition json_emit_line (fuel : nat) (w : json_w) (fd : Z) (s : S) : option (Z * json_w * S) :=
  if negb (ok w) then Some (-1, w, s) else
  let n := len w in
  '(flushed, s) ← write_loop fuel fd (buf w) n 0 s;
  if negb (flushed : bool) then Some (-1, w, s) else
  let '(r, s) := sys_write fd [10] s in
  if negb (r =? 1) then Some (-1, w, s) else Some (n + 1, rewind w, s).

(** [while (sys_read(fd, &c, 1) == 1 && c != '\n') { }] *)
Fixpoint drain (fuel : nat) (fd : Z) (s : S) : option S :=
  match fuel with
  | O => None
  | Datatypes.S f =>
      let '(r, c, s) := sys_read fd s in
      if (r =? 1) && negb (c =? 10) then drain f fd s else Some s
  end.

Fixpoint line_loop (fuel : nat) (fd : Z) (b : list Z) (cap len : Z) (s : S) : option (Z * list Z * S) :=
  match fuel with
  | O => None
  | Datatypes.S f =>
      let '(r, c, s) := sys_read fd s in
      if r <? 0 then Some (-1, b, s)
      else if r =? 0 then (if len =? 0 then Some (0, b, s) else Some (len, zset b len 0, s))
      else if c =? 10 then Some (len, zset b len 0, s)
      else if len + 1 >=? cap then s ← drain f fd s; Some (-1, b, s)
      else line_loop f fd (zset b len c) cap (len + 1) s
  end.

Definition jsonl_read_line (fuel : nat) (fd : Z) (b : list Z) (cap : Z) (s : S) : option (Z * list Z * S) :=
  if cap <=? 1 then Some (-1, b, s) else line_loop fuel fd b cap 0 s.

End Calls.

(** A byte stream: a write takes at least one byte, a read takes the oldest byte, and 0 means that none is left. *)
Class Stream {S : Type} (sys_write : Z -> list Z -> S -> Z * S) (sys_read : Z -> S -> Z * Z * S) := {
  content : S -> list Z;
  write_law fd b s : b <> [] -> exists r s', sys_write fd b s = (r, s') /\ 1 <= r <= zlen b /\ content s' = content s ++ ztake r b;
  read_law fd s :
    match content s with
    | [] => exists c s', sys_read fd s = (0, c, s') /\ content s' = []
    | c :: l => exists s', sys_read fd s = (1, c, s') /\ content s' = l
    end }.

(** A pipe that takes at most seven bytes per write. *)
Definition pipe_write (fd : Z) (b s : list Z) : Z * list Z := (zlen (ztake 7 b), s ++ ztake 7 b).
Definition pipe_read (fd : Z) (s : list Z) : Z * Z * list Z := match s with [] => (0, 0, []) | c :: l => (1, c, l) end.

#[export, refine] Instance pipe_stream : Stream pipe_write pipe_read := {| content := fun s => s |}.
Proof.
  - intros fd b s N. eexists _, _. split; [done |]. rewrite zlen_ztake by lia. destruct b as [| x b]; [done |].
    rewrite zlen_cons. pose proof (zlen_nonneg b). split; [lia |]. f_equal. unfold ztake. destruct (decide (zlen b + 1 <= 7)).
    + rewrite Z.min_r by lia. unfold zlen in *. rewrite !take_ge; [done | simpl; lia | simpl; lia].
    + by rewrite Z.min_l by lia.
  - intros fd s. destruct s; simpl; eauto.
Defined.

(** ** Keys *)

Lemma str_eq_spec ar n lo hi k key : holds_str ar lo hi n k -> ztake (my_strlen key) key = key ->
  str_eq_n ar (str n) (str_len n) key = bool_decide (k = key).
Proof.
  intros (_ & L & o & O & _ & _ & St) K. unfold str_eq_n. rewrite L, O. pose proof (zlen_nonneg k).
  assert (M : my_strlen key = zlen key).
  { apply (f_equal zlen) in K. assert (0 <= my_strlen key <= zlen key); [| rewrite zlen_ztake in K by lia; lia].
    clear. induction key as [| c key IH]; simpl; [done |]. rewrite zlen_cons. destruct (c =? 0); lia. }
  rewrite M. destruct (zlen k =? zlen key) eqn:E; zb; simpl.
  2: { rewrite bool_decide_eq_false_2; [done | by intros ->]. }
  destruct (zfind _ _ _) as [j |] eqn:F.
  - apply zfind_Some in F as (R & P & _). zb. rewrite bool_decide_eq_false_2; [done |]. intros ->. apply P. rewrite St by lia. apply zget_app_l. lia.
  - rewrite zfind_None in F. rewrite bool_decide_eq_true_2; [done |]. apply zlist_eq; [done |]. intros i I.
    specialize (F i ltac:(lia)). zb. rewrite <- F, St by lia. symmetry. apply zget_app_l. lia.
Qed.

Lemma get_loop_spec p hi l key fuel : ztake (my_strlen key) key = key -> (length l < fuel)%nat -> forall lo o,
  chain (nodes p) hi (entry_at (nodes p) (arena p)) lo o l ->
  exists r, get_loop fuel p o key = Some r /\
    match find (fun kv => bool_decide (fst kv = key)) l with
    | None => r = None
    | Some kv => exists c lo' hi', r = Some c /\ shape (nodes p) (arena p) lo' hi' c (snd kv)
    end.
Proof.
  intros K. revert fuel. induction l as [| [k v] l IH]; intros fuel L lo o C; (destruct fuel as [| fuel]; [simpl in L; lia |]); cbn [get_loop].
  - simpl in C. subst. by exists None.
  - destruct C as (a & b & m & n & -> & _ & (m1 & nk & _ & _ & _ & Ea & Hk & Enx & Sh) & Eb & C). cbn [fst snd] in *.
    rewrite (node_lookup _ _ _ Ea), Enx, (str_eq_spec _ _ _ _ k key Hk K). destruct Hk as (T & _). rewrite T. cbn [andb find fst].
    destruct (bool_decide (k = key)); [eauto 10 |]. rewrite (node_lookup _ _ _ Eb). apply (IH fuel ltac:(simpl in L; lia) m). exact C.
Qed.

Lemma arr_walk_spec p hi l i : forall lo o, chain (nodes p) hi (item_at (nodes p) (arena p)) lo o l ->
  match l !! i with
  | Some v => exists c lo' hi', walk i p o = Some c /\ shape (nodes p) (arena p) lo' hi' c v
  | None => walk i p o = None
  end.
Proof.
  revert i. induction l as [| v l IH]; intros i lo o C; [simpl in C; subst; by destruct i |].
  destruct C as (a & b & m & n & -> & _ & (<- & Sh) & Eb & C). destruct i as [| i]; simpl; [eauto 10 |].
  rewrite (node_lookup _ _ _ Eb). by apply (IH i m).
Qed.

Lemma count_spec p hi l fuel n : (length l < fuel)%nat -> forall lo o, chain (nodes p) hi (item_at (nodes p) (arena p)) lo o l ->
  count_loop fuel p o n = Some (n + zlen l).
Proof.
  revert fuel n. induction l as [| v l IH]; intros fuel n L lo o C; (destruct fuel as [| fuel]; [simpl in L; lia |]); cbn [count_loop].
  - simpl in C. subst. by rewrite Z.add_0_r.
  - destruct C as (a & b & m & nd & -> & _ & (<- & Sh) & Eb & C). rewrite (node_lookup _ _ _ Eb), (IH fuel (n + 1) ltac:(simpl in L; lia) m _ C).
    rewrite zlen_cons. f_equal. lia.
Qed.

(** ** Lines over a stream *)

Section Lines.
Context {S : Type} (sys_write : Z -> list Z -> S -> Z * S) (sys_read : Z -> S -> Z * Z * S) `{St : !Stream sys_write sys_read}.

Lemma flush_spec fuel fd b n : forall written s, 0 <= written <= n -> n <= zlen b -> (Z.to_nat (n - written) < fuel)%nat ->
  exists s', write_loop sys_write fuel fd b n written s = Some (true, s') /\ content s' = content s ++ ztake (n - written) (zdrop written b).
Proof using St.
  induction fuel as [| fuel IH]; intros written s R L F; [lia |]. cbn [write_loop]. destruct (written <? n) eqn:E; zb.
  - set (piece := ztake (n - written) (zdrop written b)). assert (Lp : zlen piece = n - written) by (unfold piece; rewrite zlen_ztake, zlen_zdrop; lia).
    destruct (write_law fd piece s) as (r & s1 & -> & Rr & C1); [intros E0; rewrite E0 in Lp; change (zlen []) with 0 in Lp; lia |].
    rewrite (proj2 (Z.leb_gt _ _)) by lia. destruct (IH (written + r) s1) as (s' & -> & C'); [lia | lia | lia |].
    exists s'. split; [done |]. rewrite C', C1, <- app_assoc. f_equal. fold piece. rewrite <- (ztake_zdrop r piece) at 2. f_equal.
    apply zlist_eq.
    + rewrite zlen_ztake, !zlen_zdrop by lia. lia.
    + rewrite zlen_ztake, zlen_zdrop by lia. intros i I. unfold piece. rewrite zget_ztake, !zget_zdrop, zget_ztake, zget_zdrop by lia. f_equal. lia.
  - exists s. split; [done |]. replace (n - written) with 0 by lia. unfold ztake. simpl. by rewrite app_nil_r.
Qed.

Lemma emit_line_spec fuel w fd s : buf_ok w -> ok w = true -> (Z.to_nat (len w) < fuel)%nat ->
  exists s', json_emit_line sys_write fuel w fd s = Some (len w + 1, rewind w, s') /\ content s' = content s ++ out w ++ [10].
Proof using St.
  intros [L B] O F. unfold json_emit_line. rewrite O. simpl negb. cbv iota.
  destruct (flush_spec fuel fd (buf w) (len w) 0 s) as (s1 & -> & C1); [lia | lia | lia |]. cbn [mbind option_bind]. simpl negb. cbv iota.
  destruct (write_law fd [10] s1) as (r & s2 & -> & R & C2); [done |]. change (zlen [10]) with 1 in R. replace r with 1 in * by lia.
  exists s2. split; [done |]. rewrite C2, C1, <- app_assoc, Z.sub_0_r. done.
Qed.

Lemma drain_line_spec fuel fd s l t : content s = l ++ 10 :: t -> ~ In 10 l -> (length l < fuel)%nat ->
  exists s', drain sys_read fuel fd s = Some s' /\ content s' = t.
Proof using St.
  revert fuel s. induction l as [| c l IH]; intros fuel s C N F; (destruct fuel as [| fuel]; [simpl in F; lia |]); cbn [drain];
    pose proof (read_law fd s) as R; rewrite C in R; simpl in R; destruct R as (s1 & -> & C1); simpl.
  - by exists s1.
  - assert (c <> 10) by (intros ->; apply N; by left). rewrite (proj2 (Z.eqb_neq c 10)) by done. simpl.
    apply (IH fuel s1 C1); [intros I; apply N; by right | simpl in F; lia].
Qed.

Lemma line_loop_spec fuel fd cap l t : forall b n s, content s = l ++ 10 :: t -> ~ In 10 l -> (length l < fuel)%nat ->
  0 <= n -> n < cap -> cap <= zlen b ->
  exists b' s', line_loop sys_read fuel fd b cap n s = Some (if n + zlen l <? cap then n + zlen l else -1, b', s') /\ content s' = t /\ zlen b' = zlen b /\
    (n + zlen l < cap -> ztake (n + zlen l + 1) b' = ztake n b ++ l ++ [0]).
Proof using St.
  revert fuel. induction l as [| c l IH]; intros fuel b n s C N F N0 Nc Cb; (destruct fuel as [| fuel]; [simpl in F; lia |]); cbn [line_loop];
    pose proof (read_law fd s) as R; rewrite C in R; simpl in R; destruct R as (s1 & -> & C1); change (1 <? 0) with false; change (1 =? 0) with false; cbv iota.
  - change (10 =? 10) with true. cbv iota. change (zlen []) with 0. rewrite Z.add_0_r, (proj2 (Z.ltb_lt _ _)) by lia.
    exists (zset b n 0), s1. split; [done | split; [done | split; [apply zlen_zset |]]]. intros _. apply ztake_zset_last. lia.
  - assert (Hc : c <> 10) by (intros ->; apply N; by left). assert (Nl : ~ In 10 l) by (intros I; apply N; by right).
    rewrite (proj2 (Z.eqb_neq c 10)) by done. rewrite zlen_cons. pose proof (zlen_nonneg l). simpl in F. destruct (n + 1 >=? cap) eqn:E.
    + destruct (drain_line_spec fuel fd s1 l t C1 Nl ltac:(lia)) as (s2 & -> & C2). cbn [mbind option_bind].
      rewrite (proj2 (Z.ltb_ge _ _)) by lia. exists b, s2. split; [done | split; [done | split; [done | lia]]].
    + destruct (IH fuel (zset b n c) (n + 1) s1 C1 Nl ltac:(lia) ltac:(lia) ltac:(lia) ltac:(rewrite zlen_zset; lia)) as (b' & s' & E' & C' & L' & T).
      replace (n + (zlen l + 1)) with (n + 1 + zlen l) by lia. exists b', s'. split; [done | split; [done | split; [by rewrite zlen_zset in L' |]]].
      intros Lt. rewrite (T Lt), ztake_zset_last by lia. by rewrite <- app_assoc.
Qed.

Lemma read_line_spec fuel fd b cap s l t : content s = l ++ 10 :: t -> ~ In 10 l -> (length l < fuel)%nat -> 1 < cap <= zlen b ->
  exists b' s', jsonl_read_line sys_read fuel fd b cap s = Some (if zlen l <? cap then zlen l else -1, b', s') /\ content s' = t /\
    zlen b' = zlen b /\ (zlen l < cap -> ztake (zlen l + 1) b' = l ++ [0]).
Proof using St.
  intros C N F R. unfold jsonl_read_line. rewrite (proj2 (Z.leb_gt _ _)) by lia.
  destruct (line_loop_spec fuel fd cap l t b 0 s C N F ltac:(lia) ltac:(lia) ltac:(lia)) as (b' & s' & E & C' & L & T).
  exists b', s'. done.
Qed.

End Lines.

Lemma text_no_newline v : plain v = true -> ~ In 10 (text v).
Proof. intros P I. pose proof (text_bytes v P) as F. rewrite Forall_forall in F. specialize (F 10 ltac:(by apply list_elem_of_In)). simpl in F. lia. Qed.

(** Writing a value into a fresh encoder. *)
Lemma encode_spec v b cap : encodable v = true -> height v <= JSON_W_MAX_DEPTH -> 0 <= cap -> zlen b = cap ->
  let w := emit v (json_w_init b cap) in
  buf_ok w /\ JSON.cap w = cap /\ if zlen (text v) <=? cap then ok w = true /\ out w = text v else ok w = false.
Proof.
  intros E H C B w. assert (Bi : buf_ok (json_w_init b cap)) by (split; simpl; lia).
  destruct (emit_item v E (json_w_init b cap) Bi) as ((Bo & Cp & P) & _); [by split | done | done |].
  split; [done | split; [done |]]. exact P.
Qed.

(** ** Properties *)

(** C38. json_parse returns for every input and every scratch size: with 0 only when the grammar rejects the input or the
    value does not fit in the scratch, and otherwise with the root of a tree that denotes the value the grammar reads. The
    size of the scratch is taken as an int, so that one of 2 GiB or more has no room at all. *)
Theorem json_parse_grammar s scratch sz len :
  bytes_ok (ztake len s) -> 0 <= len <= zlen s -> zlen scratch = sz ->
  match json_parse (Some s) len (Some scratch) sz with
  | Stuck => False
  | Null => forall v, grammar (ztake len s) = Some v -> s32 sz < after 0 v
  | Ret a p => exists v, grammar (ztake len s) = Some v /\ shape (nodes p) (arena p) 0 (after 0 v) a v /\ after 0 v <= s32 sz
  end.
Proof. apply parse_spec. Qed.

Lemma json_parse_grammar_witness :
  match json_parse (Some (codes " [1, {} ]")) 9 (Some (zrep 100 7)) 100 with
  | Stuck => False
  | Null => forall v, grammar (ztake 9 (codes " [1, {} ]")) = Some v -> 100 < after 0 v
  | Ret a p => exists v, grammar (ztake 9 (codes " [1, {} ]")) = Some v /\ shape (nodes p) (arena p) 0 (after 0 v) a v /\ after 0 v <= 100
  end.
Proof.
  apply (json_parse_grammar (codes " [1, {} ]") (zrep 100 7) 100 9); [| vm_compute; split; discriminate | reflexivity].
  vm_compute. repeat (constructor; [split; [discriminate | reflexivity] |]). constructor.
Defined.

(** C39. The builder calls for a value write exactly its text when the text fits in the buffer and clear [ok] when it does
    not; either way the length stays within the capacity. *)
Theorem json_encode_text v b cap :
  encodable v = true -> height v <= JSON_W_MAX_DEPTH -> 0 <= cap -> zlen b = cap ->
  let w := emit v (json_w_init b cap) in
  0 <= len w <= cap /\ zlen (buf w) = cap /\ ok w = (zlen (text v) <=? cap) /\ (ok w = true -> ztake (len w) (buf w) = text v).
Proof.
  intros E H C B w. destruct (encode_spec v b cap E H C B) as ([L Lb] & Cp & P). fold w in L, Lb, Cp, P. rewrite Cp in *.
  split; [done | split; [done |]]. destruct (zlen (text v) <=? cap); [destruct P as [P1 P2]; unfold out in P2; by rewrite P1, P2 |]. by rewrite P.
Qed.

Lemma json_encode_text_witness :
  let v := JArr [JNum 12; JStr (codes "a")] in
  let w := emit v (json_w_init (zrep 10 0) 10) in
  0 <= len w <= 10 /\ zlen (buf w) = 10 /\ ok w = (zlen (text v) <=? 10) /\ (ok w = true -> ztake (len w) (buf w) = text v).
Proof. apply (json_encode_text (JArr [JNum 12; JStr (codes "a")]) (zrep 10 0) 10); [reflexivity | discriminate | discriminate | reflexivity]. Defined.

(** C40. A record written with the encoder and json_emit_line is what jsonl_read_line and json_parse give back, with any
    records that follow it left in the stream. *)
Theorem json_record_round_trip {S : Type} sys_write sys_read `{St : !@Stream S sys_write sys_read} v b cap fd s line rcap scratch sz rest fuel :
  plain v = true -> height v <= JSON_W_MAX_DEPTH -> zlen b = cap -> zlen (text v) <= cap ->
  zlen (text v) < rcap -> 1 < rcap <= zlen line -> zlen scratch = sz -> after 0 v <= s32 sz -> content s = [] -> cap + 1 < Z.of_nat fuel ->
  exists w' s1, json_emit_line sys_write fuel (emit v (json_w_init b cap)) fd s = Some (zlen (text v) + 1, w', s1) /\
  forall s2, content s2 = content s1 ++ rest ->
    exists line' s3 a p, jsonl_read_line sys_read fuel fd line rcap s2 = Some (zlen (text v), line', s3) /\ content s3 = rest /\
      json_parse (Some line') (zlen (text v)) (Some scratch) sz = Ret a p /\ shape (nodes p) (arena p) 0 (after 0 v) a v.
Proof.
  intros P H B C R L Z A Cs F. pose proof (zlen_nonneg (text v)) as N.
  destruct (encode_spec v b cap (plain_encodable v P) H ltac:(lia) B) as (Bo & Cp & E). rewrite (proj2 (Z.leb_le _ _)) in E by done.
  destruct E as [O T]. set (w := emit v (json_w_init b cap)) in *. pose proof (out_len w Bo) as Lw. rewrite T in Lw.
  destruct (emit_line_spec sys_write sys_read fuel w fd s Bo O ltac:(lia)) as (s1 & E1 & C1). rewrite Cs, T in C1.
  exists (rewind w), s1. rewrite Lw. split; [done |]. intros s2 C2. rewrite C1 in C2. simpl in C2. rewrite <- app_assoc in C2. simpl in C2.
  destruct (read_line_spec sys_write sys_read fuel fd line rcap s2 (text v) rest C2 (text_no_newline v P) ltac:(unfold zlen in *; lia) L)
    as (line' & s3 & E3 & C3 & L3 & T3). rewrite (proj2 (Z.ltb_lt _ _)) in E3 by done. specialize (T3 R).
  assert (T' : ztake (zlen (text v)) line' = text v).
  { apply (f_equal (take (length (text v)))) in T3. rewrite take_app_length in T3. rewrite <- T3 at 2. unfold ztake, zlen. rewrite take_take. f_equal. lia. }
  destruct (parse_text v line' (zlen (text v)) scratch sz P eq_refl T' ltac:(lia) Z A) as (a & p & E4 & Sh).
  exists line', s3, a, p. rewrite <- Lw. done.
Qed.

Lemma json_record_round_trip_witness :
  let v := JObj [(codes "ok", JBool true)] in
  exists w' s1, json_emit_line pipe_write 90 (emit v (json_w_init (zrep 40 0) 40)) 1 [] = Some (zlen (text v) + 1, w', s1) /\
  forall s2 : list Z, content s2 = content s1 ++ [123] ->
    exists line' s3 a p, jsonl_read_line pipe_read 90 1 (zrep 20 0) 20 s2 = Some (zlen (text v), line', s3) /\ content s3 = [123] /\
      json_parse (Some line') (zlen (text v)) (Some (zrep 90 0)) 90 = Ret a p /\ shape (nodes p) (arena p) 0 (after 0 v) a v.
Proof.
  apply (json_record_round_trip pipe_write pipe_read (JObj [(codes "ok", JBool true)]) (zrep 40 0) 40 1 [] (zrep 20 0) 20 (zrep 90 0) 90 [123] 90);
    try reflexivity; try discriminate; [vm_compute; split; [reflexivity | discriminate]].
Defined.

(** json_obj_get finds the value of the first pair with the key. *)
Lemma json_obj_get_first p lo hi a l key : shape (nodes p) (arena p) lo hi a (JObj l) -> ztake (my_strlen key) key = key ->
  exists r, json_obj_get (Datatypes.S (length l)) p (Some a) key = Some r /\
    match find (fun kv => bool_decide (fst kv = key)) l with
    | None => r = None
    | Some kv => exists c lo' hi', r = Some c /\ shape (nodes p) (arena p) lo' hi' c (snd kv)
    end.
Proof.
  intros (_ & _ & n & E & T & C) K. unfold json_obj_get. rewrite (node_lookup _ _ _ E), T. eapply get_loop_spec; [done | lia | exact C].
Qed.

(** json_arr_at gives the element at an index in range and 0 above it, json_arr_len the number of elements. *)
Lemma json_arr_spec p lo hi a l : shape (nodes p) (arena p) lo hi a (JArr l) ->
  json_arr_len (Datatypes.S (length l)) p (Some a) = Some (zlen l) /\
  forall i, match l !! Z.to_nat i with
    | Some v => exists c lo' hi', json_arr_at p (Some a) i = Some c /\ shape (nodes p) (arena p) lo' hi' c v
    | None => json_arr_at p (Some a) i = None
    end.
Proof.
  intros (_ & _ & n & E & T & C). unfold json_arr_len, json_arr_at. rewrite (node_lookup _ _ _ E), T. split; [change (zlen l) with (0 + zlen l); eapply count_spec; [lia | exact C] |].
  intros i. eapply arr_walk_spec. exact C.
Qed.

(** The header promises NULL for an index out of range; a negative index gives the first element. *)
Lemma json_arr_at_negative p v i : i < 0 -> json_arr_at p v i = json_arr_at p v 0.
Proof. intros L. unfold json_arr_at. destruct v; [| done]. by replace (Z.to_nat i) with 0%nat by lia. Qed.

(** A string byte above 127 is decoded as the two bytes of a code point of its own: UTF-8 text does not survive. *)
Example utf8_twice : r_string [195; 169; 34] = Some ([195; 131; 194; 169], []).
Proof. reflexivity. Qed.

(** The overflow guard lets 2147483648 and 2147483649 through. *)
Example number_wraps : r_number (codes "2147483648") = Some (-2147483648, []) /\ r_number (codes "2147483649") = Some (-2147483647, []).
Proof. split; reflexivity. Qed.

End JSONL.
